(* ===== verification/_CoqProject ===== *)
-Q . S2P
Prelude.v
Frame.v
Fixed.v
SharePool.v
TestRuntime.v
Crowdloan.v
CrowdloanExamples.v
Collective.v
CollectiveExamples.v
Codec.v
Registry.v
Commitments.v
DepositExamples.v
Dispatch.v
Proxy.v
Utility.v
ProxyProofs.v
RuntimeCalls.v
RuntimeProofs.v
RuntimeExamples.v
Tick.v
TickMath.v
Storage.v
Misc.v
Uids.v
Serving.v
Symbols.v
Reserves.v
SwapPool.v
SwapEngine.v
SwapBooks.v
SwapProofs.v
SwapBounds.v
Registration.v
Identity.v
RateLimiting.v
Children.v
Staking.v
SwapChain.v
StakeWeights.v
BlockStep.v
EpochMath.v
Weights.v
EpochMatrix.v
EpochBounds.v
Emission.v
Network.v
Lifecycle.v
Root.v
KeySwap.v
SwapSlots.v
Networks.v
Calls.v
CallSlots.v
Dividends.v
Coinbase.v
Hooks.v
Epoch.v
EpochPays.v
EpochSlots.v
AdminUtils.v
ChainSlots.v
SubtensorExamples.v
StakingExamples.v
BlockExamples.v
CoinbaseExamples.v
EpochExamples.v
NetworkExamples.v
AdminExamples.v
SlotExamples.v
SwapExamples.v
ChainExamples.v
