(* ===== verification/Prelude.v ===== *)
(** * A verified model of the subtensor runtime

    The repository is a Substrate blockchain: a runtime of FRAME pallets, of
    which src/pallets/subtensor is the centre. It keeps a set of subnets; on a
    subnet neurons (pairs of a hotkey and its owner coldkey) register, validators
    stake, set weights on the others and pass part of their stake to child keys;
    every block adjusts the registration terms of the subnets and, at the end of
    a subnet's tempo, runs its epoch. Stake is bought and sold against the
    subnet's pool, which the swap pallet runs. Keys are swapped, subnets are opened
    and removed, and the largest validators sit in a senate, whose motions the
    collective pallet decides; the admin-utils pallet sets the parameters. Next to
    them stand a crowdloan pallet, the proxy and utility pallets, through which
    accounts make calls for each other and in batches, and small libraries for
    share pools and fixed-point arithmetic.

    This library translates these parts into executable definitions, function by
    function and under the names of the source, and proves the properties that
    make them correct. Rust items appear as follows:
    - integers are [Z] of the width of their Rust type; saturating, checked and
      wrapping operations are written out ([sat_add], [checked_sub], [wrap_i64]);
    - fixed-point numbers are the integers of their bits (file [Fixed]);
    - a function that may fail is a computation [M S E A = S -> result E (A * S)]
      in the state-and-error monad of this file; an error drops the writes, as the
      transactional dispatch of FRAME does. A function that cannot fail is a plain
      function on the state. Where the source catches an error and goes on, the
      model does so explicitly, with what was written before the error: [attempt]
      of [Weights], [clear_small_nomination_if_required] of [Staking];
    - storage items are fields or entries of a record of finite maps, with the
      widths and defaults of the source;
    - code outside the repository (FRAME, balances, hashing, substrate_fixed,
      time-lock encryption) is a type class, with a class of laws where a theorem
      needs its documented behaviour. The traits the pallets see each other
      through are classes too ([SwapHandler], [SubnetInfo], [BalanceOps],
      [StakeView], [YumaEpoch]), and the file that implements one says so. [TestRuntime] and
      the files named [...Examples] instantiate all of them, so that the laws are
      satisfiable and every theorem with hypotheses is applied to a concrete state.

    ** Files

    - This file: results and the monad, record update, integer types, sums over
      lists and maps, generic lemmas, the tactics [monad_inv] (inverts a
      successful run) and the hint database [chain].
    - [Frame]: origins, accounts, currencies, the iteration order of storage.
    - [Fixed] (primitives/safe-math): fixed-point arithmetic; [checked_pow],
      [checked_sqrt].
    - [SharePool] (primitives/share-pool): pools of shares in one value.
    - [Crowdloan] (pallets/crowdloan): all extrinsics of the pallet.
    - [Tick] (pallets/swap/src/tick.rs): tick arithmetic, the bitmap of active ticks.
    - [TickMath] (pallets/swap/src/tick.rs): the square-root price of a tick and its
      inverse, on 256-bit integers.
    - [Storage] (pallets/subtensor/src/lib.rs and macros): the pallet's storage,
      errors, events and configuration; reads after writes.
    - [Misc] (utils/misc.rs, staking/helpers.rs): parameters and accounts.
    - [Uids] (subnets/uids.rs): the slots of the neurons of a subnet.
    - [Reserves] (swap-interface, stake_utils.rs): reserves, swaps, [SwapHandler].
    - [SwapPool] (pallets/swap: impls.rs, position.rs, mod.rs): the storage of the
      swap pallet, fees, positions and the operations on them; [SwapEngine]: the
      step of a swap, the loop over ticks, the calls. [SwapBooks], [SwapProofs] and
      [SwapBounds] prove what they do: the books of the ticks, the outcomes, the
      amounts. [SwapChain] (lib.rs, impls.rs) ties the swap and the subtensor pallet
      together: each implements the interfaces the other is written against.
    - [Registration] (subnets/registration.rs): burned and proof-of-work
      registration, pruning, the faucet.
    - [RateLimiting] (utils/rate_limiting.rs, increase_take.rs, decrease_take.rs).
    - [Children] (staking/set_children.rs): child keys. It sees the stake of a
      hotkey through the class [StakeView], which [Staking] implements.
    - [Staking] (stake_utils.rs, add_stake.rs, remove_stake.rs, move_stake.rs,
      recycle_alpha.rs): the share pools of the stakes and every stake extrinsic.
    - [StakeWeights] (stake_utils.rs): inherited stake and stake weights.
    - [BlockStep] (coinbase/block_step.rs, run_coinbase.rs): burn and difficulty
      adjustment, the epoch schedule.
    - [EpochMath] (epoch/math.rs): the vector functions that setting weights uses.
    - [Weights] (subnets/weights.rs, run_coinbase.rs): setting, committing and
      revealing weights, time-locked commits.
    - [Emission] (coinbase/block_emission.rs, stake_utils.rs): the emission of a
      block as a function of the issuance, the moving prices of the subnets.
    - [Dividends] (run_coinbase.rs): the shares of parents, children, root stake
      and alpha stake in what a validator earned.
    - [Coinbase] (run_coinbase.rs, block_step.rs): injection, owner cut, root sale,
      draining at the epochs, payouts; [block_step]. The epoch is the class
      [YumaEpoch], with what it writes as its law; [Steady] names the reads of the
      storage that nothing after the injection disturbs.
    - [Serving] (subnets/serving.rs): the endpoints neurons announce.
    - [Symbols] (subnets/symbols.rs): the names and symbols of the subnet tokens.
    - [Identity] (utils/identity.rs, utils/evm.rs, staking/account.rs): identities,
      the association of EVM keys, merging a staking account.
    - [Network] (subnets/subnet.rs, coinbase/root.rs): opening and removing subnets,
      the root network, the senate (class [Senate]); [Lifecycle] and [Root] prove
      what they do.
    - [KeySwap] (swap/swap_hotkey.rs, swap_coldkey.rs): key swaps; [SwapSlots] proves
      what they do. [Networks]: registrations and removals keep the slots of all
      subnets.
    - [Calls] (macros/dispatches.rs): every dispatchable of the subtensor pallet and
      [subtensor_call], which dispatches them; who may make which call. [CallSlots]:
      the judgement [keeps] and the tactic [slots], which follow a call down to its
      writes, and that every call keeps the slots.
    - [Hooks] (macros/hooks.rs): the hook at the start of a block, which makes the
      block step. [EpochSlots]: an epoch stores vectors of the right length.
      [ChainSlots] closes the calls of the pallet, those of admin-utils and the
      block hook into one step relation.
    - [Collective] (pallets/collective): motions, votes and members.
    - [AdminUtils] (pallets/admin-utils): every call of the pallet, [admin_call].
    - [Codec] (interface): the SCALE primitives behind the hand-written codecs.
    - [Registry] (pallets/registry), [Commitments] (pallets/commitments): deposits
      for identities, commitments of fields and their opening; both with the codec
      of a field.
    - [Dispatch] (interface): origins with call filters, the search of sorted lists.
      [Proxy] (pallets/proxy) and [Utility] (pallets/utility): every call of the two
      pallets, over the calls of a runtime as a parameter. [RuntimeCalls]
      (runtime/src/lib.rs): the runtime's calls, what the proxy types permit, and the
      recursion between the calls of the two pallets and those they contain;
      [ProxyProofs] and [RuntimeProofs] prove what they do.
    - [EpochMatrix] (epoch/math.rs), [EpochBounds]: vectors and sparse matrices,
      with [None] for a trap; when they do not trap and how large they get.
    - [Epoch] (epoch/run_epoch.rs), [EpochPays]: the epoch of a subnet in stages,
      from stake and weights to consensus, incentives, dividends and bonds; it
      implements [YumaEpoch].

    ** What is proved

    - Crowdloans: in every reachable state the contributions of a crowdloan add
      up to what it raised and the funds account holds at least that; a failed
      crowdloan can always be refunded and dissolved. What a creator
      withdraws within the call that [finalize] dispatches is forgotten, in every
      state and for every such call (a defect).
    - Ticks: the three-layer bitmap refines a set of ticks; the nearest active
      tick is found; saturating arithmetic clamps to the valid range. The
      price of a tick rises strictly with the tick, and its table is a product over
      the bits of the tick.
    - Swap pool: in every reachable state the net and gross liquidity of every tick
      are the sums over the positions that end there, the active ticks are exactly
      these, and positions are numbered apart; a swap ends with a result or one of
      four errors and leaves no trace when it fails or is simulated, unless it pays
      out more than the reserve (a defect); a purchase takes no more than it is
      offered, and tells the pool so up to [i64::MAX], beyond which the number wraps
      (a defect); a withdrawn position, while the current liquidity has room for it, returns what was paid for it; the
      subtensor pallet books exactly what the pool took and gave. Defects: the order
      of a range is not checked, a free position of the largest liquidity erases
      ticks, modifying a position to nothing forfeits the remainder and forgets the
      provided reserves.
    - Slots and registration: pruning picks the least neuron of the specification
      order; registrations keep the slots consistent, stay within the limits of
      block and interval, and need work that meets the difficulty; what happens
      when only the owner could be pruned (a defect), and the faucet's defects.
    - Subnets: in every state reached by any calls of the pallet and of admin-utils
      and by blocks with their reveals and epochs the slots of every subnet are
      consistent, the vectors by uid included; what a new subnet starts with; the lock cost decays to its minimum; a removed
      identifier is handed out again with leftovers (a defect); the root network
      replaces its least staked member; who sits in the senate.
    - Key swaps: they carry all stake over, adding it to what the new key has in the
      case of coldkeys, rename the slots, and may take over a hotkey of somebody else
      or leave links of child keys behind that count stake twice (defects).
    - Serving, symbols, identities: exactly which announcements and identities are
      accepted, and with which error the others are refused.
    - Collective: voters, proposals and their hashes stay consistent; a motion is
      decided by exactly the votes cast; nobody's vote counts twice.
    - Registry and commitments: what the books say is on deposit is on hold or
      reserved; the index names the time-locked commitments, and the pass of a block
      opens exactly what is due; fields decode to what was encoded. Anybody can clear
      an identity, and an opened commitment keeps its deposit (defects).
    - Proxies: however calls are nested, delegates and announcements are backed by
      deposits and bounded; a delegate's calls stay within its type, a delayed
      delegate's call was announced long enough before; batches run in order up to
      the first failure. A [NonTransfer] delegate can make itself [NonCritical] and
      transfer (a defect).
    - Admin-utils: no call succeeds without root or, where the pallet allows it, the
      owner of the very subnet; a call about one subnet leaves all others alone.
    - Calls: no call of the subtensor pallet succeeds for an origin that may not make
      it. Records of hotkey swaps are only forgotten once they no longer matter.
    - Rate limits: a take is raised at most once per limit; registers round-trip.
    - Child keys: parents and children are converse relations on every reachable
      state, at most five children with proportions of at most one in all; pending
      lists take effect after their cool-down.
    - Fixed point and share pools: whole powers are exact; a pool stays
      consistent, is solvent, and reports what it did.
    - Staking: removing, recycling, burning and adding stake book exactly the
      amounts they report; a partial stake swap may lose stake (a defect).
      While parents and children are linked in both directions inheritance
      moves stake weight and never creates it.
    - Reserves: swaps move the reserves, issuance and volume by the amounts paid.
    - Blocks: burn and difficulty stay within their bounds and follow demand, given a
      positive target (a target of zero, which nothing forbids, turns them around);
      exactly one of [tempo + 1] consecutive blocks runs the epoch.
    - Weights: upscaling keeps the shape of a vector; the announced reveal window
      is exact; stored weights are well-formed and commit queues bounded in every
      reachable state; a reveal sets exactly what was committed; time-locked
      commits are opened once, in their epoch.
    - Emission: the fixed-point logarithm gives exactly the halving schedule; a
      block's TAO goes to the subnets in proportion to their moving prices, the
      issuance grows by exactly what they get, which is at most the emission; a
      validator's dividends reach its parents and itself without gain or loss
      beyond rounding.
    - Epoch: on a well-formed subnet of at most 4096 neurons whose stake fits
      [I64F64] (the record [epoch_ready]) the epoch never traps, pays exactly the
      registered hotkeys, and pays out at most its emission.

    ** Bounds and fuel

    - [sqrt_loop] has fuel 129: the source breaks off after that many rounds.
    - [swap_loop] has fuel 1001: a turn counts itself and fails beyond 1000, and the
      last unit reads the condition again ([swap_outcomes]).
    - [pow_loop] has fuel 32: the exponent is an [i32] and is halved each turn.
    - [candidates_loop] of [Tick] runs over the bits of a [u128] word.
    - [search_work] of [Registration], the off-chain search for a nonce, takes its
      fuel as an argument: the source loops until it finds one.
    - Refunds are bounded by [RefundContributorsLimit], as in the source.
    - [weighted_median] has one more fuel than validators with stake: each
      partition leaves its pivot out ([weighted_median_total]).
    - [next_netuid_loop] of [Network] has one more fuel than there are subnets: one
      of the first so many identifiers is free ([next_netuid_terminates]).
    - [run_call] of [RuntimeCalls] is structural on the call, which contains the calls
      it dispatches; it needs no fuel.
    All other recursion is structural.

    ** Not modelled

    The dense variant of the epoch serves only the tests of the source, and so do the
    logarithms and [checked_floor] of safe-math. [adjust_protocol_liquidity] is modelled but is
    not an operation of the invariant on ticks, which it breaks: it changes the
    liquidity of a position and not that of its ticks. What a swap that overdraws the
    reserve leaves behind is in [SwapEngine.do_swap], not in [SwapHandler], whose callers
    fail with it. Migrations, RPC views, benchmarks, weights
    files, precompiles, the node and the build tooling have no state of their own
    to verify or depend on external formats; the drand pallet fetches beacon
    pulses off-chain and checks pairings, which are cryptography outside the
    repository. [leaf] of [RuntimeCalls] stands for the dispatch of the calls of all
    other pallets, which act on storages of their own here. *)

From stdpp Require Import prelude gmap list fin_maps fin_map_dom strings sorting.
From Stdlib Require Import ZArith Lia.
#[global] Open Scope Z_scope.

(** ** Results and the storage monad *)

(** Rust's [Result<A, E>]. *)
Inductive result (E A : Type) : Type :=
  | Ok (a : A)
  | Err (e : E).
Arguments Ok {E A} a.
Arguments Err {E A} e.

Definition is_ok {E A} (r : result E A) : bool :=
  match r with Ok _ => true | Err _ => false end.

(** A computation over the storage [S] that may return early with an error.
    An error carries no state: every extrinsic is executed inside a storage
    layer which is discarded when it returns [Err]. *)
Definition M (S E A : Type) : Type := S -> result E (A * S).

Definition ret {S E A} (a : A) : M S E A := fun s => Ok (a, s).
Definition bind {S E A B} (m : M S E A) (k : A -> M S E B) : M S E B :=
  fun s => match m s with Ok (a, s') => k a s' | Err e => Err e end.
Definition fail {S E A} (e : E) : M S E A := fun _ => Err e.
Definition gets {S E A} (f : S -> A) : M S E A := fun s => Ok (f s, s).
Definition modify {S E} (f : S -> S) : M S E unit := fun s => Ok (tt, f s).

(** [ensure!(b, e)] *)
Definition ensure {S E} (b : bool) (e : E) : M S E unit :=
  fun s => if b then Ok (tt, s) else Err e.

(** [r?] and [o.ok_or(e)?] *)
Definition lift {S E A} (r : result E A) : M S E A :=
  fun s => match r with Ok a => Ok (a, s) | Err e => Err e end.
Definition ok_or {E A} (o : option A) (e : E) : result E A :=
  match o with Some a => Ok a | None => Err e end.

(** The outcome of an extrinsic: the storage of a failed call is rolled back. *)
Definition exec {S E A} (m : M S E A) (s : S) : S :=
  match m s with Ok (_, s') => s' | Err _ => s end.

Declare Scope monad_scope.
Delimit Scope monad_scope with monad.
Notation "'let*' x ':=' m 'in' k" := (bind m (fun x => k))
  (at level 10, x pattern, m at level 100, k at level 200) : monad_scope.
Notation "m ';;' k" := (bind m (fun _ => k))
  (at level 100, k at level 200, right associativity) : monad_scope.
#[global] Open Scope monad_scope.

(** A loop [for x in l { body(x)?; }]. *)
Fixpoint for_each {S E A} (l : list A) (body : A -> M S E unit) : M S E unit :=
  match l with
  | [] => ret tt
  | x :: l' => body x ;; for_each l' body
  end.

Section MonadInversion.
Context {S E : Type}.
Implicit Types s : S.

Lemma bind_ok {A B} (m : M S E A) (k : A -> M S E B) s r :
  bind m k s = Ok r <-> exists a s1, m s = Ok (a, s1) /\ k a s1 = Ok r.
Proof.
  unfold bind. destruct (m s) as [[a s1]|e]; naive_solver.
Qed.

Lemma ret_ok {A} (a : A) s r : ret (E:=E) a s = Ok r <-> r = (a, s).
Proof. unfold ret. naive_solver. Qed.

Lemma fail_ok {A} (e : E) s (r : A * S) : fail e s = Ok r <-> False.
Proof. unfold fail. naive_solver. Qed.

Lemma gets_ok {A} (f : S -> A) s r : gets (E:=E) f s = Ok r <-> r = (f s, s).
Proof. unfold gets. naive_solver. Qed.

Lemma modify_ok (f : S -> S) s r : modify (E:=E) f s = Ok r <-> r = (tt, f s).
Proof. unfold modify. naive_solver. Qed.

Lemma ensure_ok b (e : E) s r : ensure b e s = Ok r <-> b = true /\ r = (tt, s).
Proof. unfold ensure. destruct b; naive_solver. Qed.

Lemma lift_ok {A} (x : result E A) s r :
  lift x s = Ok r <-> exists a, x = Ok a /\ r = (a, s).
Proof. unfold lift. destruct x; naive_solver. Qed.

Lemma ok_or_ok {A} (o : option A) (e : E) a : ok_or o e = Ok a <-> o = Some a.
Proof. destruct o; naive_solver. Qed.

Lemma for_each_inv {A} (P : S -> Prop) (body : A -> M S E unit) l :
  (forall x s s', x ∈ l -> P s -> body x s = Ok (tt, s') -> P s') ->
  forall s s', P s -> for_each l body s = Ok (tt, s') -> P s'.
Proof.
  induction l as [|x l IH]; simpl; intros Hb s s' HP H.
  - apply ret_ok in H. congruence.
  - apply bind_ok in H as ([] & s1 & H1 & H2).
    eapply IH; [|eapply Hb; [|exact HP|exact H1]|exact H2]; [|set_solver].
    intros; eapply Hb; eauto; set_solver.
Qed.
End MonadInversion.

#[global] Arguments bind : simpl never.
#[global] Arguments ret : simpl never.
#[global] Arguments fail : simpl never.
#[global] Arguments gets : simpl never.
#[global] Arguments modify : simpl never.
#[global] Arguments ensure : simpl never.
#[global] Arguments lift : simpl never.

(** [monad_inv H] turns [H : m s = Ok r], for [m] built from the primitives
    above, into the equations of its successful path. A file that defines a
    further primitive extends [monad_inv_hook]. *)
Ltac monad_inv_hook H := idtac.
Ltac monad_inv H :=
  cbn beta iota zeta in H;
  lazymatch type of H with
  | bind _ _ _ = Ok _ =>
      apply bind_ok in H;
      let a := fresh "a" in let s := fresh "s" in let H1 := fresh "Hm" in
      destruct H as (a & s & H1 & H); monad_inv H1; monad_inv H
  | ret _ _ = Ok _ => apply ret_ok in H; simplify_eq
  | fail _ _ = Ok _ => apply fail_ok in H; destruct H
  | gets _ _ = Ok _ => apply gets_ok in H; simplify_eq
  | modify _ _ = Ok _ => apply modify_ok in H; cbn in H; simplify_eq
  | ensure _ _ _ = Ok _ =>
      apply ensure_ok in H; let H0 := fresh "Hg" in destruct H as [H0 H]; simplify_eq
  | lift (ok_or _ _) _ = Ok _ =>
      apply lift_ok in H; let a := fresh "a" in let H0 := fresh "Ho" in
      destruct H as (a & H0 & H); apply ok_or_ok in H0; simplify_eq
  | lift _ _ = Ok _ =>
      apply lift_ok in H; let a := fresh "a" in let H0 := fresh "Hl" in
      destruct H as (a & H0 & H); simplify_eq
  | (match ?x with _ => _ end) _ = Ok _ =>
      let E := fresh "E" in destruct x eqn:E; simplify_eq; monad_inv H
  | _ => monad_inv_hook H
  end.

(** ** Record updates

    [s <| f := v |>] replaces field [f] of the record [s]. A record type opts
    in by giving its eta expansion. *)
Class Eta (R : Type) := eta : R -> R.
Class Setter {R T : Type} (proj : R -> T) := setter : T -> R -> R.

Ltac solve_setter :=
  match goal with
  | |- @Setter ?R ?T ?p =>
      let i := constr:(_ : Eta R) in
      let v := fresh "v" in let x := fresh "x" in
      refine (fun (v : T) (x : R) => _ : R);
      let i' := eval hnf in i in
      let e := eval cbv beta in (i' x) in
      let e' := eval pattern (p x) in e in
      match e' with ?g _ => let b := eval cbv beta in (g v) in exact b end
  end.
#[export] Hint Extern 0 (Setter _) => solve_setter : typeclass_instances.

Notation "s <| f := v |>" := (setter (proj:=f) v s)
  (at level 12, f constr at level 8, left associativity, format "s  <| f  :=  v |>").

(** [s <| f ::= g |>] applies [g] to field [f]. *)
Definition over {R T : Type} (p : R -> T) {S : Setter p} (g : T -> T) (s : R) : R :=
  setter (proj:=p) (g (p s)) s.
Notation "s <| f ::= g |>" := (over f g s)
  (at level 12, f constr at level 8, left associativity, format "s  <| f  ::=  g |>").

(** ** Machine integers, kept in [Z] with the range of their type *)

Abbreviation U8_MAX := 255.
Abbreviation U16_MAX := 65535.
Abbreviation U32_MAX := 4294967295.
Abbreviation U64_MAX := 18446744073709551615.
Abbreviation U128_MAX := 340282366920938463463374607431768211455.
Abbreviation I32_MAX := 2147483647.
Abbreviation I32_MIN := (-2147483648).
Abbreviation I64_MAX := 9223372036854775807.
Abbreviation I64_MIN := (-9223372036854775808).

(** The integer types of the source, by name. *)
Inductive IntType : Type := u8 | u16 | u32 | u64 | u128 | i16 | i32 | i64.
Definition int_min (t : IntType) : Z :=
  match t with i16 => -32768 | i32 => I32_MIN | i64 => I64_MIN | _ => 0 end.
Definition int_max (t : IntType) : Z :=
  match t with
  | u8 => U8_MAX | u16 => U16_MAX | u32 => U32_MAX | u64 => U64_MAX | u128 => U128_MAX
  | i16 => 32767 | i32 => I32_MAX | i64 => I64_MAX
  end.
Definition in_type (t : IntType) (x : Z) : Prop := int_min t <= x <= int_max t.

(** Values of an unsigned type whose largest value is [m]. *)
Definition in_u (m x : Z) : Prop := 0 <= x <= m.
Definition in_i (lo hi x : Z) : Prop := lo <= x <= hi.

Definition sat_add (m a b : Z) : Z := Z.min (a + b) m.
Definition sat_sub (a b : Z) : Z := Z.max (a - b) 0.
Definition sat_mul (m a b : Z) : Z := Z.min (a * b) m.
Definition checked_add (m a b : Z) : option Z := if a + b <=? m then Some (a + b) else None.
Definition checked_sub (a b : Z) : option Z := if b <=? a then Some (a - b) else None.
Definition checked_mul (m a b : Z) : option Z := if a * b <=? m then Some (a * b) else None.

(** Signed saturating operations on a type with the range [lo .. hi]. *)
Definition clamp (lo hi x : Z) : Z := Z.max lo (Z.min hi x).
Definition isat_add (lo hi a b : Z) : Z := clamp lo hi (a + b).
Definition isat_sub (lo hi a b : Z) : Z := clamp lo hi (a - b).

Lemma sat_sub_le a b : b <= a -> sat_sub a b = a - b.
Proof. unfold sat_sub. lia. Qed.
Lemma sat_add_le m a b : a + b <= m -> sat_add m a b = a + b.
Proof. unfold sat_add. lia. Qed.
Lemma checked_add_Some m a b c : checked_add m a b = Some c <-> c = a + b /\ a + b <= m.
Proof. unfold checked_add. destruct (Z.leb_spec (a + b) m); naive_solver lia. Qed.
Lemma checked_sub_Some a b c : checked_sub a b = Some c <-> c = a - b /\ b <= a.
Proof. unfold checked_sub. destruct (Z.leb_spec b a); naive_solver lia. Qed.

(** ** Sums over finite maps *)

Definition map_sum `{Countable K} (m : gmap K Z) : Z := map_fold (fun _ v acc => v + acc) 0 m.

Section MapSum.
Context `{Countable K}.
Implicit Types m : gmap K Z.

Lemma map_sum_empty : map_sum (∅ : gmap K Z) = 0.
Proof. apply map_fold_empty. Qed.

Lemma map_sum_insert_None m k v :
  m !! k = None -> map_sum (<[k:=v]> m) = v + map_sum m.
Proof. intros Hk. unfold map_sum. rewrite map_fold_insert_L; [done|intros; lia|done]. Qed.

Lemma map_sum_delete m k v : m !! k = Some v -> map_sum (delete k m) = map_sum m - v.
Proof.
  intros Hk. rewrite <- (insert_delete_id m k v Hk) at 2.
  rewrite map_sum_insert_None; [lia|apply lookup_delete_eq].
Qed.

Lemma map_sum_insert_Some m k v v' :
  m !! k = Some v -> map_sum (<[k:=v']> m) = map_sum m - v + v'.
Proof.
  intros Hk. rewrite <- insert_delete_eq.
  rewrite map_sum_insert_None by apply lookup_delete_eq.
  rewrite (map_sum_delete m k v Hk). lia.
Qed.

Lemma map_sum_nonneg m : (forall k v, m !! k = Some v -> 0 <= v) -> 0 <= map_sum m.
Proof.
  induction m as [|k v m Hk IH] using map_ind; intros Hm.
  - by rewrite map_sum_empty.
  - rewrite map_sum_insert_None by done.
    specialize (Hm k v) as Hv. rewrite lookup_insert_eq in Hv.
    enough (0 <= map_sum m) by (specialize (Hv eq_refl); lia).
    apply IH. intros j u Hj. apply (Hm j). rewrite lookup_insert_ne; [done|congruence].
Qed.

Lemma map_sum_lookup_le m k v :
  (forall k v, m !! k = Some v -> 0 <= v) -> m !! k = Some v -> v <= map_sum m.
Proof.
  intros Hm Hk. pose proof (map_sum_delete m k v Hk).
  enough (0 <= map_sum (delete k m)) by lia.
  apply map_sum_nonneg. intros j u [_ Hj]%lookup_delete_Some. eauto.
Qed.
End MapSum.

(** ** Lists *)

Lemma filter_all {A} (P : A -> Prop) `{!forall x, Decision (P x)} (l : list A) :
  (forall x, x ∈ l -> P x) -> filter P l = l.
Proof.
  induction l as [|x l IH]; intros Hl; [done|].
  rewrite filter_cons_True by (apply Hl; set_solver). f_equal. apply IH. set_solver.
Qed.

Lemma filter_none {A} (P : A -> Prop) `{!forall x, Decision (P x)} (l : list A) :
  (forall x, x ∈ l -> ~ P x) -> filter P l = [].
Proof.
  induction l as [|x l IH]; intros Hl; [done|].
  rewrite filter_cons_False by (apply Hl; set_solver). apply IH. set_solver.
Qed.

Lemma sorted_filter {A} (R : relation A) (P : A -> Prop) `{!forall x, Decision (P x)} (l : list A) :
  StronglySorted R l -> StronglySorted R (filter P l).
Proof.
  induction 1 as [|x l Hl IH Hx]; [constructor|]. rewrite filter_cons. case_decide; [|done].
  constructor; [done|]. rewrite Forall_forall in *. intros y [_ Hy]%list_elem_of_filter. auto.
Qed.

Lemma Forall_sublist {A} (P : A -> Prop) (l k : list A) : l `sublist_of` k -> Forall P k -> Forall P l.
Proof.
  induction 1 as [|x l k _ IH|x l k _ IH]; [done| |]; intros H; inversion_clear H; [constructor|]; auto.
Qed.

Lemma sorted_sublist {A} (R : relation A) (l k : list A) :
  l `sublist_of` k -> StronglySorted R k -> StronglySorted R l.
Proof.
  induction 1 as [|x l k Hs IH|x l k _ IH]; [done| |]; intros H; inversion_clear H; [|auto].
  constructor; [auto|by eapply Forall_sublist].
Qed.

Lemma sorted_seqZ lo n : StronglySorted Z.lt (seqZ lo n).
Proof.
  unfold seqZ. generalize (Z.to_nat n) as k. intros k.
  generalize 0%nat as j. induction k as [|k IH]; intros j; cbn; [constructor|].
  constructor; [apply IH|]. rewrite Forall_forall. intros x (i & -> & Hi)%list_elem_of_fmap.
  apply elem_of_seq in Hi. lia.
Qed.

(** A stable sort by key. *)
Fixpoint insert_by {A} (key : A -> Z) (x : A) (l : list A) : list A :=
  match l with
  | [] => [x]
  | y :: l' => if key x <=? key y then x :: l else y :: insert_by key x l'
  end.
Definition sort_by_key {A} (key : A -> Z) (l : list A) : list A := foldr (insert_by key) [] l.

Section SortByKey.
Context {A : Type} (key : A -> Z).

Lemma insert_by_perm x l : insert_by key x l ≡ₚ x :: l.
Proof using.
  induction l as [|y l IH]; [done|]. cbn. destruct (_ <=? _); [done|]. rewrite IH. apply Permutation_swap.
Qed.
Lemma sort_by_key_perm l : sort_by_key key l ≡ₚ l.
Proof using. induction l as [|x l IH]; [done|]. cbn. by rewrite insert_by_perm, IH. Qed.

Lemma insert_by_sorted x l :
  StronglySorted (fun a b => key a <= key b) l -> StronglySorted (fun a b => key a <= key b) (insert_by key x l).
Proof using.
  induction 1 as [|y l Hl IH Hy]; cbn; [by repeat constructor|]. destruct (Z.leb_spec (key x) (key y)).
  - constructor; [by constructor|]. constructor; [done|]. eapply Forall_impl; [exact Hy|]. cbn. lia.
  - constructor; [done|]. rewrite insert_by_perm. constructor; [lia|done].
Qed.
Lemma sort_by_key_sorted l : StronglySorted (fun a b => key a <= key b) (sort_by_key key l).
Proof using. induction l as [|x l IH]; [constructor|]. by apply insert_by_sorted. Qed.
End SortByKey.

(** ** Sums over lists *)

Definition zsum {A} (f : A -> Z) (l : list A) : Z := foldr (fun x acc => f x + acc) 0 l.

#[global] Arguments zsum : simpl never.

Section ZSum.
Context {A : Type}.
Implicit Types (f g : A -> Z) (l k : list A).

Lemma zsum_nil f : zsum f [] = 0.
Proof. done. Qed.
Lemma zsum_cons f x l : zsum f (x :: l) = f x + zsum f l.
Proof. done. Qed.

Lemma zsum_app f l k : zsum f (l ++ k) = zsum f l + zsum f k.
Proof. induction l as [|x l IH]; [done|]. rewrite ?zsum_cons, <- ?app_comm_cons, ?zsum_cons, IH. lia. Qed.

Lemma zsum_nonneg f l : (forall x, x ∈ l -> 0 <= f x) -> 0 <= zsum f l.
Proof.
  induction l as [|x l IH]; intros Hf; [done|]. rewrite !zsum_cons.
  assert (0 <= f x) by (apply Hf; set_solver). assert (0 <= zsum f l) by (apply IH; set_solver). lia.
Qed.

Lemma zsum_le f g l : (forall x, x ∈ l -> f x <= g x) -> zsum f l <= zsum g l.
Proof.
  induction l as [|x l IH]; intros Hf; [done|]. rewrite !zsum_cons.
  assert (f x <= g x) by (apply Hf; set_solver).
  assert (zsum f l <= zsum g l) by (apply IH; set_solver). lia.
Qed.

Lemma zsum_bounded f b l : (forall x, x ∈ l -> f x <= b) -> zsum f l <= b * Z.of_nat (length l).
Proof.
  induction l as [|x l IH]; intros Hf; [rewrite zsum_nil; cbn; lia|]. rewrite zsum_cons. cbn [length].
  assert (f x <= b) by (apply Hf; set_solver).
  assert (zsum f l <= b * Z.of_nat (length l)) by (apply IH; set_solver). lia.
Qed.

Lemma zsum_elem f x l : (forall y, y ∈ l -> 0 <= f y) -> x ∈ l -> f x <= zsum f l.
Proof.
  induction l as [|y l IH]; intros Hf Hx; [set_solver|]. rewrite zsum_cons.
  assert (0 <= f y) by (apply Hf; set_solver).
  assert (0 <= zsum f l) by (apply zsum_nonneg; intros z Hz; apply Hf; set_solver).
  apply elem_of_cons in Hx as [->|Hx]; [lia|]. enough (f x <= zsum f l) by lia. apply IH; set_solver.
Qed.

Lemma zsum_ext f g l : (forall x, x ∈ l -> f x = g x) -> zsum f l = zsum g l.
Proof. intros Hf. apply Z.le_antisymm; apply zsum_le; intros x Hx; rewrite (Hf x Hx); done. Qed.

Lemma zsum_plus f g l : zsum (fun x => f x + g x) l = zsum f l + zsum g l.
Proof. induction l as [|x l IH]; [done|]. rewrite ?zsum_cons, <- ?app_comm_cons, ?zsum_cons, IH. lia. Qed.

Lemma zsum_mul c f l : zsum (fun x => c * f x) l = c * zsum f l.
Proof. induction l as [|x l IH]; [rewrite !zsum_nil; lia|]. rewrite !zsum_cons, IH. lia. Qed.

Lemma zsum_Permutation f l k : l ≡ₚ k -> zsum f l = zsum f k.
Proof. induction 1; rewrite ?zsum_cons in *; lia. Qed.

Lemma zsum_submseteq f l k : (forall x, x ∈ k -> 0 <= f x) -> l ⊆+ k -> zsum f l <= zsum f k.
Proof.
  intros Hf (r & Hr)%submseteq_Permutation. rewrite (zsum_Permutation _ _ _ Hr), zsum_app.
  enough (0 <= zsum f r) by lia. apply zsum_nonneg. intros x Hx. apply Hf. rewrite Hr. set_solver.
Qed.
End ZSum.

Lemma zsum_bind {A B} (f : B -> Z) (g : A -> list B) (l : list A) :
  zsum f (l ≫= g) = zsum (fun x => zsum f (g x)) l.
Proof.
  induction l as [|x l IH]; [done|]. change ((x :: l) ≫= g) with (g x ++ (l ≫= g)).
  by rewrite zsum_app, IH.
Qed.

Lemma zsum_fmap {A B} (f : B -> Z) (g : A -> B) (l : list A) :
  zsum f (g <$> l) = zsum (fun x => f (g x)) l.
Proof. unfold zsum. induction l as [|x l IH]; csimpl; [done|]. by rewrite IH. Qed.

(** ** Enumerations

    A type whose values are listed in [all], each at the position [index]
    gives, has decidable equality and can be the key of a finite map. *)
Class Enum (A : Type) (all : list A) (index : A -> nat) :=
  enum_spec : forall x, all !! index x = Some x.

Section Enum.
Context {A : Type} (all : list A) (index : A -> nat) {E : Enum A all index}.

Lemma enum_inj x y : index x = index y -> x = y.
Proof using E. intros H. pose proof (enum_spec x) as Hx. rewrite H, enum_spec in Hx. congruence. Qed.

Definition enum_eq_dec : EqDecision A := fun x y =>
  match decide (index x = index y) with
  | left H => left (enum_inj x y H)
  | right H => right (fun e => H (f_equal index e))
  end.

Definition enum_countable {ED : EqDecision A} : Countable A :=
  inj_countable index (fun n => all !! n) enum_spec.
End Enum.

(** ** Automation

    [chain] collects the lemmas that close the common side conditions of the
    pallets: bounds of saturating arithmetic and lookups after updates. *)
Create HintDb chain.

Lemma sat_add_range m a b : 0 <= a -> 0 <= b -> 0 <= m -> 0 <= sat_add m a b <= m.
Proof. unfold sat_add. lia. Qed.
Lemma sat_sub_range m a b : 0 <= a <= m -> 0 <= b -> 0 <= sat_sub a b <= m.
Proof. unfold sat_sub. lia. Qed.
Lemma sat_mul_range m a b : 0 <= a -> 0 <= b -> 0 <= m -> 0 <= sat_mul m a b <= m.
Proof. unfold sat_mul. nia. Qed.

#[export] Hint Resolve sat_add_range sat_sub_range sat_mul_range : chain.
#[export] Hint Rewrite @lookup_insert_eq @lookup_delete_eq : chain.
