(* ===== verification/Frame.v ===== *)
(** * The runtime interface the pallets are written against

    FRAME, the balances pallet and the preimage pallet are not part of this
    repository. The pallets see them through the traits below; each class
    states the operations a pallet calls, and its [Laws] class the documented
    behaviour a theorem may rely on. *)

From S2P Require Import Prelude.
From stdpp Require Import prelude gmap list fin_maps fin_map_dom.
From Stdlib Require Import ZArith Lia.
#[local] Open Scope Z_scope.

(** [frame_system]: accounts, origins and the dispatch error type. *)
Class FrameSystem := {
  AccountId : Type;
  account_eq_dec :: EqDecision AccountId;
  account_countable :: Countable AccountId;
  Origin : Type;
  DispatchError : Type;
  ensure_signed : Origin -> result DispatchError AccountId;
  ensure_root : Origin -> result DispatchError unit;
  BadOrigin : DispatchError;
}.

(** [frame_system::ensure_signed_or_root]: [None] stands for root. *)
Definition ensure_signed_or_root {FS : FrameSystem} (o : Origin)
    : result DispatchError (option AccountId) :=
  match ensure_root o with
  | Ok _ => Ok None
  | Err _ => match ensure_signed o with Ok who => Ok (Some who) | Err d => Err d end
  end.

(** A dispatch error is either raised by the pallet itself or comes from
    another module. [Panic] marks a trap of the runtime: a failed assertion or
    a call outside the domain of a partial library function. *)
Inductive error {FS : FrameSystem} (E : Type) : Type :=
  | Module (e : E)
  | External (d : DispatchError)
  | Panic.
Arguments Module {FS E} e.
Arguments External {FS E} d.
Arguments Panic {FS E}.

(** [r?] for a result whose error comes from outside the pallet. *)
Definition ext {FS : FrameSystem} {S E A} (r : result DispatchError A) : M S (error E) A :=
  fun s => match r with Ok a => Ok (a, s) | Err d => Err (External d) end.

Lemma ext_ok {FS : FrameSystem} {S E A} (x : result DispatchError A) (s : S) r :
  ext (E:=E) x s = Ok r <-> exists a, x = Ok a /\ r = (a, s).
Proof. unfold ext. destruct x; naive_solver. Qed.

#[global] Arguments ext : simpl never.
Ltac monad_inv_hook H ::=
  lazymatch type of H with
  | ext _ _ = Ok _ =>
      apply ext_ok in H; let a := fresh "a" in let H0 := fresh "Hx" in
      destruct H as (a & H0 & H); simplify_eq
  | _ => idtac
  end.

(** The order in which a storage prefix is iterated is fixed by the runtime;
    the only thing promised is that every entry is visited exactly once. *)
Class StorageIter := {
  iter_prefix : forall {K V : Type} `{Countable K}, gmap K V -> list (K * V);
  iter_prefix_perm : forall {K V : Type} `{Countable K} (m : gmap K V),
    iter_prefix m ≡ₚ map_to_list m;
}.

Section IterSubnet.
Context {SI : StorageIter}.

(** [iter_prefix(netuid)] of a double map by subnet and a second key. *)
Definition iter_subnet {V} `{Countable K} (netuid : Z) (m : gmap (Z * K) V) : list (K * V) :=
  omap (fun '((n, uid), v) => if n =? netuid then Some (uid, v) else None) (iter_prefix m).

Lemma elem_of_iter_subnet {V} `{Countable K} (netuid : Z) (m : gmap (Z * K) V) (uid : K) (v : V) :
  (uid, v) ∈ iter_subnet netuid m <-> m !! (netuid, uid) = Some v.
Proof using.
  unfold iter_subnet. rewrite list_elem_of_omap. split.
  - intros ([[n u] w] & Hin & E). rewrite iter_prefix_perm, elem_of_map_to_list in Hin.
    destruct (Z.eqb_spec n netuid); [|done]. by simplify_eq.
  - intros Hm. exists ((netuid, uid), v). rewrite iter_prefix_perm, elem_of_map_to_list, Z.eqb_refl. done.
Qed.

Lemma NoDup_iter_subnet {V} `{Countable K} (netuid : Z) (m : gmap (Z * K) V) : NoDup (iter_subnet netuid m).*1.
Proof using.
  unfold iter_subnet. assert (Hn : NoDup (iter_prefix m).*1) by (rewrite iter_prefix_perm; apply NoDup_fst_map_to_list).
  induction (iter_prefix m) as [|[[n u] v] l IH]; [constructor|]. apply NoDup_cons in Hn as [Hnot Hn]. cbn [omap list_omap].
  destruct (Z.eqb_spec n netuid) as [->|]; [|by apply IH]. apply NoDup_cons. split; [|by apply IH].
  cbn [fst]. intros ([u' w] & E0 & Hin)%list_elem_of_fmap. cbn in E0. subst u'. apply list_elem_of_omap in Hin as ([[n' u''] w'] & Hin & E).
  destruct (Z.eqb_spec n' netuid); [|done]. simplify_eq. apply Hnot, list_elem_of_fmap. by exists ((netuid, u), w).
Qed.

End IterSubnet.

(** [fungible::Inspect] and [fungible::Mutate] of the runtime's currency, as a
    view on the world [W] outside the pallet. [transfer] is called with
    [Preservation::Expendable]. *)
Class Currency {FS : FrameSystem} (W : Type) := {
  balance : W -> AccountId -> Z;
  transfer : W -> AccountId -> AccountId -> Z -> result DispatchError W;
  existential_deposit : Z;
}.

(** A successful transfer moves exactly [amount]; an account left below the
    existential deposit may be reaped, so the sender's new balance is exact
    only when at least that much remains. *)
Class CurrencyLaws {FS : FrameSystem} (W : Type) {C : Currency W} := {
  balance_nonneg : forall w a, 0 <= balance w a;
  transfer_to : forall w w' a b n, transfer w a b n = Ok w' -> a <> b ->
    balance w' b = balance w b + n;
  transfer_from : forall w w' a b n, transfer w a b n = Ok w' -> a <> b ->
    n <= balance w a /\
    (existential_deposit <= balance w a - n -> balance w' a = balance w a - n);
  transfer_other : forall w w' a b n c, transfer w a b n = Ok w' ->
    c <> a -> c <> b -> balance w' c = balance w c;
  transfer_self : forall w w' a n, transfer w a a n = Ok w' -> balance w' a = balance w a;
}.
