(* ===== verification/Fixed.v ===== *)
(** * Fixed-point numbers (src/primitives/safe-math/src/lib.rs)

    The pallets compute with the types of the [substrate_fixed] package, which
    is not part of this repository. A number is represented by the integer of
    its bits ([to_bits]), so that [x] of a type with [f] fractional bits stands
    for [x / 2^f]. [SubstrateFixed] lists the operations that are called;
    [SubstrateFixedLaws] their documented behaviour: conversions and additions
    saturate at the ends of the type, products and quotients of numbers that
    are not negative drop the bits that do not fit, [round] rounds half away
    from zero.

    On top of it stand the operations the repository adds in [FixedExt]:
    [safe_div], [abs_diff], [checked_pow] and [checked_sqrt]. *)

From S2P Require Import Prelude.
From stdpp Require Import prelude list.
From Stdlib Require Import ZArith Lia.
#[local] Open Scope Z_scope.

(** The types in use. *)
Inductive FixTy : Type := I32F32 | U64F64 | I64F64 | U96F32 | I96F32 | U110F18.

Definition frac_bits (t : FixTy) : Z :=
  match t with
  | I32F32 | U96F32 | I96F32 => 32
  | U64F64 | I64F64 => 64
  | U110F18 => 18
  end.

(** The number one. *)
Definition unit_ (t : FixTy) : Z := 2 ^ frac_bits t.

Definition min_bits (t : FixTy) : Z :=
  match t with
  | I32F32 => - 2 ^ 63
  | I64F64 | I96F32 => - 2 ^ 127
  | U64F64 | U96F32 | U110F18 => 0
  end.
Definition max_bits (t : FixTy) : Z :=
  match t with
  | I32F32 => 2 ^ 63 - 1
  | I64F64 | I96F32 => 2 ^ 127 - 1
  | U64F64 | U96F32 | U110F18 => 2 ^ 128 - 1
  end.

Definition fixed_range (t : FixTy) (x : Z) : Prop := min_bits t <= x <= max_bits t.

(** Saturation at the ends of the type. *)
Definition saturate (t : FixTy) (x : Z) : Z := clamp (min_bits t) (max_bits t) x.

Class SubstrateFixed := {
  (** [saturating_from_num] of an integer, of another fixed-point number, and
      of a decimal literal [n / d]. *)
  from_num : FixTy -> Z -> Z;
  from_fixed : forall dst src : FixTy, Z -> Z;
  from_literal : FixTy -> Z -> Z -> Z;
  (** [saturating_to_num] *)
  to_num : FixTy -> IntType -> Z -> Z;
  saturating_add : FixTy -> Z -> Z -> Z;
  saturating_sub : FixTy -> Z -> Z -> Z;
  saturating_mul : FixTy -> Z -> Z -> Z;
  checked_div : FixTy -> Z -> Z -> option Z;
  neg : FixTy -> Z -> Z;
  round : FixTy -> Z -> Z;
  (** [iter().sum()] *)
  sum : FixTy -> list Z -> Z;
}.

Class SubstrateFixedLaws {F : SubstrateFixed} := {
  from_num_spec t n : from_num t n = saturate t (n * unit_ t);
  from_fixed_spec dst src x : fixed_range src x ->
    from_fixed dst src x = saturate dst (x * unit_ dst / unit_ src);
  from_literal_range t n d : fixed_range t (from_literal t n d);
  from_literal_pos t n d : 0 < d -> 2 * d <= n * unit_ t -> 0 < from_literal t n d;
  to_num_spec t w x : fixed_range t x -> 0 <= x ->
    to_num t w x = clamp (int_min w) (int_max w) (x / unit_ t);
  add_spec t x y : fixed_range t x -> fixed_range t y ->
    saturating_add t x y = saturate t (x + y);
  sub_spec t x y : fixed_range t x -> fixed_range t y ->
    saturating_sub t x y = saturate t (x - y);
  mul_spec t x y : fixed_range t x -> fixed_range t y -> 0 <= x -> 0 <= y ->
    saturating_mul t x y = saturate t (x * y / unit_ t);
  mul_range t x y : fixed_range t x -> fixed_range t y -> fixed_range t (saturating_mul t x y);
  mul_sign t x y : fixed_range t x -> fixed_range t y -> x <= 0 -> 0 <= y ->
    saturating_mul t x y <= 0;
  div_zero t x : checked_div t x 0 = None;
  div_spec t x y : fixed_range t x -> fixed_range t y -> 0 <= x -> 0 < y ->
    checked_div t x y =
      if x * unit_ t / y <=? max_bits t then Some (x * unit_ t / y) else None;
  div_range t x y z : fixed_range t x -> fixed_range t y -> checked_div t x y = Some z ->
    fixed_range t z;
  div_sign t x y z : fixed_range t x -> fixed_range t y -> x <= 0 -> 0 < y ->
    checked_div t x y = Some z -> z <= 0;
  neg_spec t x : fixed_range t x -> fixed_range t (- x) -> neg t x = - x;
  neg_range t x : fixed_range t x -> fixed_range t (neg t x);
  round_spec t x : fixed_range t x -> 0 <= x ->
    (x + unit_ t / 2) / unit_ t * unit_ t <= max_bits t ->
    round t x = (x + unit_ t / 2) / unit_ t * unit_ t;
  sum_spec t l : Forall (Z.le 0) l -> foldr Z.add 0 l <= max_bits t ->
    sum t l = foldr Z.add 0 l;
}.

(** ** Derived facts *)

Lemma unit_pos t : 0 < unit_ t.
Proof. destruct t; reflexivity. Qed.
Lemma min_max t : min_bits t <= 0 < max_bits t.
Proof. destruct t; split; vm_compute; congruence. Qed.
Lemma unit_max t : unit_ t <= max_bits t.
Proof. destruct t; vm_compute; congruence. Qed.

Lemma saturate_range t x : fixed_range t (saturate t x).
Proof. unfold fixed_range, saturate, clamp. pose proof (min_max t). lia. Qed.
Lemma saturate_id t x : fixed_range t x -> saturate t x = x.
Proof. unfold fixed_range, saturate, clamp. lia. Qed.
Lemma saturate_pos t x : 0 <= x -> saturate t x = Z.min (max_bits t) x.
Proof. unfold saturate, clamp. pose proof (min_max t). lia. Qed.
Lemma saturate_mono t x y : x <= y -> saturate t x <= saturate t y.
Proof. unfold saturate, clamp. lia. Qed.
Lemma saturate_nonneg t x : 0 <= x -> 0 <= saturate t x.
Proof. intros. rewrite saturate_pos by done. pose proof (min_max t). lia. Qed.
Lemma fixed_range_pos t x : 0 <= x <= max_bits t -> fixed_range t x.
Proof. unfold fixed_range. pose proof (min_max t). lia. Qed.

#[export] Hint Resolve saturate_range saturate_nonneg fixed_range_pos : chain.

Section Fixed.
Context {F : SubstrateFixed} {FL : SubstrateFixedLaws}.

Lemma from_num_range t n : fixed_range t (from_num t n).
Proof using FL. rewrite from_num_spec. apply saturate_range. Qed.
Lemma from_num_pos t n : 0 <= n -> 0 <= from_num t n.
Proof using FL.
  intros. rewrite from_num_spec. apply saturate_nonneg. pose proof (unit_pos t). nia.
Qed.
(** An integer that fits is converted exactly. *)
Lemma from_num_exact t n : 0 <= n -> n * unit_ t <= max_bits t -> from_num t n = n * unit_ t.
Proof using FL.
  intros. rewrite from_num_spec. apply saturate_id, fixed_range_pos. pose proof (unit_pos t). nia.
Qed.
Lemma from_num_0 t : from_num t 0 = 0.
Proof using FL.
  rewrite from_num_spec. apply saturate_id, fixed_range_pos. pose proof (min_max t). lia.
Qed.
Lemma from_num_1 t : from_num t 1 = unit_ t.
Proof using FL.
  rewrite from_num_exact; [lia|lia|]. pose proof (unit_max t). lia.
Qed.
Lemma from_fixed_range dst src x : fixed_range src x -> fixed_range dst (from_fixed dst src x).
Proof using FL. intros. rewrite from_fixed_spec by done. apply saturate_range. Qed.
Lemma add_range t x y : fixed_range t x -> fixed_range t y -> fixed_range t (saturating_add t x y).
Proof using FL. intros. rewrite add_spec by done. apply saturate_range. Qed.
Lemma sub_range t x y : fixed_range t x -> fixed_range t y -> fixed_range t (saturating_sub t x y).
Proof using FL. intros. rewrite sub_spec by done. apply saturate_range. Qed.

#[local] Hint Resolve from_num_range from_fixed_range add_range sub_range mul_range neg_range : chain.

(** ** [FixedExt] *)

Definition safe_div_or (t : FixTy) (x rhs def : Z) : Z := default def (checked_div t x rhs).
Definition safe_div (t : FixTy) (x rhs : Z) : Z := default 0 (checked_div t x rhs).

Definition abs_diff (t : FixTy) (x b : Z) : Z :=
  if x <? b then saturating_sub t b x else saturating_sub t x b.

(** The loop of [checked_pow]: [while exp > 0 { .. }]. *)
Fixpoint pow_loop (fuel : nat) (t : FixTy) (result base exp : Z) : Z :=
  match fuel with
  | O => result
  | S fuel =>
      if 0 <? exp then
        let result := if Z.land exp 1 =? 0 then result else saturating_mul t result base in
        let base := saturating_mul t base base in
        pow_loop fuel t result base (Z.shiftr exp 1)
      else result
  end.

(** The magnitude of an [i32] is at most 2^31, which the loop halves until it
    is zero: 32 rounds are enough. *)
Definition pow_fuel : nat := 32.

Definition checked_pow (t : FixTy) (x exponent : Z) : option Z :=
  let exponent := clamp I32_MIN I32_MAX exponent in
  if exponent =? 0 then Some (from_num t 1)
  else if x =? from_num t 0 then
    if exponent <? 0 then None else Some (from_num t 0)
  else
    let result := pow_loop pow_fuel t (from_num t 1) x (Z.abs exponent) in
    Some (if exponent <? 0 then default 0 (checked_div t (from_num t 1) result) else result).

(** The bisection loop of [checked_sqrt], which gives up after 129 steps. *)
Fixpoint sqrt_loop (fuel : nat) (t : FixTy) (x epsilon high low middle check_val : Z) : Z :=
  match fuel with
  | O => middle
  | S fuel =>
      if epsilon <? abs_diff t check_val middle then
        let '(high, low) := if check_val <? middle then (middle, low) else (high, middle) in
        let middle := safe_div t (saturating_add t high low) (from_num t 2) in
        sqrt_loop fuel t x epsilon high low middle (safe_div t x middle)
      else middle
  end.

(** [iteration > max_iterations] breaks the loop of [checked_sqrt]. *)
Definition sqrt_iterations : nat := 129.

Definition checked_sqrt (t : FixTy) (x epsilon : Z) : option Z :=
  if x <? from_num t 0 then None
  else
    let '(high, low) := if from_num t 1 <? x then (x, from_num t 0) else (from_num t 1, x) in
    let middle := safe_div t (saturating_add t high low) (from_num t 2) in
    Some (sqrt_loop sqrt_iterations t x epsilon high low middle (safe_div t x middle)).

Lemma safe_div_spec t x y : fixed_range t x -> fixed_range t y -> 0 <= x -> 0 < y ->
  x * unit_ t / y <= max_bits t -> safe_div t x y = x * unit_ t / y.
Proof using FL.
  intros. unfold safe_div. rewrite div_spec by done.
  destruct (Z.leb_spec (x * unit_ t / y) (max_bits t)); [done|lia].
Qed.

Lemma safe_div_zero t x : safe_div t x 0 = 0.
Proof using FL. unfold safe_div. by rewrite div_zero. Qed.

Lemma safe_div_range t x y : fixed_range t x -> fixed_range t y -> fixed_range t (safe_div t x y).
Proof using FL.
  intros Hx Hy. unfold safe_div. destruct (checked_div t x y) as [z|] eqn:E; cbn.
  - exact (div_range t x y z Hx Hy E).
  - apply fixed_range_pos. pose proof (min_max t). lia.
Qed.

Lemma safe_div_nonneg t x y : fixed_range t x -> fixed_range t y -> 0 <= x -> 0 <= y ->
  0 <= safe_div t x y.
Proof using FL.
  intros. destruct (decide (y = 0)) as [->|]; [by rewrite safe_div_zero|].
  unfold safe_div. rewrite div_spec by (done || lia).
  destruct (_ <=? _); cbn; [|done]. apply Z.div_pos; [|lia]. pose proof (unit_pos t). nia.
Qed.

(** The product of two whole numbers that fits is exact. *)
Lemma mul_exact t a b : 0 <= a -> 0 <= b -> a * unit_ t <= max_bits t -> b * unit_ t <= max_bits t ->
  a * b * unit_ t <= max_bits t ->
  saturating_mul t (a * unit_ t) (b * unit_ t) = a * b * unit_ t.
Proof using FL.
  intros Ha Hb H1 H2 H3. pose proof (unit_pos t).
  rewrite mul_spec by (try apply fixed_range_pos; nia).
  replace (a * unit_ t * (b * unit_ t)) with (a * b * unit_ t * unit_ t) by ring.
  rewrite Z.div_mul by lia. apply saturate_id, fixed_range_pos. nia.
Qed.

Lemma exp_halves k : 0 < k -> k = 2 * Z.shiftr k 1 + Z.land k 1 /\ 0 <= Z.land k 1 < 2.
Proof using.
  intros. rewrite Z.shiftr_div_pow2 by lia.
  assert (E : Z.land k 1 = k mod 2) by exact (Z.land_ones k 1 ltac:(lia)).
  rewrite E. change (2 ^ 1) with 2. pose proof (Z.div_mod k 2).
  pose proof (Z.mod_pos_bound k 2). lia.
Qed.

Lemma pow_loop_exact t fuel r b k :
  0 < r -> 0 < b -> 0 <= k < 2 ^ Z.of_nat fuel -> r * b ^ k * unit_ t <= max_bits t ->
  (0 < k -> b * unit_ t <= max_bits t) ->
  forall bb, (0 < k -> bb = b * unit_ t) -> pow_loop fuel t (r * unit_ t) bb k = r * b ^ k * unit_ t.
Proof using FL.
  pose proof (unit_pos t) as Hu.
  revert r b k. induction fuel as [|fuel IH]; intros r b k Hr Hb Hk Hmax Hbase bb Hbb.
  - replace k with 0 by lia. cbn. lia.
  - cbn [pow_loop]. destruct (Z.ltb_spec 0 k) as [Hpos|]; [|replace k with 0 by lia; cbn; lia].
    specialize (Hbb Hpos). specialize (Hbase Hpos). subst bb.
    pose proof (exp_halves k Hpos) as [Eh Ho]. set (h := Z.shiftr k 1) in *. set (o := Z.land k 1) in *.
    assert (Hh : 0 <= h < 2 ^ Z.of_nat fuel).
    { rewrite Nat2Z.inj_succ, Z.pow_succ_r in Hk by lia. lia. }
    assert (Ek : b ^ k = b ^ o * (b * b) ^ h).
    { rewrite Eh at 1. rewrite Z.pow_add_r, Z.pow_mul_r by lia.
      change (b ^ 2) with (b * (b * 1)). rewrite Z.mul_1_r. ring. }
    assert (0 < (b * b) ^ h) by (apply Z.pow_pos_nonneg; nia).
    assert (0 < b ^ o) by (apply Z.pow_pos_nonneg; lia).
    assert (Hsq : 0 < h -> b * b * unit_ t <= max_bits t).
    { intros. assert (b * b <= (b * b) ^ h).
      { rewrite <- (Z.pow_1_r (b * b)) at 1. apply Z.pow_le_mono_r; nia. }
      assert (b * b <= r * b ^ k) by (rewrite Ek; nia). nia. }
    assert (Er : (if o =? 0 then r * unit_ t else saturating_mul t (r * unit_ t) (b * unit_ t))
                 = r * b ^ o * unit_ t).
    { destruct (Z.eqb_spec o 0) as [->|]; [rewrite Z.pow_0_r; ring|].
      replace o with 1 in * by lia. rewrite Z.pow_1_r in *.
      rewrite mul_exact; [ring|lia|lia|nia|done|]. rewrite Ek in Hmax. nia. }
    rewrite Er, (IH (r * b ^ o) (b * b) h).
    + rewrite Ek. ring.
    + nia.
    + nia.
    + done.
    + rewrite Ek in Hmax. nia.
    + exact Hsq.
    + intros Hp. specialize (Hsq Hp). by apply mul_exact; try lia.
Qed.

(** [checked_pow] computes powers of whole numbers exactly: for every type,
    base and exponent of an [i32] that is not negative, if the power fits into
    the type, the square-and-multiply loop returns it without rounding and
    without being disturbed by the saturation of intermediate squares. *)
Theorem checked_pow_exact (t : FixTy) (n k : Z) :
  0 <= n -> 0 <= k <= I32_MAX -> n * unit_ t <= max_bits t -> n ^ k * unit_ t <= max_bits t ->
  checked_pow t (from_num t n) k = Some (n ^ k * unit_ t).
Proof using FL.
  intros Hn Hk H1 H2. unfold checked_pow.
  replace (clamp I32_MIN I32_MAX k) with k by (unfold clamp; lia).
  destruct (Z.eqb_spec k 0) as [->|Hk0]; [rewrite from_num_1, Z.pow_0_r; f_equal; lia|].
  rewrite from_num_exact, from_num_0 by done. pose proof (unit_pos t).
  destruct (Z.eqb_spec (n * unit_ t) 0) as [E|E].
  - replace n with 0 by nia. rewrite (proj2 (Z.ltb_ge k 0)) by lia.
    rewrite Z.pow_0_l by lia. done.
  - rewrite (proj2 (Z.ltb_ge k 0)) by lia. rewrite Z.abs_eq by lia. rewrite from_num_1.
    replace (unit_ t) with (1 * unit_ t) at 1 by lia.
    rewrite (pow_loop_exact t pow_fuel 1 n k); [f_equal; ring|lia|nia| |nia|done|done].
    unfold pow_fuel. change (2 ^ Z.of_nat 32) with 4294967296. lia.
Qed.
End Fixed.

#[export] Hint Resolve from_num_range from_fixed_range add_range sub_range mul_range neg_range
  safe_div_range from_literal_range : chain.
