(* ===== verification/SharePool.v ===== *)
(** * Share pools (src/primitives/share-pool/src/lib.rs)

    A pool divides one shared value between keys in proportion to the shares
    they hold. Shares, their total (the denominator) and the shared value are
    [U64F64] numbers. The pool's data is behind the trait
    [SharePoolDataOperations]; the pool is verified against the trait's laws,
    and the subtensor pallet's storage discharges them. *)

From S2P Require Import Prelude Fixed.
From stdpp Require Import prelude gmap list fin_maps.
From Stdlib Require Import ZArith Lia.
#[local] Open Scope Z_scope.

Abbreviation ONE := (unit_ U64F64).

(** The trait, for keys [K] and the state [S] in which the data lives. *)
Class SharePoolDataOperations {F : SubstrateFixed} (K S : Type) := {
  get_shared_value : S -> Z;
  get_share : K -> S -> Z;
  try_get_share : K -> S -> option Z;
  get_denominator : S -> Z;
  set_shared_value : Z -> S -> S;
  set_share : K -> Z -> S -> S;
  set_denominator : Z -> S -> S;
}.

(** What the pool relies on: the three items are independent of each other,
    the shares are a finite map without zero entries, and the shared value is
    kept as a whole number. *)
Class SharePoolLaws {F : SubstrateFixed} (K S : Type) `{Countable K}
    {Ops : SharePoolDataOperations K S} := {
  shares : S -> gmap K Z;
  get_share_spec k s : get_share k s = default 0 (shares s !! k);
  try_get_share_spec k s : try_get_share k s = shares s !! k;
  shares_set_share k v s : fixed_range U64F64 v ->
    shares (set_share k v s) = if v =? 0 then delete k (shares s) else <[k := v]> (shares s);
  shares_set_shared_value v s : shares (set_shared_value v s) = shares s;
  shares_set_denominator v s : shares (set_denominator v s) = shares s;
  shared_value_set v s : fixed_range U64F64 v ->
    get_shared_value (set_shared_value v s) = v / ONE * ONE;
  shared_value_set_share k v s : get_shared_value (set_share k v s) = get_shared_value s;
  shared_value_set_denominator v s : get_shared_value (set_denominator v s) = get_shared_value s;
  denominator_set v s : fixed_range U64F64 v -> get_denominator (set_denominator v s) = v;
  denominator_set_share k v s : get_denominator (set_share k v s) = get_denominator s;
  denominator_set_shared_value v s : get_denominator (set_shared_value v s) = get_denominator s;
}.

(** Arithmetic on [i64] wraps around in the runtime's release build. *)
Definition wrap_i64 (x : Z) : Z := (x + 2 ^ 63) mod 2 ^ 64 - 2 ^ 63.
Definition neg_i64 (x : Z) : Z := wrap_i64 (- x).

Section SharePool.
Context {F : SubstrateFixed} {FL : SubstrateFixedLaws}.
Context {K S : Type} `{Countable K} {Ops : SharePoolDataOperations K S}.
Implicit Types (k : K) (s : S).

(** The value of a number of shares. *)
Definition get_value_from_shares (current_share : Z) (s : S) : Z :=
  let shared_value := get_shared_value s in
  let denominator := get_denominator s in
  to_num U64F64 u64
    (match checked_div U64F64 shared_value denominator with
     | Some value_per_share => saturating_mul U64F64 value_per_share current_share
     | None =>
         default (from_num U64F64 0)
           (checked_div U64F64 (saturating_mul U64F64 shared_value current_share) denominator)
     end).

Definition get_value (key : K) (s : S) : Z :=
  let shared_value := get_shared_value s in
  let current_share := get_share key s in
  let denominator := get_denominator s in
  to_num U64F64 u64
    (match checked_div U64F64 shared_value denominator with
     | Some value_per_share => saturating_mul U64F64 value_per_share current_share
     | None =>
         default (from_num U64F64 0)
           (checked_div U64F64 (saturating_mul U64F64 shared_value current_share) denominator)
     end).

Definition try_get_value (key : K) (s : S) : option Z :=
  match try_get_share key s with Some _ => Some (get_value key s) | None => None end.

Definition update_value_for_all (update : Z) (s : S) : S :=
  let shared_value := get_shared_value s in
  set_shared_value
    (if 0 <=? update then saturating_add U64F64 shared_value (from_num U64F64 update)
     else saturating_sub U64F64 shared_value (from_num U64F64 (neg_i64 update))) s.

Definition get_shares_per_update (update shared_value denominator : Z) : Z :=
  match checked_div U64F64 shared_value denominator with
  | Some value_per_share =>
      default (from_num I64F64 0)
        (checked_div I64F64 (from_num I64F64 update) (from_fixed I64F64 U64F64 value_per_share))
  | None =>
      saturating_mul I64F64
        (default (from_num I64F64 0)
           (checked_div I64F64 (from_num I64F64 update) (from_fixed I64F64 U64F64 shared_value)))
        (from_fixed I64F64 U64F64 denominator)
  end.

Definition sim_update_value_for_one (update : Z) (s : S) : bool :=
  let shared_value := get_shared_value s in
  let denominator := get_denominator s in
  if denominator =? 0 then true
  else negb (get_shares_per_update update shared_value denominator =? 0).

Definition update_value_for_one (key : K) (update : Z) (s : S) : Z * S :=
  let shared_value := get_shared_value s in
  let current_share := get_share key s in
  let denominator := get_denominator s in
  let initial_value := wrap_i64 (get_value key s) in
  let '(actual_update, s) :=
    if denominator =? 0 then
      let update_fixed := from_num U64F64 update in
      (update, set_share key update_fixed (set_denominator update_fixed s))
    else
      let shares_per_update := get_shares_per_update update shared_value denominator in
      if 0 <=? shares_per_update then
        let added := from_fixed U64F64 I64F64 shares_per_update in
        let s := set_denominator (saturating_add U64F64 denominator added) s in
        (update, set_share key (saturating_add U64F64 current_share added) s)
      else
        let removed := from_fixed U64F64 I64F64 (neg I64F64 shares_per_update) in
        let new_denominator := saturating_sub U64F64 denominator removed in
        let new_share := saturating_sub U64F64 current_share removed in
        let '(new_denominator, new_share, actual_update) :=
          if (safe_div U64F64 new_share current_share <? from_literal U64F64 1 100000)
             || match checked_div U64F64
                        (saturating_add U64F64 shared_value (from_num U64F64 2628000000000000))
                        new_denominator with None => true | Some _ => false end
          then (saturating_sub U64F64 denominator current_share, from_num U64F64 0,
                neg_i64 initial_value)
          else (new_denominator, new_share, update) in
        (actual_update, set_share key new_share (set_denominator new_denominator s)) in
  (actual_update, update_value_for_all actual_update s).

(** ** The invariant *)
Context {Laws : SharePoolLaws K S}.

(** Shares are positive numbers whose sum is the denominator; the shared value
    is a number. *)
Record pool_ok (s : S) : Prop := {
  pool_shares : forall k v, shares s !! k = Some v -> 0 < v;
  pool_total : map_sum (shares s) = get_denominator s;
  pool_denominator : 0 <= get_denominator s <= max_bits U64F64;
  pool_value : 0 <= get_shared_value s <= max_bits U64F64;
}.

Lemma share_range s k : pool_ok s -> 0 <= get_share k s <= get_denominator s.
Proof using Laws.
  intros [Hs Ht Hd _]. rewrite get_share_spec. destruct (shares s !! k) as [v|] eqn:E; cbn; [|lia].
  rewrite <- Ht. split; [specialize (Hs k v E); lia|].
  apply (map_sum_lookup_le _ k); [|done]. intros k' v' E'. specialize (Hs _ _ E'). lia.
Qed.

(** Replacing one share moves the sum by the difference. *)
Lemma total_set_share s k v : fixed_range U64F64 v ->
  map_sum (shares (set_share k v s)) = map_sum (shares s) - get_share k s + v.
Proof using Laws.
  intros Hv. rewrite shares_set_share, get_share_spec by done.
  destruct (shares s !! k) as [u|] eqn:E; cbn.
  - destruct (Z.eqb_spec v 0) as [->|]; [rewrite (map_sum_delete _ _ _ E); lia|].
    rewrite (map_sum_insert_Some _ _ _ _ E). lia.
  - destruct (Z.eqb_spec v 0) as [->|]; [rewrite delete_id by done; lia|].
    rewrite map_sum_insert_None by done. lia.
Qed.

(** One step of the pool's book-keeping: a share and the denominator move by
    the same amount. *)
Lemma pool_set s k share den :
  pool_ok s -> 0 <= share <= max_bits U64F64 -> 0 <= den <= max_bits U64F64 ->
  den = get_denominator s - get_share k s + share ->
  pool_ok (set_share k share (set_denominator den s)).
Proof using Laws.
  intros [Hs Ht Hd Hv] Hshare Hden E.
  assert (fixed_range U64F64 share) by (by apply fixed_range_pos).
  assert (fixed_range U64F64 den) by (by apply fixed_range_pos).
  assert (Eg : get_share k (set_denominator den s) = get_share k s)
    by by rewrite !get_share_spec, shares_set_denominator.
  split.
  - intros k' v'. rewrite shares_set_share, shares_set_denominator by done.
    destruct (Z.eqb_spec share 0).
    + intros [_ E']%lookup_delete_Some. eauto.
    + intros [[_ <-]|[_ E']]%lookup_insert_Some; [lia|eauto].
  - rewrite total_set_share, Eg, shares_set_denominator by done.
    rewrite denominator_set_share, denominator_set by done. lia.
  - rewrite denominator_set_share, denominator_set by done. lia.
  - rewrite shared_value_set_share, shared_value_set_denominator. lia.
Qed.

Lemma value_for_all_range u s : pool_ok s ->
  fixed_range U64F64 (if 0 <=? u then saturating_add U64F64 (get_shared_value s) (from_num U64F64 u)
     else saturating_sub U64F64 (get_shared_value s) (from_num U64F64 (neg_i64 u))).
Proof using FL Laws.
  intros [_ _ _ Hv]. destruct (0 <=? u); [apply add_range|apply sub_range];
    auto using fixed_range_pos, from_num_range.
Qed.

Lemma update_value_for_all_ok u s : pool_ok s -> pool_ok (update_value_for_all u s).
Proof using FL Laws.
  intros Hok. pose proof (value_for_all_range u s Hok) as Hr. destruct Hok as [Hs Ht Hd Hv].
  unfold update_value_for_all. split.
  - intros k v. rewrite shares_set_shared_value. apply Hs.
  - by rewrite shares_set_shared_value, denominator_set_shared_value.
  - by rewrite denominator_set_shared_value.
  - rewrite shared_value_set by done. set (v := if 0 <=? u then _ else _) in *.
    change (min_bits U64F64) with 0 in *. unfold fixed_range in Hr.
    change (min_bits U64F64) with 0 in Hr.
    pose proof (unit_pos U64F64). pose proof (Z.mul_div_le v ONE).
    assert (0 <= v / ONE) by (apply Z.div_pos; lia). nia.
Qed.
(** The removal branch, for any amount of shares to remove: either exactly that
    many are taken from the key and the denominator, or the key loses all. *)
Definition shrink (shared_value current_share denominator removed : Z) : option (Z * Z) :=
  let new_denominator := saturating_sub U64F64 denominator removed in
  let new_share := saturating_sub U64F64 current_share removed in
  if (safe_div U64F64 new_share current_share <? from_literal U64F64 1 100000)
     || match checked_div U64F64
                (saturating_add U64F64 shared_value (from_num U64F64 2628000000000000))
                new_denominator with None => true | Some _ => false end
  then None else Some (new_denominator, new_share).

Lemma shrink_some sv c d r d' c' :
  0 <= c <= d -> d <= max_bits U64F64 -> fixed_range U64F64 r ->
  shrink sv c d r = Some (d', c') -> r < c /\ c' = c - r /\ d' = d - r.
Proof using FL.
  intros Hc Hd Hr. unfold shrink.
  assert (Hrc : fixed_range U64F64 c) by (apply fixed_range_pos; lia).
  assert (Hrd : fixed_range U64F64 d) by (apply fixed_range_pos; lia).
  rewrite !sub_spec by done. destruct (_ || _) eqn:E; [done|]. intros [= <- <-].
  apply orb_false_iff in E as [E _]. apply Z.ltb_ge in E.
  assert (0 < from_literal U64F64 1 100000) by (apply from_literal_pos; vm_compute; congruence).
  assert (r < c).
  { destruct (Z.le_gt_cases c r); [|done]. exfalso.
    replace (saturate U64F64 (c - r)) with 0 in E.
    2:{ unfold saturate, clamp. change (min_bits U64F64) with 0. pose proof (min_max U64F64). lia. }
    assert (safe_div U64F64 0 c = 0); [|lia].
    destruct (Z.eq_dec c 0) as [->|]; [apply safe_div_zero|].
    pose proof (min_max U64F64).
    rewrite safe_div_spec; [by rewrite Z.mul_0_l, Z.div_0_l|apply fixed_range_pos; lia|done|lia|lia|].
    rewrite Z.mul_0_l, Z.div_0_l by done. lia. }
  unfold fixed_range in Hr. change (min_bits U64F64) with 0 in Hr.
  rewrite !saturate_id by (apply fixed_range_pos; lia). done.
Qed.

(** The state of the pool before the shared value is updated. *)
Definition update_shares (key : K) (update : Z) (s : S) : Z * S :=
  let c := get_share key s in
  let d := get_denominator s in
  if d =? 0 then
    (update, set_share key (from_num U64F64 update) (set_denominator (from_num U64F64 update) s))
  else
    let n := get_shares_per_update update (get_shared_value s) d in
    if 0 <=? n then
      let added := from_fixed U64F64 I64F64 n in
      (update, set_share key (saturating_add U64F64 c added)
                 (set_denominator (saturating_add U64F64 d added) s))
    else
      match shrink (get_shared_value s) c d (from_fixed U64F64 I64F64 (neg I64F64 n)) with
      | Some (d', c') => (update, set_share key c' (set_denominator d' s))
      | None => (neg_i64 (wrap_i64 (get_value key s)),
                 set_share key (from_num U64F64 0) (set_denominator (saturating_sub U64F64 d c) s))
      end.

Lemma update_value_for_one_eq key u s :
  update_value_for_one key u s =
  let '(a, s') := update_shares key u s in (a, update_value_for_all a s').
Proof using.
  unfold update_value_for_one, update_shares, shrink.
  destruct (_ =? 0); [done|]. destruct (0 <=? _); [done|]. by destruct (_ || _).
Qed.

Lemma default_range t o : (forall z, o = Some z -> fixed_range t z) ->
  fixed_range t (default (from_num t 0) o).
Proof using FL. destruct o as [z|]; cbn; [eauto|]. intros _. apply from_num_range. Qed.

Lemma shares_per_update_range u sv d : fixed_range U64F64 sv -> fixed_range U64F64 d ->
  fixed_range I64F64 (get_shares_per_update u sv d).
Proof using FL.
  intros Hsv Hd. unfold get_shares_per_update. destruct (checked_div U64F64 sv d) as [v|] eqn:E.
  - apply default_range. intros z. apply div_range; eauto using div_range with chain.
  - apply mul_range; [|by auto with chain]. apply default_range. intros z.
    apply div_range; auto with chain.
Qed.

Lemma pool_ranges s k : pool_ok s -> fixed_range U64F64 (get_shared_value s) /\
  fixed_range U64F64 (get_denominator s) /\ fixed_range U64F64 (get_share k s).
Proof using Laws.
  intros Hok. pose proof (share_range s k Hok). destruct Hok as [_ _ Hd Hv].
  split_and!; apply fixed_range_pos; lia.
Qed.

Lemma add_exact d a : fixed_range U64F64 d -> fixed_range U64F64 a ->
  saturating_add U64F64 d a < max_bits U64F64 -> saturating_add U64F64 d a = d + a.
Proof using FL.
  intros Hd Ha. rewrite add_spec by done. unfold saturate, clamp, fixed_range in *.
  change (min_bits U64F64) with 0 in *. lia.
Qed.

Lemma update_shares_ok k u s a s' : pool_ok s -> update_shares k u s = (a, s') ->
  get_denominator s' < max_bits U64F64 -> pool_ok s'.
Proof using FL Laws.
  intros Hok E Hlt. pose proof (share_range s k Hok) as Hc.
  pose proof (pool_denominator s Hok) as Hd.
  destruct (pool_ranges s k Hok) as (Rv & Rd & Rc). unfold update_shares in E.
  destruct (Z.eqb_spec (get_denominator s) 0) as [E0|E0].
  { injection E as <- <-. pose proof (from_num_range U64F64 u) as Hr.
    apply pool_set; try done; lia. }
  set (n := get_shares_per_update _ _ _) in E.
  assert (Rn : fixed_range I64F64 n) by (by apply shares_per_update_range).
  destruct (Z.leb_spec 0 n).
  - injection E as <- <-. set (added := from_fixed U64F64 I64F64 n) in *.
    assert (Ra : fixed_range U64F64 added) by (by apply from_fixed_range).
    assert (Rs : fixed_range U64F64 (saturating_add U64F64 (get_denominator s) added)) by auto with chain.
    rewrite denominator_set_share, denominator_set in Hlt by done.
    pose proof (add_exact _ _ Rd Ra Hlt) as Ed. rewrite Ed in *.
    assert (0 <= added) by apply Ra.
    rewrite add_spec, saturate_id by (try apply fixed_range_pos; done || lia).
    apply pool_set; try done; lia.
  - set (removed := from_fixed U64F64 I64F64 (neg I64F64 n)) in E.
    assert (Rr : fixed_range U64F64 removed) by (unfold removed; auto with chain).
    destruct (shrink _ _ _ _) as [[d' c']|] eqn:Es; injection E as <- <-.
    + apply shrink_some in Es as (Hr & -> & ->); [|lia..|done]. assert (0 <= removed) by apply Rr.
      apply pool_set; try done; lia.
    + rewrite from_num_0, sub_spec, saturate_id by (try apply fixed_range_pos; done || lia).
      pose proof (min_max U64F64). apply pool_set; try done; lia.
Qed.

Lemma update_one_ok (k : K) (u : Z) (s : S) :
  pool_ok s -> get_denominator (update_value_for_one k u s).2 < max_bits U64F64 ->
  pool_ok (update_value_for_one k u s).2.
Proof using FL Laws.
  intros Hok. rewrite update_value_for_one_eq.
  destruct (update_shares k u s) as [a s'] eqn:E. cbn.
  intros Hlt. apply update_value_for_all_ok.
  unfold update_value_for_all in Hlt. rewrite denominator_set_shared_value in Hlt.
  revert E Hlt. eapply update_shares_ok. done.
Qed.

(** C22: A share pool stays consistent: the shares are positive and their sum is
    the denominator, whatever a key adds or removes (removing more than it has
    included), as long as the denominator does not reach the end of its type. *)
Theorem share_pool_stays_consistent (k : K) (u : Z) (s : S) :
  pool_ok s -> get_denominator (update_value_for_one k u s).2 < max_bits U64F64 ->
  pool_ok (update_value_for_one k u s).2.
Proof using FL Laws. apply update_one_ok. Qed.
(** ** Values *)

Lemma to_u64_le x : fixed_range U64F64 x -> to_num U64F64 u64 x * ONE <= x /\ 0 <= to_num U64F64 u64 x.
Proof using FL.
  intros Hx. assert (0 <= x) by apply Hx. rewrite to_num_spec by done.
  pose proof (unit_pos U64F64). pose proof (Z.mul_div_le x ONE).
  assert (0 <= x / ONE) by (apply Z.div_pos; lia).
  unfold clamp. change (int_min u64) with 0. change (int_max u64) with U64_MAX. nia.
Qed.

Lemma mul_le x y : fixed_range U64F64 x -> fixed_range U64F64 y ->
  saturating_mul U64F64 x y * ONE <= x * y.
Proof using FL.
  intros Hx Hy. assert (0 <= x) by apply Hx. assert (0 <= y) by apply Hy.
  rewrite mul_spec by done. pose proof (unit_pos U64F64). pose proof (Z.mul_div_le (x * y) ONE).
  rewrite saturate_pos by (apply Z.div_pos; nia). nia.
Qed.

Lemma div_le x y z : fixed_range U64F64 x -> fixed_range U64F64 y ->
  checked_div U64F64 x y = Some z -> z * y <= x * ONE.
Proof using FL.
  intros Hx Hy. assert (0 <= x) by apply Hx. assert (0 <= y) by apply Hy.
  destruct (decide (y = 0)) as [->|]; [by rewrite div_zero|].
  rewrite div_spec by (done || lia). destruct (_ <=? _); [|done]. intros [= <-].
  pose proof (Z.mul_div_le (x * ONE) y). nia.
Qed.

(** No key's value exceeds its part of the shared value. *)
Lemma value_part k s : pool_ok s ->
  0 <= get_value k s /\
  get_value k s * ONE * get_denominator s <= get_shared_value s * get_share k s.
Proof using FL Laws.
  intros Hok. destruct (pool_ranges s k Hok) as (Rv & Rd & Rc). unfold get_value.
  set (sv := get_shared_value s) in *. set (d := get_denominator s) in *.
  set (c := get_share k s) in *. pose proof (unit_pos U64F64).
  assert (0 <= sv) by apply Rv. assert (0 <= d) by apply Rd. assert (0 <= c) by apply Rc.
  destruct (checked_div U64F64 sv d) as [v|] eqn:E.
  - pose proof (div_range _ _ _ _ Rv Rd E) as Rp. pose proof (div_le _ _ _ Rv Rd E).
    pose proof (mul_le _ _ Rp Rc). pose proof (mul_range _ _ _ Rp Rc) as Rm.
    destruct (to_u64_le _ Rm) as [Hle Hn]. split; [done|].
    set (m := saturating_mul U64F64 v c) in *. set (r := to_num U64F64 u64 m) in *.
    clearbody m r sv d c. generalize dependent ONE. intros one ? ? ? ?.
    assert (r * one * one <= v * c) by nia.
    assert (r * one * one * d <= v * c * d) by (by apply Z.mul_le_mono_nonneg_r).
    assert (v * d * c <= sv * one * c) by (by apply Z.mul_le_mono_nonneg_r). nia.
  - pose proof (mul_le _ _ Rv Rc). pose proof (mul_range _ _ _ Rv Rc) as Rm.
    set (m := saturating_mul U64F64 sv c) in *.
    destruct (checked_div U64F64 m d) as [q|] eqn:E'; cbn.
    + pose proof (div_range _ _ _ _ Rm Rd E') as Rq. pose proof (div_le _ _ _ Rm Rd E').
      destruct (to_u64_le _ Rq) as [Hle Hn]. split; [done|]. nia.
    + rewrite from_num_0. pose proof (min_max U64F64).
      destruct (to_u64_le 0) as [Hle Hn]; [apply fixed_range_pos; lia|].
      split; [done|]. nia.
Qed.

(** Distinct keys hold at most all shares. *)
Lemma shares_le_total (m : gmap K Z) (l : list K) :
  (forall k v, m !! k = Some v -> 0 < v) -> NoDup l ->
  foldr (fun k acc => default 0 (m !! k) + acc) 0 l <= map_sum m.
Proof using.
  revert m. induction l as [|k l IH]; intros m Hm Hl; cbn.
  - apply map_sum_nonneg. intros k v E. specialize (Hm k v E). lia.
  - apply NoDup_cons in Hl as [Hk Hl].
    assert (Hm' : forall k' v, delete k m !! k' = Some v -> 0 < v).
    { intros k' v [_ E]%lookup_delete_Some. eauto. }
    pose proof (IH (delete k m) Hm' Hl) as HI.
    replace (foldr (fun k' acc => default 0 (delete k m !! k') + acc) 0 l)
      with (foldr (fun k' acc => default 0 (m !! k') + acc) 0 l) in HI.
    + destruct (m !! k) as [v|] eqn:E; cbn; [rewrite (map_sum_delete _ _ _ E) in HI; lia|].
      rewrite delete_id in HI by done. lia.
    + clear -Hk. induction l as [|k' l IHl]; cbn; [done|].
      rewrite lookup_delete_ne by set_solver. f_equal. apply IHl. set_solver.
Qed.

Lemma share_pool_solvent_aux (l : list K) (s : S) :
  pool_ok s -> NoDup l ->
  foldr (fun k acc => get_value k s + acc) 0 l * ONE <= get_shared_value s.
Proof using FL Laws.
  intros Hok Hl. pose proof (shares_le_total (shares s) l (pool_shares s Hok) Hl) as Hs.
  rewrite (pool_total s Hok) in Hs.
  pose proof (pool_value s Hok). pose proof (pool_denominator s Hok). pose proof (unit_pos U64F64).
  destruct (decide (get_denominator s = 0)) as [E0|E0].
  - replace (foldr _ 0 l) with 0; [lia|]. symmetry. clear Hs Hl.
    induction l as [|k l IHl]; cbn; [done|]. rewrite IHl.
    pose proof (share_range s k Hok). rewrite E0 in *.
    replace (get_value k s) with 0; [done|]. unfold get_value.
    rewrite E0, !div_zero. cbn. rewrite from_num_0.
    by rewrite to_num_spec by (try apply fixed_range_pos; pose proof (min_max U64F64); lia).
  - enough (foldr (fun k acc => get_value k s + acc) 0 l * ONE * get_denominator s
            <= get_shared_value s * get_denominator s) by nia.
    transitivity (get_shared_value s * foldr (fun k acc => default 0 (shares s !! k) + acc) 0 l); [|nia].
    clear Hs Hl. induction l as [|k l IHl]; cbn; [lia|].
    destruct (value_part k s Hok) as [_ Hk]. rewrite get_share_spec in Hk. nia.
Qed.

(** C21: A share pool is solvent: the values that any set of keys could take out
    of a consistent pool add up to at most the shared value. *)
Theorem share_pool_solvent (l : list K) (s : S) :
  pool_ok s -> NoDup l ->
  zsum (fun k => get_value k s) l * ONE <= get_shared_value s.
Proof using FL Laws. apply share_pool_solvent_aux. Qed.

Lemma pool_ok_value_range s : pool_ok s -> fixed_range U64F64 (get_shared_value s).
Proof using Laws. intros [_ _ _ Hv]. by apply fixed_range_pos. Qed.

(** ** Merging two shares *)

Lemma div_add_le a b n : 0 < n -> a / n + b / n <= (a + b) / n.
Proof using. intros Hn. apply Z.div_le_lower_bound; [done|]. pose proof (Z.mul_div_le a n). pose proof (Z.mul_div_le b n). lia. Qed.

(** What shares of a consistent pool are worth: nothing in it saturates. *)
Lemma value_closed c s : pool_ok s -> 0 <= c <= get_denominator s ->
  let sv := get_shared_value s in
  let d := get_denominator s in
  get_value_from_shares c s =
    if d =? 0 then 0
    else if sv * ONE / d <=? max_bits U64F64 then sv * ONE / d * c / ONE / ONE
    else sv * c / ONE * ONE / d / ONE.
Proof using FL.
  intros Hok Hc. cbv zeta. unfold get_value_from_shares. pose proof (pool_value s Hok) as Hv. pose proof (pool_denominator s Hok) as Hd.
  set (sv := get_shared_value s) in *. set (d := get_denominator s) in *. clearbody sv d. pose proof (unit_pos U64F64) as Hu.
  assert (forall x, 0 <= x <= max_bits U64F64 -> fixed_range U64F64 x) as R by (intros x Hx; by apply fixed_range_pos).
  assert (forall x, 0 <= x <= sv -> to_num U64F64 u64 x = x / ONE) as Hnum.
  { intros x Hx. rewrite to_num_spec by (lia || (apply R; lia)). unfold clamp. change (int_min u64) with 0. change (int_max u64) with U64_MAX.
    assert (0 <= x / ONE) by (apply Z.div_pos; lia). assert (x / ONE <= U64_MAX); [|lia].
    transitivity (max_bits U64F64 / ONE); [apply Z.div_le_mono; lia|vm_compute; congruence]. }
  destruct (Z.eqb_spec d 0) as [->|Hd0].
  { rewrite !div_zero. cbn. rewrite from_num_0. by rewrite Hnum by lia. }
  rewrite div_spec by (apply R || lia; lia). destruct (Z.leb_spec (sv * ONE / d) (max_bits U64F64)) as [Hfit|Hbig].
  - assert (0 <= sv * ONE / d) by (apply Z.div_pos; nia). pose proof (Z.mul_div_le (sv * ONE) d).
    assert (0 <= sv * ONE / d * c / ONE <= sv) as Hm by (split; [apply Z.div_pos|apply Z.div_le_upper_bound]; nia).
    rewrite mul_spec by (apply R || nia; lia). rewrite saturate_pos by lia. rewrite Z.min_r by lia. by apply Hnum.
  - assert (d < ONE) by (apply Z.nle_gt; intros Hle; assert (sv * ONE / d <= sv) by (apply Z.div_le_upper_bound; nia); lia).
    assert (0 <= sv * c / ONE <= sv) as Hm by (split; [apply Z.div_pos|apply Z.div_le_upper_bound]; nia).
    rewrite mul_spec by (apply R || nia; lia). rewrite saturate_pos by lia. rewrite Z.min_r by lia.
    pose proof (Z.mul_div_le (sv * c) ONE).
    assert (0 <= sv * c / ONE * ONE / d <= sv) as Hq by (split; [apply Z.div_pos|apply Z.div_le_upper_bound]; nia).
    rewrite div_spec by (apply R || lia; lia). rewrite (proj2 (Z.leb_le _ _)) by lia. cbn. by apply Hnum.
Qed.

(** Two shares together are worth at least what they are worth apart. *)
Lemma value_add x y s : pool_ok s -> 0 <= x -> 0 <= y -> x + y <= get_denominator s ->
  get_value_from_shares x s + get_value_from_shares y s <= get_value_from_shares (x + y) s.
Proof using FL.
  intros Hok Hx Hy Hxy. rewrite !value_closed by (done || lia). cbv zeta. set (sv := get_shared_value s). set (d := get_denominator s) in *.
  pose proof (unit_pos U64F64) as Hu. destruct (Z.eqb_spec d 0); [lia|]. destruct (_ <=? _).
  - rewrite Z.mul_add_distr_l. etrans; [by apply div_add_le|]. apply Z.div_le_mono; [done|]. by apply div_add_le.
  - etrans; [by apply div_add_le|]. apply Z.div_le_mono; [done|]. etrans; [apply div_add_le; lia|]. apply Z.div_le_mono; [lia|].
    rewrite <- Z.mul_add_distr_r. apply Z.mul_le_mono_nonneg_r; [lia|]. rewrite Z.mul_add_distr_l. by apply div_add_le.
Qed.

(** ** What an update reports *)

Lemma wrap_i64_id x : - 2 ^ 63 <= x < 2 ^ 63 -> wrap_i64 x = x.
Proof using. intros. unfold wrap_i64. rewrite Z.mod_small by lia. lia. Qed.

Lemma value_bound k s : pool_ok s -> get_value k s * ONE <= get_shared_value s.
Proof using FL Laws.
  intros Hok. pose proof (share_pool_solvent_aux [k] s Hok) as Hs. cbn in Hs.
  rewrite Z.add_0_r in Hs. apply Hs, NoDup_singleton.
Qed.

Lemma update_value_for_all_spec a s : pool_ok s ->
  get_shared_value s mod ONE = 0 -> - 2 ^ 63 < a < 2 ^ 63 ->
  get_shared_value (update_value_for_all a s) = saturate U64F64 (get_shared_value s + a * ONE) / ONE * ONE.
Proof using FL Laws.
  intros Hok Hw Ha. pose proof (value_for_all_range a s Hok) as Hr.
  unfold update_value_for_all. rewrite shared_value_set by done. f_equal. f_equal.
  pose proof (pool_ok_value_range s Hok) as Rv. unfold neg_i64. rewrite wrap_i64_id by lia.
  assert (Hexact : forall n, 0 <= n < 2 ^ 63 -> from_num U64F64 n = n * ONE).
  { intros n Hn. apply from_num_exact; [lia|].
    transitivity (2 ^ 63 * ONE); [apply Z.mul_le_mono_nonneg_r; [apply Z.lt_le_incl, unit_pos|lia]|].
    vm_compute. congruence. }
  destruct (Z.leb_spec 0 a); rewrite Hexact by lia.
  - apply add_spec; [done|]. rewrite <- Hexact by lia. apply from_num_range.
  - rewrite sub_spec; [f_equal; lia|done|]. rewrite <- Hexact by lia. apply from_num_range.
Qed.

Lemma update_shares_spec k u s a s' : pool_ok s -> update_shares k u s = (a, s') ->
  get_shared_value s' = get_shared_value s /\
  (a = u \/ a = neg_i64 (wrap_i64 (get_value k s)) /\ get_share k s' = 0) /\
  (forall k', k' <> k -> get_share k' s' = get_share k' s).
Proof using FL Laws.
  intros Hok E.
  assert (Hset : forall c d, fixed_range U64F64 c -> let s1 := set_share k c (set_denominator d s) in
    get_shared_value s1 = get_shared_value s /\ get_share k s1 = c /\
    (forall k', k' <> k -> get_share k' s1 = get_share k' s)).
  { intros c d Hc s1. split; [|split].
    - unfold s1. by rewrite shared_value_set_share, shared_value_set_denominator.
    - unfold s1. rewrite get_share_spec, shares_set_share by done.
      destruct (Z.eqb_spec c 0) as [->|]; [by rewrite lookup_delete_eq|by rewrite lookup_insert_eq].
    - intros k' Hk. unfold s1. rewrite !get_share_spec, shares_set_share, shares_set_denominator by done.
      destruct (Z.eqb_spec c 0); [by rewrite lookup_delete_ne|by rewrite lookup_insert_ne]. }
  destruct (pool_ranges s k Hok) as (Rv & Rd & Rc). unfold update_shares in E.
  destruct (_ =? 0).
  { injection E as <- <-. destruct (Hset (from_num U64F64 u) (from_num U64F64 u)) as (? & ? & ?); auto with chain. }
  set (n := get_shares_per_update _ _ _) in E.
  assert (Rn : fixed_range I64F64 n) by (by apply shares_per_update_range).
  destruct (0 <=? n).
  { injection E as <- <-. edestruct Hset as (? & ? & ?); [|split; [|split]; eauto].
    auto with chain. }
  destruct (shrink _ _ _ _) as [[d' c']|] eqn:Es; injection E as <- <-.
  - edestruct (Hset c') as (? & ? & ?); [|split; [|split]; eauto].
    unfold shrink in Es. destruct (_ || _); [done|]. injection Es as _ <-. auto with chain.
  - edestruct (Hset (from_num U64F64 0)) as (? & E2 & ?); [|split; [|split]; eauto]; [auto with chain|].
    right. split; [done|]. rewrite E2. apply from_num_0.
Qed.

Lemma update_one_reported (k : K) (u a : Z) (s s' : S) :
  pool_ok s -> get_shared_value s mod ONE = 0 -> get_shared_value s < 2 ^ 62 * ONE ->
  - 2 ^ 62 < u < 2 ^ 62 -> get_denominator s' < max_bits U64F64 ->
  update_value_for_one k u s = (a, s') ->
  get_shared_value s' = Z.max 0 (get_shared_value s + a * ONE) /\
  (a = u \/ a = - get_value k s /\ get_share k s' = 0) /\
  (forall k', k' <> k -> get_share k' s' = get_share k' s).
Proof using FL Laws.
  intros Hok Hw Hv Hu Hd E. rewrite update_value_for_one_eq in E.
  destruct (update_shares k u s) as [a' s1] eqn:E1. injection E as <- <-.
  unfold update_value_for_all in Hd. rewrite denominator_set_shared_value in Hd.
  pose proof (update_shares_ok _ _ _ _ _ Hok E1 Hd) as Hok1.
  destruct (update_shares_spec _ _ _ _ _ Hok E1) as (Esv & Ha & Hother).
  pose proof (value_bound k s Hok). destruct (value_part k s Hok) as [Hpos _].
  pose proof (unit_pos U64F64).
  assert (get_value k s < 2 ^ 62) by (apply (Z.mul_lt_mono_pos_r ONE); lia).
  assert (Ea : a' = u \/ a' = - get_value k s /\ get_share k s1 = 0).
  { destruct Ha as [->|[-> ?]]; [auto|]. right. split; [|done].
    unfold neg_i64. rewrite (wrap_i64_id (get_value k s)), wrap_i64_id by lia. done. }
  assert (- 2 ^ 62 < a' < 2 ^ 62) by (destruct Ea as [->|[-> _]]; lia).
  assert (Hg : forall k', get_share k' (update_value_for_all a' s1) = get_share k' s1).
  { intros k'. unfold update_value_for_all. by rewrite !get_share_spec, shares_set_shared_value. }
  split_and!.
  - rewrite update_value_for_all_spec by (try done; rewrite ?Esv; try done; lia).
    rewrite Esv. apply Z.mod_divide in Hw as [w Ew]; [|lia]. rewrite Ew.
    replace (w * ONE + a' * ONE) with ((w + a') * ONE) by ring.
    assert (w < 2 ^ 62) by (apply (Z.mul_lt_mono_pos_r ONE); lia).
    assert (ONE * 2 ^ 63 <= max_bits U64F64) by (vm_compute; congruence).
    destruct (Z.le_gt_cases 0 (w + a')).
    + rewrite saturate_id by (apply fixed_range_pos; nia). rewrite Z.div_mul by lia. nia.
    + replace (saturate U64F64 ((w + a') * ONE)) with 0; [rewrite Z.div_0_l by lia; nia|].
      unfold saturate, clamp. change (min_bits U64F64) with 0. pose proof (min_max U64F64). nia.
  - by rewrite Hg.
  - intros k' Hk. rewrite Hg. auto.
Qed.

(** An update reports what it did: the shared value moves by the reported
    amount (stopping at zero); that is the requested amount, or the key's whole
    value taken out, in which case its share is gone; and no other key's share
    changes. The shared value has to be whole, as the pallet keeps it, and to
    fit an [i64]. *)
Theorem share_pool_update_reported (k : K) (u a : Z) (s s' : S) :
  pool_ok s -> get_shared_value s mod ONE = 0 -> get_shared_value s < 2 ^ 62 * ONE ->
  - 2 ^ 62 < u < 2 ^ 62 -> get_denominator s' < max_bits U64F64 ->
  update_value_for_one k u s = (a, s') ->
  get_shared_value s' = Z.max 0 (get_shared_value s + a * ONE) /\
  (a = u \/ a = - get_value k s /\ get_share k s' = 0) /\
  (forall k', k' <> k -> get_share k' s' = get_share k' s).
Proof using FL Laws. apply update_one_reported. Qed.
(** ** Signs *)

Lemma from_fixed_nonneg dst src x : fixed_range src x -> 0 <= x -> 0 <= from_fixed dst src x.
Proof using FL.
  intros. rewrite from_fixed_spec by done. apply saturate_nonneg. apply Z.div_pos; [|apply unit_pos].
  pose proof (unit_pos dst). nia.
Qed.

Lemma div_default_sign x y : fixed_range I64F64 x -> fixed_range I64F64 y -> 0 <= y ->
  (0 <= x -> 0 <= default (from_num I64F64 0) (checked_div I64F64 x y)) /\
  (x <= 0 -> default (from_num I64F64 0) (checked_div I64F64 x y) <= 0).
Proof using FL.
  intros Hx Hy Hpos. rewrite from_num_0.
  destruct (decide (y = 0)) as [->|]; [by rewrite div_zero|]. split; intros Hsx.
  - rewrite div_spec by (done || lia). destruct (_ <=? _); cbn; [|done].
    apply Z.div_pos; [|lia]. pose proof (unit_pos I64F64). nia.
  - destruct (checked_div I64F64 x y) as [z|] eqn:E; cbn; [|done].
    exact (div_sign I64F64 x y z Hx Hy Hsx ltac:(lia) E).
Qed.

Lemma shares_per_update_sign u sv d : fixed_range U64F64 sv -> fixed_range U64F64 d ->
  (0 <= u -> 0 <= get_shares_per_update u sv d) /\ (u <= 0 -> get_shares_per_update u sv d <= 0).
Proof using FL.
  intros Hsv Hd. assert (0 <= sv) by apply Hsv. assert (0 <= d) by apply Hd.
  assert (Hu : (0 <= u -> 0 <= from_num I64F64 u) /\ (u <= 0 -> from_num I64F64 u <= 0)).
  { rewrite from_num_spec. unfold saturate, clamp. pose proof (min_max I64F64).
    pose proof (unit_pos I64F64). split; intros; nia. }
  assert (Hdiv : forall y, fixed_range U64F64 y -> 0 <= y ->
    (0 <= u -> 0 <= default (from_num I64F64 0)
       (checked_div I64F64 (from_num I64F64 u) (from_fixed I64F64 U64F64 y))) /\
    (u <= 0 -> default (from_num I64F64 0)
       (checked_div I64F64 (from_num I64F64 u) (from_fixed I64F64 U64F64 y)) <= 0)).
  { intros y Hy Hpos. destruct (div_default_sign (from_num I64F64 u) (from_fixed I64F64 U64F64 y));
      auto using from_num_range, from_fixed_range, from_fixed_nonneg.
    split; intros; naive_solver. }
  unfold get_shares_per_update. destruct (checked_div U64F64 sv d) as [v|] eqn:E.
  - assert (Rv : fixed_range U64F64 v) by exact (div_range _ _ _ _ Hsv Hd E).
    apply Hdiv; [done|apply Rv].
  - destruct (Hdiv sv) as [Hp Hm]; [done..|].
    set (q := default _ _) in *.
    assert (Rq : fixed_range I64F64 q) by (apply default_range; intros z; apply div_range; auto with chain).
    assert (Rd : fixed_range I64F64 (from_fixed I64F64 U64F64 d)) by auto with chain.
    assert (0 <= from_fixed I64F64 U64F64 d) by (by apply from_fixed_nonneg). split; intros Hs.
    + specialize (Hp Hs). rewrite mul_spec by done. apply saturate_nonneg.
      apply Z.div_pos; [nia|apply unit_pos].
    + specialize (Hm Hs). by apply mul_sign.
Qed.

(** Taking value out never adds shares, and putting value in is never cut. *)
Lemma update_shares_down k u s : pool_ok s -> u <= 0 ->
  get_denominator (update_shares k u s).2 <= get_denominator s.
Proof using FL Laws.
  intros Hok Hu. pose proof (share_range s k Hok) as Hc. pose proof (pool_denominator s Hok) as Hd.
  destruct (pool_ranges s k Hok) as (Rv & Rd & Rc). unfold update_shares.
  destruct (Z.eqb_spec (get_denominator s) 0) as [E0|E0]; cbn.
  { rewrite denominator_set_share, denominator_set by auto with chain. rewrite from_num_spec.
    unfold saturate, clamp. change (min_bits U64F64) with 0. pose proof (unit_pos U64F64).
    pose proof (min_max U64F64). nia. }
  set (n := get_shares_per_update _ _ _).
  assert (Rn : fixed_range I64F64 n) by (by apply shares_per_update_range).
  destruct (shares_per_update_sign u _ _ Rv Rd) as [_ Hn]. specialize (Hn Hu). fold n in Hn.
  destruct (Z.leb_spec 0 n).
  - replace n with 0 in * by lia. cbn. rewrite denominator_set_share, denominator_set by auto with chain.
    rewrite from_fixed_spec, Z.mul_0_l, Z.div_0_l by (done || (pose proof (unit_pos I64F64); lia)).
    pose proof (min_max U64F64). rewrite (saturate_id _ 0) by (apply fixed_range_pos; lia).
    rewrite add_spec, saturate_id by (try apply fixed_range_pos; done || lia). lia.
  - set (removed := from_fixed U64F64 I64F64 (neg I64F64 n)).
    assert (Rr : fixed_range U64F64 removed) by (unfold removed; auto with chain).
    destruct (shrink _ _ _ _) as [[d' c']|] eqn:Es; cbn.
    + apply shrink_some in Es as (Hr & -> & ->); [|lia..|done]. assert (0 <= removed) by apply Rr.
      rewrite denominator_set_share, denominator_set by (apply fixed_range_pos; lia). lia.
    + rewrite denominator_set_share, denominator_set by auto with chain.
      rewrite sub_spec, saturate_id by (try apply fixed_range_pos; done || lia). lia.
Qed.

Lemma update_one_down k u s : pool_ok s -> u <= 0 ->
  get_denominator (update_value_for_one k u s).2 <= get_denominator s.
Proof using FL Laws.
  intros Hok Hu. pose proof (update_shares_down k u s Hok Hu) as Hd. rewrite update_value_for_one_eq.
  destruct (update_shares k u s) as [a s1]. cbn in *. unfold update_value_for_all.
  by rewrite denominator_set_shared_value.
Qed.

Lemma update_one_up k u s : pool_ok s -> 0 <= u -> (update_value_for_one k u s).1 = u.
Proof using FL Laws.
  intros Hok Hu. destruct (pool_ranges s k Hok) as (Rv & Rd & _).
  destruct (shares_per_update_sign u _ _ Rv Rd) as [Hn _]. rewrite update_value_for_one_eq.
  unfold update_shares. destruct (_ =? 0); [done|].
  rewrite (proj2 (Z.leb_le _ _)) by auto. done.
Qed.
End SharePool.
