(* ===== verification/TestRuntime.v ===== *)
(** * A concrete runtime

    An instance of the interfaces of [Frame] with small accounts and exact
    balances. It shows that the laws the theorems rely on can hold together,
    and lets the definitions be evaluated. *)

From S2P Require Import Prelude Frame Fixed.
From stdpp Require Import prelude gmap list fin_maps.
From Stdlib Require Import ZArith Lia.
#[local] Open Scope Z_scope.

(** Origins: [Some a] is signed by [a], [None] is root. Accounts from 1000 on
    are derived accounts nobody can sign for. *)
#[export] Instance TestFrame : FrameSystem := {|
  AccountId := nat;
  Origin := option nat;
  DispatchError := bool;
  ensure_signed o :=
    match o with Some a => if (a <? 1000)%nat then Ok a else Err false | None => Err false end;
  ensure_root o := match o with Some _ => Err false | None => Ok tt end;
  BadOrigin := false;
|}.

Definition signed (a : nat) : Origin (FrameSystem:=TestFrame) := Some a.
Definition root : Origin (FrameSystem:=TestFrame) := None.

Lemma test_signed (o : option nat) a :
  ensure_signed (FrameSystem:=TestFrame) o = Ok a -> o = Some a /\ (a < 1000)%nat.
Proof.
  destruct o as [b|]; intros H; [|discriminate H].
  change ((if (b <? 1000)%nat then Ok b else Err false) = Ok (E:=bool) a) in H.
  destruct (Nat.ltb_spec b 1000); [|discriminate H]. by simplify_eq.
Qed.

#[export] Program Instance TestIter : StorageIter := {| iter_prefix K V _ _ m := map_to_list m |}.
Solve Obligations with done.

Record TestWorld := mkTestWorld { tw_balances : gmap nat N; tw_now : Z }.

Definition tw_balance (w : TestWorld) (a : nat) : N := default 0%N (tw_balances w !! a).

Definition tw_transfer (w : TestWorld) (a b : nat) (n : Z) : result bool TestWorld :=
  if (0 <=? n) && (n <=? Z.of_N (tw_balance w a)) then
    if decide (a = b) then Ok w
    else Ok (mkTestWorld
               (<[b := (tw_balance w b + Z.to_N n)%N]>
                 (<[a := (tw_balance w a - Z.to_N n)%N]> (tw_balances w))) (tw_now w))
  else Err true.

#[export] Instance TestCurrency : Currency (FS:=TestFrame) TestWorld := {|
  balance w a := Z.of_N (tw_balance w a);
  transfer := tw_transfer;
  existential_deposit := 1;
|}.

Lemma tw_transfer_ok w w' a b n :
  tw_transfer w a b n = Ok w' ->
  0 <= n <= Z.of_N (tw_balance w a) /\ tw_now w' = tw_now w /\
  forall c, Z.of_N (tw_balance w' c) =
    if decide (a = b) then Z.of_N (tw_balance w c)
    else if decide (c = b) then Z.of_N (tw_balance w c) + n
    else if decide (c = a) then Z.of_N (tw_balance w c) - n else Z.of_N (tw_balance w c).
Proof.
  unfold tw_transfer. destruct (Z.leb_spec 0 n); [|done].
  destruct (Z.leb_spec n (Z.of_N (tw_balance w a))); cbn; [|done].
  case_decide; intros [= <-]; split; try lia; split; try done; intros c.
  unfold tw_balance at 1; cbn. rewrite !lookup_insert.
  repeat case_decide; subst; try congruence; cbn; unfold tw_balance in *; lia.
Qed.

#[export] Instance TestCurrencyLaws : CurrencyLaws (FS:=TestFrame) TestWorld.
Proof.
  split; cbn.
  - intros. lia.
  - intros w w' a b n (_ & _ & Hb)%tw_transfer_ok Hne. rewrite Hb.
    repeat case_decide; congruence.
  - intros w w' a b n (Hn & _ & Hb)%tw_transfer_ok Hne. split; [lia|]. intros _. rewrite Hb.
    repeat case_decide; congruence.
  - intros w w' a b n c (_ & _ & Hb)%tw_transfer_ok H1 H2. rewrite Hb.
    repeat case_decide; congruence.
  - intros w w' a n (_ & _ & Hb)%tw_transfer_ok. rewrite Hb. by rewrite decide_True.
Qed.

Lemma tw_transfer_pays (w : TestWorld) a b n :
  0 <= n <= balance w a -> exists w', transfer w a b n = Ok w'.
Proof.
  cbn. intros Hn. unfold tw_transfer.
  rewrite (proj2 (Z.leb_le 0 n)), (proj2 (Z.leb_le n _)) by lia. cbn. case_decide; eauto.
Qed.

(** ** Fixed-point numbers

    Exact integer arithmetic on the bits, rounded and saturated where the
    documentation says so. *)
#[export] Instance BitsFixed : SubstrateFixed := {|
  from_num t n := saturate t (n * unit_ t);
  from_fixed dst src x := saturate dst (x * unit_ dst / unit_ src);
  from_literal t n d := saturate t ((2 * n * unit_ t + d) / (2 * d));
  to_num t w x := clamp (int_min w) (int_max w) (x / unit_ t);
  saturating_add t x y := saturate t (x + y);
  saturating_sub t x y := saturate t (x - y);
  saturating_mul t x y := saturate t (x * y / unit_ t);
  Fixed.checked_div t x y :=
    if y =? 0 then None
    else let q := Z.quot (x * unit_ t) y in
         if (min_bits t <=? q) && (q <=? max_bits t) then Some q else None;
  neg t x := saturate t (- x);
  round t x := (x + unit_ t / 2) / unit_ t * unit_ t;
  Fixed.sum t l := saturate t (foldr Z.add 0 l);
|}.

Lemma bits_div t x y z : Fixed.checked_div t x y = Some z ->
  y <> 0 /\ z = Z.quot (x * unit_ t) y /\ fixed_range t z.
Proof.
  cbn. destruct (Z.eqb_spec y 0); [done|]. destruct (_ && _) eqn:E; [|done].
  intros [= <-]. unfold fixed_range. split_and!; lia.
Qed.

#[export] Instance BitsFixedLaws : SubstrateFixedLaws.
Proof.
  split; try done; cbn; intros.
  - apply saturate_range.
  - pose proof (min_max t). rewrite saturate_pos by (apply Z.div_pos; nia).
    assert (2 <= (2 * n * unit_ t + d) / (2 * d)) by (apply Z.div_le_lower_bound; lia). lia.
  - apply saturate_range.
  - unfold saturate, clamp. pose proof (min_max t). pose proof (unit_pos t).
    assert (x * y / unit_ t <= 0) by (apply Z.div_le_upper_bound; nia). lia.
  - destruct (Z.eqb_spec y 0); [lia|]. pose proof (unit_pos t). pose proof (min_max t).
    rewrite Z.quot_div_nonneg by nia. assert (0 <= x * unit_ t / y) by (apply Z.div_pos; nia).
    rewrite (proj2 (Z.leb_le _ _)) by lia. done.
  - by apply (bits_div t x y z).
  - apply (bits_div t x y z) in H3 as (_ & -> & _). pose proof (unit_pos t).
    replace (x * unit_ t) with (- (- x * unit_ t)) by ring. rewrite Z.quot_opp_l by lia.
    assert (0 <= (- x * unit_ t) ÷ y) by (apply Z.quot_pos; nia). lia.
  - by apply saturate_id.
  - apply saturate_range.
  - apply saturate_id, fixed_range_pos. split; [|done].
    clear H0. induction H as [|a l Ha Hl IH]; cbn; lia.
Qed.
