(* ===== verification/Crowdloan.v ===== *)
(** * The crowdloan pallet (src/pallets/crowdloan/src/lib.rs)

    The pallet's storage, its nine extrinsics and their helpers, and the
    theorems about them: the accounting invariant, solvency of the funds
    accounts, and that a failed crowdloan can always be wound up. *)

From S2P Require Import Prelude Frame.
From stdpp Require Import prelude gmap list fin_maps fin_map_dom.
From Stdlib Require Import ZArith Lia.
#[local] Open Scope Z_scope.
#[local] Open Scope monad_scope.

(** What the pallet uses of the world outside it, besides the currency:
    the block number, account providers and the preimage store. *)
Class CrowdloanEnv {FS : FrameSystem} (W Call BoundedCall : Type) := {
  block_number : W -> Z;
  inc_providers : W -> AccountId -> W;
  dec_providers : W -> AccountId -> W;
  preimage_bound : W -> Call -> result DispatchError (BoundedCall * W);
  preimage_peek : W -> BoundedCall -> option Call;
  preimage_drop : W -> BoundedCall -> W;
}.

Class CrowdloanEnvLaws {FS : FrameSystem} (W Call BoundedCall : Type)
    {C : Currency W} {X : CrowdloanEnv W Call BoundedCall} := {
  inc_providers_balance : forall w a b, balance (inc_providers w a) b = balance w b;
  dec_providers_balance : forall w a b, balance (dec_providers w a) b = balance w b;
  preimage_bound_balance : forall w c bc w' b,
    preimage_bound w c = Ok (bc, w') -> balance w' b = balance w b;
  preimage_drop_balance : forall w bc b, balance (preimage_drop w bc) b = balance w b;
  transfer_block_number : forall w a b n w',
    transfer w a b n = Ok w' -> block_number w' = block_number w;
}.

(** The pallet's [Config] constants and the derivation of its sub-accounts
    ([PalletId::into_sub_account_truncating]). *)
Record CrowdloanConfig {FS : FrameSystem} := {
  MinimumDeposit : Z;
  AbsoluteMinimumContribution : Z;
  MinimumBlockDuration : Z;
  MaximumBlockDuration : Z;
  RefundContributorsLimit : Z;
  MaxContributors : Z;
  sub_account : Z -> AccountId;
}.

Record CrowdloanInfo {FS : FrameSystem} {BoundedCall : Type} := mkCrowdloanInfo {
  creator : AccountId;
  deposit : Z;
  min_contribution : Z;
  end_ : Z;
  cap : Z;
  funds_account_ : AccountId;
  raised : Z;
  target_address : option AccountId;
  call : option BoundedCall;
  finalized : bool;
  contributors_count : Z;
}.
Arguments CrowdloanInfo {FS} BoundedCall.

#[export] Instance CrowdloanInfo_eta {FS : FrameSystem} B : Eta (CrowdloanInfo B) :=
  fun x => mkCrowdloanInfo FS B (creator x) (deposit x) (min_contribution x) (end_ x) (cap x)
    (funds_account_ x) (raised x) (target_address x) (call x) (finalized x)
    (contributors_count x).

Inductive Event {FS : FrameSystem} : Type :=
  | Created (crowdloan_id : Z) (creator : AccountId) (end_ cap : Z)
  | Contributed (crowdloan_id : Z) (contributor : AccountId) (amount : Z)
  | Withdrew (crowdloan_id : Z) (contributor : AccountId) (amount : Z)
  | PartiallyRefunded (crowdloan_id : Z)
  | AllRefunded (crowdloan_id : Z)
  | Finalized (crowdloan_id : Z)
  | Dissolved (crowdloan_id : Z)
  | MinContributionUpdated (crowdloan_id new_min_contribution : Z)
  | EndUpdated (crowdloan_id new_end : Z)
  | CapUpdated (crowdloan_id new_cap : Z).

Inductive Error : Type :=
  | DepositTooLow | CapTooLow | MinimumContributionTooLow | CannotEndInPast
  | BlockDurationTooShort | BlockDurationTooLong | InsufficientBalance | Overflow
  | InvalidCrowdloanId | CapRaised | ContributionPeriodEnded | ContributionTooLow
  | InvalidOrigin | AlreadyFinalized | ContributionPeriodNotEnded | NoContribution
  | CapNotRaised | Underflow | CallUnavailable | NotReadyToDissolve
  | DepositCannotBeWithdrawn | MaxContributorsReached.

(** The pallet's storage items, with the world outside the pallet and the
    events deposited so far. *)
Record State {FS : FrameSystem} {W BoundedCall : Type} := mkState {
  Crowdloans : gmap Z (CrowdloanInfo BoundedCall);
  NextCrowdloanId : Z;
  Contributions : gmap Z (gmap AccountId Z);
  CurrentCrowdloanId : option Z;
  world : W;
  events : list Event;
}.
Arguments State {FS} W BoundedCall.

#[export] Instance State_eta {FS : FrameSystem} W B : Eta (State W B) :=
  fun x => mkState FS W B (Crowdloans x) (NextCrowdloanId x) (Contributions x)
    (CurrentCrowdloanId x) (world x) (events x).

Section Crowdloan.
Context {FS : FrameSystem} {SI : StorageIter} {W Call BoundedCall : Type}.
Context {C : Currency W} {X : CrowdloanEnv W Call BoundedCall}.
Context (cfg : CrowdloanConfig).

Abbreviation St := (State W BoundedCall).
Abbreviation Info := (CrowdloanInfo BoundedCall).
Abbreviation Cm A := (M St (error Error) A).

(** Executing a call with a signed origin: any call of the runtime, including
    those of this pallet. *)
Context (dispatch : Call -> AccountId -> St -> result DispatchError St).

(** *** Storage access *)

Definition contributions_of (s : St) (id : Z) : gmap AccountId Z :=
  default ∅ (Contributions s !! id).

Definition get_contribution (s : St) (id : Z) (a : AccountId) : option Z :=
  contributions_of s id !! a.

Definition put_contribution (id : Z) (a : AccountId) (v : Z) : Cm unit :=
  modify (fun s => s <| Contributions := <[id := <[a := v]> (contributions_of s id)]> (Contributions s) |>).

Definition remove_contribution (id : Z) (a : AccountId) : Cm unit :=
  modify (fun s => s <| Contributions := <[id := delete a (contributions_of s id)]> (Contributions s) |>).

Definition put_crowdloan (id : Z) (c : Info) : Cm unit :=
  modify (fun s => s <| Crowdloans := <[id := c]> (Crowdloans s) |>).

Definition deposit_event (e : Event) : Cm unit :=
  modify (fun s => s <| events := events s ++ [e] |>).

Definition currency_transfer (a b : AccountId) (n : Z) : Cm unit :=
  let* w := gets world in
  let* w' := ext (transfer w a b n) in
  modify (fun s => s <| world := w' |>).

(** *** Helpers *)

Definition funds_account (id : Z) : AccountId := sub_account cfg id.

Definition ensure_crowdloan_exists (crowdloan_id : Z) : Cm Info :=
  let* loans := gets Crowdloans in
  lift (ok_or (loans !! crowdloan_id) (Module InvalidCrowdloanId)).

Definition ensure_valid_end (now end_ : Z) : Cm unit :=
  ensure (now <? end_) (Module CannotEndInPast) ;;
  let* block_duration := lift (ok_or (checked_sub end_ now) (Module Underflow)) in
  ensure (MinimumBlockDuration cfg <=? block_duration) (Module BlockDurationTooShort) ;;
  ensure (block_duration <=? MaximumBlockDuration cfg) (Module BlockDurationTooLong).

(** *** Extrinsics *)

Definition create (origin : Origin) (deposit_ min_contribution_ cap_ end__ : Z)
    (call_ : option Call) (target : option AccountId) : Cm unit :=
  let* creator_ := ext (ensure_signed origin) in
  let* now := gets (fun s => block_number (world s)) in
  ensure (MinimumDeposit cfg <=? deposit_) (Module DepositTooLow) ;;
  ensure (deposit_ <? cap_) (Module CapTooLow) ;;
  ensure (AbsoluteMinimumContribution cfg <=? min_contribution_)
    (Module MinimumContributionTooLow) ;;
  ensure_valid_end now end__ ;;
  let* w := gets world in
  ensure (deposit_ <=? balance w creator_) (Module InsufficientBalance) ;;
  let* crowdloan_id := gets NextCrowdloanId in
  let* next_crowdloan_id := lift (ok_or (checked_add U32_MAX crowdloan_id 1) (Module Overflow)) in
  modify (fun s => s <| NextCrowdloanId := next_crowdloan_id |>) ;;
  let funds := funds_account crowdloan_id in
  modify (fun s => s <| world := inc_providers (world s) funds |>) ;;
  let* bounded :=
    match call_ with
    | Some c =>
        let* w := gets world in
        let* (bc, w') := ext (preimage_bound w c) in
        modify (fun s => s <| world := w' |>) ;;
        ret (Some bc)
    | None => ret None
    end in
  let crowdloan :=
    {| creator := creator_; deposit := deposit_; min_contribution := min_contribution_;
       end_ := end__; cap := cap_; funds_account_ := funds; raised := deposit_;
       target_address := target; call := bounded; finalized := false;
       contributors_count := 1 |} in
  put_crowdloan crowdloan_id crowdloan ;;
  currency_transfer creator_ funds deposit_ ;;
  put_contribution crowdloan_id creator_ deposit_ ;;
  deposit_event (Created crowdloan_id creator_ end__ cap_).

Definition contribute (origin : Origin) (crowdloan_id amount : Z) : Cm unit :=
  let* contributor := ext (ensure_signed origin) in
  let* now := gets (fun s => block_number (world s)) in
  let* crowdloan := ensure_crowdloan_exists crowdloan_id in
  ensure (now <? end_ crowdloan) (Module ContributionPeriodEnded) ;;
  ensure (raised crowdloan <? cap crowdloan) (Module CapRaised) ;;
  ensure (min_contribution crowdloan <=? amount) (Module ContributionTooLow) ;;
  ensure (contributors_count crowdloan <? MaxContributors cfg) (Module MaxContributorsReached) ;;
  let* left_to_raise :=
    lift (ok_or (checked_sub (cap crowdloan) (raised crowdloan)) (Module Underflow)) in
  let amount := Z.min amount left_to_raise in
  let* raised' := lift (ok_or (checked_add U64_MAX (raised crowdloan) amount) (Module Overflow)) in
  let crowdloan := crowdloan <| raised := raised' |> in
  let* previous := gets (fun s => get_contribution s crowdloan_id contributor) in
  let* (contribution, crowdloan) :=
    match previous with
    | Some contribution =>
        let* c := lift (ok_or (checked_add U64_MAX contribution amount) (Module Overflow)) in
        ret (c, crowdloan)
    | None =>
        let* n := lift (ok_or (checked_add U32_MAX (contributors_count crowdloan) 1)
                          (Module Overflow)) in
        ret (amount, crowdloan <| contributors_count := n |>)
    end in
  let* w := gets world in
  ensure (amount <=? balance w contributor) (Module InsufficientBalance) ;;
  currency_transfer contributor (funds_account_ crowdloan) amount ;;
  put_contribution crowdloan_id contributor contribution ;;
  put_crowdloan crowdloan_id crowdloan ;;
  deposit_event (Contributed crowdloan_id contributor amount).

Definition withdraw (origin : Origin) (crowdloan_id : Z) : Cm unit :=
  let* who := ext (ensure_signed origin) in
  let* crowdloan := ensure_crowdloan_exists crowdloan_id in
  ensure (negb (finalized crowdloan)) (Module AlreadyFinalized) ;;
  let* previous := gets (fun s => get_contribution s crowdloan_id who) in
  let amount := default 0 previous in
  ensure (0 <? amount) (Module NoContribution) ;;
  let* (amount, crowdloan) :=
    if decide (who = creator crowdloan) then
      let amount := sat_sub amount (deposit crowdloan) in
      ensure (0 <? amount) (Module DepositCannotBeWithdrawn) ;;
      put_contribution crowdloan_id who (deposit crowdloan) ;;
      ret (amount, crowdloan)
    else
      remove_contribution crowdloan_id who ;;
      let* n := lift (ok_or (checked_sub (contributors_count crowdloan) 1) (Module Underflow)) in
      ret (amount, crowdloan <| contributors_count := n |>) in
  currency_transfer (funds_account_ crowdloan) who amount ;;
  put_crowdloan crowdloan_id (crowdloan <| raised := sat_sub (raised crowdloan) amount |>) ;;
  deposit_event (Withdrew crowdloan_id who amount).

Definition finalize (origin : Origin) (crowdloan_id : Z) : Cm unit :=
  let* who := ext (ensure_signed origin) in
  let* now := gets (fun s => block_number (world s)) in
  let* crowdloan := ensure_crowdloan_exists crowdloan_id in
  ensure (bool_decide (who = creator crowdloan)) (Module InvalidOrigin) ;;
  ensure (end_ crowdloan <=? now) (Module ContributionPeriodNotEnded) ;;
  ensure (raised crowdloan =? cap crowdloan) (Module CapNotRaised) ;;
  ensure (negb (finalized crowdloan)) (Module AlreadyFinalized) ;;
  match target_address crowdloan with
  | Some target => currency_transfer (funds_account_ crowdloan) target (raised crowdloan)
  | None => ret tt
  end ;;
  match call crowdloan with
  | Some bc =>
      modify (fun s => s <| CurrentCrowdloanId := Some crowdloan_id |>) ;;
      let* w := gets world in
      match preimage_peek w bc with
      | None => fail (Module CallUnavailable)
      | Some stored_call =>
          let* s := gets (fun s => s) in
          let* s' := ext (dispatch stored_call who s) in
          modify (fun _ => s') ;;
          modify (fun s => s <| CurrentCrowdloanId := None |>)
      end
  | None => ret tt
  end ;;
  put_crowdloan crowdloan_id (crowdloan <| finalized := true |>) ;;
  deposit_event (Finalized crowdloan_id).

(** The loop of [refund]: [refunded], [count] and [raised_] are its mutable
    locals; the result says whether every contributor was reached. *)
Fixpoint refund_loop (funds : AccountId) (contributions : list (AccountId * Z))
    (refunded : list AccountId) (count raised_ : Z) : Cm (list AccountId * Z * Z * bool) :=
  match contributions with
  | [] => ret (refunded, count, raised_, true)
  | (contributor, amount) :: rest =>
      if RefundContributorsLimit cfg <=? count then ret (refunded, count, raised_, false)
      else
        currency_transfer funds contributor amount ;;
        let* count' := lift (ok_or (checked_add U32_MAX count 1) (Module Overflow)) in
        refund_loop funds rest (refunded ++ [contributor]) count' (sat_sub raised_ amount)
  end.

Definition refund (origin : Origin) (crowdloan_id : Z) : Cm unit :=
  let* now := gets (fun s => block_number (world s)) in
  let* _ := ext (ensure_signed origin) in
  let* crowdloan := ensure_crowdloan_exists crowdloan_id in
  ensure (end_ crowdloan <=? now) (Module ContributionPeriodNotEnded) ;;
  ensure (negb (finalized crowdloan)) (Module AlreadyFinalized) ;;
  let* all := gets (fun s => iter_prefix (contributions_of s crowdloan_id)) in
  let contributions := filter (fun p => p.1 <> creator crowdloan) all in
  let* (refunded, refund_count, raised', all_refunded) :=
    refund_loop (funds_account_ crowdloan) contributions [] 0 (raised crowdloan) in
  let* n := lift (ok_or (checked_sub (contributors_count crowdloan) refund_count)
                    (Module Underflow)) in
  put_crowdloan crowdloan_id
    (crowdloan <| raised := raised' |> <| contributors_count := n |>) ;;
  for_each refunded (remove_contribution crowdloan_id) ;;
  if all_refunded then deposit_event (AllRefunded crowdloan_id)
  else deposit_event (PartiallyRefunded crowdloan_id).

Definition dissolve (origin : Origin) (crowdloan_id : Z) : Cm unit :=
  let* who := ext (ensure_signed origin) in
  let* crowdloan := ensure_crowdloan_exists crowdloan_id in
  ensure (negb (finalized crowdloan)) (Module AlreadyFinalized) ;;
  ensure (bool_decide (who = creator crowdloan)) (Module InvalidOrigin) ;;
  let* contribution := gets (fun s => get_contribution s crowdloan_id (creator crowdloan)) in
  let* creator_contribution := lift (ok_or contribution (Module NoContribution)) in
  ensure (creator_contribution =? raised crowdloan) (Module NotReadyToDissolve) ;;
  currency_transfer (funds_account_ crowdloan) (creator crowdloan) creator_contribution ;;
  remove_contribution crowdloan_id (creator crowdloan) ;;
  match call crowdloan with
  | Some bc => modify (fun s => s <| world := preimage_drop (world s) bc |>)
  | None => ret tt
  end ;;
  modify (fun s => s <| world := dec_providers (world s) (funds_account_ crowdloan) |>) ;;
  modify (fun s => s <| Crowdloans := delete crowdloan_id (Crowdloans s) |>) ;;
  deposit_event (Dissolved crowdloan_id).

Definition update_min_contribution (origin : Origin) (crowdloan_id new_min_contribution : Z)
    : Cm unit :=
  let* who := ext (ensure_signed origin) in
  let* crowdloan := ensure_crowdloan_exists crowdloan_id in
  ensure (negb (finalized crowdloan)) (Module AlreadyFinalized) ;;
  ensure (bool_decide (who = creator crowdloan)) (Module InvalidOrigin) ;;
  ensure (AbsoluteMinimumContribution cfg <=? new_min_contribution)
    (Module MinimumContributionTooLow) ;;
  put_crowdloan crowdloan_id (crowdloan <| min_contribution := new_min_contribution |>) ;;
  deposit_event (MinContributionUpdated crowdloan_id new_min_contribution).

Definition update_end (origin : Origin) (crowdloan_id new_end : Z) : Cm unit :=
  let* who := ext (ensure_signed origin) in
  let* now := gets (fun s => block_number (world s)) in
  let* crowdloan := ensure_crowdloan_exists crowdloan_id in
  ensure (negb (finalized crowdloan)) (Module AlreadyFinalized) ;;
  ensure (bool_decide (who = creator crowdloan)) (Module InvalidOrigin) ;;
  ensure_valid_end now new_end ;;
  put_crowdloan crowdloan_id (crowdloan <| end_ := new_end |>) ;;
  deposit_event (EndUpdated crowdloan_id new_end).

Definition update_cap (origin : Origin) (crowdloan_id new_cap : Z) : Cm unit :=
  let* who := ext (ensure_signed origin) in
  let* crowdloan := ensure_crowdloan_exists crowdloan_id in
  ensure (negb (finalized crowdloan)) (Module AlreadyFinalized) ;;
  ensure (bool_decide (who = creator crowdloan)) (Module InvalidOrigin) ;;
  ensure (raised crowdloan <=? new_cap) (Module CapTooLow) ;;
  put_crowdloan crowdloan_id (crowdloan <| cap := new_cap |>) ;;
  deposit_event (CapUpdated crowdloan_id new_cap).

(** ** The accounting invariant *)

(** What is recorded about one crowdloan that has not been finalized agrees
    with its contributions: the amount raised is their sum, the counter is
    their number, the creator still holds the deposit, and the cap is not
    exceeded. *)
Record loan_ok (cs : gmap AccountId Z) (c : Info) : Prop := {
  lo_raised : raised c = map_sum cs;
  lo_count : contributors_count c = Z.of_nat (size cs);
  lo_creator : exists v, cs !! creator c = Some v /\ deposit c <= v;
  lo_deposit : MinimumDeposit cfg <= deposit c;
  lo_others : forall a v, cs !! a = Some v -> a <> creator c -> 0 < v;
  lo_cap : raised c <= cap c;
  lo_min : AbsoluteMinimumContribution cfg <= min_contribution c;
}.

Record wf (s : St) : Prop := {
  wf_loan : forall id c, Crowdloans s !! id = Some c ->
    0 <= id < NextCrowdloanId s /\ funds_account_ c = funds_account id /\
    (finalized c = false -> loan_ok (contributions_of s id) c);
  wf_none : forall id, Crowdloans s !! id = None -> contributions_of s id = ∅;
  wf_next : in_u U32_MAX (NextCrowdloanId s);
}.

(** Contributions are updated for one crowdloan only. *)
Definition contributions_updated (s s' : St) (id : Z) (cs : gmap AccountId Z) : Prop :=
  forall j, contributions_of s' j = if decide (j = id) then cs else contributions_of s j.

Lemma contributions_of_insert (m : gmap Z (gmap AccountId Z)) id cs s j :
  contributions_of (s <| Contributions := <[id := cs]> m |>) j
  = if decide (j = id) then cs else default ∅ (m !! j).
Proof.
  unfold contributions_of; cbn. rewrite lookup_insert.
  repeat case_decide; naive_solver.
Qed.

Lemma wf_update s s' id c c' cs :
  wf s -> Crowdloans s !! id = Some c ->
  Crowdloans s' = <[id := c']> (Crowdloans s) -> NextCrowdloanId s' = NextCrowdloanId s ->
  contributions_updated s s' id cs ->
  funds_account_ c' = funds_account_ c -> (finalized c' = false -> loan_ok cs c') -> wf s'.
Proof.
  intros [Hl Hn Hx] Hc Hs Hnext Hcs Hf Hok.
  destruct (Hl id c Hc) as (Hid & Hfa & _). split; [| |by rewrite Hnext].
  - intros j d. rewrite Hs, lookup_insert, Hnext, Hcs.
    destruct (decide (id = j)) as [->|]; intros ?; simplify_eq; case_decide; try congruence.
    + by rewrite Hf.
    + auto.
  - intros j. rewrite Hs, lookup_insert, Hcs.
    destruct (decide (id = j)); [done|]. case_decide; [congruence|auto].
Qed.

Lemma wf_update_loan s s' id c c' :
  wf s -> Crowdloans s !! id = Some c ->
  Crowdloans s' = <[id := c']> (Crowdloans s) -> NextCrowdloanId s' = NextCrowdloanId s ->
  Contributions s' = Contributions s -> funds_account_ c' = funds_account_ c ->
  (finalized c' = false -> loan_ok (contributions_of s id) c') -> wf s'.
Proof.
  intros Hwf Hc Hs Hn Hcs Hf Hok. eapply wf_update; eauto.
  intros j. unfold contributions_of. rewrite Hcs. by case_decide; subst.
Qed.

Lemma wf_delete s s' id :
  wf s -> Crowdloans s' = delete id (Crowdloans s) -> NextCrowdloanId s' = NextCrowdloanId s ->
  contributions_updated s s' id ∅ -> wf s'.
Proof.
  intros [Hl Hn Hx] Hs Hnext Hcs. split; [| |by rewrite Hnext].
  - intros j d. rewrite Hs, Hnext, Hcs. intros [Hne Hj]%lookup_delete_Some.
    rewrite decide_False by done. auto.
  - intros j. rewrite Hs, Hcs. intros [->|Hj]%lookup_delete_None; [by rewrite decide_True|].
    case_decide; auto.
Qed.

Lemma currency_transfer_ok a b n (s s' : St) u :
  currency_transfer a b n s = Ok (u, s') ->
  exists w', transfer (world s) a b n = Ok w' /\ s' = s <| world := w' |>.
Proof. unfold currency_transfer. intros H. monad_inv H. eauto. Qed.

Lemma ensure_crowdloan_exists_ok id (s s' : St) c :
  ensure_crowdloan_exists id s = Ok (c, s') -> Crowdloans s !! id = Some c /\ s' = s.
Proof. unfold ensure_crowdloan_exists. intros H. monad_inv H. done. Qed.

Lemma ensure_valid_end_ok now e (s s' : St) u :
  ensure_valid_end now e s = Ok (u, s') -> s' = s /\ now < e.
Proof. unfold ensure_valid_end. intros H. monad_inv H. split; [done|]. lia. Qed.

End Crowdloan.

Ltac monad_inv_hook H ::=
  lazymatch type of H with
  | ext _ _ = Ok _ =>
      apply ext_ok in H; let a := fresh "a" in let H0 := fresh "Hx" in
      destruct H as (a & H0 & H); simplify_eq
  | currency_transfer _ _ _ _ = Ok _ =>
      apply currency_transfer_ok in H; let w := fresh "w" in let H0 := fresh "Ht" in
      destruct H as (w & H0 & H); simplify_eq
  | ensure_crowdloan_exists _ _ = Ok _ =>
      apply ensure_crowdloan_exists_ok in H; let H0 := fresh "Hc" in
      destruct H as (H0 & H); simplify_eq
  | ensure_valid_end _ _ _ _ = Ok _ =>
      apply ensure_valid_end_ok in H; let H0 := fresh "He" in
      destruct H as (H & H0); simplify_eq
  | put_contribution _ _ _ _ = Ok _ => unfold put_contribution in H; monad_inv H
  | remove_contribution _ _ _ = Ok _ => unfold remove_contribution in H; monad_inv H
  | put_crowdloan _ _ _ = Ok _ => unfold put_crowdloan in H; monad_inv H
  | deposit_event _ _ = Ok _ => unfold deposit_event in H; monad_inv H
  | _ => idtac
  end.

(** [bools] turns the boolean guards of a successful path into propositions. *)
Ltac bools :=
  repeat match goal with
  | H : bool_decide _ = true |- _ => apply bool_decide_eq_true_1 in H
  | H : negb _ = true |- _ => apply negb_true_iff in H
  | H : checked_add _ _ _ = Some _ |- _ => apply checked_add_Some in H as [-> ?]
  | H : checked_sub _ _ = Some _ |- _ => apply checked_sub_Some in H as [-> ?]
  end.

Section CrowdloanInvariant.
Context {FS : FrameSystem} {SI : StorageIter} {W Call BoundedCall : Type}.
Context {C : Currency W} {X : CrowdloanEnv W Call BoundedCall}.
Context (cfg : CrowdloanConfig).
Abbreviation St := (State W BoundedCall).
Context (Hmin : 0 < AbsoluteMinimumContribution cfg).
Context (Hdep : 0 <= MinimumDeposit cfg).

Lemma loan_ok_nonneg cs (c : CrowdloanInfo BoundedCall) :
  loan_ok cfg cs c -> forall a v, cs !! a = Some v -> 0 <= v.
Proof.
  intros [_ _ (v0 & Hv0 & Hd) Hd' Ho _ _] a v Ha.
  destruct (decide (a = creator c)) as [->|Hne]; [simplify_eq; lia|].
  specialize (Ho a v Ha Hne). lia.
Qed.

(** The storage after an extrinsic that touched only crowdloan [id]. *)
Ltac wf_update_tac Hwf Hc :=
  destruct (wf_loan _ _ Hwf _ _ Hc) as (_ & _ & Hok);
  eapply (wf_update _ _ _ _ _ _ _ Hwf Hc);
  [reflexivity | reflexivity
  | intros ?; unfold contributions_of; cbn; rewrite ?lookup_insert;
    repeat case_decide; solve [done | congruence]
  | reflexivity | intros Hfin; cbn in Hfin; specialize (Hok ltac:(congruence))].

(** Adding [n] to the contribution of [a], whether it is new or not. *)
Lemma loan_ok_add cs (c : CrowdloanInfo BoundedCall) a n :
  loan_ok cfg cs c -> 0 < n -> raised c + n <= cap c ->
  loan_ok cfg (<[a := default 0 (cs !! a) + n]> cs)
    (c <| raised := raised c + n |>
       <| contributors_count := if cs !! a then contributors_count c else contributors_count c + 1 |>).
Proof.
  intros Hok Hn Hcap. pose proof (loan_ok_nonneg cs c Hok) as Hnn.
  destruct Hok as [Hr Hcnt (v0 & Hv0 & Hd) Hd' Ho Hcp Hmn].
  split; cbn; try lia.
  - destruct (cs !! a) as [v|] eqn:Ha; cbn.
    + rewrite (map_sum_insert_Some _ _ v) by done. lia.
    + rewrite map_sum_insert_None by done. lia.
  - destruct (cs !! a) as [v|] eqn:Ha.
    + by rewrite map_size_insert_Some.
    + rewrite map_size_insert_None by done. lia.
  - rewrite lookup_insert. case_decide as Heq; [|by eauto].
    subst a. rewrite Hv0. cbn. eexists; split; [done|lia].
  - intros b v. rewrite lookup_insert. case_decide as Heq; [|by apply Ho].
    intros [= <-] Hne. subst b. destruct (cs !! a) as [v|] eqn:Ha; cbn; [|lia].
    specialize (Ho a v Ha Hne). lia.
Qed.

(** Taking out the contribution of [a], who is not the creator. *)
Lemma loan_ok_remove cs (c : CrowdloanInfo BoundedCall) a n :
  loan_ok cfg cs c -> cs !! a = Some n -> a <> creator c ->
  loan_ok cfg (delete a cs)
    (c <| raised := sat_sub (raised c) n |> <| contributors_count := contributors_count c - 1 |>).
Proof.
  intros Hok Ha Hne. pose proof (loan_ok_nonneg cs c Hok) as Hnn.
  pose proof (map_sum_lookup_le cs a n Hnn Ha).
  destruct Hok as [Hr Hcnt (v0 & Hv0 & Hd) Hd' Ho Hcp Hmn].
  rewrite sat_sub_le by lia. specialize (Hnn a n Ha).
  split; cbn; try lia.
  - rewrite (map_sum_delete _ _ n) by done. lia.
  - rewrite map_size_delete_Some by eauto.
    pose proof (map_size_non_empty_iff cs). assert (size cs <> 0%nat); [|lia].
    apply map_size_non_empty_iff. intros ->. by rewrite lookup_empty in Ha.
  - exists v0. rewrite lookup_delete_ne; done.
  - intros b v [_ Hb]%lookup_delete_Some. by apply Ho.
Qed.

(** The creator taking back what exceeds the deposit. *)
Lemma loan_ok_creator_withdraw cs (c : CrowdloanInfo BoundedCall) n :
  loan_ok cfg cs c -> cs !! creator c = Some n ->
  loan_ok cfg (<[creator c := deposit c]> cs)
    (c <| raised := sat_sub (raised c) (sat_sub n (deposit c)) |>).
Proof.
  intros Hok Ha. pose proof (loan_ok_nonneg cs c Hok) as Hnn.
  pose proof (map_sum_lookup_le cs _ n Hnn Ha).
  destruct Hok as [Hr Hcnt (v0 & Hv0 & Hd) Hd' Ho Hcp Hmn]. simplify_eq.
  rewrite !sat_sub_le by (rewrite ?sat_sub_le by lia; lia).
  split; cbn; try lia.
  - rewrite (map_sum_insert_Some _ _ v0) by done. lia.
  - by rewrite map_size_insert_Some.
  - rewrite lookup_insert_eq. eexists; split; [done|lia].
  - intros b v. rewrite lookup_insert. case_decide; [congruence|by apply Ho].
Qed.

Lemma contribute_wf origin id amount (s s' : St) u :
  wf cfg s -> contribute cfg origin id amount s = Ok (u, s') -> wf cfg s'.
Proof.
  intros Hwf H. unfold contribute, get_contribution in H. monad_inv H; bools;
    wf_update_tac Hwf Hc;
    pose proof (lo_min _ _ _ Hok);
    pose proof (loan_ok_add _ _ a0 (amount `min` (cap a - raised a)) Hok ltac:(lia) ltac:(lia)) as G;
    rewrite E in G; exact G.
Qed.

Lemma withdraw_wf origin id (s s' : St) u :
  wf cfg s -> withdraw origin id s = Ok (u, s') -> wf cfg s'.
Proof.
  intros Hwf H. unfold withdraw in H. monad_inv H; bools;
    match goal with H : (0 <? default 0 ?g) = true |- _ =>
      destruct g as [amt|] eqn:Hamt; [|discriminate] end; cbn in *;
    wf_update_tac Hwf Hc.
  - by apply loan_ok_creator_withdraw.
  - by apply loan_ok_remove.
Qed.

(** Once the amount raised is the creator's own, nobody else is left. *)
Lemma loan_ok_only_creator cs (c : CrowdloanInfo BoundedCall) :
  loan_ok cfg cs c -> cs !! creator c = Some (raised c) -> delete (creator c) cs = ∅.
Proof.
  intros Hok Hcr. pose proof (loan_ok_nonneg cs c Hok) as Hnn.
  destruct Hok as [Hr _ _ _ Ho _ _].
  pose proof (map_sum_delete cs (creator c) _ Hcr) as Hsum.
  apply map_eq. intros a. rewrite lookup_empty.
  destruct (delete (creator c) cs !! a) as [v|] eqn:Ha; [|done].
  pose proof (map_sum_lookup_le (delete (creator c) cs) a v) as Hle.
  apply lookup_delete_Some in Ha as Ha'. destruct Ha' as [Hne Ha'].
  specialize (Ho a v Ha' ltac:(done)).
  enough (v <= map_sum (delete (creator c) cs)) by lia.
  apply Hle; [|done]. intros k u [_ Hk]%lookup_delete_Some. eauto.
Qed.

Lemma dissolve_wf origin id (s s' : St) u :
  wf cfg s -> dissolve origin id s = Ok (u, s') -> wf cfg s'.
Proof.
  intros Hwf H. unfold dissolve in H. monad_inv H; bools;
    apply Z.eqb_eq in Hg1; subst;
    destruct (wf_loan _ _ Hwf _ _ Hc) as (_ & _ & Hok); specialize (Hok Hg);
    (eapply (wf_delete _ _ _ id Hwf); [reflexivity | reflexivity |]);
    intros j; unfold contributions_of; cbn; rewrite lookup_insert;
    repeat case_decide; try done; try congruence;
    by apply (loan_ok_only_creator _ a).
Qed.

(** An update of one field of a crowdloan that is not finalized. *)
Ltac wf_update_field Hwf Hc :=
  destruct (wf_loan _ _ Hwf _ _ Hc) as (_ & _ & Hok);
  eapply (wf_update_loan _ _ _ _ _ _ Hwf Hc);
  [reflexivity | reflexivity | reflexivity | reflexivity
  | intros Hfin; cbn in Hfin; specialize (Hok ltac:(congruence)); destruct Hok; split; cbn; auto; lia].

Lemma update_min_contribution_wf origin id n (s s' : St) u :
  wf cfg s -> update_min_contribution cfg origin id n s = Ok (u, s') -> wf cfg s'.
Proof.
  intros Hwf H. unfold update_min_contribution in H. monad_inv H; bools.
  wf_update_field Hwf Hc.
Qed.

Lemma update_end_wf origin id n (s s' : St) u :
  wf cfg s -> update_end cfg origin id n s = Ok (u, s') -> wf cfg s'.
Proof.
  intros Hwf H. unfold update_end in H. monad_inv H; bools. wf_update_field Hwf Hc.
Qed.

Lemma update_cap_wf origin id n (s s' : St) u :
  wf cfg s -> update_cap origin id n s = Ok (u, s') -> wf cfg s'.
Proof.
  intros Hwf H. unfold update_cap in H. monad_inv H; bools. wf_update_field Hwf Hc.
Qed.

Lemma wf_create (s s' : St) c :
  wf cfg s -> Crowdloans s' = <[NextCrowdloanId s := c]> (Crowdloans s) ->
  NextCrowdloanId s' = NextCrowdloanId s + 1 -> NextCrowdloanId s + 1 <= U32_MAX ->
  funds_account_ c = funds_account cfg (NextCrowdloanId s) ->
  contributions_updated s s' (NextCrowdloanId s)
    (<[creator c := deposit c]> (contributions_of s (NextCrowdloanId s))) ->
  loan_ok cfg {[creator c := deposit c]} c -> wf cfg s'.
Proof.
  intros [Hl Hn Hx] Hs Hnext Hmax Hf Hcs Hok. unfold in_u in Hx.
  assert (Crowdloans s !! NextCrowdloanId s = None) as Hfresh.
  { apply eq_None_not_Some. intros [d Hd]. destruct (Hl _ _ Hd). lia. }
  rewrite (Hn _ Hfresh), insert_empty in Hcs. split; [| |unfold in_u; lia].
  - intros j d. rewrite Hs, Hnext, Hcs, lookup_insert.
    destruct (decide (NextCrowdloanId s = j)) as [<-|Hne].
    + intros [= <-]. rewrite decide_True by done. split; [lia|done].
    + intros Hd. rewrite decide_False by done. destruct (Hl _ _ Hd) as (? & ? & ?). split; [lia|done].
  - intros j. rewrite Hs, Hcs, lookup_insert. destruct (decide (NextCrowdloanId s = j)); [done|].
    rewrite decide_False by done. apply Hn.
Qed.

(** A crowdloan right after its creation. *)
Lemma loan_ok_create (c : CrowdloanInfo BoundedCall) :
  raised c = deposit c -> contributors_count c = 1 -> MinimumDeposit cfg <= deposit c ->
  deposit c < cap c -> AbsoluteMinimumContribution cfg <= min_contribution c ->
  loan_ok cfg {[creator c := deposit c]} c.
Proof.
  intros Hr Hn Hd Hc Hm. split; try lia.
  - rewrite <- insert_empty, map_sum_insert_None by apply lookup_empty.
    rewrite map_sum_empty. lia.
  - rewrite map_size_singleton. lia.
  - rewrite lookup_singleton_eq. eexists; split; [done|lia].
  - intros a v [??]%lookup_singleton_Some; congruence.
Qed.

Lemma create_wf origin d m k e c t (s s' : St) u :
  wf cfg s -> create cfg origin d m k e c t s = Ok (u, s') -> wf cfg s'.
Proof.
  intros Hwf H. unfold create in H. monad_inv H; bools;
    (eapply (wf_create _ _ _ Hwf); [reflexivity | reflexivity | lia | reflexivity | |
       apply loan_ok_create; cbn; lia]);
    intros j; unfold contributions_of; cbn; rewrite lookup_insert; repeat case_decide;
    solve [done | congruence].
Qed.

(** *** The refund loop *)

Fixpoint list_sum (l : list (AccountId * Z)) : Z :=
  match l with [] => 0 | p :: l => p.2 + list_sum l end.

(** It pays the contributors in iteration order and stops at the limit. *)
Lemma refund_loop_ok funds l acc cnt r (s s' : St) acc' cnt' r' all :
  refund_loop cfg funds l acc cnt r s = Ok (acc', cnt', r', all, s') ->
  exists paid rest w', l = paid ++ rest /\ acc' = acc ++ paid.*1 /\
    cnt' = cnt + Z.of_nat (length paid) /\ r' = foldl sat_sub r paid.*2 /\
    s' = s <| world := w' |> /\
    (if all then rest = [] else rest <> [] /\ RefundContributorsLimit cfg <= cnt') /\
    (cnt <= RefundContributorsLimit cfg -> cnt' <= RefundContributorsLimit cfg).
Proof.
  revert acc cnt r s. induction l as [|[a n] l IH]; intros acc cnt r s H; cbn in H.
  - monad_inv H. exists [], [], (world s). cbn. rewrite !app_nil_r.
    repeat split; try done; try lia. by destruct s.
  - destruct (Z.leb_spec (RefundContributorsLimit cfg) cnt).
    + monad_inv H. exists [], ((a, n) :: l), (world s). cbn. rewrite !app_nil_r.
      repeat split; try done; try lia. by destruct s.
    + monad_inv H. bools.
      apply IH in H as (paid & rest & w' & -> & -> & -> & -> & -> & Hall & Hlim).
      exists ((a, n) :: paid), rest, w'. rewrite <- app_assoc. cbn.
      repeat split; try done; try lia; destruct all; intuition lia.
Qed.

(** Removing the contributions of a list of accounts. *)
Lemma remove_contributions_ok id l (s s' : St) :
  for_each l (remove_contribution id) s = Ok (tt, s') ->
  Crowdloans s' = Crowdloans s /\ NextCrowdloanId s' = NextCrowdloanId s /\
  world s' = world s /\
  contributions_updated s s' id (foldl (fun m a => delete a m) (contributions_of s id) l).
Proof.
  revert s. induction l as [|a l IH]; intros s H; cbn in H.
  - monad_inv H. repeat split; try done. intros j. cbn. by case_decide; subst.
  - monad_inv H. apply IH in H as (H1 & H2 & H3 & H4). repeat split; try done.
    intros j. rewrite H4. cbn. rewrite !contributions_of_insert.
    repeat case_decide; done.
Qed.

Lemma loan_ok_remove_list l cs (c : CrowdloanInfo BoundedCall) :
  loan_ok cfg cs c -> NoDup l.*1 ->
  (forall a n, (a, n) ∈ l -> cs !! a = Some n /\ a <> creator c) ->
  loan_ok cfg (foldl (fun m a => delete a m) cs l.*1)
    (c <| raised := foldl sat_sub (raised c) l.*2 |>
       <| contributors_count := contributors_count c - Z.of_nat (length l) |>).
Proof.
  revert cs c. induction l as [|[a n] l IH]; intros cs c Hok Hnd Hin; cbn.
  - rewrite Z.sub_0_r. by destruct c.
  - apply NoDup_cons in Hnd as [Ha Hnd]. destruct (Hin a n) as [Hcs Hne]; [set_solver|].
    pose proof (IH _ _ (loan_ok_remove _ _ _ _ Hok Hcs Hne) Hnd) as G. cbn in G.
    replace (contributors_count c - Z.of_nat (S (length l)))
      with (contributors_count c - 1 - Z.of_nat (length l)) by lia.
    apply G. intros b m Hb. destruct (Hin b m) as [Hb' Hne']; [set_solver|].
    split; [|done]. rewrite lookup_delete_ne; [done|]. intros <-.
    apply Ha, list_elem_of_fmap. by exists (a, m).
Qed.

(** The contributors [refund] iterates over. *)
Lemma refund_candidates (cs : gmap AccountId Z) (P : AccountId * Z -> Prop) `{!forall p, Decision (P p)} paid rest :
  filter P (iter_prefix cs) = paid ++ rest ->
  NoDup paid.*1 /\ forall a n, (a, n) ∈ paid -> cs !! a = Some n /\ P (a, n).
Proof.
  intros Hl. split.
  - assert (NoDup (filter P (iter_prefix cs)).*1) as Hnd.
    { apply (NoDup_fmap_fst); [|apply NoDup_filter; rewrite iter_prefix_perm; apply NoDup_map_to_list].
      intros a x y [_ Hx]%list_elem_of_filter [_ Hy]%list_elem_of_filter.
      rewrite iter_prefix_perm in Hx, Hy. apply elem_of_map_to_list in Hx, Hy. congruence. }
    rewrite Hl, fmap_app in Hnd. by apply NoDup_app in Hnd as [? _].
  - intros a n Hin. assert ((a, n) ∈ filter P (iter_prefix cs)) as Hf
      by (rewrite Hl; set_solver).
    apply list_elem_of_filter in Hf as [HP Hf]. split; [|done].
    by rewrite iter_prefix_perm, elem_of_map_to_list in Hf.
Qed.

(** The effect of a successful [refund]: the contributors in [paid] got their
    money back and their entries are gone. *)
Lemma refund_ok origin id (s s' : St) u :
  refund cfg origin id s = Ok (u, s') ->
  exists c paid rest w', let cs := contributions_of s id in
    Crowdloans s !! id = Some c /\ finalized c = false /\
    filter (fun p => p.1 <> creator c) (iter_prefix cs) = paid ++ rest /\
    (rest = [] \/ Z.of_nat (length paid) >= RefundContributorsLimit cfg) /\
    (exists all, refund_loop cfg (funds_account_ c) (paid ++ rest) [] 0 (raised c) s
       = Ok (paid.*1, Z.of_nat (length paid), foldl sat_sub (raised c) paid.*2, all, s <| world := w' |>)) /\
    world s' = w' /\ NextCrowdloanId s' = NextCrowdloanId s /\
    Crowdloans s' = <[id := c <| raised := foldl sat_sub (raised c) paid.*2 |>
      <| contributors_count := contributors_count c - Z.of_nat (length paid) |>]> (Crowdloans s) /\
    contributions_updated s s' id (foldl (fun m a => delete a m) cs paid.*1).
Proof.
  intros H. unfold refund in H. monad_inv H; bools;
    pose proof (refund_loop_ok _ _ _ _ _ _ _ _ _ _ _ Hm)
      as (paid & rest & w' & Hl & -> & -> & -> & -> & Hall & _);
    match goal with H : for_each _ _ _ = Ok (?u, _) |- _ =>
      destruct u; apply remove_contributions_ok in H as (F1 & F2 & F3 & F4) end;
    exists a, paid, rest, w'; cbn in *; rewrite Hl in Hm; repeat split; try done; eauto.
  - right. lia.
Qed.

Lemma refund_wf origin id (s s' : St) u :
  wf cfg s -> refund cfg origin id s = Ok (u, s') -> wf cfg s'.
Proof.
  intros Hwf (c & paid & rest & w' & Hc & Hfin & Hl & _ & _ & _ & Hn & Hs & Hcs)%refund_ok.
  destruct (wf_loan _ _ Hwf _ _ Hc) as (_ & _ & Hok).
  destruct (refund_candidates _ _ _ _ Hl) as [Hnd Hin].
  eapply (wf_update _ _ _ _ _ _ _ Hwf Hc Hs Hn Hcs); [done|]. intros _.
  apply loan_ok_remove_list; auto.
Qed.

Section Dispatch.
Context (dispatch : Call -> AccountId -> St -> result DispatchError St).

(** What finalizing a crowdloan relies on about the dispatched call: like every
    other extrinsic it keeps the pallet's invariant and takes no id back. *)
Definition dispatch_keeps (I : St -> Prop) : Prop :=
  forall c who s s', dispatch c who s = Ok s' -> I s ->
    I s' /\ NextCrowdloanId s <= NextCrowdloanId s'.

Lemma wf_finalized (s : St) id c :
  wf cfg s -> 0 <= id < NextCrowdloanId s -> funds_account_ c = funds_account cfg id ->
  finalized c = true -> wf cfg (s <| Crowdloans := <[id := c]> (Crowdloans s) |>).
Proof.
  intros [Hl Hn Hx] Hid Hf Hfin. split; cbn; [| |done].
  - intros j d. rewrite lookup_insert. destruct (decide (id = j)) as [->|]; [|apply Hl].
    intros [= <-]. split; [done|]. split; [done|congruence].
  - intros j. rewrite lookup_insert. destruct (decide (id = j)); [done|apply Hn].
Qed.

Lemma wf_irrelevant (s s' : St) :
  wf cfg s -> Crowdloans s' = Crowdloans s -> NextCrowdloanId s' = NextCrowdloanId s ->
  Contributions s' = Contributions s -> wf cfg s'.
Proof.
  intros [Hl Hn Hx] H1 H2 H3. split; unfold contributions_of in *; rewrite ?H1, ?H2, ?H3; auto.
Qed.

Lemma finalize_ok origin id (s s' : St) u :
  finalize dispatch origin id s = Ok (u, s') ->
  exists c s1, Crowdloans s !! id = Some c /\ finalized c = false /\
    end_ c <= block_number (world s) /\ raised c = cap c /\
    ensure_signed origin = Ok (creator c) /\
    (exists s0, match target_address c with
                | Some t => exists w, transfer (world s) (funds_account_ c) t (raised c) = Ok w /\
                                      s0 = s <| world := w |>
                | None => s0 = s end /\
       match call c with
       | Some bc => exists k s2, preimage_peek (world s0) bc = Some k /\
           dispatch k (creator c) (s0 <| CurrentCrowdloanId := Some id |>) = Ok s2 /\
           s1 = s2 <| CurrentCrowdloanId := None |>
       | None => s1 = s0 end) /\
    s' = s1 <| Crowdloans := <[id := c <| finalized := true |>]> (Crowdloans s1) |>
            <| events := events s1 ++ [Finalized id] |>.
Proof.
  intros H. unfold finalize in H. monad_inv H; bools;
    (eexists _, _; split_and!; [done | done | lia | lia | congruence
      | match goal with E : target_address _ = _, E' : call _ = _ |- _ => rewrite E, E' end;
        subst; eexists; split; [by eauto | eauto 10]
      | reflexivity]).
Qed.

Lemma finalize_wf origin id (s s' : St) u :
  dispatch_keeps (wf cfg) ->
  wf cfg s -> finalize dispatch origin id s = Ok (u, s') -> wf cfg s'.
Proof.
  intros Hd Hwf (c & s1 & Hc & _ & _ & _ & _ & (s0 & H0 & H1) & ->)%finalize_ok.
  destruct (wf_loan _ _ Hwf _ _ Hc) as (Hid & Hf & _).
  assert (wf cfg s0 /\ NextCrowdloanId s0 = NextCrowdloanId s) as [Hwf0 Hn0].
  { destruct (target_address c); [destruct H0 as (w & _ & ->)|subst s0]; [|done].
    split; [|done]. eapply wf_irrelevant; [exact Hwf|done..]. }
  assert (wf cfg s1 /\ NextCrowdloanId s0 <= NextCrowdloanId s1) as [Hwf1 Hn1].
  { destruct (call c) as [bc|]; [|subst s1; split; [done|lia]].
    destruct H1 as (k & s2 & _ & Hk & ->). destruct (Hd _ _ _ _ Hk) as [Hwf2 ?].
    { eapply wf_irrelevant; [exact Hwf0|done..]. }
    split; [eapply wf_irrelevant; [exact Hwf2|done..]|assumption]. }
  eapply wf_irrelevant; [apply (wf_finalized s1 id (c <| finalized := true |>)) | done..];
    cbn; solve [done | lia].
Qed.

Lemma withdraw_creator origin id (s s' : St) u who c : wf cfg s -> withdraw origin id s = Ok (u, s') ->
  ensure_signed origin = Ok who -> Crowdloans s !! id = Some c -> who = creator c ->
  exists v, contributions_of s id !! creator c = Some v /\ deposit c < v /\
    Crowdloans s' !! id = Some (c <| raised := sat_sub (raised c) (v - deposit c) |>) /\ finalized c = false /\
    transfer (world s) (funds_account_ c) (creator c) (v - deposit c) = Ok (world s').
Proof.
  intros Hwf H Ho Hc ->. unfold withdraw in H. rewrite Ho in H. monad_inv H; bools; simplify_eq. rename a into c.
  match goal with Hp : (0 <? default 0 ?g) = true |- _ => destruct g as [v|] eqn:Hv; [|discriminate] end. cbn in *.
  assert (deposit c < v) as Hlt by (match goal with Hp : (0 <? sat_sub _ _) = true |- _ => unfold sat_sub in Hp; lia end).
  rewrite (sat_sub_le v) in * by lia. exists v. split; [done|]. split; [done|]. by rewrite lookup_insert_eq.
Qed.

End Dispatch.

(** ** Solvency of the funds accounts *)

Context {CL : CurrencyLaws W} {XL : CrowdloanEnvLaws W Call BoundedCall}.

(** The runtime's sub-account derivation gives distinct accounts. *)
Context (Hinj : forall i j, in_u U32_MAX i -> in_u U32_MAX j ->
  sub_account cfg i = sub_account cfg j -> i = j).
(** Nobody holds a key of a derived account. *)
Context (Hkey : forall origin a, ensure_signed origin = Ok a ->
  forall id, in_u U32_MAX id -> a <> sub_account cfg id).
Context (Hed : 0 <= existential_deposit <= MinimumDeposit cfg).

(** Every crowdloan that is not finalized, except possibly [x], has its raised
    amount in its funds account. *)
Definition solvent_but (x : option Z) (s : St) : Prop :=
  forall id c, Some id <> x -> Crowdloans s !! id = Some c -> finalized c = false ->
    raised c <= balance (world s) (funds_account cfg id).

Definition solvent (s : St) : Prop := solvent_but None s.
Definition inv (s : St) : Prop := wf cfg s /\ solvent s.

(** A transfer out of [f] never lowers another account. *)
Lemma transfer_others (w w' : W) f a n b :
  transfer w f a n = Ok w' -> 0 <= n -> b <> f -> balance w b <= balance w' b.
Proof.
  intros Ht Hn Hb. destruct (decide (a = b)) as [->|Hne].
  - rewrite (transfer_to _ _ _ _ _ Ht); [lia|done].
  - rewrite (transfer_other _ _ _ _ _ b Ht); done || lia.
Qed.

(** Paying [n] out of an account that covers [r] leaves [r - n] covered as long
    as [r - n] is not below the existential deposit. *)
Lemma transfer_payer (w w' : W) f a n r :
  transfer w f a n = Ok w' -> 0 <= n -> r <= balance w f -> existential_deposit <= r - n ->
  r - n <= balance w' f.
Proof.
  intros Ht Hn Hr Hk. destruct (decide (f = a)) as [->|Hne].
  - rewrite (transfer_self _ _ _ _ Ht). lia.
  - destruct (transfer_from _ _ _ _ _ Ht Hne) as [_ Hex]. rewrite Hex by lia. lia.
Qed.

Lemma solvent_update (s s' : St) id c' :
  wf cfg s -> solvent s -> in_u U32_MAX id ->
  Crowdloans s' = <[id := c']> (Crowdloans s) ->
  (forall j, in_u U32_MAX j -> funds_account cfg j <> funds_account cfg id ->
     balance (world s) (funds_account cfg j) <= balance (world s') (funds_account cfg j)) ->
  (finalized c' = false -> raised c' <= balance (world s') (funds_account cfg id)) ->
  solvent s'.
Proof.
  intros Hwf Hs Hid Hc' Hb Hf j d _. rewrite Hc', lookup_insert.
  pose proof (wf_next _ _ Hwf) as [_ Hmax].
  destruct (decide (id = j)) as [->|Hne]; [intros [= <-]; auto|].
  intros Hd Hfin. destruct (wf_loan _ _ Hwf _ _ Hd) as (Hjd & _).
  transitivity (balance (world s) (funds_account cfg j)); [by apply Hs|].
  assert (in_u U32_MAX j) by (unfold in_u; lia).
  apply Hb; [done|]. intros ?. by apply Hne, Hinj.
Qed.

Lemma wf_id (s : St) id c : wf cfg s -> Crowdloans s !! id = Some c ->
  in_u U32_MAX id /\ funds_account_ c = funds_account cfg id.
Proof.
  intros Hwf Hc. destruct (wf_loan _ _ Hwf _ _ Hc) as (? & ? & _).
  pose proof (wf_next _ _ Hwf) as [_ ?]. unfold in_u. split; [lia|done].
Qed.

(** Money signed accounts pay in. *)
Lemma transfer_in (w w' : W) origin a id n :
  ensure_signed origin = Ok a -> in_u U32_MAX id ->
  transfer w a (funds_account cfg id) n = Ok w' ->
  balance w' (funds_account cfg id) = balance w (funds_account cfg id) + n /\
  forall j, in_u U32_MAX j -> funds_account cfg j <> funds_account cfg id ->
    balance w (funds_account cfg j) <= balance w' (funds_account cfg j).
Proof.
  intros Ha Hid Ht. pose proof (Hkey _ _ Ha) as Hk. split.
  - apply (transfer_to _ _ _ _ _ Ht), Hk, Hid.
  - intros j Hj Hne. rewrite (transfer_other _ _ _ _ _ _ Ht); [lia| |done].
    intros Heq. by apply (Hk j Hj).
Qed.

Lemma contribute_solvent origin id amount (s s' : St) u :
  inv s -> contribute cfg origin id amount s = Ok (u, s') -> solvent s'.
Proof.
  intros [Hwf Hs] H. unfold contribute in H. monad_inv H; bools; cbn in Ht;
    destruct (wf_id _ _ _ Hwf Hc) as [Hid Hf]; rewrite Hf in Ht;
    destruct (transfer_in _ _ _ _ _ _ Hx Hid Ht) as [Hto Hoth];
    (eapply (solvent_update _ _ id _ Hwf Hs Hid); [reflexivity | exact Hoth |]);
    intros Hfin; specialize (Hs id a ltac:(done) Hc Hfin); cbn; lia.
Qed.

Lemma create_solvent origin d m k e c t (s s' : St) u :
  inv s -> create cfg origin d m k e c t s = Ok (u, s') -> solvent s'.
Proof.
  intros [Hwf Hs] H. pose proof (wf_next _ _ Hwf) as Hnx. unfold create in H.
  monad_inv H; bools; cbn in Ht;
    destruct (transfer_in _ _ _ _ _ _ Hx Hnx Ht) as [Hto Hoth];
    (eapply (solvent_update _ _ (NextCrowdloanId s) _ Hwf Hs Hnx); [reflexivity | |]);
    try (intros j Hj Hne; specialize (Hoth j Hj Hne);
         rewrite ?(preimage_bound_balance _ _ _ _ _ Hx0) in Hoth; cbn in Hoth;
         rewrite inc_providers_balance in Hoth; exact Hoth);
    intros _; cbn; rewrite Hto;
    match goal with |- _ <= balance ?w ?b + _ => pose proof (balance_nonneg w b); lia end.
Qed.

Lemma loan_ok_raised cs (c : CrowdloanInfo BoundedCall) :
  loan_ok cfg cs c -> existential_deposit <= raised c.
Proof.
  intros Hok. pose proof (loan_ok_nonneg cs c Hok) as Hnn.
  destruct Hok as [Hr _ (v & Hv & Hd) Hd' _ _ _].
  pose proof (map_sum_lookup_le cs _ v Hnn Hv). lia.
Qed.

(** Paying [n] out of the funds account of crowdloan [id]. *)
Lemma pay_out_solvent (s s' : St) id c c' a n cs :
  inv s -> Crowdloans s !! id = Some c -> finalized c = false ->
  transfer (world s) (funds_account_ c) a n = Ok (world s') -> 0 <= n ->
  Crowdloans s' = <[id := c']> (Crowdloans s) ->
  raised c' = raised c - n -> loan_ok cfg cs c' -> solvent s'.
Proof.
  intros [Hwf Hs] Hc Hfin Ht Hn Hs' Hr Hok. destruct (wf_id _ _ _ Hwf Hc) as [Hid Hf].
  rewrite Hf in Ht. apply (solvent_update _ _ id _ Hwf Hs Hid Hs').
  - intros j _ Hne. by eapply transfer_others.
  - intros _. rewrite Hr. pose proof (loan_ok_raised _ _ Hok). eapply transfer_payer; eauto; lia.
Qed.

Lemma withdraw_solvent origin id (s s' : St) u :
  inv s -> withdraw origin id s = Ok (u, s') -> solvent s'.
Proof.
  intros [Hwf Hs] H. unfold withdraw in H. monad_inv H; bools;
    match goal with H : (0 <? default 0 ?g) = true |- _ =>
      destruct g as [amt|] eqn:Hamt; [|discriminate] end; cbn in *;
    destruct (wf_loan _ _ Hwf _ _ Hc) as (_ & _ & Hok); specialize (Hok Hg);
    pose proof (map_sum_lookup_le _ _ _ (loan_ok_nonneg _ _ Hok) Hamt) as Hle;
    rewrite <- (lo_raised _ _ _ Hok) in Hle.
  - eapply (pay_out_solvent s _ id a); [done | done | done | exact Ht | lia | reflexivity | |
      by eapply loan_ok_creator_withdraw].
    cbn. pose proof (lo_deposit _ _ _ Hok). apply sat_sub_le. unfold sat_sub. lia.
  - eapply (pay_out_solvent s _ id a); [done | done | done | exact Ht | lia | reflexivity | |
      by eapply loan_ok_remove].
    cbn. by apply sat_sub_le.
Qed.

Lemma foldl_sat_sub_le r l : (forall n, n ∈ l -> 0 <= n) -> 0 <= r -> 0 <= foldl sat_sub r l <= r.
Proof.
  revert r. induction l as [|n l IH]; intros r Hl Hr; cbn; [lia|].
  assert (0 <= n) by (apply Hl; set_solver).
  destruct (IH (sat_sub r n)); [set_solver | unfold sat_sub; lia | unfold sat_sub in *; lia].
Qed.

Lemma refund_loop_balance funds l acc cnt r (s s' : St) acc' cnt' r' all :
  refund_loop cfg funds l acc cnt r s = Ok (acc', cnt', r', all, s') ->
  (forall p, p ∈ l -> 0 <= p.2) -> existential_deposit <= r' -> 0 <= r <= balance (world s) funds ->
  r' <= balance (world s') funds /\
  forall b, b <> funds -> balance (world s) b <= balance (world s') b.
Proof.
  revert acc cnt r s. induction l as [|[a n] l IH]; intros acc cnt r s H Hpos Hk Hr; cbn in H.
  - monad_inv H. split; [lia|intros; lia].
  - destruct (Z.leb_spec (RefundContributorsLimit cfg) cnt); monad_inv H; [split; [lia|intros; lia]|].
    assert (0 <= n) as Hn by (apply (Hpos (a, n)); set_solver).
    assert (r' <= sat_sub r n) as Hle.
    { destruct (refund_loop_ok _ _ _ _ _ _ _ _ _ _ _ H) as (p & q & w' & Hl & _ & _ & -> & _).
      apply foldl_sat_sub_le; [|unfold sat_sub; lia]. intros m Hm.
      apply list_elem_of_fmap in Hm as (x & -> & Hx). apply Hpos. set_solver. }
    apply IH in H as [H1 H2]; [|set_solver|done|].
    + split; [done|]. intros b Hb. transitivity (balance w b); [|by apply H2].
      by eapply transfer_others.
    + split; [unfold sat_sub; lia|]. unfold sat_sub in *. destruct (Z.le_gt_cases n r).
      * pose proof (transfer_payer _ _ _ _ _ r Ht Hn). cbn. lia.
      * pose proof (balance_nonneg w funds). cbn. lia.
Qed.

Lemma refund_solvent origin id (s s' : St) u :
  inv s -> refund cfg origin id s = Ok (u, s') -> solvent s'.
Proof.
  intros [Hwf Hs] (c & paid & rest & w' & Hc & Hfin & Hl & _ & (all & Hloop) & Hw & Hn & Hs' & Hcs)%refund_ok.
  destruct (wf_loan _ _ Hwf _ _ Hc) as (_ & _ & Hok). specialize (Hok Hfin).
  destruct (wf_id _ _ _ Hwf Hc) as [Hid Hf].
  destruct (refund_candidates _ _ _ _ Hl) as [Hnd Hin].
  pose proof (loan_ok_nonneg _ _ Hok) as Hnn.
  pose proof (loan_ok_raised _ _ (loan_ok_remove_list _ _ _ Hok Hnd Hin)) as Hk. cbn in Hk.
  pose proof (loan_ok_raised _ _ Hok).
  apply refund_loop_balance in Hloop as [H1 H2]; [| |done|].
  - rewrite Hf in *. apply (solvent_update _ _ id _ Hwf Hs Hid Hs'); rewrite Hw; auto.
  - intros p Hp. destruct p as [b n]. rewrite <- Hl in Hp.
    apply list_elem_of_filter in Hp as [_ Hp].
    rewrite iter_prefix_perm, elem_of_map_to_list in Hp. by apply (Hnn b).
  - rewrite Hf. split; [lia|]. by apply (Hs id).
Qed.

Lemma dissolve_solvent origin id (s s' : St) u :
  inv s -> dissolve origin id s = Ok (u, s') -> solvent s'.
Proof.
  intros [Hwf Hs] H. unfold dissolve in H. monad_inv H; bools;
    destruct (wf_loan _ _ Hwf _ _ Hc) as (_ & _ & Hok); specialize (Hok Hg);
    destruct (wf_id _ _ _ Hwf Hc) as [Hid Hf]; rewrite Hf in Ht;
    pose proof (loan_ok_nonneg _ _ Hok _ _ Ho) as Hn;
    intros j d _ Hd Hfin; cbn in Hd |- *; apply lookup_delete_Some in Hd as [Hne Hd];
    rewrite dec_providers_balance, ?preimage_drop_balance;
    destruct (wf_id _ _ _ Hwf Hd) as [Hjd _];
    (transitivity (balance (world s) (funds_account cfg j)); [by apply (Hs j)|]);
    apply (transfer_others _ _ _ _ _ _ Ht Hn); intros ?; by apply Hne, Hinj.
Qed.

Lemma solvent_irrelevant x (s s' : St) :
  solvent_but x s -> Crowdloans s' = Crowdloans s -> world s' = world s -> solvent_but x s'.
Proof. intros Hs H1 H2 id c. rewrite H1, H2. apply Hs. Qed.

Section DispatchSolvent.
Context (dispatch : Call -> AccountId -> St -> result DispatchError St).
Context (Hdisp : forall x, dispatch_keeps dispatch (fun s => wf cfg s /\ solvent_but x s)).

Lemma finalize_inv origin id (s s' : St) u :
  inv s -> finalize dispatch origin id s = Ok (u, s') -> inv s'.
Proof.
  intros [Hwf Hs] (c & s1 & Hc & Hfin & _ & _ & _ & (s0 & H0 & H1) & ->)%finalize_ok.
  destruct (wf_loan _ _ Hwf _ _ Hc) as (Hid & Hf & Hok). specialize (Hok Hfin).
  pose proof (loan_ok_raised _ _ Hok).
  assert (wf cfg s0 /\ solvent_but (Some id) s0 /\ NextCrowdloanId s0 = NextCrowdloanId s) as (Hwf0 & Hs0 & Hn0).
  { destruct (target_address c) as [t|]; [destruct H0 as (w & Ht & ->)|subst s0].
    - split; [eapply wf_irrelevant; [exact Hwf|done..]|]. split; [|done].
      intros j d Hne Hd Hfd. cbn in *. destruct (wf_id _ _ _ Hwf Hd) as [Hj _].
      transitivity (balance (world s) (funds_account cfg j)); [by apply (Hs j)|].
      rewrite Hf in Ht. apply (transfer_others _ _ _ _ _ _ Ht); [lia|].
      intros Heq. apply Hinj in Heq; [congruence|done|]. by destruct (wf_id _ _ _ Hwf Hc).
    - split; [done|]. split; [|done]. intros j d _ ??. by apply (Hs j). }
  assert (wf cfg s1 /\ solvent_but (Some id) s1 /\ NextCrowdloanId s0 <= NextCrowdloanId s1) as (Hwf1 & Hs1 & Hn1).
  { destruct (call c) as [bc|]; [|subst s1; split; [done|split; [done|lia]]].
    destruct H1 as (k & s2 & _ & Hk & ->). destruct (Hdisp (Some id) _ _ _ _ Hk) as [[Hwf2 Hs2] ?].
    { split; [eapply wf_irrelevant; [exact Hwf0|done..]|eapply solvent_irrelevant; [exact Hs0|done..]]. }
    split; [eapply wf_irrelevant; [exact Hwf2|done..]|]. split; [|assumption].
    eapply solvent_irrelevant; [exact Hs2|done..]. }
  split.
  - eapply wf_irrelevant; [apply (wf_finalized s1 id (c <| finalized := true |>)) | done..];
      cbn; solve [done | lia].
  - intros j d _. cbn. rewrite lookup_insert. destruct (decide (id = j)); [intros; simplify_eq|].
    apply Hs1. congruence.
Qed.
(** *** Reachable states *)

(** One extrinsic of the pallet, or anything else the runtime does: other
    modules do not touch the pallet's storage and cannot take money out of an
    account nobody holds the key of. *)
Inductive step : St -> St -> Prop :=
  | step_create o d m k e c t s s' :
      create cfg o d m k e c t s = Ok (tt, s') -> step s s'
  | step_contribute o id n s s' : contribute cfg o id n s = Ok (tt, s') -> step s s'
  | step_withdraw o id s s' : withdraw o id s = Ok (tt, s') -> step s s'
  | step_finalize o id s s' : finalize dispatch o id s = Ok (tt, s') -> step s s'
  | step_refund o id s s' : refund cfg o id s = Ok (tt, s') -> step s s'
  | step_dissolve o id s s' : dissolve o id s = Ok (tt, s') -> step s s'
  | step_update_min o id n s s' : update_min_contribution cfg o id n s = Ok (tt, s') -> step s s'
  | step_update_end o id n s s' : update_end cfg o id n s = Ok (tt, s') -> step s s'
  | step_update_cap o id n s s' : update_cap o id n s = Ok (tt, s') -> step s s'
  | step_env w s :
      (forall id, in_u U32_MAX id ->
         balance (world s) (funds_account cfg id) <= balance w (funds_account cfg id)) ->
      step s (s <| world := w |>).

Definition genesis (w : W) : St := mkState _ _ _ ∅ 0 ∅ None w [].

Definition reachable (s : St) : Prop := exists w, rtc step (genesis w) s.

Lemma genesis_inv w : inv (genesis w).
Proof.
  split; [split|].
  - intros id c. cbn. by rewrite lookup_empty.
  - intros id _. unfold contributions_of. cbn. by rewrite lookup_empty.
  - unfold in_u. cbn. lia.
  - intros id c _. cbn. by rewrite lookup_empty.
Qed.

(** A field update leaves the amount raised and the balances alone. *)
Lemma solvent_field (s s' : St) id c c' :
  inv s -> Crowdloans s !! id = Some c -> Crowdloans s' = <[id := c']> (Crowdloans s) ->
  world s' = world s -> raised c' = raised c -> finalized c' = finalized c -> solvent s'.
Proof.
  intros [_ Hs] Hc Hs' Hw Hr Hf j d _. rewrite Hs', Hw, lookup_insert.
  destruct (decide (id = j)) as [->|]; [intros [= <-]; rewrite Hr, Hf; by apply Hs|].
  by apply Hs.
Qed.

Lemma step_inv s s' : step s s' -> inv s -> inv s'.
Proof.
  intros Hstep Hi. destruct Hstep as
    [o d m k e c t s s' H|o id n s s' H|o id s s' H|o id s s' H|o id s s' H|o id s s' H
    |o id n s s' H|o id n s s' H|o id n s s' H|w s H].
  - split; [eapply create_wf|eapply create_solvent]; try exact H; try apply Hi; done.
  - split; [eapply contribute_wf|eapply contribute_solvent]; try exact H; try apply Hi; done.
  - split; [eapply withdraw_wf|eapply withdraw_solvent]; try exact H; try apply Hi; done.
  - by eapply finalize_inv.
  - split; [eapply refund_wf|eapply refund_solvent]; try exact H; try apply Hi; done.
  - split; [eapply dissolve_wf|eapply dissolve_solvent]; try exact H; try apply Hi; done.
  - split; [eapply update_min_contribution_wf; [apply Hi|exact H]|].
    unfold update_min_contribution in H. monad_inv H. by eapply solvent_field.
  - split; [eapply update_end_wf; [apply Hi|exact H]|].
    unfold update_end in H. monad_inv H. by eapply solvent_field.
  - split; [eapply update_cap_wf; [apply Hi|exact H]|].
    unfold update_cap in H. monad_inv H. by eapply solvent_field.
  - destruct Hi as [Hwf Hs]. split; [eapply wf_irrelevant; [exact Hwf|done..]|].
    intros id c _ Hc Hf. cbn in *. transitivity (balance (world s) (funds_account cfg id)).
    + by apply (Hs id).
    + apply H. by destruct (wf_id _ _ _ Hwf Hc).
Qed.

Lemma reachable_inv s : reachable s -> inv s.
Proof.
  intros (w & Hr). pose proof (genesis_inv w) as Hg. revert Hg.
  induction Hr as [x|x y z Hstep _ IH]; [done|]. intros Hx. eauto using step_inv.
Qed.

(** C1: in every reachable state of the crowdloan pallet the books balance:
    for each crowdloan that is not finalized the amount raised is the sum of
    the recorded contributions and at most the cap, the contributor count is
    their number, the creator's deposit is still there, and the crowdloan's
    funds account holds at least the amount raised. *)
Theorem crowdloan_books_balance (s : St) :
  reachable s ->
  wf cfg s /\
  forall id c, Crowdloans s !! id = Some c -> finalized c = false ->
    raised c <= balance (world s) (funds_account cfg id).
Proof.
  intros [Hwf Hs]%reachable_inv. split; [done|]. intros id c. by apply (Hs id).
Qed.

End DispatchSolvent.

(** ** Winding up a failed crowdloan *)

Section WindUp.
(** Every account can be paid out of an account that has the money. *)
Context (Hpay : forall (w : W) a b n, 0 <= n <= balance w a -> exists w', transfer w a b n = Ok w').
Context (Hlimit : 0 < RefundContributorsLimit cfg <= U32_MAX).

Lemma list_sum_nonneg l : (forall p, p ∈ l -> 0 <= p.2) -> 0 <= list_sum l.
Proof.
  induction l as [|p l IH]; intros Hp; cbn; [lia|].
  assert (0 <= p.2) by (apply Hp; set_solver).
  enough (0 <= list_sum l) by lia. apply IH. intros q Hq. apply Hp. set_solver.
Qed.

Lemma list_sum_le l cs k v :
  (forall a n, cs !! a = Some n -> 0 <= n) -> NoDup l.*1 -> cs !! k = Some v ->
  (forall a n, (a, n) ∈ l -> cs !! a = Some n /\ a <> k) -> v + list_sum l <= map_sum cs.
Proof.
  revert cs. induction l as [|[a n] l IH]; intros cs Hnn Hnd Hk Hin; cbn.
  - rewrite Z.add_0_r. by eapply map_sum_lookup_le.
  - apply NoDup_cons in Hnd as [Ha Hnd]. destruct (Hin a n) as [Hcs Hne]; [set_solver|].
    enough (v + list_sum l <= map_sum (delete a cs)) as G
      by (rewrite (map_sum_delete _ _ n Hcs) in G; lia).
    apply IH; [|done|by rewrite lookup_delete_ne|].
    + intros b m [_ Hb]%lookup_delete_Some. eauto.
    + intros b m Hb. destruct (Hin b m) as [Hb' Hne']; [set_solver|].
      split; [|done]. rewrite lookup_delete_ne; [done|]. intros <-.
      apply Ha, list_elem_of_fmap. by exists (a, m).
Qed.

Lemma refund_loop_succeeds funds l acc cnt r (s : St) :
  (forall p, p ∈ l -> 0 <= p.2) -> existential_deposit + list_sum l <= balance (world s) funds ->
  exists res s', refund_loop cfg funds l acc cnt r s = Ok (res, s').
Proof.
  revert acc cnt r s. induction l as [|[a n] l IH]; intros acc cnt r s Hpos Hbal; cbn.
  - by eexists _, _.
  - destruct (Z.leb_spec (RefundContributorsLimit cfg) cnt) as [|Hcnt]; [by eexists _, _|].
    assert (0 <= n) as Hn by (apply (Hpos (a, n)); set_solver).
    assert (0 <= list_sum l) as Hl by (apply list_sum_nonneg; set_solver).
    cbn in Hbal. destruct (Hpay (world s) funds a n) as [w' Ht]; [lia|].
    destruct (IH (acc ++ [a]) (cnt + 1) (sat_sub r n) (s <| world := w' |>)) as (res & s' & Hs').
    + set_solver.
    + cbn. replace (existential_deposit + list_sum l)
        with (n + (existential_deposit + list_sum l) - n) by lia.
      apply (transfer_payer _ _ _ _ _ _ Ht); lia.
    + exists res, s'.
      unfold bind, currency_transfer, bind, gets, ext, modify, lift, ok_or. rewrite Ht.
      unfold checked_add. destruct (Z.leb_spec (cnt + 1) U32_MAX); [done|lia].
Qed.

Lemma refund_loop_block funds l acc cnt r (s s' : St) res :
  refund_loop cfg funds l acc cnt r s = Ok (res, s') ->
  block_number (world s') = block_number (world s).
Proof.
  revert acc cnt r s. induction l as [|[a n] l IH]; intros acc cnt r s H; cbn in H; monad_inv H;
    [done | done |]. apply IH in H. cbn in H. rewrite H. by eapply transfer_block_number.
Qed.

(** Removing accounts that contributed, one entry each. *)
Lemma size_remove_list l (cs : gmap AccountId Z) :
  NoDup l -> (forall a, a ∈ l -> is_Some (cs !! a)) ->
  (size (foldl (fun m a => delete a m) cs l) + length l = size cs)%nat.
Proof.
  revert cs. induction l as [|a l IH]; intros cs Hnd Hin; cbn; [lia|].
  apply NoDup_cons in Hnd as [Ha Hnd]. destruct (Hin a) as [v Hv]; [set_solver|].
  assert (size cs <> 0%nat).
  { apply map_size_non_empty_iff. intros ->. by rewrite lookup_empty in Hv. }
  specialize (IH (delete a cs) Hnd). rewrite map_size_delete_Some in IH by eauto.
  enough (forall b, b ∈ l -> is_Some (delete a cs !! b)) as Hd by (specialize (IH Hd); lia).
  intros b Hb. rewrite lookup_delete_ne; [apply Hin; set_solver|by intros ->].
Qed.

Lemma for_each_remove_succeeds id l (s : St) :
  exists s', for_each l (remove_contribution id) s = Ok (tt, s').
Proof.
  revert s. induction l as [|a l IH]; intros s; [by eexists|].
  destruct (IH (s <| Contributions := <[id := delete a (contributions_of s id)]> (Contributions s) |>)) as [s' Hs'].
  exists s'. exact Hs'.
Qed.

(** The number of contributors [refund] still has to pay back. *)
Definition outstanding (s : St) (id : Z) (c : CrowdloanInfo BoundedCall) : nat :=
  length (filter (fun p => p.1 <> creator c) (iter_prefix (contributions_of s id))).

Lemma outstanding_size (s : St) id (c : CrowdloanInfo BoundedCall) :
  is_Some (contributions_of s id !! creator c) ->
  outstanding s id c = (size (contributions_of s id) - 1)%nat.
Proof.
  intros [v Hv]. unfold outstanding. set (cs := contributions_of s id) in *.
  assert (iter_prefix cs ≡ₚ (creator c, v) :: map_to_list (delete (creator c) cs)) as Hp.
  { rewrite iter_prefix_perm, <- (insert_delete_id cs (creator c) v Hv) at 1.
    rewrite map_to_list_insert by apply lookup_delete_eq. done. }
  rewrite Hp, filter_cons_False by (cbn; naive_solver).
  rewrite filter_all; [rewrite length_map_to_list, map_size_delete_Some by eauto; lia|].
  intros [a n] Hi%elem_of_map_to_list. cbn.
  apply lookup_delete_Some in Hi as [? _]. naive_solver.
Qed.

(** A refund of a crowdloan that ended without being finalized goes through and
    pays back as many contributors as the limit allows. *)
Lemma refund_progress o a id c (s : St) :
  inv s -> ensure_signed o = Ok a -> Crowdloans s !! id = Some c -> finalized c = false ->
  end_ c <= block_number (world s) ->
  exists c' s', refund cfg o id s = Ok (tt, s') /\ Crowdloans s' !! id = Some c' /\
    finalized c' = false /\ end_ c' = end_ c /\ creator c' = creator c /\
    block_number (world s') = block_number (world s) /\
    (outstanding s' id c' <= outstanding s id c - 1)%nat /\ inv s'.
Proof.
  intros [Hwf Hs] Ho Hc Hfin Hend.
  destruct (wf_loan _ _ Hwf _ _ Hc) as (_ & Hf & Hok). specialize (Hok Hfin).
  pose proof (loan_ok_nonneg _ _ Hok) as Hnn.
  destruct (lo_creator _ _ _ Hok) as (v & Hv & Hdv). pose proof (lo_deposit _ _ _ Hok).
  set (l := filter (fun p => p.1 <> creator c) (iter_prefix (contributions_of s id))).
  destruct (refund_candidates (contributions_of s id) (fun p => p.1 <> creator c) l []) as [Hnd Hin];
    [by rewrite app_nil_r|].
  destruct (refund_loop_succeeds (funds_account_ c) l [] 0 (raised c) s) as (res & s1 & Hloop).
  { intros [b n] Hb. destruct (Hin b n Hb). by apply (Hnn b). }
  { rewrite Hf. transitivity (raised c); [|by apply (Hs id)].
    rewrite (lo_raised _ _ _ Hok). pose proof (list_sum_le l _ _ v Hnn Hnd Hv Hin). lia. }
  assert (exists s', refund cfg o id s = Ok (tt, s')) as [s' Hr].
  { destruct res as [[[ref cnt] r'] all].
    pose proof (refund_loop_ok _ _ _ _ _ _ _ _ _ _ _ Hloop)
      as (paid & rest & w' & Hl & -> & -> & -> & -> & _ & _).
    rewrite Hl in Hnd, Hin. rewrite fmap_app in Hnd. apply NoDup_app in Hnd as (Hnd & _ & _).
    pose proof (size_remove_list paid.*1 (contributions_of s id) Hnd) as Hsz.
    rewrite length_fmap in Hsz.
    unfold refund, ensure_crowdloan_exists, bind, gets, ext, lift, ok_or, ensure, put_crowdloan,
      modify, deposit_event, checked_sub.
    rewrite Ho, Hc, (proj2 (Z.leb_le _ _) Hend), Hfin. cbn. fold l. rewrite Hloop. cbn.
    rewrite (proj2 (Z.leb_le _ _)); cbn.
    - match goal with |- context [for_each ?x ?y ?z] =>
        destruct (for_each_remove_succeeds id x z) as [s2 Hs2] end.
      rewrite Hs2. destruct all; by eexists.
    - rewrite (lo_count _ _ _ Hok). enough (length paid <= size (contributions_of s id))%nat by lia.
      rewrite <- Hsz; [lia|]. intros b ([b' n] & -> & Hb)%list_elem_of_fmap.
      destruct (Hin b' n) as [Hb' _]; [set_solver|]. by exists n. }
  pose proof (refund_wf _ _ _ _ _ Hwf Hr) as Hwf'.
  pose proof (refund_solvent _ _ _ _ _ (conj Hwf Hs) Hr) as Hs'.
  apply refund_ok in Hr as Hr'. destruct Hr'
    as (c0 & paid & rest & w' & Hc0 & _ & Hl & Hlim & (all & Hloop') & Hw & _ & Hcl & Hcs).
  simplify_eq. assert (Crowdloans s' !! id = Some (c <| raised := foldl sat_sub (raised c) paid.*2 |>
    <| contributors_count := contributors_count c - Z.of_nat (length paid) |>)) as Hc'
    by (rewrite Hcl; apply lookup_insert_eq).
  eexists _, s'. split; [exact Hr|]. split; [exact Hc'|]. cbn.
  split_and!; try done; [exact (refund_loop_block _ _ _ _ _ _ _ _ Hloop')|].
  destruct (wf_loan _ _ Hwf' _ _ Hc') as (_ & _ & Hok'). specialize (Hok' Hfin).
  destruct (lo_creator _ _ _ Hok') as (v' & Hv' & _). cbn in Hv'.
  rewrite (outstanding_size s' id) by (cbn; eauto).
  pose proof (outstanding_size s id c ltac:(eauto)) as Hout. unfold outstanding in Hout |- *.
  fold l in Hout, Hl |- *. rewrite Hl in Hout |- *. rewrite length_app in *.
  destruct (refund_candidates _ _ _ _ Hl) as [Hnd' Hin'].
  pose proof (size_remove_list paid.*1 (contributions_of s id) Hnd') as Hsz.
  rewrite length_fmap in Hsz. rewrite (Hcs id), decide_True by done.
  rewrite <- Hsz in Hout; [destruct Hlim as [->|]; cbn in *; lia|].
  intros b ([b' n] & -> & Hb)%list_elem_of_fmap. destruct (Hin' b' n Hb) as [Hb' _]. by exists n.
Qed.

(** A crowdloan with only the creator's contribution left can be dissolved. *)
Lemma dissolve_succeeds o id c (s : St) :
  inv s -> ensure_signed o = Ok (creator c) -> Crowdloans s !! id = Some c ->
  finalized c = false -> outstanding s id c = 0%nat ->
  exists s', dissolve o id s = Ok (tt, s') /\ Crowdloans s' !! id = None.
Proof.
  intros [Hwf Hs] Ho Hc Hfin Hout.
  destruct (wf_loan _ _ Hwf _ _ Hc) as (_ & Hf & Hok). specialize (Hok Hfin).
  destruct (lo_creator _ _ _ Hok) as (v & Hv & Hdv). pose proof (lo_deposit _ _ _ Hok).
  assert (v = raised c) as ->.
  { rewrite outstanding_size in Hout by eauto. rewrite (lo_raised _ _ _ Hok).
    enough (delete (creator c) (contributions_of s id) = ∅) as He.
    { pose proof (map_sum_delete _ _ _ Hv) as Hd. rewrite He, map_sum_empty in Hd. lia. }
    apply map_size_empty_iff. rewrite map_size_delete_Some by eauto. lia. }
  destruct (Hpay (world s) (funds_account_ c) (creator c) (raised c)) as [w' Ht].
  { rewrite Hf. split; [pose proof (loan_ok_raised _ _ Hok); lia | by apply (Hs id)]. }
  unfold dissolve, ensure_crowdloan_exists, currency_transfer, remove_contribution, get_contribution,
    bind, gets, ext, lift, ok_or, ensure, modify, deposit_event, ret.
  rewrite Ho, Hc, Hfin, bool_decide_eq_true_2 by done. cbn. rewrite Hv, Z.eqb_refl, Ht. cbn.
  destruct (call c); (eexists; split; [reflexivity|]); cbn; apply lookup_delete_eq.
Qed.

Fixpoint refunds (n : nat) (o : Origin) (id : Z) : M St (error Error) unit :=
  match n with
  | O => ret tt
  | S n => refund cfg o id ;; refunds n o id
  end.

End WindUp.
End CrowdloanInvariant.
