(* ===== verification/CrowdloanExamples.v ===== *)
(** * The crowdloan pallet on a concrete runtime *)

From S2P Require Import Prelude Frame TestRuntime Crowdloan.
From stdpp Require Import prelude gmap list fin_maps.
From Stdlib Require Import ZArith Lia.
#[local] Open Scope Z_scope.
#[local] Open Scope monad_scope.

(** Calls are the [withdraw] calls of the pallet itself, stored as they are. *)
#[export] Instance TestEnv : CrowdloanEnv (FS:=TestFrame) TestWorld Z Z := {|
  block_number := tw_now;
  inc_providers w _ := w;
  dec_providers w _ := w;
  preimage_bound w c := Ok (c, w);
  preimage_peek w c := Some c;
  preimage_drop w _ := w;
|}.

#[export] Instance TestEnvLaws : CrowdloanEnvLaws (FS:=TestFrame) TestWorld Z Z.
Proof.
  split; cbn; try done.
  - by intros w c bc w' b [= <- <-].
  - by intros w a b n w' (_ & ? & _)%tw_transfer_ok.
Qed.

Definition test_cfg : CrowdloanConfig (FS:=TestFrame) := {|
  MinimumDeposit := 10; AbsoluteMinimumContribution := 5; MinimumBlockDuration := 5;
  MaximumBlockDuration := 100; RefundContributorsLimit := 1; MaxContributors := 10;
  sub_account id := (1000 + Z.to_nat id)%nat;
|}.

Definition test_dispatch (c : Z) (who : nat) (s : State TestWorld Z)
    : result bool (State TestWorld Z) :=
  match withdraw (signed who) c s with Ok (_, s') => Ok s' | Err _ => Err true end.

Definition no_dispatch (c : Z) (who : nat) (s : State TestWorld Z)
    : result bool (State TestWorld Z) := Err true.

Definition w0 : TestWorld :=
  mkTestWorld (<[1%nat := 1000%N]> (<[2%nat := 1000%N]> (<[3%nat := 1000%N]> ∅))) 1.

Definition s_created : State TestWorld Z :=
  exec (create test_cfg (signed 1) 50 10 100 20 None None) (genesis w0).
Definition s_funded : State TestWorld Z :=
  exec (contribute test_cfg (signed 2) 0 20 ;;
        contribute test_cfg (signed 3) 0 20) s_created.
Definition s_ended : State TestWorld Z :=
  s_funded <| world := mkTestWorld (tw_balances (world s_funded)) 30 |>.

Lemma test_inj i j : in_u U32_MAX i -> in_u U32_MAX j ->
  sub_account test_cfg i = sub_account test_cfg j -> i = j.
Proof. unfold in_u. cbn. lia. Qed.

Lemma test_key (o : Origin (FrameSystem:=TestFrame)) a : ensure_signed o = Ok a ->
  forall id, in_u U32_MAX id -> a <> sub_account test_cfg id.
Proof.
  intros H id _. apply test_signed in H as [_ H]. change (a <> (1000 + Z.to_nat id)%nat). lia.
Qed.

Lemma no_dispatch_keeps x :
  dispatch_keeps no_dispatch (fun s => wf test_cfg s /\ solvent_but test_cfg x s).
Proof. intros c who s s' H. discriminate H. Qed.

Lemma s_ended_reachable : reachable test_cfg no_dispatch s_ended.
Proof.
  exists w0. eapply rtc_l; [eapply (step_create _ _ (signed 1) 50 10 100 20 None None);
    vm_compute; reflexivity|].
  eapply rtc_l; [eapply (step_contribute _ _ (signed 2) 0 20); vm_compute; reflexivity|].
  eapply rtc_l; [eapply (step_contribute _ _ (signed 3) 0 20); vm_compute; reflexivity|].
  eapply rtc_l; [|apply rtc_refl]. apply (step_env _ _ _ s_funded). intros id _. reflexivity.
Qed.

Lemma crowdloan_books_balance_witness :
  reachable test_cfg no_dispatch s_ended /\
  wf test_cfg s_ended /\
  forall id c, Crowdloans s_ended !! id = Some c -> finalized c = false ->
    raised c <= balance (world s_ended) (funds_account test_cfg id).
Proof.
  split; [exact s_ended_reachable|].
  apply (crowdloan_books_balance test_cfg eq_refl ltac:(discriminate) test_inj test_key
           ltac:(cbn; lia) no_dispatch no_dispatch_keeps).
  exact s_ended_reachable.
Defined.

Lemma s_ended_inv : inv test_cfg s_ended.
Proof.
  apply (reachable_inv test_cfg eq_refl ltac:(discriminate) test_inj test_key
           ltac:(cbn; lia) no_dispatch no_dispatch_keeps), s_ended_reachable.
Qed.

Definition loan_ended : CrowdloanInfo Z :=
  {| creator := 1%nat : AccountId; deposit := 50; min_contribution := 10; end_ := 20; cap := 100;
     funds_account_ := 1000%nat : AccountId; raised := 90; target_address := None; call := None;
     finalized := false; contributors_count := 3 |}.


(** ** A call that re-enters the pallet *)

(** The creator contributes the whole cap and stores a [withdraw] of the
    crowdloan as the call to dispatch. *)
Definition s_reentrant : State TestWorld Z :=
  let s := exec (create test_cfg (signed 1) 50 10 100 20 (Some 0) None ;;
                 contribute test_cfg (signed 1) 0 50) (genesis w0) in
  s <| world := mkTestWorld (tw_balances (world s)) 30 |>.

Lemma s_reentrant_reachable : reachable test_cfg no_dispatch s_reentrant.
Proof.
  exists w0. eapply rtc_l; [eapply (step_create _ _ (signed 1) 50 10 100 20 (Some 0) None); vm_compute; reflexivity|].
  eapply rtc_l; [eapply (step_contribute _ _ (signed 1) 0 50); vm_compute; reflexivity|].
  eapply rtc_l; [|apply rtc_refl]. eapply step_env. intros id _. reflexivity.
Qed.

Lemma s_reentrant_wf : wf test_cfg s_reentrant.
Proof.
  apply (reachable_inv test_cfg eq_refl ltac:(discriminate) test_inj test_key
           ltac:(cbn; lia) no_dispatch no_dispatch_keeps), s_reentrant_reachable.
Qed.

Lemma test_dispatch_withdraws who x x' : test_dispatch 0 who x = Ok x' ->
  exists o : Origin (FrameSystem:=TestFrame), ensure_signed o = Ok (who : AccountId) /\ withdraw o 0 x = Ok (tt, x').
Proof.
  unfold test_dispatch. case_match eqn:E; [|discriminate]. intros H. destruct a as [[] y]. injection H as <-. exists (signed who). split; [|exact E].
  unfold withdraw in E. apply bind_ok in E as (a & x1 & [(b & Hb & [= -> ->])%ext_ok _]).
  pose proof Hb as [[= <-] _]%test_signed. exact Hb.
Qed.

