(* ===== verification/Collective.v ===== *)
(** * The collective pallet (src/pallets/collective/src/lib.rs)

    The triumvirate proposes motions, the senate votes on them, and a motion
    that has enough votes is dispatched with the authority of the collective.
    The file has every call of the pallet, the membership hooks and the origin
    checks. Weights are not modelled; a call that may be free of charge returns
    whether the caller pays. *)

From S2P Require Import Prelude Frame.
From stdpp Require Import prelude gmap list fin_maps.
From Stdlib Require Import ZArith Lia.
#[local] Open Scope Z_scope.
#[local] Open Scope monad_scope.

(** The proposals ([T::Proposal]), their hashes, the block number, the traits
    of the configuration and the sorted lists of FRAME. *)
Class CollectiveEnv {FS : FrameSystem} (W : Type) := {
  Proposal : Type;
  Hash : Type;
  hash_eq_dec :: EqDecision Hash;
  hash_countable :: Countable Hash;
  Weight : Type;
  hash_of : Proposal -> Hash;
  encoded_size : Proposal -> Z;
  call_weight : Proposal -> Weight;
  all_lte : Weight -> Weight -> bool;
  block_number : W -> Z;
  can_propose : W -> AccountId -> bool;
  can_vote : W -> AccountId -> bool;
  get_count : W -> Z;
  ensure_set_members : Origin -> result DispatchError unit;
  sort_accounts : list AccountId -> list AccountId;
  (** incoming and outgoing members of a sorted list that replaces another *)
  compute_members_diff_sorted : list AccountId -> list AccountId -> list AccountId * list AccountId;
}.

(** The constants and the default vote of [Config]; [MaxMembers] is only logged. *)
Class CollectiveConfig := {
  MotionDuration : Z;
  MaxProposals : Z;
  default_vote : option bool -> Z -> Z -> Z -> bool;
}.

(** The two strategies the pallet offers. *)
Definition prime_default_vote (prime_vote : option bool) (yes_votes no_votes len : Z) : bool := default false prime_vote.
Definition more_than_majority_then_prime_default_vote (prime_vote : option bool) (yes_votes no_votes len : Z) : bool :=
  let more_than_majority := len <? sat_mul U32_MAX yes_votes 2 in
  more_than_majority || default false prime_vote.

Inductive RawOrigin {FS : FrameSystem} : Type :=
  | Members (n m : Z)
  | Member (who : AccountId).

Record Votes {FS : FrameSystem} := mkVotes {
  index : Z;
  threshold : Z;
  ayes : list AccountId;
  nays : list AccountId;
  end_ : Z;
}.
#[export] Instance Votes_eta {FS : FrameSystem} : Eta Votes :=
  fun x => mkVotes FS (index x) (threshold x) (ayes x) (nays x) (end_ x).

Inductive Event {FS : FrameSystem} {Hash : Type} : Type :=
  | Proposed (account : AccountId) (proposal_index : Z) (proposal_hash : Hash) (threshold : Z)
  | Voted (account : AccountId) (proposal_hash : Hash) (voted : bool) (yes no : Z)
  | Approved (proposal_hash : Hash)
  | Disapproved (proposal_hash : Hash)
  | Executed (proposal_hash : Hash) (result : result DispatchError unit)
  | MemberExecuted (proposal_hash : Hash) (result : result DispatchError unit)
  | Closed (proposal_hash : Hash) (yes no : Z).
Arguments Event {FS} Hash.

Inductive Error : Type :=
  | NotMember | DuplicateProposal | ProposalNotExists | IndexMismatchProposalHash | DuplicateVote
  | TooEarlyToCloseProposal | TooManyActiveProposals | ProposalWeightLessThanDispatchCallWeight
  | ProposalLengthBoundLessThanProposalLength | DurationLowerThanConfiguredMotionDuration.

Record State {FS : FrameSystem} {W Proposal Hash : Type} `{Countable Hash} := mkState {
  Proposals : list Hash;
  ProposalOf : gmap Hash Proposal;
  Voting : gmap Hash Votes;
  ProposalCount : Z;
  Members_ : list AccountId;
  Prime : option AccountId;
  world : W;
  events : list (Event Hash);
}.
Arguments State {FS} W Proposal Hash {_ _}.
#[export] Instance State_eta {FS : FrameSystem} W P H `{Countable H} : Eta (State W P H) :=
  fun x => mkState FS W P H _ _ (Proposals x) (ProposalOf x) (Voting x) (ProposalCount x) (Members_ x) (Prime x)
    (world x) (events x).

(** [Vec::swap_remove]: the last element takes the place of the removed one. *)
Definition swap_remove {A} (pos : nat) (l : list A) : list A :=
  match last l with
  | Some x => take (pred (length l)) (<[pos := x]> l)
  | None => l
  end.

Lemma swap_remove_perm {A} (pos : nat) (l : list A) (y : A) : l !! pos = Some y -> l ≡ₚ y :: swap_remove pos l.
Proof.
  intros Hy. destruct (list_elem_of_split_length _ _ _ Hy) as (l1 & l2 & -> & ->). unfold swap_remove.
  destruct l2 as [|x l2 _] using rev_ind.
  - rewrite last_snoc, insert_app_r_alt, Nat.sub_diag, length_app by done. cbn.
    replace (pred (length l1 + 1)) with (length l1) by lia. rewrite take_app_length. by rewrite Permutation_app_comm.
  - rewrite (app_comm_cons l2 [x] y), app_assoc, last_snoc, length_app. cbn [length].
    rewrite <- app_assoc, insert_app_r_alt, Nat.sub_diag by done. cbn [app insert list_insert].
    replace (pred (length (l1 ++ y :: l2) + 1)) with (length (l1 ++ x :: l2)) by (rewrite !length_app; cbn; lia).
    rewrite (app_comm_cons l2 [x] x), (app_assoc l1 (x :: l2)), take_app_length.
    rewrite <- (Permutation_middle l1 (l2 ++ [x]) y), <- (Permutation_middle l1 l2 x). constructor.
    by rewrite app_assoc, Permutation_app_comm.
Qed.

(** Lengths are far below the maximum of [u32], so that [as MemberCount] does
    not change them. *)
Abbreviation count l := (Z.of_nat (length l)).

Section Collective.
Context {FS : FrameSystem} {W : Type} {Env : CollectiveEnv W} {Cfg : CollectiveConfig}.
Abbreviation St := (State W Proposal Hash).
Abbreviation Cm A := (M St (error Error) A).
Implicit Types (s : St) (who : AccountId) (h proposal_hash : Hash).

(** Dispatching a call with an origin of this pallet: any call of the runtime,
    including those of the pallet itself; the storage of a failed one is rolled
    back. *)
Context (dispatch : Proposal -> RawOrigin -> St -> result DispatchError St).

Definition deposit_event (e : Event Hash) : Cm unit := modify (fun s => s <| events := events s ++ [e] |>).

Definition dispatched (r : result DispatchError St) (s : St) : St := match r with Ok s' => s' | Err _ => s end.
Definition dispatch_result (r : result DispatchError St) : result DispatchError unit :=
  match r with Ok _ => Ok tt | Err e => Err e end.

Definition is_member who (s : St) : bool := bool_decide (who ∈ Members_ s).

(** ** Proposals *)

Definition remove_proposal proposal_hash : Cm unit :=
  modify (fun s => s <| ProposalOf ::= delete proposal_hash |> <| Voting ::= delete proposal_hash |>
                     <| Proposals ::= filter (fun h => h <> proposal_hash) |>).

Definition do_disapprove_proposal proposal_hash : Cm unit :=
  deposit_event (Disapproved proposal_hash) ;;
  remove_proposal proposal_hash.

Definition do_approve_proposal (seats yes_votes : Z) proposal_hash (proposal : Proposal) : Cm unit :=
  deposit_event (Approved proposal_hash) ;;
  let* result := gets (dispatch proposal (Members yes_votes seats)) in
  modify (dispatched result) ;;
  deposit_event (Executed proposal_hash (dispatch_result result)) ;;
  remove_proposal proposal_hash.

(** The length in storage is that of the encoded proposal. *)
Definition validate_and_get_proposal (hash : Hash) (length_bound : Z) (weight_bound : Weight) (s : St)
    : result (error Error) Proposal :=
  match ProposalOf s !! hash with
  | None => Err (Module ProposalNotExists)
  | Some proposal =>
      if negb (encoded_size proposal <=? length_bound) then Err (Module ProposalLengthBoundLessThanProposalLength)
      else if negb (all_lte (call_weight proposal) weight_bound)
      then Err (Module ProposalWeightLessThanDispatchCallWeight)
      else Ok proposal
  end.

Definition do_propose_proposed who (threshold : Z) (proposal : Proposal) (length_bound duration : Z) : Cm unit :=
  let* s := gets id in
  ensure (encoded_size proposal <=? length_bound) (Module ProposalLengthBoundLessThanProposalLength) ;;
  let proposal_hash := hash_of proposal in
  ensure (bool_decide (ProposalOf s !! proposal_hash = None)) (Module DuplicateProposal) ;;
  ensure (count (Proposals s) <? MaxProposals) (Module TooManyActiveProposals) ;;
  modify (fun s => s <| Proposals := Proposals s ++ [proposal_hash] |>) ;;
  let index := ProposalCount s in
  ensure (index + 1 <=? U32_MAX) (Module TooManyActiveProposals) ;;
  modify (fun s => s <| ProposalCount := index + 1 |>) ;;
  modify (fun s => s <| ProposalOf ::= <[proposal_hash := proposal]> |>) ;;
  let votes := mkVotes FS index threshold [] [] (sat_add U32_MAX (block_number (world s)) duration) in
  modify (fun s => s <| Voting ::= <[proposal_hash := votes]> |>) ;;
  deposit_event (Proposed who index proposal_hash threshold).

(** ** Votes *)

Definition position who (l : list AccountId) : option nat := fst <$> list_find (eq who) l.

Definition vote_of (voting : Votes) who (approve : bool) : result (error Error) Votes :=
  let position_yes := position who (ayes voting) in
  let position_no := position who (nays voting) in
  if approve then
    match position_yes with
    | None =>
        let voting := voting <| ayes := ayes voting ++ [who] |> in
        Ok (match position_no with Some pos => voting <| nays ::= swap_remove pos |> | None => voting end)
    | Some _ => Err (Module DuplicateVote)
    end
  else
    match position_no with
    | None =>
        let voting := voting <| nays := nays voting ++ [who] |> in
        Ok (match position_yes with Some pos => voting <| ayes ::= swap_remove pos |> | None => voting end)
    | Some _ => Err (Module DuplicateVote)
    end.

(** The voting of a proposal, for the index it must have. *)
Definition voting_at (proposal : Hash) (i : Z) : Cm Votes :=
  let* s := gets id in
  let* voting := lift (ok_or (Voting s !! proposal) (Module ProposalNotExists)) in
  ensure (index voting =? i) (Module IndexMismatchProposalHash) ;;
  ret voting.

Definition has_voted (proposal : Hash) (i : Z) who : Cm bool :=
  let* voting := voting_at proposal i in
  ret (bool_decide (is_Some (position who (ayes voting))) || bool_decide (is_Some (position who (nays voting)))).

Definition do_vote who (proposal : Hash) (i : Z) (approve : bool) : Cm bool :=
  let* voting := voting_at proposal i in
  let is_account_voting_first_time :=
    bool_decide (position who (ayes voting) = None) && bool_decide (position who (nays voting) = None) in
  let* voting := lift (vote_of voting who approve) in
  deposit_event (Voted who proposal approve (count (ayes voting)) (count (nays voting))) ;;
  modify (fun s => s <| Voting ::= <[proposal := voting]> |>) ;;
  ret is_account_voting_first_time.

(** [true] when the caller pays: an approved motion is charged for its call. *)
Definition do_close proposal_hash (i : Z) (proposal_weight_bound : Weight) (length_bound : Z) : Cm bool :=
  let* voting := voting_at proposal_hash i in
  let* s := gets id in
  let no_votes := count (nays voting) in
  let yes_votes := count (ayes voting) in
  let seats := get_count (world s) in
  let approved := threshold voting <=? yes_votes in
  let disapproved := sat_sub seats no_votes <? threshold voting in
  if approved then
    let* proposal := lift (validate_and_get_proposal proposal_hash length_bound proposal_weight_bound s) in
    deposit_event (Closed proposal_hash yes_votes no_votes) ;;
    do_approve_proposal seats yes_votes proposal_hash proposal ;;
    ret true
  else if disapproved then
    deposit_event (Closed proposal_hash yes_votes no_votes) ;;
    do_disapprove_proposal proposal_hash ;;
    ret false
  else
    ensure (end_ voting <=? block_number (world s)) (Module TooEarlyToCloseProposal) ;;
    let prime_vote := (fun who => bool_decide (who ∈ ayes voting)) <$> Prime s in
    let default := default_vote prime_vote yes_votes no_votes seats in
    let abstentions := sat_sub seats (sat_add U32_MAX yes_votes no_votes) in
    let yes_votes := if default then sat_add U32_MAX yes_votes abstentions else yes_votes in
    let no_votes := if default then no_votes else sat_add U32_MAX no_votes abstentions in
    let approved := threshold voting <=? yes_votes in
    if approved then
      let* proposal := lift (validate_and_get_proposal proposal_hash length_bound proposal_weight_bound s) in
      deposit_event (Closed proposal_hash yes_votes no_votes) ;;
      do_approve_proposal seats yes_votes proposal_hash proposal ;;
      ret true
    else
      deposit_event (Closed proposal_hash yes_votes no_votes) ;;
      do_disapprove_proposal proposal_hash ;;
      ret false.

(** Drops the votes of some accounts on every active proposal. *)
Definition retain_votes_on (keep : AccountId -> bool) (s : St) h : St :=
  match Voting s !! h with
  | Some votes => s <| Voting ::= <[h := votes <| ayes ::= filter (fun a => keep a = true) |>
                                               <| nays ::= filter (fun a => keep a = true) |>]> |>
  | None => s
  end.
Definition retain_votes (keep : AccountId -> bool) (s : St) : St := foldl (retain_votes_on keep) s (Proposals s).

Definition remove_votes who : Cm bool :=
  modify (retain_votes (fun a => negb (bool_decide (a = who)))) ;;
  ret true.

(** ** Members *)

(** [binary_search] in the sorted list finds exactly its elements. *)
Definition change_members_sorted (incoming outgoing new : list AccountId) (s : St) : St :=
  let s := retain_votes (fun a => negb (bool_decide (a ∈ outgoing))) s in
  s <| Members_ := new |> <| Prime := None |>.

Definition set_members_sorted (new old : list AccountId) (s : St) : St :=
  let '(incoming, outgoing) := compute_members_diff_sorted new old in
  change_members_sorted incoming outgoing new s.

Definition set_prime (prime : option AccountId) (s : St) : St := s <| Prime := prime |>.
Definition get_prime (s : St) : option AccountId := Prime s.

Definition initialize_members (members : list AccountId) : Cm unit :=
  let* s := gets id in
  if bool_decide (members = []) then ret tt
  else
    ensure (bool_decide (Members_ s = [])) Panic ;;
    modify (fun s => s <| Members_ := members |>).

(** [GenesisConfig::build] *)
Definition build (members : list AccountId) : Cm unit :=
  ensure (bool_decide (NoDup members)) Panic ;;
  initialize_members members.

(** ** Calls *)

Definition set_members (origin : Origin) (new_members : list AccountId) (prime : option AccountId) : Cm unit :=
  ext (ensure_set_members origin) ;;
  let* old := gets Members_ in
  modify (set_members_sorted (sort_accounts new_members) old) ;;
  modify (set_prime prime).

Definition execute (origin : Origin) (proposal : Proposal) (length_bound : Z) : Cm unit :=
  let* who := ext (ensure_signed origin) in
  let* s := gets id in
  ensure (is_member who s) (Module NotMember) ;;
  ensure (encoded_size proposal <=? length_bound) (Module ProposalLengthBoundLessThanProposalLength) ;;
  let* result := gets (dispatch proposal (Member who)) in
  modify (dispatched result) ;;
  deposit_event (MemberExecuted (hash_of proposal) (dispatch_result result)).

Definition propose (origin : Origin) (proposal : Proposal) (length_bound duration : Z) : Cm unit :=
  let* who := ext (ensure_signed origin) in
  let* s := gets id in
  ensure (can_propose (world s) who) (Module NotMember) ;;
  ensure (MotionDuration <=? duration) (Module DurationLowerThanConfiguredMotionDuration) ;;
  let threshold := sat_add U32_MAX (get_count (world s) / 2) 1 in
  do_propose_proposed who threshold proposal length_bound duration.

(** [true] when the vote is free of charge. *)
Definition vote (origin : Origin) (proposal : Hash) (i : Z) (approve : bool) : Cm bool :=
  let* who := ext (ensure_signed origin) in
  let* s := gets id in
  ensure (can_vote (world s) who) (Module NotMember) ;;
  do_vote who proposal i approve.

Definition disapprove_proposal (origin : Origin) proposal_hash : Cm unit :=
  ext (ensure_root origin) ;;
  do_disapprove_proposal proposal_hash.

Definition close (origin : Origin) proposal_hash (i : Z) (proposal_weight_bound : Weight) (length_bound : Z) : Cm bool :=
  ext (ensure_root origin) ;;
  do_close proposal_hash i proposal_weight_bound length_bound.

(** ** Origins *)

Definition ensure_members (o : RawOrigin) (n : Z) : option Z :=
  match o with Members x _ => if n <=? x then Some n else None | _ => None end.
Definition ensure_member (o : RawOrigin) : option AccountId := match o with Member id => Some id | _ => None end.
Definition ensure_members_n (N : Z) (o : RawOrigin) : option (Z * Z) :=
  match o with Members n m => if N <=? n then Some (n, m) else None | _ => None end.
Definition ensure_proportion_more_than (N D : Z) (o : RawOrigin) : option unit :=
  match o with Members n m => if sat_mul U32_MAX N m <? sat_mul U32_MAX n D then Some tt else None | _ => None end.
Definition ensure_proportion_at_least (N D : Z) (o : RawOrigin) : option unit :=
  match o with Members n m => if sat_mul U32_MAX N m <=? sat_mul U32_MAX n D then Some tt else None | _ => None end.
Definition get_backing (o : RawOrigin) : option (Z * Z) := match o with Members n d => Some (n, d) | _ => None end.

(** ** The invariant *)

(** The active proposals, their calls and their votings go together; every
    voting has its own index, and every account votes at most once on it. *)
Record collective_ok (s : St) : Prop := {
  co_distinct : NoDup (Proposals s);
  co_bound : count (Proposals s) <= Z.max 0 MaxProposals;
  co_proposals : forall h, h ∈ Proposals s <-> is_Some (ProposalOf s !! h);
  co_voting : forall h, is_Some (Voting s !! h) <-> is_Some (ProposalOf s !! h);
  co_hash : forall h p, ProposalOf s !! h = Some p -> hash_of p = h;
  co_index : forall h v, Voting s !! h = Some v -> 0 <= index v < ProposalCount s;
  co_injective : forall h h' v v', Voting s !! h = Some v -> Voting s !! h' = Some v' -> index v = index v' -> h = h';
  co_votes : forall h v, Voting s !! h = Some v -> NoDup (ayes v ++ nays v);
  co_count : 0 <= ProposalCount s <= U32_MAX;
}.

(** Storages that agree on the proposals. *)
Definition same_proposals (s s' : St) : Prop :=
  Proposals s = Proposals s' /\ ProposalOf s = ProposalOf s' /\ Voting s = Voting s' /\ ProposalCount s = ProposalCount s'.

Lemma collective_ok_same s s' : same_proposals s s' -> collective_ok s -> collective_ok s'.
Proof using. intros (E1 & E2 & E3 & E4) []. split; rewrite <- ?E1, <- ?E2, <- ?E3, <- ?E4; auto. Qed.

(** The votings after a change of votes that keeps indices and admits no
    double vote. *)
Lemma collective_ok_votes s s' : Proposals s' = Proposals s -> ProposalOf s' = ProposalOf s -> ProposalCount s' = ProposalCount s ->
  (forall h, match Voting s !! h, Voting s' !! h with
             | Some v, Some v' => index v' = index v /\ NoDup (ayes v' ++ nays v')
             | None, None => True | _, _ => False end) ->
  collective_ok s -> collective_ok s'.
Proof using.
  intros E1 E2 E3 Hv [H1 H2 H3 H4 H5 H6 H7 H8 H9].
  assert (forall h v', Voting s' !! h = Some v' -> exists v, Voting s !! h = Some v /\ index v' = index v /\ NoDup (ayes v' ++ nays v')) as Hb.
  { intros h v' E. specialize (Hv h). rewrite E in Hv. destruct (Voting s !! h) as [v|]; [|done]. by exists v. }
  split; rewrite ?E1, ?E2, ?E3; auto.
  - intros h. rewrite <- H4. specialize (Hv h). destruct (Voting s !! h), (Voting s' !! h); try done; split; by eexists.
  - intros h v' (v & E & -> & _)%Hb. by eapply H6.
  - intros h h' v v' (w & E & -> & _)%Hb (w' & E' & -> & _)%Hb. by eapply H7.
  - by intros h v' (v & _ & _ & ?)%Hb.
Qed.

Lemma remove_proposal_ok h s s' : remove_proposal h s = Ok (tt, s') -> collective_ok s -> collective_ok s'.
Proof using.
  intros [= ->]%modify_ok [H1 H2 H3 H4 H5 H6 H7 H8 H9]. split; cbn; auto.
  - by apply NoDup_filter.
  - pose proof (length_filter (fun k => k <> h) (Proposals s)). lia.
  - intros k. rewrite list_elem_of_filter, H3. destruct (decide (k = h)) as [->|].
    + rewrite lookup_delete_eq. split; [by intros []|by intros []].
    + rewrite lookup_delete_ne by done. naive_solver.
  - intros k. destruct (decide (k = h)) as [->|]; [by rewrite !lookup_delete_eq|by rewrite !lookup_delete_ne].
  - intros k p [_ ?]%lookup_delete_Some. by apply H5.
  - intros k v [_ ?]%lookup_delete_Some. by eapply H6.
  - intros k k' v v' [_ ?]%lookup_delete_Some [_ ?]%lookup_delete_Some. by eapply H7.
  - intros k v [_ ?]%lookup_delete_Some. by eapply H8.
Qed.

Lemma propose_ok who t p lb d s s' : do_propose_proposed who t p lb d s = Ok (tt, s') -> collective_ok s -> collective_ok s'.
Proof using. clear dispatch.
  intros H [H1 H2 H3 H4 H5 H6 H7 H8 H9]. unfold do_propose_proposed, deposit_event in H. monad_inv H. unfold id in *.
  apply bool_decide_eq_true in Hg0. apply Z.ltb_lt in Hg1. apply Z.leb_le in Hg2.
  set (h := hash_of p) in *. assert (h ∉ Proposals s) as Hnew by (rewrite H3, Hg0; by intros []).
  assert (Voting s !! h = None) as Hv by (apply eq_None_not_Some; rewrite H4, Hg0; by intros []).
  split; cbn; auto.
  - apply NoDup_app. split; [done|]. split; [|apply NoDup_singleton]. intros k Hk ->%list_elem_of_singleton. done.
  - rewrite length_app. cbn. lia.
  - intros k. rewrite elem_of_app, list_elem_of_singleton, H3. destruct (decide (k = h)) as [->|].
    + rewrite lookup_insert_eq. split; [by eexists|by right].
    + rewrite lookup_insert_ne by done. naive_solver.
  - intros k. destruct (decide (k = h)) as [->|]; [by rewrite !lookup_insert_eq|by rewrite !lookup_insert_ne].
  - intros k q [[<- <-]|[_ ?]]%lookup_insert_Some; [done|by apply H5].
  - intros k v [[_ <-]|[_ E]]%lookup_insert_Some; [cbn; lia|]. specialize (H6 _ _ E). lia.
  - intros k k' v v' [[<- <-]|[Hk E]]%lookup_insert_Some [[<- <-]|[Hk' E']]%lookup_insert_Some; cbn; try done.
    + specialize (H6 _ _ E'). lia.
    + specialize (H6 _ _ E). lia.
    + by eapply H7.
  - intros k v [[_ <-]|[_ E]]%lookup_insert_Some; [constructor|by eapply H8].
  - lia.
Qed.

Lemma position_none who l : position who l = None <-> who ∉ l.
Proof using.
  unfold position. destruct (list_find (eq who) l) as [[k x]|] eqn:E; cbn.
  - apply list_find_Some in E as (Hk & <- & _). split; [done|]. intros H. by apply list_elem_of_lookup_2 in Hk.
  - apply list_find_None in E. split; [|done]. intros _ Hin. rewrite Forall_forall in E. by apply (E who).
Qed.
Lemma position_some who l k : position who l = Some k -> l !! k = Some who.
Proof using.
  unfold position. destruct (list_find (eq who) l) as [[j x]|] eqn:E; [|done]. cbn. intros [= ->].
  by apply list_find_Some in E as (Hk & <- & _).
Qed.

(** The two sides of a voting after a vote, up to order. *)
Lemma vote_of_spec v who approve v' : vote_of v who approve = Ok v' ->
  let side (b : bool) (w : Votes) := if b then ayes w else nays w in
  who ∉ side approve v /\ side approve v' = side approve v ++ [who] /\
  (if decide (who ∈ side (negb approve) v) then side (negb approve) v ≡ₚ who :: side (negb approve) v'
   else side (negb approve) v' = side (negb approve) v) /\
  index v' = index v /\ threshold v' = threshold v /\ end_ v' = end_ v.
Proof using.
  clear dispatch. cbv zeta. unfold vote_of. destruct approve; cbn [negb].
  - destruct (position who (ayes v)) eqn:E1; [done|]. apply position_none in E1. intros [= <-].
    destruct (position who (nays v)) as [k|] eqn:E2; cbn; (split; [done|]); (split; [done|]); (split; [|done]).
    + apply position_some in E2. rewrite decide_True by (by eapply list_elem_of_lookup_2). by apply swap_remove_perm.
    + apply position_none in E2. by rewrite decide_False.
  - destruct (position who (nays v)) eqn:E1; [done|]. apply position_none in E1. intros [= <-].
    destruct (position who (ayes v)) as [k|] eqn:E2; cbn; (split; [done|]); (split; [done|]); (split; [|done]).
    + apply position_some in E2. rewrite decide_True by (by eapply list_elem_of_lookup_2). by apply swap_remove_perm.
    + apply position_none in E2. by rewrite decide_False.
Qed.

Lemma vote_of_distinct v who approve v' : vote_of v who approve = Ok v' -> NoDup (ayes v ++ nays v) -> NoDup (ayes v' ++ nays v').
Proof using.
  clear dispatch. intros (Hnot & Hside & Hother & _)%vote_of_spec Hnd.
  assert (forall (a n a' n' : list AccountId), who ∉ a -> a' = a ++ [who] ->
    (if decide (who ∈ n) then n ≡ₚ who :: n' else n' = n) -> NoDup (a ++ n) -> NoDup (a' ++ n')) as Hgen.
  { intros a n a' n' Ha -> Hn H. rewrite <- app_assoc. cbn. rewrite <- Permutation_middle. case_decide as Hin.
    - rewrite Hn, <- Permutation_middle in H. done.
    - subst n'. apply NoDup_cons. split; [|done]. rewrite elem_of_app. tauto. }
  destruct approve; cbn [negb] in *; [by eapply Hgen|].
  rewrite Permutation_app_comm in Hnd. rewrite Permutation_app_comm. by eapply Hgen.
Qed.

Lemma voting_at_ok h i s v s' : voting_at h i s = Ok (v, s') <-> s' = s /\ Voting s !! h = Some v /\ index v = i.
Proof using.
  clear dispatch. unfold voting_at, bind, gets, lift, ensure, ret, id. destruct (Voting s !! h) as [w|]; cbn; [|naive_solver].
  destruct (Z.eqb_spec (index w) i); naive_solver.
Qed.

Lemma do_vote_ok who h i b s first s' : do_vote who h i b s = Ok (first, s') -> collective_ok s -> collective_ok s'.
Proof using.
  intros H Hok. unfold do_vote in H. apply bind_ok in H as (v & s1 & (-> & Hv & Hi)%voting_at_ok & H). clear dispatch.
  apply bind_ok in H as (v' & s1 & (w & Hw & [= -> ->])%lift_ok & H).
  apply bind_ok in H as ([] & s1 & [= ->]%modify_ok & H). apply bind_ok in H as ([] & s2 & [= ->]%modify_ok & [= -> ->]%ret_ok).
  apply (collective_ok_votes s); try done. intros k. cbn.
  destruct (decide (k = h)) as [->|Hne].
  - rewrite Hv, lookup_insert_eq. split; [by apply vote_of_spec in Hw as (_ & _ & _ & ? & _)|]. eapply vote_of_distinct; [done|]. by eapply co_votes.
  - rewrite lookup_insert_ne by done. destruct (Voting s !! k) eqn:E; [|done]. split; [done|]. by eapply co_votes.
Qed.

(** ** Dropping votes *)

Definition kept (keep : AccountId -> bool) (v : Votes) : Votes :=
  v <| ayes ::= filter (fun a => keep a = true) |> <| nays ::= filter (fun a => keep a = true) |>.

Lemma retain_votes_fold keep l s : NoDup l -> let s' := foldl (retain_votes_on keep) s l in
  Proposals s' = Proposals s /\ ProposalOf s' = ProposalOf s /\ ProposalCount s' = ProposalCount s /\ world s' = world s /\
  events s' = events s /\ Members_ s' = Members_ s /\ Prime s' = Prime s /\
  forall h, Voting s' !! h = (if decide (h ∈ l) then kept keep else id) <$> Voting s !! h.
Proof using.
  clear dispatch. cbv zeta. revert s. induction l as [|k l IH]; intros s Hnd; cbn [foldl].
  { split_and!; try done. intros h. rewrite decide_False by (by intros ?%elem_of_nil). by destruct (Voting s !! h). }
  apply NoDup_cons in Hnd as [Hnot Hnd]. set (x := retain_votes_on keep s k).
  destruct (IH x Hnd) as (I1 & I2 & I3 & I4 & I5 & I6 & I7 & I8).
  assert (Proposals x = Proposals s /\ ProposalOf x = ProposalOf s /\ ProposalCount x = ProposalCount s /\ world x = world s /\
    events x = events s /\ Members_ x = Members_ s /\ Prime x = Prime s) as (X1 & X2 & X3 & X4 & X5 & X6 & X7)
    by (unfold x, retain_votes_on; by destruct (Voting s !! k)).
  rewrite I1, I2, I3, I4, I5, I6, I7. split_and!; try done. intros h. rewrite I8. clear - Hnot.
  assert (Voting x !! h = (if decide (h = k) then kept keep else id) <$> Voting s !! h) as ->.
  { unfold x, retain_votes_on. destruct (Voting s !! k) as [v|] eqn:E; cbn.
    - case_decide as D; [subst; by rewrite lookup_insert_eq, E|]. rewrite lookup_insert_ne by done. by destruct (Voting s !! h).
    - case_decide as D; [by subst; rewrite E|by destruct (Voting s !! h)]. }
  destruct (Voting s !! h) as [v|]; [|done]. cbn. f_equal. destruct (decide (h = k)) as [->|Hne].
  - rewrite decide_False by done. rewrite decide_True by (by left). done.
  - destruct (decide (h ∈ l)); [rewrite decide_True by (by right); done|]. rewrite decide_False; [done|].
    by intros [->|?]%elem_of_cons.
Qed.

Lemma retain_votes_ok keep s : collective_ok s -> collective_ok (retain_votes keep s).
Proof using.
  clear dispatch. intros Hok. destruct (retain_votes_fold keep (Proposals s) s (co_distinct _ Hok)) as (E1 & E2 & E3 & _ & _ & _ & _ & Hv).
  apply (collective_ok_votes s); try done. intros h. unfold retain_votes. rewrite Hv. destruct (Voting s !! h) as [v|] eqn:E; [|done]. cbn.
  pose proof (co_votes _ Hok _ _ E) as Hnd. case_decide; [|done]. split; [done|]. cbn. rewrite <- filter_app. by apply NoDup_filter.
Qed.
(** ** Decisions *)

(** A motion can be closed before its end once the outcome is certain. *)
Definition decided_early (v : Votes) (seats : Z) : bool :=
  (threshold v <=? count (ayes v)) || (sat_sub seats (count (nays v)) <? threshold v).

(** The votes that count: the ayes, and after the end of the voting also the
    abstentions when the default vote is aye. *)
Definition final_ayes (v : Votes) (seats : Z) (prime : option AccountId) : Z :=
  if decided_early v seats then count (ayes v)
  else if default_vote ((fun who => bool_decide (who ∈ ayes v)) <$> prime) (count (ayes v)) (count (nays v)) seats
  then sat_add U32_MAX (count (ayes v)) (sat_sub seats (sat_add U32_MAX (count (ayes v)) (count (nays v))))
  else count (ayes v).

Definition add_event (e : Event Hash) (s : St) : St := s <| events := events s ++ [e] |>.
Definition without_proposal proposal_hash (s : St) : St :=
  s <| ProposalOf ::= delete proposal_hash |> <| Voting ::= delete proposal_hash |>
    <| Proposals ::= filter (fun h => h <> proposal_hash) |>.

(** What a motion that was closed leaves behind. *)
Definition carried_out (ayes_ nays_ : Z) h (p : Proposal) (s s' : St) : Prop :=
  let s1 := add_event (Approved h) (add_event (Closed h ayes_ nays_) s) in
  let r := dispatch p (Members ayes_ (get_count (world s))) s1 in
  s' = without_proposal h (add_event (Executed h (dispatch_result r)) (dispatched r s1)).
Definition dropped (ayes_ nays_ : Z) h (s s' : St) : Prop :=
  s' = without_proposal h (add_event (Disapproved h) (add_event (Closed h ayes_ nays_) s)).

Lemma approve_run seats ayes_ nays_ h p s s1 pays (k : bool) :
  (deposit_event (Closed h ayes_ nays_) ;; do_approve_proposal seats ayes_ h p ;; ret k) s = Ok (pays, s1) ->
  pays = k /\ s1 = without_proposal h (let s1 := add_event (Approved h) (add_event (Closed h ayes_ nays_) s) in
    let r := dispatch p (Members ayes_ seats) s1 in add_event (Executed h (dispatch_result r)) (dispatched r s1)).
Proof using. intros [= <- <-]. done. Qed.

Lemma disapprove_run ayes_ nays_ h s s1 pays (k : bool) :
  (deposit_event (Closed h ayes_ nays_) ;; do_disapprove_proposal h ;; ret k) s = Ok (pays, s1) ->
  pays = k /\ s1 = without_proposal h (add_event (Disapproved h) (add_event (Closed h ayes_ nays_) s)).
Proof using. clear dispatch. intros [= <- <-]. done. Qed.

Lemma close_spec h i wb lb s pays s' : do_close h i wb lb s = Ok (pays, s') ->
  exists v nays_, Voting s !! h = Some v /\ index v = i /\
    let seats := get_count (world s) in let yes := final_ayes v seats (Prime s) in
    (decided_early v seats = false -> end_ v <= block_number (world s)) /\
    pays = (threshold v <=? yes) /\
    (if pays then exists p, ProposalOf s !! h = Some p /\ encoded_size p <= lb /\ all_lte (call_weight p) wb = true /\
       carried_out yes nays_ h p s s'
     else dropped yes nays_ h s s').
Proof using.
  intros H. unfold do_close in H. apply bind_ok in H as (v & ? & (-> & Hv & Hi)%voting_at_ok & H).
  apply bind_ok in H as (? & ? & [= -> ->]%gets_ok & H). unfold id in *. cbv zeta in H.
  assert (forall p, validate_and_get_proposal h lb wb s = Ok p -> ProposalOf s !! h = Some p /\ encoded_size p <= lb /\
    all_lte (call_weight p) wb = true) as Hval.
  { intros p. unfold validate_and_get_proposal. destruct (ProposalOf s !! h) as [q|]; [|done].
    destruct (Z.leb_spec (encoded_size q) lb); [|done]. cbn. destruct (all_lte (call_weight q) wb) eqn:Ew; [|done].
    intros [= ->]. by rewrite Ew. }
  unfold final_ayes, decided_early.
  destruct (threshold v <=? count (ayes v)) eqn:Ea; cbn [orb].
  { apply bind_ok in H as (p & ? & (q & Hp & [= -> ->])%lift_ok & H). apply approve_run in H as [-> ->].
    exists v, (count (nays v)). rewrite Ea. cbn [orb]. split_and!; try (done || congruence).
    exists q. by destruct (Hval q Hp) as (? & ? & ?). }
  destruct (sat_sub (get_count (world s)) (count (nays v)) <? threshold v) eqn:Ed.
  { apply disapprove_run in H as [-> ->]. exists v, (count (nays v)). rewrite Ea, Ed. cbn [orb]. split_and!; (done || congruence). }
  apply bind_ok in H as ([] & ? & [He%Z.leb_le [= ->]]%ensure_ok & H).
  set (d := default_vote _ _ _ _) in *. exists v. eexists (if d then _ else _). rewrite Ea, Ed. cbn [orb]. fold d.
  split; [done|]. split; [done|]. split; [done|].
  destruct (threshold v <=? (if d then _ else _)) eqn:Et.
  - apply bind_ok in H as (p & ? & (q & Hp & [= -> ->])%lift_ok & H). apply approve_run in H as [-> ->].
    split; [done|]. exists q. by destruct (Hval q Hp) as (? & ? & ?).
  - by apply disapprove_run in H as [-> ->].
Qed.
(** C11: Closing a motion decides it by its votes. It needs the index of the motion
    and either a certain outcome or the end of the voting. The call of the motion
    is dispatched, with the authority of the votes, exactly when the ayes,
    together with the abstentions where the default is aye, reach the threshold
    (and the length and the weight of the call are within the given bounds);
    otherwise nothing is dispatched. Either way the motion is gone, so that it
    cannot be closed again. *)
Theorem motion_decided_once h i wb lb s pays s' : do_close h i wb lb s = Ok (pays, s') ->
  (exists v nays_, Voting s !! h = Some v /\ index v = i /\
    let seats := get_count (world s) in let yes := final_ayes v seats (Prime s) in
    (decided_early v seats = false -> end_ v <= block_number (world s)) /\
    pays = (threshold v <=? yes) /\
    (if pays then exists p, ProposalOf s !! h = Some p /\ encoded_size p <= lb /\ all_lte (call_weight p) wb = true /\
       carried_out yes nays_ h p s s'
     else dropped yes nays_ h s s')) /\
  forall j wb' lb', do_close h j wb' lb' s' = Err (Module ProposalNotExists).
Proof using.
  intros H. apply close_spec in H as (v & nays_ & Hv & Hi & H). split; [by exists v, nays_|]. intros j wb' lb'.
  assert (Voting s' !! h = None) as Hnone.
  { destruct H as (_ & _ & H). destruct pays; [destruct H as (p & _ & _ & _ & ->)|rewrite H]; cbn; by rewrite lookup_delete_eq. }
  unfold do_close, voting_at, bind, gets, lift, id. by rewrite Hnone.
Qed.

(** A vote counts once: it is accepted unless the account already votes that
    way, which is the error [DuplicateVote]; it takes back a vote the other way;
    nobody else's vote and no other motion changes. The call is free exactly for
    the first vote of the account on the motion. *)
Theorem vote_counts_once who h i approve s v : Voting s !! h = Some v -> index v = i -> collective_ok s ->
  let side (b : bool) (w : Votes) := if b then ayes w else nays w in
  (who ∈ side approve v /\ do_vote who h i approve s = Err (Module DuplicateVote)) \/
  (who ∉ side approve v /\ exists v' s',
     do_vote who h i approve s = Ok (negb (bool_decide (who ∈ side (negb approve) v)), s') /\
     Voting s' = <[h := v']> (Voting s) /\ index v' = index v /\ threshold v' = threshold v /\ end_ v' = end_ v /\
     who ∈ side approve v' /\ who ∉ side (negb approve) v' /\
     (forall a b, a <> who -> a ∈ side b v' <-> a ∈ side b v) /\ collective_ok s').
Proof using.
  clear dispatch. cbv zeta. intros Hv Hi Hok. pose proof (co_votes _ Hok _ _ Hv) as Hnd.
  assert (voting_at h i s = Ok (v, s)) as Hat by (by apply voting_at_ok).
  destruct (vote_of v who approve) as [v'|e] eqn:Ev.
  - right. pose proof (vote_of_distinct _ _ _ _ Ev Hnd) as Hnd'. apply vote_of_spec in Ev as Hspec.
    destruct Hspec as (Hnot & Hside & Hother & E1 & E2 & E3). split; [done|].
    set (s1 := s <| events := events s ++ [Voted who h approve (count (ayes v')) (count (nays v'))] |>
                 <| Voting ::= <[h := v']> |>).
    assert (do_vote who h i approve s = Ok (negb (bool_decide (who ∈ (if negb approve then ayes v else nays v))), s1)) as Hrun.
    { unfold do_vote, bind. rewrite Hat. unfold lift. rewrite Ev. unfold deposit_event, modify, ret. f_equal. f_equal.
      assert (forall l, bool_decide (position who l = None) = negb (bool_decide (who ∈ l))) as Hb.
      { intros l. destruct (decide (who ∈ l)) as [Hl|Hl]; [rewrite (bool_decide_true _ Hl)|rewrite (bool_decide_false _ Hl)]; cbn [negb];
        [apply bool_decide_false; by intros ?%position_none|by apply bool_decide_true, position_none]. }
      rewrite !Hb. destruct approve; cbn [negb] in *; rewrite (bool_decide_false _ Hnot); [done|]. by rewrite andb_comm. }
    exists v', s1. split; [done|]. split; [done|]. split; [done|]. split; [done|]. split; [done|].
    split; [rewrite Hside; set_solver|]. split.
    + intros Hin. destruct approve; cbn [negb] in *.
      * apply NoDup_app in Hnd' as (_ & H & _). apply (H who); [rewrite Hside; set_solver|done].
      * apply NoDup_app in Hnd' as (_ & H & _). apply (H who); [done|rewrite Hside; set_solver].
    + split; [|by eapply do_vote_ok].
      assert (forall (n n' : list AccountId) a, a <> who -> (if decide (who ∈ n) then n ≡ₚ who :: n' else n' = n) ->
        a ∈ n' <-> a ∈ n) as Hn.
      { intros n n' a Ha. destruct (decide (who ∈ n)); intros Hp; [|by subst]. pose proof (fun x => elem_of_Permutation_proper x _ _ Hp) as E. specialize (E a).
        rewrite elem_of_cons in E. tauto. }
      intros a b Ha. destruct approve, b; cbn [negb] in *; try (by eapply Hn); rewrite Hside; set_solver.
  - left. unfold vote_of in Ev. split.
    + destruct (decide (who ∈ (if approve then ayes v else nays v))) as [|Hnot]; [done|].
      destruct approve; apply position_none in Hnot; by rewrite Hnot in Ev.
    + assert (e = Module DuplicateVote) as ->.
      { destruct approve; [destruct (position who (ayes v))|destruct (position who (nays v))]; by simplify_eq. }
      unfold do_vote, bind. rewrite Hat. unfold lift, vote_of. by rewrite Ev.
Qed.

(** ** Runs *)

(** What the invariant needs of a dispatched call: it is made of calls that
    keep it, those of this pallet among them. *)
Context (dispatch_keeps : forall p o s s', collective_ok s -> dispatch p o s = Ok s' -> collective_ok s').

Lemma dispatched_ok p o s : collective_ok s -> collective_ok (dispatched (dispatch p o s) s).
Proof using dispatch_keeps. intros Hok. destruct (dispatch p o s) as [s'|] eqn:E; [by eapply dispatch_keeps|done]. Qed.

Lemma without_ok h s : collective_ok s -> collective_ok (without_proposal h s).
Proof using. by apply (remove_proposal_ok h). Qed.

(** Every call of the pallet, the hooks of the membership pallets, and changes
    of the world outside. *)
Inductive collective_step : St -> St -> Prop :=
  | StepPropose origin p lb d s s' : propose origin p lb d s = Ok (tt, s') -> collective_step s s'
  | StepVote origin h i b first s s' : vote origin h i b s = Ok (first, s') -> collective_step s s'
  | StepDoVote who h i b first s s' : do_vote who h i b s = Ok (first, s') -> collective_step s s'
  | StepClose origin h i wb lb pays s s' : close origin h i wb lb s = Ok (pays, s') -> collective_step s s'
  | StepDisapprove origin h s s' : disapprove_proposal origin h s = Ok (tt, s') -> collective_step s s'
  | StepExecute origin p lb s s' : execute origin p lb s = Ok (tt, s') -> collective_step s s'
  | StepSetMembers origin new prime s s' : set_members origin new prime s = Ok (tt, s') -> collective_step s s'
  | StepChangeMembers incoming outgoing new s : collective_step s (change_members_sorted incoming outgoing new s)
  | StepSetPrime prime s : collective_step s (set_prime prime s)
  | StepRemoveVotes who r s s' : remove_votes who s = Ok (r, s') -> collective_step s s'
  | StepWorld w s : collective_step s (s <| world := w |>).

Lemma change_members_ok incoming outgoing new s : collective_ok s -> collective_ok (change_members_sorted incoming outgoing new s).
Proof using. intros Hok. eapply collective_ok_same; [|by apply retain_votes_ok]. by split_and!. Qed.

Ltac same_ok := eapply collective_ok_same; [|eassumption]; by split_and!.

Lemma collective_step_ok s s' : collective_step s s' -> collective_ok s -> collective_ok s'.
Proof using dispatch_keeps.
  intros Hstep Hok. destruct Hstep as [???? s s' H|????? s s' H|????? s s' H|?????? s s' H|?? s s' H|??? s s' H|??? s s' H|????|??|?? s s' H|??].
  - unfold propose in H. monad_inv H. by eapply propose_ok.
  - unfold vote in H. monad_inv H. by eapply do_vote_ok.
  - by eapply do_vote_ok.
  - unfold close in H. monad_inv H. apply close_spec in H as (v & n & _ & _ & _ & _ & H). destruct pays.
    + destruct H as (p & _ & _ & _ & ->). apply without_ok. eapply collective_ok_same; [|apply dispatched_ok]; [by split_and!|]. same_ok.
    + rewrite H. apply without_ok. same_ok.
  - unfold disapprove_proposal, do_disapprove_proposal, deposit_event in H. monad_inv H.
    eapply remove_proposal_ok; [done|]. same_ok.
  - unfold execute, deposit_event in H. monad_inv H. eapply collective_ok_same; [|by apply dispatched_ok]. by split_and!.
  - unfold set_members, set_members_sorted in H. monad_inv H. destruct (compute_members_diff_sorted _ _) as [incoming outgoing].
    eapply collective_ok_same; [|by apply (change_members_ok incoming outgoing (sort_accounts new))]. by split_and!.
  - by apply change_members_ok.
  - same_ok.
  - unfold remove_votes in H. monad_inv H. by apply retain_votes_ok.
  - same_ok.
Qed.

(** C6: On every reachable state the active motions, their calls and their votings
    are the same set, within the limit, each under the hash of its call and with
    an index of its own; no account has two votes on a motion. *)
Theorem collective_stays_consistent s0 s : rtc collective_step s0 s -> collective_ok s0 -> collective_ok s.
Proof using dispatch_keeps. induction 1 as [s|s s1 s' Hstep _ IH]; [done|]. intros Hok. by eapply IH, collective_step_ok. Qed.
End Collective.
