(* ===== verification/CollectiveExamples.v ===== *)
(** * The collective on a concrete runtime

    A senate of three votes on a motion; witnesses for the theorems of
    [Collective]. *)

From S2P Require Import Prelude Frame TestRuntime Collective.
From stdpp Require Import prelude gmap list fin_maps.
From Stdlib Require Import ZArith Lia.
#[local] Open Scope Z_scope.
#[local] Open Scope monad_scope.

(** The block number and the accounts that may vote. A proposal is a number,
    its own hash. *)
Record Chamber := mkChamber { ch_now : Z; ch_senate : list nat }.

#[export] Instance test_collective : CollectiveEnv (FS:=TestFrame) Chamber := {|
  Proposal := nat;
  Hash := nat;
  Weight := Z;
  hash_of p := p;
  encoded_size p := Z.of_nat p;
  call_weight p := Z.of_nat p;
  all_lte := Z.leb;
  block_number := ch_now;
  can_propose _ a := (a =? 1)%nat;
  can_vote w a := bool_decide (a ∈ ch_senate w);
  get_count w := Z.of_nat (length (ch_senate w));
  ensure_set_members := ensure_root (FrameSystem:=TestFrame);
  sort_accounts l := l;
  compute_members_diff_sorted new old := (list_difference new old, list_difference old new);
|}.
#[export] Instance test_collective_config : CollectiveConfig := {|
  MotionDuration := 10;
  MaxProposals := 2;
  default_vote := prime_default_vote;
|}.

Abbreviation Chain := (State (FS:=TestFrame) Chamber nat nat).

(** The call 9 fails; the call 5 adds a senator. *)
Definition test_dispatch (p : nat) (o : RawOrigin (FS:=TestFrame)) (s : Chain) : result bool Chain :=
  if (p =? 9)%nat then Err false
  else if (p =? 5)%nat then Ok (s <| world := mkChamber (ch_now (world s)) (5%nat :: ch_senate (world s)) |>)
  else Ok s.

Lemma test_dispatch_keeps p o (s s' : Chain) : collective_ok (FS:=TestFrame) s -> test_dispatch p o s = Ok s' ->
  collective_ok (FS:=TestFrame) s'.
Proof.
  unfold test_dispatch. intros Hok. destruct (p =? 9)%nat; [done|]. destruct (p =? 5)%nat; intros [= <-]; [|done].
  eapply (collective_ok_same (FS:=TestFrame)); [|exact Hok]. by split_and!.
Qed.

Definition chamber : Chain :=
  mkState TestFrame Chamber nat nat _ _ [] ∅ ∅ 0 [1%nat] None (mkChamber 100 [11; 12; 13]%nat) [].

Lemma chamber_ok : collective_ok (FS:=TestFrame) chamber.
Proof.
  split; cbn; try done; try lia.
  - constructor.
  - intros h. rewrite lookup_empty. split; [by intros ?%elem_of_nil|by intros []].
  - intros h. rewrite !lookup_empty. split; by intros [].
Qed.

(** Account 1 proposes the call 5, and two of three senators vote for it. *)
Definition proposed : Chain := exec (propose (FS:=TestFrame) (signed 1) 5%nat 100 10) chamber.
Definition one_vote : Chain := exec (vote (FS:=TestFrame) (signed 11) 5%nat 0 true) proposed.
Definition two_votes : Chain := exec (vote (FS:=TestFrame) (signed 12) 5%nat 0 true) one_vote.
Definition closed : Chain := exec (close (FS:=TestFrame) (Env:=test_collective) test_dispatch root 5%nat 0 100 100) two_votes.

Lemma collective_stays_consistent_witness :
  collective_ok (FS:=TestFrame) closed /\ ch_senate (world closed) = [5; 11; 12; 13]%nat /\ Proposals closed = [].
Proof.
  split; [|split; vm_compute; reflexivity].
  apply (collective_stays_consistent (FS:=TestFrame) (Env:=test_collective) test_dispatch test_dispatch_keeps chamber); [|apply chamber_ok].
  eapply rtc_l; [apply (StepPropose (FS:=TestFrame) (Env:=test_collective) test_dispatch (signed 1) 5%nat 100 10 chamber proposed); vm_compute; reflexivity|].
  eapply rtc_l; [apply (StepVote (FS:=TestFrame) (Env:=test_collective) test_dispatch (signed 11) 5%nat 0 true true proposed one_vote); vm_compute; reflexivity|].
  eapply rtc_l; [apply (StepVote (FS:=TestFrame) (Env:=test_collective) test_dispatch (signed 12) 5%nat 0 true true one_vote two_votes); vm_compute; reflexivity|].
  apply rtc_once. apply (StepClose (FS:=TestFrame) (Env:=test_collective) test_dispatch root 5%nat 0 100 100 true two_votes closed). vm_compute. reflexivity.
Defined.

(** With one vote of three the motion cannot be closed before its end; with two
    it is carried out, once. *)
Example too_early : do_close (FS:=TestFrame) (Env:=test_collective) test_dispatch 5%nat 0 100 100 one_vote = Err (Module TooEarlyToCloseProposal).
Proof. vm_compute. reflexivity. Qed.

Lemma motion_decided_once_witness :
  do_close (FS:=TestFrame) (Env:=test_collective) test_dispatch 5%nat 0 100 100 closed = Err (Module ProposalNotExists) /\
  exists v, Voting two_votes !! 5%nat = Some v /\ threshold v <= final_ayes (FS:=TestFrame) v 3 None.
Proof.
  destruct (motion_decided_once (FS:=TestFrame) (Env:=test_collective) test_dispatch 5%nat 0 100 100 two_votes true closed) as [H1 H2];
    [vm_compute; reflexivity|]. split; [apply H2|].
  destruct H1 as (v & n & Hv & _ & _ & Hp & _). exists v. split; [exact Hv|]. apply Z.leb_le. symmetry. exact Hp.
Defined.

(** Senator 11 changes its mind. *)
Lemma vote_counts_once_witness : exists v' s',
  do_vote (FS:=TestFrame) (Env:=test_collective) 11%nat 5%nat 0 false one_vote = Ok (false, s') /\ Voting s' !! 5%nat = Some v' /\
  11%nat ∈ nays v' /\ 11%nat ∉ ayes v'.
Proof.
  destruct (vote_counts_once (FS:=TestFrame) (Env:=test_collective) 11%nat 5%nat 0 false one_vote (mkVotes TestFrame 0 2 [11%nat] [] 110))
    as [[H _]|(_ & v' & s' & Hrun & Hv & _ & _ & _ & H1 & H2 & _)].
  - vm_compute. reflexivity.
  - reflexivity.
  - apply (do_vote_ok (FS:=TestFrame) (Env:=test_collective) 11%nat 5%nat 0 true proposed true one_vote); [vm_compute; reflexivity|].
    apply (propose_ok (FS:=TestFrame) (Env:=test_collective) 1%nat 2 5%nat 100 10 chamber proposed); [vm_compute; reflexivity|apply chamber_ok].
  - by apply elem_of_nil in H.
  - exists v', s'. split; [exact Hrun|]. split; [rewrite Hv; apply lookup_insert_eq|]. by split.
Defined.
