(* ===== verification/Codec.v ===== *)
(** * The SCALE codec the hand-written codecs of the pallets are built on

    The codec is the crate parity-scale-codec, which is not part of this
    repository: an input is a list of bytes, a decoder returns the value and
    the rest of the input. The laws state what its documentation promises. *)

From S2P Require Import Prelude.
From stdpp Require Import prelude list.
From Stdlib Require Import ZArith Lia.
#[local] Open Scope Z_scope.

Definition is_byte (b : Z) : Prop := 0 <= b <= 255.

(** [decode_bounded] is [BoundedVec::<u8, ConstU32<bound>>::decode]. *)
Class ScaleCodec := {
  read_byte : list Z -> option (Z * list Z);
  read : nat -> list Z -> option (list Z * list Z);
  decode_array : nat -> list Z -> option (list Z * list Z);
  encode_u64 : Z -> list Z;
  decode_u64 : list Z -> option (Z * list Z);
  encode_bytes : list Z -> list Z;
  decode_bounded : Z -> list Z -> option (list Z * list Z);
}.

Class ScaleCodecLaws {SC : ScaleCodec} := {
  read_byte_cons : forall b r, read_byte (b :: r) = Some (b, r);
  read_byte_inv : forall i b r, read_byte i = Some (b, r) -> i = b :: r;
  read_app : forall l r, read (length l) (l ++ r) = Some (l, r);
  read_inv : forall n i l r, read n i = Some (l, r) -> i = l ++ r /\ length l = n;
  decode_array_app : forall l r, decode_array (length l) (l ++ r) = Some (l, r);
  decode_array_inv : forall n i l r, decode_array n i = Some (l, r) -> i = l ++ r /\ length l = n;
  decode_encode_u64 : forall n r, 0 <= n <= U64_MAX -> decode_u64 (encode_u64 n ++ r) = Some (n, r);
  decode_u64_range : forall i n r, decode_u64 i = Some (n, r) -> 0 <= n <= U64_MAX;
  decode_encode_bounded : forall bound l r, Z.of_nat (length l) <= bound -> bound <= U32_MAX ->
    decode_bounded bound (encode_bytes l ++ r) = Some (l, r);
  decode_bounded_length : forall bound i l r, decode_bounded bound i = Some (l, r) -> Z.of_nat (length l) <= bound;
}.

(** Sequencing of decoders: [?] on a decoding error. *)
Notation "'dec!' x := m 'in' k" := (match m with Some x => k | None => None end)
  (at level 200, x pattern, m at level 100, k at level 200).
