(* ===== verification/Registry.v ===== *)
(** * The registry pallet (src/pallets/registry)

    Accounts register an identity and leave a deposit for it. [Module Data] is
    the compact encoding of a field, [IdentityFields] the encoding of the set of
    fields that are filled. *)

From S2P Require Import Prelude Frame Codec.
From stdpp Require Import prelude gmap list fin_maps.
From Stdlib Require Import ZArith Lia.
#[local] Open Scope Z_scope.
#[local] Open Scope monad_scope.

(** ** types.rs: the data of a field *)

Inductive Data : Type :=
  | DNone
  | Raw (bytes : list Z)
  | BlakeTwo256 (h : list Z)
  | Sha256 (h : list Z)
  | Keccak256 (h : list Z)
  | ShaThree256 (h : list Z).
#[export] Instance Data_eq_dec : EqDecision Data.
Proof. solve_decision. Defined.

Definition is_none (d : Data) : bool := bool_decide (d = DNone).

(** The bounds the Rust type puts on a field. *)
Definition data_ok (d : Data) : Prop :=
  match d with
  | DNone => True
  | Raw bytes => (length bytes <= 64)%nat
  | BlakeTwo256 h | Sha256 h | Keccak256 h | ShaThree256 h => length h = 32%nat
  end.

Section Coding.
Context {SC : ScaleCodec}.

(** [Decode for Data]: [None] is the decoding error. *)
Definition decode_data (input : list Z) : option (Data * list Z) :=
  dec! (b, input) := read_byte input in
  if b =? 0 then Some (DNone, input)
  else if (1 <=? b) && (b <=? 65) then
    dec! (r, input) := read (Z.to_nat (sat_sub b 1)) input in Some (Raw r, input)
  else if b =? 66 then dec! (h, input) := decode_array 32 input in Some (BlakeTwo256 h, input)
  else if b =? 67 then dec! (h, input) := decode_array 32 input in Some (Sha256 h, input)
  else if b =? 68 then dec! (h, input) := decode_array 32 input in Some (Keccak256 h, input)
  else if b =? 69 then dec! (h, input) := decode_array 32 input in Some (ShaThree256 h, input)
  else None.

(** [Encode for Data] *)
Definition encode_data (d : Data) : list Z :=
  match d with
  | DNone => [0]
  | Raw x => sat_add 255 (Z.min (Z.of_nat (length x)) 64) 1 :: x
  | BlakeTwo256 h => 66 :: h
  | Sha256 h => 67 :: h
  | Keccak256 h => 68 :: h
  | ShaThree256 h => 69 :: h
  end.

Context {SCL : ScaleCodecLaws}.

(** A field decodes to what was encoded, and the rest of the input is left. *)
Lemma identity_data_roundtrip d rest : data_ok d -> decode_data (encode_data d ++ rest) = Some (d, rest).
Proof.
  intros Hd. unfold decode_data. destruct d as [|x|h|h|h|h]; cbn [encode_data app]; rewrite read_byte_cons; cbn in Hd.
  - done.
  - assert (sat_add 255 (Z.min (Z.of_nat (length x)) 64) 1 = Z.of_nat (length x) + 1) as -> by (unfold sat_add; lia).
    rewrite (proj2 (Z.eqb_neq _ 0)), (proj2 (Z.leb_le 1 _)), (proj2 (Z.leb_le _ 65)) by lia. cbn [andb].
    replace (Z.to_nat (sat_sub (Z.of_nat (length x) + 1) 1)) with (length x) by (unfold sat_sub; lia).
    by rewrite read_app.
  - cbn. by rewrite <- Hd, decode_array_app.
  - cbn. by rewrite <- Hd, decode_array_app.
  - cbn. by rewrite <- Hd, decode_array_app.
  - cbn. by rewrite <- Hd, decode_array_app.
Qed.
End Coding.

(** ** types.rs: identities *)

Inductive IdentityField := Display | Legal | Web | Riot | Email | PgpFingerprint | Image | Twitter.
#[export] Instance IdentityField_eq_dec : EqDecision IdentityField.
Proof. solve_decision. Defined.

(** The discriminants of the enum ([#[repr(u64)]]). *)
Definition field_bit (f : IdentityField) : Z :=
  match f with
  | Display => 1 | Legal => 2 | Web => 4 | Riot => 8 | Email => 16 | PgpFingerprint => 32 | Image => 64 | Twitter => 128
  end.

(** [BitFlags<IdentityField>], a set of flags in a [u64]. *)
Record IdentityFields := mkFields { bits : Z }.
Definition insert_flag (f : IdentityField) (res : IdentityFields) : IdentityFields :=
  mkFields (Z.lor (bits res) (field_bit f)).
Definition contains (res : IdentityFields) (f : IdentityField) : bool := negb (Z.land (bits res) (field_bit f) =? 0).

Record IdentityInfo := mkIdentityInfo {
  additional : list (Data * Data);
  display : Data;
  legal : Data;
  web : Data;
  riot : Data;
  email : Data;
  pgp_fingerprint : option (list Z);
  image : Data;
  twitter : Data;
}.

Definition fields (i : IdentityInfo) : IdentityFields :=
  let set_if (b : bool) (f : IdentityField) (res : IdentityFields) := if b then insert_flag f res else res in
  let res := mkFields 0 in
  let res := set_if (negb (is_none (display i))) Display res in
  let res := set_if (negb (is_none (legal i))) Legal res in
  let res := set_if (negb (is_none (web i))) Web res in
  let res := set_if (negb (is_none (riot i))) Riot res in
  let res := set_if (negb (is_none (email i))) Email res in
  let res := set_if (bool_decide (is_Some (pgp_fingerprint i))) PgpFingerprint res in
  let res := set_if (negb (is_none (image i))) Image res in
  set_if (negb (is_none (twitter i))) Twitter res.

(** Which field a flag stands for. *)
Definition filled (i : IdentityInfo) (f : IdentityField) : bool :=
  match f with
  | Display => negb (is_none (display i))
  | Legal => negb (is_none (legal i))
  | Web => negb (is_none (web i))
  | Riot => negb (is_none (riot i))
  | Email => negb (is_none (email i))
  | PgpFingerprint => bool_decide (is_Some (pgp_fingerprint i))
  | Image => negb (is_none (image i))
  | Twitter => negb (is_none (twitter i))
  end.

Section FieldCoding.
Context {SC : ScaleCodec}.

(** [Encode for IdentityFields] *)
Definition encode_fields (x : IdentityFields) : list Z := encode_u64 (bits x).

(** [BitFlags::from_bits] refuses a number with a bit that no flag has. *)
Definition from_bits (n : Z) : option IdentityFields := if Z.ldiff n 255 =? 0 then Some (mkFields n) else None.

(** [Decode for IdentityFields] *)
Definition decode_fields (input : list Z) : option (IdentityFields * list Z) :=
  dec! (field, input) := decode_u64 input in
  dec! x := from_bits field in Some (x, input).

Context {SCL : ScaleCodecLaws}.

(** The flags of an identity name exactly its filled fields, and survive
    their encoding. *)
Lemma identity_fields_exact i rest :
  (forall f, contains (fields i) f = filled i f) /\ decode_fields (encode_fields (fields i) ++ rest) = Some (fields i, rest).
Proof.
  unfold decode_fields, encode_fields, fields, filled.
  destruct (is_none (display i)), (is_none (legal i)), (is_none (web i)), (is_none (riot i)), (is_none (email i)),
    (bool_decide (is_Some (pgp_fingerprint i))), (is_none (image i)), (is_none (twitter i)); cbn [negb];
    (split; [by intros []|]); cbn; rewrite decode_encode_u64 by (vm_compute; split; congruence); done.
Qed.
End FieldCoding.

(** ** lib.rs *)

Record Registration := mkRegistration { deposit : Z; info : IdentityInfo }.
#[export] Instance Registration_eta : Eta Registration := fun x => mkRegistration (deposit x) (info x).

Definition total_deposit (r : Registration) : Z := deposit r.

Inductive Event {FS : FrameSystem} : Type := IdentitySet (who : AccountId) | IdentityDissolved (who : AccountId).
Inductive Error := CannotRegister | TooManyFieldsInIdentityInfo | NotRegistered.

(** The parameters of [Config]. *)
Record RegistryConfig := mkRegistryConfig {
  MaxAdditionalFields : Z;
  InitialDeposit : Z;
  FieldDeposit : Z;
}.

(** [fungible::MutateHold] for the reason [RegistryIdentity], and the check
    whether an account may register another one. [release] is called with
    [Precision::BestEffort]; it returns the amount released. *)
Class RegistryEnv {FS : FrameSystem} (W : Type) := {
  held : W -> AccountId -> Z;
  hold : W -> AccountId -> Z -> result DispatchError W;
  release : W -> AccountId -> Z -> result DispatchError (Z * W);
  can_register : W -> AccountId -> AccountId -> bool;
}.

(** A hold adds exactly its amount, a best-effort release gives back as much of
    it as is there; the total over all accounts moves along. *)
Class RegistryEnvLaws {FS : FrameSystem} (W : Type) {RE : RegistryEnv W} := {
  total_held : W -> Z;
  total_held_nonneg : forall w, 0 <= total_held w;
  held_nonneg : forall w a, 0 <= held w a;
  hold_adds : forall w a n w', hold w a n = Ok w' -> 0 <= n -> total_held w' = total_held w + n /\
    forall b, held w' b = if decide (b = a) then held w b + n else held w b;
  release_takes : forall w a n m w', release w a n = Ok (m, w') -> 0 <= n ->
    m = Z.min n (held w a) /\ total_held w' = total_held w - m /\
    forall b, held w' b = if decide (b = a) then held w b - m else held w b;
}.

Record State {FS : FrameSystem} {W : Type} := mkState {
  IdentityOf : gmap AccountId Registration;
  world : W;
  events : list Event;
}.
Arguments State {FS} W.
#[export] Instance State_eta {FS : FrameSystem} W : Eta (State W) := fun x => mkState FS W (IdentityOf x) (world x) (events x).

Section Registry.
Context {FS : FrameSystem} {W : Type} {RE : RegistryEnv W} (cfg : RegistryConfig).
Abbreviation St := (State W).
Abbreviation Rm A := (M St (error Error) A).
Implicit Types (s : St) (who identified : AccountId).

Definition deposit_event (e : Event) : Rm unit := modify (fun s => s <| events := events s ++ [e] |>).

(** [Currency::release(..)]: an error leaves the balances alone; the check
    that everything was released runs in debug builds only. *)
Definition release_deposit who (n : Z) : Rm unit :=
  modify (fun s => match release (world s) who n with Ok (_, w) => s <| world := w |> | Err _ => s end).

(** The two comparisons of the old deposit with the new one. *)
Definition adjust_deposit who (old_deposit new_deposit : Z) : Rm unit :=
  let* s := gets id in
  (if old_deposit <? new_deposit then
     let* w := ext (hold (world s) who (sat_sub new_deposit old_deposit)) in
     modify (fun s => s <| world := w |>)
   else ret tt) ;;
  (if new_deposit <? old_deposit then release_deposit who (sat_sub old_deposit new_deposit) else ret tt).

Definition set_identity (origin : Origin) identified (i : IdentityInfo) : Rm unit :=
  let* who := ext (ensure_signed origin) in
  let* s := gets id in
  ensure (can_register (world s) who identified) (Module CannotRegister) ;;
  let extra_fields := Z.of_nat (length (additional i)) in
  ensure (extra_fields <=? MaxAdditionalFields cfg) (Module TooManyFieldsInIdentityInfo) ;;
  let fd := sat_mul U64_MAX extra_fields (FieldDeposit cfg) in
  let id :=
    match IdentityOf s !! identified with
    | Some id => id <| info := i |>
    | None => mkRegistration 0 i
    end in
  let old_deposit := deposit id in
  let id := id <| deposit := sat_add U64_MAX (InitialDeposit cfg) fd |> in
  adjust_deposit who old_deposit (deposit id) ;;
  modify (fun s => s <| IdentityOf ::= <[identified := id]> |>) ;;
  deposit_event (IdentitySet identified).

Definition clear_identity (origin : Origin) identified : Rm unit :=
  let* who := ext (ensure_signed origin) in
  let* s := gets id in
  let* id := lift (ok_or (IdentityOf s !! identified) (Module NotRegistered)) in
  modify (fun s => s <| IdentityOf ::= delete identified |>) ;;
  release_deposit who (total_deposit id) ;;
  deposit_event (IdentityDissolved identified).

(** ** Deposits *)

Context {REL : RegistryEnvLaws W}.

(** The deposits on the books. *)
Definition deposits s : Z := map_sum (deposit <$> IdentityOf s).

(** The parameters are of type [Balance]. *)
Definition config_ok : Prop := 0 <= InitialDeposit cfg <= U64_MAX /\ 0 <= FieldDeposit cfg <= U64_MAX.

(** The deposits on the books are backed, and each is the price of its
    identity's fields. *)
Definition registry_ok s : Prop :=
  deposits s <= total_held (world s) /\
  map_Forall (fun _ r => Z.of_nat (length (additional (info r))) <= MaxAdditionalFields cfg /\
    deposit r = sat_add U64_MAX (InitialDeposit cfg) (sat_mul U64_MAX (Z.of_nat (length (additional (info r)))) (FieldDeposit cfg)))
    (IdentityOf s).

Lemma registration_price (i : IdentityInfo) : config_ok ->
  0 <= sat_add U64_MAX (InitialDeposit cfg) (sat_mul U64_MAX (Z.of_nat (length (additional i))) (FieldDeposit cfg)).
Proof. intros [? ?]. unfold sat_add, sat_mul. nia. Qed.

Lemma deposits_insert s identified r :
  map_sum (deposit <$> <[identified := r]> (IdentityOf s)) =
    deposits s + deposit r - from_option deposit 0 (IdentityOf s !! identified).
Proof.
  unfold deposits. rewrite fmap_insert. destruct (IdentityOf s !! identified) as [r0|] eqn:E; cbn.
  - rewrite (map_sum_insert_Some _ _ (deposit r0)); [lia|]. by rewrite lookup_fmap, E.
  - rewrite map_sum_insert_None; [lia|]. by rewrite lookup_fmap, E.
Qed.

Lemma deposits_delete s identified r : IdentityOf s !! identified = Some r ->
  map_sum (deposit <$> delete identified (IdentityOf s)) = deposits s - deposit r.
Proof. intros E. unfold deposits. rewrite fmap_delete. apply map_sum_delete. by rewrite lookup_fmap, E. Qed.

Lemma release_deposit_run who n s : 0 <= n ->
  exists w m, release_deposit who n s = Ok (tt, s <| world := w |>) /\ 0 <= m <= n /\
    total_held w = total_held (world s) - m /\ (forall b, b <> who -> held w b = held (world s) b) /\
    m <= held (world s) who.
Proof.
  intros Hn. unfold release_deposit, modify. destruct (release (world s) who n) as [[m w]|e] eqn:E.
  - destruct (release_takes _ _ _ _ _ E Hn) as (-> & Ht & Hh). pose proof (held_nonneg (world s) who).
    exists w, (Z.min n (held (world s) who)). split; [done|]. split; [lia|]. split; [done|]. split; [|lia].
    intros b Hb. rewrite Hh. by rewrite decide_False.
  - exists (world s), 0. pose proof (held_nonneg (world s) who). split; [by destruct s|]. split_and!; [lia..|done|lia].
Qed.

Lemma adjust_hold_run who old new s s' : 0 <= old -> 0 <= new -> adjust_deposit who old new s = Ok (tt, s') ->
  exists w, s' = s <| world := w |> /\ total_held (world s) + new - old <= total_held w.
Proof.
  intros Ho Hn H. unfold adjust_deposit in H. monad_inv H; cbn [id] in *.
  - lia.
  - match goal with Hh : hold _ _ _ = Ok _ |- _ => apply hold_adds in Hh as [Ht _]; [|unfold sat_sub; lia] end.
    eexists. split; [done|]. unfold sat_sub in *. lia.
  - destruct (release_deposit_run who (sat_sub old new) s) as (w & m & Hr & Hm & Ht & _); [unfold sat_sub; lia|].
    rewrite Hr in H. simplify_eq. exists w. split; [done|]. unfold sat_sub in *. lia.
  - lazymatch goal with |- exists w, ?x = _ /\ _ => exists (world x); split; [by destruct x|lia] end.
Qed.

(** [set_identity] in one equation: the hold moves at least by the difference
    of the deposits, and the identity is recorded with its price. *)
Lemma set_identity_run origin identified i s s' :
  config_ok -> registry_ok s -> set_identity origin identified i s = Ok (tt, s') ->
  let price := sat_add U64_MAX (InitialDeposit cfg) (sat_mul U64_MAX (Z.of_nat (length (additional i))) (FieldDeposit cfg)) in
  let old := from_option deposit 0 (IdentityOf s !! identified) in
  Z.of_nat (length (additional i)) <= MaxAdditionalFields cfg /\
  IdentityOf s' = <[identified := mkRegistration price i]> (IdentityOf s) /\
  total_held (world s) + price - old <= total_held (world s').
Proof.
  intros Hc [_ Hok] H price old. unfold set_identity, deposit_event in H. monad_inv H. cbn [id] in *.
  pose proof (registration_price i Hc) as Hp. fold price in Hp, Hm |- *.
  assert (match IdentityOf s !! identified with Some id => id <| info := i |> | None => mkRegistration 0 i end
    = mkRegistration old i) as Eid.
  { subst old. by destruct (IdentityOf s !! identified) as [[]|]. }
  rewrite Eid in *. cbn in *. repeat match goal with u : unit |- _ => destruct u end.
  apply adjust_hold_run in Hm as (w & -> & Ht); [|subst old|done].
  - split; [lia|]. by split.
  - destruct (IdentityOf s !! identified) as [r|] eqn:E; cbn; [|lia].
    apply (map_Forall_lookup_1 _ _ _ _ Hok) in E as [_ ->]. by apply registration_price.
Qed.

Inductive registry_step s : St -> Prop :=
  | step_set origin identified i s' : set_identity origin identified i s = Ok (tt, s') -> registry_step s s'
  | step_clear origin identified s' : clear_identity origin identified s = Ok (tt, s') -> registry_step s s'
  (** the rest of the chain, which leaves these holds alone *)
  | step_other w : (forall a, held w a = held (world s) a) -> total_held w = total_held (world s) ->
      registry_step s (s <| world := w |>).

(** C23: In every state the pallet reaches from one without identities the
    deposits on its books add up to at most what is on hold for it, so that a
    release never pays out more than was taken; and every identity has at most
    the configured number of extra fields and carries exactly their price. *)
Theorem registry_stays_backed s s' :
  config_ok -> IdentityOf s = ∅ -> rtc registry_step s s' -> registry_ok s'.
Proof.
  intros Hc Hs Hr. assert (registry_ok s) as H0.
  { split; [|by rewrite Hs; apply map_Forall_empty]. unfold deposits. rewrite Hs, fmap_empty, map_sum_empty.
    apply total_held_nonneg. }
  revert H0. clear Hs. induction Hr as [|x y z Hxy _ IH]; [done|]. intros Hx. apply IH.
  destruct Hxy as [origin identified i y H|origin identified y H|w Hh Ht].
  - destruct (set_identity_run _ _ _ _ _ Hc Hx H) as (Hn & Ei & Ht). destruct Hx as [Hd Hf].
    split; unfold deposits; rewrite Ei.
    + rewrite deposits_insert. cbn. lia.
    + apply map_Forall_insert_2; [|done]. done.
  - unfold clear_identity, deposit_event in H. monad_inv H. cbn [id] in *. destruct Hx as [Hd Hf].
    match goal with Ho : IdentityOf _ !! _ = Some ?r |- _ =>
      pose proof (deposits_delete _ _ _ Ho) as Hdel; pose proof (map_Forall_lookup_1 _ _ _ _ Hf Ho) as [_ Hp] end.
    repeat match goal with u : unit |- _ => destruct u end. unfold total_deposit in Hm.
    match goal with Hm : release_deposit ?who ?n ?s = _ |- _ =>
      destruct (release_deposit_run who n s) as (w & m & Hr & Hn & Ht & _) end.
    { rewrite Hp. by apply registration_price. }
    rewrite Hr in Hm. simplify_eq. cbn in *. split; unfold deposits; cbn; [lia|]. by apply map_Forall_delete.
  - destruct Hx as [Hd Hf]. split; [|done]. cbn. by rewrite Ht.
Qed.

(** [clear_identity] asks for no authority over the identity: whoever signs
    it, the identity is gone. The deposit is released from the balance of the
    signer, so that what another account left for it stays on hold, and with an
    empty hold of the signer all of it; it can then not be claimed back, since
    the call now fails. *)
Theorem anyone_clears_identity origin who identified r s :
  ensure_signed origin = Ok who -> IdentityOf s !! identified = Some r -> 0 <= deposit r ->
  exists s', clear_identity origin identified s = Ok (tt, s') /\
    IdentityOf s' = delete identified (IdentityOf s) /\
    (forall other, other <> who -> held (world s') other = held (world s) other) /\
    (held (world s) who = 0 -> total_held (world s') = total_held (world s)) /\
    forall owner, is_ok (clear_identity owner identified s') = false.
Proof.
  intros Ho Hr Hd. unfold clear_identity, deposit_event.
  destruct (release_deposit_run who (total_deposit r) (s <| IdentityOf ::= delete identified |>)) as (w & m & Hrun & Hm & Ht & Hb & Hw).
  { done. }
  eexists. split.
  - unfold bind, ext, lift, ok_or, gets, id. rewrite Ho, Hr. unfold modify. cbn [world] in Hrun. rewrite Hrun. reflexivity.
  - cbn in *. split; [done|]. split; [done|]. split; [lia|]. intros owner.
    unfold bind, ext, lift, ok_or, gets, id. destruct (ensure_signed owner); [|done]. cbn. by rewrite lookup_delete_eq.
Qed.
End Registry.
