(* ===== verification/Commitments.v ===== *)
(** * The commitments pallet (src/pallets/commitments)

    A neuron stores a short commitment of fields on its subnet, some of them
    encrypted to a future round of the drand beacon, which the pallet opens by
    itself when the pulse of that round is known. The first part is the compact
    encoding of a field ([types.rs]), the second the pallet ([lib.rs]). *)

From S2P Require Import Prelude Frame Codec.
From stdpp Require Import prelude gmap list fin_maps fin_sets.
From Stdlib Require Import ZArith Lia.
#[local] Open Scope Z_scope.
#[local] Open Scope monad_scope.

(** ** types.rs *)

Definition MAX_TIMELOCK_COMMITMENT_SIZE_BYTES : Z := 1024.
Definition MAX_BIGRAW_COMMITMENT_SIZE_BYTES : Z := 512.

Inductive Data : Type :=
  | DNone
  | Raw (bytes : list Z)
  | BlakeTwo256 (h : list Z)
  | Sha256 (h : list Z)
  | Keccak256 (h : list Z)
  | ShaThree256 (h : list Z)
  | TimelockEncrypted (encrypted : list Z) (reveal_round : Z)
  | ResetBondsFlag
  | BigRaw (bigvec : list Z).
#[export] Instance Data_eq_dec : EqDecision Data.
Proof. solve_decision. Defined.

Definition is_none (d : Data) : bool := bool_decide (d = DNone).
Definition is_timelock_encrypted (d : Data) : bool := match d with TimelockEncrypted _ _ => true | _ => false end.

Definition len_for_rate_limit (d : Data) : Z :=
  match d with
  | DNone => 0
  | Raw bytes => Z.of_nat (length bytes)
  | BlakeTwo256 arr | Sha256 arr | Keccak256 arr | ShaThree256 arr => Z.of_nat (length arr)
  | TimelockEncrypted encrypted _ => Z.of_nat (length encrypted)
  | ResetBondsFlag => 0
  | BigRaw bytes => Z.of_nat (length bytes)
  end.

(** The bounds the Rust type puts on a field. *)
Definition data_ok (d : Data) : Prop :=
  match d with
  | DNone | ResetBondsFlag => True
  | Raw bytes => Z.of_nat (length bytes) <= 128
  | BlakeTwo256 h | Sha256 h | Keccak256 h | ShaThree256 h => length h = 32%nat
  | TimelockEncrypted encrypted reveal_round =>
      Z.of_nat (length encrypted) <= MAX_TIMELOCK_COMMITMENT_SIZE_BYTES /\ 0 <= reveal_round <= U64_MAX
  | BigRaw bigvec => Z.of_nat (length bigvec) <= MAX_BIGRAW_COMMITMENT_SIZE_BYTES
  end.

Section Coding.
Context {SC : ScaleCodec}.

(** [Decode for Data]: [None] is the decoding error. *)
Definition decode_data (input : list Z) : option (Data * list Z) :=
  dec! (b, input) := read_byte input in
  if b =? 0 then Some (DNone, input)
  else if (1 <=? b) && (b <=? 129) then
    dec! (r, input) := read (Z.to_nat (sat_sub b 1)) input in Some (Raw r, input)
  else if b =? 130 then dec! (h, input) := decode_array 32 input in Some (BlakeTwo256 h, input)
  else if b =? 131 then dec! (h, input) := decode_array 32 input in Some (Sha256 h, input)
  else if b =? 132 then dec! (h, input) := decode_array 32 input in Some (Keccak256 h, input)
  else if b =? 133 then dec! (h, input) := decode_array 32 input in Some (ShaThree256 h, input)
  else if b =? 134 then
    dec! (encrypted, input) := decode_bounded MAX_TIMELOCK_COMMITMENT_SIZE_BYTES input in
    dec! (reveal_round, input) := decode_u64 input in
    Some (TimelockEncrypted encrypted reveal_round, input)
  else if b =? 135 then Some (ResetBondsFlag, input)
  else if b =? 136 then
    dec! (bigvec, input) := decode_bounded MAX_BIGRAW_COMMITMENT_SIZE_BYTES input in Some (BigRaw bigvec, input)
  else None.

(** [Encode for Data] *)
Definition encode_data (d : Data) : list Z :=
  match d with
  | DNone => [0]
  | Raw x => sat_add 255 (Z.min (Z.of_nat (length x)) 128) 1 :: x
  | BlakeTwo256 h => 130 :: h
  | Sha256 h => 131 :: h
  | Keccak256 h => 132 :: h
  | ShaThree256 h => 133 :: h
  | TimelockEncrypted encrypted reveal_round => 134 :: encode_bytes encrypted ++ encode_u64 reveal_round
  | ResetBondsFlag => [135]
  | BigRaw bigvec => 136 :: encode_bytes bigvec
  end.

Context {SCL : ScaleCodecLaws}.

(** Every decoded field is within its bounds. *)
Lemma decode_data_ok input d rest : decode_data input = Some (d, rest) -> data_ok d.
Proof.
  unfold decode_data. intros H.
  repeat match type of H with
    | match ?x with _ => _ end = _ => let E := fresh "E" in destruct x eqn:E; simplify_eq
    | (let '(_, _) := ?p in _) = _ => destruct p
    end; try done.
  all: repeat match goal with p : _ * _ |- _ => destruct p end; simplify_eq; cbn;
    repeat match goal with
      | H : read _ _ = Some _ |- _ => apply read_inv in H as [_ H]
      | H : decode_array _ _ = Some _ |- _ => apply decode_array_inv in H as [_ H]
      | H : decode_bounded _ _ = Some _ |- _ => apply decode_bounded_length in H
      | H : decode_u64 _ = Some _ |- _ => apply decode_u64_range in H
      end; unfold sat_sub in *; try done; lia.
Qed.

(** C24: A field decodes to exactly what was encoded, whatever follows it, and
    whatever decodes is within the bounds of its variant: decoding is a left
    inverse of encoding, and encodings of fields can be put one after the
    other. *)
Theorem data_roundtrip d rest :
  data_ok d -> decode_data (encode_data d ++ rest) = Some (d, rest) /\
  forall input d' rest', decode_data input = Some (d', rest') -> data_ok d'.
Proof.
  intros Hd. split; [|intros ???; apply decode_data_ok].
  unfold decode_data. destruct d; cbn [encode_data app]; rewrite read_byte_cons; cbn in Hd; try done.
  - assert (sat_add 255 (Z.min (Z.of_nat (length bytes)) 128) 1 = Z.of_nat (length bytes) + 1) as -> by (unfold sat_add; lia).
    rewrite (proj2 (Z.eqb_neq _ 0)), (proj2 (Z.leb_le 1 _)), (proj2 (Z.leb_le _ 129)) by lia. cbn [andb].
    replace (Z.to_nat (sat_sub (Z.of_nat (length bytes) + 1) 1)) with (length bytes) by (unfold sat_sub; lia).
    by rewrite read_app.
  - cbn. by rewrite <- Hd, decode_array_app.
  - cbn. by rewrite <- Hd, decode_array_app.
  - cbn. by rewrite <- Hd, decode_array_app.
  - cbn. by rewrite <- Hd, decode_array_app.
  - destruct Hd as [Hl Hr]. cbn [Z.eqb Pos.eqb Z.leb Z.compare Pos.compare Pos.compare_cont andb].
    rewrite <- app_assoc, decode_encode_bounded by (unfold MAX_TIMELOCK_COMMITMENT_SIZE_BYTES in *; lia).
    by rewrite decode_encode_u64.
  - cbn [Z.eqb Pos.eqb Z.leb Z.compare Pos.compare Pos.compare_cont andb].
    by rewrite decode_encode_bounded by (unfold MAX_BIGRAW_COMMITMENT_SIZE_BYTES in *; lia).
Qed.
End Coding.

(** ** lib.rs: data *)

Abbreviation Bytes := (list Z).

Record CommitmentInfo := mkInfo { fields : list Data }.
Record UsageTracker := mkUsage { last_epoch : Z; used_space : Z }.
Record Registration := mkRegistration { deposit : Z; block : Z; info : CommitmentInfo }.
#[export] Instance Registration_eta : Eta Registration := fun x => mkRegistration (deposit x) (block x) (info x).

Inductive Event {FS : FrameSystem} : Type :=
  | Commitment (netuid : Z) (who : AccountId)
  | TimelockCommitment (netuid : Z) (who : AccountId) (reveal_round : Z)
  | CommitmentRevealed (netuid : Z) (who : AccountId).

Inductive Error :=
  | TooManyFieldsInCommitmentInfo | AccountNotAllowedCommit | SpaceLimitExceeded | UnexpectedUnreserveLeftover.

(** The constants of [Config]. *)
Record CommitmentsConfig := mkCommitmentsConfig { MaxFields : Z; InitialDeposit : Z; FieldDeposit : Z }.

Definition DefaultMaxSpace : Z := 3100.
Definition MAX_REVEALS : nat := 10.

(** The interfaces of the pallet: who may commit, what else happens on a
    commitment with a reset flag, the epochs of a subnet, and the currency
    ([unreserve] returns what it could not return). *)
Class CommitmentsEnv {FS : FrameSystem} (W : Type) := {
  block_number : W -> Z;
  can_commit : W -> Z -> AccountId -> bool;
  on_metadata_commitment : W -> Z -> AccountId -> W;
  get_epoch_index : W -> Z -> Z -> Z;
  reserved : W -> AccountId -> Z;
  reserve : W -> AccountId -> Z -> result DispatchError W;
  unreserve : W -> AccountId -> Z -> Z * W;
}.

(** The pulses of the drand pallet and the time-lock encryption of the crate tle. *)
Class Timelock (W : Type) := {
  pulse_signature : W -> Z -> option Bytes;
  Ciphertext : Type;
  Signature : Type;
  deserialize_commit : Bytes -> option Ciphertext;
  deserialize_signature : Bytes -> option Signature;
  tld : Ciphertext -> Signature -> option Bytes;
}.

(** Reserving adds exactly the amount; unreserving gives back as much of it as
    is there; a bond reset leaves the reserves alone. *)
Class CommitmentsEnvLaws {FS : FrameSystem} (W : Type) {CE : CommitmentsEnv W} := {
  reserved_nonneg : forall w a, 0 <= reserved w a;
  reserve_adds : forall w a n w' b, reserve w a n = Ok w' -> 0 <= n ->
    reserved w' b = if decide (b = a) then reserved w b + n else reserved w b;
  unreserve_takes : forall w a n m w', unreserve w a n = (m, w') -> 0 <= n ->
    m = n - Z.min n (reserved w a) /\
    forall b, reserved w' b = if decide (b = a) then reserved w b - Z.min n (reserved w a) else reserved w b;
  on_commitment_reserved : forall w n a b, reserved (on_metadata_commitment w n a) b = reserved w b;
}.

(** The order of a [BTreeSet] of subnets and accounts. *)
Class BTreeSetOrder {FS : FrameSystem} := {
  btree_elements : gset (Z * AccountId) -> list (Z * AccountId);
  btree_elements_perm : forall X, btree_elements X ≡ₚ elements X;
}.

Record State {FS : FrameSystem} {W : Type} := mkState {
  TimelockedIndex : gset (Z * AccountId);
  CommitmentOf : gmap (Z * AccountId) Registration;
  LastCommitment : gmap (Z * AccountId) Z;
  LastBondsReset : gmap (Z * AccountId) Z;
  RevealedCommitments : gmap (Z * AccountId) (list (Bytes * Z));
  UsedSpaceOf : gmap (Z * AccountId) UsageTracker;
  MaxSpace : Z;
  world : W;
  events : list Event;
}.
Arguments State {FS} W.
#[export] Instance State_eta {FS : FrameSystem} W : Eta (State W) :=
  fun x => mkState FS W (TimelockedIndex x) (CommitmentOf x) (LastCommitment x) (LastBondsReset x)
    (RevealedCommitments x) (UsedSpaceOf x) (MaxSpace x) (world x) (events x).

Section Commitments.
Context {FS : FrameSystem} {W : Type} {CE : CommitmentsEnv W} {TL : Timelock W} {BS : BTreeSetOrder}.
Context (cfg : CommitmentsConfig).
Abbreviation St := (State W).
Abbreviation Cm A := (M St (error Error) A).
Implicit Types (s : St) (netuid : Z) (who : AccountId) (k : Z * AccountId).

Definition genesis (w : W) : St := mkState FS W ∅ ∅ ∅ ∅ ∅ ∅ DefaultMaxSpace w [].

(** ** Calls *)

Definition put_event (e : Event) s : St := s <| events := events s ++ [e] |>.
Definition index_remove k s : St := s <| TimelockedIndex ::= fun X => X ∖ {[k]} |>.
Definition has_timelock (l : list Data) : bool := existsb is_timelock_encrypted l.

(** The space a commitment takes; the sum is far below the maximum of [u64]. *)
Definition required_space (i : CommitmentInfo) : Z := Z.max (foldr Z.add 0 (map len_for_rate_limit (fields i))) 100.

(** The usage of the running epoch. *)
Definition current_usage netuid who s : UsageTracker :=
  let usage := default (mkUsage 0 0) (UsedSpaceOf s !! (netuid, who)) in
  let current_epoch := get_epoch_index (world s) netuid (block_number (world s)) in
  if last_epoch usage =? current_epoch then usage else mkUsage current_epoch 0.

(** The two comparisons of the old deposit with the new one. *)
Definition adjust_deposit who (old_deposit new_deposit : Z) : Cm unit :=
  let* s := gets id in
  (if old_deposit <? new_deposit then
     let* w := ext (reserve (world s) who (sat_sub new_deposit old_deposit)) in
     modify (fun s => s <| world := w |>)
   else ret tt) ;;
  (if new_deposit <? old_deposit then
     let '(err_amount, w) := unreserve (world s) who (sat_sub old_deposit new_deposit) in
     modify (fun s => s <| world := w |>) ;;
     ensure (err_amount =? 0) (Module UnexpectedUnreserveLeftover)
   else ret tt).

Definition deposit_for (extra_fields : Z) : Z :=
  let fd := sat_mul U64_MAX extra_fields (FieldDeposit cfg) in
  sat_add U64_MAX (InitialDeposit cfg) fd.

(** A reset flag among the fields is noted and passed on. *)
Definition note_bonds_reset netuid who (i : CommitmentInfo) (cur_block : Z) s : St :=
  if existsb (fun d => bool_decide (d = ResetBondsFlag)) (fields i) then
    s <| LastBondsReset ::= <[(netuid, who) := cur_block]> |>
      <| world ::= fun w => on_metadata_commitment w netuid who |>
  else s.

(** The event of a commitment, and its place in the index. *)
Definition announce netuid who (i : CommitmentInfo) s : St :=
  match find is_timelock_encrypted (fields i) with
  | Some (TimelockEncrypted _ reveal_round) =>
      put_event (TimelockCommitment netuid who reveal_round) s
        <| TimelockedIndex ::= fun X => {[ (netuid, who) ]} ∪ X |>
  | _ => index_remove (netuid, who) (put_event (Commitment netuid who) s)
  end.

Definition set_commitment (origin : Origin) netuid (i : CommitmentInfo) : Cm unit :=
  let* who := ext (ensure_signed origin) in
  let* s := gets id in
  ensure (can_commit (world s) netuid who) (Module AccountNotAllowedCommit) ;;
  let extra_fields := Z.of_nat (length (fields i)) in
  ensure (extra_fields <=? MaxFields cfg) (Module TooManyFieldsInCommitmentInfo) ;;
  let cur_block := block_number (world s) in
  let usage := current_usage netuid who s in
  modify (note_bonds_reset netuid who i cur_block) ;;
  let used := sat_add U64_MAX (used_space usage) (required_space i) in
  ensure (used <=? MaxSpace s) (Module SpaceLimitExceeded) ;;
  modify (fun s => s <| UsedSpaceOf ::= <[(netuid, who) := mkUsage (last_epoch usage) used]> |>) ;;
  let old_deposit := from_option deposit 0 (CommitmentOf s !! (netuid, who)) in
  let id := mkRegistration (deposit_for extra_fields) cur_block i in
  adjust_deposit who old_deposit (deposit id) ;;
  modify (fun s => s <| CommitmentOf ::= <[(netuid, who) := id]> |>
                     <| LastCommitment ::= <[(netuid, who) := cur_block]> |>) ;;
  modify (announce netuid who i).

Definition set_rate_limit (origin : Origin) (rate_limit_blocks : Z) : Cm unit := ext (ensure_root origin) ;; ret tt.

Definition set_max_space (origin : Origin) (new_limit : Z) : Cm unit :=
  ext (ensure_root origin) ;; modify (fun s => s <| MaxSpace := new_limit |>).

(** ** Opening commitments *)

(** [strip_prefix(b"0x")] *)
Definition strip_0x (l : Bytes) : Bytes := match l with 48 :: 120 :: rest => rest | _ => l end.

(** One turn of the loop over the fields, which pushes the field to the
    remaining ones, its plain text to the revealed ones, or drops it. *)
Definition open_field (w : W) (acc : list Data * list Bytes) (data : Data) : list Data * list Bytes :=
  let '(remain_fields, revealed_fields) := acc in
  match data with
  | TimelockEncrypted encrypted reveal_round =>
      match pulse_signature w reveal_round with
      | None => (remain_fields ++ [TimelockEncrypted encrypted reveal_round], revealed_fields)
      | Some signature =>
          match deserialize_signature (strip_0x signature) with
          | None => (remain_fields, revealed_fields)
          | Some sig =>
              match deserialize_commit encrypted with
              | None => (remain_fields, revealed_fields)
              | Some commit =>
                  match default [] (tld commit sig) with
                  | [] => (remain_fields, revealed_fields)
                  | decrypted_bytes => (remain_fields, revealed_fields ++ [decrypted_bytes])
                  end
              end
          end
      end
  | other => (remain_fields ++ [other], revealed_fields)
  end.

(** The reveals are appended and the oldest dropped beyond ten. *)
Definition keep_last (l : list (Bytes * Z)) : list (Bytes * Z) :=
  if bool_decide (MAX_REVEALS < length l)%nat then drop (length l - MAX_REVEALS) l else l.

Definition store_reveals k (revealed_fields : list Bytes) s : St :=
  match revealed_fields with
  | [] => s
  | _ =>
      let existing_reveals := default [] (RevealedCommitments s !! k) in
      let block_u64 := block_number (world s) in
      let s := foldl (fun s _ => put_event (CommitmentRevealed k.1 k.2) s) s revealed_fields in
      s <| RevealedCommitments ::=
             <[k := keep_last (existing_reveals ++ map (fun b => (b, block_u64)) revealed_fields)]> |>
  end.

(** One turn of the loop over the index; [false] is the error of the bounded
    vector, which ends the loop. *)
Definition reveal_one s k : St * bool :=
  match CommitmentOf s !! k with
  | None => (index_remove k s, true)
  | Some registration =>
      let '(remain_fields, revealed_fields) := foldl (open_field (world s)) ([], []) (fields (info registration)) in
      let s := store_reveals k revealed_fields s in
      if MaxFields cfg <? Z.of_nat (length remain_fields) then (s, false)
      else
        let registration := registration <| info := mkInfo remain_fields |> in
        match remain_fields with
        | [] => (index_remove k (s <| CommitmentOf ::= delete k |>), true)
        | _ =>
            let s := s <| CommitmentOf ::= <[k := registration]> |> in
            (if has_timelock remain_fields then s else index_remove k s, true)
        end
  end.

Fixpoint reveal_loop (index : list (Z * AccountId)) s : St * bool :=
  match index with
  | [] => (s, true)
  | k :: index => let '(s, ok) := reveal_one s k in if ok then reveal_loop index s else (s, false)
  end.

Definition reveal_timelocked_commitments s : St * bool := reveal_loop (btree_elements (TimelockedIndex s)) s.

Definition on_initialize s : St := (reveal_timelocked_commitments s).1.

(** ** What opening does *)

(** A field stays while it is not encrypted or its pulse is not known yet. *)
Definition stays (w : W) (d : Data) : bool :=
  match d with TimelockEncrypted _ r => bool_decide (pulse_signature w r = None) | _ => true end.

(** The plain text of a field whose pulse is known, when it opens to one. *)
Definition opened (w : W) (d : Data) : option Bytes :=
  match d with
  | TimelockEncrypted encrypted r =>
      dec! signature := pulse_signature w r in
      dec! sig := deserialize_signature (strip_0x signature) in
      dec! commit := deserialize_commit encrypted in
      dec! plain := tld commit sig in
      match plain with [] => None | _ => Some plain end
  | _ => None
  end.

Definition remaining (w : W) (l : list Data) : list Data := filter (fun d => stays w d = true) l.

Definition after_reveal (w : W) (r : Registration) : option Registration :=
  match remaining w (fields (info r)) with [] => None | l => Some (r <| info := mkInfo l |>) end.

Definition reveals_after s k (r : Registration) : option (list (Bytes * Z)) :=
  match omap (opened (world s)) (fields (info r)) with
  | [] => RevealedCommitments s !! k
  | l => Some (keep_last (default [] (RevealedCommitments s !! k) ++ map (fun b => (b, block_number (world s))) l))
  end.

Definition timelocked s k : bool :=
  match CommitmentOf s !! k with Some r => has_timelock (fields (info r)) | None => false end.

Lemma open_fields w l : forall acc, foldl (open_field w) acc l = (acc.1 ++ remaining w l, acc.2 ++ omap (opened w) l).
Proof.
  unfold remaining. induction l as [|d l IH]; intros [x y].
  { cbn. by rewrite !app_nil_r. }
  cbn [foldl]. rewrite IH. clear IH. cbn [fst snd]. rewrite filter_cons. cbn [omap list_omap].
  destruct d as [| | | | | |e r| |]; try (cbn; by rewrite <- app_assoc).
  cbn [open_field stays opened]. destruct (pulse_signature w r) as [sg|]; cbn [mbind option_bind].
  - rewrite bool_decide_false by done. cbn.
    destruct (deserialize_signature (strip_0x sg)) as [sig|]; cbn; [|done].
    destruct (deserialize_commit e) as [c|]; cbn; [|done].
    destruct (tld c sig) as [[|b pl]|]; cbn; try done. by rewrite <- app_assoc.
  - rewrite bool_decide_true by done. cbn. by rewrite <- app_assoc.
Qed.

Lemma store_events k (l : list Bytes) s :
  let s' := foldl (fun s _ => put_event (CommitmentRevealed k.1 k.2) s) s l in
  exists evs, s' = s <| events := evs |>.
Proof.
  cbv zeta. revert s. induction l as [|b l IH]; intros s; cbn; [exists (events s); by destruct s|].
  destruct (IH (put_event (CommitmentRevealed k.1 k.2) s)) as [evs ->]. exists evs. by destruct s.
Qed.

Lemma store_reveals_frame k l s :
  let s' := store_reveals k l s in
  exists evs rev, s' = s <| events := evs |> <| RevealedCommitments := rev |> /\
    (forall j, j <> k -> rev !! j = RevealedCommitments s !! j) /\
    rev !! k = match l with [] => RevealedCommitments s !! k
      | _ => Some (keep_last (default [] (RevealedCommitments s !! k) ++ map (fun b => (b, block_number (world s))) l)) end.
Proof.
  cbv zeta. unfold store_reveals. destruct l as [|b l].
  - exists (events s), (RevealedCommitments s). by destruct s.
  - destruct (store_events k (b :: l) s) as [evs ->]. eexists evs, _. split; [by destruct s|].
    destruct s; cbn. split; [|by rewrite lookup_insert_eq]. intros j Hj. by rewrite lookup_insert_ne.
Qed.

(** One entry of the index. *)
Lemma reveal_one_spec s k :
  (forall r, CommitmentOf s !! k = Some r -> Z.of_nat (length (fields (info r))) <= MaxFields cfg) ->
  exists s', reveal_one s k = (s', true) /\ world s' = world s /\
    CommitmentOf s' = partial_alter (fun o => o ≫= after_reveal (world s)) k (CommitmentOf s) /\
    (forall j, j <> k -> RevealedCommitments s' !! j = RevealedCommitments s !! j) /\
    RevealedCommitments s' !! k =
      match CommitmentOf s !! k with Some r => reveals_after s k r | None => RevealedCommitments s !! k end /\
    TimelockedIndex s' = if timelocked s' k then TimelockedIndex s else TimelockedIndex s ∖ {[k]}.
Proof.
  intros Hn. unfold reveal_one, timelocked. destruct (CommitmentOf s !! k) as [r|] eqn:Er.
  2: { eexists. split; [done|]. cbn. split; [done|]. rewrite Er. split; [|done]. apply map_eq. intros j.
       destruct (decide (j = k)) as [->|Hj]; [by rewrite lookup_partial_alter_eq, Er|by rewrite lookup_partial_alter_ne]. }
  rewrite open_fields. cbn [fst snd app]. fold (remaining (world s) (fields (info r))). unfold reveals_after.
  destruct (store_reveals_frame k (omap (opened (world s)) (fields (info r))) s) as (evs & rev & -> & Hj & Hk).
  assert (length (remaining (world s) (fields (info r))) <= length (fields (info r)))%nat as Hl by apply length_filter.
  specialize (Hn _ eq_refl). rewrite (proj2 (Z.ltb_ge _ _)) by lia.
  destruct (remaining (world s) (fields (info r))) as [|d l] eqn:El.
  - eexists. split; [done|]. split; [by destruct s|]. split; [|split; [|split]].
    + cbn. apply map_eq. intros j. destruct (decide (j = k)) as [->|Hjk].
      * rewrite lookup_partial_alter_eq, lookup_delete_eq, Er. cbn. unfold after_reveal. by rewrite El.
      * by rewrite lookup_partial_alter_ne, lookup_delete_ne by done.
    + intros j Hjk. rewrite <- Hj by done. by destruct s.
    + trans (rev !! k); [by destruct s|]. rewrite Hk. by destruct (omap _ _).
    + cbn. rewrite lookup_delete_eq. by destruct s.
  - assert (forall f : bool, exists s', ((if f then (s <| events := evs |> <| RevealedCommitments := rev |>
        <| CommitmentOf ::= <[k := r <| info := mkInfo (d :: l) |>]> |>) else
      index_remove k (s <| events := evs |> <| RevealedCommitments := rev |>
        <| CommitmentOf ::= <[k := r <| info := mkInfo (d :: l) |>]> |>)), true) = (s', true) /\ world s' = world s /\
      CommitmentOf s' = <[k := r <| info := mkInfo (d :: l) |>]> (CommitmentOf s) /\ RevealedCommitments s' = rev /\
      TimelockedIndex s' = if f then TimelockedIndex s else TimelockedIndex s ∖ {[k]}) as Hf.
    { intros f. eexists. split; [done|]. by destruct f, s. }
    destruct (Hf (has_timelock (d :: l))) as (s' & Hs & Hw & Hc & Hr & Hi). exists s'. split; [exact Hs|].
    split; [done|]. rewrite Hc, Hr, Hi, lookup_insert_eq. split_and!; [|done|by rewrite Hk; destruct (omap _ _)|done].
    apply map_eq. intros j. destruct (decide (j = k)) as [->|Hjk].
    + rewrite lookup_partial_alter_eq, lookup_insert_eq, Er. cbn. unfold after_reveal. by rewrite El.
    + by rewrite lookup_partial_alter_ne, lookup_insert_ne by done.
Qed.

Lemma decide_cons_ne {A} (j k : Z * AccountId) l (a b : A) :
  j <> k -> (if decide (j ∈ k :: l) then a else b) = if decide (j ∈ l) then a else b.
Proof. intros Hj. destruct (decide (j ∈ k :: l)), (decide (j ∈ l)); try done; set_solver. Qed.
Lemma decide_cons_eq {A} (k : Z * AccountId) l (a b : A) : (if decide (k ∈ k :: l) then a else b) = a.
Proof. apply decide_True. set_solver. Qed.

Lemma reveal_loop_spec l : NoDup l -> forall s,
  (forall k r, CommitmentOf s !! k = Some r -> Z.of_nat (length (fields (info r))) <= MaxFields cfg) ->
  exists s', reveal_loop l s = (s', true) /\ world s' = world s /\
    (forall k, CommitmentOf s' !! k =
       if decide (k ∈ l) then CommitmentOf s !! k ≫= after_reveal (world s) else CommitmentOf s !! k) /\
    (forall k, RevealedCommitments s' !! k =
       if decide (k ∈ l) then match CommitmentOf s !! k with Some r => reveals_after s k r | None => RevealedCommitments s !! k end
       else RevealedCommitments s !! k) /\
    (forall k, k ∈ TimelockedIndex s' <-> k ∈ TimelockedIndex s /\ (k ∈ l -> timelocked s' k = true)).
Proof.
  induction 1 as [|k l Hk Hl IH]; intros s Hn.
  { exists s. split_and!; try done. intros k. set_solver. }
  destruct (reveal_one_spec s k (Hn k)) as (s1 & H1 & Hw1 & Hc1 & Hr1 & Hr1k & Hi1).
  assert (forall j, j <> k -> CommitmentOf s1 !! j = CommitmentOf s !! j) as Hc1j.
  { intros j Hj. by rewrite Hc1, lookup_partial_alter_ne. }
  destruct (IH s1) as (s' & H2 & Hw2 & Hc2 & Hr2 & Hi2).
  { intros j r. destruct (decide (j = k)) as [->|Hj]; [|rewrite Hc1j by done; apply Hn].
    rewrite Hc1, lookup_partial_alter_eq. destruct (CommitmentOf s !! k) as [r0|] eqn:E0; [|done].
    cbn. unfold after_reveal. destruct (remaining _ _) eqn:El; [done|]. intros [= <-].
    specialize (Hn _ _ E0). pose proof (length_filter (fun d => stays (world s) d = true) (fields (info r0))) as Hlen.
    unfold remaining in El. rewrite El in Hlen. cbn in *. lia. }
  exists s'. cbn [reveal_loop]. rewrite H1. split; [done|]. split; [congruence|].
  assert (timelocked s' k = timelocked s1 k) as Htl.
  { unfold timelocked. by rewrite Hc2, decide_False. }
  split_and!; intros j.
  - rewrite Hc2, Hw1. destruct (decide (j = k)) as [->|Hj].
    + by rewrite decide_False, decide_cons_eq, Hc1, lookup_partial_alter_eq.
    + by rewrite Hc1j, decide_cons_ne.
  - rewrite Hr2. destruct (decide (j = k)) as [->|Hj].
    + by rewrite decide_False, decide_cons_eq.
    + unfold reveals_after. by rewrite Hc1j, Hr1, Hw1, decide_cons_ne.
  - rewrite Hi2, Hi1, <- Htl. rewrite elem_of_cons. clear -Hk. destruct (timelocked s' k) eqn:E.
    + split; [|tauto]. intros [H3 H4]. split; [done|]. intros [->|H5]; auto.
    + rewrite elem_of_difference, elem_of_singleton. split.
      * intros [[H3 Hj] H4]. split; [done|]. intros [->|H5]; [done|auto].
      * intros [H3 H4]. split_and!; [done| |auto]. intros ->. rewrite H4 in E by auto. done.
Qed.

(** ** The books of the pallet *)

Context {CEL : CommitmentsEnvLaws W}.

(** What the commitments of an account say it has on deposit. *)
Definition deposits_of (a : AccountId) (m : gmap (Z * AccountId) Registration) : Z :=
  map_sum (deposit <$> filter (fun kr => kr.1.2 = a) m).

Definition config_ok : Prop := 0 <= InitialDeposit cfg <= U64_MAX /\ 0 <= FieldDeposit cfg <= U64_MAX.

(** The index names exactly the commitments with an encrypted field, the sizes
    are within their bounds, and the deposits of every account are reserved. *)
Record commitments_ok s : Prop := {
  co_index : forall k, k ∈ TimelockedIndex s <-> timelocked s k = true;
  co_fields : map_Forall (fun _ r => Z.of_nat (length (fields (info r))) <= MaxFields cfg /\ 0 <= deposit r) (CommitmentOf s);
  co_reveals : map_Forall (fun _ l => (length l <= MAX_REVEALS)%nat) (RevealedCommitments s);
  co_deposits : forall a, deposits_of a (CommitmentOf s) <= reserved (world s) a;
}.

Lemma deposit_for_nonneg n : config_ok -> 0 <= n -> 0 <= deposit_for n.
Proof. intros [? ?] ?. unfold deposit_for, sat_add, sat_mul. nia. Qed.

Lemma deposits_of_nonneg a m : map_Forall (fun _ r => 0 <= deposit r) m -> 0 <= deposits_of a m.
Proof.
  intros Hm. apply map_sum_nonneg. intros k v. rewrite lookup_fmap. intros (r & Hr & ->)%fmap_Some.
  apply map_lookup_filter_Some in Hr as [Hr _]. by apply (Hm k r).
Qed.

Lemma deposits_of_insert a k r m :
  deposits_of a (<[k := r]> m) =
    deposits_of a m + if decide (k.2 = a) then deposit r - from_option deposit 0 (m !! k) else 0.
Proof.
  unfold deposits_of. destruct (decide (k.2 = a)) as [Ha|Ha].
  - rewrite map_filter_insert_True by done. rewrite fmap_insert. destruct (m !! k) as [r0|] eqn:E; cbn.
    + rewrite (map_sum_insert_Some _ _ (deposit r0)); [lia|]. rewrite lookup_fmap.
      rewrite map_lookup_filter, E. cbn. by case_guard.
    + rewrite map_sum_insert_None; [lia|]. by rewrite lookup_fmap, map_lookup_filter, E.
  - rewrite map_filter_insert_False by done. rewrite map_filter_delete, delete_id; [lia|].
    apply map_lookup_filter_None. right. by intros ? _.
Qed.

Lemma keep_last_length l : (length (keep_last l) <= MAX_REVEALS)%nat.
Proof. unfold keep_last. case_bool_decide; [rewrite length_drop|]; lia. Qed.

Lemma adjust_deposit_run who old new s s' : 0 <= old -> 0 <= new -> adjust_deposit who old new s = Ok (tt, s') ->
  exists w, s' = s <| world := w |> /\ reserved w who = reserved (world s) who + new - old /\
    forall b, b <> who -> reserved w b = reserved (world s) b.
Proof.
  intros Ho Hn H. unfold adjust_deposit in H. monad_inv H; cbn [id] in *.
  all: repeat match goal with u : unit |- _ => destruct u end; try lia.
  - match goal with Hh : reserve _ _ _ = Ok ?w |- _ =>
      exists w; split; [done|]; split; [rewrite (reserve_adds _ _ _ _ _ Hh), decide_True|
        intros b Hb; rewrite (reserve_adds _ _ _ _ _ Hh), decide_False] end; unfold sat_sub; auto; lia.
  - match goal with Hu : unreserve _ _ _ = (?m, ?w) |- _ =>
      destruct (unreserve_takes _ _ _ _ _ Hu) as [Hm Hr]; [unfold sat_sub; lia|]; exists w end.
    split; [done|]. split; [rewrite Hr, decide_True by done|intros b Hb; by rewrite Hr, decide_False].
    unfold sat_sub in *. lia.
  - lazymatch goal with |- exists w, ?x = _ /\ _ => exists (world x); split; [by destruct x|split; [lia|done]] end.
Qed.

Lemma announce_frame netuid who i s : exists evs,
  announce netuid who i s = s <| events := evs |>
    <| TimelockedIndex := if has_timelock (fields i) then {[ (netuid, who) ]} ∪ TimelockedIndex s
                          else TimelockedIndex s ∖ {[ (netuid, who) ]} |>.
Proof.
  unfold announce, has_timelock. destruct (find _ _) as [d|] eqn:E.
  - apply find_some in E as [Hin Hd]. destruct d; try done.
    rewrite (proj2 (existsb_exists _ _)) by eauto. eexists. by destruct s.
  - destruct (existsb _ _) eqn:E2; [|eexists; by destruct s].
    apply existsb_exists in E2 as (d & Hin & Hd). by rewrite (find_none _ _ E _ Hin) in Hd.
Qed.

Lemma note_bonds_reset_frame netuid who i b s : exists resets w,
  note_bonds_reset netuid who i b s = s <| LastBondsReset := resets |> <| world := w |> /\
  forall a, reserved w a = reserved (world s) a.
Proof.
  unfold note_bonds_reset. destruct (existsb _ _).
  - eexists _, _. split; [by destruct s|]. intros a. apply on_commitment_reserved.
  - exists (LastBondsReset s), (world s). by destruct s.
Qed.

(** [set_commitment] in one equation. *)
Lemma set_commitment_run origin netuid i s s' : config_ok -> commitments_ok s -> set_commitment origin netuid i s = Ok (tt, s') ->
  exists who, ensure_signed origin = Ok who /\ Z.of_nat (length (fields i)) <= MaxFields cfg /\
    CommitmentOf s' = <[(netuid, who) := mkRegistration (deposit_for (Z.of_nat (length (fields i)))) (block_number (world s)) i]>
      (CommitmentOf s) /\
    TimelockedIndex s' =
      (if has_timelock (fields i) then {[ (netuid, who) ]} ∪ TimelockedIndex s else TimelockedIndex s ∖ {[ (netuid, who) ]}) /\
    RevealedCommitments s' = RevealedCommitments s /\
    reserved (world s') who = reserved (world s) who + deposit_for (Z.of_nat (length (fields i)))
      - from_option deposit 0 (CommitmentOf s !! (netuid, who)) /\
    forall b, b <> who -> reserved (world s') b = reserved (world s) b.
Proof.
  intros Hc [_ Hf _ _] H. unfold set_commitment in H. monad_inv H; cbn [id] in *.
  match goal with Ho : ensure_signed _ = Ok ?a |- _ => exists a; rename a into who end. split; [done|]. split; [lia|].
  assert (0 <= from_option deposit 0 (CommitmentOf s !! (netuid, who))) as Hold.
  { destruct (CommitmentOf s !! _) as [r|] eqn:E; [|done]. cbn. by apply (map_Forall_lookup_1 _ _ _ _ Hf) in E as [_ ?]. }
  repeat match goal with u : unit |- _ => destruct u end.
  apply adjust_deposit_run in Hm as (w & -> & Hw & Hb); [|done|apply deposit_for_nonneg; [done|lia]].
  destruct (note_bonds_reset_frame netuid who i (block_number (world s)) s) as (resets & w0 & Hnote & Hw0).
  rewrite Hnote in *.
  match goal with |- context [announce _ _ _ ?x] => destruct (announce_frame netuid who i x) as [evs ->] end.
  destruct s; cbn in *. rewrite Hw, Hw0. split_and!; try done. intros b Hne. by rewrite Hb, Hw0.
Qed.

Inductive commitments_step s : St -> Prop :=
  | step_set origin netuid i s' : set_commitment origin netuid i s = Ok (tt, s') -> commitments_step s s'
  | step_max_space origin n s' : set_max_space origin n s = Ok (tt, s') -> commitments_step s s'
  | step_block : commitments_step s (on_initialize s)
  (** the rest of the chain, which leaves these reserves alone *)
  | step_other w : (forall a, reserved w a = reserved (world s) a) -> commitments_step s (s <| world := w |>).

Lemma set_commitment_keeps origin netuid i s s' :
  config_ok -> commitments_ok s -> set_commitment origin netuid i s = Ok (tt, s') -> commitments_ok s'.
Proof.
  intros Hc Hok H. destruct (set_commitment_run _ _ _ _ _ Hc Hok H) as (who & _ & Hn & Ec & Ei & Er & Hw & Hb).
  destruct Hok as [Hi Hf Hr Hd]. split.
  - intros k. unfold timelocked. rewrite Ec, Ei. destruct (decide (k = (netuid, who))) as [->|Hk].
    + rewrite lookup_insert_eq. cbn. destruct (has_timelock (fields i)); set_solver.
    + rewrite lookup_insert_ne by done. specialize (Hi k). unfold timelocked in Hi. rewrite <- Hi.
      destruct (has_timelock (fields i)); set_solver.
  - rewrite Ec. apply map_Forall_insert_2; [|done]. split; [done|]. cbn. by apply deposit_for_nonneg; [|lia].
  - by rewrite Er.
  - intros a. rewrite Ec, deposits_of_insert. specialize (Hd a). cbn [snd deposit]. destruct (decide (who = a)) as [<-|Ha].
    + rewrite Hw. lia.
    + rewrite Hb by done. lia.
Qed.

Lemma deposits_of_reveal a w k m : map_Forall (fun _ r => 0 <= deposit r) m ->
  deposits_of a (partial_alter (fun o => o ≫= after_reveal w) k m) <= deposits_of a m.
Proof.
  intros Hm. destruct (m !! k) as [r|] eqn:E.
  - destruct (after_reveal w r) as [r'|] eqn:Er.
    + assert (partial_alter (fun o => o ≫= after_reveal w) k m = <[k := r']> m) as ->.
      { apply map_eq. intros j. destruct (decide (j = k)) as [->|]; [|by rewrite lookup_partial_alter_ne, lookup_insert_ne].
        by rewrite lookup_partial_alter_eq, lookup_insert_eq, E. }
      rewrite deposits_of_insert, E. cbn. unfold after_reveal in Er. destruct (remaining _ _); [done|].
      simplify_eq. cbn. case_decide; lia.
    + assert (partial_alter (fun o => o ≫= after_reveal w) k m = delete k m) as ->.
      { apply map_eq. intros j. destruct (decide (j = k)) as [->|]; [|by rewrite lookup_partial_alter_ne, lookup_delete_ne].
        by rewrite lookup_partial_alter_eq, lookup_delete_eq, E. }
      pose proof (deposits_of_insert a k r (delete k m)) as Hi. rewrite insert_delete_eq, lookup_delete_eq in Hi.
      rewrite insert_id in Hi by done. cbn in Hi. pose proof (map_Forall_lookup_1 _ _ _ _ Hm E). cbn in *. case_decide; lia.
  - assert (partial_alter (fun o => o ≫= after_reveal w) k m = m) as ->; [|lia].
    apply map_eq. intros j. destruct (decide (j = k)) as [->|]; [|by rewrite lookup_partial_alter_ne].
    by rewrite lookup_partial_alter_eq, E.
Qed.

Lemma after_reveal_inv w r r' : after_reveal w r = Some r' ->
  fields (info r') = remaining w (fields (info r)) /\ deposit r' = deposit r /\
  (length (fields (info r')) <= length (fields (info r)))%nat /\
  (has_timelock (fields (info r')) = true -> has_timelock (fields (info r)) = true).
Proof.
  unfold after_reveal. intros H.
  assert (r' = r <| info := mkInfo (remaining w (fields (info r))) |>) as -> by (destruct (remaining _ _); by simplify_eq).
  split_and!; [done|done|apply length_filter|].
  intros (d & Hd & Ht)%existsb_exists. apply existsb_exists. exists d. split; [|done].
  cbn in Hd. apply list_elem_of_In, list_elem_of_filter in Hd as [_ Hd]. by apply list_elem_of_In.
Qed.

Lemma reveal_one_keeps s k : commitments_ok s ->
  exists s', reveal_one s k = (s', true) /\ commitments_ok s'.
Proof.
  intros [Hi Hf Hr Hd]. destruct (reveal_one_spec s k) as (s' & H & Hw & Hc & Hrj & Hrk & Hti).
  { intros r E. by apply (map_Forall_lookup_1 _ _ _ _ Hf) in E as [? _]. }
  exists s'. split; [done|]. split.
  - intros j. rewrite Hti. destruct (decide (j = k)) as [->|Hj].
    + destruct (timelocked s' k) eqn:E; [|set_solver]. rewrite Hi. split; [done|]. intros _. revert E. unfold timelocked.
      rewrite Hc, lookup_partial_alter_eq. destruct (CommitmentOf s !! k) as [r|]; [|done]. cbn.
      destruct (after_reveal (world s) r) eqn:Ea; [|done]. by apply after_reveal_inv in Ea as (_ & _ & _ & ?).
    + assert (timelocked s' j = timelocked s j) as -> by (unfold timelocked; by rewrite Hc, lookup_partial_alter_ne).
      rewrite <- Hi. destruct (timelocked s' k); set_solver.
  - rewrite Hc. intros j r'. destruct (decide (j = k)) as [->|Hj].
    + rewrite lookup_partial_alter_eq. destruct (CommitmentOf s !! k) as [r|] eqn:E; [|done]. cbn. intros Ha.
      apply after_reveal_inv in Ha as (_ & -> & Hl & _). apply (map_Forall_lookup_1 _ _ _ _ Hf) in E as [? ?]. lia.
    + rewrite lookup_partial_alter_ne by done. apply Hf.
  - intros j l. destruct (decide (j = k)) as [->|Hj]; [|rewrite Hrj by done; apply Hr].
    rewrite Hrk. destruct (CommitmentOf s !! k) as [r|]; [|apply Hr]. unfold reveals_after.
    destruct (omap _ _); [apply Hr|]. intros [= <-]. apply keep_last_length.
  - intros a. rewrite Hc, Hw. etransitivity; [|apply Hd]. apply deposits_of_reveal. by eapply map_Forall_impl; [exact Hf|intros ?? []].
Qed.

Lemma reveal_loop_keeps l : forall s, commitments_ok s -> exists s', reveal_loop l s = (s', true) /\ commitments_ok s'.
Proof.
  induction l as [|k l IH]; intros s Hs; [by exists s|].
  destruct (reveal_one_keeps s k Hs) as (s1 & H1 & Hs1). cbn [reveal_loop]. rewrite H1. by apply IH.
Qed.

Lemma genesis_ok w : commitments_ok (genesis w).
Proof.
  split; cbn.
  - intros k. unfold timelocked. cbn. rewrite lookup_empty. set_solver.
  - apply map_Forall_empty.
  - apply map_Forall_empty.
  - intros a. unfold deposits_of. rewrite map_filter_empty, fmap_empty, map_sum_empty. apply reserved_nonneg.
Qed.

(** C12: In every state the pallet reaches from one without commitments the
    index names exactly the commitments that still have an encrypted field, no
    commitment has more fields than allowed, at most ten reveals are kept for
    an account, and what the books say an account has on deposit is reserved
    on its balance. *)
Theorem commitments_stay_consistent w s : config_ok -> rtc commitments_step (genesis w) s -> commitments_ok s.
Proof.
  intros Hc. pose proof (genesis_ok w) as H0. revert H0. generalize (genesis w) as s0. clear w. intros s0 H0 Hr. induction Hr as [|x y z Hxy _ IH]; [done|].
  apply IH. clear IH. destruct Hxy as [o n i y H|o n y H| |w Hw].
  - by eapply set_commitment_keeps.
  - unfold set_max_space in H. monad_inv H. by destruct H0.
  - destruct (reveal_loop_keeps (btree_elements (TimelockedIndex x)) x H0) as (s' & H & Hs').
    unfold on_initialize, reveal_timelocked_commitments. by rewrite H.
  - destruct H0 as [? ? ? Hd]. split; [done..|]. intros a. cbn. by rewrite Hw.
Qed.

Lemma index_elements k s : k ∈ btree_elements (TimelockedIndex s) <-> k ∈ TimelockedIndex s.
Proof. by rewrite btree_elements_perm, elem_of_elements. Qed.

(** C13: The pass over the index at the start of a block never fails on such
    books. It treats every indexed commitment on its own and exactly once: the
    fields whose pulse is known leave it, what opens is appended to the last
    ten reveals, a commitment without fields left disappears, and everything
    else stays; afterwards no field whose pulse is known is left anywhere. *)
Theorem reveal_opens_what_is_due s :
  commitments_ok s ->
  exists s', reveal_timelocked_commitments s = (s', true) /\
    (forall k, CommitmentOf s' !! k =
       if decide (k ∈ TimelockedIndex s) then CommitmentOf s !! k ≫= after_reveal (world s) else CommitmentOf s !! k) /\
    (forall k, RevealedCommitments s' !! k =
       if decide (k ∈ TimelockedIndex s)
       then match CommitmentOf s !! k with Some r => reveals_after s k r | None => RevealedCommitments s !! k end
       else RevealedCommitments s !! k) /\
    (forall k r encrypted round, CommitmentOf s' !! k = Some r -> TimelockEncrypted encrypted round ∈ fields (info r) ->
       pulse_signature (world s') round = None).
Proof.
  intros [Hi Hf _ _].
  destruct (reveal_loop_spec (btree_elements (TimelockedIndex s))) with (s := s) as (s' & H & Hw & Hc & Hr & _).
  { rewrite btree_elements_perm. apply NoDup_elements. }
  { intros k r E. by apply (map_Forall_lookup_1 _ _ _ _ Hf) in E as [? _]. }
  exists s'. split; [done|]. split_and!.
  - intros k. rewrite Hc. apply decide_ext, index_elements.
  - intros k. rewrite Hr. apply decide_ext, index_elements.
  - intros k r e round. rewrite Hw, Hc. destruct (decide _) as [Hk|Hk].
    + destruct (CommitmentOf s !! k) as [r0|]; [|done]. cbn. intros Ha Hin.
      apply after_reveal_inv in Ha as (Ha & _). rewrite Ha in Hin. apply list_elem_of_filter in Hin as [Hs _].
      by apply bool_decide_eq_true in Hs.
    + intros E Hin. rewrite index_elements, Hi in Hk. destruct Hk. unfold timelocked. rewrite E.
      apply existsb_exists. exists (TimelockEncrypted e round). split; [by apply list_elem_of_In|done].
Qed.

Lemma adjust_deposit_no_leftover who old new s :
  0 <= old <= reserved (world s) who -> 0 <= new -> adjust_deposit who old new s <> Err (Module UnexpectedUnreserveLeftover).
Proof.
  intros Ho Hn. unfold adjust_deposit, bind, gets, modify, ret, ext, ensure, id. destruct (Z.ltb_spec old new).
  - destruct (reserve _ _ _); [|done]. rewrite (proj2 (Z.ltb_ge new old)) by lia. done.
  - destruct (Z.ltb_spec new old); [|done].
    destruct (unreserve (world s) who (sat_sub old new)) as [m w] eqn:Eu.
    destruct (unreserve_takes _ _ _ _ _ Eu) as [-> _]; [unfold sat_sub; lia|]. unfold sat_sub.
    rewrite (proj2 (Z.eqb_eq _ 0)) by lia. done.
Qed.

(** On such books [set_commitment] never fails because of the deposit it
    gives back: the error [UnexpectedUnreserveLeftover] cannot occur. *)
Theorem unreserve_leaves_nothing origin netuid i s :
  config_ok -> commitments_ok s -> set_commitment origin netuid i s <> Err (Module UnexpectedUnreserveLeftover).
Proof.
  intros Hc [_ Hf _ Hd]. unfold set_commitment. unfold bind at 1. unfold ext. destruct (ensure_signed origin) as [who|]; [|done].
  unfold bind at 1, gets at 1, id. do 2 (unfold bind at 1, ensure at 1; destruct (_ : bool); [|done]).
  unfold bind at 1, modify at 1. unfold bind at 1, ensure at 1. destruct (_ <=? _); [|done].
  unfold bind at 1, modify at 1. unfold bind at 1.
  destruct (note_bonds_reset_frame netuid who i (block_number (world s)) s) as (resets & w0 & -> & Hw0).
  match goal with |- match adjust_deposit ?a ?b ?c ?x with _ => _ end <> _ =>
    pose proof (adjust_deposit_no_leftover a b c x) as Hn; destruct (adjust_deposit a b c x) as [[[] y]|e] end; [done|].
  intros H. apply Hn; [|apply deposit_for_nonneg; [done|lia]|congruence]. cbn. rewrite Hw0.
  destruct (CommitmentOf s !! (netuid, who)) as [r|] eqn:E; cbn; [|split; [done|apply reserved_nonneg]].
  pose proof (map_Forall_lookup_1 _ _ _ _ Hf E) as [_ Hr]. split; [done|]. etransitivity; [|apply Hd].
  apply (map_sum_lookup_le _ (netuid, who)).
  - intros j v. rewrite lookup_fmap. intros (r' & Hj & ->)%fmap_Some. apply map_lookup_filter_Some in Hj as [Hj _].
    by apply (map_Forall_lookup_1 _ _ _ _ Hf) in Hj as [_ ?].
  - rewrite lookup_fmap, map_lookup_filter, E. cbn. by case_guard.
Qed.

(** The deposit of a commitment whose last field is opened is not given
    back: the commitment is gone, nothing that was reserved is released, and the
    next commitment of the account on the subnet reserves its full price on top. *)
Theorem opened_deposit_is_kept netuid who r s :
  config_ok -> commitments_ok s -> (netuid, who) ∈ TimelockedIndex s -> CommitmentOf s !! (netuid, who) = Some r ->
  remaining (world s) (fields (info r)) = [] ->
  CommitmentOf (on_initialize s) !! (netuid, who) = None /\
  (forall a, reserved (world (on_initialize s)) a = reserved (world s) a) /\
  forall origin i s', ensure_signed origin = Ok who -> set_commitment origin netuid i (on_initialize s) = Ok (tt, s') ->
    reserved (world s') who = reserved (world s) who + deposit_for (Z.of_nat (length (fields i))).
Proof.
  intros Hc Hok Hk Er Hrem. unfold on_initialize, reveal_timelocked_commitments.
  destruct (reveal_loop_spec (btree_elements (TimelockedIndex s))) with (s := s) as (s1 & H & Hw & Hco & _ & _).
  { rewrite btree_elements_perm. apply NoDup_elements. }
  { intros k r0 E. by apply (map_Forall_lookup_1 _ _ _ _ (co_fields _ Hok)) in E as [? _]. }
  destruct (reveal_loop_keeps (btree_elements (TimelockedIndex s)) s Hok) as (s2 & H2 & Hok2).
  rewrite H in *. cbn [fst]. simplify_eq.
  assert (CommitmentOf s2 !! (netuid, who) = None) as Hnone.
  { rewrite Hco, decide_True by (by apply index_elements). rewrite Er. cbn. unfold after_reveal. by rewrite Hrem. }
  split; [done|]. split; [intros a; by rewrite Hw|]. intros origin i s' Ho Hset.
  destruct (set_commitment_run _ _ _ _ _ Hc Hok2 Hset) as (who' & Ho' & _ & _ & _ & _ & Hres & _).
  assert (who' = who) as -> by congruence. rewrite Hres, Hnone, Hw. cbn. lia.
Qed.
End Commitments.
