(* ===== verification/DepositExamples.v ===== *)
(** * The registry and commitments pallets on a concrete runtime

    A SCALE codec for the inputs the pallets decode, and a world with
    reserves, beacon pulses and a toy time-lock, on which the theorems on both
    pallets are applied. *)

From S2P Require Import Prelude Frame TestRuntime Codec.
From S2P Require Registry Commitments.
From stdpp Require Import prelude gmap list fin_maps fin_sets.
From Stdlib Require Import ZArith Lia.
#[local] Open Scope Z_scope.
#[local] Open Scope monad_scope.

(** ** The codec *)

(** Little-endian bytes. *)
Fixpoint le (n : nat) (z : Z) : list Z := match n with O => [] | S n => z mod 256 :: le n (z / 256) end.
Definition unle (l : list Z) : Z := foldr (fun b acc => b + 256 * acc) 0 l.

Lemma unle_le n : forall z, unle (le n z) = z mod 256 ^ Z.of_nat n.
Proof.
  induction n as [|n IH]; intros z; [by rewrite Z.mod_1_r|]. cbn [le unle foldr]. change (foldr _ 0 ?l) with (unle l).
  rewrite IH, Nat2Z.inj_succ, Z.pow_succ_r, Z.rem_mul_r by lia. lia.
Qed.
Lemma length_le n : forall z, length (le n z) = n.
Proof. induction n as [|n IH]; intros z; [done|]. cbn. by rewrite IH. Qed.

Definition take_bytes (n : nat) (i : list Z) : option (list Z * list Z) :=
  if decide (n <= length i)%nat then Some (take n i, drop n i) else None.

Lemma take_bytes_app l r : take_bytes (length l) (l ++ r) = Some (l, r).
Proof. unfold take_bytes. rewrite decide_True by (rewrite length_app; lia). by rewrite take_app_length, drop_app_length. Qed.
Lemma take_bytes_le n z r : take_bytes n (le n z ++ r) = Some (le n z, r).
Proof. pose proof (take_bytes_app (le n z) r) as H. by rewrite length_le in H. Qed.
Lemma take_bytes_inv n i l r : take_bytes n i = Some (l, r) -> i = l ++ r /\ length l = n.
Proof.
  unfold take_bytes. case_decide; [|done]. intros [= <- <-]. split; [by rewrite take_drop|]. rewrite length_take. lia.
Qed.

(** Compact lengths: one, two, four or five bytes by the two low bits. *)
Definition encode_compact (n : Z) : list Z :=
  if n <? 64 then le 1 (4 * n) else if n <? 2 ^ 14 then le 2 (4 * n + 1)
  else if n <? 2 ^ 30 then le 4 (4 * n + 2) else 3 :: le 4 n.
Definition decode_compact (i : list Z) : option (Z * list Z) :=
  match i with
  | [] => None
  | b :: r =>
      if b mod 4 =? 0 then Some (b / 4, r)
      else if b mod 4 =? 1 then dec! (l, r) := take_bytes 2 i in Some (unle l / 4, r)
      else if b mod 4 =? 2 then dec! (l, r) := take_bytes 4 i in Some (unle l / 4, r)
      else dec! (l, r) := take_bytes 4 r in Some (unle l, r)
  end.

Lemma low_bits x k : 0 <= k < 4 -> (4 * x + k) mod 256 mod 4 = k.
Proof. intros Hk. Z.to_euclidean_division_equations. lia. Qed.

Lemma decode_encode_compact n r : 0 <= n <= U32_MAX -> decode_compact (encode_compact n ++ r) = Some (n, r).
Proof.
  intros Hn. unfold encode_compact. destruct (Z.ltb_spec n 64).
  { cbn [le app decode_compact]. replace (4 * n) with (4 * n + 0) by lia. rewrite low_bits by lia. cbn [Z.eqb].
    repeat f_equal. Z.to_euclidean_division_equations. lia. }
  destruct (Z.ltb_spec n (2 ^ 14)).
  { unfold decode_compact. cbn [le app]. rewrite low_bits by lia. cbn [Z.eqb Pos.eqb].
    change (take_bytes 2 _) with (take_bytes 2 (le 2 (4 * n + 1) ++ r)). rewrite take_bytes_le, unle_le.
    rewrite Z.mod_small by lia. repeat f_equal. Z.to_euclidean_division_equations. lia. }
  destruct (Z.ltb_spec n (2 ^ 30)).
  { unfold decode_compact. cbn [le app]. rewrite low_bits by lia. cbn [Z.eqb Pos.eqb].
    change (take_bytes 4 _) with (take_bytes 4 (le 4 (4 * n + 2) ++ r)). rewrite take_bytes_le, unle_le.
    rewrite Z.mod_small by lia. repeat f_equal. Z.to_euclidean_division_equations. lia. }
  cbn [app decode_compact]. change (3 mod 4) with 3. cbn [Z.eqb Pos.eqb]. rewrite take_bytes_le, unle_le.
  by rewrite Z.mod_small by lia.
Qed.

#[export] Instance scale_codec : ScaleCodec := {|
  read_byte i := match i with b :: r => Some (b, r) | [] => None end;
  read := take_bytes;
  decode_array := take_bytes;
  encode_u64 := le 8;
  decode_u64 i := dec! (l, r) := take_bytes 8 i in Some (unle l mod 2 ^ 64, r);
  encode_bytes l := encode_compact (Z.of_nat (length l)) ++ l;
  decode_bounded bound i :=
    dec! (n, r) := decode_compact i in
    if (0 <=? n) && (n <=? bound) then
      dec! (l, r) := take_bytes (Z.to_nat n) r in Some (l, r)
    else None;
|}.

#[export] Instance scale_codec_laws : ScaleCodecLaws.
Proof.
  split.
  - done.
  - intros [|x i] b r; cbn; [done|]. by intros [= -> ->].
  - apply take_bytes_app.
  - apply take_bytes_inv.
  - apply take_bytes_app.
  - apply take_bytes_inv.
  - intros n r Hn. cbn [decode_u64 encode_u64 scale_codec]. rewrite take_bytes_le, unle_le.
    rewrite Z.mod_mod, Z.mod_small by lia. done.
  - intros i n r. cbn. destruct (take_bytes 8 i) as [[l r']|]; [|done]. intros [= <- _].
    pose proof (Z.mod_pos_bound (unle l) (2 ^ 64) ltac:(lia)). lia.
  - intros bound l r Hl Hb. cbn. rewrite <- app_assoc, decode_encode_compact by lia.
    rewrite (proj2 (Z.leb_le 0 _)), (proj2 (Z.leb_le _ bound)) by lia. cbn [andb]. by rewrite Nat2Z.id, take_bytes_app.
  - intros bound i l r. cbn. destruct (decode_compact i) as [[n r']|]; [|done].
    destruct (Z.leb_spec 0 n), (Z.leb_spec n bound); try done. cbn [andb].
    destruct (take_bytes (Z.to_nat n) r') as [[l' r'']|] eqn:E; [|done].
    intros [= <- _]. apply take_bytes_inv in E as [_ E]. lia.
Qed.

Lemma data_roundtrip_witness :
  let d := Commitments.TimelockEncrypted (repeat 7 100) 1000000 in
  Commitments.decode_data (Commitments.encode_data d ++ [1; 2; 3]) = Some (d, [1; 2; 3]).
Proof.
  apply (Commitments.data_roundtrip (Commitments.TimelockEncrypted (repeat 7 100) 1000000) [1; 2; 3]).
  split; vm_compute; [|split]; congruence.
Defined.

(** ** Amounts on hold *)

Definition amount (m : gmap nat N) (a : nat) : Z := Z.of_N (default 0%N (m !! a)).
Definition put_amount (m : gmap nat N) (a : nat) (n : Z) : gmap nat N := <[a := Z.to_N n]> m.
Definition amounts (m : gmap nat N) : Z := map_sum (Z.of_N <$> m).

Lemma amount_put m a b n : 0 <= n -> amount (put_amount m a n) b = if decide (b = a) then n else amount m b.
Proof.
  intros Hn. unfold amount, put_amount. destruct (decide (b = a)) as [->|]; [rewrite lookup_insert_eq|by rewrite lookup_insert_ne].
  cbn. lia.
Qed.
Lemma amounts_put m a n : 0 <= n -> amounts (put_amount m a n) = amounts m - amount m a + n.
Proof.
  intros Hn. unfold amounts, put_amount, amount. rewrite fmap_insert, Z2N.id by done. destruct (m !! a) as [x|] eqn:E; cbn.
  - apply map_sum_insert_Some. by rewrite lookup_fmap, E.
  - rewrite map_sum_insert_None; [lia|]. by rewrite lookup_fmap, E.
Qed.
Lemma amount_nonneg m a : 0 <= amount m a.
Proof. unfold amount. lia. Qed.
Lemma amounts_nonneg m : 0 <= amounts m.
Proof. apply map_sum_nonneg. intros k v. rewrite lookup_fmap. intros (x & _ & ->)%fmap_Some. lia. Qed.

(** Taking as much of [n] as there is. *)
Definition take_amount (m : gmap nat N) (a : nat) (n : Z) : gmap nat N := put_amount m a (amount m a - Z.min n (amount m a)).

Lemma take_amount_spec m a n : 0 <= n ->
  amounts (take_amount m a n) = amounts m - Z.min n (amount m a) /\
  forall b, amount (take_amount m a n) b = if decide (b = a) then amount m b - Z.min n (amount m a) else amount m b.
Proof.
  intros Hn. pose proof (amount_nonneg m a). unfold take_amount. split; [rewrite amounts_put by lia; lia|].
  intros b. rewrite amount_put by lia. by destruct (decide (b = a)) as [->|].
Qed.

(** ** Identities *)

Module RegistryRun.
Import Registry.

#[export] Instance registry_env : RegistryEnv (FS:=TestFrame) (gmap nat N) := {|
  held := amount;
  hold w a n := Ok (put_amount w a (amount w a + n));
  release w a n := Ok (Z.min n (amount w a), take_amount w a n);
  can_register _ who identified := bool_decide (who = identified);
|}.

#[export] Instance registry_env_laws : RegistryEnvLaws (FS:=TestFrame) (gmap nat N).
Proof.
  refine {| total_held := amounts |}; cbn [held hold release registry_env].
  - apply amounts_nonneg.
  - apply amount_nonneg.
  - intros w a n w' [= <-] Hn. pose proof (amount_nonneg w a). split; [rewrite amounts_put by lia; lia|].
    intros b. rewrite amount_put by lia. repeat case_decide; subst; done.
  - intros w a n m w' [= <- <-] Hn. destruct (take_amount_spec w a n Hn) as [? Hb]. split_and!; [done..|].
    intros b. rewrite Hb. repeat case_decide; subst; done.
Qed.

(** The constants of the runtime. *)
Definition config : RegistryConfig := mkRegistryConfig 1 100000000 100000000.
Definition name : IdentityInfo := mkIdentityInfo [(Raw [97], Raw [98])] (Raw [110]) DNone DNone DNone DNone None DNone DNone.

Definition empty : State (FS:=TestFrame) (gmap nat N) := mkState TestFrame _ ∅ ∅ [].
Definition named : State (FS:=TestFrame) (gmap nat N) :=
  Eval vm_compute in exec (set_identity config (signed 5) 5%nat name) empty.

Lemma named_run : set_identity config (signed 5) 5%nat name empty = Ok (tt, named).
Proof. vm_compute. reflexivity. Qed.

Example named_held : held (world named) 5%nat = 200000000.
Proof. vm_compute. reflexivity. Qed.

Lemma registry_config_ok : config_ok config.
Proof. split; cbn; lia. Qed.

Lemma registry_stays_backed_witness : registry_ok config named.
Proof.
  apply (registry_stays_backed config empty named registry_config_ok eq_refl).
  eapply rtc_l; [|apply rtc_refl]. by apply (step_set config _ (signed 5) 5%nat name), named_run.
Defined.

(** Account 6 clears the identity of account 5, whose money stays on hold. *)
Lemma anyone_clears_identity_witness : exists s', clear_identity (signed 6) 5%nat named = Ok (tt, s') /\
  IdentityOf s' = ∅ /\ held (world s') 5%nat = 200000000 /\ is_ok (clear_identity (signed 5) 5%nat s') = false.
Proof.
  destruct (anyone_clears_identity (signed 6) 6%nat 5%nat (mkRegistration 200000000 name) named eq_refl)
    as (s' & H & Hi & Hh & _ & Hf); [vm_compute; reflexivity|cbn; lia|].
  exists s'. split; [done|]. split; [rewrite Hi; vm_compute; reflexivity|]. split; [|apply Hf].
  rewrite Hh by done. apply named_held.
Defined.
End RegistryRun.

(** ** Commitments *)

Module CommitmentsRun.
Import Commitments.

Record World := mkWorld { cw_now : Z; cw_reserves : gmap nat N; cw_pulses : gmap Z (list Z) }.

#[export] Instance commitments_env : CommitmentsEnv (FS:=TestFrame) World := {|
  block_number := cw_now;
  can_commit _ netuid _ := netuid =? 1;
  on_metadata_commitment w _ _ := w;
  get_epoch_index _ _ b := b / 361;
  reserved w := amount (cw_reserves w);
  reserve w a n := Ok (mkWorld (cw_now w) (put_amount (cw_reserves w) a (amount (cw_reserves w) a + n)) (cw_pulses w));
  unreserve w a n :=
    (n - Z.min n (amount (cw_reserves w) a), mkWorld (cw_now w) (take_amount (cw_reserves w) a n) (cw_pulses w));
|}.

#[export] Instance commitments_env_laws : CommitmentsEnvLaws (FS:=TestFrame) World.
Proof.
  split; cbn [reserved reserve unreserve on_metadata_commitment commitments_env].
  - intros w a. apply amount_nonneg.
  - intros w a n w' b [= <-] Hn. cbn [cw_reserves]. pose proof (amount_nonneg (cw_reserves w) a).
    rewrite amount_put by lia. repeat case_decide; subst; done.
  - intros w a n m w' [= <- <-] Hn. split; [done|]. intros b. cbn [cw_reserves].
    destruct (take_amount_spec (cw_reserves w) a n Hn) as [_ ->]. repeat case_decide; subst; done.
  - done.
Qed.

(** A time-lock that opens with the signature it starts with. *)
#[export] Instance toy_timelock : Timelock World := {|
  pulse_signature w r := cw_pulses w !! r;
  Ciphertext := list Z;
  Signature := list Z;
  deserialize_commit l := Some l;
  deserialize_signature l := Some l;
  tld c sig := match c, sig with b :: plain, b' :: _ => if b =? b' then Some plain else None | _, _ => None end;
|}.

#[export] Instance set_order : BTreeSetOrder (FS:=TestFrame).
Proof. refine {| btree_elements X := elements X |}. done. Defined.

Definition config : CommitmentsConfig := mkCommitmentsConfig 3 10 5.
Definition locked : CommitmentInfo := mkInfo [TimelockEncrypted [9; 1; 2] 50].
Definition start : World := mkWorld 1000 ∅ ∅.

Definition committed : State (FS:=TestFrame) World :=
  Eval vm_compute in exec (set_commitment config (signed 5) 1 locked) (genesis start).
Lemma committed_run : set_commitment config (signed 5) 1 locked (genesis start) = Ok (tt, committed).
Proof. vm_compute. reflexivity. Qed.

(** The pulse of round 50 arrives. *)
Definition due : State (FS:=TestFrame) World := committed <| world := mkWorld 1001 (cw_reserves (world committed)) {[ 50 := [48; 120; 9] ]} |>.

Lemma commitments_config_ok : config_ok config.
Proof. split; cbn; lia. Qed.

Lemma committed_ok : commitments_ok config committed.
Proof. exact (set_commitment_keeps config _ _ _ _ _ commitments_config_ok (genesis_ok config start) committed_run). Qed.

Lemma due_ok : commitments_ok config due.
Proof. destruct committed_ok as [Hi Hf Hr Hd]. split; [exact Hi|exact Hf|exact Hr|exact Hd]. Qed.

Lemma commitments_stay_consistent_witness : commitments_ok config committed.
Proof.
  apply (commitments_stay_consistent config start committed commitments_config_ok).
  eapply rtc_l; [|apply rtc_refl]. exact (step_set config _ (signed 5) 1 locked _ committed_run).
Defined.

Lemma reveal_opens_what_is_due_witness :
  exists s', reveal_timelocked_commitments config due = (s', true) /\ CommitmentOf s' !! (1, 5%nat) = None /\
    RevealedCommitments s' !! (1, 5%nat) = Some [([1; 2], 1001)].
Proof.
  destruct (reveal_opens_what_is_due config due due_ok) as (s' & H & Hc & Hr & _). exists s'. split; [done|].
  rewrite Hc, Hr. split; vm_compute; reflexivity.
Defined.

Lemma unreserve_leaves_nothing_witness :
  set_commitment config (signed 5) 1 (mkInfo []) committed <> Err (Module UnexpectedUnreserveLeftover).
Proof. exact (unreserve_leaves_nothing config _ _ _ _ commitments_config_ok committed_ok). Defined.

(** Account 5 pays 15 for its field and 15 again for the next one. *)
Lemma opened_deposit_is_kept_witness :
  exists s', set_commitment config (signed 5) 1 locked (on_initialize config due) = Ok (tt, s') /\ reserved (world s') 5%nat = 30.
Proof.
  destruct (opened_deposit_is_kept (FS:=TestFrame) config 1 5%nat (mkRegistration 15 1000 locked) due commitments_config_ok due_ok)
    as (_ & _ & H); [vm_compute; reflexivity..|].
  eexists. split; [vm_compute; reflexivity|]. rewrite (H (signed 5) locked _ eq_refl); [reflexivity|vm_compute; reflexivity].
Defined.
End CommitmentsRun.
