(* ===== verification/Dispatch.v ===== *)
(** * Dispatching calls

    A call is dispatched with an origin, and in the runtime an origin carries a
    filter on the calls it may be used for. Both are generated by FRAME; this file
    states the operations on them that the proxy and the utility pallet use, and
    the order of two account ids, which keeps lists searchable. *)

From S2P Require Import Prelude Frame.
From stdpp Require Import prelude sorting.
From Stdlib Require Import ZArith Lia.

(** [OriginTrait] of the runtime's origin over calls [C]: origins from an account
    or root, origins restricted by a further filter or turned to another signer. *)
Class CallOrigin {FS : FrameSystem} (C : Type) := {
  signed_origin : AccountId -> Origin;
  root_origin : Origin;
  add_filter : (C -> bool) -> Origin -> Origin;
  set_caller_signed : AccountId -> Origin -> Origin;
  filter_call : Origin -> C -> bool;
  ensure_none : Origin -> result DispatchError unit;
  CallFiltered : DispatchError;
}.

(** A filter is added to those that are there; it changes nobody's identity. *)
Class CallOriginLaws {FS : FrameSystem} (C : Type) {CO : CallOrigin C} := {
  signed_signed : forall a, ensure_signed (signed_origin a) = Ok a;
  signed_none : forall a, is_ok (ensure_none (signed_origin a)) = false;
  signed_root : forall a, is_ok (ensure_root (signed_origin a)) = false;
  filter_signed : forall f o, ensure_signed (add_filter f o) = ensure_signed o;
  filter_root : forall f o, ensure_root (add_filter f o) = ensure_root o;
  filter_none : forall f o, ensure_none (add_filter f o) = ensure_none o;
  filter_both : forall f o c, filter_call (add_filter f o) c = filter_call o c && f c;
}.

(** [Dispatchable::dispatch]: a call the origin's filter refuses is an error, any
    other goes to the pallet it belongs to ([dispatch_bypass_filter]). A call runs
    in a storage layer of its own, so that an error has no effect. *)
Definition dispatch {FS : FrameSystem} {C S : Type} {CO : CallOrigin C}
    (bypass : C -> Origin -> S -> result DispatchError S) (c : C) (o : Origin) (s : S) : result DispatchError S :=
  if filter_call o c then bypass c o s else Err CallFiltered.

(** What a caller that ignores the outcome goes on with. *)
Definition outcome {E S : Type} (r : result E S) (s : S) : result E unit * S :=
  match r with Ok s' => (Ok tt, s') | Err e => (Err e, s) end.

(** ** Ordered data, and the search of a sorted slice *)

Class Ord (A : Type) := cmp : A -> A -> comparison.
Class OrdLaws (A : Type) {O : Ord A} := {
  cmp_eq : forall x y, cmp x y = Eq <-> x = y;
  cmp_opp : forall x y, cmp y x = CompOpp (cmp x y);
  cmp_trans : forall x y z, cmp x y = Lt -> cmp y z = Lt -> cmp x z = Lt;
}.

(** A derived [Ord] compares the fields in turn. *)
Definition then_cmp (c d : comparison) : comparison := match c with Eq => d | _ => c end.

(** [binary_search] on a sorted slice: the place of an equal element ([inl]), or
    where a new one belongs ([inr]). *)
Fixpoint binary_search {A} {O : Ord A} (x : A) (l : list A) : nat + nat :=
  match l with
  | [] => inr 0%nat
  | y :: l =>
      match cmp x y with
      | Eq => inl 0%nat
      | Lt => inr 0%nat
      | Gt => match binary_search x l with inl i => inl (S i) | inr i => inr (S i) end
      end
  end.

(** [Vec::insert] *)
Definition insert_at {A} (i : nat) (x : A) (l : list A) : list A := take i l ++ x :: drop i l.

Definition cmp_lt {A} {O : Ord A} (x y : A) : Prop := cmp x y = Lt.

Section Search.
Context {A : Type} {O : Ord A} {OL : OrdLaws A}.
Implicit Types (x y : A) (l : list A).

Lemma cmp_gt x y : cmp x y = Gt -> cmp y x = Lt.
Proof. intros E. by rewrite cmp_opp, E. Qed.
Lemma cmp_irrefl x : cmp x x <> Lt.
Proof. by rewrite (proj2 (cmp_eq x x) eq_refl). Qed.

Lemma search_found x l i : binary_search x l = inl i -> l !! i = Some x.
Proof.
  revert i. induction l as [|y l IH]; intros i; cbn; [done|]. destruct (cmp x y) eqn:E; [|done|].
  - intros [= <-]. apply cmp_eq in E. by subst.
  - destruct (binary_search x l) as [j|]; [|done]. intros [= <-]. by apply IH.
Qed.

Lemma search_present x l : StronglySorted cmp_lt l -> x ∈ l -> exists i, binary_search x l = inl i.
Proof.
  induction 1 as [|y l Hs IH Hy]; [by intros ?%elem_of_nil|]. intros Hin%elem_of_cons. cbn.
  destruct (cmp x y) eqn:E; [eauto| |].
  - exfalso. destruct Hin as [->|Hin]; [by apply (cmp_irrefl y)|].
    rewrite List.Forall_forall in Hy. apply list_elem_of_In, Hy in Hin. apply (cmp_irrefl y). by eapply cmp_trans.
  - destruct Hin as [->|Hin]; [by rewrite (proj2 (cmp_eq y y) eq_refl) in E|].
    destruct (IH Hin) as [i ->]. eauto.
Qed.

Lemma elem_of_insert_at i x y l : y ∈ insert_at i x l <-> y = x \/ y ∈ l.
Proof. unfold insert_at. rewrite elem_of_app, elem_of_cons. rewrite <- (take_drop i l) at 3. rewrite elem_of_app. tauto. Qed.
Lemma length_insert_at i x l : length (insert_at i x l) = S (length l).
Proof. unfold insert_at. rewrite <- (take_drop i l) at 3. rewrite !length_app. cbn. lia. Qed.

Lemma insert_at_sorted x l i : StronglySorted cmp_lt l -> binary_search x l = inr i -> StronglySorted cmp_lt (insert_at i x l).
Proof.
  intros Hs. revert i. induction Hs as [|y l Hs IH Hy]; intros i; cbn.
  - intros [= <-]. repeat constructor.
  - destruct (cmp x y) eqn:E; [done| |].
    + intros [= <-]. cbn. constructor; [by constructor|]. constructor; [done|].
      eapply List.Forall_impl; [|exact Hy]. intros z Hz. by eapply cmp_trans.
    + destruct (binary_search x l) as [|j]; [done|]. intros [= <-]. change (insert_at (S j) x (y :: l)) with (y :: insert_at j x l).
      constructor; [by apply IH|]. apply List.Forall_forall. intros z Hz%list_elem_of_In. apply elem_of_insert_at in Hz as [->|Hz].
      * by apply cmp_gt.
      * rewrite List.Forall_forall in Hy. by apply Hy, list_elem_of_In.
Qed.

Lemma delete_sorted l i : StronglySorted cmp_lt l -> StronglySorted cmp_lt (delete i l).
Proof.
  intros Hs. revert i. induction Hs as [|y l Hs IH Hy]; intros i; [destruct i; constructor|].
  destruct i as [|i]; [done|]. change (StronglySorted cmp_lt (y :: delete i l)). constructor; [apply IH|]. apply List.Forall_forall. intros z Hz.
  rewrite List.Forall_forall in Hy. apply Hy. apply list_elem_of_In. apply list_elem_of_In in Hz.
  rewrite <- (take_drop i l), elem_of_app. rewrite delete_take_drop, elem_of_app in Hz. destruct Hz as [Hz|Hz]; [by left|right].
  apply list_elem_of_lookup in Hz as [j Hj]. rewrite lookup_drop in Hj. apply list_elem_of_lookup. exists (S j).
  rewrite lookup_drop. by replace (i + S j)%nat with (S i + j)%nat by lia.
Qed.
End Search.
