(* ===== verification/Proxy.v ===== *)
(** * The proxy pallet (src/pallets/proxy/src/lib.rs)

    An account names delegates, which may dispatch calls in its name: those its
    proxy type permits, and, when the registration has a delay, only calls that
    were announced that many blocks before and not vetoed. Every call of the
    pallet is here. The calls a delegate makes are a parameter of the runtime and
    act on the whole state, this pallet included. *)

From S2P Require Import Prelude Frame Dispatch.
From stdpp Require Import prelude gmap list fin_maps sorting.
From Stdlib Require Import ZArith Lia.
#[local] Open Scope Z_scope.
#[local] Open Scope monad_scope.

(** The types of [Config] that calls are made of; [LookupSource] is what an account is
    named by in a call. *)
Class ProxyNames := {
  ProxyType : Type;
  CallHash : Type;
  LookupSource : Type;
}.

(** The order of accounts and proxy types, and how the types include each other. *)
Class ProxyTypes {FS : FrameSystem} {PN : ProxyNames} := {
  proxy_type_eq_dec :: EqDecision ProxyType;
  proxy_type_ord :: Ord ProxyType;
  default_type : ProxyType;
  is_superset : ProxyType -> ProxyType -> bool;
  account_ord :: Ord AccountId;
  call_hash_eq_dec :: EqDecision CallHash;
  lookup_source : LookupSource -> result DispatchError AccountId;
}.

(** The calls of the pallet, over the calls [C] of the runtime. *)
Inductive ProxyCall {PN : ProxyNames} (C : Type) : Type :=
  | Proxy_ (real : LookupSource) (force_proxy_type : option ProxyType) (call : C)
  | AddProxy (delegate : LookupSource) (proxy_type : ProxyType) (delay : Z)
  | RemoveProxy (delegate : LookupSource) (proxy_type : ProxyType) (delay : Z)
  | RemoveProxies
  | CreatePure (proxy_type : ProxyType) (delay index : Z)
  | KillPure (spawner : LookupSource) (proxy_type : ProxyType) (index height ext_index : Z)
  | Announce (real : LookupSource) (call_hash : CallHash)
  | RemoveAnnouncement (real : LookupSource) (call_hash : CallHash)
  | RejectAnnouncement (delegate : LookupSource) (call_hash : CallHash)
  | ProxyAnnounced (delegate real : LookupSource) (force_proxy_type : option ProxyType) (call : C).
Arguments Proxy_ {PN C}. Arguments AddProxy {PN C}. Arguments RemoveProxy {PN C}.
Arguments RemoveProxies {PN C}. Arguments CreatePure {PN C}. Arguments KillPure {PN C}.
Arguments Announce {PN C}. Arguments RemoveAnnouncement {PN C}.
Arguments RejectAnnouncement {PN C}. Arguments ProxyAnnounced {PN C}.

(** The runtime's calls: what a proxy type permits, the hash of a call, and the
    calls of this pallet among them ([is_sub_type]). *)
Class ProxyCalls {PN : ProxyNames} (C : Type) := {
  type_filter : ProxyType -> C -> bool;
  hash_of : C -> CallHash;
  is_sub_type : C -> option (ProxyCall C);
}.

(** The block, the reserves of the currency, and the account id made from the hash
    of a spawner, a height, an extrinsic index, a proxy type and an index. *)
Class ProxyEnv {FS : FrameSystem} {PN : ProxyNames} (W : Type) := {
  block_number : W -> Z;
  extrinsic_index : W -> option Z;
  reserved : W -> AccountId -> Z;
  reserve : W -> AccountId -> Z -> result DispatchError W;
  unreserve : W -> AccountId -> Z -> W;
  pure_entropy : AccountId -> Z -> Z -> ProxyType -> Z -> AccountId;
}.

Class ProxyConfig := {
  ProxyDepositBase : Z;
  ProxyDepositFactor : Z;
  MaxProxies : Z;
  MaxPending : Z;
  AnnouncementDepositBase : Z;
  AnnouncementDepositFactor : Z;
}.

Record ProxyDefinition {FS : FrameSystem} {PN : ProxyNames} := mkDef {
  delegate : AccountId;
  proxy_type : ProxyType;
  delay : Z;
}.
#[export] Instance ProxyDefinition_eq_dec {FS : FrameSystem} {PN : ProxyNames} {PT : ProxyTypes} : EqDecision ProxyDefinition.
Proof. solve_decision. Defined.
#[export] Instance ProxyDefinition_ord {FS : FrameSystem} {PN : ProxyNames} {PT : ProxyTypes} : Ord ProxyDefinition := fun x y =>
  then_cmp (cmp (delegate x) (delegate y)) (then_cmp (cmp (proxy_type x) (proxy_type y)) (delay x ?= delay y)).

Record Announcement {FS : FrameSystem} {PN : ProxyNames} := mkAnnouncement {
  real : AccountId;
  call_hash : CallHash;
  height : Z;
}.

Inductive Event {FS : FrameSystem} {PN : ProxyNames} : Type :=
  | ProxyExecuted (result : result DispatchError unit)
  | PureCreated (pure who : AccountId) (proxy_type : ProxyType) (disambiguation_index : Z)
  | Announced (real proxy : AccountId) (call_hash : CallHash)
  | ProxyAdded (delegator delegatee : AccountId) (proxy_type : ProxyType) (delay : Z)
  | ProxyRemoved (delegator delegatee : AccountId) (proxy_type : ProxyType) (delay : Z).

Inductive Error : Type :=
  | TooMany | NotFound | NotProxy | Unproxyable | Duplicate | NoPermission | Unannounced | NoSelfProxy.

(** The proxies and the pending announcements of an account, each with its deposit. *)
Record State {FS : FrameSystem} {PN : ProxyNames} (W : Type) := mkState {
  Proxies : gmap AccountId (list ProxyDefinition * Z);
  Announcements : gmap AccountId (list Announcement * Z);
  events : list Event;
  world : W;
}.
Arguments mkState {FS PN W}. Arguments Proxies {FS PN W}. Arguments Announcements {FS PN W}.
Arguments events {FS PN W}. Arguments world {FS PN W}.
#[export] Instance State_eta {FS : FrameSystem} {PN : ProxyNames} {W} : Eta (State W) :=
  fun s => mkState (Proxies s) (Announcements s) (events s) (world s).

Abbreviation Pr W := (M (State W) (error Error)).
Abbreviation len l := (Z.of_nat (length l)).

Section Proxy.
Context {FS : FrameSystem} {PN : ProxyNames} {PT : ProxyTypes} {C W : Type} {CO : CallOrigin C} {PC : ProxyCalls C}.
Context {Env : ProxyEnv W} {Cfg : ProxyConfig}.
Implicit Types s : State W.

(** [dispatch_bypass_filter] of the calls of the runtime. *)
Variable bypass : C -> Origin -> State W -> result DispatchError (State W).

Definition proxies (account : AccountId) s : list ProxyDefinition * Z := default ([], 0) (Proxies s !! account).
Definition announcements (account : AccountId) s : list Announcement * Z := default ([], 0) (Announcements s !! account).

Definition deposit_event (e : Event) s : State W := s <| events ::= fun l => l ++ [e] |>.

Definition deposit (num_proxies : Z) : Z :=
  if num_proxies =? 0 then 0
  else sat_add U64_MAX ProxyDepositBase (sat_mul U64_MAX ProxyDepositFactor num_proxies).

(** [match new_deposit.cmp(&old_deposit)] *)
Definition move_reserve (who : AccountId) (old_deposit new_deposit : Z) : Pr W unit :=
  match new_deposit ?= old_deposit with
  | Gt =>
      let* w := gets world in
      let* w := ext (reserve w who (sat_sub new_deposit old_deposit)) in
      modify (fun s => s <| world := w |>)
  | Lt => modify (fun s => s <| world ::= fun w => unreserve w who (sat_sub old_deposit new_deposit) |>)
  | Eq => ret tt
  end.

(** [None] for an empty list, whose entry is then removed. *)
Definition rejig_deposit (who : AccountId) (old_deposit base factor len : Z) : Pr W (option Z) :=
  let new_deposit := if len =? 0 then 0 else sat_add U64_MAX base (sat_mul U64_MAX factor len) in
  move_reserve who old_deposit new_deposit ;;
  ret (if len =? 0 then None else Some new_deposit).

Definition put_proxies (who : AccountId) (x : option (list ProxyDefinition * Z)) s : State W :=
  s <| Proxies ::= partial_alter (fun _ => x) who |>.
Definition put_announcements (who : AccountId) (x : option (list Announcement * Z)) s : State W :=
  s <| Announcements ::= partial_alter (fun _ => x) who |>.

Definition add_proxy_delegate (delegator delegatee : AccountId) (proxy_type : ProxyType) (delay : Z) : Pr W unit :=
  ensure (negb (bool_decide (delegator = delegatee))) (Module NoSelfProxy) ;;
  let* (proxies, old_deposit) := gets (proxies delegator) in
  let proxy_def := mkDef _ _ delegatee proxy_type delay in
  let* i := lift (match binary_search proxy_def proxies with inl _ => Err (Module Duplicate) | inr i => Ok i end) in
  ensure (len proxies <? MaxProxies) (Module TooMany) ;;
  let proxies := insert_at i proxy_def proxies in
  let new_deposit := deposit (len proxies) in
  move_reserve delegator old_deposit new_deposit ;;
  modify (put_proxies delegator (Some (proxies, new_deposit))) ;;
  modify (deposit_event (ProxyAdded delegator delegatee proxy_type delay)).

Definition remove_proxy_delegate (delegator delegatee : AccountId) (proxy_type : ProxyType) (delay : Z) : Pr W unit :=
  let* o := gets (fun s => Proxies s !! delegator) in
  let* (proxies, old_deposit) := lift (ok_or o (Module NotFound)) in
  let proxy_def := mkDef _ _ delegatee proxy_type delay in
  let* i := lift (match binary_search proxy_def proxies with inl i => Ok i | inr _ => Err (Module NotFound) end) in
  let proxies := delete i proxies in
  let new_deposit := deposit (len proxies) in
  move_reserve delegator old_deposit new_deposit ;;
  modify (put_proxies delegator (match proxies with [] => None | _ => Some (proxies, new_deposit) end)) ;;
  modify (deposit_event (ProxyRemoved delegator delegatee proxy_type delay)).

Definition remove_all_proxy_delegates (delegator : AccountId) s : State W :=
  let old_deposit := (proxies delegator s).2 in
  put_proxies delegator None s <| world ::= fun w => unreserve w delegator old_deposit |>.

Definition pure_account (who : AccountId) (proxy_type : ProxyType) (index : Z) (maybe_when : option (Z * Z)) s : AccountId :=
  let '(height, ext_index) :=
    default (block_number (world s), default 0 (extrinsic_index (world s))) maybe_when in
  pure_entropy who height ext_index proxy_type index.

(** The announcements [f] keeps stay; at least one must go. *)
Definition edit_announcements (delegate : AccountId) (f : Announcement -> bool) : Pr W unit :=
  let* o := gets (fun s => Announcements s !! delegate) in
  let* (pending, old_deposit) := lift (ok_or o (Module NotFound)) in
  let kept := filter (fun ann => f ann = true) pending in
  ensure (len kept <? len pending) (Module NotFound) ;;
  let* new_deposit :=
    rejig_deposit delegate old_deposit AnnouncementDepositBase AnnouncementDepositFactor (len kept) in
  modify (put_announcements delegate ((fun d => (kept, d)) <$> new_deposit)).

Definition find_proxy (real delegate_ : AccountId) (force_proxy_type : option ProxyType) s
    : result (error Error) ProxyDefinition :=
  let f (x : ProxyDefinition) :=
    bool_decide (delegate x = delegate_) &&
    match force_proxy_type with Some y => bool_decide (proxy_type x = y) | None => true end in
  ok_or (list_find (fun x => f x = true) (proxies real s).1 ≫= fun '(_, x) => Some x) (Module NotProxy).

(** The filter on the calls a delegate makes. *)
Definition proxy_filter (def : ProxyDefinition) (c : C) : bool :=
  match is_sub_type c with
  | Some (AddProxy _ t _) | Some (RemoveProxy _ t _) =>
      if negb (is_superset (proxy_type def) t) then false else type_filter (proxy_type def) c
  | Some RemoveProxies | Some (KillPure _ _ _ _ _) =>
      if negb (bool_decide (proxy_type def = default_type)) then false else type_filter (proxy_type def) c
  | _ => type_filter (proxy_type def) c
  end.

Definition do_proxy (def : ProxyDefinition) (real : AccountId) (call : C) s : State W :=
  let origin := add_filter (proxy_filter def) (signed_origin real) in
  let '(e, s) := outcome (dispatch bypass call origin s) s in
  deposit_event (ProxyExecuted e) s.

(** ** The calls *)

Definition proxy (o : Origin) (real : LookupSource) (force_proxy_type : option ProxyType) (call : C) : Pr W unit :=
  let* who := ext (ensure_signed o) in
  let* real := ext (lookup_source real) in
  let* found := gets (find_proxy real who force_proxy_type) in
  let* def := lift found in
  ensure (delay def =? 0) (Module Unannounced) ;;
  modify (do_proxy def real call).

Definition add_proxy (o : Origin) (delegate : LookupSource) (proxy_type : ProxyType) (delay : Z) : Pr W unit :=
  let* who := ext (ensure_signed o) in
  let* delegate := ext (lookup_source delegate) in
  add_proxy_delegate who delegate proxy_type delay.

Definition remove_proxy (o : Origin) (delegate : LookupSource) (proxy_type : ProxyType) (delay : Z) : Pr W unit :=
  let* who := ext (ensure_signed o) in
  let* delegate := ext (lookup_source delegate) in
  remove_proxy_delegate who delegate proxy_type delay.

Definition remove_proxies (o : Origin) : Pr W unit :=
  let* who := ext (ensure_signed o) in
  modify (remove_all_proxy_delegates who).

Definition create_pure (o : Origin) (proxy_type : ProxyType) (delay index : Z) : Pr W unit :=
  let* who := ext (ensure_signed o) in
  let* pure := gets (pure_account who proxy_type index None) in
  let* o := gets (fun s => Proxies s !! pure) in
  ensure (negb (bool_decide (is_Some o))) (Module Duplicate) ;;
  ensure (1 <=? MaxProxies) (Module TooMany) ;;
  let deposit := sat_add U64_MAX ProxyDepositBase ProxyDepositFactor in
  let* w := gets world in
  let* w := ext (reserve w who deposit) in
  modify (fun s => s <| world := w |>) ;;
  modify (put_proxies pure (Some ([mkDef _ _ who proxy_type delay], deposit))) ;;
  modify (deposit_event (PureCreated pure who proxy_type index)).

Definition kill_pure (o : Origin) (spawner : LookupSource) (proxy_type : ProxyType) (index height ext_index : Z) : Pr W unit :=
  let* who := ext (ensure_signed o) in
  let* spawner := ext (lookup_source spawner) in
  let* proxy := gets (pure_account spawner proxy_type index (Some (height, ext_index))) in
  ensure (bool_decide (proxy = who)) (Module NoPermission) ;;
  let* (_, deposit) := gets (proxies who) in
  modify (put_proxies who None) ;;
  modify (fun s => s <| world ::= fun w => unreserve w spawner deposit |>).

Definition announce (o : Origin) (real : LookupSource) (call_hash : CallHash) : Pr W unit :=
  let* who := ext (ensure_signed o) in
  let* real := ext (lookup_source real) in
  let* (defs, _) := gets (proxies real) in
  ensure (existsb (fun x => bool_decide (delegate x = who)) defs) (Module NotProxy) ;;
  let* now := gets (fun s => block_number (world s)) in
  let announcement := mkAnnouncement _ _ real call_hash now in
  let* (pending, old_deposit) := gets (announcements who) in
  ensure (len pending <? MaxPending) (Module TooMany) ;;
  let pending := pending ++ [announcement] in
  let* d := rejig_deposit who old_deposit AnnouncementDepositBase AnnouncementDepositFactor (len pending) in
  (* expect: the list is not empty *)
  let* d := lift (ok_or d Panic) in
  modify (put_announcements who (Some (pending, d))) ;;
  modify (deposit_event (Announced real who call_hash)).

(** The announcements of a call for [real]. *)
Definition same_call (r : AccountId) (h : CallHash) (ann : Announcement) : bool :=
  bool_decide (real ann = r) && bool_decide (call_hash ann = h).

Definition remove_announcement (o : Origin) (real : LookupSource) (call_hash : CallHash) : Pr W unit :=
  let* who := ext (ensure_signed o) in
  let* real := ext (lookup_source real) in
  edit_announcements who (fun ann => negb (same_call real call_hash ann)).

Definition reject_announcement (o : Origin) (delegate : LookupSource) (call_hash : CallHash) : Pr W unit :=
  let* who := ext (ensure_signed o) in
  let* delegate := ext (lookup_source delegate) in
  edit_announcements delegate (fun ann => negb (same_call who call_hash ann)).

(** [map_err] *)
Definition map_err {A} (e : error Error) (m : Pr W A) : Pr W A :=
  fun s => match m s with Ok r => Ok r | Err _ => Err e end.

Definition proxy_announced (o : Origin) (delegate real : LookupSource) (force_proxy_type : option ProxyType) (call : C)
    : Pr W unit :=
  let* _ := ext (ensure_signed o) in
  let* delegate := ext (lookup_source delegate) in
  let* real := ext (lookup_source real) in
  let* found := gets (find_proxy real delegate force_proxy_type) in
  let* def := lift found in
  let call_hash := hash_of call in
  let* now := gets (fun s => block_number (world s)) in
  map_err (Module Unannounced)
    (edit_announcements delegate (fun ann =>
       negb (same_call real call_hash ann) || (sat_sub now (height ann) <? delay def))) ;;
  modify (do_proxy def real call).

Definition proxy_call (c : ProxyCall C) (o : Origin) : Pr W unit :=
  match c with
  | Proxy_ real t call => proxy o real t call
  | AddProxy d t delay => add_proxy o d t delay
  | RemoveProxy d t delay => remove_proxy o d t delay
  | RemoveProxies => remove_proxies o
  | CreatePure t delay index => create_pure o t delay index
  | KillPure spawner t index height ext_index => kill_pure o spawner t index height ext_index
  | Announce real h => announce o real h
  | RemoveAnnouncement real h => remove_announcement o real h
  | RejectAnnouncement d h => reject_announcement o d h
  | ProxyAnnounced d real t call => proxy_announced o d real t call
  end.
End Proxy.
#[global] Arguments do_proxy : simpl never.
