(* ===== verification/Utility.v ===== *)
(** * The utility pallet (src/pallets/utility/src/lib.rs)

    Batches of calls, calls of a derived account, and calls root makes with another
    origin. The pallet has no storage; its events go into the state [S] of the
    runtime, and dispatching the inner calls is a parameter. Weights are left out:
    they are all that [batch] returns. *)

From S2P Require Import Prelude Frame Dispatch.
From stdpp Require Import prelude list.
From Stdlib Require Import ZArith Lia.
#[local] Open Scope Z_scope.
#[local] Open Scope monad_scope.

Inductive Error : Type := TooManyCalls.

Inductive Event {FS : FrameSystem} : Type :=
  | BatchInterrupted (index : Z) (error : DispatchError)
  | BatchCompleted
  | BatchCompletedWithErrors
  | ItemCompleted
  | ItemFailed (error : DispatchError)
  | DispatchedAs (result : result DispatchError unit).

(** The calls of the pallet, over the calls [C] of the runtime; [O] is [PalletsOrigin],
    an origin without its filter. *)
Inductive UtilityCall (O C : Type) : Type :=
  | Batch (calls : list C)
  | AsDerivative (index : Z) (call : C)
  | BatchAll (calls : list C)
  | DispatchAs (as_origin : O) (call : C)
  | ForceBatch (calls : list C)
  | WithWeight (call : C) (weight : Z * Z).
Arguments Batch {O C}. Arguments AsDerivative {O C}. Arguments BatchAll {O C}.
Arguments DispatchAs {O C}. Arguments ForceBatch {O C}. Arguments WithWeight {O C}.

(** The calls of this pallet among those of the runtime, where its events go, the
    size of a call in memory and the limit of the allocator, and the account id
    made from the hash of an account and an index. *)
Class UtilityEnv {FS : FrameSystem} (O C S : Type) := {
  utility_sub_type : C -> option (UtilityCall O C);
  into_origin : O -> Origin;
  put_utility_event : Event -> S -> S;
  call_size : Z;
  MAX_POSSIBLE_ALLOCATION : Z;
  derivative_entropy : AccountId -> Z -> AccountId;
}.

Definition CALL_ALIGN : Z := 1024.

Section Utility.
Context {FS : FrameSystem} {O C S : Type} {CO : CallOrigin C} {Env : UtilityEnv O C S}.
Implicit Types s : S.

(** [dispatch_bypass_filter] of the calls of the runtime. *)
Variable bypass : C -> Origin -> S -> result DispatchError S.

Definition batched_calls_limit : Z :=
  let align_up := sat_add U32_MAX call_size (sat_sub CALL_ALIGN 1) in
  let call_size := sat_mul U32_MAX (align_up / CALL_ALIGN) CALL_ALIGN in
  let after_margin := MAX_POSSIBLE_ALLOCATION / 3 in
  if call_size =? 0 then 0 else after_margin / call_size.

(** One call of a batch: root is not filtered. *)
Definition dispatch_item (o : Origin) (call : C) s : result DispatchError S :=
  if is_ok (ensure_root o) then bypass call o s else dispatch bypass call o s.

(** The checks all batches begin with. *)
Definition ensure_batch (o : Origin) (calls : list C) : M S (error Error) unit :=
  ensure (negb (is_ok (ensure_none o))) (External BadOrigin) ;;
  ensure (Z.of_nat (length calls) <=? batched_calls_limit) (Module TooManyCalls).

Section Loops.
Variable o : Origin.

Fixpoint batch_loop (index : Z) (calls : list C) s : S :=
  match calls with
  | [] => put_utility_event BatchCompleted s
  | call :: calls =>
      match dispatch_item o call s with
      | Err e => put_utility_event (BatchInterrupted index e) s
      | Ok s => batch_loop (index + 1) calls (put_utility_event ItemCompleted s)
      end
  end.

(** [batch_all] may not be nested, unless by root. *)
Definition no_batch_all (c : C) : bool := match utility_sub_type c with Some (BatchAll _) => false | _ => true end.
Definition batch_all_origin : Origin := if is_ok (ensure_root o) then o else add_filter no_batch_all o.

Fixpoint batch_all_loop (calls : list C) s : result (error Error) S :=
  match calls with
  | [] => Ok (put_utility_event BatchCompleted s)
  | call :: calls =>
      match dispatch_item batch_all_origin call s with
      | Err e => Err (External e)
      | Ok s => batch_all_loop calls (put_utility_event ItemCompleted s)
      end
  end.

Fixpoint force_batch_loop (has_error : bool) (calls : list C) s : S :=
  match calls with
  | [] => put_utility_event (if has_error then BatchCompletedWithErrors else BatchCompleted) s
  | call :: calls =>
      match dispatch_item o call s with
      | Err e => force_batch_loop true calls (put_utility_event (ItemFailed e) s)
      | Ok s => force_batch_loop has_error calls (put_utility_event ItemCompleted s)
      end
  end.
End Loops.

Definition batch (o : Origin) (calls : list C) : M S (error Error) unit :=
  ensure_batch o calls ;;
  modify (batch_loop o 0 calls).

Definition derivative_account_id (who : AccountId) (index : Z) : AccountId := derivative_entropy who index.

Definition as_derivative (o : Origin) (index : Z) (call : C) : M S (error Error) unit :=
  let* who := ext (ensure_signed o) in
  let pseudonym := derivative_account_id who index in
  fun s => match dispatch bypass call (set_caller_signed pseudonym o) s with
           | Ok s => Ok (tt, s) | Err e => Err (External e) end.

Definition batch_all (o : Origin) (calls : list C) : M S (error Error) unit :=
  ensure_batch o calls ;;
  fun s => match batch_all_loop o calls s with Ok s => Ok (tt, s) | Err e => Err e end.

Definition dispatch_as (o : Origin) (as_origin : O) (call : C) : M S (error Error) unit :=
  ext (ensure_root o) ;;
  modify (fun s => let '(res, s) := outcome (bypass call (into_origin as_origin) s) s in put_utility_event (DispatchedAs res) s).

Definition force_batch (o : Origin) (calls : list C) : M S (error Error) unit :=
  ensure_batch o calls ;;
  modify (force_batch_loop o false calls).

Definition with_weight (o : Origin) (call : C) (weight : Z * Z) : M S (error Error) unit :=
  ext (ensure_root o) ;;
  fun s => match bypass call root_origin s with Ok s => Ok (tt, s) | Err e => Err (External e) end.

Definition utility_call (c : UtilityCall O C) (o : Origin) : M S (error Error) unit :=
  match c with
  | Batch calls => batch o calls
  | AsDerivative index call => as_derivative o index call
  | BatchAll calls => batch_all o calls
  | DispatchAs as_origin call => dispatch_as o as_origin call
  | ForceBatch calls => force_batch o calls
  | WithWeight call weight => with_weight o call weight
  end.

(** ** Batches run their calls in order *)

(** [ran o s calls s']: all the calls succeed one after the other. *)
Inductive ran (o : Origin) : S -> list C -> S -> Prop :=
  | ran_nil s : ran o s [] s
  | ran_cons s call s1 calls s2 : dispatch_item o call s = Ok s1 -> ran o (put_utility_event ItemCompleted s1) calls s2 ->
      ran o s (call :: calls) s2.

(** The calls before the first that fails. *)
Lemma first_failure o calls s : exists n sk, ran o s (take n calls) sk /\
  (n = length calls \/ exists call e, calls !! n = Some call /\ dispatch_item o call sk = Err e).
Proof using.
  revert s. induction calls as [|call calls IH]; intros s; [exists 0%nat, s; split; [constructor|by left]|].
  destruct (dispatch_item o call s) as [s1|e] eqn:E.
  - destruct (IH (put_utility_event ItemCompleted s1)) as (n & sk & Hr & Hn). exists (Datatypes.S n), sk.
    split; [by econstructor|]. destruct Hn as [->|Hn]; [by left|by right].
  - exists 0%nat, s. split; [constructor|]. right. exists call, e. by split.
Qed.

Lemma batch_loop_ran o s calls sk : ran o s calls sk -> forall i rest,
  batch_loop o i (calls ++ rest) s = batch_loop o (i + Z.of_nat (length calls)) rest sk.
Proof using.
  induction 1 as [|s call s1 calls s2 E _ IH]; intros i rest; cbn; [by rewrite Z.add_0_r|].
  rewrite E, IH. by replace (i + 1 + Z.of_nat (length calls)) with (i + Z.of_nat (Datatypes.S (length calls))) by lia.
Qed.
Lemma batch_all_loop_ran o s calls sk : ran (batch_all_origin o) s calls sk -> forall rest,
  batch_all_loop o (calls ++ rest) s = batch_all_loop o rest sk.
Proof using. induction 1 as [|s call s1 calls s2 E _ IH]; intros rest; cbn; [done|]. by rewrite E, IH. Qed.

(** C33: A batch runs its calls in order up to the first that fails: what these did
    stays, the event names the call that failed and its error, and nothing after it
    runs. [batch_all] runs the same calls, from an origin that allows no nested
    [batch_all] unless it is root, and succeeds only if every one does; otherwise it
    fails with the error of the first, which undoes all of them. *)
Theorem batches_run_in_order o calls s :
  is_ok (ensure_none o) = false -> Z.of_nat (length calls) <= batched_calls_limit ->
  (exists n sk, ran o s (take n calls) sk /\
    (n = length calls /\ batch o calls s = Ok (tt, put_utility_event BatchCompleted sk) \/
     exists call e, calls !! n = Some call /\ dispatch_item o call sk = Err e /\
       batch o calls s = Ok (tt, put_utility_event (BatchInterrupted (Z.of_nat n) e) sk))) /\
  (exists n sk, ran (batch_all_origin o) s (take n calls) sk /\
    (n = length calls /\ batch_all o calls s = Ok (tt, put_utility_event BatchCompleted sk) \/
     exists call e, calls !! n = Some call /\ dispatch_item (batch_all_origin o) call sk = Err e /\
       batch_all o calls s = Err (External e))).
Proof using.
  intros Hn%negb_true_iff Hl%Z.leb_le. unfold batch, batch_all, ensure_batch, bind, ensure, modify. rewrite Hn, Hl. split.
  - destruct (first_failure o calls s) as (n & sk & Hr & Hf). exists n, sk. split; [done|].
    pose proof (batch_loop_ran _ _ _ _ Hr 0 (drop n calls)) as E. rewrite take_drop in E. rewrite E. destruct Hf as [->|(call & e & Hc & He)].
    + left. by rewrite drop_ge by done.
    + right. exists call, e. split_and!; [done..|]. rewrite (drop_S _ _ _ Hc). cbn. rewrite He.
      apply lookup_lt_Some in Hc. rewrite length_take. by replace (Init.Nat.min n (length calls)) with n by lia.
  - destruct (first_failure (batch_all_origin o) calls s) as (n & sk & Hr & Hf). exists n, sk. split; [done|].
    pose proof (batch_all_loop_ran _ _ _ _ Hr (drop n calls)) as E. rewrite take_drop in E. rewrite E. destruct Hf as [->|(call & e & Hc & He)].
    + left. by rewrite drop_ge by done.
    + right. exists call, e. split_and!; [done..|]. rewrite (drop_S _ _ _ Hc). cbn. by rewrite He.
Qed.

(** ** What the inner calls and the events keep, every call keeps *)

Definition utility_inner (c : UtilityCall O C) : list C :=
  match c with
  | Batch calls | BatchAll calls | ForceBatch calls => calls
  | AsDerivative _ call | DispatchAs _ call | WithWeight call _ => [call]
  end.

Section Keeps.
Context (I : S -> Prop) (Hev : forall e s, I s -> I (put_utility_event e s)).

(** Kept by a call dispatched from any origin that satisfies [R]. *)
Definition call_keeps (R : Origin -> Prop) (c : C) : Prop := forall o s s', R o -> I s -> dispatch_item o c s = Ok s' -> I s'.

Lemma batch_loop_keeps (R : Origin -> Prop) o calls : R o -> Forall (call_keeps R) calls -> forall i s, I s -> I (batch_loop o i calls s).
Proof using Hev.
  intros Ho. induction 1 as [|c calls Hc _ IH]; intros i s Hs; cbn; [by apply Hev|].
  destruct (dispatch_item o c s) eqn:E; [|by apply Hev]. apply IH, Hev. by eapply Hc.
Qed.
Lemma force_batch_loop_keeps (R : Origin -> Prop) o calls : R o -> Forall (call_keeps R) calls -> forall b s, I s -> I (force_batch_loop o b calls s).
Proof using Hev.
  intros Ho. induction 1 as [|c calls Hc _ IH]; intros b s Hs; cbn; [by apply Hev|].
  destruct (dispatch_item o c s) eqn:E; apply IH, Hev; [|done]. by eapply Hc.
Qed.
Lemma batch_all_loop_keeps (R : Origin -> Prop) o calls : R (batch_all_origin o) -> Forall (call_keeps R) calls ->
  forall s s', I s -> batch_all_loop o calls s = Ok s' -> I s'.
Proof using Hev.
  intros Ho. induction 1 as [|c calls Hc _ IH]; intros s s' Hs; cbn; [intros [= <-]; by apply Hev|].
  destruct (dispatch_item _ c s) eqn:E; [|done]. apply IH, Hev. by eapply Hc.
Qed.

Lemma utility_call_keeps c o s u s' : Forall (fun c => forall o s s', I s -> bypass c o s = Ok s' -> I s') (utility_inner c) ->
  I s -> utility_call c o s = Ok (u, s') -> I s'.
Proof using Hev.
  intros Hk Hs H. assert (Forall (call_keeps (fun _ => True)) (utility_inner c)) as Hk'.
  { eapply Forall_impl; [exact Hk|]. intros d Hd o' s1 s2 _ H1 H2. unfold dispatch_item, dispatch in H2.
    destruct (is_ok _); [exact (Hd _ _ _ H1 H2)|]. destruct (filter_call _ _); [exact (Hd _ _ _ H1 H2)|done]. }
  destruct c; cbn in *.
  - unfold batch, ensure_batch in H. monad_inv H. by eapply (batch_loop_keeps (fun _ => True)).
  - unfold as_derivative, dispatch in H. monad_inv H. apply Forall_cons in Hk as [Hk _].
    destruct (filter_call _ _); [|done]. destruct (bypass _ _ _) eqn:E; [|done]. simplify_eq. by eapply Hk.
  - unfold batch_all, ensure_batch in H. monad_inv H. destruct (batch_all_loop _ _ _) eqn:E; [|done]. simplify_eq.
    by eapply (batch_all_loop_keeps (fun _ => True)).
  - unfold dispatch_as, outcome in H. monad_inv H. apply Forall_cons in Hk as [Hk _].
    destruct (bypass _ _ _) eqn:E; cbn; apply Hev; [by eapply Hk|done].
  - unfold force_batch, ensure_batch in H. monad_inv H. by eapply (force_batch_loop_keeps (fun _ => True)).
  - unfold with_weight in H. monad_inv H. apply Forall_cons in Hk as [Hk _].
    destruct (bypass _ _ _) eqn:E; [|done]. simplify_eq. by eapply Hk.
Qed.
End Keeps.
End Utility.
