(* ===== verification/ProxyProofs.v ===== *)
(** * What the proxy pallet keeps

    The lists of delegates and announcements are always well-formed and what they
    have on deposit is reserved; who may dispatch what, and when. *)

From S2P Require Import Prelude Frame Dispatch Proxy.
From stdpp Require Import prelude gmap list fin_maps sorting.
From Stdlib Require Import ZArith Lia.
#[local] Open Scope Z_scope.
#[local] Open Scope monad_scope.

(** The currency reserves what it is asked to and frees at most as much; the orders
    of accounts and proxy types are orders. *)
Class ProxyLaws {FS : FrameSystem} {PN : ProxyNames} {PT : ProxyTypes} (W : Type) {PE : ProxyEnv W} := {
  accounts_ordered :: OrdLaws AccountId;
  proxy_types_ordered :: OrdLaws ProxyType;
  total_reserved : W -> Z;
  total_reserved_nonneg : forall w, 0 <= total_reserved w;
  reserve_total : forall w a n w', reserve w a n = Ok w' -> 0 <= n -> total_reserved w' = total_reserved w + n;
  unreserve_total : forall w a n, 0 <= n -> total_reserved w - n <= total_reserved (unreserve w a n);
}.

Record config_ok {Cfg : ProxyConfig} : Prop := {
  cf_base : in_type u64 ProxyDepositBase;
  cf_factor : in_type u64 ProxyDepositFactor;
  cf_ann_base : in_type u64 AnnouncementDepositBase;
  cf_ann_factor : in_type u64 AnnouncementDepositFactor;
}.

Lemma lex_trans {A} {O : Ord A} {OL : OrdLaws A} (x y z : A) c1 c2 c3 : (c1 = Lt -> c2 = Lt -> c3 = Lt) ->
  then_cmp (cmp x y) c1 = Lt -> then_cmp (cmp y z) c2 = Lt -> then_cmp (cmp x z) c3 = Lt.
Proof.
  intros Hc. destruct (cmp x y) eqn:E1; cbn; [apply cmp_eq in E1; subst| |done].
  - destruct (cmp y z); cbn; auto.
  - intros _. destruct (cmp y z) eqn:E2; cbn; [apply cmp_eq in E2; subst; by rewrite E1| |done].
    intros _. by rewrite (cmp_trans x y z).
Qed.

#[export] Instance definitions_ordered {FS : FrameSystem} {PN : ProxyNames} {PT : ProxyTypes} {A : OrdLaws AccountId} {T : OrdLaws ProxyType} :
  OrdLaws ProxyDefinition.
Proof.
  split; unfold cmp, ProxyDefinition_ord.
  - intros [d t n] [d' t' n']. cbn. pose proof (cmp_eq d d') as E1. pose proof (cmp_eq t t') as E2. pose proof (Z.compare_eq_iff n n') as E3.
    destruct (cmp d d'), (cmp t t'), (n ?= n'); cbn; naive_solver.
  - intros [d t n] [d' t' n']. cbn. rewrite (cmp_opp d d'), (cmp_opp t t'), (Z.compare_antisym n n').
    by destruct (cmp d d'), (cmp t t'), (n ?= n').
  - intros x y z. apply lex_trans, lex_trans. rewrite !Z.compare_lt_iff. lia.
Qed.

Section ProxyProofs.
Context {FS : FrameSystem} {PN : ProxyNames} {PT : ProxyTypes} {C W : Type} {CO : CallOrigin C} {PC : ProxyCalls C}.
Context {Env : ProxyEnv W} {Cfg : ProxyConfig}.
Context {PL : ProxyLaws W}.
Implicit Types s : State W.

(** ** Deposits *)

Definition announcement_deposit (n : Z) : Z :=
  if n =? 0 then 0 else sat_add U64_MAX AnnouncementDepositBase (sat_mul U64_MAX AnnouncementDepositFactor n).

(** What all books together say is on deposit. *)
Definition booked s : Z := map_sum (snd <$> Proxies s) + map_sum (snd <$> Announcements s).

Definition backed s : Prop := booked s <= total_reserved (world s).

Lemma map_sum_put {K} `{Countable K} {A} (m : gmap K (A * Z)) k x :
  map_sum (snd <$> partial_alter (fun _ => x) k m) =
  map_sum (snd <$> m) - from_option snd 0 (m !! k) + from_option snd 0 x.
Proof.
  destruct x as [[a v]|]; cbn.
  - change (partial_alter (fun _ => Some (a, v)) k m) with (<[k := (a, v)]> m). rewrite fmap_insert.
    destruct (m !! k) as [[b u]|] eqn:E; cbn.
    + rewrite (map_sum_insert_Some _ k u); [done|]. by rewrite lookup_fmap, E.
    + rewrite map_sum_insert_None; [lia|]. by rewrite lookup_fmap, E.
  - change (partial_alter (fun _ => None) k m) with (delete k m). rewrite fmap_delete.
    destruct (m !! k) as [[b u]|] eqn:E; cbn.
    + rewrite (map_sum_delete _ k u); [lia|]. by rewrite lookup_fmap, E.
    + rewrite delete_id; [lia|]. by rewrite lookup_fmap, E.
Qed.

Lemma booked_put_proxies who x s :
  booked (put_proxies who x s) = booked s - (proxies who s).2 + from_option snd 0 x.
Proof. unfold booked, proxies. cbn. rewrite map_sum_put. destruct (Proxies s !! who) as [[]|]; cbn; lia. Qed.
Lemma booked_put_announcements who x s :
  booked (put_announcements who x s) = booked s - (announcements who s).2 + from_option snd 0 x.
Proof. unfold booked, announcements. cbn. rewrite map_sum_put. destruct (Announcements s !! who) as [[]|]; cbn; lia. Qed.

Lemma move_reserve_run who old new s u s' : move_reserve who old new s = Ok (u, s') -> 0 <= old -> 0 <= new ->
  exists w, s' = s <| world := w |> /\ total_reserved (world s) + new - old <= total_reserved w.
Proof.
  unfold move_reserve. intros H Ho Hn. destruct (Z.compare_spec new old); monad_inv H.
  - exists (world s). split; [by destruct s|lia].
  - eexists. split; [done|]. pose proof (unreserve_total (world s) who (sat_sub old new)). unfold sat_sub in *. lia.
  - match goal with Hr : reserve _ _ _ = Ok ?w |- _ => exists w; split; [done|]; apply reserve_total in Hr end; unfold sat_sub in *; lia.
Qed.

Lemma deposit_nonneg n : config_ok -> 0 <= n -> 0 <= deposit n <= U64_MAX /\ 0 <= announcement_deposit n <= U64_MAX.
Proof.
  intros [[A1 A2] [B1 B2] [C1 C2] [D1 D2]] Hn. cbn in *. unfold deposit, announcement_deposit, sat_add, sat_mul. destruct (n =? 0); nia.
Qed.

(** ** The lists *)

Record proxies_wf (x : list ProxyDefinition * Z) : Prop := {
  px_some : x.1 <> [];
  px_sorted : StronglySorted cmp_lt x.1;
  px_bounded : len x.1 <= MaxProxies;
  px_deposit : x.2 = deposit (len x.1);
}.
Record announcements_wf (x : list Announcement * Z) : Prop := {
  an_some : x.1 <> [];
  an_bounded : len x.1 <= MaxPending;
  an_deposit : x.2 = announcement_deposit (len x.1);
}.

Record proxy_inv s : Prop := {
  pi_proxies : map_Forall (fun _ => proxies_wf) (Proxies s);
  pi_announcements : map_Forall (fun _ => announcements_wf) (Announcements s);
  pi_backed : backed s;
}.

Lemma len_pos {A} (l : list A) : l <> [] -> 0 < len l.
Proof. destruct l; cbn; [done|lia]. Qed.

Lemma proxies_or_none who s : proxy_inv s ->
  (proxies who s = ([], 0) /\ Proxies s !! who = None) \/ (proxies_wf (proxies who s) /\ Proxies s !! who = Some (proxies who s)).
Proof.
  intros [H _ _]. unfold proxies. destruct (Proxies s !! who) as [x|] eqn:E; cbn; [right|by left].
  split; [exact (H _ _ E)|done].
Qed.
Lemma announcements_or_none who s : proxy_inv s ->
  (announcements who s = ([], 0) /\ Announcements s !! who = None) \/
  (announcements_wf (announcements who s) /\ Announcements s !! who = Some (announcements who s)).
Proof.
  intros [_ H _]. unfold announcements. destruct (Announcements s !! who) as [x|] eqn:E; cbn; [right|by left].
  split; [exact (H _ _ E)|done].
Qed.

Lemma put_proxies_ok who x s w : proxy_inv s -> from_option proxies_wf True x ->
  total_reserved (world s) + from_option snd 0 x - (proxies who s).2 <= total_reserved w ->
  proxy_inv (put_proxies who x (s <| world := w |>)).
Proof.
  intros [H1 H2 H3] Hx Hw. split; cbn; [|done|].
  - intros a y. destruct (decide (a = who)) as [->|]; [rewrite lookup_partial_alter_eq|rewrite lookup_partial_alter_ne by done].
    + intros ->. exact Hx.
    + apply H1.
  - unfold backed in *. rewrite booked_put_proxies. unfold proxies, booked in *. cbn. lia.
Qed.
Lemma put_announcements_ok who x s w : proxy_inv s -> from_option announcements_wf True x ->
  total_reserved (world s) + from_option snd 0 x - (announcements who s).2 <= total_reserved w ->
  proxy_inv (put_announcements who x (s <| world := w |>)).
Proof.
  intros [H1 H2 H3] Hx Hw. split; cbn; [done| |].
  - intros a y. destruct (decide (a = who)) as [->|]; [rewrite lookup_partial_alter_eq|rewrite lookup_partial_alter_ne by done].
    + intros ->. exact Hx.
    + apply H2.
  - unfold backed in *. rewrite booked_put_announcements. unfold announcements, booked in *. cbn. lia.
Qed.
Lemma deposit_event_ok e s : proxy_inv s -> proxy_inv (deposit_event e s).
Proof. intros [H1 H2 H3]. by split. Qed.

Lemma deposit_of_proxies who s : config_ok -> proxy_inv s -> 0 <= (proxies who s).2.
Proof. intros Hc H. destruct (proxies_or_none who s H) as [[-> _]|[[_ _ _ ->] _]]; [done|]. apply deposit_nonneg; [done|lia]. Qed.
Lemma deposit_of_announcements who s : config_ok -> proxy_inv s -> 0 <= (announcements who s).2.
Proof. intros Hc H. destruct (announcements_or_none who s H) as [[-> _]|[[_ _ ->] _]]; [done|]. apply deposit_nonneg; [done|lia]. Qed.

Lemma insert_at_some {A} i (x : A) l : insert_at i x l <> [].
Proof. unfold insert_at. by destruct (take i l). Qed.

(** ** Every call keeps them *)

Ltac reserve_run :=
  match goal with Hm : move_reserve _ _ _ _ = Ok _ |- _ => apply move_reserve_run in Hm as (w & -> & Hw) end.

Lemma add_proxy_delegate_ok a d t n s u s' : config_ok -> proxy_inv s -> add_proxy_delegate a d t n s = Ok (u, s') -> proxy_inv s'.
Proof.
  intros Hc Hs H. unfold add_proxy_delegate in H. monad_inv H.
  pose proof (deposit_of_proxies a s Hc Hs) as Hd. destruct (proxies_or_none a s Hs) as [[Ep Es]|[Hwf Es]]; rewrite E in *; cbn in Hd.
  all: destruct (binary_search _ _) as [|i] eqn:Hi in Hl; [done|]; simplify_eq.
  all: reserve_run; [|done|apply deposit_nonneg; [done|lia]].
  all: apply deposit_event_ok, put_proxies_ok; [done| |rewrite E; cbn [snd from_option]; unfold id in *; lia].
  all: split; [apply insert_at_some|eapply insert_at_sorted; [|exact Hi]| |done]; cbn [fst] in *.
  - constructor.
  - rewrite length_insert_at. lia.
  - apply Hwf.
  - rewrite length_insert_at. lia.
Qed.

Lemma remove_proxy_delegate_ok a d t n s u s' : config_ok -> proxy_inv s -> remove_proxy_delegate a d t n s = Ok (u, s') -> proxy_inv s'.
Proof.
  intros Hc Hs H. unfold remove_proxy_delegate in H. monad_inv H.
  match goal with Ho : Proxies s !! a = Some (?l, ?z) |- _ => rename l into ps, z into dep, Ho into Es end.
  assert (proxies a s = (ps, dep)) as Ep by (unfold proxies; by rewrite Es).
  pose proof (deposit_of_proxies a s Hc Hs) as Hd. rewrite Ep in Hd. cbn in Hd.
  pose proof (pi_proxies s Hs a _ Es) as [P1 P2 P3 P4]. cbn in *.
  destruct (binary_search _ _) as [i|] eqn:Hi in Hl; [|done]. simplify_eq.
  reserve_run; [|done|apply deposit_nonneg; [done|lia]].
  apply deposit_event_ok, put_proxies_ok; [done| |rewrite Ep; cbn [snd]].
  - destruct (delete _ ps) as [|x q] eqn:Eq; [done|]. rewrite <- Eq in *. split; cbn [fst snd]; [by rewrite Eq|by apply delete_sorted| |done].
    rewrite length_delete; [lia|]. rewrite (search_found _ _ _ Hi). eauto.
  - destruct (delete _ ps) as [|x q] eqn:Eq; cbn [snd from_option length] in *. { change (deposit (Z.of_nat 0)) with 0 in Hw. cbn. lia. }
    cbn [from_option snd]. lia.
Qed.

Lemma edit_announcements_run d f s u s' : edit_announcements d f s = Ok (u, s') -> config_ok -> proxy_inv s ->
  proxy_inv s' /\ exists pending dep, Announcements s !! d = Some (pending, dep) /\
    (exists ann, ann ∈ pending /\ f ann = false) /\ (announcements d s').1 = filter (fun ann => f ann = true) pending.
Proof.
  intros H Hc Hs. unfold edit_announcements, rejig_deposit in H. monad_inv H.
  match goal with Ho : Announcements s !! d = Some (?l, ?z) |- _ => rename l into pending, z into dep, Ho into Es end.
  assert (announcements d s = (pending, dep)) as Ea by (unfold announcements; by rewrite Es).
  pose proof (deposit_of_announcements d s Hc Hs) as Hd. rewrite Ea in Hd. cbn in Hd.
  pose proof (pi_announcements s Hs d _ Es) as [A1 A2 A3]. cbn in *.
  set (kept := filter _ pending) in *.
  assert (length kept <= length pending)%nat by apply length_filter.
  destruct (deposit_nonneg (len kept) Hc ltac:(lia)) as [_ Hdep]. unfold announcement_deposit in Hdep.
  reserve_run; [|done|destruct (len kept =? 0); [done|lia]]. split.
  - apply put_announcements_ok; [done| |rewrite Ea; cbn [snd]; destruct (Z.eqb_spec (len kept) 0); cbn; lia].
    destruct (Z.eqb_spec (len kept) 0); [done|]. split; cbn; [by destruct kept|lia|].
    unfold announcement_deposit. by rewrite (proj2 (Z.eqb_neq _ _)).
  - eexists _, _. split; [done|]. split.
    + destruct (decide (Exists (fun ann => f ann = false) pending)) as [He|Hn]; [by apply Exists_exists in He|].
      exfalso. assert (kept = pending) as E; [|rewrite E in *; lia]. apply filter_all. intros x Hx.
      destruct (f x) eqn:Ef; [done|]. destruct Hn. apply Exists_exists. eauto.
    + unfold announcements. cbn. rewrite lookup_partial_alter_eq. destruct (Z.eqb_spec (len kept) 0) as [Ek|]; [|done]. cbn.
      symmetry. apply nil_length_inv. fold kept. lia.
Qed.

Lemma announce_ok o r h s u s' : config_ok -> proxy_inv s -> announce o r h s = Ok (u, s') -> proxy_inv s'.
Proof.
  intros Hc Hs H. unfold announce, rejig_deposit in H. monad_inv H.
  match goal with E : announcements ?w s = (?l, ?z) |- _ => rename l into pending, z into dep, E into Ea, w into who end.
  pose proof (deposit_of_announcements who s Hc Hs) as Hd. rewrite Ea in Hd. cbn in Hd.
  set (pending' := pending ++ _) in *.
  assert (len pending' = len pending + 1) as El by (unfold pending'; rewrite length_app; cbn; lia).
  destruct (deposit_nonneg (len pending') Hc ltac:(lia)) as [_ Hdep]. unfold announcement_deposit in Hdep.
  rewrite (proj2 (Z.eqb_neq (len pending') 0)) in * by lia. simplify_eq. reserve_run; [|done|lia].
  apply deposit_event_ok, put_announcements_ok; [done| |rewrite Ea; cbn; lia].
  split; cbn; [intros E0; rewrite E0 in El; cbn in El; lia|lia|]. unfold announcement_deposit. by rewrite (proj2 (Z.eqb_neq _ _)) by lia.
Qed.

Lemma unreserve_ok who n x s : config_ok -> proxy_inv s -> from_option snd 0 x = 0 -> from_option proxies_wf True x ->
  proxy_inv (put_proxies who x s <| world ::= fun w => unreserve w n (proxies who s).2 |>).
Proof.
  intros Hc Hs E Hx. apply (put_proxies_ok who x s (unreserve (world s) n (proxies who s).2)); [done..|].
  rewrite E. pose proof (unreserve_total (world s) n _ (deposit_of_proxies who s Hc Hs)). lia.
Qed.

Lemma create_pure_ok o t n i s u s' : config_ok -> proxy_inv s -> create_pure o t n i s = Ok (u, s') -> proxy_inv s'.
Proof.
  intros Hc Hs H. unfold create_pure in H. monad_inv H. destruct (cf_factor Hc), (cf_base Hc). cbn in *.
  match goal with Hr : reserve _ _ _ = Ok ?w |- _ => apply reserve_total in Hr; [|unfold sat_add; lia] end.
  apply deposit_event_ok, put_proxies_ok; [done| |].
  - split; cbn; [done|repeat constructor|lia|]. unfold deposit, sat_mul. cbn. f_equal. lia.
  - unfold proxies. match goal with Hn : negb (bool_decide (is_Some ?m)) = true |- _ => destruct m; [done|] end. cbn. lia.
Qed.

Lemma map_err_ok {A} e (m : Pr W A) s r : map_err e m s = Ok r -> m s = Ok r.
Proof. unfold map_err. by destruct (m s). Qed.

(** Every call keeps the invariant when the calls it dispatches do. *)
Definition keeps (bypass : C -> Origin -> State W -> result DispatchError (State W)) (c : C) : Prop :=
  forall o s s', proxy_inv s -> bypass c o s = Ok s' -> proxy_inv s'.

Lemma do_proxy_ok bypass def r call s : keeps bypass call -> proxy_inv s -> proxy_inv (do_proxy bypass def r call s).
Proof.
  intros Hk Hs. unfold do_proxy, dispatch. destruct (filter_call _ _); cbn; [|by apply deposit_event_ok].
  destruct (bypass _ _ s) eqn:E; cbn; apply deposit_event_ok; [by eapply Hk|done].
Qed.

(** The calls a call of the pallet dispatches. *)
Definition proxied (c : ProxyCall C) : list C :=
  match c with Proxy_ _ _ call | ProxyAnnounced _ _ _ call => [call] | _ => [] end.

Lemma proxy_call_ok bypass c o s u s' : config_ok -> Forall (keeps bypass) (proxied c) -> proxy_inv s ->
  proxy_call bypass c o s = Ok (u, s') -> proxy_inv s'.
Proof.
  intros Hc Hk Hs H. destruct c; cbn in H, Hk.
  - unfold proxy in H. monad_inv H. apply do_proxy_ok; [by apply Forall_singleton|done].
  - unfold add_proxy in H. monad_inv H. by eapply add_proxy_delegate_ok.
  - unfold remove_proxy in H. monad_inv H. by eapply remove_proxy_delegate_ok.
  - unfold remove_proxies in H. monad_inv H. by apply (unreserve_ok _ _ None).
  - by eapply create_pure_ok.
  - unfold kill_pure in H. monad_inv H.
    match goal with E : proxies ?a s = (_, ?d) |- _ => replace d with (proxies a s).2 by (by rewrite E) end.
    by apply (unreserve_ok _ _ None).
  - by eapply announce_ok.
  - unfold remove_announcement in H. monad_inv H. by eapply edit_announcements_run.
  - unfold reject_announcement in H. monad_inv H. by eapply edit_announcements_run.
  - unfold proxy_announced in H. monad_inv H. apply do_proxy_ok; [by apply Forall_singleton|].
    match goal with Hm : map_err _ _ _ = _ |- _ => apply map_err_ok in Hm end. by eapply edit_announcements_run.
Qed.

(** ** Who may dispatch *)

Lemma find_proxy_ok r d t s def : find_proxy r d t s = Ok def ->
  def ∈ (proxies r s).1 /\ delegate def = d /\ (forall y, t = Some y -> proxy_type def = y).
Proof.
  unfold find_proxy. rewrite ok_or_ok. intros H. apply bind_Some in H as ([i x] & (Hi & Hf & _)%list_find_Some & [= ->]).
  apply andb_prop in Hf as [Hd Ht]. rewrite bool_decide_eq_true in Hd. split; [by eapply list_elem_of_lookup_2|]. split; [done|].
  intros y ->. by rewrite bool_decide_eq_true in Ht.
Qed.

(** C14: A delegate with a delay acts only on announced calls. [proxy_announced]
    succeeds only if the account it names is a delegate of [real] and had announced
    this very call for [real] at least the delay of its registration ago; all such
    announcements, and no others, are then taken from its list, so that the call is
    made at most once for them, and the call goes out under the registration's
    filter. An announcement that was removed or rejected before cannot be used. *)
Theorem announced_call_waits bypass o dl rl t call s u s' : config_ok -> proxy_inv s ->
  proxy_announced bypass o dl rl t call s = Ok (u, s') ->
  exists d r def s1, lookup_source dl = Ok d /\ lookup_source rl = Ok r /\
    def ∈ (proxies r s).1 /\ delegate def = d /\ (forall y, t = Some y -> proxy_type def = y) /\
    let due ann := same_call r (hash_of call) ann && (delay def <=? sat_sub (block_number (world s)) (height ann)) in
    (exists ann, ann ∈ (announcements d s).1 /\ due ann = true) /\
    (announcements d s1).1 = filter (fun ann => due ann = false) (announcements d s).1 /\
    s' = do_proxy bypass def r call s1.
Proof.
  intros Hc Hs H. unfold proxy_announced in H. monad_inv H.
  match goal with He : map_err _ _ _ = Ok (_, ?s') |- _ => apply map_err_ok in He; rename s' into s1 end.
  match goal with Hl : find_proxy ?r ?d _ _ = Ok ?def |- _ => apply find_proxy_ok in Hl as (F1 & F2 & F3); exists d, r, def, s1 end.
  split_and!; try done. cbv zeta.
  match goal with He : edit_announcements _ _ _ = _ |- _ => apply edit_announcements_run in He as (_ & pending & dep & Es & (ann & Hin & Hann) & Hk); [|done..] end.
  unfold announcements at 1 3. rewrite Es. cbn [fst default]. split.
  - exists ann. split; [done|]. apply orb_false_iff in Hann as [Hann1 Hann2]. apply negb_false_iff in Hann1. rewrite Hann1. cbn. lia.
  - split; [|done]. rewrite Hk. apply list_filter_iff. intros x.
    destruct (same_call _ _ x); cbn; [|done]. rewrite Z.ltb_antisym. by destruct (_ <=? _).
Qed.
End ProxyProofs.
