(* ===== verification/RuntimeCalls.v ===== *)
(** * The calls of the runtime and what proxies may make (src/runtime/src/lib.rs)

    The runtime puts the calls of all pallets into one type. What the proxy types
    permit and how they include each other is written down here ([InstanceFilter]),
    as is the filter every signed origin starts with. Calls of the proxy and the
    utility pallet contain calls: [run_call] ties the knot between them; every
    other call is carried out by [leaf]. *)

From S2P Require Import Prelude Frame Dispatch Proxy Utility.
From stdpp Require Import prelude gmap list fin_maps sorting.
From Stdlib Require Import ZArith Lia.
#[local] Open Scope Z_scope.
#[local] Open Scope monad_scope.

(** ** Calls *)

(** What the arguments are made of that no filter looks at, hashes, the way accounts
    are named, and origins without their filter. *)
Class RuntimeTypes := {
  Args : Type;
  Hash : Type;
  Source : Type;
  OriginCaller : Type;
}.
Class RuntimeAccounts {FS : FrameSystem} {RT : RuntimeTypes} := {
  account_order :: Ord AccountId;
  hash_eq_dec :: EqDecision Hash;
  lookup_account : Source -> result DispatchError AccountId;
}.

(** [ProxyType] (src/common/src/lib.rs) *)
Inductive ProxyType : Type :=
  | Any | Owner | NonCritical | NonTransfer | Senate | NonFungibile | Triumvirate | Governance | Staking
  | Registration | Transfer | SmallTransfer | RootWeights | ChildKeys | SudoUncheckedSetCode | SwapHotkey.
#[export] Instance ProxyType_eq_dec : EqDecision ProxyType.
Proof. solve_decision. Defined.

Definition proxy_type_index (t : ProxyType) : Z :=
  match t with
  | Any => 0 | Owner => 1 | NonCritical => 2 | NonTransfer => 3 | Senate => 4 | NonFungibile => 5 | Triumvirate => 6
  | Governance => 7 | Staking => 8 | Registration => 9 | Transfer => 10 | SmallTransfer => 11 | RootWeights => 12
  | ChildKeys => 13 | SudoUncheckedSetCode => 14 | SwapHotkey => 15
  end.
#[export] Instance ProxyType_ord : Ord ProxyType := fun x y => proxy_type_index x ?= proxy_type_index y.

Definition includes (t o : ProxyType) : bool :=
  if bool_decide (t = o) then true
  else
    match t, o with
    | Any, _ => true
    | _, Any => false
    | NonTransfer, _ => match o with Transfer | SmallTransfer => false | _ => true end
    | Governance, (Triumvirate | Senate) => true
    | Transfer, SmallTransfer => true
    | _, _ => false
    end.

#[export] Instance runtime_proxy_names {RT : RuntimeTypes} : ProxyNames := {|
  Proxy.ProxyType := ProxyType;
  CallHash := Hash;
  LookupSource := Source;
|}.
#[export] Instance runtime_proxy_types {FS : FrameSystem} {RT : RuntimeTypes} {RA : RuntimeAccounts} : ProxyTypes := {|
  default_type := Any;
  is_superset := includes;
  lookup_source := lookup_account;
|}.

Section Calls.
Context {RT : RuntimeTypes}.

Inductive SystemCall : Type := SetCode (args : Args) | OtherSystem (args : Args).
Inductive BalancesCall : Type :=
  | TransferKeepAlive (value : Z) (args : Args) | TransferAllowDeath (value : Z) (args : Args) | TransferAll (args : Args)
  | OtherBalances (args : Args).
Inductive AdminUtilsCall : Type := SudoSetSnOwnerHotkey (args : Args) | OtherAdminUtils (args : Args).

(** [pallet_subtensor::Call] *)
Inductive SubtensorCall : Type :=
  | SetWeights (args : Args) | BatchSetWeights (args : Args) | CommitWeights (args : Args)
  | BatchCommitWeights (args : Args) | RevealWeights (args : Args) | CommitCrv3Weights (args : Args)
  | BatchRevealWeights (args : Args) | SetTaoWeights (args : Args) | BecomeDelegate (args : Args)
  | DecreaseTake (args : Args) | IncreaseTake (args : Args) | AddStake (args : Args) | RemoveStake (args : Args)
  | ServeAxon (args : Args) | ServeAxonTls (args : Args) | ServePrometheus (args : Args) | Register (args : Args)
  | RootRegister (args : Args) | AdjustSenate (args : Args) | BurnedRegister (args : Args) | SwapHotkey_ (args : Args)
  | SwapColdkey (args : Args) | SetChildkeyTake (args : Args) | SudoSetTxChildkeyTakeRateLimit (args : Args)
  | SudoSetMinChildkeyTake (args : Args) | SudoSetMaxChildkeyTake (args : Args) | SubtensorSudo (args : Args)
  | SubtensorSudoUncheckedWeight (args : Args) | Vote (args : Args) | RegisterNetwork (args : Args) | Faucet (args : Args)
  | DissolveNetwork (args : Args) | SetChildren (args : Args) | ScheduleSwapColdkey (args : Args)
  | ScheduleDissolveNetwork (args : Args) | SetIdentity (args : Args) | SetSubnetIdentity (args : Args)
  | RegisterNetworkWithIdentity (args : Args) | UnstakeAll (args : Args) | UnstakeAllAlpha (args : Args)
  | MoveStake (args : Args) | TransferStake (alpha_amount : Z) (args : Args) | SwapStake (args : Args)
  | AddStakeLimit (args : Args) | RemoveStakeLimit (args : Args) | SwapStakeLimit (args : Args)
  | TryAssociateHotkey (args : Args) | StartCall (args : Args) | AssociateEvmKey (args : Args) | RecycleAlpha (args : Args)
  | BurnAlpha (args : Args) | SetPendingChildkeyCooldown (args : Args) | RemoveStakeFullLimit (args : Args).

Inductive SudoCall (C : Type) : Type :=
  | Sudo (call : C) | SudoUncheckedWeight (call : C) (weight : Z * Z) | OtherSudo (args : Args).

(** [RuntimeCall], in the order of [construct_runtime!]. *)
Inductive RuntimeCall : Type :=
  | System_ (c : SystemCall)
  | Timestamp_ (args : Args)
  | Grandpa_ (args : Args)
  | Balances_ (c : BalancesCall)
  | SubtensorModule_ (c : SubtensorCall)
  | Triumvirate_ (args : Args)
  | TriumvirateMembers_ (args : Args)
  | SenateMembers_ (args : Args)
  | Utility_ (c : UtilityCall OriginCaller RuntimeCall)
  | Sudo_ (c : SudoCall RuntimeCall)
  | Multisig_ (args : Args)
  | Preimage_ (args : Args)
  | Scheduler_ (args : Args)
  | ProxyPallet_ (c : ProxyCall RuntimeCall)
  | Registry_ (args : Args)
  | Commitments_ (args : Args)
  | AdminUtils_ (c : AdminUtilsCall)
  | SafeMode_ (args : Args)
  | Ethereum_ (args : Args)
  | EVM_ (args : Args)
  | BaseFee_ (args : Args)
  | Drand_ (args : Args)
  | Crowdloan_ (args : Args)
  | Swap_ (args : Args).

Definition SMALL_TRANSFER_LIMIT : Z := 500000000.

(** ** What a proxy type permits ([InstanceFilter]) *)

Definition filter (t : ProxyType) (c : RuntimeCall) : bool :=
  match t with
  | Any => true
  | NonTransfer =>
      match c with
      | Balances_ _ | SubtensorModule_ (TransferStake _ _ | ScheduleSwapColdkey _ | SwapColdkey _) => false
      | _ => true
      end
  | NonFungibile =>
      match c with
      | Balances_ _
      | SubtensorModule_ (AddStake _ | AddStakeLimit _ | RemoveStake _ | RemoveStakeLimit _ | RemoveStakeFullLimit _
          | UnstakeAll _ | UnstakeAllAlpha _ | SwapStake _ | SwapStakeLimit _ | MoveStake _ | TransferStake _ _
          | BurnedRegister _ | RootRegister _ | ScheduleSwapColdkey _ | SwapColdkey _ | SwapHotkey_ _) => false
      | _ => true
      end
  | Transfer =>
      match c with
      | Balances_ (TransferKeepAlive _ _ | TransferAllowDeath _ _ | TransferAll _)
      | SubtensorModule_ (TransferStake _ _) => true
      | _ => false
      end
  | SmallTransfer =>
      match c with
      | Balances_ (TransferKeepAlive value _) => value <? SMALL_TRANSFER_LIMIT
      | Balances_ (TransferAllowDeath value _) => value <? SMALL_TRANSFER_LIMIT
      | SubtensorModule_ (TransferStake alpha_amount _) => alpha_amount <? SMALL_TRANSFER_LIMIT
      | _ => false
      end
  | Owner => match c with AdminUtils_ (SudoSetSnOwnerHotkey _) => false | AdminUtils_ _ => true | _ => false end
  | NonCritical =>
      match c with
      | SubtensorModule_ (DissolveNetwork _ | RootRegister _ | BurnedRegister _ | SetTaoWeights _)
      | Triumvirate_ _ | Sudo_ _ => false
      | _ => true
      end
  | Triumvirate => match c with Triumvirate_ _ | TriumvirateMembers_ _ => true | _ => false end
  | Senate => match c with SenateMembers_ _ => true | _ => false end
  | Governance => match c with SenateMembers_ _ | Triumvirate_ _ | TriumvirateMembers_ _ => true | _ => false end
  | Staking =>
      match c with
      | SubtensorModule_ (AddStake _ | RemoveStake _ | UnstakeAll _ | UnstakeAllAlpha _ | SwapStake _ | SwapStakeLimit _
          | MoveStake _ | AddStakeLimit _ | RemoveStakeLimit _ | RemoveStakeFullLimit _) => true
      | _ => false
      end
  | Registration => match c with SubtensorModule_ (BurnedRegister _ | Register _) => true | _ => false end
  | RootWeights => match c with SubtensorModule_ (SetTaoWeights _) => true | _ => false end
  | ChildKeys => match c with SubtensorModule_ (SetChildren _ | SetChildkeyTake _) => true | _ => false end
  | SudoUncheckedSetCode =>
      match c with Sudo_ (SudoUncheckedWeight _ (System_ (SetCode _)) _) => true | _ => false end
  | SwapHotkey => match c with SubtensorModule_ (SwapHotkey_ _) => true | _ => false end
  end.

Definition is_batch (c : RuntimeCall) : bool :=
  match c with Utility_ (ForceBatch _ | BatchAll _ | Batch _) => true | _ => false end.

(** [NoNestingCallFilter] *)
Definition no_nesting (c : RuntimeCall) : bool :=
  match c with
  | Utility_ (ForceBatch calls) | Utility_ (Batch calls) | Utility_ (BatchAll calls) => negb (existsb is_batch calls)
  | _ => true
  end.
End Calls.

(** The remaining parts of the runtime: the hash of a call, the safe-mode filter,
    and every call outside the two pallets. *)
Class RuntimeEnv {FS : FrameSystem} {RT : RuntimeTypes} (W : Type) := {
  hash_call : RuntimeCall -> Hash;
  safe_mode : RuntimeCall -> bool;
  caller_origin : OriginCaller -> Origin;
  leaf : RuntimeCall -> Origin -> Proxy.State W -> result DispatchError (Proxy.State W);
  put_event : Utility.Event -> W -> W;
  size_of_call : Z;
  allocation_limit : Z;
  derived_account : AccountId -> Z -> AccountId;
  proxy_error : error Proxy.Error -> DispatchError;
  utility_error : error Utility.Error -> DispatchError;
}.

Section Runtime.
Context {FS : FrameSystem} {RT : RuntimeTypes} {RA : RuntimeAccounts} {W : Type}.
Context {Env : RuntimeEnv W} {CO : CallOrigin RuntimeCall} {PE : ProxyEnv W} {Cfg : ProxyConfig}.
Abbreviation St := (Proxy.State W).

#[export] Instance runtime_proxy_calls : ProxyCalls RuntimeCall := {|
  type_filter := filter;
  hash_of := hash_call;
  is_sub_type c := match c with ProxyPallet_ c => Some c | _ => None end;
|}.

#[export] Instance runtime_utility : UtilityEnv OriginCaller RuntimeCall St := {|
  utility_sub_type c := match c with Utility_ c => Some c | _ => None end;
  into_origin := caller_origin;
  put_utility_event e s := s <| world ::= put_event e |>;
  call_size := size_of_call;
  MAX_POSSIBLE_ALLOCATION := allocation_limit;
  derivative_entropy := derived_account;
|}.

(** [BaseCallFilter], which every signed origin begins with. *)
Definition base_call_filter (c : RuntimeCall) : bool := safe_mode c && no_nesting c.

Definition to_dispatch {E} (into : E -> DispatchError) (r : result E (unit * St)) : result DispatchError St :=
  match r with Ok (_, s) => Ok s | Err e => Err (into e) end.

(** [dispatch_bypass_filter] of [RuntimeCall] *)
Fixpoint run_call (c : RuntimeCall) (o : Origin) (s : St) : result DispatchError St :=
  match c with
  | ProxyPallet_ p => to_dispatch proxy_error (proxy_call run_call p o s)
  | Utility_ u => to_dispatch utility_error (utility_call run_call u o s)
  | _ => leaf c o s
  end.
End Runtime.
