(* ===== verification/RuntimeProofs.v ===== *)
(** * What delegates can do in the runtime

    The invariant of the proxy pallet over all calls of the runtime, however they
    are nested; what a delegate's calls can change; and how the proxy types include
    each other, with one pair that lets a delegate escape its type. *)

From S2P Require Import Prelude Frame Dispatch Proxy ProxyProofs Utility RuntimeCalls.
From stdpp Require Import prelude gmap list fin_maps sorting.
From Stdlib Require Import ZArith Lia.
#[local] Open Scope Z_scope.
#[local] Open Scope monad_scope.

(** [InstanceFilter::filter] *)
Abbreviation permits := RuntimeCalls.filter.

(** ** How the proxy types include each other *)

(** C32: The inclusion of proxy types respects what they permit, with one exception.
    Whenever the runtime says that one type includes another, which allows a
    delegate of the first to register delegates of the second, every call the
    second permits is permitted by the first, unless the first is [NonTransfer] and
    the second [NonCritical]; for those two there is a call, a transfer of a balance,
    that only the second permits. *)
Theorem inclusion_respects_filters {RT : RuntimeTypes} t o :
  includes t o = true ->
  if bool_decide (t = NonTransfer /\ o = NonCritical)
  then forall b, permits o (Balances_ b) = true /\ permits t (Balances_ b) = false
  else forall c, permits o c = true -> permits t c = true.
Proof.
  intros H. case_bool_decide as E; [destruct E as [-> ->]; intros b; by split|].
  destruct t, o; try discriminate H; try (exfalso; apply E; by split); try done; intros c Hc; destruct c as [| | |[]|[]| | | | | | | | | | | | | | | | | | |];
    first [discriminate Hc | reflexivity | exact Hc | destruct c; first [discriminate Hc | reflexivity | exact Hc]].
Qed.

(** ** Calls inside calls *)

Section Calls.
Context {RT : RuntimeTypes}.

(** The calls a call hands on to be dispatched. *)
Definition inner (c : RuntimeCall) : list RuntimeCall :=
  match c with ProxyPallet_ p => proxied p | Utility_ u => utility_inner u | _ => [] end.

(** Induction on the nesting. *)
Lemma call_ind (P : RuntimeCall -> Prop) : (forall c, Forall P (inner c) -> P c) -> forall c, P c.
Proof.
  intros H. fix F 1. intros c. apply H.
  assert (forall l, Forall P l) as FL by (fix G 1; intros [|d l]; constructor; [apply F|apply G]).
  destruct c as [| | | | | | | |u| | | | |p| | | | | | | | | |]; try exact (List.Forall_nil P).
  - destruct u; cbn; first [apply FL | constructor; [apply F|constructor]].
  - destruct p; cbn; first [exact (List.Forall_nil P) | constructor; [apply F|constructor]].
Qed.
End Calls.

(** Signed origins begin with the base filter; calls of other pallets keep the books
    of the proxy pallet, and an event does not move balances. *)
Class RuntimeLaws {FS : FrameSystem} {RT : RuntimeTypes} {RA : RuntimeAccounts} (W : Type) {Env : RuntimeEnv W} {CO : CallOrigin RuntimeCall}
    {PE : ProxyEnv W} {Cfg : ProxyConfig} {PL : ProxyLaws W} := {
  signed_filter : forall a c, filter_call (signed_origin a) c = base_call_filter c;
  leaf_keeps : forall c o s s', proxy_inv s -> leaf c o s = Ok s' -> proxy_inv s';
  event_total : forall e w, total_reserved (put_event e w) = total_reserved w;
}.

Section Delegates.
Context {FS : FrameSystem} {RT : RuntimeTypes} {RA : RuntimeAccounts} {W : Type}.
Context {Env : RuntimeEnv W} {CO : CallOrigin RuntimeCall} {PE : ProxyEnv W} {Cfg : ProxyConfig}.
Context {PL : ProxyLaws W} {RL : RuntimeLaws W} {OL : CallOriginLaws RuntimeCall}.
Implicit Types s : Proxy.State W.

(** ** The books of the proxy pallet *)

Lemma utility_event_inv e s : proxy_inv s -> proxy_inv (put_utility_event e s).
Proof. intros [H1 H2 H3]. split; [done..|]. unfold backed in *. cbn. by rewrite event_total. Qed.

Lemma run_call_keeps c : config_ok -> keeps run_call c.
Proof.
  intros Hc. induction c as [c IH] using call_ind. intros o s s' Hs H.
  destruct c; cbn [run_call] in H; try (by eapply leaf_keeps).
  - destruct (utility_call run_call c o s) as [[u s1]|] eqn:E; [|done]. cbn in H. simplify_eq.
    eapply utility_call_keeps; [exact utility_event_inv|exact IH|exact Hs|exact E].
  - destruct (proxy_call run_call c o s) as [[u s1]|] eqn:E; [|done]. cbn in H. simplify_eq.
    eapply proxy_call_ok; [exact Hc|exact IH|exact Hs|exact E].
Qed.

(** What can happen: any call from any origin, and changes elsewhere that leave the
    reserves of the currency in place. *)
Inductive proxy_step : Proxy.State W -> Proxy.State W -> Prop :=
  | step_run c o s s' : run_call c o s = Ok s' -> proxy_step s s'
  | step_world w s : total_reserved w = total_reserved (world s) -> proxy_step s (s <| world := w |>).
Inductive proxy_reachable : Proxy.State W -> Prop :=
  | proxy_genesis es w : proxy_reachable (mkState ∅ ∅ es w)
  | proxy_next s s' : proxy_reachable s -> proxy_step s s' -> proxy_reachable s'.

Lemma reachable_inv_proxy s : config_ok -> proxy_reachable s -> proxy_inv s.
Proof.
  intros Hc. induction 1 as [es w|s s' _ IH Hst]; [|destruct Hst as [c o s s' H|w s H]].
  - split; cbn; [apply map_Forall_empty..|]. unfold backed, booked. cbn.
    rewrite !fmap_empty. change (map_sum (∅ : gmap AccountId Z)) with 0. apply total_reserved_nonneg.
  - exact (run_call_keeps c Hc _ _ _ IH H).
  - destruct IH as [H1 H2 H3]. split; [exact H1|exact H2|]. unfold backed in *. cbn. rewrite H. exact H3.
Qed.

(** C9: The books of the proxy pallet. However calls are nested in each other,
    through proxies, batches and other origins, in every reachable state the
    delegates of an account are sorted without duplicates, at most [MaxProxies], with
    the deposit their number asks for; so are the pending announcements, at most
    [MaxPending]; and all deposits together are really reserved. *)
Theorem proxies_stay_backed s a : config_ok -> proxy_reachable s ->
  let '(defs, d) := proxies a s in
  let '(pending, e) := announcements a s in
  StronglySorted cmp_lt defs /\ (defs = [] \/ len defs <= MaxProxies) /\ d = deposit (len defs) /\
  (pending = [] \/ len pending <= MaxPending) /\ e = announcement_deposit (len pending) /\
  booked s <= total_reserved (world s).
Proof.
  intros Hc Hs%reachable_inv_proxy; [|done]. destruct (proxies a s) as [defs d] eqn:E1, (announcements a s) as [pending e] eqn:E2.
  assert (StronglySorted cmp_lt defs /\ (defs = [] \/ len defs <= MaxProxies) /\ d = deposit (len defs)) as (? & ? & ?).
  { destruct (proxies_or_none a s Hs) as [[E _]|[[P1 P2 P3 P4] _]]; rewrite E1 in *; [simplify_eq; split_and!; [constructor|by left|done]|].
    split_and!; [done|by right|done]. }
  assert ((pending = [] \/ len pending <= MaxPending) /\ e = announcement_deposit (len pending)) as (? & ?).
  { destruct (announcements_or_none a s Hs) as [[E _]|[[P1 P2 P3] _]]; rewrite E2 in *; [simplify_eq; split; [by left|done]|].
    split; [by right|done]. }
  split_and!; [done..|apply Hs].
Qed.

(** ** A delegate stays within its type *)

(** A call of neither pallet; a call that is one, or batches of such. *)
Definition is_leaf (c : RuntimeCall) : bool := match c with ProxyPallet_ _ | Utility_ _ => false | _ => true end.
Fixpoint plain (c : RuntimeCall) : bool :=
  match c with
  | ProxyPallet_ _ => false
  | Utility_ (Batch calls) | Utility_ (BatchAll calls) | Utility_ (ForceBatch calls) => forallb plain calls
  | Utility_ _ => false
  | _ => true
  end.

(** An origin of [r] that lets through no more than [t] permits. *)
Record confined (t : RuntimeCalls.ProxyType) (r : AccountId) (o : Origin) : Prop := {
  cn_signed : ensure_signed o = Ok r;
  cn_root : is_ok (ensure_root o) = false;
  cn_filter : forall c, filter_call o c = true -> permits t c = true;
}.

Lemma confined_add t r o f : confined t r o -> confined t r (add_filter f o).
Proof.
  intros [H1 H2 H3]. split; [by rewrite filter_signed|by rewrite filter_root|].
  intros c. rewrite filter_both. intros [Hc _]%andb_prop. by apply H3.
Qed.

Lemma filter_permits def c : proxy_filter def c = true -> permits (proxy_type def) c = true.
Proof.
  unfold proxy_filter. cbn. destruct c as [| | | | | | | | | | | | |p| | | | | | | | | |]; try done.
  destruct p; try done; destruct (negb _); done.
Qed.

Lemma confined_proxy def r : confined (proxy_type def) r (add_filter (proxy_filter def) (signed_origin r)).
Proof.
  split; [by rewrite filter_signed, signed_signed|by rewrite filter_root, signed_root|].
  intros c. rewrite filter_both. intros [_ Hc]%andb_prop. by apply filter_permits.
Qed.

Section Keep.
Context (I : Proxy.State W -> Prop) (t : RuntimeCalls.ProxyType) (r : AccountId).
Context (Hev : forall e s, I s -> I (put_utility_event e s)).
Context (Hleaf : forall c o s s', is_leaf c = true -> permits t c = true -> ensure_signed o = Ok r ->
  leaf c o s = Ok s' -> I s -> I s').

Lemma plain_keeps c : plain c = true -> call_keeps run_call I (confined t r) c.
Proof using Hev Hleaf OL.
  induction c as [c IH] using call_ind. intros Hp o s s' Ho Hs H.
  unfold dispatch_item in H. rewrite (cn_root _ _ _ Ho) in H. unfold dispatch in H.
  destruct (filter_call o c) eqn:Ef; [|done]. apply (cn_filter _ _ _ Ho) in Ef.
  destruct c as [| | | | | | | |u| | | | |p| | | | | | | | | |]; cbn [run_call] in H;
    try (refine (Hleaf _ o s s' _ Ef (cn_signed _ _ _ Ho) H Hs); reflexivity); [|discriminate Hp].
  destruct (utility_call run_call u o s) as [[x s1]|] eqn:E; [|done]. cbn in H. simplify_eq.
  assert (forall l, forallb plain l = true -> Forall (fun c => plain c = true -> call_keeps run_call I (confined t r) c) l ->
    Forall (call_keeps run_call I (confined t r)) l) as HF.
  { intros l Hl HI. rewrite List.Forall_forall in *. rewrite forallb_forall in Hl. auto. }
  destruct u as [l| |l| |l|]; try discriminate Hp; specialize (HF l Hp IH); cbn in E.
  - unfold batch, ensure_batch in E. monad_inv E. by eapply (batch_loop_keeps run_call I Hev (confined t r)).
  - unfold batch_all, ensure_batch in E. monad_inv E. destruct (batch_all_loop _ _ _ _) eqn:El; [|done]. simplify_eq.
    eapply (batch_all_loop_keeps run_call I Hev (confined t r)); [|exact HF|exact Hs|exact El].
    unfold batch_all_origin. rewrite (cn_root _ _ _ Ho). by apply confined_add.
  - unfold force_batch, ensure_batch in E. monad_inv E. by eapply (force_batch_loop_keeps run_call I Hev (confined t r)).
Qed.
End Keep.

(** C10: A delegate stays within its type. A call made through a proxy names an account
    that registered the caller, with no delay and, if a type is asked for, with that
    type. If the call is one of another pallet, or batches of such calls nested in
    any way, then whatever it does is done by calls that the registered type permits,
    made in the name of that account: every property [I] of the state that those
    calls and events keep is kept. In particular a call the type does not permit
    only leaves an event. *)
Theorem delegate_stays_within_type src ty c o s s' :
  plain c = true -> run_call (ProxyPallet_ (Proxy_ src ty c)) o s = Ok s' ->
  exists who r def, ensure_signed o = Ok who /\ lookup_account src = Ok r /\
    def ∈ (proxies r s).1 /\ delegate def = who /\ delay def = 0 /\ (forall y, ty = Some y -> proxy_type def = y) /\
    (permits (proxy_type def) c = false -> s' = deposit_event (ProxyExecuted (Err CallFiltered)) s) /\
    forall I : Proxy.State W -> Prop,
      (forall e s, I s -> I (put_utility_event e s)) -> (forall e s, I s -> I (deposit_event e s)) ->
      (forall d o s s', is_leaf d = true -> permits (proxy_type def) d = true -> ensure_signed o = Ok r ->
         leaf d o s = Ok s' -> I s -> I s') ->
      I s -> I s'.
Proof.
  intros Hp H. cbn [run_call] in H. destruct (proxy_call run_call _ o s) as [[u s1]|] eqn:E; [|done]. cbn in H, E. simplify_eq.
  unfold proxy in E. monad_inv E.
  match goal with Hs : ensure_signed o = Ok ?w, Hl : lookup_source src = Ok ?a, Hf : find_proxy _ _ _ _ = Ok ?d |- _ =>
    exists w, a, d; apply find_proxy_ok in Hf as (F1 & F2 & F3); rename d into def, a into r end.
  split_and!; try done; [lia| |].
  - intros Hf. unfold do_proxy, dispatch. rewrite filter_both.
    destruct (proxy_filter def c) eqn:Ef; [apply filter_permits in Ef; congruence|]. by rewrite andb_false_r.
  - intros I He1 He2 Hl Hs. unfold do_proxy. pose proof (confined_proxy def r) as Hc.
    destruct (dispatch run_call c _ s) as [s2|] eqn:Ed; cbn; apply He2; [|done].
    eapply (plain_keeps I (proxy_type def) r); [done|done|exact Hp|exact Hc|exact Hs|].
    unfold dispatch_item. by rewrite (cn_root _ _ _ Hc).
Qed.

(** ** A delegate that leaves its type *)

Lemma proxy_run src ty c o who r def s : ensure_signed o = Ok who -> lookup_account src = Ok r ->
  find_proxy r who ty s = Ok def -> delay def = 0 ->
  run_call (ProxyPallet_ (Proxy_ src ty c)) o s = Ok (do_proxy run_call def r c s).
Proof.
  intros H1 H2 H3 H4. cbn. unfold proxy, ext, bind, gets, lift, ensure, modify. cbn. by rewrite H1, H2, H3, H4.
Qed.

Lemma find_none r d t s : find_proxy r d (Some t) s = Err (Module NotProxy) ->
  forall x, x ∈ (proxies r s).1 -> delegate x = d -> proxy_type x <> t.
Proof.
  unfold find_proxy. intros H x Hx Hd Ht. destruct (list_find _ _) as [[i y]|] eqn:E; [done|].
  rewrite list_find_None, List.Forall_forall in E. apply (E x); [by apply list_elem_of_In|]. by rewrite !bool_decide_eq_true_2.
Qed.

Lemma find_added r d t n s l dep : Proxies s !! r = Some (l, dep) -> mkDef _ _ d t n ∈ l ->
  (forall x, x ∈ l -> delegate x = d -> proxy_type x = t -> x = mkDef _ _ d t n) ->
  find_proxy r d (Some t) s = Ok (mkDef _ _ d t n).
Proof.
  intros E Hin Hu. unfold find_proxy, proxies. rewrite E. cbn.
  destruct (list_find _ l) as [[i y]|] eqn:Ef.
  - apply list_find_Some in Ef as (Hi & Hf & _). apply andb_prop in Hf as [H1 H2]. rewrite bool_decide_eq_true in H1, H2.
    cbn. by rewrite (Hu y) by (done || by eapply list_elem_of_lookup_2).
  - rewrite list_find_None, List.Forall_forall in Ef. exfalso. apply (Ef (mkDef _ _ d t n)); [by apply list_elem_of_In|].
    cbn. by rewrite !bool_decide_eq_true_2.
Qed.

Lemma add_run src t n o who r s w : ensure_signed o = Ok r -> lookup_account src = Ok who -> r <> who ->
  (forall x, x ∈ (proxies r s).1 -> delegate x = who -> proxy_type x <> t) -> len (proxies r s).1 < MaxProxies ->
  reserve (world s) r (sat_sub (deposit (len (proxies r s).1 + 1)) (proxies r s).2) = Ok w ->
  (proxies r s).2 < deposit (len (proxies r s).1 + 1) ->
  exists s1 l dep, run_call (ProxyPallet_ (AddProxy src t n)) o s = Ok s1 /\ Proxies s1 !! r = Some (l, dep) /\
    forall x, x ∈ l <-> x = mkDef _ _ who t n \/ x ∈ (proxies r s).1.
Proof.
  intros H1 H2 Hne Hnone Hlen Hres Hgt. cbn. unfold add_proxy, add_proxy_delegate, ext, bind, gets, lift, ensure, modify. cbn.
  rewrite H1, H2, bool_decide_eq_false_2 by done. cbn. destruct (proxies r s) as [l dep] eqn:E. cbn in *.
  destruct (binary_search _ l) as [i|i] eqn:Hi.
  { apply search_found, list_elem_of_lookup_2, Hnone in Hi; done. }
  rewrite (proj2 (Z.ltb_lt _ _)) by lia. rewrite length_insert_at, Nat2Z.inj_succ, <- Z.add_1_r. unfold move_reserve.
  rewrite (proj2 (Z.compare_gt_iff _ _)) by lia. unfold ext, bind, gets, modify. cbn. rewrite Hres. cbn.
  eexists _, _, _. split; [done|]. cbn. rewrite lookup_partial_alter_eq. split; [done|]. intros x. apply elem_of_insert_at.
Qed.

(** C38: A [NonTransfer] delegate can transfer. The type permits no transfer, but it is
    taken to include [NonCritical], which does: a delegate [who] of [r] registers
    itself, through the proxy, as [NonCritical] delegate of [r], and then makes the
    transfer it was refused before, in the name of [r]. *)
Theorem non_transfer_delegate_transfers src_r src_w who r s w b :
  lookup_account src_r = Ok r -> lookup_account src_w = Ok who -> r <> who ->
  find_proxy r who (Some NonTransfer) s = Ok (mkDef _ runtime_proxy_names who NonTransfer 0) ->
  find_proxy r who (Some NonCritical) s = Err (Module NotProxy) ->
  len (proxies r s).1 < MaxProxies -> (proxies r s).2 < deposit (len (proxies r s).1 + 1) ->
  reserve (world s) r (sat_sub (deposit (len (proxies r s).1 + 1)) (proxies r s).2) = Ok w ->
  base_call_filter (ProxyPallet_ (AddProxy src_w NonCritical 0)) = true -> base_call_filter (Balances_ b) = true ->
  let o := signed_origin who in
  run_call (ProxyPallet_ (Proxy_ src_r (Some NonTransfer) (Balances_ b))) o s =
    Ok (deposit_event (ProxyExecuted (Err CallFiltered)) s) /\
  exists s1, run_call (ProxyPallet_ (Proxy_ src_r (Some NonTransfer) (ProxyPallet_ (AddProxy src_w NonCritical 0)))) o s = Ok s1 /\
  exists o', ensure_signed o' = Ok r /\
    run_call (ProxyPallet_ (Proxy_ src_r (Some NonCritical) (Balances_ b))) o s1 =
    Ok (let '(e, s2) := outcome (leaf (Balances_ b) o' s1) s1 in deposit_event (ProxyExecuted e) s2).
Proof.
  intros H1 H2 Hne Hf Hn Hlen Hgt Hres Hb1 Hb2. split; [|].
  - erewrite proxy_run by (done || apply signed_signed). unfold do_proxy, dispatch. rewrite filter_both. by rewrite andb_false_r.
  - destruct (add_run src_w NonCritical 0 (add_filter (proxy_filter (mkDef _ runtime_proxy_names who NonTransfer 0)) (signed_origin r)) who r s w)
      as (s1 & l & dep & Hrun & Hl & Hx); [by rewrite filter_signed, signed_signed|done|done|by apply find_none|done|done|done|].
    exists (deposit_event (ProxyExecuted (Ok tt)) s1). split.
    + erewrite proxy_run by (done || apply signed_signed). unfold do_proxy, dispatch.
      rewrite filter_both, signed_filter, Hb1. cbn [andb]. change (proxy_filter _ _) with true. cbn iota. by rewrite Hrun.
    + exists (add_filter (proxy_filter (mkDef _ runtime_proxy_names who NonCritical 0)) (signed_origin r)).
      split; [by rewrite filter_signed, signed_signed|].
      rewrite (proxy_run src_r (Some NonCritical) _ _ who r (mkDef _ runtime_proxy_names who NonCritical 0)); [|apply signed_signed|done| |done].
      2: { apply (find_added _ _ _ _ _ l dep); [done|by apply Hx; left|]. intros x [->|Hin]%Hx; [done|].
           intros Hd Ht. by destruct (find_none _ _ _ _ Hn x Hin Hd). }
      unfold do_proxy, dispatch. rewrite filter_both, signed_filter, Hb2. done.
Qed.
End Delegates.
