(* ===== verification/RuntimeExamples.v ===== *)
(** * Delegates on a small runtime

    An instance of the interfaces of the proxy and the utility pallet: accounts are
    numbers, an origin is a caller with a filter, balances are free or reserved, and
    the only call of another pallet that does something is a transfer to account 9.
    The deposits are those of the runtime. *)

From S2P Require Import Prelude Frame Dispatch Proxy ProxyProofs Utility RuntimeCalls RuntimeProofs.
From stdpp Require Import prelude gmap list fin_maps sorting.
From Stdlib Require Import ZArith Lia.
#[local] Open Scope Z_scope.
#[local] Open Scope monad_scope.

Inductive Caller : Type := FromRoot | From (a : nat) | FromNobody.

#[export] Instance TestTypes : RuntimeTypes := {| Args := unit; Hash := nat; Source := nat; OriginCaller := Caller |}.

#[export] Instance FilteredFrame : FrameSystem := {|
  AccountId := nat;
  Origin := Caller * (RuntimeCall -> bool);
  DispatchError := Z;
  ensure_signed o := match o.1 with From a => Ok a | _ => Err 1 end;
  ensure_root o := match o.1 with FromRoot => Ok tt | _ => Err 1 end;
  BadOrigin := 1;
|}.

#[export] Instance TestAccounts : RuntimeAccounts := {| account_order := Nat.compare; lookup_account := Ok |}.

Record Bank := mkBank { bank_free : gmap nat Z; bank_reserved : gmap nat Z; bank_now : Z; bank_events : list Utility.Event }.
#[export] Instance Bank_eta : Eta Bank := fun w => mkBank (bank_free w) (bank_reserved w) (bank_now w) (bank_events w).
Definition free_of (w : Bank) (a : nat) : Z := default 0 (bank_free w !! a).
Definition reserved_of (w : Bank) (a : nat) : Z := Z.max 0 (default 0 (bank_reserved w !! a)).
Definition put_reserved (w : Bank) (a : nat) (n : Z) : Bank :=
  w <| bank_free ::= <[a := free_of w a + reserved_of w a - n]> |> <| bank_reserved ::= <[a := n]> |>.

#[export] Instance TestProxyEnv : ProxyEnv Bank := {|
  block_number := bank_now;
  extrinsic_index _ := Some 0;
  reserved := reserved_of;
  reserve w a n := if n <=? free_of w a then Ok (put_reserved w a (reserved_of w a + n)) else Err 2;
  unreserve w a n := put_reserved w a (reserved_of w a - Z.min n (reserved_of w a));
  pure_entropy who height ext t index := Z.to_nat (1000 + Z.of_nat who * 10 + index);
|}.

#[export] Instance TestProxyConfig : ProxyConfig := {|
  ProxyDepositBase := 60000000;
  ProxyDepositFactor := 33000000;
  MaxProxies := 20;
  MaxPending := 75;
  AnnouncementDepositBase := 36000000;
  AnnouncementDepositFactor := 68000000;
|}.
Lemma test_config : config_ok.
Proof. split; unfold in_type; cbn; lia. Qed.

Definition pay (a b : nat) (n : Z) (w : Bank) : Bank :=
  w <| bank_free ::= <[b := free_of w b + n]> |> <| bank_free ::= <[a := free_of w a - n]> |>.

#[export] Instance TestRuntimeEnv : RuntimeEnv Bank := {|
  hash_call c := match c with Balances_ _ => 7%nat | _ => 0%nat end;
  safe_mode _ := true;
  caller_origin c := (c, fun _ => true);
  leaf c o s :=
    match c, o.1 with
    | Balances_ (TransferAllowDeath n _), From a =>
        if n <=? free_of (world s) a then Ok (s <| world ::= pay a 9 n |>) else Err 3
    | _, _ => Ok s
    end;
  put_event e w := w <| bank_events ::= fun l => l ++ [e] |>;
  size_of_call := 512;
  allocation_limit := 33554432;
  derived_account a i := Z.to_nat (2000 + Z.of_nat a * 10 + i);
  proxy_error _ := 4;
  utility_error _ := 5;
|}.

#[export] Instance TestCallOrigin : CallOrigin RuntimeCall := {|
  signed_origin a := (From a, base_call_filter);
  root_origin := (FromRoot, fun _ => true);
  add_filter f o := (o.1, fun c => o.2 c && f c);
  set_caller_signed a o := (From a, o.2);
  filter_call o c := o.2 c;
  ensure_none o := match o.1 with FromNobody => Ok tt | _ => Err 1 end;
  CallFiltered := 6;
|}.
#[export] Instance test_origin_laws : CallOriginLaws RuntimeCall.
Proof. by split. Qed.

Lemma nat_order : OrdLaws (O:=Nat.compare) nat.
Proof.
  split; unfold cmp; [apply Nat.compare_eq_iff|apply Nat.compare_antisym|].
  intros x y z. rewrite !Nat.compare_lt_iff. lia.
Qed.
Lemma type_index_inj x y : proxy_type_index x = proxy_type_index y -> x = y.
Proof. by destruct x, y. Qed.
Lemma proxy_types_order : OrdLaws RuntimeCalls.ProxyType.
Proof.
  split; unfold cmp, ProxyType_ord.
  - intros x y. rewrite Z.compare_eq_iff. split; [apply type_index_inj|by intros ->].
  - intros x y. apply Z.compare_antisym.
  - intros x y z. rewrite !Z.compare_lt_iff. lia.
Qed.

Definition reserved_sum (w : Bank) : Z := map_sum (Z.max 0 <$> bank_reserved w).
Lemma reserved_put w a n : 0 <= n -> reserved_sum (put_reserved w a n) = reserved_sum w - reserved_of w a + n.
Proof.
  intros Hn. unfold reserved_sum, reserved_of. cbn. rewrite fmap_insert, Z.max_r by done.
  destruct (bank_reserved w !! a) as [v|] eqn:E; cbn.
  - rewrite (map_sum_insert_Some _ a (Z.max 0 v)); [done|]. by rewrite lookup_fmap, E.
  - rewrite map_sum_insert_None; [lia|]. by rewrite lookup_fmap, E.
Qed.

#[export] Program Instance TestProxyLaws : ProxyLaws Bank := {|
  accounts_ordered := nat_order;
  proxy_types_ordered := proxy_types_order;
  total_reserved := reserved_sum;
|}.
Next Obligation.
  intros w. apply map_sum_nonneg. intros k v. rewrite lookup_fmap. destruct (bank_reserved w !! k); cbn; [|done]. intros [= <-]. lia.
Qed.
Next Obligation.
  intros w a n w'. cbn. destruct (n <=? _); [|done]. intros [= <-] Hn. rewrite reserved_put; unfold reserved_of; lia.
Qed.
Next Obligation. intros w a n Hn. cbn. rewrite reserved_put; unfold reserved_of; lia. Qed.

#[export] Program Instance TestRuntimeLaws : RuntimeLaws Bank.
Next Obligation. done. Qed.
Next Obligation.
  intros c o s s' [H1 H2 H3] H. cbn in H.
  assert (s' = s \/ exists a n, s' = s <| world ::= pay a 9 n |>) as [->|(a & n & ->)]; [|by split|by split].
  destruct c as [| | |b| | | | | | | | | | | | | | | | | | | |]; try (left; congruence).
  destruct b; try (left; congruence). destruct o.1; try (left; congruence).
  destruct (value <=? _); [|done]. right. exists a, value. congruence.
Qed.
Next Obligation. done. Qed.

(** ** Runs *)

Definition act (a : nat) : Origin := signed_origin (C:=RuntimeCall) (a : AccountId (FrameSystem:=FilteredFrame)).
Definition transfer (n : Z) : RuntimeCall := Balances_ (TransferAllowDeath n tt).
Definition register (a : nat) (t : RuntimeCalls.ProxyType) (delay : Z) : RuntimeCall := ProxyPallet_ (AddProxy a t delay).

Fixpoint run_all (l : list (nat * RuntimeCall)) (s : Proxy.State Bank) : result Z (Proxy.State Bank) :=
  match l with
  | [] => Ok s
  | (a, c) :: l => match run_call c (act a) s with Ok s => run_all l s | Err e => Err e end
  end.
Definition after (l : list (nat * RuntimeCall)) (s : Proxy.State Bank) : Proxy.State Bank :=
  match run_all l s with Ok s' => s' | Err _ => s end.

Definition bank0 : Bank := mkBank {[ 1%nat := 1000000000; 2%nat := 1000000000; 3%nat := 1000000000 ]} ∅ 10 [].
Definition start : Proxy.State Bank := mkState ∅ ∅ [] bank0.

Lemma run_reachable l s : proxy_reachable s -> proxy_reachable (after l s).
Proof.
  unfold after. revert s. assert (forall s s', proxy_reachable s -> run_all l s = Ok s' -> proxy_reachable s') as H.
  { induction l as [|[a c] l IH]; cbn; intros s s' Hs; [by intros [= <-]|].
    destruct (run_call _ _ _) as [s1|] eqn:E; [|done]. apply IH. eapply proxy_next; [exact Hs|]. by eapply step_run. }
  intros s Hs. destruct (run_all l s) eqn:E; [by eapply H|done].
Qed.

(** Account 1 lets 2 act without delay for all but transfers and 3 only after 5
    blocks; 3 announces a transfer. *)
Definition delegated : Proxy.State Bank :=
  after [(1%nat, register 2 NonTransfer 0); (1%nat, register 3 Transfer 5); (3%nat, ProxyPallet_ (Announce 1%nat 7%nat))] start.
Definition later : Proxy.State Bank := delegated <| world ::= fun w => w <| bank_now := 15 |> |>.

Example delegated_books : (proxies 1%nat delegated, announcements 3%nat delegated) =
  (([mkDef _ _ 2%nat NonTransfer 0; mkDef _ _ 3%nat Transfer 5], 126000000), ([mkAnnouncement _ _ 1%nat 7%nat 10], 104000000)).
Proof. vm_compute. reflexivity. Qed.

Lemma delegated_reachable : proxy_reachable delegated.
Proof. apply run_reachable, proxy_genesis. Qed.
Lemma later_reachable : proxy_reachable later.
Proof. eapply proxy_next; [exact delegated_reachable|]. by apply step_world. Qed.

Example proxies_stay_backed_witness :
  let '(defs, d) := proxies 1%nat delegated in
  let '(pending, e) := announcements 1%nat delegated in
  StronglySorted cmp_lt defs /\ (defs = [] \/ len defs <= MaxProxies) /\ d = deposit (len defs) /\
  (pending = [] \/ len pending <= MaxPending) /\ e = announcement_deposit (len pending) /\
  booked delegated <= total_reserved (world delegated).
Proof. exact (proxies_stay_backed delegated 1%nat test_config delegated_reachable). Defined.

(** The announced transfer, before and after the delay. *)
Definition announced (n : Z) : RuntimeCall := ProxyPallet_ (ProxyAnnounced 3%nat 1%nat None (transfer n)).
Example announced_too_early : run_call (announced 100) (act 3) delegated = Err 4.
Proof. vm_compute. reflexivity. Qed.
Definition paid_late : Proxy.State Bank := after [(3%nat, announced 100)] later.
Example announced_in_time : free_of (world paid_late) 9 = 100 /\ announcements 3%nat paid_late = ([], 0).
Proof. vm_compute. done. Qed.

Example announced_call_waits_witness : exists d r def s1, lookup_account 3%nat = Ok d /\ lookup_account 1%nat = Ok r /\
    def ∈ (proxies r later).1 /\ delegate def = d /\ (forall y, @None Proxy.ProxyType = Some y -> proxy_type def = y) /\
    let due ann := same_call r (hash_of (transfer 100)) ann && (delay def <=? sat_sub (block_number (world later)) (height ann)) in
    (exists ann, ann ∈ (announcements d later).1 /\ due ann = true) /\
    (announcements d s1).1 = filter (fun ann => due ann = false) (announcements d later).1 /\
    paid_late = do_proxy run_call def r (transfer 100) s1.
Proof.
  apply (announced_call_waits (PN:=runtime_proxy_names (RT:=TestTypes)) (C:=RuntimeCall) run_call (act 3) 3%nat 1%nat None (transfer 100) later tt paid_late test_config
    (reachable_inv_proxy later test_config later_reachable)).
  vm_compute. reflexivity.
Defined.

(** A batch of a refused transfer and a permitted call, by the [NonTransfer] delegate:
    the transfer is refused inside the batch as well. *)
Definition mixed : RuntimeCall := Utility_ (ForceBatch [transfer 100; SubtensorModule_ (AddStake tt)]).
Definition mixed_done : Proxy.State Bank := after [(2%nat, ProxyPallet_ (Proxy_ 1%nat None mixed))] delegated.
Example mixed_events : bank_events (world mixed_done) = [ItemFailed 6; ItemCompleted; BatchCompletedWithErrors] /\ free_of (world mixed_done) 9 = 0.
Proof. vm_compute. done. Qed.

Example delegate_stays_within_type_witness :
  exists who r def, ensure_signed (act 2) = Ok who /\ lookup_account 1%nat = Ok r /\
    def ∈ (proxies r delegated).1 /\ delegate def = who /\ delay def = 0 /\ (forall y, @None RuntimeCalls.ProxyType = Some y -> proxy_type def = y) /\
    (permits (proxy_type def) mixed = false -> mixed_done = deposit_event (ProxyExecuted (Err CallFiltered)) delegated) /\
    forall I : Proxy.State Bank -> Prop,
      (forall e s, I s -> I (put_utility_event e s)) -> (forall e s, I s -> I (deposit_event e s)) ->
      (forall d o s s', is_leaf d = true -> permits (proxy_type def) d = true -> ensure_signed o = Ok r ->
         leaf d o s = Ok s' -> I s -> I s') ->
      I delegated -> I mixed_done.
Proof.
  apply (delegate_stays_within_type (RT:=TestTypes) 1%nat None mixed (act 2) delegated mixed_done); [vm_compute; reflexivity|].
  vm_compute. reflexivity.
Defined.

Example inclusion_respects_filters_witness :
  if bool_decide (Governance = NonTransfer /\ Senate = NonCritical)
  then forall b, permits Senate (Balances_ b) = true /\ permits Governance (Balances_ b) = false
  else forall c, permits Senate c = true -> permits Governance c = true.
Proof. apply (inclusion_respects_filters Governance Senate). reflexivity. Defined.

Example non_transfer_delegate_transfers_witness :
  let o := act 2 in
  let b := TransferAllowDeath 100 tt in
  run_call (ProxyPallet_ (Proxy_ 1%nat (Some NonTransfer) (Balances_ b))) o delegated =
    Ok (deposit_event (ProxyExecuted (Err CallFiltered)) delegated) /\
  exists s1, run_call (ProxyPallet_ (Proxy_ 1%nat (Some NonTransfer) (register 2 NonCritical 0))) o delegated = Ok s1 /\
  exists o', ensure_signed o' = Ok 1%nat /\
    run_call (ProxyPallet_ (Proxy_ 1%nat (Some NonCritical) (Balances_ b))) o s1 =
    Ok (let '(e, s2) := outcome (leaf (Balances_ b) o' s1) s1 in deposit_event (ProxyExecuted e) s2).
Proof.
  apply (non_transfer_delegate_transfers (FS:=FilteredFrame) (RT:=TestTypes) 1%nat 2%nat 2%nat 1%nat delegated
    (put_reserved (world delegated) 1 159000000) _); vm_compute; try reflexivity; done.
Defined.

(** A batch whose second call fails. *)
Definition half : list RuntimeCall := [transfer 100; transfer 5000000000; transfer 1].
Example batches_run_in_order_witness :
  (exists n sk, ran run_call (act 2) start (take n half) sk /\
    (n = length half /\ batch run_call (act 2) half start = Ok (tt, put_utility_event BatchCompleted sk) \/
     exists call e, half !! n = Some call /\ dispatch_item run_call (act 2) call sk = Err e /\
       batch run_call (act 2) half start = Ok (tt, put_utility_event (BatchInterrupted (Z.of_nat n) e) sk))) /\
  (exists n sk, ran run_call (batch_all_origin (S:=Proxy.State Bank) (act 2)) start (take n half) sk /\
    (n = length half /\ batch_all run_call (act 2) half start = Ok (tt, put_utility_event BatchCompleted sk) \/
     exists call e, half !! n = Some call /\ dispatch_item run_call (batch_all_origin (S:=Proxy.State Bank) (act 2)) call sk = Err e /\
       batch_all run_call (act 2) half start = Err (External e))).
Proof. apply (batches_run_in_order run_call (act 2) half start); [reflexivity|vm_compute; congruence]. Defined.

(** Account 1 spawns account 1010, which registers a second delegate at its own
    expense and is then killed: the spawner gets back more than it put in, out of
    the deposit for its own delegates, and the rest stays reserved for nothing. *)
Definition as_pure (c : RuntimeCall) : nat * RuntimeCall := (1%nat, ProxyPallet_ (Proxy_ 1010%nat None c)).
Definition killed : Proxy.State Bank :=
  after [(1%nat, ProxyPallet_ (CreatePure Any 0 0)); as_pure (register 2 Any 0); as_pure (ProxyPallet_ (KillPure 1%nat Any 0 10 0))]
    (delegated <| world ::= fun w => w <| bank_free ::= <[1010%nat := 1000000000]> |> |>).
Example kill_pure_frees_other_deposits :
  proxies 1010%nat killed = ([], 0) /\ reserved_of (world killed) 1010 = 33000000 /\
  (proxies 1%nat killed).2 = 126000000 /\ reserved_of (world killed) 1 = 93000000.
Proof. vm_compute. done. Qed.
