(* ===== verification/Tick.v ===== *)
(** * Ticks and the active-tick bitmap of the swap pallet (src/pallets/swap/src/tick.rs)

    [TickIndex] arithmetic at the width of [i32], and the three-layer bitmap in
    which [ActiveTickIndexManager] keeps the set of active ticks of a subnet.
    The theorems show that the bitmap refines a plain set of ticks: [insert]
    and [remove] add and remove one element, and [find_closest_lower] and
    [find_closest_higher] return the nearest element. *)

From S2P Require Import Prelude.
From stdpp Require Import prelude countable gmap list fin_maps.
From Stdlib Require Import ZArith Lia.
#[local] Open Scope Z_scope.

(** ** Tick indices *)

Definition MIN_TICK : Z := -887272.
Definition MAX_TICK : Z := - MIN_TICK.

Inductive TickMathError : Type :=
  | TickOutOfBounds | SqrtPriceOutOfBounds | ConversionError | TickOverflow | DivisionByZero.

Module TickIndex.
(** Constants [MIN], [MAX] and [OFFSET]. Rust's division truncates. *)
Definition MIN : Z := Z.quot MIN_TICK 2.
Definition MAX : Z := Z.quot MAX_TICK 2.
Definition OFFSET : Z := MAX_TICK.

Abbreviation i32_add := (isat_add I32_MIN I32_MAX).
Abbreviation i32_sub := (isat_sub I32_MIN I32_MAX).

Definition new (value : Z) : result TickMathError Z :=
  if (MIN <=? value) && (value <=? MAX) then Ok value else Err TickOutOfBounds.

(** [as i32] of a 64-bit value. *)
Definition as_i32 (x : Z) : Z := (x + 2 ^ 31) mod 2 ^ 32 - 2 ^ 31.

Definition from_offset_index (offset_index : Z) : result TickMathError Z :=
  new (as_i32 (isat_sub I64_MIN I64_MAX offset_index OFFSET)).

Definition next (t : Z) : result TickMathError Z := new (i32_add t 1).
Definition prev (t : Z) : result TickMathError Z := new (i32_sub t 1).
Definition checked_add (t value : Z) : result TickMathError Z := new (i32_add t value).
Definition checked_sub (t value : Z) : result TickMathError Z := new (i32_sub t value).

Definition saturating_add (t value : Z) : Z :=
  match checked_add t value with
  | Ok r => r
  | Err _ => if 0 <? value then MAX else MIN
  end.

Definition saturating_sub (t value : Z) : Z :=
  match checked_sub t value with
  | Ok r => r
  | Err _ => if 0 <? value then MIN else MAX
  end.

Definition checked_div (t value : Z) : result TickMathError Z :=
  if value =? 0 then Err DivisionByZero
  else new (clamp I32_MIN I32_MAX (Z.quot t value)).

Definition saturating_div (t value : Z) : Z :=
  if value =? 0 then MAX
  else match checked_div t value with
       | Ok r => r
       | Err _ => if ((t <? 0) && (0 <? value)) || ((0 <? t) && (value <? 0)) then MIN else MAX
       end.

Definition checked_mul (t value : Z) : result TickMathError Z :=
  if (I32_MIN <=? t * value) && (t * value <=? I32_MAX) then new (t * value)
  else Err TickOverflow.

Definition saturating_mul (t value : Z) : Z :=
  match checked_mul t value with
  | Ok r => r
  | Err _ => if ((t <? 0) && (0 <? value)) || ((0 <? t) && (value <? 0)) then MIN else MAX
  end.

Definition valid (t : Z) : Prop := MIN <= t <= MAX.
End TickIndex.

(** ** The bitmap *)

Inductive LayerLevel : Type := Top | Middle | Bottom.

#[export] Instance LayerLevel_eq_dec : EqDecision LayerLevel.
Proof. solve_decision. Defined.

#[export] Instance LayerLevel_countable : Countable LayerLevel.
Proof.
  refine (inj_countable' (fun l => match l with Top => 0%nat | Middle => 1%nat | Bottom => 2%nat end)
    (fun n => match n with O => Top | S O => Middle | _ => Bottom end) _).
  by intros [].
Defined.

Record BitmapLayer : Type := mkBitmapLayer { word : Z; bit : Z }.

Record TickIndexBitmap : Type := mkTickIndexBitmap {
  layer0 : BitmapLayer;
  layer1 : BitmapLayer;
  layer2 : BitmapLayer;
}.

Module Bitmap.
Definition index_to_layer (index : Z) : BitmapLayer :=
  mkBitmapLayer (index / 128) (index mod 128).

Definition layer_to_index (l : BitmapLayer) : Z :=
  sat_add U32_MAX (sat_mul U32_MAX (word l) 128) (bit l).

Definition layer_at (b : TickIndexBitmap) (l : LayerLevel) : BitmapLayer :=
  match l with Top => layer0 b | Middle => layer1 b | Bottom => layer2 b end.

(** [1u128 << bit] *)
Definition bit_mask (b : TickIndexBitmap) (l : LayerLevel) : Z := Z.shiftl 1 (bit (layer_at b l)).
Definition word_at (b : TickIndexBitmap) (l : LayerLevel) : Z := word (layer_at b l).
Definition bit_at (b : TickIndexBitmap) (l : LayerLevel) : Z := bit (layer_at b l).

(** [From<TickIndex>]; the cast to [u32] of a negative value wraps. *)
Definition from (tick_index : Z) : TickIndexBitmap :=
  let offset_index := (isat_add I32_MIN I32_MAX tick_index TickIndex.OFFSET) mod 2 ^ 32 in
  let layer2 := index_to_layer offset_index in
  let layer1 := index_to_layer (word layer2) in
  let layer0 := index_to_layer (word layer1) in
  mkTickIndexBitmap layer0 layer1 layer2.

(** The [while mask > 0] loop of [find_closest_active_bit_candidates]; [fuel]
    bounds the number of iterations, and 129 of them always suffice because
    every iteration moves the single bit of [mask]. *)
Fixpoint candidates_loop (fuel : nat) (word bit : Z) (lower : bool)
    (mask active_bit : Z) (result : list Z) : list Z :=
  match fuel with
  | O => result
  | S fuel =>
      if 0 <? mask then
        let hit := negb (Z.land mask word =? 0) in
        let result := if hit then result ++ [active_bit] else result in
        if hit && negb (active_bit =? bit) then result
        else if lower then
          candidates_loop fuel word bit lower (Z.shiftr mask 1) (sat_sub active_bit 1) result
        else
          candidates_loop fuel word bit lower (Z.shiftl mask 1 mod 2 ^ 128)
            (sat_add U32_MAX active_bit 1) result
      else result
  end.

Definition find_closest_active_bit_candidates (word bit : Z) (lower : bool) : list Z :=
  candidates_loop 129 word bit lower (Z.shiftl 1 (bit mod 128) mod 2 ^ 128) bit [].
End Bitmap.

(** [TickIndexBitmapWords], a [ValueQuery] map. *)
Abbreviation Words := (gmap (Z * LayerLevel * Z) Z).

Definition get_word (m : Words) (netuid : Z) (l : LayerLevel) (w : Z) : Z :=
  default 0 (m !! (netuid, l, w)).
Definition set_word (netuid : Z) (l : LayerLevel) (w v : Z) (m : Words) : Words :=
  <[(netuid, l, w) := v]> m.

Module ActiveTickIndexManager.
Import Bitmap.

Definition out_of_range (index : Z) : bool :=
  (index <? TickIndex.MIN) || (TickIndex.MAX <? index).

Definition insert (netuid index : Z) (m : Words) : Words :=
  if out_of_range index then m
  else
    let bitmap := from index in
    let word0_value := get_word m netuid Top (word_at bitmap Top) in
    let word1_value := get_word m netuid Middle (word_at bitmap Middle) in
    let word2_value := get_word m netuid Bottom (word_at bitmap Bottom) in
    let word0_value := Z.lor word0_value (bit_mask bitmap Top) in
    let word1_value := Z.lor word1_value (bit_mask bitmap Middle) in
    let word2_value := Z.lor word2_value (bit_mask bitmap Bottom) in
    let m := set_word netuid Top (word_at bitmap Top) word0_value m in
    let m := set_word netuid Middle (word_at bitmap Middle) word1_value m in
    set_word netuid Bottom (word_at bitmap Bottom) word2_value m.

(** [w & !mask] is [Z.ldiff w mask]. *)
Definition remove (netuid index : Z) (m : Words) : Words :=
  if out_of_range index then m
  else
    let bitmap := from index in
    let word0_value := get_word m netuid Top (word_at bitmap Top) in
    let word1_value := get_word m netuid Middle (word_at bitmap Middle) in
    let word2_value := get_word m netuid Bottom (word_at bitmap Bottom) in
    let word2_value := Z.ldiff word2_value (bit_mask bitmap Bottom) in
    let m := set_word netuid Bottom (word_at bitmap Bottom) word2_value m in
    let '(word1_value, m) :=
      if word2_value =? 0 then
        let word1_value := Z.ldiff word1_value (bit_mask bitmap Middle) in
        (word1_value, set_word netuid Middle (word_at bitmap Middle) word1_value m)
      else (word1_value, m) in
    if word1_value =? 0 then
      set_word netuid Top (word_at bitmap Top)
        (Z.ldiff word0_value (bit_mask bitmap Top)) m
    else m.

(** The bit a search starts from in a word of the next layer down. *)
Definition start_from (word_index layer_word layer_bit : Z) : Z :=
  match word_index ?= layer_word with Lt => 127 | Gt => 0 | Eq => layer_bit end.

(** Keeping the best of the indices found so far; the state is [(found, result)]. *)
Definition consider (lower : bool) (st : bool * Z) (offset_found_index : Z) : bool * Z :=
  let '(found, result) := st in
  if lower then
    if (result <? offset_found_index) || negb found then (true, offset_found_index) else st
  else
    if (offset_found_index <? result) || negb found then (true, offset_found_index) else st.

Definition find_closest (netuid index : Z) (lower : bool) (m : Words) : option Z :=
  if out_of_range index then None
  else
    let bitmap := from index in
    let layer1_word := word_at bitmap Middle in
    let layer1_bit := bit_at bitmap Middle in
    let layer2_word := word_at bitmap Bottom in
    let layer2_bit := bit_at bitmap Bottom in
    let word0 := get_word m netuid Top (word_at bitmap Top) in
    let closest_bits_l0 := find_closest_active_bit_candidates word0 (bit_at bitmap Top) lower in
    let '(found, result) :=
      foldl (fun st closest_bit_l0 =>
        let word1_index := layer_to_index (mkBitmapLayer 0 closest_bit_l0) in
        let word1_value := get_word m netuid Middle word1_index in
        let closest_bits_l1 := find_closest_active_bit_candidates word1_value
          (start_from word1_index layer1_word layer1_bit) lower in
        foldl (fun st closest_bit_l1 =>
          let word2_index := layer_to_index (mkBitmapLayer word1_index closest_bit_l1) in
          let word2_value := get_word m netuid Bottom word2_index in
          let closest_bits_l2 := find_closest_active_bit_candidates word2_value
            (start_from word2_index layer2_word layer2_bit) lower in
          match closest_bits_l2 with
          | [] => st
          | first :: _ =>
              consider lower st (layer_to_index (mkBitmapLayer word2_index first))
          end) st closest_bits_l1) (false, 0) closest_bits_l0 in
    if found then
      match TickIndex.from_offset_index result with Ok t => Some t | Err _ => None end
    else None.

Definition find_closest_lower (netuid index : Z) (m : Words) : option Z :=
  find_closest netuid index true m.
Definition find_closest_higher (netuid index : Z) (m : Words) : option Z :=
  find_closest netuid index false m.

Definition tick_is_active (netuid tick : Z) (m : Words) : bool :=
  default TickIndex.MAX (find_closest_lower netuid tick m) =? tick.
End ActiveTickIndexManager.

(** ** Searching one word *)

Section Candidates.
Import Bitmap.

Lemma land_pow2 w a : 0 <= a -> negb (Z.land (2 ^ a) w =? 0) = Z.testbit w a.
Proof.
  intros Ha. destruct (Z.testbit w a) eqn:Hw.
  - apply negb_true_iff, Z.eqb_neq. intros H0.
    assert (Z.testbit (Z.land (2 ^ a) w) a = false) as Hb by (rewrite H0; apply Z.bits_0).
    rewrite Z.land_spec, Z.pow2_bits_true, Hw in Hb; done.
  - apply negb_false_iff, Z.eqb_eq, Z.bits_inj'. intros n Hn.
    rewrite Z.land_spec, Z.bits_0, Z.pow2_bits_eqb by done.
    destruct (Z.eqb_spec a n) as [->|]; [by rewrite Hw|done].
Qed.

(** The bits below [n], and those from [128 - n] on, in search order. *)
Fixpoint down (n : nat) : list Z :=
  match n with O => [] | S k => Z.of_nat k :: down k end.
Fixpoint up (n : nat) : list Z :=
  match n with O => [] | S k => 127 - Z.of_nat k :: up k end.

Lemma elem_of_down n j : j ∈ down n <-> 0 <= j < Z.of_nat n.
Proof. induction n as [|k IH]; cbn; [rewrite elem_of_nil; lia|]. rewrite elem_of_cons, IH. lia. Qed.
Lemma elem_of_up n j : j ∈ up n <-> 128 - Z.of_nat n <= j < 128.
Proof. induction n as [|k IH]; cbn; [rewrite elem_of_nil; lia|]. rewrite elem_of_cons, IH. lia. Qed.

Lemma shiftr_pow2_1 k : 0 <= k -> Z.shiftr (2 ^ (k + 1)) 1 = 2 ^ k.
Proof.
  intros Hk. rewrite Z.shiftr_div_pow2, Z.pow_add_r by lia.
  change (2 ^ 1) with 2. apply Z.div_mul. lia.
Qed.

Lemma loop_down w b n : forall fuel res,
  (n <= fuel)%nat -> Z.of_nat n <= b ->
  candidates_loop fuel w b true (Z.shiftr (2 ^ Z.of_nat n) 1) (sat_sub (Z.of_nat n) 1) res
  = res ++ option_list (List.find (Z.testbit w) (down n)).
Proof.
  induction n as [|k IH]; intros fuel res Hf Hb.
  - change (Z.shiftr (2 ^ Z.of_nat 0) 1) with 0. cbn [down List.find option_list].
    rewrite app_nil_r. by destruct fuel.
  - destruct fuel as [|fuel]; [lia|].
    rewrite Nat2Z.inj_succ, <- Z.add_1_r, shiftr_pow2_1 by lia.
    replace (sat_sub (Z.of_nat k + 1) 1) with (Z.of_nat k) by (unfold sat_sub; lia).
    cbn [candidates_loop down List.find].
    rewrite (proj2 (Z.ltb_lt 0 _)) by (apply Z.pow_pos_nonneg; lia).
    rewrite land_pow2 by lia. rewrite (proj2 (Z.eqb_neq _ _)) by lia.
    destruct (Z.testbit w (Z.of_nat k)); cbn [andb negb]; [done|].
    apply IH; lia.
Qed.

Lemma loop_up w b n : forall fuel res,
  (n <= fuel)%nat -> (n <= 127)%nat -> b <= 127 - Z.of_nat n ->
  candidates_loop fuel w b false (Z.shiftl (2 ^ (127 - Z.of_nat n)) 1 mod 2 ^ 128)
    (sat_add U32_MAX (127 - Z.of_nat n) 1) res
  = res ++ option_list (List.find (Z.testbit w) (up n)).
Proof.
  induction n as [|k IH]; intros fuel res Hf Hn Hb.
  - change (Z.shiftl (2 ^ (127 - Z.of_nat 0)) 1 mod 2 ^ 128) with 0.
    cbn [up List.find option_list]. rewrite app_nil_r. by destruct fuel.
  - destruct fuel as [|fuel]; [lia|].
    rewrite Z.shiftl_mul_pow2, <- Z.pow_add_r by lia.
    replace (127 - Z.of_nat (S k) + 1) with (127 - Z.of_nat k) by lia.
    replace (sat_add U32_MAX (127 - Z.of_nat (S k)) 1) with (127 - Z.of_nat k)
      by (unfold sat_add; lia).
    rewrite Z.mod_small by (split; [lia|apply Z.pow_lt_mono_r; lia]).
    cbn [candidates_loop up List.find].
    rewrite (proj2 (Z.ltb_lt 0 _)) by (apply Z.pow_pos_nonneg; lia).
    rewrite land_pow2 by lia. rewrite (proj2 (Z.eqb_neq _ _)) by lia.
    destruct (Z.testbit w (127 - Z.of_nat k)); cbn [andb negb]; [done|].
    apply IH; lia.
Qed.

(** The positions a search starting at [b] looks at after [b] itself. *)
Definition beyond (lower : bool) (b : Z) : list Z :=
  if lower then down (Z.to_nat b) else up (Z.to_nat (127 - b)).

Lemma candidates_loop_eq fuel w b lower :
  0 <= b < 128 -> (128 <= fuel)%nat ->
  candidates_loop (S fuel) w b lower (2 ^ b) b [] =
  (if Z.testbit w b then [b] else []) ++ option_list (List.find (Z.testbit w) (beyond lower b)).
Proof.
  intros Hb Hf. unfold beyond. cbn [candidates_loop].
  rewrite (proj2 (Z.ltb_lt 0 _)) by (apply Z.pow_pos_nonneg; lia).
  rewrite land_pow2, Z.eqb_refl, andb_false_r by lia.
  destruct lower.
  - pose proof (loop_down w b (Z.to_nat b) fuel (if Z.testbit w b then [] ++ [b] else [])) as H.
    rewrite Z2Nat.id in H by lia. exact (H ltac:(lia) ltac:(lia)).
  - pose proof (loop_up w b (Z.to_nat (127 - b)) fuel (if Z.testbit w b then [] ++ [b] else [])) as H.
    rewrite Z2Nat.id in H by lia. replace (127 - (127 - b)) with b in H by lia.
    exact (H ltac:(lia) ltac:(lia) ltac:(lia)).
Qed.

Lemma candidates_eq w b lower :
  0 <= b < 128 ->
  find_closest_active_bit_candidates w b lower =
  (if Z.testbit w b then [b] else []) ++ option_list (List.find (Z.testbit w) (beyond lower b)).
Proof.
  intros Hb. unfold find_closest_active_bit_candidates.
  rewrite (Z.mod_small b), Z.shiftl_mul_pow2, Z.mul_1_l by lia.
  rewrite Z.mod_small by (split; [lia|apply Z.pow_lt_mono_r; lia]).
  apply candidates_loop_eq; [done|]. apply Nat.le_refl.
Qed.
(** Searching downwards, larger is closer; searching upwards, smaller is. *)
Definition dir (lower : bool) : Z := if lower then 1 else -1.

Definition nearest (lower : bool) (f : Z -> bool) (b j : Z) : Prop :=
  f j = true /\ 0 <= j < 128 /\ dir lower * j < dir lower * b /\
  forall k, 0 <= k < 128 -> dir lower * j < dir lower * k < dir lower * b -> f k = false.

Lemma find_down f n :
  match List.find f (down n) with
  | Some j => f j = true /\ 0 <= j < Z.of_nat n /\ forall k, j < k < Z.of_nat n -> f k = false
  | None => forall k, 0 <= k < Z.of_nat n -> f k = false
  end.
Proof.
  induction n as [|n IH]; cbn [down List.find]; [lia|].
  destruct (f (Z.of_nat n)) eqn:Hn; [split; [done|split; lia]|].
  destruct (List.find f (down n)) as [j|].
  - destruct IH as (Hj & Hr & Hk). split; [done|]. split; [lia|]. intros k Hk'.
    destruct (decide (k = Z.of_nat n)) as [->|]; [done|]. apply Hk. lia.
  - intros k Hk'. destruct (decide (k = Z.of_nat n)) as [->|]; [done|]. apply IH. lia.
Qed.

Lemma find_up f n :
  match List.find f (up n) with
  | Some j => f j = true /\ 128 - Z.of_nat n <= j < 128 /\
      forall k, 128 - Z.of_nat n <= k < j -> f k = false
  | None => forall k, 128 - Z.of_nat n <= k < 128 -> f k = false
  end.
Proof.
  induction n as [|n IH]; cbn [up List.find]; [lia|].
  destruct (f (127 - Z.of_nat n)) eqn:Hn; [split; [done|split; lia]|].
  destruct (List.find f (up n)) as [j|].
  - destruct IH as (Hj & Hr & Hk). split; [done|]. split; [lia|]. intros k Hk'.
    destruct (decide (k = 127 - Z.of_nat n)) as [->|]; [done|]. apply Hk. lia.
  - intros k Hk'. destruct (decide (k = 127 - Z.of_nat n)) as [->|]; [done|]. apply IH. lia.
Qed.

Lemma find_beyond lower f b :
  0 <= b < 128 ->
  match List.find f (beyond lower b) with
  | Some j => nearest lower f b j
  | None => forall k, 0 <= k < 128 -> dir lower * k < dir lower * b -> f k = false
  end.
Proof.
  intros Hb. unfold nearest, dir, beyond. destruct lower.
  - pose proof (find_down f (Z.to_nat b)) as H.
    destruct (List.find f (down (Z.to_nat b))) as [j|].
    + destruct H as (Hj & Hr & Hk). split; [done|]. split; [lia|]. split; [lia|].
      intros k ? ?. apply Hk. lia.
    + intros k ? ?. apply H. lia.
  - pose proof (find_up f (Z.to_nat (127 - b))) as H.
    destruct (List.find f (up (Z.to_nat (127 - b)))) as [j|].
    + destruct H as (Hj & Hr & Hk). split; [done|]. split; [lia|]. split; [lia|].
      intros k ? ?. apply Hk. lia.
    + intros k ? ?. apply H. lia.
Qed.

(** The candidates are the starting bit, if it is active, and the nearest
    active bit beyond it. *)
Lemma elem_of_candidates w b lower j :
  0 <= b < 128 ->
  j ∈ find_closest_active_bit_candidates w b lower <->
  (j = b /\ Z.testbit w b = true) \/ nearest lower (Z.testbit w) b j.
Proof.
  intros Hb. rewrite candidates_eq, elem_of_app by done.
  pose proof (find_beyond lower (Z.testbit w) b Hb) as Hf.
  destruct (List.find (Z.testbit w) (beyond lower b)) as [i|] eqn:Hi; unfold option_list; simpl.
  - rewrite list_elem_of_singleton.
    assert (nearest lower (Z.testbit w) b j <-> j = i) as ->.
    { split; [|by intros ->]. intros (Hj & Hjr & Hjb & Hjk). destruct Hf as (Hi1 & Hi2 & Hi3 & Hi4).
      destruct (Z.lt_trichotomy (dir lower * i) (dir lower * j)) as [Hlt|[Heq|Hlt]].
      - rewrite Hi4 in Hj by lia. done.
      - unfold dir in Heq. destruct lower; lia.
      - rewrite Hjk in Hi1 by lia. done. }
    destruct (Z.testbit w b); set_solver.
  - rewrite elem_of_nil. split.
    + intros [H|[]]. destruct (Z.testbit w b); set_solver.
    + intros [[-> Hw]|(Hj & Hjr & Hjb & _)]; [rewrite Hw; set_solver|]. by rewrite Hf in Hj.
Qed.

Lemma candidates_head w b lower :
  0 <= b < 128 ->
  match find_closest_active_bit_candidates w b lower with
  | [] => forall k, 0 <= k < 128 -> dir lower * k <= dir lower * b -> Z.testbit w k = false
  | j :: _ => Z.testbit w j = true /\ 0 <= j < 128 /\ dir lower * j <= dir lower * b /\
      forall k, 0 <= k < 128 -> dir lower * j < dir lower * k <= dir lower * b ->
        Z.testbit w k = false
  end.
Proof.
  intros Hb. rewrite candidates_eq by done.
  pose proof (find_beyond lower (Z.testbit w) b Hb) as Hf.
  destruct (Z.testbit w b) eqn:Hw; cbn [app].
  - split; [done|]. split; [done|]. split; [lia|]. intros; lia.
  - assert (forall k, dir lower * k <= dir lower * b -> k = b \/ dir lower * k < dir lower * b) as Hcase.
    { intros k. unfold dir. destruct lower; lia. }
    destruct (List.find (Z.testbit w) (beyond lower b)) as [i|]; unfold option_list; simpl.
    + destruct Hf as (Hi1 & Hi2 & Hi3 & Hi4). split; [done|]. split; [done|]. split; [lia|].
      intros k Hk [Hk1 Hk2]. destruct (Hcase k Hk2) as [->|]; [done|]. by apply Hi4.
    + intros k Hk Hk2. destruct (Hcase k Hk2) as [->|]; [done|]. by apply Hf.
Qed.
End Candidates.

(** ** The bitmap as a set of ticks *)

Section Words.

Lemma bits_lt n a : 0 <= n -> 0 <= a ->
  (forall k, n <= k -> Z.testbit a k = false) <-> a < 2 ^ n.
Proof.
  intros Hn Ha. split.
  - intros Hk. assert (a = a mod 2 ^ n) as ->.
    { apply Z.bits_inj'. intros k Hk0. destruct (Z.lt_ge_cases k n).
      - by rewrite Z.mod_pow2_bits_low.
      - rewrite Z.mod_pow2_bits_high by lia. auto. }
    apply Z.mod_pos_bound. apply Z.pow_pos_nonneg; lia.
  - intros Hlt k Hk. rewrite <- (Z.mod_small a (2 ^ n)) by lia.
    by apply Z.mod_pow2_bits_high.
Qed.

Definition is_word (w : Z) : Prop := 0 <= w < 2 ^ 128.

Lemma word_zero w : is_word w -> (forall b, 0 <= b < 128 -> Z.testbit w b = false) -> w = 0.
Proof.
  intros [H0 H1] Hb. apply Z.bits_inj'. intros k Hk. rewrite Z.bits_0.
  destruct (Z.lt_ge_cases k 128); [auto|]. by apply (bits_lt 128).
Qed.

Lemma word_nonzero w : is_word w -> w <> 0 -> exists b, 0 <= b < 128 /\ Z.testbit w b = true.
Proof.
  intros [H0 H1] Hw. exists (Z.log2 w). split; [|apply Z.bit_log2; lia].
  split; [apply Z.log2_nonneg|]. apply Z.log2_lt_pow2; lia.
Qed.

Lemma word_testbit_nonzero w b : Z.testbit w b = true -> w <> 0.
Proof. intros Hb ->. by rewrite Z.bits_0 in Hb. Qed.

Lemma shiftl_1_testbit b k : 0 <= b -> Z.testbit (Z.shiftl 1 b) k = (b =? k).
Proof. intros Hb. rewrite Z.shiftl_mul_pow2, Z.mul_1_l by done. by apply Z.pow2_bits_eqb. Qed.

Lemma testbit_set w b k : 0 <= b -> Z.testbit (Z.lor w (Z.shiftl 1 b)) k = Z.testbit w k || (b =? k).
Proof. intros Hb. by rewrite Z.lor_spec, shiftl_1_testbit. Qed.
Lemma testbit_clear w b k : 0 <= b ->
  Z.testbit (Z.ldiff w (Z.shiftl 1 b)) k = Z.testbit w k && negb (b =? k).
Proof. intros Hb. by rewrite Z.ldiff_spec, shiftl_1_testbit. Qed.

Lemma is_word_set w b : is_word w -> 0 <= b < 128 -> is_word (Z.lor w (Z.shiftl 1 b)).
Proof.
  intros [H0 H1] Hb. assert (0 <= Z.lor w (Z.shiftl 1 b)).
  { apply Z.lor_nonneg. split; [done|]. apply Z.shiftl_nonneg. lia. }
  split; [done|]. apply bits_lt; [lia|done|]. intros k Hk. rewrite testbit_set by lia.
  rewrite (proj2 (bits_lt 128 w ltac:(lia) H0) H1 k Hk). cbn. apply Z.eqb_neq. lia.
Qed.

Lemma is_word_clear w b : is_word w -> 0 <= b < 128 -> is_word (Z.ldiff w (Z.shiftl 1 b)).
Proof.
  intros [H0 H1] Hb. assert (0 <= Z.ldiff w (Z.shiftl 1 b)) by (apply Z.ldiff_nonneg; auto).
  split; [done|]. apply bits_lt; [lia|done|]. intros k Hk. rewrite testbit_clear by lia.
  by rewrite (proj2 (bits_lt 128 w ltac:(lia) H0) H1 k Hk).
Qed.

Lemma get_word_set m n l w v n' l' w' :
  get_word (set_word n l w v m) n' l' w' =
  if decide (n' = n /\ l' = l /\ w' = w) then v else get_word m n' l' w'.
Proof.
  unfold get_word, set_word. rewrite lookup_insert.
  destruct (decide ((n, l, w) = (n', l', w'))) as [E|E]; case_decide as D; cbn; try done.
  - exfalso. apply D. by simplify_eq.
  - exfalso. apply E. destruct D as (-> & -> & ->). done.
Qed.
End Words.

(** The position of an offset index in a layer. *)
Definition word_of (l : LayerLevel) (x : Z) : Z :=
  match l with Top => 0 | Middle => x / 16384 | Bottom => x / 128 end.
Definition bit_of (l : LayerLevel) (x : Z) : Z :=
  match l with Top => x / 16384 | Middle => x / 128 mod 128 | Bottom => x mod 128 end.

Definition offset (t : Z) : Z := t + TickIndex.OFFSET.

Section Positions.
Import Bitmap.

Lemma offset_range t : TickIndex.valid t -> 0 <= offset t < 2097152.
Proof.
  unfold TickIndex.valid, offset, TickIndex.OFFSET, MAX_TICK, MIN_TICK.
  change TickIndex.MIN with (-443636). change TickIndex.MAX with 443636. lia.
Qed.

Lemma bit_of_range l x : 0 <= x < 2097152 -> 0 <= bit_of l x < 128.
Proof. intros Hx. destruct l; cbn; Z.div_mod_to_equations; lia. Qed.

Lemma out_of_range_valid t :
  ActiveTickIndexManager.out_of_range t = false <-> TickIndex.valid t.
Proof.
  unfold ActiveTickIndexManager.out_of_range, TickIndex.valid. rewrite orb_false_iff, !Z.ltb_ge. lia.
Qed.

Lemma from_pos t l : TickIndex.valid t ->
  word_at (from t) l = word_of l (offset t) /\ bit_at (from t) l = bit_of l (offset t).
Proof.
  intros Ht. pose proof (offset_range t Ht) as Hx. unfold from.
  replace (isat_add I32_MIN I32_MAX t TickIndex.OFFSET) with (offset t).
  2: { unfold isat_add, clamp. fold (offset t). lia. }
  rewrite Z.mod_small by lia. unfold word_at, bit_at.
  destruct l; cbn; split; try done; Z.div_mod_to_equations; lia.
Qed.

(** The inverse of the decomposition. *)
Lemma layer_to_index_eq w b : 0 <= w < 16384 -> 0 <= b < 128 ->
  layer_to_index (mkBitmapLayer w b) = w * 128 + b.
Proof. intros. unfold layer_to_index, sat_add, sat_mul. cbn. lia. Qed.
End Positions.

(** The invariant of the bitmap of subnet [n]: a bit of a layer is set exactly
    when the word it stands for in the layer below is not empty, and bottom
    bits stand for valid ticks only. *)
Record bitmap_ok (m : Words) (n : Z) : Prop := {
  bo_word : forall l w, is_word (get_word m n l w);
  bo_top : forall b, 0 <= b < 128 ->
    Z.testbit (get_word m n Top 0) b = negb (get_word m n Middle b =? 0);
  bo_middle : forall w b, 0 <= w < 128 -> 0 <= b < 128 ->
    Z.testbit (get_word m n Middle w) b = negb (get_word m n Bottom (w * 128 + b) =? 0);
  bo_bottom : forall w b, 0 <= w < 16384 -> 0 <= b < 128 ->
    Z.testbit (get_word m n Bottom w) b = true -> TickIndex.valid (w * 128 + b - TickIndex.OFFSET);
}.

(** The ticks of subnet [n] the bitmap holds. *)
Definition active (m : Words) (n t : Z) : bool :=
  negb (ActiveTickIndexManager.out_of_range t) &&
  Z.testbit (get_word m n Bottom (word_of Bottom (offset t))) (bit_of Bottom (offset t)).

Section Refinement.
Import Bitmap ActiveTickIndexManager.

Lemma active_spec m n t : active m n t = true <->
  TickIndex.valid t /\ Z.testbit (get_word m n Bottom (offset t / 128)) (offset t mod 128) = true.
Proof. unfold active. rewrite andb_true_iff, negb_true_iff, out_of_range_valid. done. Qed.

Lemma empty_ok n : bitmap_ok ∅ n.
Proof.
  assert (forall l w, get_word ∅ n l w = 0) as H.
  { intros l w. unfold get_word. by rewrite lookup_empty. }
  split.
  - intros l w. rewrite H. by unfold is_word.
  - intros b _. by rewrite !H, Z.bits_0.
  - intros w b _ _. by rewrite !H, Z.bits_0.
  - intros w b _ _. by rewrite H, Z.bits_0.
Qed.

(** *** insert *)

Lemma insert_word n t m n' l w : TickIndex.valid t ->
  get_word (insert n t m) n' l w =
  if decide (n' = n /\ w = word_of l (offset t))
  then Z.lor (get_word m n' l w) (Z.shiftl 1 (bit_of l (offset t)))
  else get_word m n' l w.
Proof.
  intros Ht. unfold insert. rewrite (proj2 (out_of_range_valid t) Ht).
  unfold bit_mask. fold (bit_at (from t) Top) (bit_at (from t) Middle) (bit_at (from t) Bottom).
  rewrite !(proj1 (from_pos t _ Ht)), !(proj2 (from_pos t _ Ht)).
  rewrite !get_word_set. destruct l; repeat case_decide; naive_solver.
Qed.

Lemma insert_invalid n t m : ~ TickIndex.valid t -> insert n t m = m.
Proof.
  intros Ht. unfold insert. destruct (out_of_range t) eqn:E; [done|].
  by apply out_of_range_valid in E.
Qed.

Lemma pos_eq x w b : 0 <= x < 2097152 -> 0 <= b < 128 ->
  w * 128 + b = x <-> w = x / 128 /\ b = x mod 128.
Proof. intros. Z.div_mod_to_equations. lia. Qed.

Lemma insert_ok n t m n' : bitmap_ok m n' -> bitmap_ok (insert n t m) n'.
Proof.
  intros Hok. destruct (decide (TickIndex.valid t)) as [Ht|Ht]; [|by rewrite insert_invalid].
  pose proof (offset_range t Ht) as Hx. set (x := offset t) in *.
  destruct (decide (n' = n)) as [->|Hn].
  2: { destruct Hok as [H1 H2 H3 H4].
    split; intros; rewrite ?insert_word, ?decide_False by naive_solver; eauto.
    rewrite insert_word, decide_False in * by naive_solver. eauto. }
  pose proof (bit_of_range Top x Hx) as Bt. pose proof (bit_of_range Middle x Hx) as Bm.
  pose proof (bit_of_range Bottom x Hx) as Bb.
  destruct Hok as [H1 H2 H3 H4]. split.
  - intros l w. rewrite insert_word by done. fold x. case_decide; [|done].
    apply is_word_set; [done|]. by apply bit_of_range.
  - intros b Hb. rewrite !insert_word by done. fold x. cbn [word_of bit_of] in *.
    rewrite decide_True by done. rewrite testbit_set, H2 by lia.
    case_decide as D.
    + destruct D as [_ ->]. rewrite Z.eqb_refl, orb_true_r. symmetry.
      apply negb_true_iff, Z.eqb_neq, (word_testbit_nonzero _ (x / 128 mod 128)).
      by rewrite testbit_set, Z.eqb_refl, orb_true_r by lia.
    + rewrite (proj2 (Z.eqb_neq (x / 16384) b)), orb_false_r; [done|naive_solver].
  - intros w b Hw Hb. rewrite !insert_word by done. fold x. cbn [word_of bit_of] in *.
    assert (w * 128 + b = x / 128 <-> w = x / 16384 /\ b = x / 128 mod 128) as Hpos
      by (Z.div_mod_to_equations; lia).
    destruct (decide (n = n /\ w * 128 + b = x / 128)) as [[_ D]|D].
    + apply Hpos in D as [-> ->]. rewrite decide_True by done.
      rewrite testbit_set, Z.eqb_refl, orb_true_r by lia. symmetry.
      apply negb_true_iff, Z.eqb_neq, (word_testbit_nonzero _ (x mod 128)).
      by rewrite testbit_set, Z.eqb_refl, orb_true_r by lia.
    + rewrite <- H3 by done. case_decide as E; [|done]. destruct E as [_ ->].
      rewrite testbit_set by lia. rewrite (proj2 (Z.eqb_neq _ b)), orb_false_r; [done|naive_solver].
  - intros w b Hw Hb. rewrite insert_word by done. fold x. cbn [word_of bit_of] in *.
    case_decide as D; [|by apply H4]. destruct D as [_ ->]. rewrite testbit_set by lia.
    rewrite orb_true_iff, Z.eqb_eq. intros [?| <-]; [by apply H4|].
    replace (x / 128 * 128 + x mod 128 - TickIndex.OFFSET) with t; [done|].
    unfold x, offset. Z.div_mod_to_equations; lia.
Qed.

(** Inserting a valid tick adds it, and nothing else, to the set. *)
Lemma insert_active n t m n' t' :
  active (insert n t m) n' t' = true <->
  (n' = n /\ t' = t /\ TickIndex.valid t) \/ active m n' t' = true.
Proof.
  rewrite !active_spec. destruct (decide (TickIndex.valid t)) as [Ht|Ht].
  2: { rewrite insert_invalid by done. naive_solver. }
  rewrite insert_word by done. cbn [word_of bit_of].
  pose proof (offset_range t Ht) as Hx.
  case_decide as D; [|naive_solver].
  destruct D as [-> D]. rewrite testbit_set by (Z.div_mod_to_equations; lia).
  rewrite orb_true_iff, Z.eqb_eq. split.
  - intros [Hv [?|E]]; [naive_solver|]. left. split; [done|]. split; [|done].
    unfold offset in *. Z.div_mod_to_equations. lia.
  - intros [(_ & -> & _)|[??]]; [naive_solver|naive_solver].
Qed.
(** *** remove *)

(** The word of each layer after a removal at offset [x]. *)
Definition cleared (m : Words) (n x : Z) (l : LayerLevel) : Z :=
  let b' := Z.ldiff (get_word m n Bottom (word_of Bottom x)) (Z.shiftl 1 (bit_of Bottom x)) in
  let m1 := get_word m n Middle (word_of Middle x) in
  let m' := if b' =? 0 then Z.ldiff m1 (Z.shiftl 1 (bit_of Middle x)) else m1 in
  let t0 := get_word m n Top (word_of Top x) in
  match l with
  | Bottom => b'
  | Middle => m'
  | Top => if m' =? 0 then Z.ldiff t0 (Z.shiftl 1 (bit_of Top x)) else t0
  end.

Lemma remove_word n t m n' l w : TickIndex.valid t ->
  get_word (remove n t m) n' l w =
  if decide (n' = n /\ w = word_of l (offset t)) then cleared m n (offset t) l
  else get_word m n' l w.
Proof.
  intros Ht. unfold remove. rewrite (proj2 (out_of_range_valid t) Ht).
  unfold bit_mask. fold (bit_at (from t) Top) (bit_at (from t) Middle) (bit_at (from t) Bottom).
  rewrite !(proj1 (from_pos t _ Ht)), !(proj2 (from_pos t _ Ht)). unfold cleared.
  destruct (Z.ldiff (get_word m n Bottom _) _ =? 0) eqn:E1;
    (match goal with |- context [if ?c =? 0 then set_word _ Top _ _ _ else _] =>
       destruct (c =? 0) eqn:E2 end);
    rewrite !get_word_set; destruct l; cbn [word_of]; repeat case_decide; naive_solver.
Qed.

Lemma remove_invalid n t m : ~ TickIndex.valid t -> remove n t m = m.
Proof.
  intros Ht. unfold remove. destruct (out_of_range t) eqn:E; [done|].
  by apply out_of_range_valid in E.
Qed.

(** Whether bit [b] of the word of layer [l] survives a removal. *)
Lemma cleared_testbit m n x l k : 0 <= x < 2097152 ->
  Z.testbit (cleared m n x l) k = true -> Z.testbit (get_word m n l (word_of l x)) k = true.
Proof.
  intros Hx. pose proof (bit_of_range l x Hx). unfold cleared.
  destruct l; repeat (case_match; try done); rewrite ?testbit_clear by lia;
    rewrite ?andb_true_iff; naive_solver.
Qed.

Lemma cleared_other m n x l k : 0 <= x < 2097152 -> k <> bit_of l x ->
  Z.testbit (cleared m n x l) k = Z.testbit (get_word m n l (word_of l x)) k.
Proof.
  intros Hx Hk. pose proof (bit_of_range l x Hx). unfold cleared.
  destruct l; repeat (case_match; try done); rewrite testbit_clear by lia;
    rewrite (proj2 (Z.eqb_neq _ _)), andb_true_r by done; done.
Qed.

Lemma cleared_is_word m n x l : bitmap_ok m n -> 0 <= x < 2097152 -> is_word (cleared m n x l).
Proof.
  intros [H1 _ _ _] Hx. unfold cleared.
  destruct l; repeat (case_match; try apply H1);
    (apply is_word_clear; [apply H1|by apply bit_of_range]).
Qed.

(** In the two upper layers the bit is kept exactly when the word below is
    still in use. *)
Lemma cleared_self m n x l l' : bitmap_ok m n -> 0 <= x < 2097152 ->
  (l, l') = (Middle, Bottom) \/ (l, l') = (Top, Middle) ->
  Z.testbit (cleared m n x l) (bit_of l x) = negb (cleared m n x l' =? 0).
Proof.
  intros [H1 H2 H3 H4] Hx Hl.
  pose proof (bit_of_range Top x Hx) as Bt. pose proof (bit_of_range Middle x Hx) as Bm.
  assert (Z.testbit (get_word m n l (word_of l x)) (bit_of l x) =
          negb (get_word m n l' (word_of l' x) =? 0)) as Horig.
  { destruct Hl as [[= -> ->]|[= -> ->]]; cbn [word_of bit_of] in *; [|by apply H2].
    rewrite H3 by lia. do 3 f_equal. Z.div_mod_to_equations. lia. }
  destruct (cleared m n x l' =? 0) eqn:E; cbn [negb].
  - destruct Hl as [[= -> ->]|[= -> ->]]; unfold cleared in E |- *; rewrite E;
      rewrite testbit_clear, Z.eqb_refl by lia; apply andb_false_r.
  - assert (cleared m n x l = get_word m n l (word_of l x)) as ->.
    { destruct Hl as [[= -> ->]|[= -> ->]]; unfold cleared in E |- *; by rewrite E. }
    rewrite Horig. apply negb_true_iff, Z.eqb_neq. intros H0. apply Z.eqb_neq in E. apply E.
    apply word_zero; [apply cleared_is_word; [by split|done]|]. intros k Hk.
    destruct (Z.testbit (cleared m n x l') k) eqn:Ek; [|done].
    apply cleared_testbit in Ek; [|done]. by rewrite H0, Z.bits_0 in Ek.
Qed.

Lemma remove_ok n t m n' : bitmap_ok m n' -> bitmap_ok (remove n t m) n'.
Proof.
  intros Hok. destruct (decide (TickIndex.valid t)) as [Ht|Ht]; [|by rewrite remove_invalid].
  pose proof (offset_range t Ht) as Hx. set (x := offset t) in *.
  destruct (decide (n' = n)) as [->|Hn].
  2: { destruct Hok as [H1 H2 H3 H4].
    split; intros; rewrite ?remove_word, ?decide_False by naive_solver; eauto.
    rewrite remove_word, decide_False in * by naive_solver. eauto. }
  pose proof (cleared_self m n x Top Middle Hok Hx ltac:(auto)) as Htop.
  pose proof (cleared_self m n x Middle Bottom Hok Hx ltac:(auto)) as Hmid.
  pose proof (cleared_is_word m n x) as Hw. destruct Hok as [H1 H2 H3 H4] eqn:Eok. split.
  - intros l w. rewrite remove_word by done. case_decide; [by apply Hw|done].
  - intros b Hb. rewrite !remove_word by done. fold x. cbn [word_of bit_of] in *.
    rewrite decide_True by done. case_decide as D.
    + by destruct D as [_ ->].
    + rewrite cleared_other by (cbn; naive_solver). by apply H2.
  - intros w b Hw' Hb. rewrite !remove_word by done. fold x. cbn [word_of bit_of] in *.
    assert (w * 128 + b = x / 128 <-> w = x / 16384 /\ b = x / 128 mod 128) as Hpos
      by (Z.div_mod_to_equations; lia).
    destruct (decide (n = n /\ w * 128 + b = x / 128)) as [[_ D]|D].
    + apply Hpos in D as [-> ->]. by rewrite decide_True.
    + rewrite <- H3 by done. case_decide as E; [|done]. destruct E as [_ ->].
      apply cleared_other; [done|]. cbn. naive_solver.
  - intros w b Hw' Hb. rewrite remove_word by done. fold x. cbn [word_of] in *.
    case_decide as D; [|by apply H4]. destruct D as [_ ->].
    intros Hbit. apply H4; [done|done|]. by apply (cleared_testbit m n x Bottom).
Qed.

(** Removing a tick removes it, and nothing else, from the set. *)
Lemma remove_active n t m n' t' :
  active (remove n t m) n' t' = true <->
  active m n' t' = true /\ ~ (n' = n /\ t' = t).
Proof.
  rewrite !active_spec. destruct (decide (TickIndex.valid t)) as [Ht|Ht].
  2: { rewrite remove_invalid by done. naive_solver. }
  rewrite remove_word by done. cbn [word_of].
  pose proof (offset_range t Ht) as Hx. pose proof (bit_of_range Bottom (offset t) Hx) as Hb.
  case_decide as D; [|naive_solver].
  destruct D as [-> D]. unfold cleared. rewrite testbit_clear by lia. cbn [word_of bit_of] in *.
  rewrite andb_true_iff, negb_true_iff, Z.eqb_neq, <- D. split.
  - intros (Hv & Hbit & Hne). split; [done|]. intros [_ ->]. done.
  - intros [[Hv Hbit] Hne]. split_and!; try done; try apply Hv. intros E. apply Hne. split; [done|].
    unfold offset in *. Z.div_mod_to_equations. lia.
Qed.
(** *** find_closest *)

Lemma foldl_flatten {A B C St} (f : St -> C -> St) (g : A -> B -> option C) (h : A -> list B) l st :
  foldl (fun st a => foldl (fun st b => match g a b with Some c => f st c | None => st end) st (h a)) st l
  = foldl f st (l ≫= fun a => h a ≫= fun b => option_list (g a b)).
Proof.
  assert (forall a k st, foldl (fun st b => match g a b with Some c => f st c | None => st end) st k
          = foldl f st (k ≫= fun b => option_list (g a b))) as Hin.
  { intros a k. induction k as [|b k IH]; intros st'; [done|]. cbn. rewrite IH, foldl_app.
    by destruct (g a b). }
  revert st. induction l as [|a l IH]; intros st; [done|]. cbn.
  by rewrite IH, Hin, foldl_app.
Qed.

#[local] Arguments consider : simpl never.

(** [consider] keeps the best index of the list it is folded over. *)
Lemma consider_best lower l found r :
  let st := foldl (consider lower) (found, r) l in
  (l = [] /\ st = (found, r)) \/
  (st.1 = true /\ (st.2 ∈ l \/ (found = true /\ st.2 = r)) /\
   (forall y, y ∈ l -> dir lower * y <= dir lower * st.2) /\
   (found = true -> dir lower * r <= dir lower * st.2)).
Proof.
  revert found r. induction l as [|a l IH]; intros found r; cbn; [by left|]. right.
  assert (exists r', consider lower (found, r) a = (true, r') /\
    (r' = a \/ (found = true /\ r' = r)) /\ dir lower * a <= dir lower * r' /\
    (found = true -> dir lower * r <= dir lower * r')) as (r' & -> & Hor & Ha & Hr).
  { unfold consider, dir. destruct lower.
    - destruct (Z.ltb_spec r a); destruct found; cbn; eexists; (split; [done|]); intuition lia.
    - destruct (Z.ltb_spec a r); destruct found; cbn; eexists; (split; [done|]); intuition lia. }
  destruct (IH true r') as [[-> ->]|(H1 & H2 & H3 & H4)]; cbn.
  - split; [done|]. split; [set_solver|]. split; [|done]. intros y Hy. set_solver.
  - split; [done|]. split; [set_solver|]. specialize (H4 eq_refl). split; [|intros; naive_solver lia].
    intros y [->|Hy]%elem_of_cons; [lia|auto].
Qed.

(** The offset indices a search looks at. *)
Definition found_indices (m : Words) (n x : Z) (lower : bool) : list Z :=
  find_closest_active_bit_candidates (get_word m n Top 0) (x / 16384) lower ≫= fun c0 =>
  find_closest_active_bit_candidates (get_word m n Middle c0)
    (start_from c0 (x / 16384) (x / 128 mod 128)) lower ≫= fun c1 =>
  option_list (match find_closest_active_bit_candidates (get_word m n Bottom (c0 * 128 + c1))
          (start_from (c0 * 128 + c1) (x / 128) (x mod 128)) lower with
         | [] => None | b :: _ => Some ((c0 * 128 + c1) * 128 + b) end).

Lemma start_from_range a b c : 0 <= c < 128 -> 0 <= start_from a b c < 128.
Proof. unfold start_from. destruct (a ?= b); lia. Qed.

Lemma candidates_range w b lower j :
  0 <= b < 128 -> j ∈ find_closest_active_bit_candidates w b lower ->
  0 <= j < 128 /\ dir lower * j <= dir lower * b /\ Z.testbit w j = true.
Proof.
  intros Hb Hj. apply elem_of_candidates in Hj; [|done].
  destruct Hj as [[-> ?]|(H1 & H2 & H3 & _)].
  - split; [done|split; [lia|done]].
  - split; [done|split; [lia|done]].
Qed.

Lemma foldl_ext_in {A St} (f g : St -> A -> St) l st :
  (forall st a, a ∈ l -> f st a = g st a) -> foldl f st l = foldl g st l.
Proof.
  revert st. induction l as [|a l IH]; intros st H; [done|]. cbn.
  rewrite H by set_solver. apply IH. intros; apply H; set_solver.
Qed.

Lemma find_closest_eq n t lower m : TickIndex.valid t ->
  find_closest n t lower m =
  let '(found, result) := foldl (consider lower) (false, 0) (found_indices m n (offset t) lower) in
  if found then match TickIndex.from_offset_index result with Ok u => Some u | Err _ => None end
  else None.
Proof.
  intros Ht. pose proof (offset_range t Ht) as Hx. unfold find_closest.
  rewrite (proj2 (out_of_range_valid t) Ht).
  rewrite !(proj1 (from_pos t _ Ht)), !(proj2 (from_pos t _ Ht)). cbn [word_of bit_of].
  pose proof (bit_of_range Top _ Hx) as Bt. pose proof (bit_of_range Middle _ Hx) as Bm.
  pose proof (bit_of_range Bottom _ Hx) as Bb. cbn [bit_of] in *.
  set (x := offset t) in *. unfold found_indices.
  rewrite <- (foldl_flatten (consider lower)). 
  match goal with |- (let '(_, _) := ?a in _) = (let '(_, _) := ?b in _) => replace a with b; [done|] end.
  apply foldl_ext_in. intros st c0 Hc0. apply candidates_range in Hc0 as (R0 & _); [|done].
  rewrite (layer_to_index_eq 0 c0) by lia. rewrite Z.mul_0_l, Z.add_0_l.
  apply foldl_ext_in. intros st' c1 Hc1.
  apply candidates_range in Hc1 as (R1 & _); [|by apply start_from_range].
  rewrite (layer_to_index_eq c0 c1) by lia.
  pose proof (candidates_head (get_word m n Bottom (c0 * 128 + c1))
    (start_from (c0 * 128 + c1) (x / 128) (x mod 128)) lower (start_from_range _ _ _ Bb)) as Hh.
  destruct (find_closest_active_bit_candidates _ _ _) as [|b l]; [done|].
  rewrite layer_to_index_eq by lia. done.
Qed.
#[local] Opaque find_closest_active_bit_candidates.

(** Bottom bit of an offset index. *)
Definition act (m : Words) (n y : Z) : bool :=
  Z.testbit (get_word m n Bottom (y / 128)) (y mod 128).

Lemma act_pos m n w b : 0 <= b < 128 ->
  act m n (w * 128 + b) = Z.testbit (get_word m n Bottom w) b.
Proof.
  intros Hb. unfold act.
  rewrite Z.div_add_l, (Z.div_small b), Z.add_0_r by lia.
  by rewrite Z.add_comm, Z_mod_plus_full, Z.mod_small.
Qed.

(** A set bit of an upper layer has an active index below it. *)
Lemma middle_act m n w b : bitmap_ok m n -> 0 <= w < 128 -> 0 <= b < 128 ->
  Z.testbit (get_word m n Middle w) b = true ->
  exists c, 0 <= c < 128 /\ act m n ((w * 128 + b) * 128 + c) = true.
Proof.
  intros [H1 H2 H3 H4] Hw Hb. rewrite H3 by done. intros Hne%negb_true_iff%Z.eqb_neq.
  destruct (word_nonzero _ (H1 _ _) Hne) as (c & Hc & Hbit). exists c. split; [done|].
  by rewrite act_pos.
Qed.

Lemma top_act m n b : bitmap_ok m n -> 0 <= b < 128 ->
  Z.testbit (get_word m n Top 0) b = true ->
  exists c d, 0 <= c < 128 /\ 0 <= d < 128 /\ act m n ((b * 128 + c) * 128 + d) = true.
Proof.
  intros Hok Hb. pose proof Hok as [H1 H2 H3 H4]. rewrite H2 by done.
  intros Hne%negb_true_iff%Z.eqb_neq.
  destruct (word_nonzero _ (H1 _ _) Hne) as (c & Hc & Hbit).
  destruct (middle_act m n b c Hok Hb Hc Hbit) as (d & Hd & Hact). exists c, d. exact (conj Hc (conj Hd Hact)).
Qed.

(** An active index sets the bits above it. *)
Lemma act_upper m n y0 y1 y2 : bitmap_ok m n ->
  0 <= y0 < 128 -> 0 <= y1 < 128 -> 0 <= y2 < 128 ->
  act m n ((y0 * 128 + y1) * 128 + y2) = true ->
  Z.testbit (get_word m n Bottom (y0 * 128 + y1)) y2 = true /\
  Z.testbit (get_word m n Middle y0) y1 = true /\ Z.testbit (get_word m n Top 0) y0 = true.
Proof.
  intros [H1 H2 H3 H4] R0 R1 R2. rewrite act_pos by done. intros Hb. split; [done|].
  assert (Z.testbit (get_word m n Middle y0) y1 = true) as Hm.
  { rewrite H3 by done. apply negb_true_iff, Z.eqb_neq. by eapply word_testbit_nonzero. }
  split; [done|]. rewrite H2 by done. apply negb_true_iff, Z.eqb_neq.
  by eapply word_testbit_nonzero.
Qed.

Lemma elem_of_found m n x lower y :
  y ∈ found_indices m n x lower <->
  exists c0 c1 b l,
    c0 ∈ find_closest_active_bit_candidates (get_word m n Top 0) (x / 16384) lower /\
    c1 ∈ find_closest_active_bit_candidates (get_word m n Middle c0)
           (start_from c0 (x / 16384) (x / 128 mod 128)) lower /\
    find_closest_active_bit_candidates (get_word m n Bottom (c0 * 128 + c1))
      (start_from (c0 * 128 + c1) (x / 128) (x mod 128)) lower = b :: l /\
    y = (c0 * 128 + c1) * 128 + b.
Proof.
  unfold found_indices. rewrite list_elem_of_bind. setoid_rewrite list_elem_of_bind.
  split.
  - intros (c0 & (c1 & Hy & Hc1) & Hc0).
    destruct (find_closest_active_bit_candidates (get_word m n Bottom (c0 * 128 + c1)) _ _)
      as [|b l] eqn:E; [by apply elem_of_nil in Hy|].
    apply list_elem_of_singleton in Hy. exists c0, c1, b, l. by split_and!.
  - intros (c0 & c1 & b & l & Hc0 & Hc1 & E & ->). exists c0. split; [|done].
    exists c1. split; [|done]. rewrite E. by apply list_elem_of_singleton.
Qed.

(** The digits of an offset index. *)
Lemma digits x : 0 <= x < 2097152 ->
  exists x0 x1 x2, x = (x0 * 128 + x1) * 128 + x2 /\
    0 <= x0 < 128 /\ 0 <= x1 < 128 /\ 0 <= x2 < 128.
Proof.
  intros Hx. exists (x / 16384), (x / 128 mod 128), (x mod 128). Z.div_mod_to_equations. lia.
Qed.

Lemma digits_eq x0 x1 x2 : 0 <= x0 < 128 -> 0 <= x1 < 128 -> 0 <= x2 < 128 ->
  let x := (x0 * 128 + x1) * 128 + x2 in
  x / 16384 = x0 /\ x / 128 = x0 * 128 + x1 /\ x / 128 mod 128 = x1 /\ x mod 128 = x2.
Proof. intros. unfold x. Z.div_mod_to_equations. lia. Qed.

Section Search.
Context (m : Words) (n : Z) (Hok : bitmap_ok m n) (lower : bool) (x0 x1 x2 : Z).
Context (R0 : 0 <= x0 < 128) (R1 : 0 <= x1 < 128) (R2 : 0 <= x2 < 128).
Let x := (x0 * 128 + x1) * 128 + x2.

(** Nothing is returned that is not active or lies beyond [x]. *)
Lemma found_sound y : y ∈ found_indices m n x lower ->
  0 <= y < 2097152 /\ act m n y = true /\ dir lower * y <= dir lower * x.
Proof.
  destruct (digits_eq x0 x1 x2 R0 R1 R2) as (D0 & D1 & D2 & D3). fold x in D0, D1, D2, D3.
  intros (c0 & c1 & b & l & Hc0 & Hc1 & E & ->)%elem_of_found.
  rewrite D0, ?D2, ?D1, ?D3 in *.
  apply candidates_range in Hc0 as (S0 & T0 & _); [|done].
  apply candidates_range in Hc1 as (S1 & T1 & _); [|by apply start_from_range].
  pose proof (candidates_head (get_word m n Bottom (c0 * 128 + c1))
    (start_from (c0 * 128 + c1) (x0 * 128 + x1) x2) lower (start_from_range _ _ _ R2)) as Hh.
  rewrite E in Hh. destruct Hh as (Hb & S2 & T2 & _).
  split; [lia|]. split; [by rewrite act_pos|].
  unfold start_from, dir, x in *. destruct lower;
    destruct (Z.compare_spec c0 x0); destruct (Z.compare_spec (c0 * 128 + c1) (x0 * 128 + x1)); lia.
Qed.

(** The best active index is looked at. *)
Lemma found_complete y0 y1 y2 :
  0 <= y0 < 128 -> 0 <= y1 < 128 -> 0 <= y2 < 128 ->
  let y := (y0 * 128 + y1) * 128 + y2 in
  act m n y = true -> dir lower * y <= dir lower * x ->
  (forall z, 0 <= z < 2097152 -> act m n z = true -> dir lower * z <= dir lower * x ->
     dir lower * z <= dir lower * y) ->
  y ∈ found_indices m n x lower.
Proof.
  intros Y0 Y1 Y2 y Hy Hyx Hbest.
  destruct (digits_eq x0 x1 x2 R0 R1 R2) as (D0 & D1 & D2 & D3). fold x in D0, D1, D2, D3.
  destruct (act_upper m n y0 y1 y2 Hok Y0 Y1 Y2 Hy) as (Bb & Bm & Bt).
  apply elem_of_found. exists y0, y1, y2. rewrite D0, D2, D1, D3.
  pose proof (candidates_head (get_word m n Bottom (y0 * 128 + y1))
    (start_from (y0 * 128 + y1) (x0 * 128 + x1) x2) lower (start_from_range _ _ _ R2)) as Hh.
  destruct (find_closest_active_bit_candidates (get_word m n Bottom (y0 * 128 + y1)) _ _) as [|b l].
  { rewrite Hh in Bb; [done|done|]. unfold start_from, dir, x, y in *.
    destruct lower; destruct (Z.compare_spec (y0 * 128 + y1) (x0 * 128 + x1)); lia. }
  destruct Hh as (Hb & S2 & T2 & Hcl). exists l.
  assert (b = y2) as ->.
  { pose proof (Hbest ((y0 * 128 + y1) * 128 + b) ltac:(lia) ltac:(by rewrite act_pos)) as H.
    destruct (Z.eq_dec b y2) as [|Hne]; [done|].
    destruct (Z.lt_ge_cases (dir lower * b) (dir lower * y2)) as [Hlt|Hge].
    - rewrite Hcl in Bb; [done|done|]. unfold start_from, dir, x, y in *.
      destruct lower; destruct (Z.compare_spec (y0 * 128 + y1) (x0 * 128 + x1)); lia.
    - unfold start_from, dir, x, y in *.
      destruct lower; destruct (Z.compare_spec (y0 * 128 + y1) (x0 * 128 + x1)); lia. }
  split; [|split; [|done]].
  - apply elem_of_candidates; [done|]. destruct (Z.eq_dec y0 x0) as [->|Hne]; [by left|]. right.
    split; [done|]. split; [done|]. split; [unfold dir, x, y in *; destruct lower; lia|].
    intros k Hk Hkb. destruct (Z.testbit (get_word m n Top 0) k) eqn:E; [|done].
    destruct (top_act m n k Hok Hk E) as (c & d & Hc & Hd & Ha).
    specialize (Hbest ((k * 128 + c) * 128 + d) ltac:(lia) Ha). unfold dir, x, y in *. destruct lower; lia.
  - apply elem_of_candidates; [by apply start_from_range|].
    destruct (Z.eq_dec y1 (start_from y0 x0 x1)) as [<-|Hne]; [by left|]. right.
    split; [done|]. split; [done|].
    split; [unfold start_from, dir, x, y in *; destruct lower; destruct (Z.compare_spec y0 x0); lia|].
    intros k Hk Hkb. destruct (Z.testbit (get_word m n Middle y0) k) eqn:E; [|done].
    destruct (middle_act m n y0 k Hok Y0 Hk E) as (d & Hd & Ha).
    specialize (Hbest ((y0 * 128 + k) * 128 + d) ltac:(lia) Ha). unfold start_from, dir, x, y in *.
    destruct lower; destruct (Z.compare_spec y0 x0); lia.
Qed.
End Search.

(** If anything is active on the right side of [x], something is best. *)
Lemma best_exists (f : Z -> bool) lower x z :
  0 <= z < 2097152 -> f z = true -> dir lower * z <= dir lower * x ->
  exists y, 0 <= y < 2097152 /\ f y = true /\ dir lower * y <= dir lower * x /\
    forall z, 0 <= z < 2097152 -> f z = true -> dir lower * z <= dir lower * x ->
      dir lower * z <= dir lower * y.
Proof.
  remember (Z.to_nat (dir lower * x - dir lower * z)) as d eqn:Hd. revert z Hd.
  induction d as [d IH] using lt_wf_ind. intros z Hd Hz Hf Hle.
  destruct (decide (Exists (fun y => f y = true /\ dir lower * z < dir lower * y <= dir lower * x)
    (seqZ 0 2097152))) as [He|Hn].
  - apply Exists_exists in He as (y & Hy%elem_of_seqZ & Hfy & Hlt).
    apply (IH (Z.to_nat (dir lower * x - dir lower * y)) ltac:(lia) y eq_refl); [lia|done|lia].
  - exists z. split_and!; try done; try lia. intros y Hy Hfy Hyx.
    destruct (Z.le_gt_cases (dir lower * y) (dir lower * z)); [done|].
    exfalso. apply Hn, Exists_exists. exists y. split; [apply elem_of_seqZ; lia|].
    split; [done|]. lia.
Qed.

(** Offset indices of active ticks. *)
Lemma act_valid m n y : bitmap_ok m n -> 0 <= y < 2097152 -> act m n y = true ->
  TickIndex.valid (y - TickIndex.OFFSET).
Proof.
  intros [_ _ _ H4] Hy Ha. rewrite (Z.div_mod y 128) by lia. rewrite (Z.mul_comm 128).
  apply H4; [Z.div_mod_to_equations; lia|by apply Z.mod_pos_bound|done].
Qed.

Lemma active_act m n t : TickIndex.valid t -> active m n t = act m n (offset t).
Proof. intros Ht. unfold active. by rewrite (proj2 (out_of_range_valid t) Ht). Qed.

Lemma from_offset_ok y : 0 <= y < 2097152 -> TickIndex.valid (y - TickIndex.OFFSET) ->
  TickIndex.from_offset_index y = Ok (y - TickIndex.OFFSET).
Proof.
  unfold TickIndex.valid, TickIndex.from_offset_index, TickIndex.new, TickIndex.as_i32, isat_sub, clamp.
  change TickIndex.OFFSET with 887272. change TickIndex.MIN with (-443636).
  change TickIndex.MAX with 443636. intros Hy Hv.
  replace (Z.max I64_MIN (Z.min I64_MAX (y - 887272))) with (y - 887272) by lia.
  rewrite Z.mod_small by lia. replace (y - 887272 + 2 ^ 31 - 2 ^ 31) with (y - 887272) by lia.
  rewrite (proj2 (Z.leb_le _ _)), (proj2 (Z.leb_le _ _)) by lia. done.
Qed.
End Refinement.

(** ** The set the bitmap stands for *)

(** [o] is the element of [P] nearest to [t] on the side [lower] names. *)
Definition nearest_tick (lower : bool) (P : Z -> Prop) (t : Z) (o : option Z) : Prop :=
  match o with
  | Some u => P u /\ dir lower * u <= dir lower * t /\
      forall v, P v -> dir lower * v <= dir lower * t -> dir lower * v <= dir lower * u
  | None => forall v, P v -> dir lower * t < dir lower * v
  end.

Section Find.
Import Bitmap ActiveTickIndexManager.

Lemma find_closest_nearest m n t lower : bitmap_ok m n -> TickIndex.valid t ->
  nearest_tick lower (fun u => active m n u = true) t (find_closest n t lower m).
Proof.
  intros Hok Ht. rewrite find_closest_eq by done. pose proof (offset_range t Ht) as Hx.
  destruct (digits _ Hx) as (x0 & x1 & x2 & Ex & R0 & R1 & R2).
  pose proof (found_sound m n lower x0 x1 x2 R0 R1 R2) as Hs.
  pose proof (found_complete m n Hok lower x0 x1 x2 R0 R1 R2) as Hc.
  rewrite <- Ex in Hs, Hc.
  assert (forall v, active m n v = true -> dir lower * v <= dir lower * t ->
    exists y, y ∈ found_indices m n (offset t) lower /\ dir lower * offset v <= dir lower * y) as Hbest.
  { intros v Hv Hvt. pose proof (proj1 (proj1 (active_spec _ _ _) Hv)) as Vv.
    rewrite active_act in Hv by done. pose proof (offset_range v Vv) as Hvr.
    destruct (best_exists (act m n) lower (offset t) (offset v) Hvr Hv) as (y & Hy & Ha & Hle & Hb).
    { unfold offset, dir in *. destruct lower; lia. }
    destruct (digits y Hy) as (y0 & y1 & y2 & -> & Y0 & Y1 & Y2).
    exists ((y0 * 128 + y1) * 128 + y2). split; [by apply (Hc y0 y1 y2)|].
    apply Hb; [done..|]. unfold offset, dir in *. destruct lower; lia. }
  destruct (consider_best lower (found_indices m n (offset t) lower) false 0)
    as [[El Est]|(E1 & [Hin|[? _]] & Hmax & _)]; [|clear Hc|done].
  - rewrite Est. intros v Hv. destruct (Z.le_gt_cases (dir lower * v) (dir lower * t)) as [Hle|]; [|lia].
    destruct (Hbest v Hv Hle) as (y & Hy & _). rewrite El in Hy. by apply elem_of_nil in Hy.
  - destruct (foldl _ _ _) as [fnd r]. cbn [fst snd] in E1, Hin, Hmax. subst fnd.
    destruct (Hs r Hin) as (Hr & Ha & Hle). pose proof (act_valid m n r Hok Hr Ha) as Vr.
    rewrite from_offset_ok by done. unfold nearest_tick. split; [|split].
    + rewrite active_act by done. by replace (offset (r - TickIndex.OFFSET)) with r by (unfold offset; lia).
    + unfold offset, dir in *. destruct lower; lia.
    + intros v Hv Hvt. destruct (Hbest v Hv Hvt) as (y & Hy & Hvy). specialize (Hmax y Hy).
      unfold offset, dir in *. destruct lower; lia.
Qed.
End Find.

(** Updates of the active-tick set, and what they do to a plain set of
    (subnet, tick) pairs. *)
Inductive TickOp : Type := InsertTick (netuid index : Z) | RemoveTick (netuid index : Z).

Definition apply_op (m : Words) (op : TickOp) : Words :=
  match op with
  | InsertTick n t => ActiveTickIndexManager.insert n t m
  | RemoveTick n t => ActiveTickIndexManager.remove n t m
  end.

Definition abstract_op (s : gset (Z * Z)) (op : TickOp) : gset (Z * Z) :=
  match op with
  | InsertTick n t => if ActiveTickIndexManager.out_of_range t then s else {[ (n, t) ]} ∪ s
  | RemoveTick n t => s ∖ {[ (n, t) ]}
  end.

(** The bitmap [m] holds exactly the ticks of [s]. *)
Record represents (m : Words) (s : gset (Z * Z)) : Prop := {
  rep_ok : forall n, bitmap_ok m n;
  rep_active : forall n t, active m n t = true <-> (n, t) ∈ s;
}.

Lemma represents_empty : represents ∅ ∅.
Proof.
  split; [apply empty_ok|]. intros n t. rewrite active_spec. unfold get_word.
  rewrite lookup_empty, Z.bits_0. split; [by intros []|set_solver].
Qed.

Lemma represents_op m s op : represents m s -> represents (apply_op m op) (abstract_op s op).
Proof.
  intros [Hok Hact]. split.
  - intros n. destruct op; [apply insert_ok|apply remove_ok]; apply Hok.
  - intros n t. destruct op as [n' t'|n' t']; cbn.
    + rewrite insert_active, Hact.
      destruct (ActiveTickIndexManager.out_of_range t') eqn:E.
      * assert (~ TickIndex.valid t') by (rewrite <- out_of_range_valid; congruence). naive_solver.
      * apply out_of_range_valid in E. set_solver.
    + rewrite remove_active, Hact. set_solver.
Qed.

Lemma represents_run ops m s : represents m s ->
  represents (foldl apply_op m ops) (foldl abstract_op s ops).
Proof. revert m s. induction ops as [|op ops IH]; intros m s H; [done|]. by apply IH, represents_op. Qed.

Lemma represents_valid m s n t : represents m s -> (n, t) ∈ s -> TickIndex.valid t.
Proof. intros [_ H] Hin. apply H, active_spec in Hin. by destruct Hin. Qed.

Lemma find_represents m s n t lower : represents m s -> TickIndex.valid t ->
  nearest_tick lower (fun u => (n, u) ∈ s) t (ActiveTickIndexManager.find_closest n t lower m).
Proof.
  intros [Hok Hact] Ht. pose proof (find_closest_nearest m n t lower (Hok n) Ht) as H.
  unfold nearest_tick in *. destruct (ActiveTickIndexManager.find_closest n t lower m) as [u|].
  - destruct H as (H1 & H2 & H3). split; [by apply Hact|]. split; [done|].
    intros v Hv. by apply H3, Hact.
  - intros v Hv. by apply H, Hact.
Qed.

(** C5: The bitmap refines a set. Whatever sequence of [insert] and [remove]
    calls built the three layers of words (on any subnets, with in-range or
    out-of-range ticks), [find_closest_lower] and [find_closest_higher] from a
    valid tick return the nearest element, in their direction and including
    the tick itself, of the set the same calls build; they return [None]
    exactly when that side of the set is empty. *)
Theorem tick_bitmap_refines_set (ops : list TickOp) (n t : Z) :
  TickIndex.valid t ->
  let m := foldl apply_op ∅ ops in
  let s := foldl abstract_op ∅ ops in
  nearest_tick true (fun u => (n, u) ∈ s) t (ActiveTickIndexManager.find_closest_lower n t m) /\
  nearest_tick false (fun u => (n, u) ∈ s) t (ActiveTickIndexManager.find_closest_higher n t m).
Proof.
  intros Ht m s. pose proof (represents_run ops _ _ represents_empty) as Hr.
  split; by apply find_represents.
Qed.

Definition demo_ops : list TickOp :=
  [InsertTick 1 (-5); InsertTick 1 40000; InsertTick 1 7; InsertTick 2 6; RemoveTick 1 7].

Lemma tick_bitmap_refines_set_witness :
  ActiveTickIndexManager.find_closest_lower 1 100 (foldl apply_op ∅ demo_ops) = Some (-5) /\
  nearest_tick true (fun u => (1, u) ∈ foldl abstract_op ∅ demo_ops) 100
    (ActiveTickIndexManager.find_closest_lower 1 100 (foldl apply_op ∅ demo_ops)) /\
  ActiveTickIndexManager.find_closest_higher 1 100 (foldl apply_op ∅ demo_ops) = Some 40000.
Proof.
  split; [vm_compute; reflexivity|]. split; [|vm_compute; reflexivity].
  refine (proj1 (tick_bitmap_refines_set demo_ops 1 100 _)). vm_compute. split; discriminate.
Defined.

(** [tick_is_active] on such a bitmap answers membership in the set, except
    that it also answers [true] for the largest tick when the subnet has no
    active tick at all: there the lookup falls back on [TickIndex::MAX]. *)
Theorem tick_is_active_spec (ops : list TickOp) (n t : Z) :
  TickIndex.valid t ->
  ActiveTickIndexManager.tick_is_active n t (foldl apply_op ∅ ops) = true <->
  (n, t) ∈ foldl abstract_op ∅ ops \/
  (t = TickIndex.MAX /\ forall u, (n, u) ∉ foldl abstract_op ∅ ops).
Proof.
  intros Ht. pose proof (represents_run ops _ _ represents_empty) as Hr.
  pose proof (find_represents _ _ n t true Hr Ht) as H.
  pose proof (fun u => represents_valid _ _ n u Hr) as Hv.
  set (s := foldl abstract_op ∅ ops) in *. set (m := foldl apply_op ∅ ops) in *.
  unfold ActiveTickIndexManager.tick_is_active, ActiveTickIndexManager.find_closest_lower.
  unfold nearest_tick, dir, TickIndex.valid in *. rewrite Z.eqb_eq.
  destruct (ActiveTickIndexManager.find_closest n t true m) as [u|]; unfold default; cbn -[Z.mul].
  - destruct H as (Hu & Hle & Hmax). split; [by intros <-; left|].
    intros [Hin|[_ Hno]]; [|by apply Hno in Hu]. specialize (Hmax t Hin). lia.
  - split.
    + intros <-. right. split; [done|]. intros v Hin. specialize (H v Hin).
      specialize (Hv v Hin). lia.
    + intros [Hin|[-> _]]; [|done]. specialize (H t Hin). lia.
Qed.

Lemma tick_is_active_spec_witness :
  ActiveTickIndexManager.tick_is_active 1 40000 (foldl apply_op ∅ demo_ops) = true /\
  ActiveTickIndexManager.tick_is_active 7 TickIndex.MAX (foldl apply_op ∅ demo_ops) = true.
Proof.
  split.
  - apply tick_is_active_spec; [vm_compute; split; discriminate|]. left.
    refine (bool_decide_unpack _ _). vm_compute. exact I.
  - vm_compute. reflexivity.
Defined.

(** ** Saturating arithmetic *)

Section Saturating.
Import TickIndex.
Context (t v : Z) (Ht : valid t) (Hv : I32_MIN <= v <= I32_MAX).

(** Case analysis on the boolean comparisons of a goal, closed by arithmetic. *)
Ltac tick_cases :=
  change MIN with (-443636) in *; change MAX with 443636 in *;
  unfold isat_add, isat_sub, clamp in *;
  repeat match goal with
  | |- context [?a <=? ?b] => destruct (Z.leb_spec a b)
  | |- context [?a <? ?b] => destruct (Z.ltb_spec a b)
  end; cbn [andb orb]; try lia; try nia.

Lemma saturating_add_clamp : saturating_add t v = clamp MIN MAX (t + v).
Proof using Ht Hv. unfold saturating_add, checked_add, new, valid in *. tick_cases. Qed.

Lemma saturating_sub_clamp : saturating_sub t v = clamp MIN MAX (t - v).
Proof using Ht Hv. unfold saturating_sub, checked_sub, new, valid in *. tick_cases. Qed.

Lemma saturating_mul_clamp : saturating_mul t v = clamp MIN MAX (t * v).
Proof using Ht Hv. unfold saturating_mul, checked_mul, new, valid in *. tick_cases. Qed.

Lemma saturating_div_clamp : saturating_div t v =
  if v =? 0 then MAX else clamp MIN MAX (Z.quot t v).
Proof using Ht Hv.
  unfold saturating_div, checked_div. destruct (Z.eqb_spec v 0) as [|Hv0]; [done|].
  assert (Z.abs (Z.quot t v) <= Z.abs t).
  { rewrite <- Z.quot_abs by done. apply Z.quot_le_upper_bound; nia. }
  unfold new, valid in *. tick_cases.
Qed.
End Saturating.

(** Saturating tick arithmetic is exact arithmetic clamped to the tick
    range, for a valid tick and any [i32] operand (division by zero gives the
    largest tick). In particular the result is always a valid tick. *)
Theorem tick_saturating_ops_clamp (t v : Z) :
  TickIndex.valid t -> I32_MIN <= v <= I32_MAX ->
  TickIndex.saturating_add t v = clamp TickIndex.MIN TickIndex.MAX (t + v) /\
  TickIndex.saturating_sub t v = clamp TickIndex.MIN TickIndex.MAX (t - v) /\
  TickIndex.saturating_mul t v = clamp TickIndex.MIN TickIndex.MAX (t * v) /\
  TickIndex.saturating_div t v =
    (if v =? 0 then TickIndex.MAX else clamp TickIndex.MIN TickIndex.MAX (Z.quot t v)).
Proof.
  intros Ht Hv. split_and!; [by apply saturating_add_clamp|by apply saturating_sub_clamp
    |by apply saturating_mul_clamp|by apply saturating_div_clamp].
Qed.

Lemma tick_saturating_ops_clamp_witness :
  TickIndex.saturating_mul (-300000) 20000 = TickIndex.MIN.
Proof.
  refine (eq_trans (proj1 (proj2 (proj2 (tick_saturating_ops_clamp (-300000) 20000 _ _)))) _);
    vm_compute; try reflexivity; split; discriminate.
Defined.
