(* ===== verification/TickMath.v ===== *)
(** * Prices of ticks (src/pallets/swap/src/tick.rs)

    The square root of the price at a tick, [1.0001^(tick/2)], as a table of
    constants multiplied bit by bit, and the inverse by a binary logarithm. A
    256-bit integer [U256] or [I256] is a [Z] of that width with the saturation
    or wrap-around of the operation written out; a [U64F64] is its bits. *)

From S2P Require Import Prelude Fixed Tick.
From stdpp Require Import prelude list.
From Stdlib Require Import ZArith Lia.
#[local] Open Scope Z_scope.

Definition U256_MAX : Z := 2 ^ 256 - 1.
(** [U256::from_limbs([a, b, c, 0])] *)
Definition limbs (a b c : Z) : Z := a + b * 2 ^ 64 + c * 2 ^ 128.
Definition u256_mul (a b : Z) : Z := sat_mul U256_MAX a b.
Definition u256_add (a b : Z) : Z := sat_add U256_MAX a b.
(** [Shl], which drops the bits that do not fit. *)
Definition u256_shl (a n : Z) : Z := Z.shiftl a n mod 2 ^ 256.
(** Two's complement of 256 bits. *)
Definition i256 (x : Z) : Z := (x + 2 ^ 255) mod 2 ^ 256 - 2 ^ 255.
Definition I256_add (a b : Z) : Z := clamp (- 2 ^ 255) (2 ^ 255 - 1) (a + b).
Definition I256_sub (a b : Z) : Z := clamp (- 2 ^ 255) (2 ^ 255 - 1) (a - b).

Definition U256_MAX_TICK : Z := 887272.
Definition MIN_SQRT_RATIO : Z := 4295128739.
Definition MAX_SQRT_RATIO : Z := limbs 6743328256752651558 17280870778742802505 4294805859.
Definition SQRT_10001 : Z := limbs 11745905768312294533 13863 0.
Definition TICK_LOW : Z := limbs 6552757943157144234 184476617836266586 0.
Definition TICK_HIGH : Z := limbs 4998474450511881007 15793544031827761793 0.

(** ** From a tick to its price *)

(** The constants of the bits of the tick, from the second bit on. *)
Definition tick_factors : list (Z * Z) :=
  [(2, limbs 6459403834229662010 18444899583751176498 0);
   (4, limbs 17226890335427755468 18443055278223354162 0);
   (8, limbs 2032852871939366096 18439367220385604838 0);
   (16, limbs 14545316742740207172 18431993317065449817 0);
   (32, limbs 5129152022828963008 18417254355718160513 0);
   (64, limbs 4894419605888772193 18387811781193591352 0);
   (128, limbs 1280255884321894483 18329067761203520168 0);
   (256, limbs 15924666964335305636 18212142134806087854 0);
   (512, limbs 8010504389359918676 17980523815641551639 0);
   (1024, limbs 10668036004952895731 17526086738831147013 0);
   (2048, limbs 4878133418470705625 16651378430235024244 0);
   (4096, limbs 9537173718739605541 15030750278693429944 0);
   (8192, limbs 9972618978014552549 12247334978882834399 0);
   (16384, limbs 10428997489610666743 8131365268884726200 0);
   (32768, limbs 9305304367709015974 3584323654723342297 0);
   (65536, limbs 14301143598189091785 696457651847595233 0);
   (131072, limbs 7393154844743099908 26294789957452057 0);
   (262144, limbs 2209338891292245656 37481735321082 0);
   (524288, limbs 10518117631919034274 76158723 0)].
Definition tick_factor0 : Z := limbs 12262481743371124737 18445821805675392311 0.

Definition ratio_step (abs_tick : Z) (ratio : Z) (f : Z * Z) : Z :=
  if negb (Z.land abs_tick f.1 =? 0) then Z.shiftr (u256_mul ratio f.2) 128 else ratio.

Definition get_sqrt_ratio_at_tick (tick : Z) : result TickMathError Z :=
  let abs_tick := if tick <? 0 then - tick else tick in
  if U256_MAX_TICK <? abs_tick then Err TickOutOfBounds
  else
    let ratio := if negb (Z.land abs_tick 1 =? 0) then tick_factor0 else limbs 0 0 1 in
    let ratio := foldl (ratio_step abs_tick) ratio tick_factors in
    let ratio := if 0 <? tick then U256_MAX / ratio else ratio in
    let shifted := Z.shiftr ratio 32 in
    Ok (if negb (Z.land ratio (2 ^ 32 - 1) =? 0) then u256_add shifted 1 else shifted).

(** ** From a price to its tick *)

(** One step of the search for the most significant bit: [f] is the number
    [1 << k] when [r] exceeds the bound. *)
Definition msb_step (st : Z * Z) (p : Z * Z) : Z * Z :=
  let '(r, msb) := st in
  let f := if p.1 <? r then Z.shiftl 1 p.2 else 0 in
  (Z.shiftr r f, Z.lor msb f).

Definition msb_steps : list (Z * Z) :=
  [(2 ^ 128 - 1, 7); (2 ^ 64 - 1, 6); (2 ^ 32 - 1, 5); (2 ^ 16 - 1, 4); (255, 3); (15, 2); (3, 1); (1, 0)].

(** One binary digit of the logarithm. *)
Definition log_step (st : Z * Z) (i : Z) : Z * Z :=
  let '(r, log_2) := st in
  let r := Z.shiftr (r * r mod 2 ^ 256) 127 in
  let f := Z.shiftr r 128 in
  (Z.shiftr r f, Z.lor log_2 (i256 (u256_shl f i))).

(** [low_i32] of an [I256] shifted right by 128. *)
Definition high_i32 (x : Z) : Z := TickIndex.as_i32 (Z.shiftr x 128).

Definition get_tick_at_sqrt_ratio (sqrt_price_x_96 : Z) : result TickMathError Z :=
  if negb ((MIN_SQRT_RATIO <=? sqrt_price_x_96) && (sqrt_price_x_96 <? MAX_SQRT_RATIO)) then Err SqrtPriceOutOfBounds
  else
    let ratio := u256_shl sqrt_price_x_96 32 in
    let '(_, msb) := foldl msb_step (ratio, 0) msb_steps in
    let r := if 128 <=? msb then Z.shiftr ratio (sat_sub msb 127) else u256_shl ratio (sat_sub 127 msb) in
    let log_2 := i256 (Z.shiftl (I256_sub msb 128) 64) in
    let '(r, log_2) := foldl log_step (r, log_2) [63; 62; 61; 60; 59; 58; 57; 56; 55; 54; 53; 52; 51; 50] in
    let log_sqrt10001 := i256 (log_2 * SQRT_10001) in
    let tick_low := high_i32 (I256_sub log_sqrt10001 TICK_LOW) in
    let tick_high := high_i32 (I256_add log_sqrt10001 TICK_HIGH) in
    if tick_low =? tick_high then Ok tick_low
    else
      match get_sqrt_ratio_at_tick tick_high with
      | Ok x => Ok (if x <=? sqrt_price_x_96 then tick_high else tick_low)
      | Err e => Err e
      end.

(** ** Number formats *)

(** [saturating_shl] *)
Definition u256_saturating_shl (a n : Z) : Z := Z.min (Z.shiftl a n) U256_MAX.

Definition u64f64_to_u256 (value target_fractional_bits : Z) : Z :=
  match target_fractional_bits ?= 64 with
  | Lt => Z.shiftr value (64 - target_fractional_bits)
  | Gt => u256_saturating_shl value (target_fractional_bits - 64)
  | Eq => value
  end.
Definition u64f64_to_u256_q64_96 (value : Z) : Z := u64f64_to_u256 value 96.

Definition q_to_u64f64 (x frac_bits : Z) : result TickMathError Z :=
  let diff := sat_sub frac_bits 64 in
  let shifted := if negb (diff =? 0) then Z.shiftr x diff else x in
  let mask := if negb (diff =? 0) then sat_sub (u256_saturating_shl 1 diff) 1 else 0 in
  let rounded := if negb (diff =? 0) && negb (Z.land x mask =? 0) then u256_add shifted 1 else shifted in
  if negb (Z.shiftr rounded 128 =? 0) then Err TickOverflow else Ok rounded.
Definition u256_q64_96_to_u64f64 (value : Z) : result TickMathError Z := q_to_u64f64 value 96.

(** ** [TickIndex] *)

Definition try_to_sqrt_price (t : Z) : result TickMathError Z :=
  if negb ((TickIndex.MIN <=? t) && (t <=? TickIndex.MAX)) then Err TickOutOfBounds
  else match get_sqrt_ratio_at_tick t with Ok x => u256_q64_96_to_u64f64 x | Err e => Err e end.

Definition try_from_sqrt_price (sqrt_price : Z) : result TickMathError Z :=
  let price_x96 := u64f64_to_u256_q64_96 sqrt_price in
  match get_tick_at_sqrt_ratio price_x96 with
  | Err e => Err e
  | Ok tick =>
      match get_sqrt_ratio_at_tick tick with
      | Err e => Err e
      | Ok price_at_tick =>
          if price_x96 <? price_at_tick then TickIndex.new (TickIndex.i32_sub tick 1)
          else
            match get_sqrt_ratio_at_tick (TickIndex.i32_add tick 1) with
            | Err e => Err e
            | Ok price_at_tick_plus =>
                TickIndex.new (if price_at_tick_plus <=? price_x96 then TickIndex.i32_add tick 1 else tick)
            end
      end
  end.

Section Bounded.
Context {F : SubstrateFixed}.

Definition min_sqrt_price : Z := from_literal U64F64 2328350195 (10 ^ 19).
Definition max_sqrt_price : Z := from_literal U64F64 429488657720989222513899790805 (10 ^ 20).

Definition as_sqrt_price_bounded (t : Z) : Z :=
  match try_to_sqrt_price t with
  | Ok p => p
  | Err _ => if TickIndex.MAX <=? t then max_sqrt_price else min_sqrt_price
  end.

Definition from_sqrt_price_bounded (sqrt_price : Z) : Z :=
  match try_from_sqrt_price sqrt_price with
  | Ok index => index
  | Err _ =>
      let max_price := as_sqrt_price_bounded TickIndex.MAX in
      if max_price <? sqrt_price then TickIndex.MAX else TickIndex.MIN
  end.
End Bounded.

(** Values the source tests against the reference implementation. *)
Example sqrt_ratio_values :
  map get_sqrt_ratio_at_tick [-887272; -887271; 50; 3000; 150000; 738203; 887272] =
  [Ok 4295128739; Ok 4295343490; Ok 79426470787362580746886972461; Ok 92049301871182272007977902845;
   Ok 143194173941309278083010301478497; Ok 847134979253254120489401328389043031315994541;
   Ok 1461446703485210103287273052203988822378723970342].
Proof. vm_compute. reflexivity. Qed.

Example tick_price_roundtrip :
  map (fun t => match try_to_sqrt_price t with Ok p => try_from_sqrt_price p | Err e => Err e end)
    [TickIndex.MIN; -1000; -100; -10; -4; -2; 0; 2; 4; 10; 100; 1000; TickIndex.MAX] =
  map Ok [TickIndex.MIN; -1000; -100; -10; -4; -2; 0; 2; 4; 10; 100; 1000; TickIndex.MAX].
Proof. vm_compute. reflexivity. Qed.

(** ** The table as a product over the bits of the tick *)

Definition one128 : Z := 2 ^ 128.
Definition mul128 (c r : Z) : Z := r * c / one128.

(** All factors, one per bit. *)
Definition all_factors : list Z := tick_factor0 :: map snd tick_factors.

Fixpoint bits_of (n : nat) (t : Z) : list bool :=
  match n with O => [] | S n => Z.odd t :: bits_of n (t / 2) end.

Fixpoint product (fs : list Z) (bs : list bool) (r : Z) : Z :=
  match fs, bs with
  | c :: fs, b :: bs => product fs bs (if b then mul128 c r else r)
  | _, _ => r
  end.

Definition ratio_of (t : Z) : Z := product all_factors (bits_of 20 t) one128.

Definition factor_ok (c : Z) : Prop := 0 < c < one128.
Lemma all_factors_ok : Forall factor_ok all_factors.
Proof. unfold all_factors. repeat constructor. Qed.

Lemma mul128_mono c x y : factor_ok c -> x <= y -> mul128 c x <= mul128 c y.
Proof. intros [? ?] ?. unfold mul128. apply Z.div_le_mono; [done|nia]. Qed.
Lemma mul128_le c x : factor_ok c -> 0 <= x -> 0 <= mul128 c x <= x.
Proof.
  intros [? ?] ?. unfold mul128. split; [apply Z.div_pos; [nia|done]|].
  apply Z.div_le_upper_bound; [done|nia].
Qed.

Lemma product_mono fs bs x y : Forall factor_ok fs -> x <= y -> product fs bs x <= product fs bs y.
Proof.
  intros Hf. revert bs x y. induction Hf as [|c fs Hc _ IH]; intros [|b bs] x y Hxy; cbn; try done.
  apply IH. destruct b; [by apply mul128_mono|done].
Qed.
Lemma product_range fs bs x : Forall factor_ok fs -> 0 <= x -> 0 <= product fs bs x <= x.
Proof.
  intros Hf. revert bs x. induction Hf as [|c fs Hc _ IH]; intros [|b bs] x Hx; cbn; try lia.
  pose proof (mul128_le c x Hc Hx). destruct b; [|by apply IH].
  specialize (IH bs (mul128 c x) ltac:(lia)). lia.
Qed.
(** Fewer bits leave more. *)
Lemma product_all fs bs x : Forall factor_ok fs -> 0 <= x -> length bs = length fs ->
  product fs (replicate (length fs) true) x <= product fs bs x.
Proof.
  intros Hf. revert bs x. induction Hf as [|c fs Hc Hf' IH]; intros [|b bs] x Hx Hl; simplify_eq/=; [lia|].
  pose proof (mul128_le c x Hc Hx). destruct b; [apply IH; cbn in *; lia|].
  etransitivity; [|apply IH; cbn in *; lia]. apply product_mono; [done|lia].
Qed.
Lemma product_app fs gs bs cs x : length fs = length bs ->
  product (fs ++ gs) (bs ++ cs) x = product gs cs (product fs bs x).
Proof.
  revert bs x. induction fs as [|c fs IH]; intros [|b bs] x Hl; simplify_eq/=; [done|]. by apply IH.
Qed.

(** Two values apart by a part of [2^16] stay apart, up to one unit per factor. *)
Lemma product_gap fs bs x y k : Forall factor_ok fs -> 0 <= y -> x <= 2 ^ 16 * (x - y + k) -> 0 <= k -> y <= x ->
  let x' := product fs bs x in let y' := product fs bs y in
  x' <= 2 ^ 16 * (x' - y' + k + Z.of_nat (length fs)).
Proof.
  intros Hf. revert bs x y k. induction Hf as [|c fs Hc _ IH]; intros bs x y k Hy Hxy Hk Hle.
  - destruct bs; cbn; lia.
  - destruct bs as [|b bs]; [cbn -[Z.pow Z.of_nat]; lia|]. cbn [product length].
    destruct b; [|specialize (IH bs x y k Hy Hxy Hk Hle); cbv zeta in IH; lia].
    assert (mul128 c x <= 2 ^ 16 * (mul128 c x - mul128 c y + (k + 1))) as Hstep.
    { destruct Hc as [Hc0 Hc1]. unfold mul128, one128 in *.
      pose proof (Z.div_mod (x * c) (2 ^ 128) ltac:(lia)). pose proof (Z.mod_pos_bound (x * c) (2 ^ 128) ltac:(lia)).
      pose proof (Z.div_mod (y * c) (2 ^ 128) ltac:(lia)). pose proof (Z.mod_pos_bound (y * c) (2 ^ 128) ltac:(lia)).
      set (p := x * c / 2 ^ 128) in *. set (q := y * c / 2 ^ 128) in *.
      assert (x * c <= 2 ^ 16 * (x * c - y * c + k * c)) by nia.
      assert (k * c <= k * 2 ^ 128) by nia.
      assert (2 ^ 128 * p <= 2 ^ 128 * (2 ^ 16 * (p - q + k + 1))) by lia. lia. }
    specialize (IH bs (mul128 c x) (mul128 c y) (k + 1)). cbv zeta in IH.
    pose proof (mul128_le c y Hc Hy). specialize (IH ltac:(lia) Hstep ltac:(lia) (mul128_mono c y x Hc Hle)). lia.
Qed.

(** ** The loop over the table is that product *)

Fixpoint with_masks (k : Z) (fs : list Z) : list (Z * Z) :=
  match fs with [] => [] | c :: fs => (2 ^ k, c) :: with_masks (k + 1) fs end.

Lemma ratio_step_eq t r k c : 0 <= k -> 0 <= t -> factor_ok c -> 0 <= r <= one128 ->
  ratio_step t r (2 ^ k, c) = if Z.odd (t / 2 ^ k) then mul128 c r else r.
Proof.
  intros Hk Ht [Hc Hc1] Hr. unfold ratio_step. cbn [fst snd].
  rewrite Z.land_comm, land_pow2, Z.testbit_odd, Z.shiftr_div_pow2 by lia. destruct (Z.odd _); [|done].
  unfold mul128, u256_mul, sat_mul. rewrite Z.shiftr_div_pow2 by lia. change (2 ^ 128) with one128. f_equal.
  unfold U256_MAX, one128 in *. nia.
Qed.

Lemma foldl_product t fs : 0 <= t -> Forall factor_ok fs -> forall k r, 0 <= k -> 0 <= r <= one128 ->
  foldl (ratio_step t) r (with_masks k fs) = product fs (bits_of (length fs) (t / 2 ^ k)) r.
Proof.
  intros Ht. induction 1 as [|c fs Hc _ IH]; intros k r Hk Hr; [done|].
  cbn [with_masks foldl length bits_of product]. rewrite ratio_step_eq by done.
  pose proof (mul128_le c r Hc ltac:(lia)). rewrite IH by (destruct (Z.odd (t / 2 ^ k)); lia).
  assert (t / 2 ^ k / 2 = t / 2 ^ (k + 1)) as ->; [|done].
  pose proof (Z.pow_pos_nonneg 2 k ltac:(lia) Hk). by rewrite Z.pow_add_r, Z.div_div by lia.
Qed.

Lemma length_factors : length all_factors = 20%nat.
Proof. reflexivity. Qed.

Lemma foldl_masks_cons t r k c fs :
  foldl (ratio_step t) r (with_masks k (c :: fs)) = foldl (ratio_step t) (ratio_step t r (2 ^ k, c)) (with_masks (k + 1) fs).
Proof. reflexivity. Qed.
Lemma all_factors_cons : all_factors = tick_factor0 :: map snd tick_factors.
Proof. reflexivity. Qed.
Lemma tick_factors_masks : tick_factors = with_masks (0 + 1) (map snd tick_factors).
Proof. vm_compute. reflexivity. Qed.
Lemma first_bit t : (if negb (Z.land t 1 =? 0) then tick_factor0 else limbs 0 0 1) = ratio_step t one128 (2 ^ 0, tick_factor0).
Proof.
  assert (Z.shiftr (u256_mul one128 tick_factor0) 128 = tick_factor0) as E by (vm_compute; reflexivity).
  unfold ratio_step. cbn [fst snd]. rewrite E. reflexivity.
Qed.

Lemma table_product t : 0 <= t ->
  foldl (ratio_step t) (if negb (Z.land t 1 =? 0) then tick_factor0 else limbs 0 0 1) tick_factors = ratio_of t.
Proof.
  intros Ht. unfold ratio_of. rewrite first_bit, tick_factors_masks, <- foldl_masks_cons, <- all_factors_cons.
  rewrite foldl_product, length_factors; [|exact Ht|exact all_factors_ok|lia|unfold one128; lia].
  rewrite Z.pow_0_r, Z.div_1_r. reflexivity.
Qed.

(** ** Neighbouring ticks *)

Fixpoint inc (bs : list bool) : list bool :=
  match bs with [] => [] | false :: bs => true :: bs | true :: bs => false :: inc bs end.

Lemma length_bits n t : length (bits_of n t) = n.
Proof. revert t. induction n as [|n IH]; intros t; [done|]. cbn. by rewrite IH. Qed.

Lemma bits_succ n : forall t, 0 <= t -> bits_of n (t + 1) = inc (bits_of n t).
Proof.
  induction n as [|n IH]; intros t Ht; [done|]. cbn [bits_of]. rewrite Z.odd_add. change (Z.odd 1) with true.
  pose proof (Zdiv2_odd_eqn t) as Et. rewrite Z.div2_div in Et. destruct (Z.odd t); cbn [xorb inc].
  - assert ((t + 1) / 2 = t / 2 + 1) as -> by (symmetry; apply (Z.div_unique _ _ _ 0); lia).
    rewrite IH; [done|]. apply Z.div_pos; lia.
  - f_equal. f_equal. symmetry. apply (Z.div_unique _ _ _ 1); lia.
Qed.

Lemma inc_split bs : bs = replicate (length bs) true \/
  exists j hi, bs = replicate j true ++ false :: hi /\ inc bs = replicate j false ++ true :: hi.
Proof.
  induction bs as [|b bs IH]; [by left|]. destruct b.
  - destruct IH as [->|(j & hi & Hb & Hi)]; [left; cbn; by rewrite length_replicate|].
    right. exists (S j), hi. cbn. by rewrite Hi, <- Hb.
  - right. by exists 0%nat, bs.
Qed.

(** The number [2^j] in place of the [j] bits below it lowers the product by
    more than a part of [2^16]. *)
Definition carry_gap (j : nat) : bool :=
  let fs := take (S j) all_factors in
  let x := product fs (replicate j true ++ [false]) one128 in
  let y := product fs (replicate j false ++ [true]) one128 in
  (y <=? x) && (x <=? 2 ^ 16 * (x - y)).
Lemma carry_gaps : forallb carry_gap (seq 0 20) = true.
Proof. vm_compute. reflexivity. Qed.

Lemma bits_all n : forall t, 0 <= t -> bits_of n t = replicate n true -> 2 ^ Z.of_nat n <= t + 1.
Proof.
  induction n as [|n IH]; intros t Ht E; [cbn; lia|]. cbn [bits_of replicate] in E.
  assert (Z.odd t = true /\ bits_of n (t / 2) = replicate n true) as [Ho E2] by (split; congruence).
  specialize (IH (t / 2) ltac:(apply Z.div_pos; lia) E2). rewrite Nat2Z.inj_succ, Z.pow_succ_r by lia.
  pose proof (Zdiv2_odd_eqn t) as Et. rewrite Z.div2_div, Ho in Et. lia.
Qed.

Lemma ratio_gap t : 0 <= t -> t + 1 < 2 ^ 20 ->
  let x := ratio_of t in let y := ratio_of (t + 1) in x <= 2 ^ 16 * (x - y + 20).
Proof.
  intros Ht Ht2. cbv zeta. unfold ratio_of. rewrite bits_succ by done.
  destruct (inc_split (bits_of 20 t)) as [E|(j & hi & Eb & Ei)].
  { rewrite length_bits in E. apply bits_all in E; lia. }
  assert (j + S (length hi) = 20)%nat as Hj.
  { rewrite <- (length_bits 20 t), Eb, length_app, length_replicate. cbn. lia. }
  rewrite Ei, Eb. pose proof carry_gaps as Hg. rewrite forallb_forall in Hg.
  specialize (Hg j ltac:(apply in_seq; lia)). unfold carry_gap in Hg. apply andb_true_iff in Hg as [Hle Hgap].
  apply Z.leb_le in Hle, Hgap.
  change (false :: hi) with ([false] ++ hi). change (true :: hi) with ([true] ++ hi). rewrite !app_assoc.
  rewrite <- (take_drop (S j) all_factors).
  assert (length (take (S j) all_factors) = S j) as Hl by (rewrite length_take; cbn [length all_factors]; cbn; lia).
  rewrite !product_app by (rewrite length_app, length_replicate, Hl; cbn; lia).
  set (x := product (take (S j) all_factors) (replicate j true ++ [false]) one128) in *.
  set (y := product (take (S j) all_factors) (replicate j false ++ [true]) one128) in *.
  assert (0 <= y) as Hy.
  { apply product_range; [apply Forall_take, all_factors_ok|unfold one128; lia]. }
  pose proof (product_gap (drop (S j) all_factors) hi x y 0 (Forall_drop _ _ _ all_factors_ok) Hy ltac:(lia) ltac:(lia) Hle) as H.
  cbv zeta in H. assert (length (drop (S j) all_factors) <= 20)%nat by (rewrite length_drop; cbn; lia). lia.
Qed.

(** ** Prices *)

#[local] Opaque ratio_of.

Definition ceil32 (x : Z) : Z := (x + (2 ^ 32 - 1)) / 2 ^ 32.

(** The price of a tick as a Q64.96 and as a U64F64 number. *)
Definition price96 (t : Z) : Z := ceil32 (if 0 <? t then U256_MAX / ratio_of t else ratio_of (- t)).
Definition price64 (t : Z) : Z := ceil32 (price96 t).

Lemma round_up x : 0 <= x ->
  (if negb (Z.land x (2 ^ 32 - 1) =? 0) then Z.shiftr x 32 + 1 else Z.shiftr x 32) = ceil32 x.
Proof.
  intros Hx. assert (Z.land x (2 ^ 32 - 1) = x mod 2 ^ 32) as ->.
  { replace (2 ^ 32 - 1) with (Z.ones 32) by reflexivity. apply Z.land_ones. lia. }
  rewrite Z.shiftr_div_pow2 by lia. unfold ceil32. pose proof (Z.div_mod x (2 ^ 32) ltac:(lia)).
  pose proof (Z.mod_pos_bound x (2 ^ 32) ltac:(lia)). destruct (Z.eqb_spec (x mod 2 ^ 32) 0); cbn [negb].
  - apply (Z.div_unique _ _ _ (2 ^ 32 - 1)); lia.
  - apply (Z.div_unique _ _ _ (x mod 2 ^ 32 - 1)); lia.
Qed.

Lemma ratio_bounds t : 0 <= t -> 2 ^ 50 <= ratio_of t <= one128.
Proof.
  intros Ht. Transparent ratio_of. unfold ratio_of. split; [|apply product_range; [apply all_factors_ok|unfold one128; lia]].
  etransitivity; [|apply product_all; [apply all_factors_ok|unfold one128; lia|by rewrite length_bits]].
  assert (2 ^ 50 <=? product all_factors (replicate (length all_factors) true) one128 = true) as E by (vm_compute; reflexivity).
  by apply Z.leb_le in E.
Qed.

Lemma product_false fs r : product fs [false] r = r.
Proof. by destruct fs as [|c [|]]. Qed.

(** The upper bit is not set in a valid tick. *)
Lemma valid_ratio_bounds t : 0 <= t < 2 ^ 19 -> 2 ^ 90 <= ratio_of t <= one128.
Proof.
  intros Ht. split; [|apply ratio_bounds; lia]. unfold ratio_of.
  assert (bits_of 20 t = bits_of 19 t ++ [false]) as ->.
  { assert (forall n u, 0 <= u < 2 ^ Z.of_nat n -> bits_of (S n) u = bits_of n u ++ [false]) as Hb; [|by apply (Hb 19%nat)].
    induction n as [|n IH]; intros u Hu; [replace u with 0 by (cbn in Hu; lia); done|].
    rewrite Nat2Z.inj_succ, Z.pow_succ_r in Hu by lia.
    change (bits_of (S (S n)) u) with (Z.odd u :: bits_of (S n) (u / 2)). rewrite IH; [done|].
    split; [apply Z.div_pos; lia|apply Z.div_lt_upper_bound; lia]. }
  rewrite <- (take_drop 19 all_factors), product_app by (rewrite length_bits; reflexivity).
  rewrite product_false.
  etransitivity; [|apply product_all; [apply Forall_take, all_factors_ok|unfold one128; lia|by rewrite length_bits]].
  assert (2 ^ 90 <=? product (take 19 all_factors) (replicate (length (take 19 all_factors)) true) one128 = true) as E
    by (vm_compute; reflexivity).
  by apply Z.leb_le in E.
Qed.
#[local] Opaque ratio_of.

(** The loop never saturates and the division by the ratio is defined. *)
Lemma sqrt_ratio_eq t : - U256_MAX_TICK <= t <= U256_MAX_TICK -> get_sqrt_ratio_at_tick t = Ok (price96 t).
Proof.
  intros Ht. unfold get_sqrt_ratio_at_tick. unfold U256_MAX_TICK in *.
  set (a := if t <? 0 then - t else t). assert (0 <= a <= 887272) as Ha by (subst a; destruct (Z.ltb_spec t 0); lia).
  rewrite (proj2 (Z.ltb_ge 887272 a)) by lia. rewrite table_product by lia.
  assert ((if 0 <? t then U256_MAX / ratio_of a else ratio_of a) = if 0 <? t then U256_MAX / ratio_of t else ratio_of (- t)) as ->.
  { subst a. destruct (Z.ltb_spec 0 t), (Z.ltb_spec t 0); try lia; try done. by replace t with 0 by lia. }
  set (x := if 0 <? t then U256_MAX / ratio_of t else ratio_of (- t)).
  assert (0 <= x < 2 ^ 256) as Hx.
  { subst x. destruct (Z.ltb_spec 0 t).
    - pose proof (ratio_bounds t ltac:(lia)). split; [apply Z.div_pos; unfold U256_MAX; lia|].
      apply Z.div_lt_upper_bound; unfold U256_MAX; nia.
    - pose proof (ratio_bounds (- t) ltac:(lia)). unfold one128 in *. lia. }
  f_equal. unfold price96. fold x. rewrite <- round_up by lia. destruct (negb _); [|done].
  apply sat_add_le. rewrite Z.shiftr_div_pow2 by lia. unfold U256_MAX.
  pose proof (Z.div_lt_upper_bound x (2 ^ 32) (2 ^ 224) ltac:(lia) ltac:(lia)). lia.
Qed.

Lemma ceil32_gap a b : a + 2 ^ 66 <= b -> ceil32 (ceil32 a) < ceil32 (ceil32 b).
Proof.
  unfold ceil32. intros H. Z.to_euclidean_division_equations. lia.
Qed.

Lemma ratio_decreases t : 0 <= t -> t + 1 < 2 ^ 19 -> ratio_of (t + 1) + 2 ^ 66 <= ratio_of t.
Proof.
  intros Ht Ht2. pose proof (ratio_gap t Ht ltac:(lia)) as Hg. cbv zeta in Hg.
  pose proof (valid_ratio_bounds t ltac:(lia)). lia.
Qed.

(** Dividing by neighbouring ratios keeps them apart. *)
Lemma quotient_increases t : 0 <= t -> t + 1 < 2 ^ 19 -> U256_MAX / ratio_of t + 2 ^ 66 <= U256_MAX / ratio_of (t + 1).
Proof.
  intros Ht Ht2. pose proof (ratio_gap t Ht ltac:(lia)) as Hg. cbv zeta in Hg.
  pose proof (valid_ratio_bounds t ltac:(lia)) as [Hx0 Hx1]. pose proof (valid_ratio_bounds (t + 1) ltac:(lia)) as [Hy0 Hy1].
  set (x := ratio_of t) in *. set (y := ratio_of (t + 1)) in *. clearbody x y. unfold one128 in *.
  pose proof (Z.div_mod U256_MAX x ltac:(lia)). pose proof (Z.mod_pos_bound U256_MAX x ltac:(lia)).
  pose proof (Z.div_mod U256_MAX y ltac:(lia)). pose proof (Z.mod_pos_bound U256_MAX y ltac:(lia)).
  set (p := U256_MAX / x) in *. set (q := U256_MAX / y) in *. clearbody p q.
  assert (2 ^ 17 * y <= (2 ^ 17 - 1) * x) as Hxy by lia.
  assert (p * x < (q + 1) * y) as Hpx by nia.
  assert (2 ^ 126 <= p) as Hp by (unfold U256_MAX in *; nia).
  assert (2 ^ 17 * p < (q + 1) * (2 ^ 17 - 1)) as Hpq; [|lia].
  assert (2 ^ 17 * (p * x) < (q + 1) * (2 ^ 17 * y)) by lia. nia.
Qed.

Lemma price_step t : TickIndex.MIN <= t < TickIndex.MAX -> price64 t < price64 (t + 1).
Proof.
  intros Ht. change (-443636 <= t < 443636) in Ht. unfold price64, price96. apply ceil32_gap.
  destruct (Z.ltb_spec 0 t).
  - rewrite (proj2 (Z.ltb_lt 0 (t + 1))) by lia. apply quotient_increases; lia.
  - destruct (Z.ltb_spec 0 (t + 1)).
    + replace t with 0 by lia. vm_compute. congruence.
    + pose proof (ratio_decreases (- (t + 1)) ltac:(lia) ltac:(lia)). replace (- (t + 1) + 1) with (- t) in * by lia. lia.
Qed.

Lemma price_fits t : TickIndex.MIN <= t <= TickIndex.MAX -> 0 < price64 t < 2 ^ 128 /\ 0 < price96 t < 2 ^ 160.
Proof.
  intros Ht. change (-443636 <= t <= 443636) in Ht.
  assert (2 ^ 90 <= (if 0 <? t then U256_MAX / ratio_of t else ratio_of (- t)) <= 2 ^ 166) as Hx.
  { destruct (Z.ltb_spec 0 t).
    - pose proof (valid_ratio_bounds t ltac:(lia)). unfold one128 in *.
      split; [apply Z.div_le_lower_bound; unfold U256_MAX; nia|apply Z.div_le_upper_bound; unfold U256_MAX; nia].
    - pose proof (valid_ratio_bounds (- t) ltac:(lia)). unfold one128 in *. lia. }
  unfold price64, price96, ceil32. set (x := if 0 <? t then _ else _) in *. clearbody x.
  Z.to_euclidean_division_equations. lia.
Qed.

Lemma sqrt_price_eq t : TickIndex.MIN <= t <= TickIndex.MAX -> try_to_sqrt_price t = Ok (price64 t).
Proof.
  intros Ht. unfold try_to_sqrt_price. rewrite (proj2 (Z.leb_le _ t)), (proj2 (Z.leb_le t _)) by lia. cbn [andb negb].
  destruct (price_fits t Ht) as [H1 H2]. rewrite sqrt_ratio_eq by (change (-443636 <= t <= 443636) in Ht; unfold U256_MAX_TICK; lia).
  unfold u256_q64_96_to_u64f64, q_to_u64f64. change (sat_sub 96 64) with 32. cbn [negb Z.eqb Pos.eqb andb].
  change (sat_sub (u256_saturating_shl 1 32) 1) with (2 ^ 32 - 1).
  assert ((if negb (Z.land (price96 t) (2 ^ 32 - 1) =? 0) then u256_add (Z.shiftr (price96 t) 32) 1 else Z.shiftr (price96 t) 32)
    = price64 t) as ->.
  { unfold price64. rewrite <- round_up by lia. destruct (negb _); [|done]. apply sat_add_le.
    rewrite Z.shiftr_div_pow2 by lia. pose proof (Z.div_lt_upper_bound (price96 t) (2 ^ 32) (2 ^ 128) ltac:(lia) ltac:(lia)).
    unfold U256_MAX. lia. }
  rewrite Z.shiftr_div_pow2, Z.div_small by lia. done.
Qed.

Lemma price_increases t u : TickIndex.valid t -> TickIndex.valid u -> t < u -> price64 t < price64 u.
Proof.
  intros Ht Hu Htu.
  assert (forall n : nat, t + Z.of_nat n + 1 <= TickIndex.MAX -> price64 t < price64 (t + Z.of_nat n + 1)) as Hn.
  { destruct Ht as [Ht1 Ht2]. induction n as [|n IH]; intros Hb.
    - rewrite Z.add_0_r. apply price_step. lia.
    - etransitivity; [apply IH; lia|]. replace (t + Z.of_nat (S n) + 1) with (t + Z.of_nat n + 1 + 1) by lia.
      apply price_step. lia. }
  destruct Hu. specialize (Hn (Z.to_nat (u - t - 1))). rewrite Z2Nat.id in Hn by lia.
  replace (t + (u - t - 1) + 1) with u in Hn by lia. apply Hn. done.
Qed.
Lemma price_mono t u : TickIndex.valid t -> TickIndex.valid u -> t <= u -> price64 t <= price64 u.
Proof.
  intros Ht Hu Htu. destruct (decide (t = u)) as [->|]; [done|]. apply Z.lt_le_incl, price_increases; [done..|lia].
Qed.
Lemma price_min t : TickIndex.valid t -> 4295000000 <= price64 t.
Proof.
  intros Ht. transitivity (price64 TickIndex.MIN); [vm_compute; congruence|].
  apply price_mono; [split; vm_compute; congruence|done|apply Ht].
Qed.

(** C16: Every valid tick has a square-root price, and prices are strictly
    increasing in the tick: the table of constants never saturates, never
    divides by zero, always fits 128 bits, and two ticks never share a price. *)
Theorem tick_prices_increase t u :
  TickIndex.valid t -> TickIndex.valid u -> t < u ->
  exists p q, try_to_sqrt_price t = Ok p /\ try_to_sqrt_price u = Ok q /\ 0 < p < q /\ q < 2 ^ 128.
Proof.
  intros Ht Hu Htu. exists (price64 t), (price64 u). rewrite !sqrt_price_eq by done.
  pose proof (price_fits t Ht) as [[? _] _]. pose proof (price_fits u Hu) as [[_ ?] _].
  pose proof (price_increases t u Ht Hu Htu). split_and!; done.
Qed.

Lemma tick_prices_increase_witness :
  exists p q, try_to_sqrt_price (-1000) = Ok p /\ try_to_sqrt_price 1000 = Ok q /\ 0 < p < q /\ q < 2 ^ 128.
Proof. apply (tick_prices_increase (-1000) 1000); [split; vm_compute; congruence..|lia]. Defined.
