(* ===== verification/Storage.v ===== *)
(** * Storage of the subtensor pallet (src/pallets/subtensor/src/lib.rs)

    The pallet keeps its whole state in FRAME storage items. The items that
    have the same shape share one map here, keyed by the item's name and its
    storage key, the way the runtime keeps all of them in one key-value store:
    [Value] (one number), [NetNum] and [NetFlag] (a number or flag for each
    subnet), [NetVec] and [NetBoolVec] (a vector for each subnet, indexed by
    uid), [KeyNum], [KeyList] and [NetKeyNum] (by account). The items with a
    type of their own are fields of [Storage]. Each item keeps its Rust width
    ([*_width]) and its [ValueQuery] default ([*_default]).

    The file also has the pallet's errors, events and configuration, and the
    lemmas that read an item after another one was written. *)

From S2P Require Import Prelude Frame.
From stdpp Require Import prelude gmap list fin_maps.
From Stdlib Require Import ZArith Lia.
#[local] Open Scope Z_scope.

(** Hashes and byte strings, as lists of byte values. *)
Abbreviation H256 := (list Z).
Abbreviation H160 := (list Z).
Abbreviation Bytes := (list Z).

(** The constants of the pallet's [Config] and the build features they depend
    on; [default_account] is the account whose encoding is all zeroes. *)
Class SubtensorConfig {FS : FrameSystem} := {
  InitialActivityCutoff : Z;
  InitialAdjustmentAlpha : Z;
  InitialAdjustmentInterval : Z;
  InitialAlphaSigmoidSteepness : Z;
  InitialBondsMovingAverage : Z;
  InitialBondsPenalty : Z;
  InitialBondsResetOn : bool;
  InitialBurn : Z;
  InitialColdkeySwapRescheduleDuration : Z;
  InitialColdkeySwapScheduleDuration : Z;
  InitialDefaultDelegateTake : Z;
  InitialDifficulty : Z;
  InitialDissolveNetworkScheduleDuration : Z;
  InitialEmaPriceHalvingPeriod : Z;
  InitialImmunityPeriod : Z;
  InitialIssuance : Z;
  InitialKappa : Z;
  InitialMaxAllowedUids : Z;
  InitialMaxAllowedValidators : Z;
  InitialMaxBurn : Z;
  InitialMaxChildKeyTake : Z;
  InitialMaxDifficulty : Z;
  InitialMaxRegistrationsPerBlock : Z;
  InitialMaxWeightsLimit : Z;
  InitialMinAllowedWeights : Z;
  InitialMinBurn : Z;
  InitialMinChildKeyTake : Z;
  InitialMinDelegateTake : Z;
  InitialMinDifficulty : Z;
  InitialNetworkImmunityPeriod : Z;
  InitialNetworkLockReductionInterval : Z;
  InitialNetworkMinLockCost : Z;
  InitialNetworkRateLimit : Z;
  InitialRAORecycledForRegistration : Z;
  InitialRho : Z;
  InitialScalingLawPower : Z;
  InitialSenateRequiredStakePercentage : Z;
  InitialServingRateLimit : Z;
  InitialSubnetOwnerCut : Z;
  InitialTaoWeight : Z;
  InitialTargetRegistrationsPerInterval : Z;
  InitialTempo : Z;
  InitialTxChildKeyTakeRateLimit : Z;
  InitialTxDelegateTakeRateLimit : Z;
  InitialTxRateLimit : Z;
  InitialValidatorPruneLen : Z;
  InitialWeightsVersionKey : Z;
  feature_pow_faucet : bool;
  feature_fast_blocks : bool;
  DurationOfStartCall : Z;
  KeySwapCost : Z;
  KeySwapOnSubnetCost : Z;
  HotkeySwapOnSubnetInterval : Z;
  default_account : AccountId;
}.

(** ** Errors and events *)

Module Error.
Inductive Error : Type :=
  | SubNetworkDoesNotExist | RootNetworkDoesNotExist | InvalidIpType | InvalidIpAddress
  | InvalidPort | HotKeyNotRegisteredInSubNet | HotKeyAccountNotExists
  | HotKeyNotRegisteredInNetwork | NonAssociatedColdKey | NotEnoughStake
  | NotEnoughStakeToWithdraw | NotEnoughStakeToSetWeights | NotEnoughStakeToSetChildkeys
  | NotEnoughBalanceToStake | BalanceWithdrawalError | ZeroBalanceAfterWithdrawn
  | NeuronNoValidatorPermit | WeightVecNotEqualSize | DuplicateUids
  | UidVecContainInvalidOne | WeightVecLengthIsLow | TooManyRegistrationsThisBlock
  | HotKeyAlreadyRegisteredInSubNet | NewHotKeyIsSameWithOld | InvalidWorkBlock
  | InvalidDifficulty | InvalidSeal | MaxWeightExceeded | HotKeyAlreadyDelegate
  | SettingWeightsTooFast | IncorrectWeightVersionKey | ServingRateLimitExceeded
  | UidsLengthExceedUidsInSubNet | NetworkTxRateLimitExceeded | DelegateTxRateLimitExceeded
  | HotKeySetTxRateLimitExceeded | StakingRateLimitExceeded | SubNetRegistrationDisabled
  | TooManyRegistrationsThisInterval | TransactorAccountShouldBeHotKey | NotSenateMember
  | FaucetDisabled | NotSubnetOwner | RegistrationNotPermittedOnRootSubnet
  | StakeTooLowForRoot | AllNetworksInImmunity | NotEnoughBalanceToPaySwapHotKey
  | NotRootSubnet | CanNotSetRootNetworkWeights | NoNeuronIdAvailable | DelegateTakeTooLow
  | DelegateTakeTooHigh | NoWeightsCommitFound | InvalidRevealCommitHashNotMatch
  | CommitRevealEnabled | CommitRevealDisabled | CouldNotJoinSenate | LiquidAlphaDisabled
  | AlphaHighTooLow | AlphaLowOutOfRange | ColdKeyAlreadyAssociated
  | NotEnoughBalanceToPaySwapColdKey | ColdkeyIsInArbitration | InvalidChild
  | DuplicateChild | ProportionOverflow | TooManyChildren | TxRateLimitExceeded
  | SwapAlreadyScheduled | FailedToSchedule | NewColdKeyIsHotkey | InvalidChildkeyTake
  | TxChildkeyTakeRateLimitExceeded | InvalidIdentity | MechanismDoesNotExist
  | CannotUnstakeLock | SubnetNotExists | TooManyUnrevealedCommits | ExpiredWeightCommit
  | RevealTooEarly | InputLengthsUnequal | CommittingWeightsTooFast | AmountTooLow
  | InsufficientLiquidity | SlippageTooHigh | TransferDisallowed | ActivityCutoffTooLow
  | CallDisabled | FirstEmissionBlockNumberAlreadySet | NeedWaitingMoreBlocksToStarCall
  | NotEnoughAlphaOutToRecycle | CannotBurnOrRecycleOnRootSubnet | UnableToRecoverPublicKey
  | InvalidRecoveredPublicKey | SubtokenDisabled | HotKeySwapOnSubnetIntervalNotPassed
  | ZeroMaxStakeAmount | SameNetuid | InsufficientBalance.
#[global] Instance Error_eq_dec : EqDecision Error.
Proof. intros x y. destruct x; (destruct y; [..]; (left; reflexivity) || (right; discriminate)). Defined.
End Error.

Module Event.
Inductive Event {FS : FrameSystem} : Type :=
  | NetworkAdded (_ _ : Z)
  | NetworkRemoved (_ : Z)
  | StakeAdded (_ _ : AccountId) (_ _ _ _ : Z)
  | StakeRemoved (_ _ : AccountId) (_ _ _ _ : Z)
  | StakeMoved (_ _ : AccountId) (_ : Z) (_ : AccountId) (_ _ : Z)
  | WeightsSet (_ _ : Z)
  | NeuronRegistered (_ _ : Z) (_ : AccountId)
  | BulkNeuronsRegistered (_ _ : Z)
  | BulkBalancesSet (_ _ : Z)
  | MaxAllowedUidsSet (_ _ : Z)
  | MaxWeightLimitSet (_ _ : Z)
  | DifficultySet (_ _ : Z)
  | AdjustmentIntervalSet (_ _ : Z)
  | RegistrationPerIntervalSet (_ _ : Z)
  | MaxRegistrationsPerBlockSet (_ _ : Z)
  | ActivityCutoffSet (_ _ : Z)
  | RhoSet (_ _ : Z)
  | AlphaSigmoidSteepnessSet (_ _ : Z)
  | KappaSet (_ _ : Z)
  | MinAllowedWeightSet (_ _ : Z)
  | ValidatorPruneLenSet (_ _ : Z)
  | ScalingLawPowerSet (_ _ : Z)
  | WeightsSetRateLimitSet (_ _ : Z)
  | ImmunityPeriodSet (_ _ : Z)
  | BondsMovingAverageSet (_ _ : Z)
  | BondsPenaltySet (_ _ : Z)
  | BondsResetOnSet (_ : Z) (_ : bool)
  | MaxAllowedValidatorsSet (_ _ : Z)
  | AxonServed (_ : Z) (_ : AccountId)
  | PrometheusServed (_ : Z) (_ : AccountId)
  | DelegateAdded (_ _ : AccountId) (_ : Z)
  | DefaultTakeSet (_ : Z)
  | WeightsVersionKeySet (_ _ : Z)
  | MinDifficultySet (_ _ : Z)
  | MaxDifficultySet (_ _ : Z)
  | ServingRateLimitSet (_ _ : Z)
  | BurnSet (_ _ : Z)
  | MaxBurnSet (_ _ : Z)
  | MinBurnSet (_ _ : Z)
  | TxRateLimitSet (_ : Z)
  | TxDelegateTakeRateLimitSet (_ : Z)
  | TxChildKeyTakeRateLimitSet (_ : Z)
  | MinChildKeyTakeSet (_ : Z)
  | MaxChildKeyTakeSet (_ : Z)
  | ChildKeyTakeSet (_ : AccountId) (_ : Z)
  | Sudid (_ : result (error Error.Error) unit)
  | RegistrationAllowed (_ : Z) (_ : bool)
  | PowRegistrationAllowed (_ : Z) (_ : bool)
  | TempoSet (_ _ : Z)
  | RAORecycledForRegistrationSet (_ _ : Z)
  | StakeThresholdSet (_ : Z)
  | SenateRequiredStakePercentSet (_ : Z)
  | AdjustmentAlphaSet (_ _ : Z)
  | Faucet (_ : AccountId) (_ : Z)
  | SubnetOwnerCutSet (_ : Z)
  | NetworkRateLimitSet (_ : Z)
  | NetworkImmunityPeriodSet (_ : Z)
  | NetworkMinLockCostSet (_ : Z)
  | NetworkLockCostReductionIntervalSet (_ : Z)
  | TakeDecreased (_ _ : AccountId) (_ : Z)
  | TakeIncreased (_ _ : AccountId) (_ : Z)
  | HotkeySwapped (coldkey old_hotkey new_hotkey : AccountId)
  | MaxDelegateTakeSet (_ : Z)
  | MinDelegateTakeSet (_ : Z)
  | SenateAdjusted (old_member : option AccountId) (new_member : AccountId)
  | ColdkeySwapped (old_coldkey new_coldkey : AccountId) (swap_cost : Z)
  | AllBalanceUnstakedAndTransferredToNewColdkey (current_coldkey new_coldkey : AccountId) (total_balance : Z)
  | ColdkeySwapScheduled (old_coldkey new_coldkey : AccountId) (execution_block swap_cost : Z)
  | ArbitrationPeriodExtended (coldkey : AccountId)
  | SetChildrenScheduled (_ : AccountId) (_ _ : Z) (_ : list (Z * AccountId))
  | SetChildren (_ : AccountId) (_ : Z) (_ : list (Z * AccountId))
  | ChainIdentitySet (_ : AccountId)
  | SubnetIdentitySet (_ : Z)
  | SubnetIdentityRemoved (_ : Z)
  | DissolveNetworkScheduled (account : AccountId) (netuid execution_block : Z)
  | ColdkeySwapScheduleDurationSet (_ : Z)
  | DissolveNetworkScheduleDurationSet (_ : Z)
  | CRV3WeightsCommitted (_ : AccountId) (_ : Z) (_ : H256)
  | WeightsCommitted (_ : AccountId) (_ : Z) (_ : H256)
  | WeightsRevealed (_ : AccountId) (_ : Z) (_ : H256)
  | WeightsBatchRevealed (_ : AccountId) (_ : Z) (_ : list H256)
  | BatchWeightsCompleted (_ : list Z) (_ : AccountId)
  | BatchCompletedWithErrors
  | BatchWeightItemFailed (_ : error Error.Error)
  | StakeTransferred (_ _ _ : AccountId) (_ _ _ : Z)
  | StakeSwapped (_ _ : AccountId) (_ _ _ : Z)
  | TransferToggle (_ : Z) (_ : bool)
  | SubnetOwnerHotkeySet (_ : Z) (_ : AccountId)
  | FirstEmissionBlockNumberSet (_ _ : Z)
  | AlphaRecycled (_ _ : AccountId) (_ _ : Z)
  | AlphaBurned (_ _ : AccountId) (_ _ : Z)
  | EvmKeyAssociated (netuid : Z) (hotkey : AccountId) (evm_key : H160) (block_associated : Z)
  | CRV3WeightsRevealed (_ : Z) (_ : AccountId)
  | CommitRevealPeriodsSet (_ _ : Z)
  | CommitRevealEnabled (_ : Z) (_ : bool)
  | HotkeySwappedOnSubnet (coldkey old_hotkey new_hotkey : AccountId) (netuid : Z).
End Event.

(** ** Storage items *)

(** [StorageValue]s holding a number. *)
Module Value.
Inductive Value : Type :=
  | MinActivityCutoff | ColdkeySwapScheduleDuration | ColdkeySwapRescheduleDuration
  | DissolveNetworkScheduleDuration | SenateRequiredStakePercentage | NextStakeJobId
  | TaoWeight | MaxDelegateTake | MinDelegateTake | MaxChildkeyTake | MinChildkeyTake
  | BlockEmission | TotalIssuance | TotalStake | TotalNetworks | NetworkImmunityPeriod
  | NetworkLastRegistered | NetworkMinLockCost | NetworkLastLockCost
  | NetworkLockReductionInterval | SubnetOwnerCut | NetworkRateLimit
  | NominatorMinRequiredStake | WeightsVersionKeyRateLimit | TxRateLimit
  | TxDelegateTakeRateLimit | TxChildkeyTakeRateLimit | StakeThreshold
  | PendingChildKeyCooldown.

Definition all : list Value :=
  [MinActivityCutoff; ColdkeySwapScheduleDuration; ColdkeySwapRescheduleDuration;
   DissolveNetworkScheduleDuration; SenateRequiredStakePercentage; NextStakeJobId;
   TaoWeight; MaxDelegateTake; MinDelegateTake; MaxChildkeyTake; MinChildkeyTake;
   BlockEmission; TotalIssuance; TotalStake; TotalNetworks; NetworkImmunityPeriod;
   NetworkLastRegistered; NetworkMinLockCost; NetworkLastLockCost;
   NetworkLockReductionInterval; SubnetOwnerCut; NetworkRateLimit;
   NominatorMinRequiredStake; WeightsVersionKeyRateLimit; TxRateLimit;
   TxDelegateTakeRateLimit; TxChildkeyTakeRateLimit; StakeThreshold;
   PendingChildKeyCooldown].
Definition index (x : Value) : nat :=
  match x with
  | MinActivityCutoff => 0 | ColdkeySwapScheduleDuration => 1
  | ColdkeySwapRescheduleDuration => 2 | DissolveNetworkScheduleDuration => 3
  | SenateRequiredStakePercentage => 4 | NextStakeJobId => 5 | TaoWeight => 6
  | MaxDelegateTake => 7 | MinDelegateTake => 8 | MaxChildkeyTake => 9
  | MinChildkeyTake => 10 | BlockEmission => 11 | TotalIssuance => 12 | TotalStake => 13
  | TotalNetworks => 14 | NetworkImmunityPeriod => 15 | NetworkLastRegistered => 16
  | NetworkMinLockCost => 17 | NetworkLastLockCost => 18
  | NetworkLockReductionInterval => 19 | SubnetOwnerCut => 20 | NetworkRateLimit => 21
  | NominatorMinRequiredStake => 22 | WeightsVersionKeyRateLimit => 23 | TxRateLimit => 24
  | TxDelegateTakeRateLimit => 25 | TxChildkeyTakeRateLimit => 26 | StakeThreshold => 27
  | PendingChildKeyCooldown => 28
  end.
#[global] Instance Value_enum : Enum Value all index.
Proof. by intros []. Qed.
#[global] Instance Value_eq_dec : EqDecision Value := enum_eq_dec all index.
#[global] Instance Value_countable : Countable Value := enum_countable all index.
Definition value_width (x : Value) : IntType :=
  match x with
  | MinActivityCutoff | MaxDelegateTake | MinDelegateTake | MaxChildkeyTake
  | MinChildkeyTake | TotalNetworks | SubnetOwnerCut => u16
  | ColdkeySwapScheduleDuration | ColdkeySwapRescheduleDuration
  | DissolveNetworkScheduleDuration => u32
  | SenateRequiredStakePercentage | NextStakeJobId | TaoWeight | BlockEmission
  | TotalIssuance | TotalStake | NetworkImmunityPeriod | NetworkLastRegistered
  | NetworkMinLockCost | NetworkLastLockCost | NetworkLockReductionInterval
  | NetworkRateLimit | NominatorMinRequiredStake | WeightsVersionKeyRateLimit | TxRateLimit
  | TxDelegateTakeRateLimit | TxChildkeyTakeRateLimit | StakeThreshold
  | PendingChildKeyCooldown => u64
  end.
Definition value_default {FS : FrameSystem} {Cfg : SubtensorConfig} (x : Value) : Z :=
  match x with
  | MinActivityCutoff => 360
  | ColdkeySwapScheduleDuration => InitialColdkeySwapScheduleDuration
  | ColdkeySwapRescheduleDuration => InitialColdkeySwapRescheduleDuration
  | DissolveNetworkScheduleDuration => InitialDissolveNetworkScheduleDuration
  | SenateRequiredStakePercentage => InitialSenateRequiredStakePercentage
  | NextStakeJobId | TotalStake | TotalNetworks | NetworkLastRegistered
  | NominatorMinRequiredStake | StakeThreshold | PendingChildKeyCooldown => 0
  | TaoWeight => InitialTaoWeight
  | MaxDelegateTake => InitialDefaultDelegateTake
  | MinDelegateTake => InitialMinDelegateTake
  | MaxChildkeyTake => InitialMaxChildKeyTake
  | MinChildkeyTake => InitialMinChildKeyTake
  | BlockEmission => 1000000000
  | TotalIssuance => InitialIssuance
  | NetworkImmunityPeriod => InitialNetworkImmunityPeriod
  | NetworkMinLockCost | NetworkLastLockCost => InitialNetworkMinLockCost
  | NetworkLockReductionInterval => InitialNetworkLockReductionInterval
  | SubnetOwnerCut => InitialSubnetOwnerCut
  | NetworkRateLimit => if feature_pow_faucet then 0 else InitialNetworkRateLimit
  | WeightsVersionKeyRateLimit => 5
  | TxRateLimit => InitialTxRateLimit
  | TxDelegateTakeRateLimit => InitialTxDelegateTakeRateLimit
  | TxChildkeyTakeRateLimit => InitialTxChildKeyTakeRateLimit
  end.
End Value.

(** [StorageMap]s from a subnet to a number. *)
Module NetNum.
Inductive NetNum : Type :=
  | SubnetVolume | SubnetTAO | SubnetTaoProvided | SubnetAlphaInEmission
  | SubnetAlphaOutEmission | SubnetTaoInEmission | SubnetAlphaIn | SubnetAlphaInProvided
  | SubnetAlphaOut | MaxRegistrationsPerBlock | SubnetLocked | LargestLocked | Tempo
  | SubnetMechanism | SubnetworkN | NetworkModality | NetworkRegisteredAt | PendingEmission
  | PendingRootDivs | PendingAlphaSwapped | PendingOwnerCut | BlocksSinceLastStep
  | LastMechansimStepBlock | ServingRateLimit | Rho | AlphaSigmoidSteepness | Kappa
  | RegistrationsThisInterval | POWRegistrationsThisInterval
  | BurnRegistrationsThisInterval | MaxAllowedUids | ImmunityPeriod | ActivityCutoff
  | MaxWeightsLimit | WeightsVersionKey | MinAllowedWeights | MaxAllowedValidators
  | AdjustmentInterval | BondsMovingAverage | BondsPenalty | WeightsSetRateLimit
  | ValidatorPruneLen | ScalingLawPower | TargetRegistrationsPerInterval | AdjustmentAlpha
  | Burn | Difficulty | MinBurn | MaxBurn | MinDifficulty | MaxDifficulty
  | LastAdjustmentBlock | RegistrationsThisBlock | EMAPriceHalvingBlocks
  | RAORecycledForRegistration | RevealPeriodEpochs.

Definition all : list NetNum :=
  [SubnetVolume; SubnetTAO; SubnetTaoProvided; SubnetAlphaInEmission;
   SubnetAlphaOutEmission; SubnetTaoInEmission; SubnetAlphaIn; SubnetAlphaInProvided;
   SubnetAlphaOut; MaxRegistrationsPerBlock; SubnetLocked; LargestLocked; Tempo;
   SubnetMechanism; SubnetworkN; NetworkModality; NetworkRegisteredAt; PendingEmission;
   PendingRootDivs; PendingAlphaSwapped; PendingOwnerCut; BlocksSinceLastStep;
   LastMechansimStepBlock; ServingRateLimit; Rho; AlphaSigmoidSteepness; Kappa;
   RegistrationsThisInterval; POWRegistrationsThisInterval; BurnRegistrationsThisInterval;
   MaxAllowedUids; ImmunityPeriod; ActivityCutoff; MaxWeightsLimit; WeightsVersionKey;
   MinAllowedWeights; MaxAllowedValidators; AdjustmentInterval; BondsMovingAverage;
   BondsPenalty; WeightsSetRateLimit; ValidatorPruneLen; ScalingLawPower;
   TargetRegistrationsPerInterval; AdjustmentAlpha; Burn; Difficulty; MinBurn; MaxBurn;
   MinDifficulty; MaxDifficulty; LastAdjustmentBlock; RegistrationsThisBlock;
   EMAPriceHalvingBlocks; RAORecycledForRegistration; RevealPeriodEpochs].
Definition index (x : NetNum) : nat :=
  match x with
  | SubnetVolume => 0 | SubnetTAO => 1 | SubnetTaoProvided => 2
  | SubnetAlphaInEmission => 3 | SubnetAlphaOutEmission => 4 | SubnetTaoInEmission => 5
  | SubnetAlphaIn => 6 | SubnetAlphaInProvided => 7 | SubnetAlphaOut => 8
  | MaxRegistrationsPerBlock => 9 | SubnetLocked => 10 | LargestLocked => 11 | Tempo => 12
  | SubnetMechanism => 13 | SubnetworkN => 14 | NetworkModality => 15
  | NetworkRegisteredAt => 16 | PendingEmission => 17 | PendingRootDivs => 18
  | PendingAlphaSwapped => 19 | PendingOwnerCut => 20 | BlocksSinceLastStep => 21
  | LastMechansimStepBlock => 22 | ServingRateLimit => 23 | Rho => 24
  | AlphaSigmoidSteepness => 25 | Kappa => 26 | RegistrationsThisInterval => 27
  | POWRegistrationsThisInterval => 28 | BurnRegistrationsThisInterval => 29
  | MaxAllowedUids => 30 | ImmunityPeriod => 31 | ActivityCutoff => 32
  | MaxWeightsLimit => 33 | WeightsVersionKey => 34 | MinAllowedWeights => 35
  | MaxAllowedValidators => 36 | AdjustmentInterval => 37 | BondsMovingAverage => 38
  | BondsPenalty => 39 | WeightsSetRateLimit => 40 | ValidatorPruneLen => 41
  | ScalingLawPower => 42 | TargetRegistrationsPerInterval => 43 | AdjustmentAlpha => 44
  | Burn => 45 | Difficulty => 46 | MinBurn => 47 | MaxBurn => 48 | MinDifficulty => 49
  | MaxDifficulty => 50 | LastAdjustmentBlock => 51 | RegistrationsThisBlock => 52
  | EMAPriceHalvingBlocks => 53 | RAORecycledForRegistration => 54
  | RevealPeriodEpochs => 55
  end.
#[global] Instance NetNum_enum : Enum NetNum all index.
Proof. by intros []. Qed.
#[global] Instance NetNum_eq_dec : EqDecision NetNum := enum_eq_dec all index.
#[global] Instance NetNum_countable : Countable NetNum := enum_countable all index.
Definition net_num_width (x : NetNum) : IntType :=
  match x with
  | SubnetVolume => u128
  | SubnetTAO | SubnetTaoProvided | SubnetAlphaInEmission | SubnetAlphaOutEmission
  | SubnetTaoInEmission | SubnetAlphaIn | SubnetAlphaInProvided | SubnetAlphaOut
  | SubnetLocked | LargestLocked | NetworkRegisteredAt | PendingEmission | PendingRootDivs
  | PendingAlphaSwapped | PendingOwnerCut | BlocksSinceLastStep | LastMechansimStepBlock
  | ServingRateLimit | WeightsVersionKey | BondsMovingAverage | WeightsSetRateLimit
  | ValidatorPruneLen | AdjustmentAlpha | Burn | Difficulty | MinBurn | MaxBurn
  | MinDifficulty | MaxDifficulty | LastAdjustmentBlock | EMAPriceHalvingBlocks
  | RAORecycledForRegistration | RevealPeriodEpochs => u64
  | MaxRegistrationsPerBlock | Tempo | SubnetMechanism | SubnetworkN | NetworkModality
  | Rho | Kappa | RegistrationsThisInterval | POWRegistrationsThisInterval
  | BurnRegistrationsThisInterval | MaxAllowedUids | ImmunityPeriod | ActivityCutoff
  | MaxWeightsLimit | MinAllowedWeights | MaxAllowedValidators | AdjustmentInterval
  | BondsPenalty | ScalingLawPower | TargetRegistrationsPerInterval
  | RegistrationsThisBlock => u16
  | AlphaSigmoidSteepness => i16
  end.
Definition net_num_default {FS : FrameSystem} {Cfg : SubtensorConfig} (x : NetNum) : Z :=
  match x with
  | SubnetVolume | SubnetTAO | SubnetTaoProvided | SubnetAlphaInEmission
  | SubnetAlphaOutEmission | SubnetTaoInEmission | SubnetAlphaIn | SubnetAlphaInProvided
  | SubnetAlphaOut | SubnetLocked | LargestLocked | SubnetMechanism | SubnetworkN
  | NetworkModality | NetworkRegisteredAt | PendingEmission | PendingRootDivs
  | PendingAlphaSwapped | PendingOwnerCut | BlocksSinceLastStep | LastMechansimStepBlock
  | RegistrationsThisInterval | POWRegistrationsThisInterval
  | BurnRegistrationsThisInterval | LastAdjustmentBlock | RegistrationsThisBlock => 0
  | MaxRegistrationsPerBlock => InitialMaxRegistrationsPerBlock
  | Tempo => InitialTempo
  | ServingRateLimit => InitialServingRateLimit
  | Rho => InitialRho
  | AlphaSigmoidSteepness => InitialAlphaSigmoidSteepness
  | Kappa => InitialKappa
  | MaxAllowedUids => InitialMaxAllowedUids
  | ImmunityPeriod => InitialImmunityPeriod
  | ActivityCutoff => InitialActivityCutoff
  | MaxWeightsLimit => InitialMaxWeightsLimit
  | WeightsVersionKey => InitialWeightsVersionKey
  | MinAllowedWeights => InitialMinAllowedWeights
  | MaxAllowedValidators => InitialMaxAllowedValidators
  | AdjustmentInterval => InitialAdjustmentInterval
  | BondsMovingAverage => InitialBondsMovingAverage
  | BondsPenalty => InitialBondsPenalty
  | WeightsSetRateLimit => 100
  | ValidatorPruneLen => InitialValidatorPruneLen
  | ScalingLawPower => InitialScalingLawPower
  | TargetRegistrationsPerInterval => InitialTargetRegistrationsPerInterval
  | AdjustmentAlpha => InitialAdjustmentAlpha
  | Burn => InitialBurn
  | Difficulty => InitialDifficulty
  | MinBurn => InitialMinBurn
  | MaxBurn => InitialMaxBurn
  | MinDifficulty => InitialMinDifficulty
  | MaxDifficulty => InitialMaxDifficulty
  | EMAPriceHalvingBlocks => InitialEmaPriceHalvingPeriod
  | RAORecycledForRegistration => InitialRAORecycledForRegistration
  | RevealPeriodEpochs => 1
  end.
End NetNum.

(** [StorageMap]s from a subnet to a flag. *)
Module NetFlag.
Inductive NetFlag : Type :=
  | TransferToggle | NetworkRegistrationAllowed | NetworkPowRegistrationAllowed
  | BondsResetOn | CommitRevealWeightsEnabled | LiquidAlphaOn | Yuma3On | SubtokenEnabled.

Definition all : list NetFlag :=
  [TransferToggle; NetworkRegistrationAllowed; NetworkPowRegistrationAllowed; BondsResetOn;
   CommitRevealWeightsEnabled; LiquidAlphaOn; Yuma3On; SubtokenEnabled].
Definition index (x : NetFlag) : nat :=
  match x with
  | TransferToggle => 0 | NetworkRegistrationAllowed => 1
  | NetworkPowRegistrationAllowed => 2 | BondsResetOn => 3
  | CommitRevealWeightsEnabled => 4 | LiquidAlphaOn => 5 | Yuma3On => 6
  | SubtokenEnabled => 7
  end.
#[global] Instance NetFlag_enum : Enum NetFlag all index.
Proof. by intros []. Qed.
#[global] Instance NetFlag_eq_dec : EqDecision NetFlag := enum_eq_dec all index.
#[global] Instance NetFlag_countable : Countable NetFlag := enum_countable all index.
Definition net_flag_default {FS : FrameSystem} {Cfg : SubtensorConfig} (x : NetFlag) : bool :=
  match x with
  | TransferToggle => true
  | NetworkRegistrationAllowed | NetworkPowRegistrationAllowed | CommitRevealWeightsEnabled
  | LiquidAlphaOn | Yuma3On | SubtokenEnabled => false
  | BondsResetOn => InitialBondsResetOn
  end.
End NetFlag.

(** [StorageMap]s from a subnet to a vector of numbers, one entry for each uid. *)
Module NetVec.
Inductive NetVec : Type :=
  | StakeWeight | Rank | Trust | Consensus | Incentive | Dividends | Emission | LastUpdate
  | ValidatorTrust | PruningScores.

Definition all : list NetVec :=
  [StakeWeight; Rank; Trust; Consensus; Incentive; Dividends; Emission; LastUpdate;
   ValidatorTrust; PruningScores].
Definition index (x : NetVec) : nat :=
  match x with
  | StakeWeight => 0 | Rank => 1 | Trust => 2 | Consensus => 3 | Incentive => 4
  | Dividends => 5 | Emission => 6 | LastUpdate => 7 | ValidatorTrust => 8
  | PruningScores => 9
  end.
#[global] Instance NetVec_enum : Enum NetVec all index.
Proof. by intros []. Qed.
#[global] Instance NetVec_eq_dec : EqDecision NetVec := enum_eq_dec all index.
#[global] Instance NetVec_countable : Countable NetVec := enum_countable all index.
Definition net_vec_width (x : NetVec) : IntType :=
  match x with
  | StakeWeight | Rank | Trust | Consensus | Incentive | Dividends | ValidatorTrust
  | PruningScores => u16
  | Emission | LastUpdate => u64
  end.
End NetVec.

(** [StorageMap]s from a subnet to a vector of flags, one entry for each uid. *)
Module NetBoolVec.
Inductive NetBoolVec : Type :=
  | Active | ValidatorPermit.

Definition all : list NetBoolVec :=
  [Active; ValidatorPermit].
Definition index (x : NetBoolVec) : nat :=
  match x with
  | Active => 0 | ValidatorPermit => 1
  end.
#[global] Instance NetBoolVec_enum : Enum NetBoolVec all index.
Proof. by intros []. Qed.
#[global] Instance NetBoolVec_eq_dec : EqDecision NetBoolVec := enum_eq_dec all index.
#[global] Instance NetBoolVec_countable : Countable NetBoolVec := enum_countable all index.
End NetBoolVec.

(** [StorageMap]s from an account to a number. *)
Module KeyNum.
Inductive KeyNum : Type :=
  | Delegates | LastTxBlock | LastTxBlockChildKeyTake | LastTxBlockDelegateTake.
Definition all : list KeyNum :=
  [Delegates; LastTxBlock; LastTxBlockChildKeyTake; LastTxBlockDelegateTake].
Definition index (x : KeyNum) : nat :=
  match x with
  | Delegates => 0 | LastTxBlock => 1 | LastTxBlockChildKeyTake => 2
  | LastTxBlockDelegateTake => 3
  end.
#[global] Instance KeyNum_enum : Enum KeyNum all index.
Proof. by intros []. Qed.
#[global] Instance KeyNum_eq_dec : EqDecision KeyNum := enum_eq_dec all index.
#[global] Instance KeyNum_countable : Countable KeyNum := enum_countable all index.
Definition key_num_width (x : KeyNum) : IntType :=
  match x with Delegates => u16 | _ => u64 end.
Definition key_num_default {FS : FrameSystem} {Cfg : SubtensorConfig} (x : KeyNum) : Z :=
  match x with Delegates => InitialDefaultDelegateTake | _ => 0 end.
End KeyNum.

(** [StorageMap]s from an account to a list of accounts. *)
Module KeyList.
Inductive KeyList : Type := StakingHotkeys | OwnedHotkeys.
Definition all : list KeyList := [StakingHotkeys; OwnedHotkeys].
Definition index (x : KeyList) : nat := match x with StakingHotkeys => 0 | OwnedHotkeys => 1 end.
#[global] Instance KeyList_enum : Enum KeyList all index.
Proof. by intros []. Qed.
#[global] Instance KeyList_eq_dec : EqDecision KeyList := enum_eq_dec all index.
#[global] Instance KeyList_countable : Countable KeyList := enum_countable all index.
End KeyList.

(** [StorageDoubleMap]s from a subnet and an account (in either order) to a
    number. All of them default to zero. [TotalHotkeyShares] is a [U64F64],
    kept as the bits that encode it. *)
Module NetKeyNum.
Inductive NetKeyNum : Type :=
  | ChildkeyTake | AlphaDividendsPerSubnet | TaoDividendsPerSubnet
  | LastHotkeyEmissionOnNetuid | TotalHotkeyAlpha | TotalHotkeyAlphaLastEpoch
  | LastHotkeySwapOnNetuid | TotalHotkeyShares.
Definition all : list NetKeyNum :=
  [ChildkeyTake; AlphaDividendsPerSubnet; TaoDividendsPerSubnet; LastHotkeyEmissionOnNetuid;
   TotalHotkeyAlpha; TotalHotkeyAlphaLastEpoch; LastHotkeySwapOnNetuid;
   TotalHotkeyShares].
Definition index (x : NetKeyNum) : nat :=
  match x with
  | ChildkeyTake => 0 | AlphaDividendsPerSubnet => 1 | TaoDividendsPerSubnet => 2
  | LastHotkeyEmissionOnNetuid => 3 | TotalHotkeyAlpha => 4
  | TotalHotkeyAlphaLastEpoch => 5 | LastHotkeySwapOnNetuid => 6
  | TotalHotkeyShares => 7
  end.
#[global] Instance NetKeyNum_enum : Enum NetKeyNum all index.
Proof. by intros []. Qed.
#[global] Instance NetKeyNum_eq_dec : EqDecision NetKeyNum := enum_eq_dec all index.
#[global] Instance NetKeyNum_countable : Countable NetKeyNum := enum_countable all index.
Definition net_key_num_width (x : NetKeyNum) : IntType :=
  match x with ChildkeyTake => u16 | TotalHotkeyShares => u128 | _ => u64 end.
End NetKeyNum.
(** ** Structures *)

Record AxonInfo : Type := mkAxonInfo {
  axon_block : Z;
  axon_version : Z;
  axon_ip : Z;
  axon_port : Z;
  axon_ip_type : Z;
  axon_protocol : Z;
  axon_placeholder1 : Z;
  axon_placeholder2 : Z;
}.

Record PrometheusInfo : Type := mkPrometheusInfo {
  prom_block : Z;
  prom_version : Z;
  prom_ip : Z;
  prom_port : Z;
  prom_ip_type : Z;
}.

Record NeuronCertificate : Type := mkNeuronCertificate {
  public_key : Bytes;
  algorithm : Z;
}.

Record ChainIdentityV2 : Type := mkChainIdentity {
  ci_name : Bytes;
  ci_url : Bytes;
  ci_github_repo : Bytes;
  ci_image : Bytes;
  ci_discord : Bytes;
  ci_description : Bytes;
  ci_additional : Bytes;
}.

Record SubnetIdentityV3 : Type := mkSubnetIdentity {
  si_subnet_name : Bytes;
  si_github_repo : Bytes;
  si_subnet_contact : Bytes;
  si_subnet_url : Bytes;
  si_discord : Bytes;
  si_description : Bytes;
  si_logo_url : Bytes;
  si_additional : Bytes;
}.

Inductive RateLimitKey : Type := SetSNOwnerHotkey (netuid : Z).

#[export] Instance RateLimitKey_eq_dec : EqDecision RateLimitKey.
Proof. solve_decision. Defined.
#[export] Instance RateLimitKey_countable : Countable RateLimitKey :=
  inj_countable' (fun '(SetSNOwnerHotkey n) => n) SetSNOwnerHotkey (fun '(SetSNOwnerHotkey n) => eq_refl).

(** [NeuronCertificate::try_from] *)
Definition certificate_try_from (value : Bytes) : option NeuronCertificate :=
  if 65 <? Z.of_nat (length value) then None
  else match value with
       | [] => None
       | algorithm_ :: certificate =>
           if Z.of_nat (length certificate) <=? 64
           then Some (mkNeuronCertificate certificate algorithm_) else None
       end.

(** ** The storage

    [Alpha] is keyed by (hotkey, coldkey, netuid) in the source; here the
    shares of one pool, those of a hotkey on a subnet, are a map of their own.
    [SubnetMovingPrice] and [SubnetMovingAlpha] hold the bits of fixed-point
    numbers. *)

Record Storage {FS : FrameSystem} {W : Type} := mkStorage {
  values : gmap Value.Value Z;
  net_nums : gmap (NetNum.NetNum * Z) Z;
  net_flags : gmap (NetFlag.NetFlag * Z) bool;
  net_vecs : gmap (NetVec.NetVec * Z) (list Z);
  net_bool_vecs : gmap (NetBoolVec.NetBoolVec * Z) (list bool);
  key_nums : gmap (KeyNum.KeyNum * AccountId) Z;
  key_lists : gmap (KeyList.KeyList * AccountId) (list AccountId);
  net_key_nums : gmap (NetKeyNum.NetKeyNum * Z * AccountId) Z;
  NetworksAdded : gmap Z bool;
  SubnetOwner : gmap Z AccountId;
  SubnetOwnerHotkey : gmap Z AccountId;
  AlphaValues : gmap Z (Z * Z);
  Owner : gmap AccountId AccountId;
  Uids : gmap (Z * AccountId) Z;
  Keys : gmap (Z * Z) AccountId;
  IsNetworkMember : gmap AccountId (gmap Z bool);
  BlockAtRegistration : gmap (Z * Z) Z;
  Weights : gmap (Z * Z) (list (Z * Z));
  Bonds : gmap (Z * Z) (list (Z * Z));
  Axons : gmap (Z * AccountId) AxonInfo;
  NeuronCertificates : gmap (Z * AccountId) NeuronCertificate;
  Prometheus : gmap (Z * AccountId) PrometheusInfo;
  WeightCommits : gmap (Z * AccountId) (list (H256 * Z * Z * Z));
  CRV3WeightCommits : gmap Z (gmap Z (list (AccountId * Bytes * Z)));
  PendingChildKeys : gmap Z (gmap AccountId (list (Z * AccountId) * Z));
  ChildKeys : gmap (AccountId * Z) (list (Z * AccountId));
  ParentKeys : gmap (AccountId * Z) (list (Z * AccountId));
  Alpha : gmap (AccountId * Z) (gmap AccountId Z);
  LastColdkeyHotkeyStakeBlock : gmap (AccountId * AccountId) Z;
  FirstEmissionBlockNumber : gmap Z Z;
  SubnetMovingPrice : gmap Z Z;
  SubnetMovingAlpha : option Z;
  UsedWork : gmap Bytes Z;
  TransactionKeyLastBlock : gmap (AccountId * Z * Z) Z;
  LastRateLimitedBlock : gmap RateLimitKey Z;
  IdentitiesV2 : gmap AccountId ChainIdentityV2;
  SubnetIdentitiesV3 : gmap Z SubnetIdentityV3;
  TokenSymbol : gmap Z Bytes;
  AssociatedEvmAddress : gmap (Z * Z) (H160 * Z);
  ColdkeySwapScheduled : gmap AccountId (Z * AccountId);
  LoadedEmission : gmap Z (list (AccountId * Z * Z));
  world : W;
  events : list Event.Event;
}.
Arguments Storage {FS} W.

#[export] Instance Storage_eta {FS : FrameSystem} W : Eta (Storage W) :=
  fun x => mkStorage FS W (values x) (net_nums x) (net_flags x) (net_vecs x) (net_bool_vecs x)
    (key_nums x) (key_lists x) (net_key_nums x) (NetworksAdded x) (SubnetOwner x)
    (SubnetOwnerHotkey x) (AlphaValues x) (Owner x) (Uids x) (Keys x) (IsNetworkMember x)
    (BlockAtRegistration x) (Weights x) (Bonds x) (Axons x) (NeuronCertificates x)
    (Prometheus x) (WeightCommits x) (CRV3WeightCommits x) (PendingChildKeys x)
    (ChildKeys x) (ParentKeys x) (Alpha x) (LastColdkeyHotkeyStakeBlock x)
    (FirstEmissionBlockNumber x) (SubnetMovingPrice x) (SubnetMovingAlpha x) (UsedWork x)
    (TransactionKeyLastBlock x) (LastRateLimitedBlock x) (IdentitiesV2 x) (SubnetIdentitiesV3 x)
    (TokenSymbol x) (AssociatedEvmAddress x) (ColdkeySwapScheduled x) (LoadedEmission x)
    (world x) (events x).

(** *** Reading and writing items

    [get] of a [ValueQuery] item falls back on the item's default; writing
    inserts. A computation of the pallet either is a function of the storage
    ([St -> A], [St -> St]) or, when it can fail, one in the monad [Pm]. *)
Section Access.
Context {FS : FrameSystem} {Cfg : SubtensorConfig} {W : Type}.
Abbreviation St := (Storage W).

Definition get_value (i : Value.Value) (s : St) : Z :=
  default (Value.value_default i) (values s !! i).
Definition put_value (i : Value.Value) (v : Z) (s : St) : St :=
  s <| values ::= <[i := v]> |>.

Definition get_net (i : NetNum.NetNum) (netuid : Z) (s : St) : Z :=
  default (NetNum.net_num_default i) (net_nums s !! (i, netuid)).
Definition put_net (i : NetNum.NetNum) (netuid v : Z) (s : St) : St :=
  s <| net_nums ::= <[(i, netuid) := v]> |>.

Definition get_flag (i : NetFlag.NetFlag) (netuid : Z) (s : St) : bool :=
  default (NetFlag.net_flag_default i) (net_flags s !! (i, netuid)).
Definition put_flag (i : NetFlag.NetFlag) (netuid : Z) (v : bool) (s : St) : St :=
  s <| net_flags ::= <[(i, netuid) := v]> |>.

Definition get_vec (i : NetVec.NetVec) (netuid : Z) (s : St) : list Z :=
  default [] (net_vecs s !! (i, netuid)).
Definition put_vec (i : NetVec.NetVec) (netuid : Z) (v : list Z) (s : St) : St :=
  s <| net_vecs ::= <[(i, netuid) := v]> |>.

Definition get_bvec (i : NetBoolVec.NetBoolVec) (netuid : Z) (s : St) : list bool :=
  default [] (net_bool_vecs s !! (i, netuid)).
Definition put_bvec (i : NetBoolVec.NetBoolVec) (netuid : Z) (v : list bool) (s : St) : St :=
  s <| net_bool_vecs ::= <[(i, netuid) := v]> |>.

(** [Item::<T>::mutate(netuid, f)] *)
Definition mutate_vec (i : NetVec.NetVec) (netuid : Z) (f : list Z -> list Z) (s : St) : St :=
  s <| net_vecs ::= fun m => <[(i, netuid) := f (default [] (m !! (i, netuid)))]> m |>.
Definition mutate_bvec (i : NetBoolVec.NetBoolVec) (netuid : Z) (f : list bool -> list bool)
    (s : St) : St :=
  s <| net_bool_vecs ::= fun m => <[(i, netuid) := f (default [] (m !! (i, netuid)))]> m |>.
Definition mutate_net (i : NetNum.NetNum) (netuid : Z) (f : Z -> Z) (s : St) : St :=
  s <| net_nums ::= fun m =>
    <[(i, netuid) := f (default (NetNum.net_num_default i) (m !! (i, netuid)))]> m |>.
Definition mutate_value (i : Value.Value) (f : Z -> Z) (s : St) : St :=
  s <| values ::= fun m => <[i := f (default (Value.value_default i) (m !! i))]> m |>.

Definition get_key (i : KeyNum.KeyNum) (a : AccountId) (s : St) : Z :=
  default (KeyNum.key_num_default i) (key_nums s !! (i, a)).
Definition put_key (i : KeyNum.KeyNum) (a : AccountId) (v : Z) (s : St) : St :=
  s <| key_nums ::= <[(i, a) := v]> |>.

Definition get_list (i : KeyList.KeyList) (a : AccountId) (s : St) : list AccountId :=
  default [] (key_lists s !! (i, a)).
Definition put_list (i : KeyList.KeyList) (a : AccountId) (v : list AccountId) (s : St) : St :=
  s <| key_lists ::= <[(i, a) := v]> |>.

Definition get_net_key (i : NetKeyNum.NetKeyNum) (netuid : Z) (a : AccountId) (s : St) : Z :=
  default 0 (net_key_nums s !! (i, netuid, a)).
Definition put_net_key (i : NetKeyNum.NetKeyNum) (netuid : Z) (a : AccountId) (v : Z) (s : St) : St :=
  s <| net_key_nums ::= <[(i, netuid, a) := v]> |>.
Definition remove_net_key (i : NetKeyNum.NetKeyNum) (netuid : Z) (a : AccountId) (s : St) : St :=
  s <| net_key_nums ::= delete (i, netuid, a) |>.

Definition deposit_event (e : Event.Event) (s : St) : St :=
  s <| events ::= fun l => l ++ [e] |>.

Lemma get_put_value i j v s :
  get_value i (put_value j v s) = if decide (j = i) then v else get_value i s.
Proof.
  unfold get_value, put_value. cbn. destruct (decide (j = i)) as [->|].
  - by rewrite lookup_insert_eq.
  - by rewrite lookup_insert_ne.
Qed.

Lemma get_put_net i j n m v s :
  get_net i n (put_net j m v s) = if decide (j = i /\ m = n) then v else get_net i n s.
Proof.
  unfold get_net, put_net. cbn. destruct (decide (j = i /\ m = n)) as [[-> ->]|].
  - by rewrite lookup_insert_eq.
  - by rewrite lookup_insert_ne by naive_solver.
Qed.

Lemma get_put_flag i j n m v s :
  get_flag i n (put_flag j m v s) = if decide (j = i /\ m = n) then v else get_flag i n s.
Proof.
  unfold get_flag, put_flag. cbn. destruct (decide (j = i /\ m = n)) as [[-> ->]|].
  - by rewrite lookup_insert_eq.
  - by rewrite lookup_insert_ne by naive_solver.
Qed.

Lemma get_put_vec i j n m v s :
  get_vec i n (put_vec j m v s) = if decide (j = i /\ m = n) then v else get_vec i n s.
Proof.
  unfold get_vec, put_vec. cbn. destruct (decide (j = i /\ m = n)) as [[-> ->]|].
  - by rewrite lookup_insert_eq.
  - by rewrite lookup_insert_ne by naive_solver.
Qed.

Lemma get_put_bvec i j n m v s :
  get_bvec i n (put_bvec j m v s) = if decide (j = i /\ m = n) then v else get_bvec i n s.
Proof.
  unfold get_bvec, put_bvec. cbn. destruct (decide (j = i /\ m = n)) as [[-> ->]|].
  - by rewrite lookup_insert_eq.
  - by rewrite lookup_insert_ne by naive_solver.
Qed.

Lemma get_put_key i j a b v s :
  get_key i a (put_key j b v s) = if decide (j = i /\ b = a) then v else get_key i a s.
Proof.
  unfold get_key, put_key. cbn. destruct (decide (j = i /\ b = a)) as [[-> ->]|].
  - by rewrite lookup_insert_eq.
  - by rewrite lookup_insert_ne by naive_solver.
Qed.

Lemma get_put_net_key i j n m a b v s :
  get_net_key i n a (put_net_key j m b v s) =
  if decide ((j, m, b) = (i, n, a)) then v else get_net_key i n a s.
Proof.
  unfold get_net_key. case_decide as E.
  - cbn. rewrite E. by rewrite lookup_insert_eq.
  - cbn. by rewrite lookup_insert_ne by done.
Qed.
Lemma get_remove_net_key i j n m a b s :
  get_net_key i n a (remove_net_key j m b s) =
  if decide ((j, m, b) = (i, n, a)) then 0 else get_net_key i n a s.
Proof.
  unfold get_net_key. case_decide as E.
  - cbn. rewrite E. by rewrite lookup_delete_eq.
  - cbn. by rewrite lookup_delete_ne by done.
Qed.

Lemma mutate_net_put i n f s : mutate_net i n f s = put_net i n (f (get_net i n s)) s.
Proof. done. Qed.
Lemma get_mutate_net i j n m f s :
  get_net i n (mutate_net j m f s) = if decide (j = i /\ m = n) then f (get_net i n s) else get_net i n s.
Proof. rewrite mutate_net_put, get_put_net. case_decide; naive_solver. Qed.
Lemma mutate_value_put i f s : mutate_value i f s = put_value i (f (get_value i s)) s.
Proof. done. Qed.
Lemma get_mutate_value i j f s :
  get_value i (mutate_value j f s) = if decide (j = i) then f (get_value i s) else get_value i s.
Proof. rewrite mutate_value_put, get_put_value. case_decide; naive_solver. Qed.
Lemma mutate_vec_put i n f s : mutate_vec i n f s = put_vec i n (f (get_vec i n s)) s.
Proof. done. Qed.
Lemma mutate_bvec_put i n f s : mutate_bvec i n f s = put_bvec i n (f (get_bvec i n s)) s.
Proof. done. Qed.
End Access.

Abbreviation Pm W A := (M (Storage W) (error Error.Error) A).

(** [Err(Error::<T>::e)?] *)
Abbreviation throw e := (fail (Module e)).
Abbreviation check b e := (ensure b (Module e)).

Hint Rewrite @get_mutate_net @get_mutate_value @get_put_value @get_put_net @get_put_flag @get_put_vec @get_put_bvec @get_put_key
  : storage.

(** [st_frame] reads through writes of other items: for a read [g] and a write
    [w] with [g (w s) = g s], it replaces [g (w s)] by [g s]. Such an equation
    holds by computation; [st_frame_hook] closes it for a write that is
    conditional. A field read after [<| f ::= g |>] is [g] of the field. *)
Ltac st_frame_hook g := fail.
Ltac st_frame_step :=
  match goal with
  | |- context [?g (?w ?s0)] =>
      lazymatch type of (w s0) with Storage _ => idtac end;
      lazymatch type of s0 with Storage _ => idtac end;
      lazymatch type of (g (w s0)) with Storage _ => fail | _ => idtac end;
      let H := fresh in
      assert (H : forall x, g (w x) = g x)
        by (intros ?; first [reflexivity | st_frame_hook g]);
      rewrite (H s0); clear H
  | |- context [?p (over ?p ?f ?s0)] =>
      change (p (over p f s0)) with (f (p s0)); cbv beta
  end.
Ltac st_frame := cbv zeta; repeat st_frame_step.

(** Decides equalities between storage items and keys that are plainly equal
    or plainly different. *)
Ltac st_decide :=
  repeat first
    [ rewrite decide_True by (done || (split; done))
    | rewrite decide_False by (first [discriminate | intros [? ?]; discriminate | intros [? ?]; by auto]) ].
Ltac st_read := repeat (st_frame; autorewrite with storage; st_decide).
