(* ===== verification/Misc.v ===== *)
(** * Parameters of the subtensor pallet (src/pallets/subtensor/src/utils/misc.rs)

    The getters and setters through which the rest of the pallet reads and
    writes its storage items, the ownership checks on origins, and the account
    book-keeping of src/pallets/subtensor/src/staking/helpers.rs. *)

From S2P Require Import Prelude Frame Storage.
From stdpp Require Import prelude gmap list fin_maps.
From Stdlib Require Import ZArith Lia.
#[local] Open Scope Z_scope.
#[local] Open Scope monad_scope.

(** What the pallet calls outside this repository: the block number and block
    hashes of [frame_system], the hash functions of [sp_io::hashing], the
    encoding of accounts, and the currency of [T::Currency]. [withdraw] is
    called with [Precision::BestEffort], [Preservation::Preserve] and
    [Fortitude::Polite]; it returns the credit that was taken. *)
Class SubtensorEnv {FS : FrameSystem} (W : Type) := {
  system_block_number : W -> Z;
  system_block_hash : W -> Z -> H256;
  keccak_256 : Bytes -> Bytes;
  sha2_256 : Bytes -> Bytes;
  encode_account : AccountId -> Bytes;
  reducible_balance : W -> AccountId -> Z;
  can_withdraw : W -> AccountId -> Z -> bool;
  withdraw : W -> AccountId -> Z -> result DispatchError (Z * W);
  deposit : W -> AccountId -> Z -> W;
}.

Section Misc.
Context {FS : FrameSystem} {Cfg : SubtensorConfig} {SI : StorageIter} {W : Type}.
Context {Env : SubtensorEnv W}.
Abbreviation St := (Storage W).
Implicit Types s : St.

(** ** Origins *)

(** The owner of a subnet that has none is the default account. *)
Definition get_subnet_owner (netuid : Z) (s : St) : AccountId :=
  default default_account (SubnetOwner s !! netuid).

Definition ensure_subnet_owner_or_root (o : Origin) (netuid : Z) (s : St)
    : result DispatchError unit :=
  match ensure_signed_or_root o with
  | Ok (Some who) =>
      if decide (get_subnet_owner netuid s = who) then Ok tt else Err BadOrigin
  | Ok None => Ok tt
  | Err x => Err x
  end.

Definition ensure_subnet_owner (o : Origin) (netuid : Z) (s : St) : result DispatchError unit :=
  match ensure_signed o with
  | Ok who => if decide (get_subnet_owner netuid s = who) then Ok tt else Err BadOrigin
  | Err x => Err x
  end.

(** ** Getters and setters *)

Definition get_current_block_as_u64 (s : St) : Z := system_block_number (world s).

Definition set_tempo (netuid tempo : Z) (s : St) : St :=
  deposit_event (Event.TempoSet netuid tempo) (put_net NetNum.Tempo netuid tempo s).
Definition set_last_adjustment_block (netuid last_adjustment_block : Z) (s : St) : St :=
  put_net NetNum.LastAdjustmentBlock netuid last_adjustment_block s.
Definition set_blocks_since_last_step (netuid blocks_since_last_step : Z) (s : St) : St :=
  put_net NetNum.BlocksSinceLastStep netuid blocks_since_last_step s.
Definition set_registrations_this_block (netuid registrations_this_block : Z) (s : St) : St :=
  put_net NetNum.RegistrationsThisBlock netuid registrations_this_block s.
Definition set_last_mechanism_step_block (netuid last_mechanism_step_block : Z) (s : St) : St :=
  put_net NetNum.LastMechansimStepBlock netuid last_mechanism_step_block s.
Definition set_registrations_this_interval (netuid registrations_this_interval : Z)
    (s : St) : St :=
  put_net NetNum.RegistrationsThisInterval netuid registrations_this_interval s.
Definition set_pow_registrations_this_interval (netuid pow_registrations_this_interval : Z)
    (s : St) : St :=
  put_net NetNum.POWRegistrationsThisInterval netuid pow_registrations_this_interval s.
Definition set_burn_registrations_this_interval (netuid burn_registrations_this_interval : Z)
    (s : St) : St :=
  put_net NetNum.BurnRegistrationsThisInterval netuid burn_registrations_this_interval s.
Definition get_total_issuance (s : St) : Z := get_value Value.TotalIssuance s.
Definition get_rank (netuid : Z) (s : St) : list Z := get_vec NetVec.Rank netuid s.
Definition get_trust (netuid : Z) (s : St) : list Z := get_vec NetVec.Trust netuid s.
Definition get_active (netuid : Z) (s : St) : list bool := get_bvec NetBoolVec.Active netuid s.
Definition get_emission (netuid : Z) (s : St) : list Z := get_vec NetVec.Emission netuid s.
Definition get_consensus (netuid : Z) (s : St) : list Z := get_vec NetVec.Consensus netuid s.
Definition get_incentive (netuid : Z) (s : St) : list Z := get_vec NetVec.Incentive netuid s.
Definition get_dividends (netuid : Z) (s : St) : list Z := get_vec NetVec.Dividends netuid s.
Definition get_last_update (netuid : Z) (s : St) : list Z := get_vec NetVec.LastUpdate netuid s.
Definition get_pruning_score (netuid : Z) (s : St) : list Z :=
  get_vec NetVec.PruningScores netuid s.
Definition get_validator_trust (netuid : Z) (s : St) : list Z :=
  get_vec NetVec.ValidatorTrust netuid s.
Definition get_validator_permit (netuid : Z) (s : St) : list bool :=
  get_bvec NetBoolVec.ValidatorPermit netuid s.
Definition set_stake_threshold (min_stake : Z) (s : St) : St :=
  deposit_event (Event.StakeThresholdSet min_stake) (put_value Value.StakeThreshold min_stake s).
Definition get_rank_for_uid (netuid uid : Z) (s : St) : Z :=
  default 0 (get_vec NetVec.Rank netuid s !! Z.to_nat uid).
Definition get_trust_for_uid (netuid uid : Z) (s : St) : Z :=
  default 0 (get_vec NetVec.Trust netuid s !! Z.to_nat uid).
Definition get_emission_for_uid (netuid uid : Z) (s : St) : Z :=
  default 0 (get_vec NetVec.Emission netuid s !! Z.to_nat uid).
Definition get_active_for_uid (netuid uid : Z) (s : St) : bool :=
  default false (get_bvec NetBoolVec.Active netuid s !! Z.to_nat uid).
Definition get_consensus_for_uid (netuid uid : Z) (s : St) : Z :=
  default 0 (get_vec NetVec.Consensus netuid s !! Z.to_nat uid).
Definition get_incentive_for_uid (netuid uid : Z) (s : St) : Z :=
  default 0 (get_vec NetVec.Incentive netuid s !! Z.to_nat uid).
Definition get_dividends_for_uid (netuid uid : Z) (s : St) : Z :=
  default 0 (get_vec NetVec.Dividends netuid s !! Z.to_nat uid).
Definition get_last_update_for_uid (netuid uid : Z) (s : St) : Z :=
  default 0 (get_vec NetVec.LastUpdate netuid s !! Z.to_nat uid).
Definition get_pruning_score_for_uid (netuid uid : Z) (s : St) : Z :=
  default U16_MAX (get_vec NetVec.PruningScores netuid s !! Z.to_nat uid).
Definition get_validator_trust_for_uid (netuid uid : Z) (s : St) : Z :=
  default 0 (get_vec NetVec.ValidatorTrust netuid s !! Z.to_nat uid).
Definition get_validator_permit_for_uid (netuid uid : Z) (s : St) : bool :=
  default false (get_bvec NetBoolVec.ValidatorPermit netuid s !! Z.to_nat uid).
Definition get_stake_threshold (s : St) : Z := get_value Value.StakeThreshold s.
Definition get_tempo (netuid : Z) (s : St) : Z := get_net NetNum.Tempo netuid s.
Definition get_pending_emission (netuid : Z) (s : St) : Z :=
  get_net NetNum.PendingEmission netuid s.
Definition get_last_adjustment_block (netuid : Z) (s : St) : Z :=
  get_net NetNum.LastAdjustmentBlock netuid s.
Definition get_blocks_since_last_step (netuid : Z) (s : St) : Z :=
  get_net NetNum.BlocksSinceLastStep netuid s.
Definition get_registrations_this_block (netuid : Z) (s : St) : Z :=
  get_net NetNum.RegistrationsThisBlock netuid s.
Definition get_last_mechanism_step_block (netuid : Z) (s : St) : Z :=
  get_net NetNum.LastMechansimStepBlock netuid s.
Definition get_registrations_this_interval (netuid : Z) (s : St) : Z :=
  get_net NetNum.RegistrationsThisInterval netuid s.
Definition get_pow_registrations_this_interval (netuid : Z) (s : St) : Z :=
  get_net NetNum.POWRegistrationsThisInterval netuid s.
Definition get_burn_registrations_this_interval (netuid : Z) (s : St) : Z :=
  get_net NetNum.BurnRegistrationsThisInterval netuid s.
Definition set_subnet_locked_balance (netuid amount : Z) (s : St) : St :=
  put_net NetNum.SubnetLocked netuid amount s.
Definition get_subnet_locked_balance (netuid : Z) (s : St) : Z :=
  get_net NetNum.SubnetLocked netuid s.
Definition get_tx_rate_limit (s : St) : Z := get_value Value.TxRateLimit s.
Definition set_tx_rate_limit (tx_rate_limit : Z) (s : St) : St :=
  deposit_event (Event.TxRateLimitSet tx_rate_limit) (put_value Value.TxRateLimit tx_rate_limit s).
Definition get_tx_delegate_take_rate_limit (s : St) : Z :=
  get_value Value.TxDelegateTakeRateLimit s.
Definition set_tx_delegate_take_rate_limit (tx_rate_limit : Z) (s : St) : St :=
  deposit_event (Event.TxDelegateTakeRateLimitSet tx_rate_limit) (put_value Value.TxDelegateTakeRateLimit tx_rate_limit s).
Definition set_min_delegate_take (take : Z) (s : St) : St :=
  deposit_event (Event.MinDelegateTakeSet take) (put_value Value.MinDelegateTake take s).
Definition set_max_delegate_take (take : Z) (s : St) : St :=
  deposit_event (Event.MaxDelegateTakeSet take) (put_value Value.MaxDelegateTake take s).
Definition get_min_delegate_take (s : St) : Z := get_value Value.MinDelegateTake s.
Definition get_max_delegate_take (s : St) : Z := get_value Value.MaxDelegateTake s.
Definition get_default_delegate_take (s : St) : Z := get_value Value.MaxDelegateTake s.
Definition get_default_childkey_take (s : St) : Z := get_value Value.MinChildkeyTake s.
Definition get_tx_childkey_take_rate_limit (s : St) : Z :=
  get_value Value.TxChildkeyTakeRateLimit s.
Definition set_tx_childkey_take_rate_limit (tx_rate_limit : Z) (s : St) : St :=
  deposit_event (Event.TxChildKeyTakeRateLimitSet tx_rate_limit) (put_value Value.TxChildkeyTakeRateLimit tx_rate_limit s).
Definition set_min_childkey_take (take : Z) (s : St) : St :=
  deposit_event (Event.MinChildKeyTakeSet take) (put_value Value.MinChildkeyTake take s).
Definition set_max_childkey_take (take : Z) (s : St) : St :=
  deposit_event (Event.MaxChildKeyTakeSet take) (put_value Value.MaxChildkeyTake take s).
Definition get_min_childkey_take (s : St) : Z := get_value Value.MinChildkeyTake s.
Definition get_max_childkey_take (s : St) : Z := get_value Value.MaxChildkeyTake s.
Definition get_serving_rate_limit (netuid : Z) (s : St) : Z :=
  get_net NetNum.ServingRateLimit netuid s.
Definition set_serving_rate_limit (netuid serving_rate_limit : Z) (s : St) : St :=
  deposit_event (Event.ServingRateLimitSet netuid serving_rate_limit) (put_net NetNum.ServingRateLimit netuid serving_rate_limit s).
Definition get_min_difficulty (netuid : Z) (s : St) : Z :=
  get_net NetNum.MinDifficulty netuid s.
Definition set_min_difficulty (netuid min_difficulty : Z) (s : St) : St :=
  deposit_event (Event.MinDifficultySet netuid min_difficulty) (put_net NetNum.MinDifficulty netuid min_difficulty s).
Definition get_max_difficulty (netuid : Z) (s : St) : Z :=
  get_net NetNum.MaxDifficulty netuid s.
Definition set_max_difficulty (netuid max_difficulty : Z) (s : St) : St :=
  deposit_event (Event.MaxDifficultySet netuid max_difficulty) (put_net NetNum.MaxDifficulty netuid max_difficulty s).
Definition get_weights_version_key (netuid : Z) (s : St) : Z :=
  get_net NetNum.WeightsVersionKey netuid s.
Definition set_weights_version_key (netuid weights_version_key : Z) (s : St) : St :=
  deposit_event (Event.WeightsVersionKeySet netuid weights_version_key) (put_net NetNum.WeightsVersionKey netuid weights_version_key s).
Definition get_weights_set_rate_limit (netuid : Z) (s : St) : Z :=
  get_net NetNum.WeightsSetRateLimit netuid s.
Definition set_weights_set_rate_limit (netuid weights_set_rate_limit : Z) (s : St) : St :=
  deposit_event (Event.WeightsSetRateLimitSet netuid weights_set_rate_limit) (put_net NetNum.WeightsSetRateLimit netuid weights_set_rate_limit s).
Definition get_adjustment_interval (netuid : Z) (s : St) : Z :=
  get_net NetNum.AdjustmentInterval netuid s.
Definition set_adjustment_interval (netuid adjustment_interval : Z) (s : St) : St :=
  deposit_event (Event.AdjustmentIntervalSet netuid adjustment_interval) (put_net NetNum.AdjustmentInterval netuid adjustment_interval s).
Definition get_adjustment_alpha (netuid : Z) (s : St) : Z :=
  get_net NetNum.AdjustmentAlpha netuid s.
Definition set_adjustment_alpha (netuid adjustment_alpha : Z) (s : St) : St :=
  deposit_event (Event.AdjustmentAlphaSet netuid adjustment_alpha) (put_net NetNum.AdjustmentAlpha netuid adjustment_alpha s).
Definition set_validator_prune_len (netuid validator_prune_len : Z) (s : St) : St :=
  deposit_event (Event.ValidatorPruneLenSet netuid validator_prune_len) (put_net NetNum.ValidatorPruneLen netuid validator_prune_len s).
Definition get_scaling_law_power (netuid : Z) (s : St) : Z :=
  get_net NetNum.ScalingLawPower netuid s.
Definition set_scaling_law_power (netuid scaling_law_power : Z) (s : St) : St :=
  deposit_event (Event.ScalingLawPowerSet netuid scaling_law_power) (put_net NetNum.ScalingLawPower netuid scaling_law_power s).
Definition get_max_weight_limit (netuid : Z) (s : St) : Z :=
  get_net NetNum.MaxWeightsLimit netuid s.
Definition set_max_weight_limit (netuid max_weight_limit : Z) (s : St) : St :=
  deposit_event (Event.MaxWeightLimitSet netuid max_weight_limit) (put_net NetNum.MaxWeightsLimit netuid max_weight_limit s).
Definition get_immunity_period (netuid : Z) (s : St) : Z :=
  get_net NetNum.ImmunityPeriod netuid s.
Definition set_immunity_period (netuid immunity_period : Z) (s : St) : St :=
  deposit_event (Event.ImmunityPeriodSet netuid immunity_period) (put_net NetNum.ImmunityPeriod netuid immunity_period s).
Definition get_min_allowed_weights (netuid : Z) (s : St) : Z :=
  get_net NetNum.MinAllowedWeights netuid s.
Definition set_min_allowed_weights (netuid min_allowed_weights : Z) (s : St) : St :=
  deposit_event (Event.MinAllowedWeightSet netuid min_allowed_weights) (put_net NetNum.MinAllowedWeights netuid min_allowed_weights s).
Definition get_max_allowed_uids (netuid : Z) (s : St) : Z :=
  get_net NetNum.MaxAllowedUids netuid s.
Definition set_max_allowed_uids (netuid max_allowed : Z) (s : St) : St :=
  deposit_event (Event.MaxAllowedUidsSet netuid max_allowed) (put_net NetNum.MaxAllowedUids netuid max_allowed s).
Definition get_kappa (netuid : Z) (s : St) : Z := get_net NetNum.Kappa netuid s.
Definition set_kappa (netuid kappa : Z) (s : St) : St :=
  deposit_event (Event.KappaSet netuid kappa) (put_net NetNum.Kappa netuid kappa s).
Definition get_commit_reveal_weights_enabled (netuid : Z) (s : St) : bool :=
  get_flag NetFlag.CommitRevealWeightsEnabled netuid s.
Definition set_commit_reveal_weights_enabled (netuid : Z) (enabled : bool) (s : St) : St :=
  deposit_event (Event.CommitRevealEnabled netuid enabled) (put_flag NetFlag.CommitRevealWeightsEnabled netuid enabled s).
Definition get_rho (netuid : Z) (s : St) : Z := get_net NetNum.Rho netuid s.
Definition set_rho (netuid rho : Z) (s : St) : St := put_net NetNum.Rho netuid rho s.
Definition get_activity_cutoff (netuid : Z) (s : St) : Z :=
  get_net NetNum.ActivityCutoff netuid s.
Definition set_activity_cutoff (netuid activity_cutoff : Z) (s : St) : St :=
  deposit_event (Event.ActivityCutoffSet netuid activity_cutoff) (put_net NetNum.ActivityCutoff netuid activity_cutoff s).
Definition get_network_registration_allowed (netuid : Z) (s : St) : bool :=
  get_flag NetFlag.NetworkRegistrationAllowed netuid s.
Definition set_network_registration_allowed (netuid : Z) (registration_allowed : bool) (s : St) : St :=
  deposit_event (Event.RegistrationAllowed netuid registration_allowed) (put_flag NetFlag.NetworkRegistrationAllowed netuid registration_allowed s).
Definition get_network_pow_registration_allowed (netuid : Z) (s : St) : bool :=
  get_flag NetFlag.NetworkPowRegistrationAllowed netuid s.
Definition set_network_pow_registration_allowed (netuid : Z) (registration_allowed : bool) (s : St) : St :=
  deposit_event (Event.PowRegistrationAllowed netuid registration_allowed) (put_flag NetFlag.NetworkPowRegistrationAllowed netuid registration_allowed s).
Definition get_target_registrations_per_interval (netuid : Z) (s : St) : Z :=
  get_net NetNum.TargetRegistrationsPerInterval netuid s.
Definition set_target_registrations_per_interval (netuid target_registrations_per_interval : Z) (s : St) : St :=
  deposit_event (Event.RegistrationPerIntervalSet netuid target_registrations_per_interval) (put_net NetNum.TargetRegistrationsPerInterval netuid target_registrations_per_interval s).
Definition get_burn_as_u64 (netuid : Z) (s : St) : Z := get_net NetNum.Burn netuid s.
Definition set_burn (netuid burn : Z) (s : St) : St := put_net NetNum.Burn netuid burn s.
Definition get_min_burn_as_u64 (netuid : Z) (s : St) : Z := get_net NetNum.MinBurn netuid s.
Definition set_min_burn (netuid min_burn : Z) (s : St) : St :=
  deposit_event (Event.MinBurnSet netuid min_burn) (put_net NetNum.MinBurn netuid min_burn s).
Definition get_max_burn_as_u64 (netuid : Z) (s : St) : Z := get_net NetNum.MaxBurn netuid s.
Definition set_max_burn (netuid max_burn : Z) (s : St) : St :=
  deposit_event (Event.MaxBurnSet netuid max_burn) (put_net NetNum.MaxBurn netuid max_burn s).
Definition get_difficulty_as_u64 (netuid : Z) (s : St) : Z :=
  get_net NetNum.Difficulty netuid s.
Definition set_difficulty (netuid difficulty : Z) (s : St) : St :=
  deposit_event (Event.DifficultySet netuid difficulty) (put_net NetNum.Difficulty netuid difficulty s).
Definition get_max_allowed_validators (netuid : Z) (s : St) : Z :=
  get_net NetNum.MaxAllowedValidators netuid s.
Definition set_max_allowed_validators (netuid max_allowed_validators : Z) (s : St) : St :=
  deposit_event (Event.MaxAllowedValidatorsSet netuid max_allowed_validators) (put_net NetNum.MaxAllowedValidators netuid max_allowed_validators s).
Definition get_bonds_moving_average (netuid : Z) (s : St) : Z :=
  get_net NetNum.BondsMovingAverage netuid s.
Definition set_bonds_moving_average (netuid bonds_moving_average : Z) (s : St) : St :=
  deposit_event (Event.BondsMovingAverageSet netuid bonds_moving_average) (put_net NetNum.BondsMovingAverage netuid bonds_moving_average s).
Definition get_bonds_penalty (netuid : Z) (s : St) : Z := get_net NetNum.BondsPenalty netuid s.
Definition set_bonds_penalty (netuid bonds_penalty : Z) (s : St) : St :=
  deposit_event (Event.BondsPenaltySet netuid bonds_penalty) (put_net NetNum.BondsPenalty netuid bonds_penalty s).
Definition get_bonds_reset (netuid : Z) (s : St) : bool :=
  get_flag NetFlag.BondsResetOn netuid s.
Definition set_bonds_reset (netuid : Z) (bonds_reset : bool) (s : St) : St :=
  deposit_event (Event.BondsResetOnSet netuid bonds_reset) (put_flag NetFlag.BondsResetOn netuid bonds_reset s).
Definition get_max_registrations_per_block (netuid : Z) (s : St) : Z :=
  get_net NetNum.MaxRegistrationsPerBlock netuid s.
Definition set_max_registrations_per_block (netuid max_registrations_per_block : Z) (s : St) : St :=
  deposit_event (Event.MaxRegistrationsPerBlockSet netuid max_registrations_per_block) (put_net NetNum.MaxRegistrationsPerBlock netuid max_registrations_per_block s).
Definition get_subnet_owner_cut (s : St) : Z := get_value Value.SubnetOwnerCut s.
Definition set_subnet_owner_cut (subnet_owner_cut : Z) (s : St) : St :=
  deposit_event (Event.SubnetOwnerCutSet subnet_owner_cut) (put_value Value.SubnetOwnerCut subnet_owner_cut s).
Definition set_total_issuance (total_issuance : Z) (s : St) : St :=
  put_value Value.TotalIssuance total_issuance s.
Definition get_rao_recycled (netuid : Z) (s : St) : Z :=
  get_net NetNum.RAORecycledForRegistration netuid s.
Definition set_rao_recycled (netuid rao_recycled : Z) (s : St) : St :=
  deposit_event (Event.RAORecycledForRegistrationSet netuid rao_recycled) (put_net NetNum.RAORecycledForRegistration netuid rao_recycled s).
Definition set_senate_required_stake_perc (required_percent : Z) (s : St) : St :=
  put_value Value.SenateRequiredStakePercentage required_percent s.
Definition get_nominator_min_required_stake (s : St) : Z :=
  get_value Value.NominatorMinRequiredStake s.
Definition set_nominator_min_required_stake (min_stake : Z) (s : St) : St :=
  put_value Value.NominatorMinRequiredStake min_stake s.
Definition set_alpha_sigmoid_steepness (netuid steepness : Z) (s : St) : St :=
  put_net NetNum.AlphaSigmoidSteepness netuid steepness s.
Definition set_liquid_alpha_enabled (netuid : Z) (enabled : bool) (s : St) : St :=
  put_flag NetFlag.LiquidAlphaOn netuid enabled s.
Definition get_liquid_alpha_enabled (netuid : Z) (s : St) : bool :=
  get_flag NetFlag.LiquidAlphaOn netuid s.
Definition set_yuma3_enabled (netuid : Z) (enabled : bool) (s : St) : St :=
  put_flag NetFlag.Yuma3On netuid enabled s.
Definition get_yuma3_enabled (netuid : Z) (s : St) : bool := get_flag NetFlag.Yuma3On netuid s.
Definition get_subtoken_enabled (netuid : Z) (s : St) : bool :=
  get_flag NetFlag.SubtokenEnabled netuid s.
Definition get_transfer_toggle (netuid : Z) (s : St) : bool :=
  get_flag NetFlag.TransferToggle netuid s.
Definition set_coldkey_swap_schedule_duration (duration : Z) (s : St) : St :=
  deposit_event (Event.ColdkeySwapScheduleDurationSet duration) (put_value Value.ColdkeySwapScheduleDuration duration s).
Definition set_dissolve_network_schedule_duration (duration : Z) (s : St) : St :=
  deposit_event (Event.DissolveNetworkScheduleDurationSet duration) (put_value Value.DissolveNetworkScheduleDuration duration s).

Definition set_last_update_for_uid (netuid uid last_update : Z) (s : St) : St :=
  let v := get_last_update netuid s in
  if (Z.to_nat uid <? length v)%nat then put_vec NetVec.LastUpdate netuid (<[Z.to_nat uid := last_update]> v) s
  else s.
Definition set_active_for_uid (netuid uid : Z) (active : bool) (s : St) : St :=
  let v := get_active netuid s in
  if (Z.to_nat uid <? length v)%nat then put_bvec NetBoolVec.Active netuid (<[Z.to_nat uid := active]> v) s
  else s.
Definition set_validator_permit_for_uid (netuid uid : Z) (validator_permit : bool) (s : St) : St :=
  let v := get_validator_permit netuid s in
  if (Z.to_nat uid <? length v)%nat
  then put_bvec NetBoolVec.ValidatorPermit netuid (<[Z.to_nat uid := validator_permit]> v) s
  else s.

(** The assertion traps when the uid is not below the subnet's size. *)
Definition set_pruning_score_for_uid (netuid uid pruning_score : Z) : Pm W unit :=
  let* n := gets (get_net NetNum.SubnetworkN netuid) in
  (if uid <? n then ret tt else fail Panic) ;;
  modify (fun s => put_vec NetVec.PruningScores netuid
    (<[Z.to_nat uid := pruning_score]> (get_vec NetVec.PruningScores netuid s)) s).

Definition get_difficulty (netuid : Z) (s : St) : Z := get_difficulty_as_u64 netuid s.
Definition get_neuron_block_at_registration (netuid neuron_uid : Z) (s : St) : Z :=
  default 0 (BlockAtRegistration s !! (netuid, neuron_uid)).
Definition get_neuron_is_immune (netuid uid : Z) (s : St) : bool :=
  let registered_at := get_neuron_block_at_registration netuid uid s in
  let current_block := get_current_block_as_u64 s in
  let immunity_period := get_immunity_period netuid s in
  sat_sub current_block registered_at <? immunity_period.

Definition burn_tokens (amount : Z) (s : St) : St :=
  put_value Value.TotalIssuance (sat_sub (get_value Value.TotalIssuance s) amount) s.
Definition coinbase (amount : Z) (s : St) : St :=
  put_value Value.TotalIssuance (sat_add U64_MAX (get_value Value.TotalIssuance s) amount) s.

Definition increase_rao_recycled (netuid inc_rao_recycled : Z) (s : St) : St :=
  let curr_rao_recycled := get_rao_recycled netuid s in
  let rao_recycled := sat_add U64_MAX curr_rao_recycled inc_rao_recycled in
  set_rao_recycled netuid rao_recycled s.

Definition do_set_senate_required_stake_perc (origin : Origin) (required_percent : Z) : Pm W unit :=
  ext (ensure_root origin) ;;
  modify (set_senate_required_stake_perc required_percent) ;;
  modify (deposit_event (Event.SenateRequiredStakePercentSet required_percent)).

Definition is_subnet_owner (address : AccountId) (s : St) : bool :=
  existsb (fun p => bool_decide (address = p.2)) (iter_prefix (SubnetOwner s)).

Definition get_alpha_values (netuid : Z) (s : St) : Z * Z :=
  default (45875, 58982) (AlphaValues s !! netuid).

Definition get_owned_hotkeys (coldkey : AccountId) (s : St) : list AccountId :=
  get_list KeyList.OwnedHotkeys coldkey s.
Definition get_all_staked_hotkeys (coldkey : AccountId) (s : St) : list AccountId :=
  get_list KeyList.StakingHotkeys coldkey s.

Definition set_subnet_owner_hotkey (netuid : Z) (hotkey : AccountId) (s : St) : St :=
  deposit_event (Event.SubnetOwnerHotkeySet netuid hotkey)
    (s <| SubnetOwnerHotkey ::= <[netuid := hotkey]> |>).

Definition get_owner_uid (netuid : Z) (s : St) : option Z :=
  match SubnetOwnerHotkey s !! netuid with
  | Some owner_hotkey => Uids s !! (netuid, owner_hotkey)
  | None => None
  end.

(** ** Subnets (src/pallets/subtensor/src/subnets/subnet.rs) *)

(** [netuid.is_root()] *)
Definition is_root (netuid : Z) : bool := netuid =? 0.
Definition if_subnet_exist (netuid : Z) (s : St) : bool := default false (NetworksAdded s !! netuid).
Definition get_all_subnet_netuids (s : St) : list Z := (iter_prefix (NetworksAdded s)).*1.

(** ** Accounts (src/pallets/subtensor/src/staking/helpers.rs) *)

Definition hotkey_account_exists (hotkey : AccountId) (s : St) : bool :=
  bool_decide (is_Some (Owner s !! hotkey)).

Definition coldkey_owns_hotkey (coldkey hotkey : AccountId) (s : St) : bool :=
  if hotkey_account_exists hotkey s
  then bool_decide (default default_account (Owner s !! hotkey) = coldkey) else false.

Definition get_owning_coldkey_for_hotkey (hotkey : AccountId) (s : St) : AccountId :=
  default default_account (Owner s !! hotkey).

Definition hotkey_is_delegate (hotkey : AccountId) (s : St) : bool :=
  bool_decide (is_Some (key_nums s !! (KeyNum.Delegates, hotkey))).
Definition delegate_hotkey (hotkey : AccountId) (take : Z) (s : St) : St :=
  put_key KeyNum.Delegates hotkey take s.
Definition get_hotkey_take (hotkey : AccountId) (s : St) : Z := get_key KeyNum.Delegates hotkey s.
Definition maybe_become_delegate (hotkey : AccountId) (s : St) : St :=
  if negb (hotkey_is_delegate hotkey s) then delegate_hotkey hotkey (get_hotkey_take hotkey s) s
  else s.

(** [if !v.contains(x) { v.push(x); insert(v) }] on a list of accounts *)
Definition push_unique (i : KeyList.KeyList) (coldkey hotkey : AccountId) (s : St) : St :=
  let hotkeys := get_list i coldkey s in
  if bool_decide (hotkey ∈ hotkeys) then s else put_list i coldkey (hotkeys ++ [hotkey]) s.

Definition create_account_if_non_existent (coldkey hotkey : AccountId) (s : St) : St :=
  if hotkey_account_exists hotkey s then s
  else
    let s := s <| Owner ::= <[hotkey := coldkey]> |> in
    let s := push_unique KeyList.OwnedHotkeys coldkey hotkey s in
    push_unique KeyList.StakingHotkeys coldkey hotkey s.

Definition get_total_stake (s : St) : Z := get_value Value.TotalStake s.
Definition increase_total_stake (increment : Z) (s : St) : St :=
  put_value Value.TotalStake (sat_add U64_MAX (get_total_stake s) increment) s.
Definition decrease_total_stake (decrement : Z) (s : St) : St :=
  put_value Value.TotalStake (sat_sub (get_total_stake s) decrement) s.

Definition do_take_checks (coldkey hotkey : AccountId) : Pm W unit :=
  let* s := gets id in
  check (hotkey_account_exists hotkey s) Error.HotKeyAccountNotExists ;;
  check (coldkey_owns_hotkey coldkey hotkey s) Error.NonAssociatedColdKey.

(** ** Balances *)

Definition get_coldkey_balance (coldkey : AccountId) (s : St) : Z :=
  reducible_balance (world s) coldkey.

Definition can_remove_balance_from_coldkey_account (coldkey : AccountId) (amount : Z) (s : St) : bool :=
  if get_coldkey_balance coldkey s <? amount then false
  else can_withdraw (world s) coldkey amount.

Definition add_balance_to_coldkey_account (coldkey : AccountId) (amount : Z) (s : St) : St :=
  s <| world := deposit (world s) coldkey amount |>.

Definition remove_balance_from_coldkey_account (coldkey : AccountId) (amount : Z) : Pm W Z :=
  if amount =? 0 then ret 0
  else
    let* w := gets world in
    match withdraw w coldkey amount with
    | Err _ => throw Error.BalanceWithdrawalError
    | Ok (credit, w') =>
        modify (fun s => s <| world := w' |>) ;;
        if credit =? 0 then throw Error.ZeroBalanceAfterWithdrawn else ret credit
    end.

(** Reads that conditional writes leave alone. *)
Section Frames.
Context {A : Type} (g : St -> A).

Lemma set_active_frame n u b s :
  (forall v x, g (put_bvec NetBoolVec.Active n v x) = g x) -> g (set_active_for_uid n u b s) = g s.
Proof. intros H. unfold set_active_for_uid. by destruct (_ <? _)%nat. Qed.

Lemma set_last_update_frame n u b s :
  (forall v x, g (put_vec NetVec.LastUpdate n v x) = g x) -> g (set_last_update_for_uid n u b s) = g s.
Proof. intros H. unfold set_last_update_for_uid. by destruct (_ <? _)%nat. Qed.

Lemma push_unique_frame i c h s :
  (forall l x, g (put_list i c l x) = g x) -> g (push_unique i c h s) = g s.
Proof. intros H. unfold push_unique. by case_bool_decide. Qed.

Lemma create_account_frame c h s :
  (forall f x, g (x <| Owner ::= f |>) = g x) -> (forall i l x, g (put_list i c l x) = g x) ->
  g (create_account_if_non_existent c h s) = g s.
Proof.
  intros H1 H2. unfold create_account_if_non_existent. destruct (hotkey_account_exists h s); [done|].
  by rewrite !push_unique_frame by auto.
Qed.
End Frames.
End Misc.

Ltac st_frame_hook g ::=
  first [ apply (set_active_frame g); reflexivity
        | apply (set_last_update_frame g); reflexivity
        | apply (push_unique_frame g); reflexivity
        | apply (create_account_frame g); reflexivity ].
