(* ===== verification/Uids.v ===== *)
(** * Neuron slots (src/pallets/subtensor/src/subnets/uids.rs)

    Each subnet gives its neurons the uids [0 .. SubnetworkN). The maps [Keys]
    (uid to hotkey) and [Uids] (hotkey to uid) are kept inverse to each other,
    [IsNetworkMember] mirrors them for each hotkey, and eleven vectors hold one
    entry for each uid. The invariant [uids_ok] says so; [append_neuron] and
    [replace_neuron] preserve it. *)

From S2P Require Import Prelude Frame Storage Misc.
From stdpp Require Import prelude gmap list fin_maps.
From Stdlib Require Import ZArith Lia.
#[local] Open Scope Z_scope.
#[local] Open Scope monad_scope.

Section Uids.
Context {FS : FrameSystem} {Cfg : SubtensorConfig} {SI : StorageIter} {W : Type}.
Context {Env : SubtensorEnv W}.
Abbreviation St := (Storage W).
Implicit Types (s : St) (netuid uid : Z) (hotkey : AccountId).

Definition get_subnetwork_n (netuid : Z) (s : St) : Z := get_net NetNum.SubnetworkN netuid s.

(** A position outside the vector leaves it as it is. *)
Definition set_element_at {A} (vec : list A) (position : Z) (value : A) : list A :=
  <[Z.to_nat position := value]> vec.

(** [Vec::<T>::mutate(netuid, |v| Self::set_element_at(v, uid, 0))] *)
Definition reset_element (i : NetVec.NetVec) (netuid uid : Z) (s : St) : St :=
  mutate_vec i netuid (fun v => set_element_at v uid 0) s.

Definition clear_neuron (netuid neuron_uid : Z) (s : St) : St :=
  let s := reset_element NetVec.Emission netuid neuron_uid s in
  let s := reset_element NetVec.Trust netuid neuron_uid s in
  let s := reset_element NetVec.Consensus netuid neuron_uid s in
  let s := reset_element NetVec.Incentive netuid neuron_uid s in
  let s := reset_element NetVec.Dividends netuid neuron_uid s in
  s <| Bonds ::= delete (netuid, neuron_uid) |>.

(** [IsNetworkMember::remove] and [IsNetworkMember::insert] *)
Definition remove_member (hotkey : AccountId) (netuid : Z) (s : St) : St :=
  s <| IsNetworkMember ::= fun m => <[hotkey := delete netuid (default ∅ (m !! hotkey))]> m |>.
Definition insert_member (hotkey : AccountId) (netuid : Z) (b : bool) (s : St) : St :=
  s <| IsNetworkMember ::= fun m => <[hotkey := <[netuid := b]> (default ∅ (m !! hotkey))]> m |>.

Definition replace_neuron (netuid uid_to_replace : Z) (new_hotkey : AccountId)
    (block_number : Z) (s : St) : St :=
  let old_hotkey := default default_account (Keys s !! (netuid, uid_to_replace)) in
  if bool_decide (SubnetOwnerHotkey s !! netuid = Some old_hotkey) then s
  else
    let s := s <| Uids ::= delete (netuid, old_hotkey) |> in
    let s := remove_member old_hotkey netuid s in
    let s := s <| Keys ::= delete (netuid, uid_to_replace) |> in
    let s := set_active_for_uid netuid uid_to_replace true s in
    let s := s <| Keys ::= <[(netuid, uid_to_replace) := new_hotkey]> |> in
    let s := s <| Uids ::= <[(netuid, new_hotkey) := uid_to_replace]> |> in
    let s := s <| BlockAtRegistration ::= <[(netuid, uid_to_replace) := block_number]> |> in
    let s := insert_member new_hotkey netuid true s in
    let s := s <| NeuronCertificates ::= delete (netuid, old_hotkey) |> in
    let s := clear_neuron netuid uid_to_replace s in
    s <| Axons ::= delete (netuid, old_hotkey) |>.

(** [mutate(netuid, |v| v.push(x))] *)
Definition push_vec (i : NetVec.NetVec) (netuid x : Z) (s : St) : St :=
  mutate_vec i netuid (fun v => v ++ [x]) s.
Definition push_bvec (i : NetBoolVec.NetBoolVec) (netuid : Z) (x : bool) (s : St) : St :=
  mutate_bvec i netuid (fun v => v ++ [x]) s.

Definition append_neuron (netuid : Z) (new_hotkey : AccountId) (block_number : Z) (s : St) : St :=
  let next_uid := get_subnetwork_n netuid s in
  let s := put_net NetNum.SubnetworkN netuid (sat_add U16_MAX next_uid 1) s in
  let s := push_vec NetVec.Rank netuid 0 s in
  let s := push_vec NetVec.Trust netuid 0 s in
  let s := push_bvec NetBoolVec.Active netuid true s in
  let s := push_vec NetVec.Emission netuid 0 s in
  let s := push_vec NetVec.Consensus netuid 0 s in
  let s := push_vec NetVec.Incentive netuid 0 s in
  let s := push_vec NetVec.Dividends netuid 0 s in
  let s := push_vec NetVec.LastUpdate netuid block_number s in
  let s := push_vec NetVec.PruningScores netuid 0 s in
  let s := push_vec NetVec.ValidatorTrust netuid 0 s in
  let s := push_bvec NetBoolVec.ValidatorPermit netuid false s in
  let s := s <| Keys ::= <[(netuid, next_uid) := new_hotkey]> |> in
  let s := s <| Uids ::= <[(netuid, new_hotkey) := next_uid]> |> in
  let s := s <| BlockAtRegistration ::= <[(netuid, next_uid) := block_number]> |> in
  insert_member new_hotkey netuid true s.

Definition is_uid_exist_on_network (netuid uid : Z) (s : St) : bool :=
  bool_decide (is_Some (Keys s !! (netuid, uid))).

Definition is_hotkey_registered_on_network (netuid : Z) (hotkey : AccountId) (s : St) : bool :=
  bool_decide (is_Some (Uids s !! (netuid, hotkey))).

Definition get_hotkey_for_net_and_uid (netuid neuron_uid : Z) (s : St)
    : result (error Error.Error) AccountId :=
  ok_or (Keys s !! (netuid, neuron_uid)) (Module Error.HotKeyNotRegisteredInSubNet).

Definition get_uid_for_net_and_hotkey (netuid : Z) (hotkey : AccountId) (s : St)
    : result (error Error.Error) Z :=
  ok_or (Uids s !! (netuid, hotkey)) (Module Error.HotKeyNotRegisteredInSubNet).

(** The entries of [IsNetworkMember::iter_prefix(hotkey)]. *)
Definition memberships (hotkey : AccountId) (s : St) : list (Z * bool) :=
  iter_prefix (default ∅ (IsNetworkMember s !! hotkey)).

Definition get_registered_networks_for_hotkey (hotkey : AccountId) (s : St) : list Z :=
  (filter (fun p => p.2 = true) (memberships hotkey s)).*1.

Definition is_hotkey_registered_on_any_network (hotkey : AccountId) (s : St) : bool :=
  existsb (fun p => p.2) (memberships hotkey s).

Definition is_hotkey_registered_on_specific_network (hotkey : AccountId) (netuid : Z) (s : St)
    : bool := bool_decide (is_Some (default ∅ (IsNetworkMember s !! hotkey) !! netuid)).

(** ** The invariant *)

(** [IsNetworkMember] of a hotkey and a subnet. *)
Definition member (hotkey : AccountId) (netuid : Z) (s : St) : option bool :=
  default ∅ (IsNetworkMember s !! hotkey) !! netuid.

(** The vectors [append_neuron] extends. *)
Definition per_uid (i : NetVec.NetVec) : bool :=
  match i with NetVec.StakeWeight => false | _ => true end.

Record uids_ok (s : St) (netuid : Z) : Prop := {
  uo_keys : forall uid, is_Some (Keys s !! (netuid, uid)) <-> 0 <= uid < get_subnetwork_n netuid s;
  uo_uids : forall uid h, Keys s !! (netuid, uid) = Some h <-> Uids s !! (netuid, h) = Some uid;
  uo_member : forall h, default false (member h netuid s) = bool_decide (is_Some (Uids s !! (netuid, h)));
  uo_vecs : forall i, per_uid i = true ->
    Z.of_nat (length (get_vec i netuid s)) = get_subnetwork_n netuid s;
  uo_bvecs : forall i, Z.of_nat (length (get_bvec i netuid s)) = get_subnetwork_n netuid s;
}.

(** ** Effects on each item *)

Lemma get_push_vec i j n m x s :
  get_vec i m (push_vec j n x s) =
  if decide (j = i /\ n = m) then get_vec i m s ++ [x] else get_vec i m s.
Proof. unfold push_vec. rewrite mutate_vec_put, get_put_vec. case_decide; naive_solver. Qed.

Lemma get_push_bvec i j n m x s :
  get_bvec i m (push_bvec j n x s) =
  if decide (j = i /\ n = m) then get_bvec i m s ++ [x] else get_bvec i m s.
Proof. unfold push_bvec. rewrite mutate_bvec_put, get_put_bvec. case_decide; naive_solver. Qed.

Lemma length_reset_element i j n uid m s :
  length (get_vec i m (reset_element j n uid s)) = length (get_vec i m s).
Proof.
  unfold reset_element. rewrite mutate_vec_put, get_put_vec. case_decide as H; [|done].
  destruct H as [-> ->]. apply length_insert.
Qed.

Lemma append_n n h b s m :
  get_subnetwork_n m (append_neuron n h b s) =
  if decide (n = m) then sat_add U16_MAX (get_subnetwork_n m s) 1 else get_subnetwork_n m s.
Proof.
  unfold get_subnetwork_n.
  transitivity (get_net NetNum.SubnetworkN m
    (put_net NetNum.SubnetworkN n (sat_add U16_MAX (get_subnetwork_n n s) 1) s)); [done|].
  rewrite get_put_net. repeat case_decide; naive_solver.
Qed.

Lemma append_vec i n h b s m :
  get_vec i m (append_neuron n h b s) =
  if decide (n = m /\ per_uid i = true)
  then get_vec i m s ++ [if decide (i = NetVec.LastUpdate) then b else 0] else get_vec i m s.
Proof.
  unfold append_neuron. repeat (st_frame; rewrite ?get_push_vec).
  destruct (decide (n = m)) as [->|Hn].
  - destruct i; simpl per_uid; repeat first
      [rewrite decide_True by done | rewrite decide_False by (intros [? ?]; discriminate)
      | rewrite decide_False by discriminate]; done.
  - rewrite !decide_False by naive_solver. done.
Qed.

Lemma append_bvec i n h b s m :
  get_bvec i m (append_neuron n h b s) =
  if decide (n = m)
  then get_bvec i m s ++ [bool_decide (i = NetBoolVec.Active)] else get_bvec i m s.
Proof.
  unfold append_neuron. repeat (st_frame; rewrite ?get_push_bvec).
  destruct (decide (n = m)) as [->|Hn].
  - destruct i; repeat first
      [rewrite decide_True by done | rewrite decide_False by (intros [? ?]; discriminate)]; done.
  - rewrite !decide_False by naive_solver. done.
Qed.

Lemma member_insert h n b s h' n' :
  member h' n' (insert_member h n b s) =
  if decide (h = h' /\ n = n') then Some b else member h' n' s.
Proof.
  unfold member, insert_member. simpl. destruct (decide (h = h')) as [->|].
  - rewrite lookup_insert_eq. simpl. destruct (decide (n = n')) as [->|].
    + by rewrite lookup_insert_eq, decide_True.
    + by rewrite lookup_insert_ne, decide_False by naive_solver.
  - by rewrite lookup_insert_ne, decide_False by naive_solver.
Qed.

Lemma member_remove h n s h' n' :
  member h' n' (remove_member h n s) =
  if decide (h = h' /\ n = n') then None else member h' n' s.
Proof.
  unfold member, remove_member. simpl. destruct (decide (h = h')) as [->|].
  - rewrite lookup_insert_eq. simpl. destruct (decide (n = n')) as [->|].
    + by rewrite lookup_delete_eq, decide_True.
    + by rewrite lookup_delete_ne, decide_False by naive_solver.
  - by rewrite lookup_insert_ne, decide_False by naive_solver.
Qed.

Lemma append_member n h b s h' n' :
  member h' n' (append_neuron n h b s) = if decide (h = h' /\ n = n') then Some true else member h' n' s.
Proof. unfold append_neuron. cbv zeta. rewrite member_insert. case_decide; [done|]. st_frame. done. Qed.

(** ** Preservation *)

Lemma append_ok n h b s m :
  uids_ok s m -> Uids s !! (n, h) = None -> get_subnetwork_n n s < U16_MAX ->
  0 <= get_subnetwork_n n s -> uids_ok (append_neuron n h b s) m.
Proof.
  intros [Hk Hu Hm Hv Hb] Hnew Hlt Hge. destruct (decide (n = m)) as [->|Hne].
  - set (N := get_subnetwork_n m s) in *.
    assert (Hfresh : Keys s !! (m, N) = None).
    { apply eq_None_not_Some. rewrite Hk. lia. }
    assert (Keys (append_neuron m h b s) = <[(m, N) := h]> (Keys s)) as EK by done.
    assert (Uids (append_neuron m h b s) = <[(m, h) := N]> (Uids s)) as EU by done.
    split.
    + intros uid. rewrite EK, append_n, decide_True by done. unfold sat_add.
      destruct (decide (uid = N)) as [->|].
      * rewrite lookup_insert_eq. split; [lia|by eexists].
      * rewrite lookup_insert_ne by congruence. rewrite Hk. fold N. lia.
    + intros uid h'. rewrite EK, EU.
      destruct (decide (uid = N)) as [->|]; destruct (decide (h' = h)) as [->|].
      * by rewrite !lookup_insert_eq.
      * rewrite lookup_insert_eq, lookup_insert_ne by congruence. rewrite <- Hu, Hfresh. naive_solver.
      * rewrite lookup_insert_eq, lookup_insert_ne by congruence. rewrite Hu, Hnew. naive_solver.
      * rewrite !lookup_insert_ne by congruence. apply Hu.
    + intros h'. rewrite append_member, EU. destruct (decide (h = h')) as [->|].
      * by rewrite lookup_insert_eq, decide_True, bool_decide_true by (done || by eexists).
      * rewrite lookup_insert_ne by congruence. rewrite (decide_False (P:=h = h' /\ _)) by naive_solver.
        apply Hm.
    + intros i Hi. rewrite append_vec, (decide_True (P:=m = m /\ _)), append_n, (decide_True (P:=m = m)), length_app by done.
      rewrite Nat2Z.inj_add, Hv by done. unfold sat_add. fold N. simpl. lia.
    + intros i. rewrite append_bvec, append_n, !(decide_True (P:=m = m)), length_app by done.
      rewrite Nat2Z.inj_add, Hb. unfold sat_add. fold N. simpl. lia.
  - assert (Keys (append_neuron n h b s) = <[(n, get_subnetwork_n n s) := h]> (Keys s)) as EK by done.
    assert (Uids (append_neuron n h b s) = <[(n, h) := get_subnetwork_n n s]> (Uids s)) as EU by done.
    split; intros; rewrite ?EK, ?EU, ?append_n, ?append_vec, ?append_bvec, ?append_member,
      ?lookup_insert_ne, ?(decide_False (P:=n = m)), ?(decide_False (P:=n = m /\ _)),
      ?(decide_False (P:=_ /\ n = m)) by naive_solver; auto.
Qed.

Lemma length_set_active i n uid b m s :
  length (get_bvec i m (set_active_for_uid n uid b s)) = length (get_bvec i m s).
Proof.
  unfold set_active_for_uid. destruct (_ <? _)%nat; [|done]. rewrite get_put_bvec.
  case_decide as H; [|done]. destruct H as [<- ->]. apply length_insert.
Qed.

(** The hotkey a slot holds. *)
Definition hotkey_at (netuid uid : Z) (s : St) : AccountId :=
  default default_account (Keys s !! (netuid, uid)).

Lemma replace_owner n uid h b s :
  SubnetOwnerHotkey s !! n = Some (hotkey_at n uid s) -> replace_neuron n uid h b s = s.
Proof. intros H. unfold replace_neuron. by rewrite bool_decide_true. Qed.

Section Replace.
Context (n uid : Z) (h : AccountId) (b : Z) (s : St).
Context (Howner : SubnetOwnerHotkey s !! n <> Some (hotkey_at n uid s)).
Let old := hotkey_at n uid s.

Ltac replace_steps := unfold replace_neuron; rewrite bool_decide_false by done; st_frame.

Lemma replace_keys : Keys (replace_neuron n uid h b s) = <[(n, uid) := h]> (Keys s).
Proof using Howner. replace_steps. by rewrite insert_delete_eq. Qed.

Lemma replace_uids :
  Uids (replace_neuron n uid h b s) = <[(n, h) := uid]> (delete (n, old) (Uids s)).
Proof using Howner. replace_steps. done. Qed.

Lemma replace_n m : get_subnetwork_n m (replace_neuron n uid h b s) = get_subnetwork_n m s.
Proof using Howner. replace_steps. done. Qed.

Lemma replace_member h' m : member h' m (replace_neuron n uid h b s) =
  if decide (h = h' /\ n = m) then Some true
  else if decide (old = h' /\ n = m) then None else member h' m s.
Proof using Howner.
  replace_steps. rewrite member_insert. st_frame. rewrite member_remove. st_frame. done.
Qed.

Lemma replace_vec i m :
  length (get_vec i m (replace_neuron n uid h b s)) = length (get_vec i m s).
Proof using Howner.
  replace_steps. unfold clear_neuron. st_frame. rewrite !length_reset_element. st_frame. done.
Qed.

Lemma replace_bvec i m :
  length (get_bvec i m (replace_neuron n uid h b s)) = length (get_bvec i m s).
Proof using Howner. replace_steps. rewrite length_set_active. st_frame. done. Qed.
End Replace.

Lemma replace_ok n uid h b s m :
  uids_ok s m -> Uids s !! (n, h) = None -> 0 <= uid < get_subnetwork_n n s ->
  uids_ok s n -> uids_ok (replace_neuron n uid h b s) m.
Proof.
  intros Hm Hnew Huid Hn.
  destruct (decide (SubnetOwnerHotkey s !! n = Some (hotkey_at n uid s))) as [Ho|Ho].
  { by rewrite replace_owner. }
  destruct (proj2 (uo_keys _ _ Hn uid) Huid) as [old Hold].
  assert (hotkey_at n uid s = old) as Eold by (unfold hotkey_at; by rewrite Hold).
  destruct Hm as [Hk Hu Hmem Hv Hb].
  pose proof (replace_keys n uid h b s Ho) as EK.
  pose proof (replace_uids n uid h b s Ho) as EU. rewrite Eold in EU.
  split; intros.
  - rewrite EK, replace_n by done. rewrite <- Hk.
    destruct (decide ((n, uid) = (m, uid0))) as [E|]; [|by rewrite lookup_insert_ne].
    rewrite <- E, lookup_insert_eq, Hold. by split; eexists.
  - rewrite EK, EU. destruct (decide (n = m)) as [->|].
    + destruct (decide (uid0 = uid)) as [->|]; destruct (decide (h0 = h)) as [->|].
      * by rewrite !lookup_insert_eq.
      * rewrite lookup_insert_eq, lookup_insert_ne by congruence.
        split; [congruence|]. intros [Hne Hx]%lookup_delete_Some. apply Hu in Hx. congruence.
      * rewrite lookup_insert_eq, lookup_insert_ne by congruence.
        split; [|congruence]. intros Hx%Hu. congruence.
      * rewrite !lookup_insert_ne by congruence. rewrite lookup_delete_Some, Hu.
        split; [|naive_solver]. intros Hx. split; [|done]. intros [= <-].
        apply Hu in Hold. congruence.
    + rewrite !lookup_insert_ne, lookup_delete_ne by congruence. apply Hu.
  - rewrite replace_member by done. rewrite EU, Eold.
    destruct (decide (h = h0 /\ n = m)) as [[-> ->]|Hne].
    { by rewrite lookup_insert_eq, bool_decide_true by (by eexists). }
    rewrite lookup_insert_ne by naive_solver.
    destruct (decide (old = h0 /\ n = m)) as [[-> ->]|Hne'].
    { by rewrite lookup_delete_eq, bool_decide_false by (by intros []). }
    rewrite lookup_delete_ne by naive_solver. apply Hmem.
  - rewrite replace_vec, replace_n by done. auto.
  - rewrite replace_bvec, replace_n by done. auto.
Qed.
End Uids.
