(* ===== verification/Serving.v ===== *)
(** * Serving endpoints (src/pallets/subtensor/src/subnets/serving.rs)

    A neuron announces where it can be reached: the axon, with an optional TLS
    certificate, and the prometheus endpoint. An announcement is checked for a
    plausible address and rate limited for each subnet. *)

From S2P Require Import Prelude Frame Storage Misc Uids.
From stdpp Require Import prelude gmap list fin_maps.
From Stdlib Require Import ZArith Lia.
#[local] Open Scope Z_scope.
#[local] Open Scope monad_scope.

Section Serving.
Context {FS : FrameSystem} {Cfg : SubtensorConfig} {SI : StorageIter} {W : Type}.
Context {Env : SubtensorEnv W}.
Abbreviation St := (Storage W).
Implicit Types (s : St) (netuid : Z) (hotkey : AccountId).

(** [current_block - last_serve >= rate_limit], unless never served or unlimited *)
Definition axon_passes_rate_limit (netuid : Z) (prev_axon_info : AxonInfo) (current_block : Z) (s : St) : bool :=
  let rate_limit := get_serving_rate_limit netuid s in
  let last_serve := axon_block prev_axon_info in
  (rate_limit =? 0) || (last_serve =? 0) || (rate_limit <=? sat_sub current_block last_serve).
Definition prometheus_passes_rate_limit (netuid : Z) (prev_prometheus_info : PrometheusInfo) (current_block : Z)
    (s : St) : bool :=
  let rate_limit := get_serving_rate_limit netuid s in
  let last_serve := prom_block prev_prometheus_info in
  (rate_limit =? 0) || (last_serve =? 0) || (rate_limit <=? sat_sub current_block last_serve).

Definition get_axon_info (netuid : Z) (hotkey : AccountId) (s : St) : AxonInfo :=
  match Axons s !! (netuid, hotkey) with
  | Some axons => axons
  | None => mkAxonInfo 0 0 0 0 0 0 0 0
  end.
Definition get_prometheus_info (netuid : Z) (hotkey : AccountId) (s : St) : PrometheusInfo :=
  match Prometheus s !! (netuid, hotkey) with
  | Some prometheus => prometheus
  | None => mkPrometheusInfo 0 0 0 0 0
  end.

Definition is_valid_ip_type (ip_type : Z) : bool := bool_decide (ip_type ∈ [4; 6]).
Definition is_valid_ip_address (ip_type addr : Z) (allow_zero : bool) : bool :=
  if negb allow_zero && (addr =? 0) then false
  else if (ip_type =? 4) && (U32_MAX <=? addr) then false
  else if (ip_type =? 4) && (addr =? 2130706433) then false
  else if (ip_type =? 6) && (addr =? U128_MAX) then false
  else if (ip_type =? 6) && (addr =? 1) then false
  else true.

Definition validate_axon_data (axon_info : AxonInfo) : result (error Error.Error) bool :=
  if clamp 0 U16_MAX (axon_port axon_info) =? 0 then Err (Module Error.InvalidPort) else Ok true.
Definition validate_prometheus_data (prom_info : PrometheusInfo) : result (error Error.Error) bool :=
  if clamp 0 U16_MAX (prom_port prom_info) =? 0 then Err (Module Error.InvalidPort) else Ok true.

(** It reads only, so that errors are all that comes out of it. *)
Definition validate_serve_axon (hotkey_id : AccountId) (netuid version ip port ip_type protocol
    placeholder1 placeholder2 : Z) : Pm W unit :=
  let* s := gets id in
  check (is_hotkey_registered_on_any_network hotkey_id s) Error.HotKeyNotRegisteredInNetwork ;;
  check (is_valid_ip_type ip_type) Error.InvalidIpType ;;
  check (is_valid_ip_address ip_type ip true) Error.InvalidIpAddress ;;
  let prev_axon := get_axon_info netuid hotkey_id s in
  let current_block := get_current_block_as_u64 s in
  check (axon_passes_rate_limit netuid prev_axon current_block s) Error.ServingRateLimitExceeded ;;
  let prev_axon :=
    mkAxonInfo (get_current_block_as_u64 s) version ip port ip_type protocol placeholder1 placeholder2 in
  let* _ := lift (validate_axon_data prev_axon) in
  ret tt.

Definition do_serve_axon (origin : Origin) (netuid version ip port ip_type protocol placeholder1 placeholder2 : Z)
    (certificate : option Bytes) : Pm W unit :=
  let* hotkey_id := ext (ensure_signed origin) in
  validate_serve_axon hotkey_id netuid version ip port ip_type protocol placeholder1 placeholder2 ;;
  match certificate ≫= certificate_try_from with
  | Some certificate => modify (fun s => s <| NeuronCertificates ::= <[(netuid, hotkey_id) := certificate]> |>)
  | None => ret tt
  end ;;
  let* current_block := gets get_current_block_as_u64 in
  let prev_axon := mkAxonInfo current_block version ip port ip_type protocol placeholder1 placeholder2 in
  let* _ := lift (validate_axon_data prev_axon) in
  modify (fun s => s <| Axons ::= <[(netuid, hotkey_id) := prev_axon]> |>) ;;
  modify (deposit_event (Event.AxonServed netuid hotkey_id)).

Definition do_serve_prometheus (origin : Origin) (netuid version ip port ip_type : Z) : Pm W unit :=
  let* hotkey_id := ext (ensure_signed origin) in
  check (is_valid_ip_type ip_type) Error.InvalidIpType ;;
  check (is_valid_ip_address ip_type ip false) Error.InvalidIpAddress ;;
  let* s := gets id in
  check (is_hotkey_registered_on_any_network hotkey_id s) Error.HotKeyNotRegisteredInNetwork ;;
  let prev_prometheus := get_prometheus_info netuid hotkey_id s in
  let current_block := get_current_block_as_u64 s in
  check (prometheus_passes_rate_limit netuid prev_prometheus current_block s) Error.ServingRateLimitExceeded ;;
  let prev_prometheus := mkPrometheusInfo (get_current_block_as_u64 s) version ip port ip_type in
  let* _ := lift (validate_prometheus_data prev_prometheus) in
  modify (fun s => s <| Prometheus ::= <[(netuid, hotkey_id) := prev_prometheus]> |>) ;;
  modify (deposit_event (Event.PrometheusServed netuid hotkey_id)).

(** ** What an announcement needs *)

(** The error of an announcement that is refused: the first failed check. *)
Definition serve_axon_error (hotkey : AccountId) (netuid ip port ip_type : Z) (s : St) : option Error.Error :=
  if negb (is_hotkey_registered_on_any_network hotkey s) then Some Error.HotKeyNotRegisteredInNetwork
  else if negb ((ip_type =? 4) || (ip_type =? 6)) then Some Error.InvalidIpType
  else if (if ip_type =? 4 then (U32_MAX <=? ip) || (ip =? 2130706433) else (ip =? U128_MAX) || (ip =? 1))
    then Some Error.InvalidIpAddress
  else if negb (axon_passes_rate_limit netuid (get_axon_info netuid hotkey s) (get_current_block_as_u64 s) s)
    then Some Error.ServingRateLimitExceeded
  else if port =? 0 then Some Error.InvalidPort else None.

(** What an accepted announcement stores: the endpoint as announced, stamped
    with the block, the certificate when it is well formed, and an event. *)
Definition announced (hotkey : AccountId) (netuid : Z) (axon : AxonInfo) (certificate : option Bytes) (s : St) : St :=
  let s := match certificate ≫= certificate_try_from with
           | Some c => s <| NeuronCertificates ::= <[(netuid, hotkey) := c]> |>
           | None => s
           end in
  deposit_event (Event.AxonServed netuid hotkey) (s <| Axons ::= <[(netuid, hotkey) := axon]> |>).

Lemma ip_type_spec ip_type : is_valid_ip_type ip_type = (ip_type =? 4) || (ip_type =? 6).
Proof using.
  unfold is_valid_ip_type. apply eq_true_iff_eq. rewrite bool_decide_eq_true, orb_true_iff, !Z.eqb_eq.
  rewrite !elem_of_cons, elem_of_nil. naive_solver.
Qed.

Lemma ip_address_spec ip_type ip : (ip_type =? 4) || (ip_type =? 6) = true ->
  is_valid_ip_address ip_type ip true =
  negb (if ip_type =? 4 then (U32_MAX <=? ip) || (ip =? 2130706433) else (ip =? U128_MAX) || (ip =? 1)).
Proof using.
  unfold is_valid_ip_address. cbn [negb andb]. destruct (Z.eqb_spec ip_type 4) as [->|]; cbn.
  - intros _. by destruct (_ <=? _), (ip =? _).
  - destruct (ip_type =? 6); [|done]. intros _. cbn. by destruct (ip =? U128_MAX), (ip =? 1).
Qed.

Lemma port_spec port : 0 <= port <= U16_MAX -> (clamp 0 U16_MAX port =? 0) = (port =? 0).
Proof using. intros H. unfold clamp. by rewrite Z.min_r, Z.max_r by lia. Qed.

(** Announcing an axon either fails with the first check that is not met (the
    neuron is registered on some network, the address is of type 4 or 6 and not
    a loopback or broadcast address, the last announcement is old enough, the
    port is not zero) and then writes nothing, or it stores exactly the
    announced endpoint, stamped with the current block. *)
Theorem serve_axon_exact (origin : Origin) hotkey netuid version ip port ip_type protocol placeholder1 placeholder2
    certificate s :
  ensure_signed origin = Ok hotkey -> 0 <= port <= U16_MAX ->
  do_serve_axon origin netuid version ip port ip_type protocol placeholder1 placeholder2 certificate s =
  match serve_axon_error hotkey netuid ip port ip_type s with
  | Some e => Err (Module e)
  | None =>
      Ok (tt, announced hotkey netuid (mkAxonInfo (get_current_block_as_u64 s) version ip port ip_type protocol
                                         placeholder1 placeholder2) certificate s)
  end.
Proof using.
  intros Ho Hp. unfold do_serve_axon, validate_serve_axon, serve_axon_error.
  unfold bind, ext, lift, gets, modify, ensure, ret, validate_axon_data, id. rewrite Ho. cbn [axon_port].
  rewrite port_spec by done. destruct (is_hotkey_registered_on_any_network hotkey s); [|done].
  rewrite ip_type_spec. destruct ((ip_type =? 4) || (ip_type =? 6)) eqn:Et; [|done]. cbn [negb].
  rewrite ip_address_spec by done.
  destruct (if ip_type =? 4 then _ else _); [done|]. cbn [negb].
  destruct (axon_passes_rate_limit _ _ _ _); [|done]. destruct (port =? 0); [done|]. cbn [negb].
  unfold announced. destruct (certificate ≫= certificate_try_from); done.
Qed.

(** An axon cannot be announced again before the rate limit of the subnet. *)
Lemma axon_refused_early hotkey netuid ip port ip_type s :
  let b := axon_block (get_axon_info netuid hotkey s) in
  0 < b -> get_current_block_as_u64 s - b < get_serving_rate_limit netuid s ->
  0 < get_serving_rate_limit netuid s ->
  serve_axon_error hotkey netuid ip port ip_type s <> None.
Proof using.
  cbn. intros Hb Hl Hr. unfold serve_axon_error. destruct (negb _); [done|]. destruct (negb _); [done|].
  destruct (if ip_type =? 4 then _ else _); [done|]. unfold axon_passes_rate_limit, sat_sub.
  rewrite (proj2 (Z.eqb_neq _ 0)) by lia. rewrite (proj2 (Z.eqb_neq (axon_block _) 0)) by lia.
  rewrite (proj2 (Z.leb_gt _ _)) by lia. done.
Qed.
End Serving.
