(* ===== verification/Symbols.v ===== *)
(** * Names and symbols of subnets (src/pallets/subtensor/src/subnets/symbols.rs)

    Two tables with an entry for each of the first 439 subnets: a name, which
    the owner's identity overrides, and the UTF-8 bytes of a token symbol. *)

From S2P Require Import Prelude Frame Storage.
From stdpp Require Import prelude gmap list fin_maps strings.
From Stdlib Require Import ZArith Lia.
#[local] Open Scope Z_scope.

(** The bytes of an ASCII string. *)
Fixpoint ascii_bytes (s : string) : Bytes :=
  match s with
  | EmptyString => []
  | String c s => Z.of_N (Ascii.N_of_ascii c) :: ascii_bytes s
  end.

#[local] Open Scope string_scope.
Definition subnet_names : list string :=
  ["root"; "apex"; "omron"; "templar"; "targon"; "kaito"; "infinite"; "subvortex"; "ptn";
   "pretrain"; "sturdy"; "dippy"; "horde"; "dataverse"; "palaidn"; "deval"; "bitads"; "3gen";
   "cortex"; "inference"; "bitagent"; "any-any"; "meta"; "social"; "omega"; "protein"; "alchemy";
   "compute"; "oracle"; "coldint"; "bet"; "naschain"; "itsai"; "ready"; "mind"; "logic";
   "automata"; "tuning"; "distributed"; "edge"; "chunk"; "sportsensor"; "masa"; "graphite";
   "score"; "gen42"; "neural"; "condense"; "nextplace"; "automl"; "audio"; "celium"; "dojo";
   "frontier"; "safescan"; "unknown"; "gradients"; "gaia"; "dippy-speach"; "agent-arena";
   "unknown"; "red team"; "agentao"; "lean-in"; "chutes"; "sad"; "dad"; "ta"; "dha"; "ain";
   "ghayn"; "fa"; "qaf"; "kaf"; "lam"; "mim"; "nun"; "ha"; "waw"; "ya"; "alef"; "fehu"; "uruz";
   "thurisaz"; "ansuz"; "raidho"; "kaunan"; "cyr_yeru"; "algiz"; "berkanan"; "ogham"; "beith";
   "luis"; "fearn"; "sail"; "nion"; "forfeda"; "ani"; "bani"; "gani"; "doni"; "eni"; "vini"; "ayp";
   "ben"; "gim"; "da"; "ech"; "za"; "armeni"; "grave"; "io"; "dje"; "gje"; "ie"; "dze";
   "hard_sign"; "alfa"; "alfas"; "vida"; "vida_small"; "gamma"; "gamma_small"; "brahmi_a";
   "brahmi_aa"; "brahmi_i"; "brahmi_ii"; "brahmi_u"; "la"; "va"; "sha"; "ssa"; "sa"; "ha";
   "glagolitic_az"; "glagolitic_buky"; "glagolitic_vede"; "glagolitic_glagoli"; "glagolitic_dobro";
   "glagolitic_yest"; "glagolitic_zhivete"; "glagolitic_zemlja"; "glagolitic_izhe";
   "glagolitic_initial_izhe"; "glagolitic_i"; "glagolitic_djerv"; "glagolitic_kako";
   "glagolitic_ljudije"; "glagolitic_myse"; "glagolitic_nash"; "glagolitic_on"; "glagolitic_pokoj";
   "glagolitic_rtsy"; "glagolitic_slovo"; "glagolitic_tvrido"; "glagolitic_uku"; "glagolitic_fert";
   "glagolitic_xrivi"; "glagolitic_ot"; "glagolitic_cy"; "glagolitic_shcha"; "glagolitic_er";
   "glagolitic_yeru"; "glagolitic_small_yer"; "glagolitic_yo"; "glagolitic_yu"; "glagolitic_ja";
   "thai_ko_kai"; "thai_kho_khai"; "thai_kho_khuat"; "thai_kho_khon"; "thai_kho_rakhang";
   "thai_kho_khwai"; "thai_ngo_ngu"; "thai_cho_chan"; "thai_cho_ching"; "thai_cho_chang";
   "thai_so_so"; "thai_cho_choe"; "thai_yo_ying"; "thai_do_chada"; "thai_to_patak";
   "thai_tho_than"; "thai_tho_nangmontho"; "thai_tho_phuthao"; "thai_no_nen"; "thai_do_dek";
   "thai_to_tao"; "thai_tho_thung"; "thai_tho_thahan"; "thai_tho_thong"; "thai_no_nu";
   "thai_bo_baimai"; "thai_po_pla"; "thai_pho_phung"; "thai_fo_fa"; "thai_pho_phan"; "thai_fo_fan";
   "thai_pho_samphao"; "thai_mo_ma"; "thai_yo_yak"; "thai_ro_rua"; "thai_lo_ling"; "thai_wo_waen";
   "thai_so_sala"; "thai_so_rusi"; "thai_so_sua"; "thai_ho_hip"; "thai_lo_chula"; "thai_o_ang";
   "thai_ho_nokhuk"; "hangul_giyeok"; "hangul_nieun"; "hangul_digeut"; "hangul_rieul";
   "hangul_mieum"; "hangul_bieup"; "hangul_siot"; "hangul_ieung"; "hangul_jieut"; "hangul_chieut";
   "hangul_kieuk"; "hangul_tieut"; "hangul_pieup"; "hangul_hieut"; "hangul_a"; "hangul_ae";
   "hangul_ya"; "hangul_yae"; "hangul_eo"; "hangul_e"; "hangul_yeo"; "hangul_ye"; "hangul_o";
   "hangul_wa"; "hangul_wae"; "hangul_oe"; "hangul_yo"; "hangul_u"; "hangul_weo"; "hangul_we";
   "hangul_wi"; "hangul_yu"; "hangul_eu"; "hangul_ui"; "hangul_i"; "ethiopic_glottal_a";
   "ethiopic_glottal_u"; "ethiopic_glottal_i"; "ethiopic_glottal_aa"; "ethiopic_glottal_e";
   "ethiopic_glottal_ie"; "ethiopic_glottal_o"; "ethiopic_glottal_wa"; "ethiopic_wa";
   "ethiopic_wu"; "ethiopic_wi"; "ethiopic_waa"; "ethiopic_we"; "ethiopic_wye"; "ethiopic_wo";
   "ethiopic_ko"; "ethiopic_ku"; "ethiopic_ki"; "ethiopic_kua"; "ethiopic_ke"; "ethiopic_kwe";
   "ethiopic_ko_alt"; "ethiopic_go"; "ethiopic_gu"; "ethiopic_gi"; "ethiopic_gua"; "ethiopic_ge";
   "ethiopic_gwe"; "ethiopic_go_alt"; "devanagari_a"; "devanagari_aa"; "devanagari_i";
   "devanagari_ii"; "devanagari_u"; "devanagari_uu"; "devanagari_r"; "devanagari_e";
   "devanagari_ai"; "devanagari_o"; "devanagari_au"; "devanagari_ka"; "devanagari_kha";
   "devanagari_ga"; "devanagari_gha"; "devanagari_nga"; "devanagari_cha"; "devanagari_chha";
   "devanagari_ja"; "devanagari_jha"; "devanagari_nya"; "devanagari_ta"; "devanagari_tha";
   "devanagari_da"; "devanagari_dha"; "devanagari_na"; "devanagari_ta_alt"; "devanagari_tha_alt";
   "devanagari_da_alt"; "devanagari_dha_alt"; "devanagari_na_alt"; "devanagari_pa";
   "devanagari_pha"; "devanagari_ba"; "devanagari_bha"; "devanagari_ma"; "devanagari_ya";
   "devanagari_ra"; "devanagari_la"; "devanagari_va"; "devanagari_sha"; "devanagari_ssa";
   "devanagari_sa"; "devanagari_ha"; "katakana_a"; "kana_i"; "kana_u"; "kana_e"; "kana_o";
   "kana_a"; "kana_ki"; "kana_ku"; "kana_ke"; "kana_ko"; "kana_sa"; "kana_shi"; "kana_su";
   "kana_se"; "kana_so"; "kana_ta"; "kana_chi"; "kana_tsu"; "kana_te"; "kana_to"; "kana_na";
   "kana_ni"; "kana_nu"; "kana_ne"; "kana_no"; "kana_ha"; "kana_hi"; "kana_fu"; "kana_he";
   "kana_ho"; "kana_ma"; "kana_mi"; "kana_mu"; "kana_me"; "kana_mo"; "kana_ya"; "kana_yu";
   "kana_yo"; "kana_ra"; "kana_ri"; "kana_ru"; "kana_re"; "kana_ro"; "kana_wa"; "kana_wo";
   "kana_n"; "ya"; "yab"; "yabh"; "yag"; "yagh"; "yaj"; "yach"; "yad"; "yadh"; "yadhe"; "yaz";
   "yazh"; "yaf"; "yak"; "yakv"; "yaq"; "yah"; "yahh"; "yahl"; "yahm"; "yayn"; "yakh"; "yakl";
   "yahq"; "yash"; "yi"; "yij"; "yizh"; "yink"; "yal"; "yam"; "yan"; "yang"; "yany"; "yap"; "yu";
   "a"; "aa"; "i"; "ii"; "u"; "uu"; "r"; "rr"; "l"; "ll"; "e"; "ee"; "ai"; "o"; "oo"; "au"; "ka";
   "kha"; "ga"; "gha"; "nga"; "cha"; "chha"; "ja"; "jha"; "nya"; "ta"; "tha"; "da"; "dha"; "na";
   "pa"; "pha"; "ba"; "bha"; "ma"; "ya"; "ra"].
#[local] Close Scope string_scope.
#[local] Open Scope Z_scope.

(** In order: Greek, Hebrew, Arabic, Runic, Ogham, Georgian, Armenian, Cyrillic,
    Coptic, Sinhala, Glagolitic, Thai, Hangul, Ethiopic, Devanagari, Katakana,
    Tifinagh and Sinhala again. *)
Definition subnet_symbols : list Bytes :=
  [[206;164]; [206;177]; [206;178]; [206;179]; [206;180]; [206;181]; [206;182]; [206;183];
   [206;184]; [206;185]; [206;186]; [206;187]; [206;188]; [206;189]; [206;190]; [206;191];
   [207;128]; [207;129]; [207;131]; [116]; [207;133]; [207;134]; [207;135]; [207;136]; [207;137];
   [215;144]; [215;145]; [215;146]; [215;147]; [215;148]; [215;149]; [215;150]; [215;151];
   [215;152]; [215;153]; [215;154]; [215;155]; [215;156]; [215;157]; [215;158]; [215;159];
   [215;160]; [215;161]; [215;162]; [215;163]; [215;164]; [215;165]; [215;166]; [215;167];
   [215;168]; [215;169]; [215;170]; [216;167]; [216;168]; [216;170]; [216;171]; [216;172];
   [216;173]; [216;174]; [216;175]; [216;176]; [216;177]; [216;178]; [216;179]; [216;180];
   [216;181]; [216;182]; [216;183]; [216;184]; [216;185]; [216;186]; [217;129]; [217;130];
   [217;131]; [217;132]; [217;133]; [217;134]; [217;135]; [217;136]; [217;138]; [217;137];
   [225;154;160]; [225;154;162]; [225;154;166]; [225;154;168]; [225;154;177]; [225;154;179];
   [208;171]; [225;155;137]; [225;155;146]; [225;154;128]; [225;154;129]; [225;154;130];
   [225;154;131]; [225;154;132]; [225;154;133]; [225;154;155]; [225;131;144]; [225;131;145];
   [225;131;146]; [225;131;147]; [225;131;148]; [225;131;149]; [212;177]; [212;178]; [212;179];
   [212;180]; [212;181]; [212;182]; [213;158]; [208;128]; [208;129]; [208;130]; [208;131];
   [208;132]; [208;133]; [209;138]; [226;178;128]; [226;178;129]; [226;178;130]; [226;178;131];
   [226;178;132]; [226;178;133]; [240;145;128;128]; [240;145;128;129]; [240;145;128;130];
   [240;145;128;131]; [240;145;128;133]; [224;182;177]; [224;182;178]; [224;182;179];
   [224;182;180]; [224;182;181]; [224;182;182]; [226;176;128]; [226;176;129]; [226;176;130];
   [226;176;131]; [226;176;132]; [226;176;133]; [226;176;134]; [226;176;135]; [226;176;136];
   [226;176;137]; [226;176;138]; [226;176;139]; [226;176;140]; [226;176;141]; [226;176;142];
   [226;176;143]; [226;176;144]; [226;176;145]; [226;176;146]; [226;176;147]; [226;176;148];
   [226;176;149]; [226;176;150]; [226;176;151]; [226;176;152]; [226;176;153]; [226;176;154];
   [226;176;155]; [226;176;156]; [226;176;157]; [226;176;158]; [226;176;159]; [226;176;160];
   [224;184;129]; [224;184;130]; [224;184;131]; [224;184;132]; [224;184;133]; [224;184;134];
   [224;184;135]; [224;184;136]; [224;184;137]; [224;184;138]; [224;184;139]; [224;184;140];
   [224;184;141]; [224;184;142]; [224;184;143]; [224;184;144]; [224;184;145]; [224;184;146];
   [224;184;147]; [224;184;148]; [224;184;149]; [224;184;150]; [224;184;151]; [224;184;152];
   [224;184;153]; [224;184;154]; [224;184;155]; [224;184;156]; [224;184;157]; [224;184;158];
   [224;184;159]; [224;184;160]; [224;184;161]; [224;184;162]; [224;184;163]; [224;184;165];
   [224;184;167]; [224;184;168]; [224;184;169]; [224;184;170]; [224;184;171]; [224;184;172];
   [224;184;173]; [224;184;174]; [225;132;128]; [225;132;129]; [225;132;130]; [225;132;131];
   [225;132;132]; [225;132;133]; [225;132;134]; [225;132;135]; [225;132;136]; [225;132;137];
   [225;132;138]; [225;132;139]; [225;132;140]; [225;132;141]; [225;133;161]; [225;133;162];
   [225;133;163]; [225;133;164]; [225;133;165]; [225;133;166]; [225;133;167]; [225;133;168];
   [225;133;169]; [225;133;170]; [225;133;171]; [225;133;172]; [225;133;173]; [225;133;174];
   [225;133;175]; [225;133;176]; [225;133;177]; [225;133;178]; [225;133;179]; [225;133;180];
   [225;133;181]; [225;138;160]; [225;138;161]; [225;138;162]; [225;138;163]; [225;138;164];
   [225;138;165]; [225;138;166]; [225;138;167]; [225;139;136]; [225;139;137]; [225;139;138];
   [225;139;139]; [225;139;140]; [225;139;141]; [225;139;142]; [225;138;176]; [225;138;177];
   [225;138;178]; [225;138;179]; [225;138;180]; [225;138;181]; [225;138;182]; [225;138;144];
   [225;138;145]; [225;138;146]; [225;138;147]; [225;138;148]; [225;138;149]; [225;138;150];
   [224;164;133]; [224;164;134]; [224;164;135]; [224;164;136]; [224;164;137]; [224;164;138];
   [224;164;139]; [224;164;143]; [224;164;144]; [224;164;147]; [224;164;148]; [224;164;149];
   [224;164;150]; [224;164;151]; [224;164;152]; [224;164;153]; [224;164;154]; [224;164;155];
   [224;164;156]; [224;164;157]; [224;164;158]; [224;164;159]; [224;164;160]; [224;164;161];
   [224;164;162]; [224;164;163]; [224;164;164]; [224;164;165]; [224;164;166]; [224;164;167];
   [224;164;168]; [224;164;170]; [224;164;171]; [224;164;172]; [224;164;173]; [224;164;174];
   [224;164;175]; [224;164;176]; [224;164;178]; [224;164;181]; [224;164;182]; [224;164;183];
   [224;164;184]; [224;164;185]; [227;130;162]; [227;130;164]; [227;130;166]; [227;130;168];
   [227;130;170]; [227;130;171]; [227;130;173]; [227;130;175]; [227;130;177]; [227;130;179];
   [227;130;181]; [227;130;183]; [227;130;185]; [227;130;187]; [227;130;189]; [227;130;191];
   [227;131;129]; [227;131;132]; [227;131;134]; [227;131;136]; [227;131;138]; [227;131;139];
   [227;131;140]; [227;131;141]; [227;131;142]; [227;131;143]; [227;131;146]; [227;131;149];
   [227;131;152]; [227;131;155]; [227;131;158]; [227;131;159]; [227;131;160]; [227;131;161];
   [227;131;162]; [227;131;164]; [227;131;166]; [227;131;168]; [227;131;169]; [227;131;170];
   [227;131;171]; [227;131;172]; [227;131;173]; [227;131;175]; [227;131;178]; [227;131;179];
   [226;180;176]; [226;180;177]; [226;180;178]; [226;180;179]; [226;180;180]; [226;180;181];
   [226;180;182]; [226;180;183]; [226;180;184]; [226;180;185]; [226;180;186]; [226;180;187];
   [226;180;188]; [226;180;189]; [226;180;190]; [226;180;191]; [226;181;128]; [226;181;129];
   [226;181;130]; [226;181;131]; [226;181;132]; [226;181;133]; [226;181;134]; [226;181;135];
   [226;181;136]; [226;181;137]; [226;181;138]; [226;181;139]; [226;181;140]; [226;181;141];
   [226;181;142]; [226;181;143]; [226;181;144]; [226;181;145]; [226;181;146]; [226;181;147];
   [224;182;133]; [224;182;134]; [224;182;135]; [224;182;136]; [224;182;137]; [224;182;138];
   [224;182;139]; [224;182;140]; [224;182;143]; [224;182;144]; [224;182;145]; [224;182;146];
   [224;182;147]; [224;182;148]; [224;182;149]; [224;182;150]; [224;182;154]; [224;182;155];
   [224;182;156]; [224;182;157]; [224;182;158]; [224;182;159]; [224;182;160]; [224;182;161];
   [224;182;162]; [224;182;163]; [224;182;164]; [224;182;165]; [224;182;166]; [224;182;167];
   [224;182;168]; [224;182;170]; [224;182;171]; [224;182;172]; [224;182;173]; [224;182;174];
   [224;182;175]; [224;182;176]].

Section Symbols.
Context {FS : FrameSystem} {W : Type}.
Abbreviation St := (Storage W).

Definition get_name_for_subnet (netuid : Z) (s : St) : Bytes :=
  let table := default (ascii_bytes "unknown"%string) (ascii_bytes <$> subnet_names !! Z.to_nat netuid) in
  match SubnetIdentitiesV3 s !! netuid with
  | Some identity =>
      if bool_decide (si_subnet_name identity = []) then table else si_subnet_name identity
  | None => table
  end.

Definition get_symbol_for_subnet (netuid : Z) : Bytes :=
  default [206; 164] (subnet_symbols !! Z.to_nat netuid).
End Symbols.

(** ** Symbols are single code points, and different *)

(** The code point a UTF-8 byte string encodes, if it encodes exactly one. *)
Definition continuation (b : Z) : bool := (128 <=? b) && (b <? 192).
Definition code_point (b : Bytes) : option Z :=
  match b with
  | [x] => if (0 <=? x) && (x <? 128) then Some x else None
  | [x; y] =>
      if (194 <=? x) && (x <? 224) && continuation y then Some ((x - 192) * 64 + (y - 128)) else None
  | [x; y; z] =>
      let c := (x - 224) * 4096 + (y - 128) * 64 + (z - 128) in
      if (224 <=? x) && (x <? 240) && continuation y && continuation z
         && (2048 <=? c) && negb ((55296 <=? c) && (c <? 57344)) then Some c else None
  | [x; y; z; w] =>
      let c := (x - 240) * 262144 + (y - 128) * 4096 + (z - 128) * 64 + (w - 128) in
      if (240 <=? x) && (x <? 248) && continuation y && continuation z && continuation w
         && (65536 <=? c) && (c <? 1114112) then Some c else None
  | _ => None
  end.

Lemma symbols_distinct : NoDup subnet_symbols.
Proof. refine (bool_decide_unpack _ _). vm_compute. exact I. Qed.

Lemma symbols_unicode : Forall (fun b => is_Some (code_point b)) subnet_symbols.
Proof. refine (bool_decide_unpack _ _). vm_compute. exact I. Qed.

(** Each subnet below 439 has a symbol of its own, and all the others have the
    symbol of the root network. *)
Theorem subnet_symbols_identify (n m : Z) : 0 <= n -> 0 <= m -> n <> m ->
  is_Some (code_point (get_symbol_for_subnet n)) /\
  (get_symbol_for_subnet n = get_symbol_for_subnet m <->
     (n = 0 \/ 439 <= n) /\ (m = 0 \/ 439 <= m)).
Proof.
  intros Hn Hm Hne. unfold get_symbol_for_subnet.
  assert (Hlen : length subnet_symbols = 439%nat) by reflexivity.
  assert (H0 : subnet_symbols !! 0%nat = Some [206; 164]) by reflexivity.
  assert (Hin : forall k, 0 <= k -> k < 439 -> is_Some (subnet_symbols !! Z.to_nat k))
    by (intros k ? ?; apply lookup_lt_is_Some_2; lia).
  assert (Hout : forall k, 439 <= k -> subnet_symbols !! Z.to_nat k = None)
    by (intros k ?; apply lookup_ge_None_2; lia).
  assert (Hinj : forall i j b, subnet_symbols !! i = Some b -> subnet_symbols !! j = Some b -> i = j)
    by (intros i j b; apply NoDup_lookup, symbols_distinct).
  split.
  { destruct (Z.lt_ge_cases n 439) as [Hl|Hl]; [|rewrite Hout by done; by eexists].
    destruct (Hin n Hn Hl) as [b Hb]. rewrite Hb. cbn. exact (Forall_lookup_1 _ _ _ _ symbols_unicode Hb). }
  destruct (Z.lt_ge_cases n 439) as [Hn'|Hn'], (Z.lt_ge_cases m 439) as [Hm'|Hm'].
  - destruct (Hin n Hn Hn') as [b Hb], (Hin m Hm Hm') as [c Hc]. rewrite Hb, Hc. cbn. split; [|lia].
    intros ->. pose proof (Hinj _ _ _ Hb Hc). lia.
  - destruct (Hin n Hn Hn') as [b Hb]. rewrite Hb, (Hout m) by done. cbn. split; [|intros [[->|?] _]; [|lia]].
    + intros ->. pose proof (Hinj _ _ _ Hb H0). lia.
    + change (Z.to_nat 0) with 0%nat in Hb. congruence.
  - destruct (Hin m Hm Hm') as [c Hc]. rewrite Hc, (Hout n) by done. cbn. split; [|intros [_ [->|?]]; [|lia]].
    + intros <-. pose proof (Hinj _ _ _ Hc H0). lia.
    + change (Z.to_nat 0) with 0%nat in Hc. congruence.
  - rewrite !Hout by done. split; [lia|done].
Qed.
