(* ===== verification/Reserves.v ===== *)
(** * Subnet reserves and swaps

    The reserves of TAO and alpha a subnet's pool trades against, and the two
    swap functions of src/pallets/subtensor/src/staking/stake_utils.rs. The
    pool itself is seen through the [SwapHandler] trait of
    src/pallets/swap-interface/src/lib.rs. *)

From S2P Require Import Prelude Frame Storage Misc.
From stdpp Require Import prelude gmap list fin_maps.
From Stdlib Require Import ZArith Lia.
#[local] Open Scope Z_scope.
#[local] Open Scope monad_scope.

(** ** The swap interface *)

Inductive OrderType : Type := Sell | Buy.

Record SwapResult : Type := mkSwapResult {
  amount_paid_in : Z;
  amount_paid_out : Z;
  fee_paid : Z;
  tao_reserve_delta : Z;
  alpha_reserve_delta : Z;
}.

(** The part of [SwapHandler] the pallet calls here. A swap may read the whole
    storage (the pool asks the pallet for its reserves) and changes the state
    of the swap pallet, which is part of the world. *)
Class SwapHandler {FS : FrameSystem} (W : Type) := {
  swap : Storage W -> Z -> OrderType -> Z -> Z -> bool -> result DispatchError (SwapResult * W);
  sim_swap : Storage W -> Z -> OrderType -> Z -> result DispatchError SwapResult;
  approx_fee_amount : Storage W -> Z -> Z -> Z;
  (** the bits of a [U96F32] *)
  current_alpha_price : Storage W -> Z -> Z;
  max_price : Z;
  min_price : Z;
  adjust_protocol_liquidity : Storage W -> Z -> Z -> Z -> W;
}.

Section Reserves.
Context {FS : FrameSystem} {Cfg : SubtensorConfig} {W : Type} {SW : SwapHandler W}.
Abbreviation St := (Storage W).
Implicit Types s : St.

Definition tao_reserve (netuid : Z) (s : St) : Z :=
  sat_add U64_MAX (get_net NetNum.SubnetTAO netuid s) (get_net NetNum.SubnetTaoProvided netuid s).
Definition alpha_reserve (netuid : Z) (s : St) : Z :=
  sat_add U64_MAX (get_net NetNum.SubnetAlphaIn netuid s)
    (get_net NetNum.SubnetAlphaInProvided netuid s).
Definition get_alpha_issuance (netuid : Z) (s : St) : Z :=
  sat_add U64_MAX (get_net NetNum.SubnetAlphaIn netuid s) (get_net NetNum.SubnetAlphaOut netuid s).

Definition increase_provided_tao_reserve (netuid tao : Z) (s : St) : St :=
  mutate_net NetNum.SubnetTaoProvided netuid (fun total => sat_add U64_MAX total tao) s.

Definition decrease_provided_tao_reserve (netuid tao : Z) (s : St) : St :=
  let subnet_tao := get_net NetNum.SubnetTAO netuid s in
  let subnet_tao_provided := get_net NetNum.SubnetTaoProvided netuid s in
  let remainder := sat_sub subnet_tao_provided tao in
  let carry_over := sat_sub tao subnet_tao_provided in
  if carry_over =? 0 then put_net NetNum.SubnetTaoProvided netuid remainder s
  else
    put_net NetNum.SubnetTAO netuid (sat_sub subnet_tao carry_over)
      (put_net NetNum.SubnetTaoProvided netuid 0 s).

Definition increase_provided_alpha_reserve (netuid alpha : Z) (s : St) : St :=
  mutate_net NetNum.SubnetAlphaInProvided netuid (fun total => sat_add U64_MAX total alpha) s.

Definition decrease_provided_alpha_reserve (netuid alpha : Z) (s : St) : St :=
  let subnet_alpha := get_net NetNum.SubnetAlphaIn netuid s in
  let subnet_alpha_provided := get_net NetNum.SubnetAlphaInProvided netuid s in
  let remainder := sat_sub subnet_alpha_provided alpha in
  let carry_over := sat_sub alpha subnet_alpha_provided in
  if carry_over =? 0 then put_net NetNum.SubnetAlphaInProvided netuid remainder s
  else
    put_net NetNum.SubnetAlphaIn netuid (sat_sub subnet_alpha carry_over)
      (put_net NetNum.SubnetAlphaInProvided netuid 0 s).

(** [x.abs().try_into().unwrap_or(0)] from [i64] to [u64]: the absolute value of
    the least [i64] wraps to itself and does not convert. *)
Definition abs_as_u64 (x : Z) : Z := if x =? I64_MIN then 0 else Z.abs x.
(** [x as u64] of an [i64] *)
Definition as_u64 (x : Z) : Z := x mod 2 ^ 64.

Definition swap_tao_for_alpha (netuid tao price_limit : Z) : Pm W SwapResult :=
  let* mechanism_id := gets (get_net NetNum.SubnetMechanism netuid) in
  if mechanism_id =? 1 then
    let* s := gets id in
    let* (swap_result, w) := ext (swap s netuid Buy tao price_limit false) in
    modify (fun s => s <| world := w |>) ;;
    modify (decrease_provided_alpha_reserve netuid (abs_as_u64 (alpha_reserve_delta swap_result))) ;;
    modify (mutate_net NetNum.SubnetAlphaOut netuid
      (fun total => sat_add U64_MAX total (amount_paid_out swap_result))) ;;
    modify (mutate_net NetNum.SubnetTAO netuid
      (fun total => sat_add U64_MAX total (as_u64 (tao_reserve_delta swap_result)))) ;;
    modify (mutate_value Value.TotalStake (fun total => sat_add U64_MAX total tao)) ;;
    modify (mutate_net NetNum.SubnetVolume netuid (fun total => sat_add U128_MAX total tao)) ;;
    ret swap_result
  else ret (mkSwapResult tao tao 0 0 0).

Definition swap_alpha_for_tao (netuid alpha price_limit : Z) : Pm W SwapResult :=
  let* mechanism_id := gets (get_net NetNum.SubnetMechanism netuid) in
  if mechanism_id =? 1 then
    let* s := gets id in
    let* (swap_result, w) := ext (swap s netuid Sell alpha price_limit false) in
    modify (fun s => s <| world := w |>) ;;
    modify (mutate_net NetNum.SubnetAlphaIn netuid
      (fun total => sat_add U64_MAX total (as_u64 (alpha_reserve_delta swap_result)))) ;;
    modify (mutate_net NetNum.SubnetAlphaOut netuid
      (fun total => sat_sub total (as_u64 (alpha_reserve_delta swap_result)))) ;;
    modify (decrease_provided_tao_reserve netuid (abs_as_u64 (tao_reserve_delta swap_result))) ;;
    modify (mutate_value Value.TotalStake
      (fun total => sat_sub total (amount_paid_out swap_result))) ;;
    modify (mutate_net NetNum.SubnetVolume netuid
      (fun total => sat_add U128_MAX total (amount_paid_out swap_result))) ;;
    ret swap_result
  else ret (mkSwapResult alpha alpha 0 0 0).

(** ** Correctness *)

(** The reserves are u64 values whose sum is one too. *)
Record reserves_ok (n : Z) (s : St) : Prop := {
  ro_tao : 0 <= get_net NetNum.SubnetTAO n s;
  ro_tao_provided : 0 <= get_net NetNum.SubnetTaoProvided n s;
  ro_alpha : 0 <= get_net NetNum.SubnetAlphaIn n s;
  ro_alpha_provided : 0 <= get_net NetNum.SubnetAlphaInProvided n s;
  ro_tao_sum : get_net NetNum.SubnetTAO n s + get_net NetNum.SubnetTaoProvided n s <= U64_MAX;
  ro_alpha_sum : get_net NetNum.SubnetAlphaIn n s + get_net NetNum.SubnetAlphaInProvided n s <= U64_MAX;
}.

Ltac dec_cases := unfold sat_sub;
  match goal with |- context [?a =? ?b] => destruct (Z.eqb_spec a b) end.

Lemma decrease_tao_sum n t s : reserves_ok n s ->
  0 <= t <= get_net NetNum.SubnetTAO n s + get_net NetNum.SubnetTaoProvided n s ->
  let s' := decrease_provided_tao_reserve n t s in
  0 <= get_net NetNum.SubnetTAO n s' /\ 0 <= get_net NetNum.SubnetTaoProvided n s' /\
  get_net NetNum.SubnetTAO n s' + get_net NetNum.SubnetTaoProvided n s' =
  get_net NetNum.SubnetTAO n s + get_net NetNum.SubnetTaoProvided n s - t.
Proof.
  intros [] Ht s'. unfold s', decrease_provided_tao_reserve. dec_cases; st_read; lia.
Qed.

Lemma decrease_alpha_sum n t s : reserves_ok n s ->
  0 <= t <= get_net NetNum.SubnetAlphaIn n s + get_net NetNum.SubnetAlphaInProvided n s ->
  let s' := decrease_provided_alpha_reserve n t s in
  0 <= get_net NetNum.SubnetAlphaIn n s' /\ 0 <= get_net NetNum.SubnetAlphaInProvided n s' /\
  get_net NetNum.SubnetAlphaIn n s' + get_net NetNum.SubnetAlphaInProvided n s' =
  get_net NetNum.SubnetAlphaIn n s + get_net NetNum.SubnetAlphaInProvided n s - t.
Proof.
  intros [] Ht s'. unfold s', decrease_provided_alpha_reserve. dec_cases; st_read; lia.
Qed.

Lemma decrease_tao_other i m n t s : i <> NetNum.SubnetTAO -> i <> NetNum.SubnetTaoProvided ->
  get_net i m (decrease_provided_tao_reserve n t s) = get_net i m s.
Proof. intros H1 H2. unfold decrease_provided_tao_reserve. dec_cases; st_read; done. Qed.

Lemma decrease_alpha_other i m n t s : i <> NetNum.SubnetAlphaIn -> i <> NetNum.SubnetAlphaInProvided ->
  get_net i m (decrease_provided_alpha_reserve n t s) = get_net i m s.
Proof. intros H1 H2. unfold decrease_provided_alpha_reserve. dec_cases; st_read; done. Qed.

Lemma decrease_tao_net i m n t s : m <> n ->
  get_net i m (decrease_provided_tao_reserve n t s) = get_net i m s.
Proof.
  intros H. unfold decrease_provided_tao_reserve. dec_cases; autorewrite with storage;
    rewrite !decide_False by naive_solver; done.
Qed.
Lemma decrease_alpha_net i m n t s : m <> n ->
  get_net i m (decrease_provided_alpha_reserve n t s) = get_net i m s.
Proof.
  intros H. unfold decrease_provided_alpha_reserve. dec_cases; autorewrite with storage;
    rewrite !decide_False by naive_solver; done.
Qed.

(** [decrease_provided_*] writes only subnet numbers. *)
Lemma decrease_tao_value i n t s : get_value i (decrease_provided_tao_reserve n t s) = get_value i s.
Proof. unfold decrease_provided_tao_reserve. by dec_cases. Qed.
Lemma decrease_alpha_value i n t s : get_value i (decrease_provided_alpha_reserve n t s) = get_value i s.
Proof. unfold decrease_provided_alpha_reserve. by dec_cases. Qed.

Lemma tao_reserve_sum n s : reserves_ok n s ->
  tao_reserve n s = get_net NetNum.SubnetTAO n s + get_net NetNum.SubnetTaoProvided n s.
Proof. intros []. unfold tao_reserve, sat_add. lia. Qed.
Lemma alpha_reserve_sum n s : reserves_ok n s ->
  alpha_reserve n s = get_net NetNum.SubnetAlphaIn n s + get_net NetNum.SubnetAlphaInProvided n s.
Proof. intros []. unfold alpha_reserve, sat_add. lia. Qed.

Lemma abs_as_u64_nonpos x : I64_MIN < x <= 0 -> abs_as_u64 x = - x.
Proof. unfold abs_as_u64. destruct (Z.eqb_spec x I64_MIN); lia. Qed.
Lemma as_u64_nonneg x : 0 <= x <= I64_MAX -> as_u64 x = x.
Proof. intros H. unfold as_u64. apply Z.mod_small. lia. Qed.

(** The storage a swap leaves behind. *)
Definition after_buy (n tao : Z) (r : SwapResult) (w : W) (s : St) : St :=
  mutate_net NetNum.SubnetVolume n (fun total => sat_add U128_MAX total tao)
  (mutate_value Value.TotalStake (fun total => sat_add U64_MAX total tao)
  (mutate_net NetNum.SubnetTAO n (fun total => sat_add U64_MAX total (as_u64 (tao_reserve_delta r)))
  (mutate_net NetNum.SubnetAlphaOut n (fun total => sat_add U64_MAX total (amount_paid_out r))
  (decrease_provided_alpha_reserve n (abs_as_u64 (alpha_reserve_delta r)) (s <| world := w |>))))).

Definition after_sell (n : Z) (r : SwapResult) (w : W) (s : St) : St :=
  mutate_net NetNum.SubnetVolume n (fun total => sat_add U128_MAX total (amount_paid_out r))
  (mutate_value Value.TotalStake (fun total => sat_sub total (amount_paid_out r))
  (decrease_provided_tao_reserve n (abs_as_u64 (tao_reserve_delta r))
  (mutate_net NetNum.SubnetAlphaOut n (fun total => sat_sub total (as_u64 (alpha_reserve_delta r)))
  (mutate_net NetNum.SubnetAlphaIn n (fun total => sat_add U64_MAX total (as_u64 (alpha_reserve_delta r)))
  (s <| world := w |>))))).

Lemma swap_tao_for_alpha_ok n tao limit s r s' :
  get_net NetNum.SubnetMechanism n s = 1 -> swap_tao_for_alpha n tao limit s = Ok (r, s') ->
  exists w, swap s n Buy tao limit false = Ok (r, w) /\ s' = after_buy n tao r w s.
Proof.
  intros Hm H. unfold swap_tao_for_alpha in H.
  apply bind_ok in H as (? & ? & [= -> ->]%gets_ok & H). rewrite Hm in H.
  change (1 =? 1) with true in H. monad_inv H. eauto.
Qed.

Lemma swap_alpha_for_tao_ok n alpha limit s r s' :
  get_net NetNum.SubnetMechanism n s = 1 -> swap_alpha_for_tao n alpha limit s = Ok (r, s') ->
  exists w, swap s n Sell alpha limit false = Ok (r, w) /\ s' = after_sell n r w s.
Proof.
  intros Hm H. unfold swap_alpha_for_tao in H.
  apply bind_ok in H as (? & ? & [= -> ->]%gets_ok & H). rewrite Hm in H.
  change (1 =? 1) with true in H. monad_inv H. eauto.
Qed.

Lemma after_buy_other n tao r w s m : m <> n ->
  tao_reserve m (after_buy n tao r w s) = tao_reserve m s /\
  alpha_reserve m (after_buy n tao r w s) = alpha_reserve m s.
Proof.
  intros Hm. unfold tao_reserve, alpha_reserve, after_buy.
  split; repeat (st_frame; rewrite ?get_mutate_net, ?decide_False, ?decrease_alpha_net by naive_solver);
    done.
Qed.

Lemma after_sell_other n r w s m : m <> n ->
  tao_reserve m (after_sell n r w s) = tao_reserve m s /\
  alpha_reserve m (after_sell n r w s) = alpha_reserve m s.
Proof.
  intros Hm. unfold tao_reserve, alpha_reserve, after_sell.
  split; repeat (st_frame; rewrite ?get_mutate_net, ?decide_False, ?decrease_tao_net by naive_solver);
    done.
Qed.

Lemma reserves_ok_world n s w : reserves_ok n s -> reserves_ok n (s <| world := w |>).
Proof. by intros []. Qed.

(** The items a swap writes, after it. *)
Ltac swap_read := repeat (st_read; rewrite ?decrease_alpha_other, ?decrease_tao_other,
  ?decrease_alpha_value, ?decrease_tao_value by done).

Lemma after_buy_items n tao r w s :
  let s1 := decrease_provided_alpha_reserve n (abs_as_u64 (alpha_reserve_delta r)) (s <| world := w |>) in
  let s' := after_buy n tao r w s in
  get_net NetNum.SubnetTAO n s' = sat_add U64_MAX (get_net NetNum.SubnetTAO n s) (as_u64 (tao_reserve_delta r)) /\
  get_net NetNum.SubnetTaoProvided n s' = get_net NetNum.SubnetTaoProvided n s /\
  get_net NetNum.SubnetAlphaIn n s' = get_net NetNum.SubnetAlphaIn n s1 /\
  get_net NetNum.SubnetAlphaInProvided n s' = get_net NetNum.SubnetAlphaInProvided n s1 /\
  get_net NetNum.SubnetAlphaOut n s' = sat_add U64_MAX (get_net NetNum.SubnetAlphaOut n s) (amount_paid_out r) /\
  get_value Value.TotalStake s' = sat_add U64_MAX (get_value Value.TotalStake s) tao.
Proof. intros s1 s'. unfold s', after_buy. fold s1. split_and!; swap_read; unfold s1; swap_read; done. Qed.

(** Buying alpha on a dynamic subnet moves the pool's reserves by exactly
    the deltas the swap reports, split over protocol and provided liquidity in
    whatever way: the TAO reserve grows by [tao_reserve_delta], the alpha
    reserve shrinks by [-alpha_reserve_delta], the alpha paid out is added to
    the outstanding alpha and the TAO paid to [TotalStake]. The reserves of
    every other subnet stay as they are. *)
Theorem buy_moves_reserves (n tao limit : Z) (s : St) (r : SwapResult) (s' : St) :
  reserves_ok n s -> get_net NetNum.SubnetMechanism n s = 1 ->
  swap_tao_for_alpha n tao limit s = Ok (r, s') ->
  I64_MIN < alpha_reserve_delta r <= 0 -> 0 <= alpha_reserve n s + alpha_reserve_delta r ->
  0 <= tao_reserve_delta r <= I64_MAX -> tao_reserve n s + tao_reserve_delta r <= U64_MAX ->
  reserves_ok n s' /\
  tao_reserve n s' = tao_reserve n s + tao_reserve_delta r /\
  alpha_reserve n s' = alpha_reserve n s + alpha_reserve_delta r /\
  get_net NetNum.SubnetAlphaOut n s' =
    sat_add U64_MAX (get_net NetNum.SubnetAlphaOut n s) (amount_paid_out r) /\
  get_value Value.TotalStake s' = sat_add U64_MAX (get_value Value.TotalStake s) tao /\
  (forall m, m <> n -> tao_reserve m s' = tao_reserve m s /\ alpha_reserve m s' = alpha_reserve m s).
Proof.
  intros Hok Hmech H Ha Ha' Ht Ht'.
  destruct (swap_tao_for_alpha_ok _ _ _ _ _ _ Hmech H) as (w & _ & ->). clear H Hmech.
  destruct (after_buy_items n tao r w s) as (E1 & E2 & E3 & E4 & E5 & E6).
  rewrite tao_reserve_sum, alpha_reserve_sum in * by done.
  rewrite as_u64_nonneg, sat_add_le in E1 by (destruct Hok; lia).
  destruct (decrease_alpha_sum n (abs_as_u64 (alpha_reserve_delta r)) (s <| world := w |>)
    (reserves_ok_world _ _ _ Hok)) as (D1 & D2 & D3).
  { rewrite abs_as_u64_nonpos by done. st_frame. lia. }
  rewrite <- E3 in D1, D3. rewrite <- E4 in D2, D3.
  rewrite abs_as_u64_nonpos in D3 by done.
  assert (reserves_ok n (after_buy n tao r w s)) as Hok'.
  { destruct Hok. split; rewrite ?E1, ?E2, ?D3; st_frame; lia. }
  split; [done|]. rewrite !tao_reserve_sum, !alpha_reserve_sum, E1, E2, D3 by done.
  split; [lia|]. split; [st_frame; lia|]. split; [done|]. split; [done|].
  intros m Hm. by apply after_buy_other.
Qed.

Lemma after_sell_items n r w s :
  let s0 := mutate_net NetNum.SubnetAlphaOut n (fun total => sat_sub total (as_u64 (alpha_reserve_delta r)))
    (mutate_net NetNum.SubnetAlphaIn n (fun total => sat_add U64_MAX total (as_u64 (alpha_reserve_delta r)))
    (s <| world := w |>)) in
  let s1 := decrease_provided_tao_reserve n (abs_as_u64 (tao_reserve_delta r)) s0 in
  let s' := after_sell n r w s in
  get_net NetNum.SubnetAlphaIn n s' =
    sat_add U64_MAX (get_net NetNum.SubnetAlphaIn n s) (as_u64 (alpha_reserve_delta r)) /\
  get_net NetNum.SubnetAlphaInProvided n s' = get_net NetNum.SubnetAlphaInProvided n s /\
  get_net NetNum.SubnetTAO n s' = get_net NetNum.SubnetTAO n s1 /\
  get_net NetNum.SubnetTaoProvided n s' = get_net NetNum.SubnetTaoProvided n s1 /\
  get_net NetNum.SubnetTAO n s0 = get_net NetNum.SubnetTAO n s /\
  get_net NetNum.SubnetTaoProvided n s0 = get_net NetNum.SubnetTaoProvided n s /\
  get_net NetNum.SubnetAlphaOut n s' =
    sat_sub (get_net NetNum.SubnetAlphaOut n s) (as_u64 (alpha_reserve_delta r)) /\
  get_value Value.TotalStake s' = sat_sub (get_value Value.TotalStake s) (amount_paid_out r) /\
  (reserves_ok n s -> as_u64 (alpha_reserve_delta r) + get_net NetNum.SubnetAlphaIn n s +
     get_net NetNum.SubnetAlphaInProvided n s <= U64_MAX -> reserves_ok n s0).
Proof.
  intros s0 s1 s'. unfold s', after_sell. fold s0. fold s1.
  split_and!; [swap_read; unfold s1; swap_read; unfold s0; swap_read; done..|].
  assert (0 <= as_u64 (alpha_reserve_delta r)) by (apply Z.mod_pos_bound; lia).
  intros [] Hle. split; unfold s0; swap_read; unfold sat_add; lia.
Qed.

(** Selling alpha on a dynamic subnet is the mirror image: the alpha
    reserve grows by [alpha_reserve_delta], the TAO reserve shrinks by
    [-tao_reserve_delta], the alpha sold leaves the outstanding alpha and the
    TAO paid out leaves [TotalStake]; other subnets are untouched. *)
Theorem sell_moves_reserves (n alpha limit : Z) (s : St) (r : SwapResult) (s' : St) :
  reserves_ok n s -> get_net NetNum.SubnetMechanism n s = 1 ->
  swap_alpha_for_tao n alpha limit s = Ok (r, s') ->
  I64_MIN < tao_reserve_delta r <= 0 -> 0 <= tao_reserve n s + tao_reserve_delta r ->
  0 <= alpha_reserve_delta r <= I64_MAX -> alpha_reserve n s + alpha_reserve_delta r <= U64_MAX ->
  reserves_ok n s' /\
  tao_reserve n s' = tao_reserve n s + tao_reserve_delta r /\
  alpha_reserve n s' = alpha_reserve n s + alpha_reserve_delta r /\
  get_net NetNum.SubnetAlphaOut n s' =
    sat_sub (get_net NetNum.SubnetAlphaOut n s) (alpha_reserve_delta r) /\
  get_value Value.TotalStake s' = sat_sub (get_value Value.TotalStake s) (amount_paid_out r) /\
  (forall m, m <> n -> tao_reserve m s' = tao_reserve m s /\ alpha_reserve m s' = alpha_reserve m s).
Proof.
  intros Hok Hmech H Ht Ht' Ha Ha'.
  destruct (swap_alpha_for_tao_ok _ _ _ _ _ _ Hmech H) as (w & _ & ->). clear H Hmech.
  destruct (after_sell_items n r w s) as (E1 & E2 & E3 & E4 & E5 & E6 & E7 & E8 & E9).
  rewrite tao_reserve_sum, alpha_reserve_sum in * by done.
  rewrite as_u64_nonneg in E1, E7 by lia.
  specialize (E9 Hok ltac:(rewrite as_u64_nonneg by lia; lia)). rewrite sat_add_le in E1 by (destruct Hok; lia).
  destruct (decrease_tao_sum n (abs_as_u64 (tao_reserve_delta r)) _ E9) as (D1 & D2 & D3).
  { rewrite abs_as_u64_nonpos, E5, E6 by done. lia. }
  rewrite <- E3 in D1, D3. rewrite <- E4 in D2, D3. rewrite E5, E6, abs_as_u64_nonpos in D3 by done.
  assert (reserves_ok n (after_sell n r w s)) as Hok'.
  { destruct Hok. split; rewrite ?E1, ?E2, ?D3; lia. }
  split; [done|]. rewrite !tao_reserve_sum, !alpha_reserve_sum, E1, E2, D3 by done.
  split; [lia|]. split; [lia|]. split; [done|]. split; [done|].
  intros m Hm. by apply after_sell_other.
Qed.
End Reserves.
