(* ===== verification/SwapPool.v ===== *)
(** * The liquidity of the swap pallet (src/pallets/swap)

    The pallet keeps a pool of concentrated liquidity for every subnet. This file
    holds its storage and configuration (src/pallets/swap/src/pallet/mod.rs), the
    positions (src/pallets/swap/src/position.rs) and the operations on ticks and
    positions (src/pallets/swap/src/pallet/impls.rs): opening the pool of a
    subnet, adding, removing and modifying liquidity. Fixed-point numbers are
    their bits; square roots of prices are [U64F64]. *)

From S2P Require Import Prelude Frame Fixed SharePool Tick TickMath.
From stdpp Require Import prelude gmap list fin_maps.
From Stdlib Require Import ZArith Lia.
#[local] Open Scope Z_scope.
#[local] Open Scope monad_scope.

(** ** What the pallet is built on *)

(** Functions of [substrate_fixed] and [sp_arithmetic] only this pallet calls:
    a saturating quotient, rounding, and the integer square root of a [u128]. *)
Class SwapFixed := {
  saturating_div : FixTy -> Z -> Z -> Z;
  saturating_round : FixTy -> Z -> Z;
  sqrt128 : Z -> Z;
}.
Class SwapFixedLaws {SF : SwapFixed} := {
  sqrt128_range : forall n, in_type u128 n -> in_type u64 (sqrt128 n);
}.

(** [Config] *)
Class SwapConfig {FS : FrameSystem} := {
  ProtocolId : AccountId;  (* into_account_truncating *)
  MaxFeeRate : Z;
  MaxPositions : Z;
  MinimumLiquidity : Z;
  MinimumReserve : Z;
}.

(** [SubnetInfo] and [BalanceOps] (src/common/src/lib.rs), which the subtensor
    pallet implements: what the pallet sees of the subnets, and the accounts it
    moves balances and stake on, as a view on the world [W] around it. *)
Class SubnetInfo {FS : FrameSystem} (W : Type) := {
  tao_reserve : W -> Z -> Z;
  alpha_reserve : W -> Z -> Z;
  exists_ : W -> Z -> bool;
  mechanism : W -> Z -> Z;
  is_owner : W -> AccountId -> Z -> bool;
}.
Class BalanceOps {FS : FrameSystem} (W : Type) := {
  tao_balance : W -> AccountId -> Z;
  alpha_balance : W -> Z -> AccountId -> AccountId -> Z;
  increase_balance : W -> AccountId -> Z -> W;
  decrease_balance : W -> AccountId -> Z -> result DispatchError (Z * W);
  increase_stake : W -> AccountId -> AccountId -> Z -> Z -> result DispatchError W;
  decrease_stake : W -> AccountId -> AccountId -> Z -> Z -> result DispatchError (Z * W);
  increase_provided_tao_reserve : W -> Z -> Z -> W;
  decrease_provided_tao_reserve : W -> Z -> Z -> W;
  increase_provided_alpha_reserve : W -> Z -> Z -> W;
  decrease_provided_alpha_reserve : W -> Z -> Z -> W;
}.

(** ** Data *)

Record Tick := mkTick {
  liquidity_net : Z;     (* i128 *)
  liquidity_gross : Z;   (* u64 *)
  fees_out_tao : Z;      (* I64F64 *)
  fees_out_alpha : Z;
}.
#[export] Instance Tick_eta : Eta Tick := fun x =>
  mkTick (liquidity_net x) (liquidity_gross x) (fees_out_tao x) (fees_out_alpha x).
Definition default_tick : Tick := mkTick 0 0 0 0.

Definition I128_MAX : Z := 2 ^ 127 - 1.
Definition I128_MIN : Z := - 2 ^ 127.

(** [liquidity_net.abs().min(u64::MAX as i128) as u64]; the absolute value of
    the least [i128] wraps to itself. *)
Definition abs_i128_as_u64 (x : Z) : Z :=
  if x =? I128_MIN then x mod 2 ^ 64 else Z.min (Z.abs x) U64_MAX.
Definition liquidity_net_as_u64 (t : Tick) : Z := abs_i128_as_u64 (liquidity_net t).

Module Position.
Record Position := mk {
  id : Z;                (* u128 *)
  netuid : Z;
  tick_low : Z;
  tick_high : Z;
  liquidity : Z;         (* u64 *)
  fees_tao : Z;          (* I64F64 *)
  fees_alpha : Z;
}.
End Position.
Export Position(Position).
#[export] Instance Position_eta : Eta Position := fun p =>
  Position.mk (Position.id p) (Position.netuid p) (Position.tick_low p) (Position.tick_high p)
    (Position.liquidity p) (Position.fees_tao p) (Position.fees_alpha p).

Module Update.
Record UpdateLiquidityResult := mk {
  tao : Z;
  alpha : Z;
  fee_tao : Z;
  fee_alpha : Z;
  removed : bool;
}.
End Update.
Export Update(UpdateLiquidityResult).

Inductive Error : Type :=
  | FeeRateTooHigh | InsufficientInputAmount | InsufficientLiquidity | PriceLimitExceeded
  | InsufficientBalance | LiquidityNotFound | InvalidTickRange | MaxPositionsExceeded
  | TooManySwapSteps | InvalidLiquidityValue | ReservesTooLow | SubNetworkDoesNotExist
  | UserLiquidityDisabled.

Inductive Event {FS : FrameSystem} : Type :=
  | FeeRateSet (netuid rate : Z)
  | UserLiquidityToggled (netuid : Z) (enable : bool)
  | LiquidityAdded (coldkey hotkey : AccountId) (netuid position_id liquidity tao alpha : Z)
  | LiquidityRemoved (coldkey hotkey : AccountId) (netuid position_id tao alpha fee_tao fee_alpha : Z)
  | LiquidityModified (coldkey hotkey : AccountId) (netuid position_id liquidity tao alpha fee_tao fee_alpha : Z).

(** The storage of the pallet, its events, and the world around it. *)
Record Swap {FS : FrameSystem} (W : Type) := mkSwap {
  FeeRate : gmap Z Z;
  FeeGlobalTao : gmap Z Z;
  FeeGlobalAlpha : gmap Z Z;
  Ticks : gmap (Z * Z) Tick;
  SwapV3Initialized : gmap Z bool;
  AlphaSqrtPrice : gmap Z Z;
  CurrentTick : gmap Z Z;
  CurrentLiquidity : gmap Z Z;
  EnabledUserLiquidity : gmap Z bool;
  Positions : gmap (Z * AccountId * Z) Position;
  LastPositionId : Z;
  TickIndexBitmapWords : Words;
  events : list Event;
  world : W;
}.
Arguments mkSwap {FS W}.
Arguments FeeRate {FS W}. Arguments FeeGlobalTao {FS W}. Arguments FeeGlobalAlpha {FS W}.
Arguments Ticks {FS W}. Arguments SwapV3Initialized {FS W}. Arguments AlphaSqrtPrice {FS W}.
Arguments CurrentTick {FS W}. Arguments CurrentLiquidity {FS W}. Arguments EnabledUserLiquidity {FS W}.
Arguments Positions {FS W}. Arguments LastPositionId {FS W}. Arguments TickIndexBitmapWords {FS W}.
Arguments events {FS W}. Arguments world {FS W}.
#[export] Instance Swap_eta {FS : FrameSystem} {W} : Eta (Swap W) := fun s =>
  mkSwap (FeeRate s) (FeeGlobalTao s) (FeeGlobalAlpha s) (Ticks s) (SwapV3Initialized s) (AlphaSqrtPrice s)
    (CurrentTick s) (CurrentLiquidity s) (EnabledUserLiquidity s) (Positions s) (LastPositionId s)
    (TickIndexBitmapWords s) (events s) (world s).

Abbreviation Pool W := (M (Swap W) (error Error)).

Definition DefaultFeeRate : Z := 196.

Section Swap.
Context {FS : FrameSystem} {SI : StorageIter} {F : SubstrateFixed} {SF : SwapFixed} {Cfg : SwapConfig}.
Context {W : Type} {SN : SubnetInfo W} {BO : BalanceOps W}.
Implicit Types s : Swap W.

(** Reads of the maps with a default. *)
Definition fee_rate (netuid : Z) s : Z := default DefaultFeeRate (FeeRate s !! netuid).
Definition fee_global_tao (netuid : Z) s : Z := default 0 (FeeGlobalTao s !! netuid).
Definition fee_global_alpha (netuid : Z) s : Z := default 0 (FeeGlobalAlpha s !! netuid).
Definition v3_initialized (netuid : Z) s : bool := default false (SwapV3Initialized s !! netuid).
Definition current_price_sqrt (netuid : Z) s : Z := default 0 (AlphaSqrtPrice s !! netuid).
Definition current_tick (netuid : Z) s : Z := default 0 (CurrentTick s !! netuid).
Definition current_liquidity (netuid : Z) s : Z := default 0 (CurrentLiquidity s !! netuid).
Definition is_user_liquidity_enabled (netuid : Z) s : bool := default false (EnabledUserLiquidity s !! netuid).

Definition deposit_event (e : Event) s : Swap W := s <| events ::= fun l => l ++ [e] |>.

(** ** TickIndex: the current tick and the fees on either side of a tick *)

Definition current_bounded (netuid : Z) s : Z :=
  let current_tick := current_tick netuid s in
  if TickIndex.MAX <? current_tick then TickIndex.MAX
  else if current_tick <? TickIndex.MIN then TickIndex.MIN
  else current_tick.

Definition fee_global (netuid : Z) (quote : bool) s : Z :=
  from_fixed I64F64 U64F64 (if quote then fee_global_tao netuid s else fee_global_alpha netuid s).

Definition tick_at (netuid t : Z) s : Tick := default default_tick (Ticks s !! (netuid, t)).

Definition fees_above (t netuid : Z) (quote : bool) s : Z :=
  let tick := tick_at netuid t s in
  let out := if quote then fees_out_tao tick else fees_out_alpha tick in
  if t <=? current_bounded netuid s then saturating_sub I64F64 (fee_global netuid quote s) out else out.

Definition fees_below (t netuid : Z) (quote : bool) s : Z :=
  let tick := tick_at netuid t s in
  let out := if quote then fees_out_tao tick else fees_out_alpha tick in
  if t <=? current_bounded netuid s then out else saturating_sub I64F64 (fee_global netuid quote s) out.

(** ** position.rs *)

(** Fees in the range of a position, relative to the global ones. *)
Definition fees_in_range (p : Position) (quote : bool) s : Z :=
  saturating_sub I64F64
    (saturating_sub I64F64 (fee_global (Position.netuid p) quote s)
       (fees_below (Position.tick_low p) (Position.netuid p) quote s))
    (fees_above (Position.tick_high p) (Position.netuid p) quote s).

Definition position_new (id netuid tick_low tick_high liquidity : Z) s : Position :=
  let position := Position.mk id netuid tick_low tick_high liquidity (from_num I64F64 0) (from_num I64F64 0) in
  position <| Position.fees_tao := fees_in_range position true s |>
           <| Position.fees_alpha := fees_in_range position false s |>.

Definition sqrt_price_of (t : Z) : result (error Error) Z :=
  match try_to_sqrt_price t with Ok p => Ok p | Err _ => Err (Module InvalidTickRange) end.

(** [to_token_amounts]: the TAO and the alpha a position holds at a price. *)
Definition to_token_amounts (p : Position) (sqrt_price_curr : Z) : result (error Error) (Z * Z) :=
  let one := from_num U64F64 1 in
  match sqrt_price_of (Position.tick_low p), sqrt_price_of (Position.tick_high p) with
  | Ok sqrt_price_low, Ok sqrt_price_high =>
      let liquidity_fixed := from_num U64F64 (Position.liquidity p) in
      let amount (x : Z) := to_num U64F64 u64 (saturating_mul U64F64 liquidity_fixed x) in
      Ok (if sqrt_price_curr <? sqrt_price_low then
            (0, amount (saturating_sub U64F64 (safe_div U64F64 one sqrt_price_low) (safe_div U64F64 one sqrt_price_high)))
          else if sqrt_price_high <? sqrt_price_curr then
            (amount (saturating_sub U64F64 sqrt_price_high sqrt_price_low), 0)
          else
            (amount (saturating_sub U64F64 sqrt_price_curr sqrt_price_low),
             amount (saturating_sub U64F64 (safe_div U64F64 one sqrt_price_curr) (safe_div U64F64 one sqrt_price_high))))
  | Err e, _ | _, Err e => Err e
  end.

(** [collect_fees]: the fees earned since the last time, and the position that
    has them on record. *)
Definition collect_fees (p : Position) s : Z * Z * Position :=
  let fee_tao_agg := fees_in_range p true s in
  let fee_alpha_agg := fees_in_range p false s in
  let fee_tao := saturating_sub I64F64 fee_tao_agg (Position.fees_tao p) in
  let fee_alpha := saturating_sub I64F64 fee_alpha_agg (Position.fees_alpha p) in
  let liquidity_frac := from_num I64F64 (Position.liquidity p) in
  (to_num I64F64 u64 (saturating_mul I64F64 liquidity_frac fee_tao),
   to_num I64F64 u64 (saturating_mul I64F64 liquidity_frac fee_alpha),
   p <| Position.fees_tao := fee_tao_agg |> <| Position.fees_alpha := fee_alpha_agg |>).

(** [PositionId::new] *)
Definition new_position_id : Pool W Z :=
  let* new := gets (fun s => sat_add U128_MAX (LastPositionId s) 1) in
  modify (fun s => s <| LastPositionId := new |>) ;;
  ret new.

(** ** impls.rs: liquidity at ticks *)

Definition set_tick (netuid t : Z) (x : Tick) s : Swap W := s <| Ticks ::= <[(netuid, t) := x]> |>.
Definition set_current_liquidity (netuid v : Z) s : Swap W := s <| CurrentLiquidity ::= <[netuid := v]> |>.
Definition set_alpha_sqrt_price (netuid v : Z) s : Swap W := s <| AlphaSqrtPrice ::= <[netuid := v]> |>.
Definition set_current_tick (netuid v : Z) s : Swap W := s <| CurrentTick ::= <[netuid := v]> |>.

Definition add_liquidity_at_index (netuid tick_index liquidity : Z) (upper : bool) s : Swap W :=
  let net_liquidity_change := if upper then - liquidity else liquidity in
  let tick :=
    match Ticks s !! (netuid, tick_index) with
    | Some tick =>
        tick <| liquidity_net := isat_add I128_MIN I128_MAX (liquidity_net tick) net_liquidity_change |>
             <| liquidity_gross := sat_add U64_MAX (liquidity_gross tick) liquidity |>
    | None =>
        let above := current_bounded netuid s <? tick_index in
        mkTick net_liquidity_change liquidity
          (if above then fee_global netuid true s else from_num I64F64 0)
          (if above then fee_global netuid false s else from_num I64F64 0)
    end in
  set_tick netuid tick_index tick s <| TickIndexBitmapWords ::= ActiveTickIndexManager.insert netuid tick_index |>.

Definition remove_liquidity_at_index (netuid tick_index liquidity : Z) (upper : bool) s : Swap W :=
  let net_reduction := if upper then - liquidity else liquidity in
  match Ticks s !! (netuid, tick_index) with
  | Some tick =>
      let tick :=
        tick <| liquidity_net := isat_sub I128_MIN I128_MAX (liquidity_net tick) net_reduction |>
             <| liquidity_gross := sat_sub (liquidity_gross tick) liquidity |> in
      if liquidity_gross tick =? 0 then
        s <| Ticks ::= delete (netuid, tick_index) |>
          <| TickIndexBitmapWords ::= ActiveTickIndexManager.remove netuid tick_index |>
      else set_tick netuid tick_index tick s
  | None => s
  end.

Definition update_liquidity_if_needed (netuid tick_low tick_high liquidity : Z) s : Swap W :=
  let current_tick_index := current_bounded netuid s in
  if (tick_low <=? current_tick_index) && (current_tick_index <? tick_high) then
    let amount := Z.min (Z.abs liquidity) U64_MAX in
    set_current_liquidity netuid
      (if liquidity <? 0 then sat_sub (current_liquidity netuid s) amount
       else sat_add U64_MAX (current_liquidity netuid s) amount) s
  else s.

Definition clamp_sqrt_price (netuid tick_index : Z) s : Swap W :=
  if (TickIndex.MAX <=? tick_index) || (tick_index <=? TickIndex.MIN) then
    set_alpha_sqrt_price netuid (as_sqrt_price_bounded tick_index) s
  else s.

(** ** impls.rs: positions *)

(** The positions of an account on a subnet, in the order of the storage. *)
Definition account_positions (netuid : Z) (account_id : AccountId) s : list (Z * Position) :=
  omap (fun '((n, a, i), p) => if (n =? netuid) && bool_decide (a = account_id) then Some (i, p) else None)
    (iter_prefix (Positions s)).
Definition count_positions (netuid : Z) (account_id : AccountId) s : Z :=
  Z.of_nat (length (account_positions netuid account_id s)).

Definition position_at (netuid : Z) (account_id : AccountId) (id : Z) s : option Position :=
  Positions s !! (netuid, account_id, id).
Definition put_position (netuid : Z) (account_id : AccountId) (id : Z) (p : Position) s : Swap W :=
  s <| Positions ::= <[(netuid, account_id, id) := p]> |>.
Definition remove_position (netuid : Z) (account_id : AccountId) (id : Z) s : Swap W :=
  s <| Positions ::= delete (netuid, account_id, id) |>.

Definition protocol_account_id : AccountId := ProtocolId.

Definition add_liquidity_not_insert (netuid : Z) (coldkey : AccountId) (tick_low tick_high liquidity : Z)
    : Pool W (Position * Z * Z) :=
  let* count := gets (count_positions netuid coldkey) in
  ensure (count <=? MaxPositions) (Module MaxPositionsExceeded) ;;
  modify (add_liquidity_at_index netuid tick_low liquidity false) ;;
  modify (add_liquidity_at_index netuid tick_high liquidity true) ;;
  let* current_tick_index := gets (current_bounded netuid) in
  modify (clamp_sqrt_price netuid current_tick_index) ;;
  modify (update_liquidity_if_needed netuid tick_low tick_high liquidity) ;;
  let* position_id := new_position_id in
  let* position := gets (position_new position_id netuid tick_low tick_high liquidity) in
  let* current_price_sqrt := gets (current_price_sqrt netuid) in
  let* (tao, alpha) := lift (to_token_amounts position current_price_sqrt) in
  modify (fun s => s <| SwapV3Initialized ::= <[netuid := true]> |>) ;;
  ret (position, tao, alpha).

Definition do_add_liquidity (netuid : Z) (coldkey hotkey : AccountId) (tick_low tick_high liquidity : Z)
    : Pool W (Z * Z * Z) :=
  let* enabled := gets (is_user_liquidity_enabled netuid) in
  ensure enabled (Module UserLiquidityDisabled) ;;
  let* (position, tao, alpha) := add_liquidity_not_insert netuid coldkey tick_low tick_high liquidity in
  let position_id := Position.id position in
  let* w := gets world in
  ensure ((tao <=? tao_balance w coldkey) && (alpha <=? alpha_balance w netuid coldkey hotkey))
    (Module InsufficientBalance) ;;
  ensure (MinimumLiquidity <=? liquidity) (Module InvalidLiquidityValue) ;;
  modify (put_position netuid coldkey (Position.id position) position) ;;
  ret (position_id, tao, alpha).

Definition do_remove_liquidity (netuid : Z) (coldkey : AccountId) (position_id : Z)
    : Pool W UpdateLiquidityResult :=
  let* o := gets (position_at netuid coldkey position_id) in
  match o with
  | None => fail (Module LiquidityNotFound)
  | Some position =>
      let* (fee_tao, fee_alpha, position) := gets (collect_fees position) in
      let* current_price := gets (current_price_sqrt netuid) in
      let* (tao, alpha) := lift (to_token_amounts position current_price) in
      modify (remove_liquidity_at_index netuid (Position.tick_low position) (Position.liquidity position) false) ;;
      modify (remove_liquidity_at_index netuid (Position.tick_high position) (Position.liquidity position) true) ;;
      modify (update_liquidity_if_needed netuid (Position.tick_low position) (Position.tick_high position)
                (- Position.liquidity position)) ;;
      modify (remove_position netuid coldkey position_id) ;;
      ret (Update.mk tao alpha fee_tao fee_alpha true)
  end.

(** [i64::abs], which wraps on the least number. *)
Definition abs_i64 (x : Z) : Z := if x =? I64_MIN then I64_MIN else Z.abs x.

(** The price the tokens of a change are computed at; a change of a position
    around the current price changes the current liquidity. *)
Definition price_box (netuid liquidity_delta sqrt_pa sqrt_pb : Z) : Pool W Z :=
  let* current_price_sqrt := gets (current_price_sqrt netuid) in
  if current_price_sqrt <? sqrt_pa then ret sqrt_pa
  else if sqrt_pb <? current_price_sqrt then ret sqrt_pb
  else
    let* curr := gets (current_liquidity netuid) in
    modify (set_current_liquidity netuid
              (if 0 <? liquidity_delta then sat_add U64_MAX curr (Z.abs liquidity_delta)
               else sat_sub curr (Z.abs liquidity_delta))) ;;
    ret current_price_sqrt.

Definition do_modify_position (netuid : Z) (coldkey hotkey : AccountId) (position_id liquidity_delta : Z)
    : Pool W UpdateLiquidityResult :=
  let* enabled := gets (is_user_liquidity_enabled netuid) in
  ensure enabled (Module UserLiquidityDisabled) ;;
  let* o := gets (position_at netuid coldkey position_id) in
  match o with
  | None => fail (Module LiquidityNotFound)
  | Some position =>
      ensure (wrap_i64 MinimumLiquidity <=? abs_i64 liquidity_delta) (Module InvalidLiquidityValue) ;;
      let delta_liquidity_abs := Z.abs liquidity_delta in
      let* sqrt_pa := lift (sqrt_price_of (Position.tick_low position)) in
      let* sqrt_pb := lift (sqrt_price_of (Position.tick_high position)) in
      let* sqrt_price_box := price_box netuid liquidity_delta sqrt_pa sqrt_pb in
      let one := from_num U64F64 1 in
      let mul := saturating_sub U64F64 (safe_div U64F64 one sqrt_price_box) (safe_div U64F64 one sqrt_pb) in
      let delta_fixed := from_num U64F64 delta_liquidity_abs in
      let alpha := saturating_mul U64F64 delta_fixed mul in
      let tao := saturating_mul U64F64 delta_fixed (saturating_sub U64F64 sqrt_price_box sqrt_pa) in
      let* w := gets world in
      (* a balance is compared with the fixed-point amount *)
      (if 0 <? liquidity_delta then
         ensure ((tao <=? tao_balance w coldkey * unit_ U64F64) &&
                 (alpha <=? alpha_balance w netuid coldkey hotkey * unit_ U64F64)) (Module InsufficientBalance)
       else ensure (delta_liquidity_abs <=? Position.liquidity position) (Module InsufficientLiquidity)) ;;
      let* (fee_tao, fee_alpha, position) := gets (collect_fees position) in
      let remove := (liquidity_delta <? 0) &&
        (sat_sub (Position.liquidity position) delta_liquidity_abs <? MinimumLiquidity) in
      let delta_liquidity_abs := if remove then Position.liquidity position else delta_liquidity_abs in
      let* position :=
        if 0 <? liquidity_delta then
          modify (add_liquidity_at_index netuid (Position.tick_low position) delta_liquidity_abs false) ;;
          modify (add_liquidity_at_index netuid (Position.tick_high position) delta_liquidity_abs true) ;;
          ret (position <| Position.liquidity ::= fun l => sat_add U64_MAX l delta_liquidity_abs |>)
        else
          modify (remove_liquidity_at_index netuid (Position.tick_low position) delta_liquidity_abs false) ;;
          modify (remove_liquidity_at_index netuid (Position.tick_high position) delta_liquidity_abs true) ;;
          ret (position <| Position.liquidity ::= fun l => sat_sub l delta_liquidity_abs |>) in
      (if remove then modify (remove_position netuid coldkey position_id)
       else modify (put_position netuid coldkey (Position.id position) position)) ;;
      ret (Update.mk (to_num U64F64 u64 tao) (to_num U64F64 u64 alpha) fee_tao fee_alpha remove)
  end.

(** ** impls.rs: the position of the protocol *)

Definition maybe_initialize_v3 (netuid : Z) : Pool W unit :=
  let* initialized := gets (v3_initialized netuid) in
  if initialized then ret tt
  else
    let* w := gets world in
    let tao_reserve := tao_reserve w netuid in
    let alpha_reserve := alpha_reserve w netuid in
    let price := safe_div U64F64 (from_num U64F64 tao_reserve) (from_num U64F64 alpha_reserve) in
    let epsilon := from_literal U64F64 1 (10 ^ 12) in
    let current_sqrt_price := default (from_num U64F64 0) (checked_sqrt U64F64 price epsilon) in
    modify (set_alpha_sqrt_price netuid current_sqrt_price) ;;
    modify (set_current_tick netuid (from_sqrt_price_bounded current_sqrt_price)) ;;
    let liquidity := sqrt128 (sat_mul U128_MAX tao_reserve alpha_reserve) mod 2 ^ 64 in
    let* (position, _, _) :=
      add_liquidity_not_insert netuid protocol_account_id TickIndex.MIN TickIndex.MAX liquidity in
    modify (put_position netuid protocol_account_id (Position.id position) position).

Definition adjust_protocol_liquidity (netuid tao_delta alpha_delta : Z) s : Swap W :=
  match head (account_positions netuid protocol_account_id s) with
  | None => s
  | Some (_, position) =>
      match to_token_amounts position (current_price_sqrt netuid s) with
      | Err _ => s
      | Ok (tao, alpha) =>
          let new_tao_reserve := sat_add U64_MAX tao tao_delta in
          let new_alpha_reserve := sat_add U64_MAX alpha alpha_delta in
          let new_liquidity := sqrt128 (sat_mul U128_MAX new_tao_reserve new_alpha_reserve) mod 2 ^ 64 in
          put_position netuid protocol_account_id (Position.id position)
            (position <| Position.liquidity := new_liquidity |>) s
      end
  end.
End Swap.
