(* ===== verification/SwapEngine.v ===== *)
(** * Swaps and the calls of the swap pallet (src/pallets/swap)

    A swap walks from one active tick to the next, converting what is left of the
    amount at the liquidity of each stretch (src/pallets/swap/src/pallet/impls.rs);
    [Module SwapStep] is one stretch. The end of the file holds the implementation
    of the [SwapHandler] trait and the calls (src/pallets/swap/src/pallet/mod.rs).

    A swap runs in a storage layer of its own, which may be kept although the swap
    fails: [do_swap] returns its result next to the state it leaves. *)

From S2P Require Import Prelude Frame Fixed SharePool Tick TickMath Reserves SwapPool.
From stdpp Require Import prelude gmap list fin_maps.
From Stdlib Require Import ZArith Lia.
#[local] Open Scope Z_scope.
#[local] Open Scope monad_scope.

Definition MAX_SWAP_ITERATIONS : Z := 1000.

Inductive SwapStepAction : Type := Crossing | Stop.
#[export] Instance SwapStepAction_eq_dec : EqDecision SwapStepAction.
Proof. solve_decision. Defined.

Module SwapStep.
Record SwapStep := mk {
  netuid : Z;
  order_type : OrderType;
  current_liquidity : Z;    (* U64F64 *)
  possible_delta_in : Z;    (* u64 *)
  target_sqrt_price : Z;
  limit_sqrt_price : Z;
  current_sqrt_price : Z;
  edge_sqrt_price : Z;
  edge_tick : Z;
  action : SwapStepAction;
  delta_in : Z;
  final_price : Z;
  fee : Z;
}.
End SwapStep.
Export SwapStep(SwapStep).
#[export] Instance SwapStep_eta : Eta SwapStep := fun p =>
  SwapStep.mk (SwapStep.netuid p) (SwapStep.order_type p) (SwapStep.current_liquidity p) (SwapStep.possible_delta_in p) (SwapStep.target_sqrt_price p)
    (SwapStep.limit_sqrt_price p) (SwapStep.current_sqrt_price p) (SwapStep.edge_sqrt_price p) (SwapStep.edge_tick p) (SwapStep.action p) (SwapStep.delta_in p)
    (SwapStep.final_price p) (SwapStep.fee p).

Record SwapStepResult := mkStepResult {
  amount_to_take : Z;
  step_fee_paid : Z;
  step_delta_in : Z;
  step_delta_out : Z;
}.

(** The local variables of the loop of [swap_inner]. *)
Record SwapAcc := mkAcc {
  amount_remaining : Z;
  acc_paid_out : Z;
  iteration_counter : Z;
  in_acc : Z;
  fee_acc : Z;
}.

Section Engine.
Context {FS : FrameSystem} {SI : StorageIter} {F : SubstrateFixed} {SF : SwapFixed} {Cfg : SwapConfig}.
Context {W : Type} {SN : SubnetInfo W} {BO : BalanceOps W}.
Implicit Types s : Swap W.

(** ** Prices and conversions *)

Definition min_price : Z :=
  to_num U64F64 u64
    (saturating_mul U64F64 (saturating_mul U64F64 min_sqrt_price min_sqrt_price) (from_num U64F64 1000000000)).
Definition max_price : Z :=
  to_num U64F64 u64 (saturating_round U64F64
    (saturating_mul U64F64 (saturating_mul U64F64 max_sqrt_price max_sqrt_price) (from_num U64F64 1000000000))).

(** The bits of a [U96F32]. *)
Definition current_price (netuid : Z) s : Z :=
  if mechanism (world s) netuid =? 1 then
    if v3_initialized netuid s then
      let sqrt_price := current_price_sqrt netuid s in
      from_fixed U96F32 U64F64 (saturating_mul U64F64 sqrt_price sqrt_price)
    else
      let tao_reserve := tao_reserve (world s) netuid in
      let alpha_reserve := alpha_reserve (world s) netuid in
      if 0 <? alpha_reserve then
        saturating_div U96F32 (from_num U96F32 tao_reserve) (from_num U96F32 alpha_reserve)
      else from_num U96F32 0
  else from_num U96F32 1.

(** The active tick a sale runs into: the one below, or the current one when
    the price is strictly inside it. *)
Definition lower_edge (netuid tick : Z) s : Z :=
  let words := TickIndexBitmapWords s in
  let current_price := current_price_sqrt netuid s in
  let current_tick_price := as_sqrt_price_bounded tick in
  let is_active := ActiveTickIndexManager.tick_is_active netuid tick words in
  if is_active && (current_tick_price <? current_price) then
    default TickIndex.MIN (ActiveTickIndexManager.find_closest_lower netuid tick words)
  else
    default TickIndex.MIN (ActiveTickIndexManager.find_closest_lower netuid
      (match TickIndex.prev tick with Ok t => t | Err _ => TickIndex.MIN end) words).

Definition upper_edge (netuid tick : Z) s : Z :=
  default TickIndex.MAX (ActiveTickIndexManager.find_closest_higher netuid
    (match TickIndex.next tick with Ok t => t | Err _ => TickIndex.MAX end) (TickIndexBitmapWords s)).

Definition tick_edge (netuid tick : Z) (order_type : OrderType) s : Z :=
  match order_type with Buy => upper_edge netuid tick s | Sell => lower_edge netuid tick s end.

Definition calculate_fee_amount (netuid amount : Z) s : Z :=
  let rate := safe_div U64F64 (from_num U64F64 (fee_rate netuid s)) (from_num U64F64 U16_MAX) in
  to_num U64F64 u64 (saturating_mul U64F64 (from_num U64F64 amount) rate).

Definition current_liquidity_safe (netuid : Z) s : Z :=
  from_num U64F64 (sat_sub (current_liquidity netuid s) MinimumLiquidity).

Definition add_fees (netuid : Z) (order_type : OrderType) (fee : Z) s : Swap W :=
  let liquidity_curr := current_liquidity_safe netuid s in
  if liquidity_curr =? 0 then s
  else
    let per_liquidity := safe_div U64F64 (from_num U64F64 fee) liquidity_curr in
    match order_type with
    | Sell => s <| FeeGlobalAlpha ::= <[netuid := saturating_add U64F64 (fee_global_alpha netuid s) per_liquidity]> |>
    | Buy => s <| FeeGlobalTao ::= <[netuid := saturating_add U64F64 (fee_global_tao netuid s) per_liquidity]> |>
    end.

Definition convert_deltas (netuid : Z) (order_type : OrderType) (delta_in : Z) s : Z :=
  if delta_in =? 0 then 0
  else
    let liquidity_curr := from_num U64F64 (current_liquidity netuid s) in
    let sqrt_price_curr := current_price_sqrt netuid s in
    let delta_fixed := from_num U64F64 delta_in in
    let result :=
      match order_type with
      | Sell =>
          let denom := saturating_add U64F64 (safe_div U64F64 liquidity_curr sqrt_price_curr) delta_fixed in
          let a := safe_div U64F64 liquidity_curr denom in
          let b := saturating_mul U64F64 a sqrt_price_curr in
          saturating_mul U64F64 delta_fixed b
      | Buy =>
          let a := saturating_mul U64F64
            (saturating_add U64F64 (saturating_mul U64F64 liquidity_curr sqrt_price_curr) delta_fixed)
            sqrt_price_curr in
          let b := safe_div U64F64 liquidity_curr a in
          saturating_mul U64F64 b delta_fixed
      end in
    to_num U64F64 u64 result.

Definition sqrt_price_target (order_type : OrderType) (liquidity_curr sqrt_price_curr delta_in : Z) : Z :=
  let delta_fixed := from_num U64F64 delta_in in
  let one := from_num U64F64 1 in
  if liquidity_curr =? 0 then
    match order_type with Sell => from_num U64F64 min_price | Buy => from_num U64F64 max_price end
  else
    match order_type with
    | Sell => safe_div U64F64 one
        (saturating_add U64F64 (safe_div U64F64 delta_fixed liquidity_curr) (safe_div U64F64 one sqrt_price_curr))
    | Buy => saturating_add U64F64 (safe_div U64F64 delta_fixed liquidity_curr) sqrt_price_curr
    end.

(** The input that moves the price to a target. *)
Definition delta_in_to (order_type : OrderType) (liquidity_curr sqrt_price_curr sqrt_price_target : Z) : Z :=
  let one := from_num U64F64 1 in
  to_num U64F64 u64 (saturating_mul U64F64 liquidity_curr
    match order_type with
    | Sell => saturating_sub U64F64 (safe_div U64F64 one sqrt_price_target) (safe_div U64F64 one sqrt_price_curr)
    | Buy => saturating_sub U64F64 sqrt_price_target sqrt_price_curr
    end).

Definition find_closest_lower_active_tick (netuid index : Z) s : option Tick :=
  ti ← ActiveTickIndexManager.find_closest_lower netuid index (TickIndexBitmapWords s); Ticks s !! (netuid, ti).
Definition find_closest_higher_active_tick (netuid index : Z) s : option Tick :=
  ti ← ActiveTickIndexManager.find_closest_higher netuid index (TickIndexBitmapWords s); Ticks s !! (netuid, ti).

Definition update_liquidity_at_crossing (netuid : Z) (order_type : OrderType) : Pool W unit :=
  let* liquidity_curr := gets (current_liquidity netuid) in
  let* current_tick_index := gets (current_bounded netuid) in
  let* crossed := gets (tick_edge netuid current_tick_index order_type) in
  let* o := gets (fun s => Ticks s !! (netuid, crossed)) in
  let* tick := lift (ok_or o (Module InsufficientLiquidity)) in
  let liquidity_update_abs_u64 := liquidity_net_as_u64 tick in
  let liquidity_curr :=
    match order_type, 0 <=? liquidity_net tick with
    | Sell, true | Buy, false => sat_sub liquidity_curr liquidity_update_abs_u64
    | Sell, false | Buy, true => sat_add U64_MAX liquidity_curr liquidity_update_abs_u64
    end in
  modify (set_current_liquidity netuid liquidity_curr).

(** ** One step *)

Definition new_step (netuid : Z) (order_type : OrderType) (amount_remaining limit_sqrt_price : Z) s : SwapStep :=
  let current_tick := current_tick netuid s in
  let current_sqrt_price := current_price_sqrt netuid s in
  let edge_tick := tick_edge netuid current_tick order_type s in
  let fee := calculate_fee_amount netuid amount_remaining s in
  let possible_delta_in := sat_sub amount_remaining fee in
  let current_liquidity := from_num U64F64 (current_liquidity netuid s) in
  let target_sqrt_price := sqrt_price_target order_type current_liquidity current_sqrt_price possible_delta_in in
  SwapStep.mk netuid order_type current_liquidity possible_delta_in target_sqrt_price limit_sqrt_price
    current_sqrt_price (as_sqrt_price_bounded edge_tick) edge_tick Stop 0 target_sqrt_price fee.

Definition price_is_closer (order_type : OrderType) (sq_price1 sq_price2 : Z) : bool :=
  match order_type with Buy => sq_price1 <=? sq_price2 | Sell => sq_price2 <=? sq_price1 end.

(** The fee on an input that stops before the whole amount is used. *)
Definition recalculated_fee (netuid delta_in : Z) s : Z :=
  let u16_max := from_num U64F64 U16_MAX in
  let rate := from_num U64F64 (fee_rate netuid s) in
  to_num U64F64 u64 (saturating_mul U64F64 (from_num U64F64 delta_in)
    (safe_div U64F64 rate (saturating_sub U64F64 u16_max rate))).

Definition determine_action (p : SwapStep) s : SwapStep :=
  let order := SwapStep.order_type p in
  let closer := price_is_closer order in
  let target := SwapStep.target_sqrt_price p in
  let limit := SwapStep.limit_sqrt_price p in
  let edge := SwapStep.edge_sqrt_price p in
  let delta_to := delta_in_to order (SwapStep.current_liquidity p) (SwapStep.current_sqrt_price p) in
  let '(p, recalculate_fee) :=
    if closer target limit && closer target edge then
      (p <| SwapStep.action := Stop |> <| SwapStep.final_price := target |>
         <| SwapStep.delta_in := SwapStep.possible_delta_in p |>, false)
    else if closer limit target && closer limit edge then
      (p <| SwapStep.action := Stop |> <| SwapStep.final_price := limit |>
         <| SwapStep.delta_in := delta_to limit |>, true)
    else
      (p <| SwapStep.action := Crossing |> <| SwapStep.delta_in := delta_to edge |>
         <| SwapStep.final_price := edge |>, true) in
  let p :=
    if recalculate_fee then
      p <| SwapStep.fee := recalculated_fee (SwapStep.netuid p) (SwapStep.delta_in p) s |>
    else p in
  let natural_reason_stop_price := if closer limit target then limit else target in
  if natural_reason_stop_price =? edge then
    p <| SwapStep.action := match order with Buy => Crossing | Sell => Stop end |>
  else p.

(** The tick that is crossed turns its fees to the other side. *)
Definition flip_fees (netuid : Z) (tick : Tick) s : Tick :=
  tick <| fees_out_tao := saturating_sub I64F64 (fee_global netuid true s) (fees_out_tao tick) |>
       <| fees_out_alpha := saturating_sub I64F64 (fee_global netuid false s) (fees_out_alpha tick) |>.

Definition process_swap (p : SwapStep) : Pool W SwapStepResult :=
  let netuid := SwapStep.netuid p in
  modify (add_fees netuid (SwapStep.order_type p) (SwapStep.fee p)) ;;
  let* delta_out := gets (convert_deltas netuid (SwapStep.order_type p) (SwapStep.delta_in p)) in
  (if bool_decide (SwapStep.action p = Crossing) then
     let* tick := gets (fun s => flip_fees netuid (tick_at netuid (SwapStep.edge_tick p) s) s) in
     update_liquidity_at_crossing netuid (SwapStep.order_type p) ;;
     modify (set_tick netuid (SwapStep.edge_tick p) tick)
   else ret tt) ;;
  modify (set_alpha_sqrt_price netuid (SwapStep.final_price p)) ;;
  modify (set_current_tick netuid (from_sqrt_price_bounded (SwapStep.final_price p))) ;;
  ret (mkStepResult (sat_add U64_MAX (SwapStep.delta_in p) (SwapStep.fee p)) (SwapStep.fee p)
         (SwapStep.delta_in p) delta_out).

(** ** A swap *)

(** One turn of the loop of [swap_inner]. *)
Definition swap_turn (netuid : Z) (order_type : OrderType) (limit_sqrt_price : Z) (a : SwapAcc) : Pool W SwapAcc :=
  let* p := gets (fun s => determine_action (new_step netuid order_type (amount_remaining a) limit_sqrt_price s) s) in
  let* r := process_swap p in
  let remaining := sat_sub (amount_remaining a) (amount_to_take r) in
  let remaining := if bool_decide (SwapStep.action p = Stop) then 0 else remaining in
  let remaining := if amount_to_take r =? 0 then 0 else remaining in
  let a := mkAcc remaining (sat_add U64_MAX (acc_paid_out a) (step_delta_out r))
    (sat_add U16_MAX (iteration_counter a) 1) (sat_add U64_MAX (in_acc a) (step_delta_in r))
    (sat_add U64_MAX (fee_acc a) (step_fee_paid r)) in
  ensure (iteration_counter a <=? MAX_SWAP_ITERATIONS) (Module TooManySwapSteps) ;;
  ret a.

(** [while amount_remaining > 0]. *)
Fixpoint swap_loop (fuel : nat) (netuid : Z) (order_type : OrderType) (limit_sqrt_price : Z) (a : SwapAcc) : Pool W SwapAcc :=
  match fuel with
  | O => fail Panic
  | S fuel =>
      if 0 <? amount_remaining a then
        let* a := swap_turn netuid order_type limit_sqrt_price a in
        swap_loop fuel netuid order_type limit_sqrt_price a
      else ret a
  end.

(** A turn counts itself and fails beyond the maximum, so that many turns and
    the final test of the condition are enough. *)
Definition swap_fuel : nat := Z.to_nat MAX_SWAP_ITERATIONS + 1.

Definition swap_inner (netuid : Z) (order_type : OrderType) (amount limit_sqrt_price : Z) : Pool W SwapResult :=
  let* w := gets world in
  ensure ((MinimumReserve <=? tao_reserve w netuid) && (MinimumReserve <=? alpha_reserve w netuid))
    (Module ReservesTooLow) ;;
  maybe_initialize_v3 netuid ;;
  let* a := swap_loop swap_fuel netuid order_type limit_sqrt_price (mkAcc amount 0 0 0 0) in
  let tao_in := wrap_i64 (in_acc a) in
  let out := neg_i64 (wrap_i64 (acc_paid_out a)) in
  ret (mkSwapResult (in_acc a) (acc_paid_out a) (fee_acc a)
         (match order_type with Buy => tao_in | Sell => out end)
         (match order_type with Buy => out | Sell => tao_in end)).

(** The result and the storage afterwards: a failed or simulated swap is rolled
    back, a swap that pays out more than the reserve is not. *)
Definition do_swap (netuid : Z) (order_type : OrderType) (amount limit_sqrt_price : Z) (simulate : bool) s
    : result (error Error) SwapResult * Swap W :=
  let tao_reserve := tao_reserve (world s) netuid in
  let alpha_reserve := alpha_reserve (world s) netuid in
  match swap_inner netuid order_type amount limit_sqrt_price s with
  | Err e => (Err e, s)
  | Ok (r, s') =>
      if simulate then (Ok r, s)
      else
        let checked_reserve := match order_type with Buy => alpha_reserve | Sell => tao_reserve end in
        (if checked_reserve <? amount_paid_out r then Err (Module InsufficientLiquidity) else Ok r, s')
  end.

(** ** The [SwapHandler] trait *)

Definition swap (netuid : Z) (order_t : OrderType) (amount price_limit : Z) (should_rollback : bool) s
    : result (error Error) SwapResult * Swap W :=
  match checked_sqrt U64F64 (safe_div U64F64 (from_num U64F64 price_limit) (from_num U64F64 1000000000))
          (from_literal U64F64 1 (10 ^ 10)) with
  | None => (Err (Module PriceLimitExceeded), s)
  | Some limit_sqrt_price => do_swap netuid order_t amount limit_sqrt_price should_rollback s
  end.

Definition sim_swap (netuid : Z) (order_t : OrderType) (amount : Z) s : result (error Error) SwapResult * Swap W :=
  if mechanism (world s) netuid =? 1 then
    swap netuid order_t amount (match order_t with Buy => max_price | Sell => min_price end) true s
  else (Ok (mkSwapResult amount amount 0 0 0), s).

Definition approx_fee_amount (netuid amount : Z) s : Z := calculate_fee_amount netuid amount s.
Definition current_alpha_price (netuid : Z) s : Z := current_price netuid s.

(** ** The calls *)

(** Root, or a signed origin that passes the check. *)
Definition ensure_root_or (o : Origin) (netuid : Z) (allowed : bool) : Pool W unit :=
  match ensure_root o with
  | Ok _ => ret tt
  | Err _ =>
      let* account_id := ext (ensure_signed o) in
      let* w := gets world in
      ensure (is_owner w account_id netuid && allowed) (External BadOrigin)
  end.

Definition ensure_subnet (netuid : Z) : Pool W unit :=
  let* w := gets world in ensure (exists_ w netuid) (Module SubNetworkDoesNotExist).

Definition set_fee_rate (o : Origin) (netuid rate : Z) : Pool W unit :=
  ensure_root_or o netuid true ;;
  ensure_subnet netuid ;;
  ensure (rate <=? MaxFeeRate) (Module FeeRateTooHigh) ;;
  modify (fun s => s <| FeeRate ::= <[netuid := rate]> |>) ;;
  modify (deposit_event (FeeRateSet netuid rate)).

Definition toggle_user_liquidity (o : Origin) (netuid : Z) (enable : bool) : Pool W unit :=
  ensure_root_or o netuid enable ;;
  ensure_subnet netuid ;;
  modify (fun s => s <| EnabledUserLiquidity ::= <[netuid := enable]> |>) ;;
  modify (deposit_event (UserLiquidityToggled netuid enable)).

(** A call of [BalanceOps]. *)
Definition on_world (f : W -> W) s : Swap W := s <| world ::= f |>.
Definition try_world {A} (f : W -> result DispatchError (A * W)) : Pool W A :=
  let* w := gets world in
  let* (a, w) := ext (f w) in
  modify (fun s => s <| world := w |>) ;; ret a.
Definition increase_stake_of (coldkey hotkey : AccountId) (netuid alpha : Z) : Pool W unit :=
  let* w := gets world in
  let* w := ext (increase_stake w coldkey hotkey netuid alpha) in
  modify (fun s => s <| world := w |>).

(** The tokens a position is paid with; they must be there exactly. *)
Definition provide (coldkey hotkey : AccountId) (netuid tao alpha : Z) : Pool W unit :=
  let* tao_provided := try_world (fun w => decrease_balance w coldkey tao) in
  ensure (tao_provided =? tao) (Module InsufficientBalance) ;;
  let* alpha_provided := try_world (fun w => decrease_stake w coldkey hotkey netuid alpha) in
  ensure (alpha_provided =? alpha) (Module InsufficientBalance).

Definition add_liquidity (o : Origin) (hotkey : AccountId) (netuid tick_low tick_high liquidity : Z) : Pool W unit :=
  let* coldkey := ext (ensure_signed o) in
  ensure_subnet netuid ;;
  let* (position_id, tao, alpha) := do_add_liquidity netuid coldkey hotkey tick_low tick_high liquidity in
  provide coldkey hotkey netuid tao alpha ;;
  modify (on_world (fun w => increase_provided_tao_reserve w netuid tao)) ;;
  modify (on_world (fun w => increase_provided_alpha_reserve w netuid alpha)) ;;
  modify (deposit_event (LiquidityAdded coldkey hotkey netuid position_id liquidity tao alpha)).

Definition remove_liquidity (o : Origin) (hotkey : AccountId) (netuid position_id : Z) : Pool W unit :=
  let* coldkey := ext (ensure_signed o) in
  ensure_subnet netuid ;;
  let* r := do_remove_liquidity netuid coldkey position_id in
  modify (on_world (fun w => increase_balance w coldkey (sat_add U64_MAX (Update.tao r) (Update.fee_tao r)))) ;;
  increase_stake_of coldkey hotkey netuid (sat_add U64_MAX (Update.alpha r) (Update.fee_alpha r)) ;;
  modify (on_world (fun w => decrease_provided_tao_reserve w netuid (Update.tao r))) ;;
  modify (on_world (fun w => decrease_provided_alpha_reserve w netuid (Update.alpha r))) ;;
  modify (deposit_event (LiquidityRemoved coldkey hotkey netuid position_id (Update.tao r) (Update.alpha r)
    (Update.fee_tao r) (Update.fee_alpha r))).

Definition modify_position (o : Origin) (hotkey : AccountId) (netuid position_id liquidity_delta : Z) : Pool W unit :=
  let* coldkey := ext (ensure_signed o) in
  ensure_subnet netuid ;;
  let* r := do_modify_position netuid coldkey hotkey position_id liquidity_delta in
  let tao := Update.tao r in
  let alpha := Update.alpha r in
  (if 0 <? liquidity_delta then
     provide coldkey hotkey netuid tao alpha ;;
     modify (deposit_event (LiquidityModified coldkey hotkey netuid position_id liquidity_delta
       (wrap_i64 tao) (wrap_i64 alpha) (Update.fee_tao r) (Update.fee_alpha r)))
   else
     modify (on_world (fun w => increase_balance w coldkey tao)) ;;
     increase_stake_of coldkey hotkey netuid alpha ;;
     modify (deposit_event
       (if Update.removed r then
          LiquidityRemoved coldkey hotkey netuid position_id tao alpha (Update.fee_tao r) (Update.fee_alpha r)
        else
          LiquidityModified coldkey hotkey netuid position_id liquidity_delta
            (neg_i64 (wrap_i64 tao)) (neg_i64 (wrap_i64 alpha)) (Update.fee_tao r) (Update.fee_alpha r)))) ;;
  (if 0 <? Update.fee_tao r then modify (on_world (fun w => increase_balance w coldkey (Update.fee_tao r))) else ret tt) ;;
  (if 0 <? Update.fee_alpha r then increase_stake_of coldkey hotkey netuid (Update.fee_alpha r) else ret tt).

(** The calls of the pallet by name. *)
Inductive SwapCall : Type :=
  | SetFeeRate (o : Origin) (netuid rate : Z)
  | ToggleUserLiquidity (o : Origin) (netuid : Z) (enable : bool)
  | AddLiquidity (o : Origin) (hotkey : AccountId) (netuid tick_low tick_high liquidity : Z)
  | RemoveLiquidity (o : Origin) (hotkey : AccountId) (netuid position_id : Z)
  | ModifyPosition (o : Origin) (hotkey : AccountId) (netuid position_id liquidity_delta : Z).

Definition swap_call (c : SwapCall) : Pool W unit :=
  match c with
  | SetFeeRate o n rate => set_fee_rate o n rate
  | ToggleUserLiquidity o n enable => toggle_user_liquidity o n enable
  | AddLiquidity o h n lo hi l => add_liquidity o h n lo hi l
  | RemoveLiquidity o h n i => remove_liquidity o h n i
  | ModifyPosition o h n i d => modify_position o h n i d
  end.
End Engine.
