(* ===== verification/SwapBooks.v ===== *)
(** * The tick books of the swap pallet balance

    A tick records how much liquidity starts or ends at it ([liquidity_gross])
    and by how much the liquidity changes when the price crosses it upwards
    ([liquidity_net]). Both are redundant: they are sums over the positions. The
    invariant [books_ok] says that the records of all ticks are these sums and
    that the bitmap holds exactly the ticks with a record; every call and every
    swap preserves it. *)

From S2P Require Import Prelude Frame Fixed SharePool Tick TickMath Reserves SwapPool SwapEngine.
From stdpp Require Import prelude gmap list fin_maps.
From Stdlib Require Import ZArith Lia.
#[local] Open Scope Z_scope.

(** ** The books of the ticks *)

(** What a position contributes to a tick. *)
Definition leg (x t l : Z) : Z := if x =? t then l else 0.
Definition gross_leg (n t : Z) (p : Position) : Z :=
  if Position.netuid p =? n then
    leg (Position.tick_low p) t (Position.liquidity p) + leg (Position.tick_high p) t (Position.liquidity p)
  else 0.
Definition net_leg (n t : Z) (p : Position) : Z :=
  if Position.netuid p =? n then
    leg (Position.tick_low p) t (Position.liquidity p) - leg (Position.tick_high p) t (Position.liquidity p)
  else 0.

(** The records of the ticks [T] and the bitmap [m] show gross liquidity [G]
    and net liquidity [N]. *)
Record ticks_book (G N : Z -> Z -> Z) (T : gmap (Z * Z) Tick) (m : Words) : Prop := {
  tb_bitmap : forall n, bitmap_ok m n;
  tb_active : forall n t, active m n t = true <-> is_Some (T !! (n, t));
  tb_bounds : forall n t, Z.abs (N n t) <= G n t <= U64_MAX;
  tb_tick : forall n t,
    match T !! (n, t) with
    | Some x => liquidity_gross x = G n t /\ liquidity_net x = N n t
    | None => G n t = 0
    end;
}.

(** [f] with [v] added at one tick. *)
Definition plus_at (n t v : Z) (f : Z -> Z -> Z) : Z -> Z -> Z :=
  fun n' t' => if (n' =? n) && (t' =? t) then f n' t' + v else f n' t'.

Lemma plus_at_eq n t v f : plus_at n t v f n t = f n t + v.
Proof. unfold plus_at. by rewrite !Z.eqb_refl. Qed.
Lemma plus_at_ne n t v f n' t' : (n', t') <> (n, t) -> plus_at n t v f n' t' = f n' t'.
Proof.
  unfold plus_at. intros Hne. destruct (Z.eqb_spec n' n), (Z.eqb_spec t' t); cbn; congruence.
Qed.

Lemma ticks_book_ext G N G' N' T m : ticks_book G N T m ->
  (forall n t, G' n t = G n t) -> (forall n t, N' n t = N n t) -> ticks_book G' N' T m.
Proof.
  intros [H1 H2 H3 H4] EG EN. split; [done|done| |].
  - intros n t. rewrite EG, EN. apply H3.
  - intros n t. specialize (H4 n t). rewrite EG, EN. done.
Qed.

Section Books.
Context {FS : FrameSystem} {SI : StorageIter} {F : SubstrateFixed} {SF : SwapFixed} {Cfg : SwapConfig}.
Context {W : Type} {SN : SubnetInfo W} {BO : BalanceOps W}.
Implicit Types s : Swap W.

Lemma add_at_book G N s n t l (upper : bool) : ticks_book G N (Ticks s) (TickIndexBitmapWords s) ->
  TickIndex.valid t -> 0 <= l -> G n t + l <= U64_MAX ->
  ticks_book (plus_at n t l G) (plus_at n t (if upper then - l else l) N)
    (Ticks (add_liquidity_at_index n t l upper s)) (TickIndexBitmapWords (add_liquidity_at_index n t l upper s)).
Proof.
  intros [Hbit Hact Hb Ht] Hv Hl Hfit. split; cbn.
  - intros n'. by apply insert_ok.
  - intros n' t'. rewrite insert_active, Hact.
    destruct (decide ((n', t') = (n, t))) as [[= -> ->]|Hne].
    + rewrite lookup_insert_eq. naive_solver.
    + rewrite lookup_insert_ne by done. naive_solver.
  - intros n' t'. destruct (decide ((n', t') = (n, t))) as [[= -> ->]|Hne].
    + rewrite !plus_at_eq. specialize (Hb n t). destruct upper; lia.
    + by rewrite !plus_at_ne.
  - intros n' t'. destruct (decide ((n', t') = (n, t))) as [[= -> ->]|Hne].
    + rewrite !plus_at_eq, lookup_insert_eq. specialize (Hb n t). specialize (Ht n t).
      destruct (Ticks s !! (n, t)) as [x|]; cbn.
      * destruct Ht as [-> ->]. unfold sat_add, isat_add, clamp, I128_MIN, I128_MAX. destruct upper; split; lia.
      * destruct upper; lia.
    + rewrite !plus_at_ne, lookup_insert_ne by done. apply Ht.
Qed.

Lemma remove_at_book G N s n t l (upper : bool) : ticks_book G N (Ticks s) (TickIndexBitmapWords s) ->
  0 <= l -> Z.abs (N n t - (if upper then - l else l)) <= G n t - l ->
  ticks_book (plus_at n t (- l) G) (plus_at n t (- (if upper then - l else l)) N)
    (Ticks (remove_liquidity_at_index n t l upper s)) (TickIndexBitmapWords (remove_liquidity_at_index n t l upper s)).
Proof.
  intros [Hbit Hact Hb Ht] Hl Hfit. pose proof (Ht n t) as Hnt. pose proof (Hb n t) as Hbnt.
  unfold remove_liquidity_at_index. destruct (Ticks s !! (n, t)) as [x|] eqn:E.
  2:{ apply (ticks_book_ext G N); [by split| |]; intros n' t';
      destruct (decide ((n', t') = (n, t))) as [[= -> ->]|Hne]; rewrite ?plus_at_eq, ?plus_at_ne by done; destruct upper; lia. }
  destruct Hnt as [Hg Hnet]. cbn -[sat_sub].
  assert (sat_sub (liquidity_gross x) l = G n t - l) as -> by (unfold sat_sub; lia).
  assert (Hbounds : forall n' t', Z.abs (plus_at n t (- (if upper then - l else l)) N n' t') <= plus_at n t (- l) G n' t' <= U64_MAX).
  { intros n' t'. destruct (decide ((n', t') = (n, t))) as [[= -> ->]|Hne].
    - rewrite !plus_at_eq. destruct upper; lia.
    - by rewrite !plus_at_ne. }
  destruct (Z.eqb_spec (G n t - l) 0) as [E0|E0]; split; cbn.
  - intros n'. by apply remove_ok.
  - intros n' t'. rewrite remove_active, Hact. destruct (decide ((n', t') = (n, t))) as [[= -> ->]|Hne].
    + rewrite lookup_delete_eq, is_Some_alt. naive_solver.
    + rewrite lookup_delete_ne by done. naive_solver.
  - exact Hbounds.
  - intros n' t'. destruct (decide ((n', t') = (n, t))) as [[= -> ->]|Hne].
    + rewrite lookup_delete_eq, plus_at_eq. lia.
    + rewrite lookup_delete_ne, !plus_at_ne by done. apply Ht.
  - done.
  - intros n' t'. rewrite Hact. destruct (decide ((n', t') = (n, t))) as [[= -> ->]|Hne].
    + rewrite lookup_insert_eq, E. by rewrite !is_Some_alt.
    + by rewrite lookup_insert_ne.
  - exact Hbounds.
  - intros n' t'. destruct (decide ((n', t') = (n, t))) as [[= -> ->]|Hne].
    + rewrite lookup_insert_eq, !plus_at_eq. cbn. unfold isat_sub, clamp, I128_MIN, I128_MAX in *. destruct upper; lia.
    + rewrite lookup_insert_ne, !plus_at_ne by done. apply Ht.
Qed.

(** Both ends of a position at once. *)
Definition add_legs (p : Position) (l : Z) s : Swap W :=
  add_liquidity_at_index (Position.netuid p) (Position.tick_high p) l true
    (add_liquidity_at_index (Position.netuid p) (Position.tick_low p) l false s).
Definition remove_legs (p : Position) (l : Z) s : Swap W :=
  remove_liquidity_at_index (Position.netuid p) (Position.tick_high p) l true
    (remove_liquidity_at_index (Position.netuid p) (Position.tick_low p) l false s).

Lemma add_legs_book G N G' N' s p l : ticks_book G N (Ticks s) (TickIndexBitmapWords s) ->
  TickIndex.valid (Position.tick_low p) -> TickIndex.valid (Position.tick_high p) -> 0 <= l ->
  (forall n t, G' n t = G n t + gross_leg n t (p <| Position.liquidity := l |>)) ->
  (forall n t, N' n t = N n t + net_leg n t (p <| Position.liquidity := l |>)) ->
  (forall n t, G' n t <= U64_MAX) ->
  ticks_book G' N' (Ticks (add_legs p l s)) (TickIndexBitmapWords (add_legs p l s)).
Proof.
  intros Hb Hlo Hhi Hl EG EN Hfit. unfold add_legs.
  pose proof (Hfit (Position.netuid p) (Position.tick_low p)) as F1.
  pose proof (Hfit (Position.netuid p) (Position.tick_high p)) as F2.
  rewrite EG in F1, F2. unfold gross_leg, leg in F1, F2. cbn in F1, F2. rewrite !Z.eqb_refl in F1, F2.
  apply (add_at_book _ _ _ (Position.netuid p) (Position.tick_low p) l false) in Hb; [|done|done|destruct (_ =? _) in F1; lia].
  apply (add_at_book _ _ _ (Position.netuid p) (Position.tick_high p) l true) in Hb; [|done|done|].
  - eapply ticks_book_ext; [exact Hb| |]; intros n t; rewrite ?EG, ?EN;
      unfold gross_leg, net_leg, leg, plus_at; cbn;
      rewrite (Z.eqb_sym n), (Z.eqb_sym t (Position.tick_low p)), (Z.eqb_sym t (Position.tick_high p));
      destruct (_ =? n), (Position.tick_low p =? t), (Position.tick_high p =? t); cbn; lia.
  - unfold plus_at. rewrite Z.eqb_refl, (Z.eqb_sym (Position.tick_high p)). cbn. destruct (_ =? Position.tick_high p); lia.
Qed.

Lemma remove_legs_book G N G' N' s p l : ticks_book G N (Ticks s) (TickIndexBitmapWords s) -> 0 <= l ->
  (forall n t, G n t = G' n t + gross_leg n t (p <| Position.liquidity := l |>)) ->
  (forall n t, N n t = N' n t + net_leg n t (p <| Position.liquidity := l |>)) ->
  (forall n t, Z.abs (N' n t) <= G' n t) ->
  ticks_book G' N' (Ticks (remove_legs p l s)) (TickIndexBitmapWords (remove_legs p l s)).
Proof.
  intros Hb Hl EG EN Hrest. unfold remove_legs.
  apply (remove_at_book _ _ _ (Position.netuid p) (Position.tick_low p) l false) in Hb; [|done|].
  - apply (remove_at_book _ _ _ (Position.netuid p) (Position.tick_high p) l true) in Hb; [|done|].
    + eapply ticks_book_ext; [exact Hb| |]; intros n t; unfold plus_at; rewrite ?EG, ?EN;
        unfold gross_leg, net_leg, leg; cbn;
        rewrite (Z.eqb_sym n), (Z.eqb_sym t (Position.tick_low p)), (Z.eqb_sym t (Position.tick_high p));
        destruct (_ =? n), (Position.tick_low p =? t), (Position.tick_high p =? t); cbn; lia.
    + pose proof (Hrest (Position.netuid p) (Position.tick_high p)). unfold plus_at. rewrite EG, EN.
      unfold gross_leg, net_leg, leg. cbn. rewrite !Z.eqb_refl, (Z.eqb_sym (Position.tick_high p)). cbn.
      destruct (_ =? Position.tick_high p); lia.
  - pose proof (Hrest (Position.netuid p) (Position.tick_low p)). rewrite EG, EN.
    unfold gross_leg, net_leg, leg. cbn. rewrite !Z.eqb_refl. destruct (_ =? Position.tick_low p); lia.
Qed.

(** ** Sums over the positions *)

Definition over_positions (f : Position -> Z) (P : gmap (Z * AccountId * Z) Position) : Z := map_sum (f <$> P).
Definition gross_at (P : gmap (Z * AccountId * Z) Position) (n t : Z) : Z := over_positions (gross_leg n t) P.
Definition net_at (P : gmap (Z * AccountId * Z) Position) (n t : Z) : Z := over_positions (net_leg n t) P.

Lemma over_insert_new f P k p : P !! k = None -> over_positions f (<[k := p]> P) = over_positions f P + f p.
Proof.
  intros Hk. unfold over_positions. rewrite fmap_insert, map_sum_insert_None; [lia|]. by rewrite lookup_fmap, Hk.
Qed.
Lemma over_insert f P k p q : P !! k = Some p -> over_positions f (<[k := q]> P) = over_positions f P - f p + f q.
Proof.
  intros Hk. unfold over_positions. rewrite fmap_insert, (map_sum_insert_Some _ k (f p)); [done|]. by rewrite lookup_fmap, Hk.
Qed.
Lemma over_delete f P k p : P !! k = Some p -> over_positions f (delete k P) = over_positions f P - f p.
Proof.
  intros Hk. unfold over_positions. rewrite fmap_delete, (map_sum_delete _ k (f p)); [done|]. by rewrite lookup_fmap, Hk.
Qed.

Lemma net_le_gross P n t : (forall k p, P !! k = Some p -> 0 <= Position.liquidity p) ->
  Z.abs (net_at P n t) <= gross_at P n t.
Proof.
  unfold net_at, gross_at. induction P as [|k p P Hk IH] using map_ind; intros Hp.
  - unfold over_positions. by rewrite !fmap_empty.
  - rewrite !over_insert_new by done.
    assert (0 <= Position.liquidity p) by (apply (Hp k); by rewrite lookup_insert_eq).
    assert (Z.abs (net_leg n t p) <= gross_leg n t p).
    { unfold net_leg, gross_leg, leg. repeat case_match; lia. }
    enough (Z.abs (over_positions (net_leg n t) P) <= over_positions (gross_leg n t) P) by lia.
    apply IH. intros j q Hj. apply (Hp j). rewrite lookup_insert_ne; [done|congruence].
Qed.

(** ** The invariant *)

Record position_ok s (n i : Z) (p : Position) : Prop := {
  po_id : Position.id p = i;
  po_net : Position.netuid p = n;
  po_old : i <= LastPositionId s;
  po_low : TickIndex.valid (Position.tick_low p);
  po_high : TickIndex.valid (Position.tick_high p);
  po_liquidity : in_type u64 (Position.liquidity p);
}.

Lemma position_ok_later s s' n i p : LastPositionId s <= LastPositionId s' -> position_ok s n i p -> position_ok s' n i p.
Proof. intros Hle []. split; try done. lia. Qed.

Record books_ok s : Prop := {
  bk_ticks : ticks_book (gross_at (Positions s)) (net_at (Positions s)) (Ticks s) (TickIndexBitmapWords s);
  bk_pos : forall n a i p, Positions s !! (n, a, i) = Some p -> position_ok s n i p;
  bk_current : forall n, TickIndex.valid (current_tick n s);
}.

(** The liquidity that meets at a tick fits [u64], and the positions have not
    run out of identifiers. *)
Definition fits s : Prop := (forall n t, gross_at (Positions s) n t <= U64_MAX) /\ LastPositionId s < U128_MAX.

Lemma positions_nonneg s k p : books_ok s -> Positions s !! k = Some p -> 0 <= Position.liquidity p.
Proof. intros Hok Hk. destruct k as [[n a] i]. apply (bk_pos s Hok) in Hk as [_ _ _ _ _ H]. apply H. Qed.

(** The fields of the state the invariant speaks about. *)
Definition same_books s s' : Prop :=
  Ticks s' = Ticks s /\ TickIndexBitmapWords s' = TickIndexBitmapWords s /\ Positions s' = Positions s /\
  LastPositionId s' = LastPositionId s /\ CurrentTick s' = CurrentTick s.

Lemma same_books_refl s : same_books s s.
Proof. done. Qed.
Lemma same_books_trans s1 s2 s3 : same_books s1 s2 -> same_books s2 s3 -> same_books s1 s3.
Proof. unfold same_books. naive_solver congruence. Qed.

Lemma books_same s s' : same_books s s' -> books_ok s -> books_ok s'.
Proof.
  intros (E1 & E2 & E3 & E4 & E5) [H1 H2 H3]. split.
  - by rewrite E1, E2, E3.
  - intros n a i p Hp. rewrite E3 in Hp. eapply position_ok_later; [|by apply (H2 n a)]. by rewrite E4.
  - intros n. unfold current_tick. rewrite E5. apply H3.
Qed.
Lemma fits_same s s' : same_books s s' -> fits s' -> fits s.
Proof. intros (E1 & E2 & E3 & E4 & E5). unfold fits. by rewrite E3, E4. Qed.

Lemma clamp_same n t s : same_books s (clamp_sqrt_price n t s).
Proof. unfold clamp_sqrt_price. by destruct (_ || _). Qed.
Lemma update_same n lo hi l s : same_books s (update_liquidity_if_needed n lo hi l s).
Proof. unfold update_liquidity_if_needed. by destruct (_ && _). Qed.
Lemma set_liquidity_same n l s : same_books s (set_current_liquidity n l s).
Proof. done. Qed.
Lemma set_price_same n l s : same_books s (set_alpha_sqrt_price n l s).
Proof. done. Qed.
Lemma add_fees_same n o fee s : same_books s (add_fees n o fee s).
Proof. unfold add_fees. destruct (_ =? 0); [done|]. by destruct o. Qed.

Lemma add_legs_frame p l s : Positions (add_legs p l s) = Positions s /\ LastPositionId (add_legs p l s) = LastPositionId s /\
  CurrentTick (add_legs p l s) = CurrentTick s.
Proof. done. Qed.
Lemma remove_at_frame n t l u s : Positions (remove_liquidity_at_index n t l u s) = Positions s /\
  LastPositionId (remove_liquidity_at_index n t l u s) = LastPositionId s /\
  CurrentTick (remove_liquidity_at_index n t l u s) = CurrentTick s.
Proof. unfold remove_liquidity_at_index. destruct (Ticks s !! _); [|done]. by destruct (_ =? 0). Qed.
Lemma remove_legs_frame p l s : Positions (remove_legs p l s) = Positions s /\ LastPositionId (remove_legs p l s) = LastPositionId s /\
  CurrentTick (remove_legs p l s) = CurrentTick s.
Proof.
  unfold remove_legs. destruct (remove_at_frame (Position.netuid p) (Position.tick_low p) l false s) as (<- & <- & <-).
  apply remove_at_frame.
Qed.

Lemma sqrt_price_of_valid t p : sqrt_price_of t = Ok p -> TickIndex.valid t.
Proof.
  unfold sqrt_price_of, try_to_sqrt_price. destruct (negb _) eqn:E; [done|]. intros _.
  apply negb_false_iff, andb_true_iff in E as [E1%Z.leb_le E2%Z.leb_le]. done.
Qed.
Lemma token_amounts_valid p price r : to_token_amounts p price = Ok r ->
  TickIndex.valid (Position.tick_low p) /\ TickIndex.valid (Position.tick_high p).
Proof.
  unfold to_token_amounts. destruct (sqrt_price_of (Position.tick_low p)) eqn:E1; [|done].
  destruct (sqrt_price_of (Position.tick_high p)) eqn:E2; [|done]. eauto using sqrt_price_of_valid.
Qed.

(** Opening a position without putting it into the storage. *)
Lemma not_insert_ok n c lo hi l s p tao alpha s' : add_liquidity_not_insert n c lo hi l s = Ok ((p, tao, alpha), s') ->
  let s1 := add_legs p l s in
  Position.id p = LastPositionId s' /\ Position.netuid p = n /\ Position.tick_low p = lo /\ Position.tick_high p = hi /\
  Position.liquidity p = l /\ TickIndex.valid lo /\ TickIndex.valid hi /\
  Ticks s' = Ticks s1 /\ TickIndexBitmapWords s' = TickIndexBitmapWords s1 /\ Positions s' = Positions s /\
  LastPositionId s' = sat_add U128_MAX (LastPositionId s) 1 /\ CurrentTick s' = CurrentTick s.
Proof.
  unfold add_liquidity_not_insert, new_position_id. intros H. monad_inv H.
  match goal with H : to_token_amounts _ _ = _ |- _ => apply token_amounts_valid in H as [V1 V2] end.
  unfold add_legs. cbn [Position.netuid Position.tick_low Position.tick_high Position.id Position.liquidity] in *.
  set (s1 := add_liquidity_at_index n hi l true (add_liquidity_at_index n lo l false s)) in *.
  pose proof (clamp_same n (current_bounded n s1) s1) as Hc.
  set (s2 := clamp_sqrt_price n (current_bounded n s1) s1) in *.
  destruct (same_books_trans _ _ _ Hc (update_same n lo hi l s2)) as (E1 & E2 & E3 & E4 & E5).
  repeat split; cbn; first [done | apply V1 | apply V2 | by rewrite E4].
Qed.

(** A position that was just opened enters the books. *)
Lemma books_add s s' a p : books_ok s -> in_type u64 (Position.liquidity p) ->
  let s1 := add_legs p (Position.liquidity p) s in
  Position.id p = LastPositionId s + 1 -> TickIndex.valid (Position.tick_low p) -> TickIndex.valid (Position.tick_high p) ->
  Ticks s' = Ticks s1 -> TickIndexBitmapWords s' = TickIndexBitmapWords s1 ->
  Positions s' = <[(Position.netuid p, a, Position.id p) := p]> (Positions s) ->
  LastPositionId s' = Position.id p -> (forall n, TickIndex.valid (current_tick n s')) -> fits s' -> books_ok s'.
Proof.
  intros [H1 H2 H3] Hl s1 Hid Hlo Hhi E1 E2 E3 E4 E5 [Hfit _].
  assert (Hnew : Positions s !! (Position.netuid p, a, Position.id p) = None).
  { destruct (Positions s !! _) as [q|] eqn:E; [|done]. apply H2 in E as [_ _ Hold _ _ _]. lia. }
  assert (Ep : p <| Position.liquidity := Position.liquidity p |> = p) by by destruct p.
  split.
  - rewrite E1, E2. apply (add_legs_book _ _ _ _ s p (Position.liquidity p) H1); try done.
    + apply Hl.
    + intros n t. rewrite E3, Ep. unfold gross_at. by rewrite over_insert_new.
    + intros n t. rewrite E3, Ep. unfold net_at. by rewrite over_insert_new.
  - intros n b i q Hq. rewrite E3 in Hq. apply lookup_insert_Some in Hq as [[[= <- <- <-] <-]|[_ Hq]].
    + split; try done. lia.
    + destruct (H2 n b i q Hq). split; try done. lia.
  - done.
Qed.

Lemma sat_id m k : sat_add m k 1 < m -> sat_add m k 1 = k + 1.
Proof. unfold sat_add. lia. Qed.

(** Opening and storing a position, as [do_add_liquidity] and
    [maybe_initialize_v3] do it. *)
Lemma open_books n c a lo hi l s p tao alpha s1 s' : books_ok s -> in_type u64 l ->
  add_liquidity_not_insert n c lo hi l s = Ok ((p, tao, alpha), s1) ->
  same_books (put_position n a (Position.id p) p s1) s' -> fits s' -> books_ok s'.
Proof.
  intros Hok Hl Hrun Hsame Hfit. apply (books_same _ _ Hsame). pose proof (fits_same _ _ Hsame Hfit) as Hf.
  apply not_insert_ok in Hrun as (Eid & <- & <- & <- & El & V1 & V2 & E1 & E2 & E3 & E4 & E5).
  pose proof (proj2 Hf) as Hlast. cbn in Hlast. rewrite E4 in Hlast. apply sat_id in Hlast. rewrite Hlast in E4.
  apply (books_add s _ a p Hok); rewrite ?El; try done.
  - lia.
  - cbn. by rewrite E3.
  - intros n. unfold current_tick. cbn. rewrite E5. apply Hok.
Qed.

Lemma do_add_books n c h lo hi l s r s' : books_ok s -> in_type u64 l ->
  do_add_liquidity n c h lo hi l s = Ok (r, s') -> fits s' -> books_ok s'.
Proof.
  intros Hok Hl H. unfold do_add_liquidity in H. monad_inv H.
  eapply open_books; [exact Hok|exact Hl|eassumption|]. apply same_books_refl.
Qed.

Lemma new_valid t u : TickIndex.new t = Ok u -> TickIndex.valid u.
Proof.
  unfold TickIndex.new. case_match eqn:E; [|done]. intros [= <-].
  apply andb_true_iff in E as [E1%Z.leb_le E2%Z.leb_le]. done.
Qed.
Lemma bounded_valid p : TickIndex.valid (from_sqrt_price_bounded p).
Proof.
  unfold from_sqrt_price_bounded, try_from_sqrt_price.
  assert (TickIndex.valid TickIndex.MAX /\ TickIndex.valid TickIndex.MIN) as [H1 H2] by (split; vm_compute; split; congruence).
  repeat case_match; try done; simplify_eq; by eapply new_valid.
Qed.

Lemma set_current_tick_books n t s : books_ok s -> TickIndex.valid t -> books_ok (set_current_tick n t s).
Proof.
  intros [H1 H2 H3] Ht. split; [done| |].
  - intros n' a i p Hp. eapply position_ok_later; [|by apply (H2 n' a)]. done.
  - intros n'. unfold current_tick. cbn. destruct (decide (n' = n)) as [->|].
    + by rewrite lookup_insert_eq.
    + rewrite lookup_insert_ne by done. apply H3.
Qed.

Lemma mod_u64 x : in_type u64 (x mod 2 ^ 64).
Proof. pose proof (Z.mod_pos_bound x (2 ^ 64) eq_refl). unfold in_type, int_min, int_max. lia. Qed.

Lemma initialize_books n s s' : books_ok s -> maybe_initialize_v3 n s = Ok (tt, s') -> fits s' -> books_ok s'.
Proof.
  intros Hok H. unfold maybe_initialize_v3 in H. monad_inv H; [done|].
  eapply open_books; [| |eassumption|apply same_books_refl].
  - apply set_current_tick_books; [|apply bounded_valid]. eapply books_same; [|exact Hok]. done.
  - apply mod_u64.
Qed.

(** ** Removing and modifying *)

Lemma collected p s fee_tao fee_alpha q : collect_fees p s = (fee_tao, fee_alpha, q) ->
  exists a b, q = p <| Position.fees_tao := a |> <| Position.fees_alpha := b |>.
Proof. unfold collect_fees. intros [= _ _ <-]. eauto. Qed.

(** A position with other fees on record and another liquidity. *)
Definition refit (p : Position) (a b l : Z) : Position :=
  p <| Position.fees_tao := a |> <| Position.fees_alpha := b |> <| Position.liquidity := l |>.

Lemma gross_refit n t p a b l k : l = Position.liquidity p + k ->
  gross_leg n t (refit p a b l) = gross_leg n t p + gross_leg n t (p <| Position.liquidity := k |>).
Proof. intros ->. unfold gross_leg, leg. cbn. repeat case_match; lia. Qed.
Lemma net_refit n t p a b l k : l = Position.liquidity p + k ->
  net_leg n t (refit p a b l) = net_leg n t p + net_leg n t (p <| Position.liquidity := k |>).
Proof. intros ->. unfold net_leg, leg. cbn. repeat case_match; lia. Qed.
Lemma gross_neg n t p k : gross_leg n t (p <| Position.liquidity := - k |>) = - gross_leg n t (p <| Position.liquidity := k |>).
Proof. unfold gross_leg, leg. cbn. repeat case_match; lia. Qed.
Lemma net_neg n t p k : net_leg n t (p <| Position.liquidity := - k |>) = - net_leg n t (p <| Position.liquidity := k |>).
Proof. unfold net_leg, leg. cbn. repeat case_match; lia. Qed.

Lemma self_liquidity p : p <| Position.liquidity := Position.liquidity p |> = p.
Proof. by destruct p. Qed.

Section OnePosition.
Variables (s : Swap W) (n : Z) (c : AccountId) (i : Z) (p : Position).
Hypotheses (Hok : books_ok s) (Hp : Positions s !! (n, c, i) = Some p).

Lemma at_home : position_ok s n i p.
Proof using Hok Hp. by apply (bk_pos s Hok n c). Qed.

(** The whole position leaves. *)
Lemma leave_books : books_ok (remove_position n c i (remove_legs p (Position.liquidity p) s)).
Proof using Hok Hp.
  destruct at_home as [P1 P2 P3 P4 P5 P6]. destruct (remove_legs_frame p (Position.liquidity p) s) as (F1 & F2 & F3). split; cbn.
  - eapply (remove_legs_book _ _ _ _ s p (Position.liquidity p) (bk_ticks s Hok)); [apply P6| | |]; rewrite ?F1, ?self_liquidity.
    + intros n' t. unfold gross_at. rewrite (over_delete _ _ _ _ Hp). lia.
    + intros n' t. unfold net_at. rewrite (over_delete _ _ _ _ Hp). lia.
    + intros n' t. apply net_le_gross. intros k q [_ Hk]%lookup_delete_Some. by eapply positions_nonneg.
  - intros n' a' i' q Hq. rewrite F1 in Hq. apply lookup_delete_Some in Hq as [_ Hq].
    eapply (position_ok_later s); [|by apply (bk_pos s Hok n' a')]. cbn. by rewrite F2.
  - intros n'. unfold current_tick. cbn. rewrite F3. apply Hok.
Qed.

Lemma put_positions l a b s1 : LastPositionId s1 = LastPositionId s -> Positions s1 = Positions s -> in_type u64 l ->
  forall n' a' i' q, Positions (put_position n c i (refit p a b l) s1) !! (n', a', i') = Some q ->
  position_ok (put_position n c i (refit p a b l) s1) n' i' q.
Proof using Hok Hp.
  intros E1 E2 Hl n' a' i' q. cbn. rewrite E2. intros [[[= <- <- <-] <-]|[_ Hq]]%lookup_insert_Some.
  - destruct at_home. split; try done. cbn. by rewrite E1.
  - eapply (position_ok_later s); [|by apply (bk_pos s Hok n' a')]. cbn. by rewrite E1.
Qed.

(** Part of it leaves. *)
Lemma shrink_books a b k l : 0 <= k -> l = Position.liquidity p - k -> 0 <= l ->
  books_ok (put_position n c i (refit p a b l) (remove_legs p k s)).
Proof using Hok Hp.
  intros Hk El Hl. pose proof at_home as [P1 P2 P3 P4 P5 P6]. destruct (remove_legs_frame p k s) as (F1 & F2 & F3).
  assert (in_type u64 l) by (unfold in_type, int_min, int_max in *; lia).
  split.
  - eapply (remove_legs_book _ _ _ _ s p k (bk_ticks s Hok)); [done| | |]; cbn; rewrite ?F1.
    + intros n' t. unfold gross_at. rewrite (over_insert _ _ _ _ _ Hp), (gross_refit _ _ _ _ _ _ (- k)), gross_neg by lia. lia.
    + intros n' t. unfold net_at. rewrite (over_insert _ _ _ _ _ Hp), (net_refit _ _ _ _ _ _ (- k)), net_neg by lia. lia.
    + intros n' t. apply net_le_gross. intros j q [[_ <-]|[_ Hj]]%lookup_insert_Some; [done|by eapply positions_nonneg].
  - by apply put_positions.
  - intros n'. unfold current_tick. cbn. rewrite F3. apply Hok.
Qed.

(** The position grows. *)
Lemma grow_books a b k l : 0 <= k -> l = Position.liquidity p + k -> l <= U64_MAX ->
  fits (put_position n c i (refit p a b l) (add_legs p k s)) ->
  books_ok (put_position n c i (refit p a b l) (add_legs p k s)).
Proof using Hok Hp.
  intros Hk El Hl [Hfit _]. pose proof at_home as [P1 P2 P3 P4 P5 P6]. destruct (add_legs_frame p k s) as (F1 & F2 & F3).
  assert (in_type u64 l) by (unfold in_type, int_min, int_max in *; lia).
  split.
  - eapply (add_legs_book _ _ _ _ s p k (bk_ticks s Hok)); [done..| | |]; cbn; rewrite ?F1.
    + intros n' t. unfold gross_at. rewrite (over_insert _ _ _ _ _ Hp), (gross_refit _ _ _ _ _ _ k) by lia. lia.
    + intros n' t. unfold net_at. rewrite (over_insert _ _ _ _ _ Hp), (net_refit _ _ _ _ _ _ k) by lia. lia.
    + apply Hfit.
  - by apply put_positions.
  - apply Hok.
Qed.
End OnePosition.

Lemma do_remove_books n c i s r s' : books_ok s -> do_remove_liquidity n c i s = Ok (r, s') -> books_ok s'.
Proof.
  intros Hok H. unfold do_remove_liquidity in H. monad_inv H.
  match goal with E : position_at _ _ _ _ = Some ?q |- _ => rename q into p, E into Hp end.
  match goal with E : collect_fees _ _ = _ |- _ => apply collected in E as (a & b & ->) end.
  destruct (bk_pos s Hok n c i p Hp) as [P1 P2 _ _ _ _]. cbn in *. subst n.
  change (remove_liquidity_at_index _ _ _ true _) with (remove_legs p (Position.liquidity p) s).
  eapply books_same; [|by apply (leave_books s (Position.netuid p) c i p)].
  pose proof (update_same (Position.netuid p) (Position.tick_low p) (Position.tick_high p) (- Position.liquidity p)
    (remove_legs p (Position.liquidity p) s)) as (E1 & E2 & E3 & E4 & E5).
  split_and!; cbn; by rewrite ?E3.
Qed.

Lemma price_box_same n d a b s x s' : price_box n d a b s = Ok (x, s') -> same_books s s'.
Proof. unfold price_box. intros H. by monad_inv H. Qed.

Lemma do_modify_books n c h i d s r s' : books_ok s ->
  (forall p, position_at n c i s = Some p -> 0 < d -> Position.liquidity p + d <= U64_MAX) ->
  do_modify_position n c h i d s = Ok (r, s') -> fits s' -> books_ok s'.
Proof.
  intros Hok Hroom H Hfit. unfold do_modify_position in H.
  monad_inv H; match goal with E : position_at _ _ _ _ = Some ?q |- _ => rename q into p, E into Hp end;
    (match goal with E : collect_fees _ _ = _ |- _ => apply collected in E as (f & g & ->) end);
    destruct (bk_pos s Hok n c i p Hp) as [P1 P2 _ _ _ P6]; cbn -[in_type] in *; subst n;
    (match goal with E : price_box _ _ _ _ _ = _ |- _ => apply price_box_same in E as Hs end);
    pose proof (books_same _ _ Hs Hok) as Hok'; assert (Positions s0 !! (Position.netuid p, c, i) = Some p)
      as Hp' by (destruct Hs as (_ & _ & -> & _); exact Hp).
  - lia.
  - rewrite P1 in *. specialize (Hroom p eq_refl).
    change (over Position.liquidity _ _) with (refit p f g (sat_add U64_MAX (Position.liquidity p) (Z.abs d))) in *.
    apply (grow_books s0 (Position.netuid p) c i p Hok' Hp' f g (Z.abs d)); try done; unfold sat_add; lia.
  - by apply (leave_books s0 (Position.netuid p) c i p).
  - rewrite P1 in *.
    change (over Position.liquidity _ _) with (refit p f g (sat_sub (Position.liquidity p) (Z.abs d))) in *.
    apply (shrink_books s0 (Position.netuid p) c i p Hok' Hp' f g (Z.abs d)); try done; unfold sat_sub; lia.
Qed.
(** ** Swapping *)

Lemma touch_book G N T m n t x y : ticks_book G N T m -> T !! (n, t) = Some x ->
  liquidity_gross y = liquidity_gross x -> liquidity_net y = liquidity_net x -> ticks_book G N (<[(n, t) := y]> T) m.
Proof.
  intros [H1 H2 H3 H4] Hx Eg En. split; [done| |done|]; intros n' t'.
  - rewrite H2. destruct (decide ((n', t') = (n, t))) as [[= -> ->]|Hne].
    + rewrite lookup_insert_eq, Hx. by rewrite !is_Some_alt.
    + by rewrite lookup_insert_ne.
  - specialize (H4 n' t'). destruct (decide ((n', t') = (n, t))) as [[= -> ->]|Hne].
    + rewrite lookup_insert_eq. rewrite Hx in H4. by rewrite Eg, En.
    + by rewrite lookup_insert_ne.
Qed.

Lemma bounded_id n s : TickIndex.valid (current_tick n s) -> current_bounded n s = current_tick n s.
Proof. unfold current_bounded, TickIndex.valid. intros H. repeat case_match; lia. Qed.

(** The tick a step runs into. *)
Definition at_edge (p : SwapStep) s : Prop :=
  SwapStep.edge_tick p = tick_edge (SwapStep.netuid p) (current_tick (SwapStep.netuid p) s) (SwapStep.order_type p) s.

Lemma determine_frame p s : SwapStep.netuid (determine_action p s) = SwapStep.netuid p /\
  SwapStep.order_type (determine_action p s) = SwapStep.order_type p /\
  SwapStep.edge_tick (determine_action p s) = SwapStep.edge_tick p.
Proof. unfold determine_action. by repeat case_match; simplify_eq. Qed.
Lemma at_edge_step n o a lim s : at_edge (determine_action (new_step n o a lim s) s) s.
Proof. unfold at_edge. by destruct (determine_frame (new_step n o a lim s) s) as (-> & -> & ->). Qed.

Lemma add_fees_edge n o fee s t q : tick_edge n t q (add_fees n o fee s) = tick_edge n t q s.
Proof. unfold add_fees. destruct (_ =? 0); [done|]. by destruct o. Qed.

Lemma crossing_ok n o s s' : books_ok s -> update_liquidity_at_crossing n o s = Ok (tt, s') ->
  is_Some (Ticks s !! (n, tick_edge n (current_tick n s) o s)) /\ exists v, s' = set_current_liquidity n v s.
Proof.
  intros Hok H. unfold update_liquidity_at_crossing in H. monad_inv H.
  match goal with H : Ticks s !! _ = Some _ |- _ => rewrite bounded_id in H by apply Hok; rewrite H end. eauto.
Qed.

(** What the steps of a swap do not touch. *)
Definition same_positions s s' : Prop := Positions s' = Positions s /\ LastPositionId s' = LastPositionId s.

Lemma process_positions p s r s' : process_swap p s = Ok (r, s') -> same_positions s s'.
Proof.
  intros H. unfold process_swap, update_liquidity_at_crossing in H. monad_inv H;
    match goal with |- context [add_fees ?n ?o ?f ?s] => by destruct (add_fees_same n o f s) as (_ & _ & ? & ? & _) end.
Qed.

Lemma process_books p s r s' : books_ok s -> at_edge p s -> process_swap p s = Ok (r, s') -> books_ok s'.
Proof.
  intros Hok Hedge H. unfold process_swap in H. monad_inv H.
  all: pose proof (add_fees_same (SwapStep.netuid p) (SwapStep.order_type p) (SwapStep.fee p) s) as Hs;
    pose proof (books_same _ _ Hs Hok) as Hok1.
  - match goal with H : update_liquidity_at_crossing _ _ _ = Ok (?u, _) |- _ =>
      destruct u; apply crossing_ok in H as [[x Hx] [v ->]]; [|exact Hok1] end.
    destruct Hs as (E1 & E2 & E3 & E4 & E5). rewrite add_fees_edge in Hx.
    unfold current_tick in Hx. rewrite E5 in Hx. fold (current_tick (SwapStep.netuid p) s) in Hx.
    rewrite <- Hedge in Hx. apply set_current_tick_books; [|apply bounded_valid].
    destruct Hok1 as [K1 K2 K3]. split; [|intros n a i q Hq; by eapply position_ok_later; [|by apply (K2 n a)]|done].
    apply (touch_book _ _ _ _ _ _ x); [done|done| |]; unfold flip_fees, tick_at; by rewrite Hx.
  - apply set_current_tick_books; [|apply bounded_valid]. by eapply books_same; [|exact Hok1].
Qed.

Lemma loop_positions fuel n o lim : forall a s a' s', swap_loop fuel n o lim a s = Ok (a', s') -> same_positions s s'.
Proof.
  induction fuel as [|fuel IH]; intros a s a' s' H; cbn [swap_loop] in H; monad_inv H; [|done].
  apply IH in H as [E1 E2]. match goal with H : swap_turn _ _ _ _ _ = _ |- _ => unfold swap_turn in H; monad_inv H end.
  match goal with H : process_swap _ _ = _ |- _ => apply process_positions in H as [E3 E4] end.
  unfold same_positions. by rewrite E1, E2, E3, E4.
Qed.

Lemma loop_books fuel n o lim : forall a s a' s', books_ok s -> swap_loop fuel n o lim a s = Ok (a', s') -> books_ok s'.
Proof.
  induction fuel as [|fuel IH]; intros a s a' s' Hok H; cbn [swap_loop] in H; monad_inv H; [|done].
  apply IH in H; [done|]. match goal with H : swap_turn _ _ _ _ _ = _ |- _ => unfold swap_turn in H; monad_inv H end.
  match goal with H : process_swap _ _ = _ |- _ => apply process_books in H; [done|done|apply at_edge_step] end.
Qed.

Lemma inner_books n o amount lim s r s' : books_ok s -> swap_inner n o amount lim s = Ok (r, s') -> fits s' -> books_ok s'.
Proof.
  intros Hok H Hfit. unfold swap_inner in H. monad_inv H.
  match goal with L : swap_loop _ _ _ _ _ _ = _ |- _ => pose proof (loop_positions _ _ _ _ _ _ _ _ L) as [E1 E2];
    apply loop_books in L; [done|] end.
  match goal with H : maybe_initialize_v3 _ _ = Ok (?u, _) |- _ => destruct u; apply initialize_books in H; [done|done|] end.
  unfold fits in *. by rewrite <- E1, <- E2.
Qed.

Lemma do_swap_books n o amount lim simulate s : books_ok s -> fits (do_swap n o amount lim simulate s).2 ->
  books_ok (do_swap n o amount lim simulate s).2.
Proof.
  unfold do_swap. destruct (swap_inner n o amount lim s) as [[r s']|] eqn:E; [|done].
  destruct simulate; cbn; [done|]. intros Hok. by eapply inner_books.
Qed.

(** ** The calls *)

Lemma on_world_same f s : same_books s (on_world f s).
Proof. done. Qed.
Lemma provide_same c h n tao alpha s s' : provide c h n tao alpha s = Ok (tt, s') -> same_books s s'.
Proof. unfold provide, try_world. intros H. by monad_inv H. Qed.
Lemma stake_same c h n alpha s u s' : increase_stake_of c h n alpha s = Ok (u, s') -> same_books s s'.
Proof. unfold increase_stake_of. intros H. by monad_inv H. Qed.

Ltac same_step :=
  repeat match goal with
  | H : provide _ _ _ _ _ _ = Ok (?u, _) |- _ => destruct u; apply provide_same in H
  | H : increase_stake_of _ _ _ _ _ = Ok (_, _) |- _ => apply stake_same in H
  end; unfold same_books in *; cbn in *; naive_solver congruence.

Lemma root_or_same o n b s u s' : ensure_root_or o n b s = Ok (u, s') -> s' = s.
Proof. unfold ensure_root_or. intros H. by monad_inv H. Qed.
Lemma subnet_same n s u s' : ensure_subnet n s = Ok (u, s') -> s' = s.
Proof. unfold ensure_subnet. intros H. by monad_inv H. Qed.

(** The arguments are of their types, and no position outgrows its own. *)
Definition call_typed (c : SwapCall) s : Prop :=
  match c with
  | AddLiquidity _ _ _ _ _ l => in_type u64 l
  | ModifyPosition o _ n i d => forall who p, ensure_signed o = Ok who -> position_at n who i s = Some p ->
      0 < d -> Position.liquidity p + d <= U64_MAX
  | _ => True
  end.

Lemma call_books c s s' : books_ok s -> call_typed c s -> swap_call c s = Ok (tt, s') -> fits s' -> books_ok s'.
Proof.
  intros Hok Ht H Hfit. destruct c; cbn in H, Ht;
    [unfold set_fee_rate in H|unfold toggle_user_liquidity in H|unfold add_liquidity in H|unfold remove_liquidity in H
    |unfold modify_position in H]; monad_inv H;
    repeat match goal with
    | E : ensure_root_or _ _ _ _ = Ok _ |- _ => apply root_or_same in E; subst
    | E : ensure_subnet _ _ = Ok _ |- _ => apply subnet_same in E; subst
    end.
  all: try (by eapply books_same; [|exact Hok]).
  all: match goal with
    | D : do_add_liquidity _ _ _ _ _ _ _ = Ok (_, ?s1) |- books_ok ?s2 => assert (same_books s1 s2) as Hs by same_step
    | D : do_remove_liquidity _ _ _ _ = Ok (_, ?s1) |- books_ok ?s2 => assert (same_books s1 s2) as Hs by same_step
    | D : do_modify_position _ _ _ _ _ _ = Ok (_, ?s1) |- books_ok ?s2 => assert (same_books s1 s2) as Hs by same_step
    end; apply (books_same _ _ Hs); pose proof (fits_same _ _ Hs Hfit).
  all: match goal with
    | D : do_add_liquidity _ _ _ _ _ _ _ = _ |- _ => by eapply do_add_books; [..|exact D|]
    | D : do_remove_liquidity _ _ _ _ = _ |- _ => by eapply do_remove_books; [|exact D]
    | D : do_modify_position _ _ _ _ _ _ = _ |- _ => eapply do_modify_books; [done| |exact D|done]; intros; by eapply Ht
    end.
Qed.

(** ** Every reachable state *)

(** A successful call, a swap (kept, rolled back or simulated), or anything that
    happens outside the pallet. [adjust_protocol_liquidity], which gives the
    position of the protocol a new liquidity and leaves the ticks alone, is not
    among them. *)
Inductive swap_step : Swap W -> Swap W -> Prop :=
  | step_call c s s' : call_typed c s -> swap_call c s = Ok (tt, s') -> swap_step s s'
  | step_swap n o amount lim simulate s : swap_step s (do_swap n o amount lim simulate s).2
  | step_world s w : swap_step s (s <| world := w |>).

Inductive swap_reachable : Swap W -> Prop :=
  | reach_genesis s : Ticks s = ∅ -> TickIndexBitmapWords s = ∅ -> Positions s = ∅ -> CurrentTick s = ∅ -> swap_reachable s
  | reach_step s s' : swap_reachable s -> swap_step s s' -> fits s' -> swap_reachable s'.

Lemma reachable_books s : swap_reachable s -> books_ok s.
Proof.
  induction 1 as [s E1 E2 E3 E4|s s' Hr IH Hstep Hfit].
  - destruct represents_empty as [Hb Ha]. split.
    + rewrite E1, E2, E3. split; [done| | |].
      * intros n t. rewrite Ha, lookup_empty, is_Some_alt. set_solver.
      * done.
      * intros n t. by rewrite lookup_empty.
    + intros n a i p. by rewrite E3, lookup_empty.
    + intros n. unfold current_tick. rewrite E4, lookup_empty. vm_compute. split; congruence.
  - destruct Hstep as [c s s' Ht H|n o amount lim simulate s|s w].
    + by eapply call_books.
    + by apply do_swap_books.
    + by eapply books_same; [|exact IH].
Qed.

(** C2: The tick books balance. In every state reached by any calls of the pallet,
    swaps in both directions and changes outside it, as long as the liquidity that
    meets at a tick fits [u64]: a tick is on record exactly when the bitmap has it;
    its gross liquidity is the sum of the positions that begin or end at it, its net
    liquidity the difference of the two; and a tick at which a position with
    liquidity begins or ends is on record. *)
Theorem tick_books_balance s n t : swap_reachable s ->
  let gross := gross_at (Positions s) n t in
  let net := net_at (Positions s) n t in
  (active (TickIndexBitmapWords s) n t = true <-> is_Some (Ticks s !! (n, t))) /\
  match Ticks s !! (n, t) with
  | Some x => liquidity_gross x = gross /\ liquidity_net x = net
  | None => gross = 0
  end.
Proof. intros [[_ Ha _ Ht] _ _]%reachable_books. split; [apply Ha|apply Ht]. Qed.
End Books.
