(* ===== verification/SwapProofs.v ===== *)
(** * What the operations of the swap pallet do

    How a swap ends; that a position is paid back what it cost; that a purchase
    takes no more than was offered; and three defects of the position calls. *)

From S2P Require Import Prelude Frame Fixed SharePool Tick TickMath Reserves SwapPool SwapEngine SwapBooks.
From stdpp Require Import prelude gmap list fin_maps.
From Stdlib Require Import ZArith Lia.
#[local] Open Scope Z_scope.
#[local] Open Scope monad_scope.

(** ** The errors of a computation *)

Section Fails.
Context {S E : Type}.

(** Every error of [m] is one of [l]. *)
Definition fails_in {A} (l : list E) (m : M S E A) : Prop := forall s e, m s = Err e -> e ∈ l.

Lemma fails_bind {A B} l (m : M S E A) (k : A -> M S E B) :
  fails_in l m -> (forall a, fails_in l (k a)) -> fails_in l (bind m k).
Proof. intros Hm Hk s e. unfold bind. destruct (m s) as [[a s1]|] eqn:Hr; [apply Hk|intros [= <-]; by eapply Hm]. Qed.
Lemma fails_bind_gets {A B} l (f : S -> A) (k : A -> M S E B) :
  (forall s, fails_in l (k (f s))) -> fails_in l (bind (gets f) k).
Proof. intros Hk s e. unfold bind, gets. apply Hk. Qed.
Lemma fails_ret {A} l (a : A) : fails_in l (ret a).
Proof. done. Qed.
Lemma fails_gets {A} l (f : S -> A) : fails_in l (gets f).
Proof. done. Qed.
Lemma fails_modify l (f : S -> S) : fails_in l (modify f).
Proof. done. Qed.
Lemma fails_ensure l b e : e ∈ l -> fails_in l (ensure b e).
Proof. intros He s e'. unfold ensure. destruct b; [done|]. by intros [= <-]. Qed.
Lemma fails_ok_or {A} l (o : option A) e : e ∈ l -> fails_in l (lift (ok_or o e)).
Proof. intros He s e'. unfold lift. destruct o; [done|]. by intros [= <-]. Qed.
End Fails.

Section Proofs.
Context {FS : FrameSystem} {SI : StorageIter} {F : SubstrateFixed} {SF : SwapFixed} {Cfg : SwapConfig}.
Context {W : Type} {SN : SubnetInfo W} {BO : BalanceOps W}.
Implicit Types s : Swap W.

(** ** How a swap ends *)

Definition swap_errors : list (error Error) :=
  [Module ReservesTooLow; Module MaxPositionsExceeded; Module InsufficientLiquidity; Module TooManySwapSteps].

Ltac fails :=
  repeat lazymatch goal with
  | |- fails_in _ (bind (gets _) _) => apply fails_bind_gets; intros ?
  | |- fails_in _ (bind _ _) => apply fails_bind; [|intros ?]
  | |- fails_in _ (ret _) => apply fails_ret
  | |- fails_in _ (gets _) => apply fails_gets
  | |- fails_in _ (modify _) => apply fails_modify
  | |- fails_in _ (ensure _ _) => apply fails_ensure; unfold swap_errors; set_solver
  | |- fails_in _ (lift (ok_or _ _)) => apply fails_ok_or; unfold swap_errors; set_solver
  | |- fails_in _ (match ?x with _ => _ end) => destruct x
  end.

Lemma valid_price t : TickIndex.valid t -> sqrt_price_of t = Ok (price64 t).
Proof. intros Ht. unfold sqrt_price_of. by rewrite sqrt_price_eq. Qed.
Lemma valid_min : TickIndex.valid TickIndex.MIN.
Proof. vm_compute. split; congruence. Qed.
Lemma valid_max : TickIndex.valid TickIndex.MAX.
Proof. vm_compute. split; congruence. Qed.

(** A position between valid ticks is worth something definite. *)
Lemma token_amounts_ok p price : TickIndex.valid (Position.tick_low p) -> TickIndex.valid (Position.tick_high p) ->
  exists r, to_token_amounts p price = Ok r.
Proof. intros H1 H2. unfold to_token_amounts. rewrite !valid_price by done. eauto. Qed.

Lemma not_insert_fails n c lo hi l : TickIndex.valid lo -> TickIndex.valid hi ->
  fails_in swap_errors (add_liquidity_not_insert (W:=W) n c lo hi l).
Proof.
  intros H1 H2. unfold add_liquidity_not_insert, new_position_id. fails.
  match goal with |- context [to_token_amounts ?p ?x] => destruct (token_amounts_ok p x H1 H2) as [r ->] end.
  done.
Qed.

Lemma initialize_fails n : fails_in swap_errors (maybe_initialize_v3 (W:=W) n).
Proof.
  unfold maybe_initialize_v3. fails. apply not_insert_fails; [apply valid_min|apply valid_max].
Qed.

Lemma turn_fails n o lim a : fails_in swap_errors (swap_turn (W:=W) n o lim a).
Proof.
  unfold swap_turn, process_swap, update_liquidity_at_crossing. fails.
Qed.

Lemma turn_counts n o lim a s a' s' : swap_turn (W:=W) n o lim a s = Ok (a', s') -> 0 <= iteration_counter a ->
  iteration_counter a' <= MAX_SWAP_ITERATIONS /\ iteration_counter a' = iteration_counter a + 1.
Proof.
  unfold swap_turn. intros H Ha. monad_inv H. cbn in *. unfold sat_add, MAX_SWAP_ITERATIONS in *. lia.
Qed.

(** The fuel is never used up. *)
Lemma loop_fails fuel n o lim : forall a, 0 <= iteration_counter a <= MAX_SWAP_ITERATIONS ->
  iteration_counter a + Z.of_nat fuel = MAX_SWAP_ITERATIONS + 1 -> fails_in swap_errors (swap_loop (W:=W) fuel n o lim a).
Proof.
  induction fuel as [|fuel IH]; intros a Ha Hf; [lia|]. cbn [swap_loop].
  destruct (0 <? amount_remaining a); [|fails]. intros s e. unfold bind.
  destruct (swap_turn n o lim a s) as [[a' s']|e'] eqn:H; [|intros [= <-]; by eapply turn_fails].
  apply turn_counts in H as [H1 H2]; [|lia]. apply IH; lia.
Qed.

Lemma inner_fails n o amount lim : fails_in swap_errors (swap_inner (W:=W) n o amount lim).
Proof.
  unfold swap_inner. fails.
  - apply initialize_fails.
  - apply loop_fails; unfold swap_fuel, MAX_SWAP_ITERATIONS; cbn [iteration_counter]; lia.
Qed.

(** What is left in the reserve that a swap pays from. *)
Definition paying_reserve (n : Z) (o : OrderType) s : Z :=
  match o with Buy => alpha_reserve (world s) n | Sell => tao_reserve (world s) n end.

(** C7: Every swap ends, after at most a thousand steps: it succeeds or fails with
    one of four errors, never by running out of steps of the model. A simulated swap
    and a failed one leave the state as it was, except that a swap whose pay-out
    exceeds the reserve fails and is kept; a swap that succeeds for real pays out at
    most the reserve. *)
Theorem swap_outcomes n o amount lim simulate s :
  match do_swap n o amount lim simulate s with
  | (Ok r, s') => (simulate = true -> s' = s) /\ (simulate = false -> amount_paid_out r <= paying_reserve n o s)
  | (Err e, s') => e ∈ swap_errors /\ (s' = s \/ (e = Module InsufficientLiquidity /\ simulate = false))
  end.
Proof.
  unfold do_swap. destruct (swap_inner n o amount lim s) as [[r s']|e] eqn:H; [|split; [by eapply inner_fails|by left]].
  destruct simulate; [done|]. fold (paying_reserve n o s).
  destruct (Z.ltb_spec (paying_reserve n o s) (amount_paid_out r)); [|done].
  split; [|by right]. unfold swap_errors. set_solver.
Qed.

(** ** What tokens a position is worth *)

Context {FL : SubstrateFixedLaws}.

Lemma price_range t : TickIndex.valid t -> fixed_range U64F64 (price64 t).
Proof. intros Ht. apply fixed_range_pos. pose proof (price_fits t Ht) as [H _]. unfold max_bits. lia. Qed.

Lemma sub_zero x y : fixed_range U64F64 x -> fixed_range U64F64 y -> x <= y -> saturating_sub U64F64 x y = 0.
Proof using FL. intros Hx Hy Hle. rewrite sub_spec by done. unfold saturate, clamp. cbn. lia. Qed.
Lemma mul_zero t x : fixed_range t x -> 0 <= x -> saturating_mul t x 0 = 0.
Proof using FL.
  intros Hx H0. rewrite mul_spec; [|done|apply fixed_range_pos; pose proof (min_max t); lia|done|done].
  rewrite Z.mul_0_r, Zdiv_0_l. apply saturate_id, fixed_range_pos. pose proof (min_max t). lia.
Qed.
Lemma to_num_zero t : to_num t u64 0 = 0.
Proof using FL. rewrite to_num_spec; [by rewrite Zdiv_0_l|apply fixed_range_pos; pose proof (min_max t); lia|done]. Qed.

(** [1 / x] *)
Definition inverse (x : Z) : Z := safe_div U64F64 (from_num U64F64 1) x.
Lemma inverse_range x : fixed_range U64F64 x -> fixed_range U64F64 (inverse x).
Proof using FL. intros. apply safe_div_range; [apply from_num_range|done]. Qed.
Lemma inverse_eq x : fixed_range U64F64 x -> 2 <= x -> inverse x = 2 ^ 128 / x.
Proof using FL.
  intros Hx H2. unfold inverse. rewrite from_num_1. change (2 ^ 128) with (unit_ U64F64 * unit_ U64F64).
  apply safe_div_spec; [by apply fixed_range_pos; vm_compute|done|by vm_compute|lia|].
  transitivity (2 ^ 127); [|by vm_compute]. apply Z.div_le_upper_bound; [lia|]. change (unit_ U64F64 * unit_ U64F64) with (2 ^ 128). lia.
Qed.
Lemma inverse_mono x y : fixed_range U64F64 x -> fixed_range U64F64 y -> 2 <= x <= y -> inverse y <= inverse x.
Proof using FL. intros Hx Hy H. rewrite !inverse_eq by (done || lia). apply Z.div_le_compat_l; lia. Qed.

(** [liquidity * x] in whole tokens. *)
Definition tokens (l x : Z) : Z := to_num U64F64 u64 (saturating_mul U64F64 (from_num U64F64 l) x).
Lemma tokens_zero l : 0 <= l -> tokens l 0 = 0.
Proof using FL. intros. unfold tokens. rewrite mul_zero; [apply to_num_zero|apply from_num_range|by apply from_num_pos]. Qed.

(** The amounts between the prices of the ends, without the cases of the source:
    the price is moved into the range first. *)
Definition boxed (low high price : Z) : Z := if price <? low then low else if high <? price then high else price.
Lemma amounts_boxed p price : TickIndex.valid (Position.tick_low p) -> TickIndex.valid (Position.tick_high p) ->
  0 <= Position.liquidity p -> fixed_range U64F64 price ->
  let low := price64 (Position.tick_low p) in
  let high := price64 (Position.tick_high p) in
  let x := boxed low high price in
  to_token_amounts p price =
    Ok (tokens (Position.liquidity p) (saturating_sub U64F64 x low),
        tokens (Position.liquidity p) (saturating_sub U64F64 (inverse x) (inverse high))).
Proof using FL.
  intros V1 V2 Hl Hp low high x. unfold to_token_amounts. rewrite !valid_price by done. fold low high.
  pose proof (price_range _ V1). pose proof (price_range _ V2). unfold x, boxed.
  destruct (price <? low); [rewrite (sub_zero low low), tokens_zero by (done || lia); done|].
  destruct (high <? price); [|done].
  rewrite (sub_zero (inverse high) (inverse high)), tokens_zero by (done || by apply inverse_range). done.
Qed.

(** A range that ends where it starts, or before, is worth nothing. *)
Lemma reversed_worthless p price : TickIndex.valid (Position.tick_low p) -> TickIndex.valid (Position.tick_high p) ->
  Position.tick_high p <= Position.tick_low p -> 0 <= Position.liquidity p -> fixed_range U64F64 price ->
  to_token_amounts p price = Ok (0, 0).
Proof using FL.
  intros V1 V2 Hle Hl Hp. rewrite amounts_boxed by done.
  pose proof (price_mono _ _ V2 V1 Hle). pose proof (price_min _ V2). pose proof (price_range _ V1). pose proof (price_range _ V2).
  set (low := price64 (Position.tick_low p)) in *. set (high := price64 (Position.tick_high p)) in *. set (x := boxed _ _ _).
  assert (fixed_range U64F64 x /\ high <= x <= low) as [Hx Hxr]
    by (unfold x, boxed; destruct (Z.ltb_spec price low), (Z.ltb_spec high price); split; (done || lia)).
  rewrite sub_zero, sub_zero, tokens_zero; try done; try lia; try by apply inverse_range.
  apply inverse_mono; (done || lia).
Qed.

(** ** Opening a position *)

Definition price_typed (n : Z) s : Prop := fixed_range U64F64 (current_price_sqrt n s).

Lemma bounded_price_range t : TickIndex.valid t -> fixed_range U64F64 (as_sqrt_price_bounded t).
Proof. intros Ht. unfold as_sqrt_price_bounded. rewrite sqrt_price_eq by done. by apply price_range. Qed.
Lemma current_bounded_valid n s : TickIndex.valid (current_bounded n s).
Proof.
  unfold current_bounded. destruct (Z.ltb_spec TickIndex.MAX (current_tick n s)); [apply valid_max|].
  destruct (Z.ltb_spec (current_tick n s) TickIndex.MIN); [apply valid_min|]. done.
Qed.
Lemma clamp_typed n s : price_typed n s -> price_typed n (clamp_sqrt_price n (current_bounded n s) s).
Proof.
  intros Hp. unfold clamp_sqrt_price. destruct (_ || _); [|done]. unfold price_typed, current_price_sqrt. cbn.
  rewrite lookup_insert_eq. apply bounded_price_range, current_bounded_valid.
Qed.

Lemma clamp_frame n t s : world (clamp_sqrt_price n t s) = world s /\ CurrentLiquidity (clamp_sqrt_price n t s) = CurrentLiquidity s /\
  CurrentTick (clamp_sqrt_price n t s) = CurrentTick s /\ FeeGlobalTao (clamp_sqrt_price n t s) = FeeGlobalTao s /\
  FeeGlobalAlpha (clamp_sqrt_price n t s) = FeeGlobalAlpha s.
Proof. unfold clamp_sqrt_price. by destruct (_ || _). Qed.
Lemma update_frame n lo hi l s : world (update_liquidity_if_needed n lo hi l s) = world s /\
  AlphaSqrtPrice (update_liquidity_if_needed n lo hi l s) = AlphaSqrtPrice s /\
  FeeGlobalTao (update_liquidity_if_needed n lo hi l s) = FeeGlobalTao s /\
  FeeGlobalAlpha (update_liquidity_if_needed n lo hi l s) = FeeGlobalAlpha s.
Proof. unfold update_liquidity_if_needed. by destruct (_ && _). Qed.
Lemma update_ext n lo hi l s s' : CurrentTick s' = CurrentTick s -> CurrentLiquidity s' = CurrentLiquidity s ->
  CurrentLiquidity (update_liquidity_if_needed n lo hi l s') = CurrentLiquidity (update_liquidity_if_needed n lo hi l s).
Proof.
  intros E1 E2. unfold update_liquidity_if_needed, current_bounded, current_tick. rewrite E1.
  destruct (_ && _); [|done]. unfold current_liquidity. cbn. by rewrite E2.
Qed.

(** The rest of the state a new position leaves. *)
Lemma not_insert_rest n c lo hi l s p tao alpha s' : add_liquidity_not_insert n c lo hi l s = Ok ((p, tao, alpha), s') ->
  to_token_amounts p (current_price_sqrt n s') = Ok (tao, alpha) /\ world s' = world s /\
  (price_typed n s -> price_typed n s') /\
  (forall q, Position.fees_tao p = fees_in_range p true (s' <| Positions := q |>)) /\
  (forall q, Position.fees_alpha p = fees_in_range p false (s' <| Positions := q |>)) /\
  CurrentLiquidity s' = CurrentLiquidity (update_liquidity_if_needed n lo hi l s) /\
  FeeGlobalTao s' = FeeGlobalTao s /\ FeeGlobalAlpha s' = FeeGlobalAlpha s.
Proof.
  intros H. unfold add_liquidity_not_insert, new_position_id in H. monad_inv H.
  set (s1 := add_liquidity_at_index n hi l true (add_liquidity_at_index n lo l false s)) in *.
  destruct (clamp_frame n (current_bounded n s1) s1) as (F1 & F2 & F3 & F6 & F7).
  destruct (update_frame n lo hi l (clamp_sqrt_price n (current_bounded n s1) s1)) as (F4 & F5 & F8 & F9).
  split_and!; try done; cbn.
  - by rewrite F4, F1.
  - intros Hp. unfold price_typed, current_price_sqrt. cbn. rewrite F5. by apply (clamp_typed n s1).
  - by apply update_ext; rewrite ?F2, ?F3.
  - by rewrite F8, F6.
  - by rewrite F9, F7.
Qed.

Lemma not_insert_runs n c lo hi l s : count_positions n c s <= MaxPositions -> TickIndex.valid lo -> TickIndex.valid hi ->
  exists p tao alpha s', add_liquidity_not_insert n c lo hi l s = Ok ((p, tao, alpha), s').
Proof.
  intros Hc H1 H2. destruct (add_liquidity_not_insert n c lo hi l s) as [[[[p tao] alpha] s']|e] eqn:E; [by eauto 6|].
  unfold add_liquidity_not_insert, bind at 1 2, gets at 1, ensure at 1 in E. rewrite (proj2 (Z.leb_le _ _) Hc) in E.
  match type of E with ?m _ = _ => assert (fails_in [] m) as Hm end; [|by apply Hm in E; set_solver].
  unfold new_position_id. fails.
  match goal with |- context [to_token_amounts ?p ?x] => destruct (token_amounts_ok p x H1 H2) as [r ->] end.
  done.
Qed.

(** ** Defects of the position calls *)

Lemma do_add_runs n c h lo hi l s : is_user_liquidity_enabled n s = true -> count_positions n c s <= MaxPositions ->
  TickIndex.valid lo -> TickIndex.valid hi -> hi <= lo -> MinimumLiquidity <= l -> 0 <= l -> price_typed n s ->
  0 <= tao_balance (world s) c -> 0 <= alpha_balance (world s) n c h ->
  exists p s1, add_liquidity_not_insert n c lo hi l s = Ok ((p, 0, 0), s1) /\
    do_add_liquidity n c h lo hi l s = Ok ((Position.id p, 0, 0), put_position n c (Position.id p) p s1).
Proof using FL.
  intros Hen Hc V1 V2 Hle Hmin Hl Hp Ht Ha.
  destruct (not_insert_runs n c lo hi l s Hc V1 V2) as (p & tao & alpha & s1 & E).
  destruct (not_insert_rest _ _ _ _ _ _ _ _ _ _ E) as (E1 & E2 & E3 & _).
  pose proof (not_insert_ok _ _ _ _ _ _ _ _ _ _ E) as (_ & _ & <- & <- & <- & _).
  rewrite reversed_worthless in E1 by (done || by apply E3). injection E1 as <- <-.
  exists p, s1. split; [done|]. unfold do_add_liquidity, bind at 1, gets at 1. rewrite Hen.
  unfold bind at 1, ensure at 1, bind at 1. rewrite E. unfold bind at 1, gets at 1. rewrite E2.
  unfold bind, ensure, modify, ret.
  by rewrite (proj2 (Z.leb_le 0 _) Ht), (proj2 (Z.leb_le 0 _) Ha), (proj2 (Z.leb_le _ _) Hmin).
Qed.

(** C39: A position whose upper tick is not above its lower one costs nothing: any
    account, with whatever balance, opens it with any liquidity of at least the
    minimum, although the documentation of the call promises an error for such a
    range. *)
Theorem reversed_range_is_free n c h lo hi l s :
  is_user_liquidity_enabled n s = true -> count_positions n c s <= MaxPositions ->
  TickIndex.valid lo -> TickIndex.valid hi -> hi <= lo -> MinimumLiquidity <= l -> 0 <= l -> price_typed n s ->
  0 <= tao_balance (world s) c -> 0 <= alpha_balance (world s) n c h ->
  exists id s', do_add_liquidity n c h lo hi l s = Ok ((id, 0, 0), s') /\
    exists p, position_at n c id s' = Some p /\ Position.liquidity p = l /\ Position.tick_low p = lo /\ Position.tick_high p = hi.
Proof using FL.
  intros. edestruct (do_add_runs n c h lo hi l s) as (p & s1 & E & ->); [done..|].
  pose proof (not_insert_ok _ _ _ _ _ _ _ _ _ _ E) as (_ & _ & <- & <- & <- & _).
  eexists _, _. split; [done|]. exists p. unfold position_at. cbn. by rewrite lookup_insert_eq.
Qed.

Definition gross_of (n t : Z) s : option Z := liquidity_gross <$> Ticks s !! (n, t).

Lemma add_full n t u s : (forall x, Ticks s !! (n, t) = Some x -> 0 <= liquidity_gross x) ->
  gross_of n t (add_liquidity_at_index n t U64_MAX u s) = Some U64_MAX.
Proof.
  intros Hx. unfold gross_of. cbn. rewrite lookup_insert_eq. cbn. destruct (Ticks s !! (n, t)) as [x|] eqn:E; cbn; [|done].
  f_equal. specialize (Hx x eq_refl). unfold sat_add. lia.
Qed.
Lemma add_elsewhere n t u l n' t' s : (n', t') <> (n, t) ->
  Ticks (add_liquidity_at_index n t l u s) !! (n', t') = Ticks s !! (n', t').
Proof. intros Hne. cbn. by rewrite lookup_insert_ne. Qed.
Lemma remove_full n t u s : gross_of n t s = Some U64_MAX ->
  Ticks (remove_liquidity_at_index n t U64_MAX u s) !! (n, t) = None.
Proof.
  unfold gross_of, remove_liquidity_at_index. destruct (Ticks s !! (n, t)) as [x|] eqn:E; [|done]. cbn -[sat_sub].
  intros [= ->]. rewrite (sat_sub_le U64_MAX U64_MAX), Z.sub_diag by done. cbn. by rewrite lookup_delete_eq.
Qed.
Lemma remove_elsewhere n t u l n' t' s : (n', t') <> (n, t) ->
  Ticks (remove_liquidity_at_index n t l u s) !! (n', t') = Ticks s !! (n', t').
Proof.
  intros Hne. unfold remove_liquidity_at_index. destruct (Ticks s !! (n, t)); [|done].
  destruct (_ =? 0); cbn; [by rewrite lookup_delete_ne|by rewrite lookup_insert_ne].
Qed.
Lemma remove_none n t u l s : Ticks s !! (n, t) = None -> remove_liquidity_at_index n t l u s = s.
Proof. intros E. unfold remove_liquidity_at_index. by rewrite E. Qed.

(** A full load put on two ticks and taken off again leaves neither of them. *)
Lemma full_legs p s : (forall t x, Ticks s !! (Position.netuid p, t) = Some x -> 0 <= liquidity_gross x) ->
  let s1 := add_legs p U64_MAX s in
  forall s2, Ticks s2 = Ticks s1 ->
  Ticks (remove_legs p U64_MAX s2) !! (Position.netuid p, Position.tick_low p) = None /\
  Ticks (remove_legs p U64_MAX s2) !! (Position.netuid p, Position.tick_high p) = None.
Proof.
  intros Hg s1 s2 E. unfold add_legs, remove_legs in *. set (n := Position.netuid p) in *.
  set (lo := Position.tick_low p) in *. set (hi := Position.tick_high p) in *.
  assert (forall t, gross_of n t s2 = gross_of n t s1) as Eg by (intros t; unfold gross_of; by rewrite E).
  destruct (decide (lo = hi)) as [<-|Hne].
  - assert (gross_of n lo s2 = Some U64_MAX) as H1.
    { rewrite Eg. apply add_full. intros x Hx. pose proof (add_full n lo false s (Hg lo)) as H1. unfold gross_of in H1.
      rewrite Hx in H1. cbn in H1. injection H1 as ->. done. }
    pose proof (remove_full n lo false s2 H1) as H2. by rewrite remove_none.
  - assert (gross_of n lo s2 = Some U64_MAX /\ gross_of n hi s2 = Some U64_MAX) as [H1 H2].
    { rewrite !Eg. split.
      - unfold gross_of, s1. rewrite add_elsewhere by congruence. apply add_full. apply Hg.
      - apply add_full. intros x. rewrite add_elsewhere by congruence. apply Hg. }
    split; [rewrite remove_elsewhere by congruence; by apply remove_full|].
    apply remove_full. unfold gross_of. rewrite remove_elsewhere by congruence. exact H2.
Qed.

Lemma remove_at_liquidity n t l u s : CurrentLiquidity (remove_liquidity_at_index n t l u s) = CurrentLiquidity s.
Proof. unfold remove_liquidity_at_index. destruct (Ticks s !! _); [|done]. by destruct (_ =? 0). Qed.

(** What taking out a position does, when its tokens are known. *)
Lemma do_remove_runs n c i s p tao alpha : position_at n c i s = Some p -> Position.netuid p = n ->
  to_token_amounts p (current_price_sqrt n s) = Ok (tao, alpha) ->
  exists f g s', do_remove_liquidity n c i s = Ok (Update.mk tao alpha f g true, s') /\
    (f, g) = (collect_fees p s).1 /\
    Ticks s' = Ticks (remove_legs p (Position.liquidity p) s) /\
    TickIndexBitmapWords s' = TickIndexBitmapWords (remove_legs p (Position.liquidity p) s) /\
    Positions s' = delete (n, c, i) (Positions s) /\
    CurrentLiquidity s' = CurrentLiquidity
      (update_liquidity_if_needed n (Position.tick_low p) (Position.tick_high p) (- Position.liquidity p) s).
Proof.
  intros Hp <- Ht. unfold do_remove_liquidity, bind at 1, gets at 1. rewrite Hp.
  destruct (collect_fees p s) as [[f g] q] eqn:Ec. unfold bind at 1, gets at 1. rewrite Ec.
  apply collected in Ec as (a & b & ->). unfold bind at 1, gets at 1. cbv beta iota.
  change (to_token_amounts (p <| Position.fees_tao := a |> <| Position.fees_alpha := b |>)) with (to_token_amounts p).
  rewrite Ht. unfold lift, bind, modify, ret. exists f, g. eexists. split; [reflexivity|]. split; [done|].
  pose proof (remove_legs_frame p (Position.liquidity p) s) as (F1 & F2 & F3).
  pose proof (update_same (Position.netuid p) (Position.tick_low p) (Position.tick_high p) (- Position.liquidity p)
    (remove_legs p (Position.liquidity p) s)) as (E1 & E2 & E3 & E4 & E5).
  split_and!; cbn; [exact E1|exact E2|by rewrite <- F1, <- E3|].
  apply update_ext; [exact F3|]. by rewrite !remove_at_liquidity.
Qed.

(** ** A position is paid back what it cost *)

(** The stored fees are numbers of their types. *)
Record fees_typed s : Prop := {
  ft_tao : forall n, fixed_range U64F64 (fee_global_tao n s);
  ft_alpha : forall n, fixed_range U64F64 (fee_global_alpha n s);
  ft_tick : forall n t, fixed_range I64F64 (fees_out_tao (tick_at n t s)) /\ fixed_range I64F64 (fees_out_alpha (tick_at n t s));
}.

Lemma fee_global_range n b s : fees_typed s -> fixed_range I64F64 (fee_global n b s).
Proof using FL. intros [H1 H2 _]. unfold fee_global. apply from_fixed_range. by destruct b. Qed.
Lemma fees_in_range_range p b s : fees_typed s -> fixed_range I64F64 (fees_in_range p b s).
Proof using FL.
  intros Hs. pose proof (fee_global_range (Position.netuid p) b s Hs) as Hg. destruct Hs as [_ _ Ht].
  assert (forall t, fixed_range I64F64 (if b then fees_out_tao (tick_at (Position.netuid p) t s) else fees_out_alpha (tick_at (Position.netuid p) t s))) as Hout
    by (intros t; destruct (Ht (Position.netuid p) t); by destruct b).
  unfold fees_in_range, fees_below, fees_above. repeat apply sub_range; try done;
    destruct (_ <=? _); try apply sub_range; done.
Qed.
Lemma add_at_typed n t l u s : fees_typed s -> fees_typed (add_liquidity_at_index n t l u s).
Proof using FL.
  intros Hs. pose proof (fun b => fee_global_range n b s Hs) as Hg. pose proof (from_num_range I64F64 0) as H0. destruct Hs as [H1 H2 H3].
  split; [done|done|]. intros n' t'. specialize (H3 n' t'). unfold tick_at in *. cbn.
  destruct (decide ((n', t') = (n, t))) as [[= -> ->]|Hne]; [|by rewrite lookup_insert_ne].
  rewrite lookup_insert_eq. cbn. destruct (Ticks s !! (n, t)); [done|]. cbn. by destruct (_ <? _).
Qed.

Lemma collects_nothing p s : fees_typed s -> 0 <= Position.liquidity p -> Position.fees_tao p = fees_in_range p true s ->
  Position.fees_alpha p = fees_in_range p false s -> (collect_fees p s).1 = (0, 0).
Proof using FL.
  intros Hs Hl E1 E2. unfold collect_fees. cbn. rewrite E1, E2.
  assert (forall b, saturating_sub I64F64 (fees_in_range p b s) (fees_in_range p b s) = 0) as Hz.
  { intros b. pose proof (fees_in_range_range p b s Hs). rewrite sub_spec by done. rewrite Z.sub_diag.
    apply saturate_id, fixed_range_pos. vm_compute. split; congruence. }
  rewrite !Hz, mul_zero, to_num_zero; [done|apply from_num_range|by apply from_num_pos].
Qed.

Lemma update_undo n lo hi l s s1 : CurrentTick s1 = CurrentTick s ->
  CurrentLiquidity s1 = CurrentLiquidity (update_liquidity_if_needed n lo hi l s) ->
  in_type u64 l -> 0 <= current_liquidity n s -> current_liquidity n s + l <= U64_MAX ->
  current_liquidity n (update_liquidity_if_needed n lo hi (- l) s1) = current_liquidity n s.
Proof.
  intros E1 E2 [Hl1 Hl2] Hc Hroom. cbn in Hl1, Hl2. unfold update_liquidity_if_needed in *.
  replace (current_bounded n s1) with (current_bounded n s) by (unfold current_bounded, current_tick; by rewrite E1).
  destruct (_ && _); [|unfold current_liquidity; by rewrite E2].
  assert (current_liquidity n s1 = current_liquidity n s + l) as E3.
  { unfold current_liquidity at 1. rewrite E2. cbn. rewrite lookup_insert_eq. cbn.
    rewrite (proj2 (Z.ltb_ge l 0)) by lia. unfold sat_add. lia. }
  unfold current_liquidity at 1. cbn. rewrite lookup_insert_eq. cbn. rewrite E3.
  destruct (Z.ltb_spec (- l) 0); unfold sat_sub, sat_add; lia.
Qed.

(** C17: A position is paid back exactly what it cost, unless something saturates. In
    every reachable state whose fee counters are of their types, a position that is
    opened and taken out before anything else happens returns the TAO and the alpha it
    was opened with and no fees; afterwards the positions and the current liquidity are
    what they were before. The conditions are that its liquidity fits on top of the
    current one and that position numbers and the gross liquidity of every tick stay in
    their types ([fits]): the source saturates when it adds liquidity and subtracts all
    of it on removal. *)
Theorem withdrawal_returns_deposit n c h lo hi l s id tao alpha s1 :
  swap_reachable s -> fees_typed s -> in_type u64 l -> current_liquidity n s + l <= U64_MAX -> 0 <= current_liquidity n s ->
  do_add_liquidity n c h lo hi l s = Ok ((id, tao, alpha), s1) -> fits s1 ->
  exists s2, do_remove_liquidity n c id s1 = Ok (Update.mk tao alpha 0 0 true, s2) /\
    Positions s2 = Positions s /\ current_liquidity n s2 = current_liquidity n s.
Proof using FL.
  intros Hok%reachable_books Hf Hl Hroom Hcur H [_ Hlast]. unfold do_add_liquidity in H. monad_inv H.
  match goal with E : add_liquidity_not_insert _ _ _ _ _ _ = Ok (?q, _, _, ?s') |- _ =>
    rename q into p, s' into s0; destruct (not_insert_rest _ _ _ _ _ _ _ _ _ _ E) as (Ht & _ & _ & Hf1 & Hf2 & Hc & G1 & G2);
    apply not_insert_ok in E as (Ei & En & El & Eh & Ell & _ & _ & E1 & _ & E3 & E4 & E5) end.
  set (s1 := put_position n c (Position.id p) p s0) in *.
  assert (fees_typed s1) as Hf'.
  { pose proof (add_at_typed (Position.netuid p) (Position.tick_high p) l true _
      (add_at_typed (Position.netuid p) (Position.tick_low p) l false s Hf)) as [T1 T2 T3].
    split; unfold fee_global_tao, fee_global_alpha, tick_at in *; cbn; rewrite ?G1, ?G2, ?E1; done. }
  assert (position_at n c (Position.id p) s1 = Some p) as Hat by (unfold position_at; cbn; by rewrite lookup_insert_eq).
  destruct (do_remove_runs _ _ _ s1 p _ _ Hat En Ht) as (f & g & s2 & Hrem & Efg & _ & _ & T3 & T4).
  rewrite collects_nothing in Efg; [|done|rewrite Ell; apply Hl|apply Hf1|apply Hf2]. injection Efg as -> ->.
  exists s2. split; [done|]. cbn in Hlast, T3. rewrite E3 in T3. split.
  - rewrite T3. apply delete_insert_id. destruct (Positions s !! _) as [q|] eqn:Hq; [|done].
    apply (bk_pos s Hok) in Hq as [_ _ Hold _ _ _]. rewrite Ei, E4 in Hold. rewrite E4 in Hlast. apply sat_id in Hlast. lia.
  - unfold current_liquidity at 1. rewrite T4, El, Eh, Ell. by apply (update_undo n lo hi l s s1).
Qed.

(** Anybody can erase the ticks of a pool for free. A reversed range between two
    ticks, opened with the largest liquidity there is and taken out again, costs no
    token and leaves neither tick on record: the gross liquidity saturates when the
    position enters, so that nothing of the others is left when it leaves. All other
    positions, such as the one of the protocol, stay. *)
Theorem free_position_erases_ticks n c h lo hi s :
  is_user_liquidity_enabled n s = true -> count_positions n c s <= MaxPositions ->
  TickIndex.valid lo -> TickIndex.valid hi -> hi <= lo -> MinimumLiquidity <= U64_MAX -> price_typed n s ->
  0 <= tao_balance (world s) c -> 0 <= alpha_balance (world s) n c h ->
  (forall t x, Ticks s !! (n, t) = Some x -> 0 <= liquidity_gross x) ->
  exists id s1 r s2, do_add_liquidity n c h lo hi U64_MAX s = Ok ((id, 0, 0), s1) /\
    do_remove_liquidity n c id s1 = Ok (r, s2) /\
    Ticks s2 !! (n, lo) = None /\ Ticks s2 !! (n, hi) = None /\
    forall k, k <> (n, c, id) -> Positions s2 !! k = Positions s !! k.
Proof using FL.
  intros ? ? V1 V2 Hle ? Hp ? ? Hg. edestruct (do_add_runs n c h lo hi U64_MAX s) as (p & s0 & E & Hadd); [done..|].
  destruct (not_insert_rest _ _ _ _ _ _ _ _ _ _ E) as (Ht & _ & Hpt & _).
  apply not_insert_ok in E as (_ & En & El & Eh & Ell & _ & _ & E1 & _ & E3 & _ & _).
  set (s1 := put_position n c (Position.id p) p s0) in *.
  destruct (do_remove_runs n c (Position.id p) s1 p 0 0) as (f & g & s2 & Hrem & _ & T1 & _ & T3 & _).
  - unfold position_at. cbn. by rewrite lookup_insert_eq.
  - done.
  - exact Ht.
  - exists (Position.id p), s1, (Update.mk 0 0 f g true), s2. split; [done|]. split; [done|].
    rewrite T1, Ell, <- En, <- El, <- Eh. destruct (full_legs p s ltac:(by rewrite En) s1 E1) as [G1 G2].
    split; [exact G1|]. split; [exact G2|]. intros k Hk. rewrite T3. cbn.
    rewrite lookup_delete_ne, lookup_insert_ne, E3 by congruence. done.
Qed.

Lemma price_box_ok n d low high s x s' : price_box n d low high s = Ok (x, s') ->
  x = boxed low high (current_price_sqrt n s) /\
  (0 <= current_liquidity n s -> d < 0 -> current_liquidity n s + d <= current_liquidity n s').
Proof.
  unfold price_box, boxed. intros H. monad_inv H; split; try done; intros; try lia.
  unfold current_liquidity at 2. cbn. rewrite lookup_insert_eq. cbn. destruct (Z.ltb_spec 0 d); [lia|]. unfold sat_sub. lia.
Qed.

(** C40: A withdrawal that leaves less than the minimum forfeits the rest. When
    [do_modify_position] takes so much out of a position that less than the minimum
    would stay, the whole position is deleted, as the comment says, but only the
    requested part is paid out, and the current liquidity goes down by no more than
    that part. *)
Theorem modify_forfeits_remainder n c h i d s p r s' :
  do_modify_position n c h i d s = Ok (r, s') -> position_at n c i s = Some p -> Position.netuid p = n ->
  price_typed n s -> 0 <= current_liquidity n s -> d < 0 -> Position.liquidity p + d < MinimumLiquidity -> 0 < MinimumLiquidity ->
  position_at n c i s' = None /\ Update.removed r = true /\
  to_token_amounts (p <| Position.liquidity := - d |>) (current_price_sqrt n s) = Ok (Update.tao r, Update.alpha r) /\
  current_liquidity n s + d <= current_liquidity n s'.
Proof using FL.
  intros H Hp Hn Hpt Hcur Hd Hrest Hmin. unfold do_modify_position in H. monad_inv H; try lia;
    (match goal with E : collect_fees _ _ = _ |- _ => apply collected in E as (f & g & ->) end);
    (match goal with E : price_box _ _ _ _ _ = _ |- _ => apply price_box_ok in E as [-> Hliq] end); cbn -[Z.abs sat_sub] in *.
  2: exfalso; unfold sat_sub in *; lia.
  match goal with L : sqrt_price_of (Position.tick_low p) = _, R : sqrt_price_of (Position.tick_high p) = _ |- _ =>
    pose proof (sqrt_price_of_valid _ _ L) as V1; pose proof (sqrt_price_of_valid _ _ R) as V2;
    rewrite valid_price in L, R by done; injection L as <-; injection R as <- end.
  unfold position_at. cbn. rewrite lookup_delete_eq. split; [done|]. split; [done|]. split.
  - rewrite amounts_boxed by (done || cbn; lia). cbn. unfold tokens, inverse. by rewrite Z.abs_neq by lia.
  - unfold current_liquidity at 2. cbn. rewrite !remove_at_liquidity. by apply Hliq.
Qed.
End Proofs.
