(* ===== verification/SwapBounds.v ===== *)
(** * A purchase takes no more than was offered

    Every step of a purchase puts at most what is left of the amount into the pool,
    for any liquidity, price, limit and neighbouring tick: the truncations of the
    fixed-point computation all point the right way. *)

From S2P Require Import Prelude Frame Fixed SharePool Tick TickMath Reserves SwapPool SwapEngine SwapBooks SwapProofs.
From stdpp Require Import prelude gmap list fin_maps.
From Stdlib Require Import ZArith Lia.
#[local] Open Scope Z_scope.

Section Bounds.
Context {FS : FrameSystem} {SI : StorageIter} {F : SubstrateFixed} {SF : SwapFixed} {Cfg : SwapConfig}.
Context {W : Type} {SN : SubnetInfo W} {BO : BalanceOps W}.
Context {FL : SubstrateFixedLaws}.
Implicit Types s : Swap W.

(** ** Ranges *)

Lemma whole_range x : fixed_range U64F64 x -> in_type u64 (to_num U64F64 u64 x).
Proof using FL.
  intros Hx. rewrite to_num_spec; [|done|apply Hx]. unfold in_type, clamp, int_min, int_max. lia.
Qed.
Lemma bounded_price_any t : fixed_range U64F64 (as_sqrt_price_bounded t).
Proof using FL FS.
  unfold as_sqrt_price_bounded. destruct (try_to_sqrt_price t) as [p|] eqn:E.
  - assert (sqrt_price_of t = Ok p) as E2 by (unfold sqrt_price_of; by rewrite E).
    pose proof (sqrt_price_of_valid _ _ E2) as V. rewrite valid_price in E2 by done. injection E2 as <-. by apply price_range.
  - unfold max_sqrt_price, min_sqrt_price. destruct (_ <=? _); apply from_literal_range.
Qed.
Lemma target_range o liq cur d : fixed_range U64F64 liq -> fixed_range U64F64 cur ->
  fixed_range U64F64 (sqrt_price_target o liq cur d).
Proof using FL.
  intros H1 H2. unfold sqrt_price_target. pose proof (from_num_range U64F64).
  destruct (liq =? 0), o; try apply from_num_range; [apply safe_div_range; [done|]|]; apply add_range; try done; by apply safe_div_range.
Qed.

Lemma sqrt_loop_range t fuel : forall x eps high low middle check,
  fixed_range t x -> fixed_range t high -> fixed_range t low -> fixed_range t middle -> fixed_range t check ->
  fixed_range t (sqrt_loop fuel t x eps high low middle check).
Proof using FL.
  induction fuel as [|fuel IH]; intros x eps high low middle check Hx Hh Hl Hm Hc; [done|]. cbn [sqrt_loop].
  destruct (eps <? _); [|done]. destruct (check <? middle).
  all: apply IH; auto using safe_div_range, add_range, from_num_range.
Qed.
Lemma checked_sqrt_range t x eps y : fixed_range t x -> checked_sqrt t x eps = Some y -> fixed_range t y.
Proof using FL.
  intros Hx. unfold checked_sqrt. generalize sqrt_iterations as fuel. intros fuel. destruct (x <? _); [done|]. destruct (from_num t 1 <? x); intros [= <-];
    apply sqrt_loop_range; auto using safe_div_range, add_range, from_num_range.
Qed.

(** ** One step *)

(** The TAO that moves the price up to [x], at the price the whole amount could
    reach or below. *)
Lemma buy_delta liq cur x d : in_type u64 liq -> in_type u64 d -> fixed_range U64F64 cur -> fixed_range U64F64 x ->
  x <= sqrt_price_target Buy (from_num U64F64 liq) cur d \/ liq = 0 ->
  delta_in_to Buy (from_num U64F64 liq) cur x <= d.
Proof using FL.
  intros [Hl1 Hl2] [Hd1 Hd2] Hcur Hx Hle. unfold int_min, int_max in *.
  assert (forall k, 0 <= k <= U64_MAX -> from_num U64F64 k = k * 2 ^ 64) as En
    by (intros k Hk; apply (from_num_exact U64F64); [lia|]; change (unit_ U64F64) with (2 ^ 64); change (max_bits U64F64) with (2 ^ 128 - 1); lia).
  unfold delta_in_to. pose proof (sub_range U64F64 x cur Hx Hcur) as Hy.
  assert (saturating_sub U64F64 x cur = Z.max 0 (x - cur)) as Esub.
  { rewrite sub_spec by done. unfold saturate, clamp, fixed_range in *. change (max_bits U64F64) with (2 ^ 128 - 1) in *. cbn [min_bits] in *. lia. }
  rewrite mul_spec by (first [apply from_num_range | done | rewrite En by lia; lia | apply Hy]).
  rewrite to_num_spec by (apply saturate_range || (apply saturate_nonneg; apply Z.div_pos; [rewrite En, Esub by lia; nia|done])).
  rewrite saturate_pos by (apply Z.div_pos; [rewrite En, Esub by lia; nia|done]).
  rewrite Esub, (En liq) by lia. change (unit_ U64F64) with (2 ^ 64). unfold clamp, int_min, int_max.
  replace (liq * 2 ^ 64 * Z.max 0 (x - cur)) with (liq * Z.max 0 (x - cur) * 2 ^ 64) by ring. rewrite Z.div_mul by lia.
  enough (liq * Z.max 0 (x - cur) <= d * 2 ^ 64) as Hb.
  { apply Z.max_lub; [lia|]. etransitivity; [apply Z.le_min_r|]. apply Z.div_le_upper_bound; [lia|].
    etransitivity; [apply Z.le_min_r|]. lia. }
  destruct Hle as [Hle| ->]; [|lia]. unfold sqrt_price_target in Hle. rewrite (En liq), (En d) in Hle by lia.
  destruct (Z.eqb_spec (liq * 2 ^ 64) 0); [nia|].
  rewrite safe_div_spec in Hle; [|apply fixed_range_pos; change (max_bits U64F64) with (2 ^ 128 - 1); lia..|lia|lia|].
  2:{ change (unit_ U64F64) with (2 ^ 64). change (max_bits U64F64) with (2 ^ 128 - 1). apply Z.div_le_upper_bound; nia. }
  change (unit_ U64F64) with (2 ^ 64) in Hle.
  replace (d * 2 ^ 64 * 2 ^ 64 / (liq * 2 ^ 64)) with (d * 2 ^ 64 / liq) in Hle by (rewrite Z.div_mul_cancel_r by lia; done).
  set (q := d * 2 ^ 64 / liq) in *.
  assert (0 <= q /\ liq * q <= d * 2 ^ 64) as [Hq1 Hq2] by (split; [apply Z.div_pos; lia|apply Z.mul_div_le; lia]).
  assert (saturating_add U64F64 q cur <= q + cur) as Hs.
  { rewrite add_spec; [unfold saturate, clamp|apply fixed_range_pos; split; [done|]; change (max_bits U64F64) with (2 ^ 128 - 1); nia|done].
    destruct Hcur as [Hc _]. change (min_bits U64F64) with 0 in *. lia. }
  assert (Z.max 0 (x - cur) <= q) by lia. nia.
Qed.

(** The price and the liquidity of the pool are numbers of their types. *)
Definition pool_typed (n : Z) s : Prop := price_typed n s /\ in_type u64 (current_liquidity n s).

Lemma fee_pos n a s : 0 <= calculate_fee_amount n a s.
Proof using FL.
  unfold calculate_fee_amount. apply (whole_range). apply mul_range; [apply from_num_range|].
  apply safe_div_range; apply from_num_range.
Qed.
Lemma refee_pos n d s : 0 <= recalculated_fee n d s.
Proof using FL.
  unfold recalculated_fee. apply whole_range. apply mul_range; [apply from_num_range|].
  apply safe_div_range; [apply from_num_range|]. apply sub_range; apply from_num_range.
Qed.

(** A step with its action: what it takes, and the price it ends at. *)
Definition step_ok (n left : Z) (p : SwapStep) : Prop :=
  SwapStep.netuid p = n /\ SwapStep.order_type p = Buy /\ 0 <= SwapStep.delta_in p <= left /\ 0 <= SwapStep.fee p /\
  fixed_range U64F64 (SwapStep.final_price p).

Lemma buy_step_ok n left lim s : pool_typed n s -> fixed_range U64F64 lim -> in_type u64 left ->
  step_ok n left (determine_action (new_step n Buy left lim s) s).
Proof using FL.
  intros [Hp Hl] Hlim [Hleft1 Hleft2]. pose proof (fee_pos n left s) as Hfee.
  set (edge := as_sqrt_price_bounded (upper_edge n (current_tick n s) s)).
  assert (fixed_range U64F64 edge) as He by apply bounded_price_any.
  set (liq := current_liquidity n s) in *. set (cur := current_price_sqrt n s) in *.
  set (fee := calculate_fee_amount n left s) in *. set (possible := sat_sub left fee).
  assert (0 <= possible <= left) as Hposs by (unfold possible, sat_sub; cbn in Hleft1; lia).
  assert (in_type u64 possible) as Hpt by (unfold in_type, int_min, int_max in *; lia).
  set (target := sqrt_price_target Buy (from_num U64F64 liq) cur possible).
  assert (fixed_range U64F64 target) as Ht by (apply target_range; [apply from_num_range|done]).
  assert (forall x, fixed_range U64F64 x -> x <= target -> 0 <= delta_in_to Buy (from_num U64F64 liq) cur x <= possible) as Hd.
  { intros x Hx Hle. split; [|apply buy_delta; auto]. unfold delta_in_to. apply whole_range, mul_range; [apply from_num_range|by apply sub_range]. }
  unfold determine_action, new_step. cbn -[delta_in_to recalculated_fee].
  fold liq cur fee possible target edge.
  destruct ((target <=? lim) && (target <=? edge)) eqn:C1; [|destruct ((lim <=? target) && (lim <=? edge)) eqn:C2];
    destruct (lim <=? target) eqn:C3; (match goal with |- context [?a =? edge] => destruct (a =? edge) end); unfold step_ok; cbn -[delta_in_to recalculated_fee];
    split_and!; try done; try apply refee_pos; try lia.
  all: pose proof (Hd lim Hlim); pose proof (Hd edge He); lia.
Qed.

Lemma liquidity_u64 n lo hi l s : in_type u64 (current_liquidity n s) -> in_type u64 l ->
  in_type u64 (default 0 (CurrentLiquidity (update_liquidity_if_needed n lo hi l s) !! n)).
Proof.
  unfold in_type, int_min, int_max. intros Hc Hl. unfold update_liquidity_if_needed. destruct (_ && _); [|done].
  cbn. rewrite lookup_insert_eq. cbn. rewrite (proj2 (Z.ltb_ge l 0)) by lia. unfold sat_add. lia.
Qed.

Lemma initialize_typed n s s' : in_type u64 (current_liquidity n s) ->
  (v3_initialized n s = true -> price_typed n s) -> maybe_initialize_v3 n s = Ok (tt, s') -> pool_typed n s'.
Proof using FL.
  intros Hl Hp H. unfold maybe_initialize_v3 in H. monad_inv H; [by split; auto|].
  match goal with E : add_liquidity_not_insert _ _ _ _ _ _ = _ |- _ =>
    destruct (not_insert_rest _ _ _ _ _ _ _ _ _ _ E) as (_ & _ & Hpt & _ & _ & Hc & _) end.
  split; [apply Hpt|].
  - unfold price_typed, current_price_sqrt. cbn. rewrite lookup_insert_eq. cbn.
    destruct (checked_sqrt _ _ _) as [x|] eqn:Eq; cbn; [|apply from_num_range].
    eapply checked_sqrt_range; [|exact Eq]. apply safe_div_range; apply from_num_range.
  - unfold current_liquidity. cbn. rewrite Hc. apply liquidity_u64; [done|]. apply mod_u64.
Qed.

Lemma current_liquidity_set n v s : current_liquidity n (set_current_liquidity n v s) = v.
Proof. unfold current_liquidity. cbn. by rewrite lookup_insert_eq. Qed.

Lemma abs_u64 x : 0 <= abs_i128_as_u64 x.
Proof. unfold abs_i128_as_u64. case_match; [apply (mod_u64 x)|lia]. Qed.

Lemma crossing_typed n o s s' : in_type u64 (current_liquidity n s) -> update_liquidity_at_crossing n o s = Ok (tt, s') ->
  in_type u64 (current_liquidity n s').
Proof.
  unfold in_type, int_min, int_max. intros Hl H. unfold update_liquidity_at_crossing in H. monad_inv H.
  rewrite current_liquidity_set.
  match goal with |- context [liquidity_net_as_u64 ?t] => pose proof (abs_u64 (liquidity_net t)); unfold liquidity_net_as_u64 in * end.
  destruct o, (0 <=? _); unfold sat_add, sat_sub; lia.
Qed.

Lemma add_fees_liquidity n o fee s : CurrentLiquidity (add_fees n o fee s) = CurrentLiquidity s.
Proof. unfold add_fees. destruct (_ =? 0); [done|]. by destruct o. Qed.

Lemma add_fees_price n o fee s : current_price_sqrt n (add_fees n o fee s) = current_price_sqrt n s.
Proof. unfold add_fees. destruct (_ =? 0); [done|]. by destruct o. Qed.

(** What a step pays out is a number of tokens. *)
Lemma convert_range n o d s : price_typed n s -> in_type u64 (convert_deltas n o d s).
Proof using FL.
  intros Hp. unfold convert_deltas. destruct (d =? 0); [by vm_compute|]. apply whole_range. unfold price_typed in Hp.
  destruct o; repeat first [apply mul_range | apply add_range | apply safe_div_range | apply from_num_range | exact Hp].
Qed.

Lemma process_typed n left p s r s' : step_ok n left p -> pool_typed n s -> process_swap p s = Ok (r, s') ->
  pool_typed n s' /\ step_delta_in r = SwapStep.delta_in p /\ 0 <= step_delta_out r /\
  amount_to_take r = sat_add U64_MAX (SwapStep.delta_in p) (SwapStep.fee p).
Proof using FL.
  intros (En & Eo & _ & _ & Hf) [Hp Hl] H. unfold process_swap in H. rewrite En in H.
  assert (forall d s1, current_price_sqrt n s1 = current_price_sqrt n s -> 0 <= convert_deltas n (SwapStep.order_type p) d s1) as Hout
    by (intros d s1 E1; apply convert_range; unfold price_typed; by rewrite E1).
  monad_inv H; (split; [|split_and!; try done; cbn; apply Hout, add_fees_price]);
    (split; [unfold price_typed, current_price_sqrt; cbn; by rewrite lookup_insert_eq|]).
  - match goal with E : update_liquidity_at_crossing _ _ _ = Ok (?u, _) |- _ => destruct u; eapply crossing_typed in E; [exact E|] end.
    unfold current_liquidity. by rewrite add_fees_liquidity.
  - unfold current_liquidity. cbn. by rewrite add_fees_liquidity.
Qed.

(** What went in so far and what is left make up no more than the amount. *)
Definition within (amount : Z) (a : SwapAcc) : Prop :=
  0 <= in_acc a /\ 0 <= amount_remaining a /\ in_acc a + amount_remaining a <= amount /\ 0 <= acc_paid_out a.

Lemma turn_within n lim amount a s a' s' : pool_typed n s -> fixed_range U64F64 lim -> in_type u64 amount -> within amount a ->
  swap_turn n Buy lim a s = Ok (a', s') -> pool_typed n s' /\ within amount a'.
Proof using FL.
  intros Hp Hlim Ham (H1 & H2 & H3 & H4) H. unfold swap_turn in H. monad_inv H. unfold in_type, int_min, int_max in Ham.
  pose proof (buy_step_ok n (amount_remaining a) lim s Hp Hlim ltac:(unfold in_type, int_min, int_max; lia)) as Hs.
  match goal with E : process_swap _ _ = _ |- _ => apply (process_typed n (amount_remaining a)) in E as (Hp' & E1 & Eo & E2); [|exact Hs|exact Hp] end.
  destruct Hs as (_ & _ & Hd & Hf & _). set (p := determine_action _ s) in *. clearbody p.
  split; [done|]. unfold within. cbn. rewrite E1, E2. unfold sat_add, sat_sub. repeat case_match; lia.
Qed.

Lemma loop_within fuel n lim amount : fixed_range U64F64 lim -> in_type u64 amount -> forall a s a' s',
  pool_typed n s -> within amount a -> swap_loop fuel n Buy lim a s = Ok (a', s') -> within amount a'.
Proof using FL.
  intros Hlim Ham. induction fuel as [|fuel IH]; intros a s a' s' Hp Hw H; cbn [swap_loop] in H; monad_inv H; [|done].
  match goal with E : swap_turn _ _ _ _ _ = _ |- _ => eapply turn_within in E as [Hp' Hw']; [|done..] end. by eapply IH.
Qed.

(** The result of a purchase. *)
Record buy_ok (n amount : Z) s (r : SwapResult) : Prop := {
  by_in : 0 <= amount_paid_in r <= amount;
  by_told : tao_reserve_delta r = wrap_i64 (amount_paid_in r);
  by_tao : amount <= I64_MAX -> tao_reserve_delta r = amount_paid_in r;
  by_out : 0 <= amount_paid_out r;
  by_alpha : amount_paid_out r <= I64_MAX -> alpha_reserve_delta r = - amount_paid_out r;
}.

Lemma do_swap_ran n o amount lim simulate s r s' : do_swap n o amount lim simulate s = (Ok r, s') ->
  exists s1, swap_inner n o amount lim s = Ok (r, s1) /\
    (simulate = false -> s' = s1 /\ amount_paid_out r <= paying_reserve n o s).
Proof.
  unfold do_swap. destruct (swap_inner n o amount lim s) as [[r' s1]|]; [|done]. destruct simulate.
  - intros [= -> ->]. by exists s1.
  - fold (paying_reserve n o s). destruct (Z.ltb_spec (paying_reserve n o s) (amount_paid_out r')); intros [= -> ->]. by exists s'.
Qed.

Lemma buy_inner n amount lim s r s' :
  in_type u64 (current_liquidity n s) -> (v3_initialized n s = true -> price_typed n s) ->
  fixed_range U64F64 lim -> 0 <= amount <= U64_MAX -> swap_inner n Buy amount lim s = Ok (r, s') -> buy_ok n amount s r.
Proof using FL.
  intros Hl Hp Hlim Ham E. unfold swap_inner in E. monad_inv E.
  match goal with E : maybe_initialize_v3 _ _ = Ok (?u, _) |- _ => destruct u; apply initialize_typed in E; [|done..] end.
  match goal with E : swap_loop _ _ _ _ _ _ = _ |- _ => eapply (loop_within _ _ _ amount) in E as (H1 & H2 & H3 & H4); try done end.
  - split; cbn; try lia.
    + intros Hsmall. unfold wrap_i64. rewrite Z.mod_small; lia.
    + intros Hout. unfold neg_i64, wrap_i64. rewrite (Z.mod_small (acc_paid_out _ + _)) by lia. rewrite Z.mod_small; lia.
  - unfold within. cbn. lia.
Qed.

(** C8: A purchase takes no more than was offered. For every pool whose liquidity and
    price are of their types, every limit and every amount of its type, over however
    many ticks the swap runs: the TAO that goes into the pool is at most the amount.
    The reserves are told that number as an [i64], which is the number itself for an
    amount of at most [I64_MAX] and wraps around above that. *)
Theorem buy_takes_no_more n amount lim simulate s r s' :
  in_type u64 (current_liquidity n s) -> (v3_initialized n s = true -> price_typed n s) ->
  fixed_range U64F64 lim -> 0 <= amount <= U64_MAX ->
  do_swap n Buy amount lim simulate s = (Ok r, s') ->
  0 <= amount_paid_in r <= amount /\ tao_reserve_delta r = wrap_i64 (amount_paid_in r) /\
  (amount <= I64_MAX -> tao_reserve_delta r = amount_paid_in r).
Proof using FL.
  intros Hl Hp Hlim Ham (s1 & H & _)%do_swap_ran. by destruct (buy_inner _ _ _ _ _ _ Hl Hp Hlim Ham H).
Qed.
End Bounds.
