(* ===== verification/Registration.v ===== *)
(** * Registration of neurons (src/pallets/subtensor/src/subnets/registration.rs)

    Burned and proof-of-work registration, the choice of the neuron to prune
    when a subnet is full, and the faucet. *)

From S2P Require Import Prelude Frame Storage Misc Uids Reserves.
From stdpp Require Import prelude gmap list fin_maps sorting.
From Stdlib Require Import ZArith Lia.
#[local] Open Scope Z_scope.
#[local] Open Scope monad_scope.

(** [ensure!(f(storage), e)] *)
Abbreviation require f e := (bind (gets f) (fun b => check b e)).

Section Registration.
Context {FS : FrameSystem} {Cfg : SubtensorConfig} {SI : StorageIter} {W : Type}.
Context {Env : SubtensorEnv W} {SW : SwapHandler W}.
Abbreviation St := (Storage W).
Implicit Types (s : St) (netuid uid : Z) (hotkey : AccountId).

(** ** The neuron to prune *)

(** The mutable locals of [get_neuron_to_prune]. *)
Record PruneState : Type := mkPruneState {
  min_score : Z;
  min_score_in_immunity : Z;
  earliest_registration : Z;
  earliest_registration_in_immunity : Z;
  uid_to_prune : Z;
  uid_to_prune_in_immunity : Z;
  found_non_immune : bool;
}.

#[local] Instance PruneState_eta : Eta PruneState :=
  fun x => mkPruneState (min_score x) (min_score_in_immunity x) (earliest_registration x)
    (earliest_registration_in_immunity x) (uid_to_prune x) (uid_to_prune_in_immunity x)
    (found_non_immune x).

Definition prune_init : PruneState := mkPruneState U16_MAX U16_MAX U64_MAX U64_MAX 0 0 false.

(** The uid holds the hotkey of the subnet's owner. *)
Definition is_owner_uid (netuid neuron_uid : Z) (s : St) : bool :=
  match get_hotkey_for_net_and_uid netuid neuron_uid s, SubnetOwnerHotkey s !! netuid with
  | Ok hotkey, Some top_sn_owner_hotkey => bool_decide (top_sn_owner_hotkey = hotkey)
  | _, _ => false
  end.

Definition prune_step (netuid : Z) (s : St) (st : PruneState) (neuron_uid : Z) : PruneState :=
  if is_owner_uid netuid neuron_uid s then st
  else
    let pruning_score := get_pruning_score_for_uid netuid neuron_uid s in
    let block_at_registration := get_neuron_block_at_registration netuid neuron_uid s in
    let is_immune := get_neuron_is_immune netuid neuron_uid s in
    if is_immune then
      if (pruning_score <? min_score_in_immunity st)
         || ((pruning_score =? min_score_in_immunity st)
             && (block_at_registration <? earliest_registration_in_immunity st))
      then st <| min_score_in_immunity := pruning_score |>
              <| earliest_registration_in_immunity := block_at_registration |>
              <| uid_to_prune_in_immunity := neuron_uid |>
      else st
    else
      let st := st <| found_non_immune := true |> in
      if (pruning_score <? min_score st)
         || ((pruning_score =? min_score st)
             && (block_at_registration <? earliest_registration st))
      then st <| min_score := pruning_score |>
              <| earliest_registration := block_at_registration |>
              <| uid_to_prune := neuron_uid |>
      else st.

Definition get_neuron_to_prune (netuid : Z) : Pm W Z :=
  let* neurons_n := gets (get_subnetwork_n netuid) in
  if neurons_n =? 0 then ret 0
  else
    let* st := gets (fun s => foldl (prune_step netuid s) prune_init (seqZ 0 neurons_n)) in
    if found_non_immune st then
      set_pruning_score_for_uid netuid (uid_to_prune st) U16_MAX ;;
      ret (uid_to_prune st)
    else
      set_pruning_score_for_uid netuid (uid_to_prune_in_immunity st) U16_MAX ;;
      ret (uid_to_prune_in_immunity st).

(** ** Registering *)

Definition register_neuron (netuid : Z) (hotkey : AccountId) : Pm W Z :=
  let* block_number := gets get_current_block_as_u64 in
  let* current_subnetwork_n := gets (get_subnetwork_n netuid) in
  let* max := gets (get_max_allowed_uids netuid) in
  if current_subnetwork_n <? max then
    modify (append_neuron netuid hotkey block_number) ;;
    ret current_subnetwork_n
  else
    let* neuron_uid := get_neuron_to_prune netuid in
    modify (replace_neuron netuid neuron_uid hotkey block_number) ;;
    ret neuron_uid.

(** [val.saturating_inc()] of a [u16] counter *)
Definition inc_counter (i : NetNum.NetNum) (netuid : Z) (s : St) : St :=
  mutate_net i netuid (fun val => sat_add U16_MAX val 1) s.

Definition do_burned_registration (origin : Origin) (netuid : Z) (hotkey : AccountId) : Pm W unit :=
  let* coldkey := ext (ensure_signed origin) in
  check (negb (is_root netuid)) Error.RegistrationNotPermittedOnRootSubnet ;;
  require (if_subnet_exist netuid) Error.SubNetworkDoesNotExist ;;
  require (get_network_registration_allowed netuid) Error.SubNetRegistrationDisabled ;;
  require (fun s => get_registrations_this_block netuid s <? get_max_registrations_per_block netuid s)
    Error.TooManyRegistrationsThisBlock ;;
  require (fun s => get_registrations_this_interval netuid s
             <? sat_mul U16_MAX (get_target_registrations_per_interval netuid s) 3)
    Error.TooManyRegistrationsThisInterval ;;
  require (fun s => negb (is_hotkey_registered_on_network netuid hotkey s))
    Error.HotKeyAlreadyRegisteredInSubNet ;;
  let* registration_cost := gets (get_burn_as_u64 netuid) in
  require (can_remove_balance_from_coldkey_account coldkey registration_cost)
    Error.NotEnoughBalanceToStake ;;
  modify (create_account_if_non_existent coldkey hotkey) ;;
  require (coldkey_owns_hotkey coldkey hotkey) Error.NonAssociatedColdKey ;;
  require (fun s => negb (get_max_allowed_uids netuid s =? 0)) Error.NoNeuronIdAvailable ;;
  let* actual_burn_amount := remove_balance_from_coldkey_account coldkey registration_cost in
  let* swap_result := swap_tao_for_alpha netuid actual_burn_amount max_price in
  let burned_alpha := amount_paid_out swap_result in
  modify (mutate_net NetNum.SubnetAlphaOut netuid (fun total => sat_sub total burned_alpha)) ;;
  let* neuron_uid := register_neuron netuid hotkey in
  modify (inc_counter NetNum.BurnRegistrationsThisInterval netuid) ;;
  modify (inc_counter NetNum.RegistrationsThisInterval netuid) ;;
  modify (inc_counter NetNum.RegistrationsThisBlock netuid) ;;
  modify (fun s => increase_rao_recycled netuid (get_burn_as_u64 netuid s) s) ;;
  modify (deposit_event (Event.NeuronRegistered netuid neuron_uid hotkey)).

(** ** Proof of work *)

(** [U256] values are numbers below [2 ^ 256]; [overflowing_mul] reports
    whether the exact product fits. *)
Definition overflowing_mul (a b : Z) : Z * bool := ((a * b) mod 2 ^ 256, 2 ^ 256 <=? a * b).

(** [U256::from_little_endian] *)
Fixpoint from_little_endian (bytes : Bytes) : Z :=
  match bytes with [] => 0 | b :: rest => b + 256 * from_little_endian rest end.

Definition hash_meets_difficulty (hash : H256) (difficulty : Z) : bool :=
  let num_hash := from_little_endian hash in
  let '(value, overflowed) := overflowing_mul num_hash difficulty in
  negb overflowed.

(** [H256::from_slice] traps unless it is given exactly 32 bytes. *)
Definition vec_to_hash (vec_hash : Bytes) : Pm W H256 :=
  if Z.of_nat (length vec_hash) =? 32 then ret vec_hash else fail Panic.

Definition hash_to_vec (hash : H256) : Bytes := hash.

Definition get_block_hash_from_u64 (block_number : Z) (s : St) : H256 :=
  system_block_hash (world s) block_number.

Definition hash_block_and_hotkey (block_hash_bytes : Bytes) (hotkey : AccountId) : H256 :=
  let hotkey_bytes := take 32 (encode_account hotkey) in
  keccak_256 (block_hash_bytes ++ hotkey_bytes).

(** [x.to_le_bytes()] of a [u64] *)
Definition to_le_bytes (x : Z) : Bytes :=
  map (fun i => Z.shiftr x (8 * i) mod 256) (seqZ 0 8).
(** [u64::from_le_bytes] of eight bytes *)
Definition u64_from_le_bytes (bytes : Bytes) : Z := from_little_endian bytes.

Definition hash_hotkey_to_u64 (hotkey : AccountId) : Z :=
  let hotkey_bytes := take 32 (encode_account hotkey) in
  u64_from_le_bytes (take 8 (keccak_256 (hotkey_bytes ++ replicate 32 0))).

Definition create_seal_hash (block_number_u64 nonce_u64 : Z) (hotkey : AccountId) (s : St) : H256 :=
  let nonce := to_le_bytes nonce_u64 in
  let block_hash_at_number := get_block_hash_from_u64 block_number_u64 s in
  let binding := hash_block_and_hotkey block_hash_at_number hotkey in
  keccak_256 (sha2_256 (nonce ++ binding)).

(** The search loop of [create_work_for_block_number], for [fuel] nonces. *)
Fixpoint search_work (fuel : nat) (difficulty block_number nonce : Z) (hotkey : AccountId) (s : St)
    : option (Z * Bytes) :=
  let work := create_seal_hash block_number nonce hotkey s in
  if hash_meets_difficulty work difficulty then Some (nonce, hash_to_vec work)
  else match fuel with
       | O => None
       | S fuel =>
           search_work fuel difficulty block_number (sat_add U64_MAX nonce 1) hotkey s
       end.

Definition create_work_for_block_number (fuel : nat) (netuid block_number start_nonce : Z)
    (hotkey : AccountId) (s : St) : option (Z * Bytes) :=
  search_work fuel (get_difficulty netuid s) block_number start_nonce hotkey s.

Definition do_registration (origin : Origin) (netuid block_number nonce : Z) (work : Bytes)
    (hotkey coldkey : AccountId) : Pm W unit :=
  let* signing_origin := ext (ensure_signed origin) in
  check (bool_decide (signing_origin = hotkey)) Error.TransactorAccountShouldBeHotKey ;;
  check (negb (is_root netuid)) Error.RegistrationNotPermittedOnRootSubnet ;;
  require (if_subnet_exist netuid) Error.SubNetworkDoesNotExist ;;
  require (get_network_pow_registration_allowed netuid) Error.SubNetRegistrationDisabled ;;
  require (fun s => get_registrations_this_block netuid s <? get_max_registrations_per_block netuid s)
    Error.TooManyRegistrationsThisBlock ;;
  require (fun s => get_registrations_this_interval netuid s
             <? sat_mul U16_MAX (get_target_registrations_per_interval netuid s) 3)
    Error.TooManyRegistrationsThisInterval ;;
  require (fun s => negb (is_hotkey_registered_on_network netuid hotkey s))
    Error.HotKeyAlreadyRegisteredInSubNet ;;
  let* current_block_number := gets get_current_block_as_u64 in
  check (block_number <=? current_block_number) Error.InvalidWorkBlock ;;
  check (sat_sub current_block_number block_number <? 3) Error.InvalidWorkBlock ;;
  let* difficulty := gets (get_difficulty netuid) in
  let* work_hash := vec_to_hash work in
  check (hash_meets_difficulty work_hash difficulty) Error.InvalidDifficulty ;;
  let* seal := gets (create_seal_hash block_number nonce hotkey) in
  check (bool_decide (seal = work_hash)) Error.InvalidSeal ;;
  modify (fun s => s <| UsedWork ::= <[work := current_block_number]> |>) ;;
  modify (create_account_if_non_existent coldkey hotkey) ;;
  require (coldkey_owns_hotkey coldkey hotkey) Error.NonAssociatedColdKey ;;
  require (fun s => negb (get_max_allowed_uids netuid s =? 0)) Error.NoNeuronIdAvailable ;;
  let* neuron_uid := register_neuron netuid hotkey in
  modify (inc_counter NetNum.POWRegistrationsThisInterval netuid) ;;
  modify (inc_counter NetNum.RegistrationsThisInterval netuid) ;;
  modify (inc_counter NetNum.RegistrationsThisBlock netuid) ;;
  modify (deposit_event (Event.NeuronRegistered netuid neuron_uid hotkey)).

Definition do_faucet (origin : Origin) (block_number nonce : Z) (work : Bytes) : Pm W unit :=
  let* coldkey := ext (ensure_signed origin) in
  let* current_block_number := gets get_current_block_as_u64 in
  check (block_number <=? current_block_number) Error.InvalidWorkBlock ;;
  check (sat_sub current_block_number block_number <? 3) Error.InvalidWorkBlock ;;
  let difficulty := 1000000 in
  let* work_hash := vec_to_hash work in
  check (hash_meets_difficulty work_hash difficulty) Error.InvalidDifficulty ;;
  let* seal := gets (create_seal_hash block_number nonce coldkey) in
  check (bool_decide (seal = work_hash)) Error.InvalidSeal ;;
  modify (fun s => s <| UsedWork ::= <[work := current_block_number]> |>) ;;
  let balance_to_add := 1000000000000 in
  modify (coinbase 100000000000) ;;
  modify (add_balance_to_coldkey_account coldkey balance_to_add) ;;
  modify (deposit_event (Event.Faucet coldkey balance_to_add)).

(** [checked_allowed_register] of src/pallets/subtensor/src/lib.rs *)
Definition checked_allowed_register (netuid : Z) (s : St) : bool :=
  if is_root netuid then false
  else if negb (if_subnet_exist netuid s) then false
  else if negb (get_network_registration_allowed netuid s) then false
  else if get_max_registrations_per_block netuid s <=? get_registrations_this_block netuid s then false
  else if sat_mul U16_MAX (get_target_registrations_per_interval netuid s) 3
          <=? get_registrations_this_interval netuid s then false
  else true.

(** ** The pruned neuron is the least one

    Pruning prefers non-immune neurons, then a low pruning score, then an
    early registration, then a low uid. *)

Definition prune_score (netuid : Z) (s : St) (u : Z) : Z * Z :=
  (get_pruning_score_for_uid netuid u s, get_neuron_block_at_registration netuid u s).

(** Lexicographic order on (score, block). *)
Definition before (p q : Z * Z) : bool := (p.1 <? q.1) || ((p.1 =? q.1) && (p.2 <? q.2)).
Definition not_after (p q : Z * Z) : Prop := p.1 < q.1 \/ (p.1 = q.1 /\ p.2 <= q.2).

(** Keeping the first least element of a list. *)
Definition scan_step (key : Z -> Z * Z) (acc : Z * Z * Z) (u : Z) : Z * Z * Z :=
  if before (key u) acc.1 then (key u, u) else acc.
Definition scan (key : Z -> Z * Z) (l : list Z) : Z * Z * Z :=
  foldl (scan_step key) (U16_MAX, U64_MAX, 0) l.

Lemma before_spec p q : before p q = true <-> p.1 < q.1 \/ (p.1 = q.1 /\ p.2 < q.2).
Proof. unfold before. rewrite orb_true_iff, andb_true_iff, !Z.ltb_lt, Z.eqb_eq. done. Qed.

Lemma scan_spec key l :
  (forall u, u ∈ l -> (key u).1 <= U16_MAX /\ (key u).2 < U64_MAX) ->
  (l = [] /\ scan key l = (U16_MAX, U64_MAX, 0)) \/
  exists u, scan key l = (key u, u) /\ u ∈ l /\ (forall v, v ∈ l -> not_after (key u) (key v)) /\
    exists l1 l2, l = l1 ++ u :: l2 /\ forall v, v ∈ l1 -> before (key u) (key v) = true.
Proof.
  induction l as [|x l IH] using rev_ind; intros Hl; [by left|right].
  unfold scan. rewrite foldl_app. cbn [foldl]. fold (scan key l).
  destruct IH as [[-> E]|(u & E & Hu & Hle & l1 & l2 & Hl12 & Hb)]; [set_solver| |].
  - exists x. rewrite E. unfold scan_step. destruct (Hl x ltac:(set_solver)) as [H1 H2].
    rewrite (proj2 (before_spec _ _)) by (cbn; lia).
    split; [done|]. split; [set_solver|]. split.
    + intros v [Hv|Hv%list_elem_of_singleton]%elem_of_app; [by apply elem_of_nil in Hv|subst v].
      unfold not_after. lia.
    + exists [], []. split; [done|]. intros v Hv. by apply elem_of_nil in Hv.
  - rewrite E. unfold scan_step. cbn [fst]. destruct (before (key x) (key u)) eqn:Hxu.
    + exists x. split; [done|]. split; [set_solver|]. apply before_spec in Hxu. split.
      * intros v [Hv|Hv%list_elem_of_singleton]%elem_of_app; unfold not_after; [|subst v; lia].
        specialize (Hle v Hv). unfold not_after in Hle. lia.
      * exists l, []. split; [done|]. intros v Hv. apply before_spec.
        specialize (Hle v Hv). unfold not_after in Hle. lia.
    + exists u. split; [done|]. split; [set_solver|]. split.
      * intros v [Hv|Hv%list_elem_of_singleton]%elem_of_app; [auto|subst v]. unfold not_after.
        destruct (Z.lt_total (key u).1 (key x).1) as [|[|]]; [lia| |].
        -- destruct (Z.le_gt_cases (key u).2 (key x).2); [lia|].
           rewrite (proj2 (before_spec _ _)) in Hxu by lia. done.
        -- rewrite (proj2 (before_spec _ _)) in Hxu by lia. done.
      * exists l1, (l2 ++ [x]). split; [by rewrite Hl12, <- app_assoc|done].
Qed.

(** The two independent scans [prune_step] performs. *)
Definition mortal (netuid : Z) (s : St) (u : Z) : bool :=
  negb (is_owner_uid netuid u s) && negb (get_neuron_is_immune netuid u s).
Definition immune (netuid : Z) (s : St) (u : Z) : bool :=
  negb (is_owner_uid netuid u s) && get_neuron_is_immune netuid u s.
Definition mortals (netuid : Z) (s : St) (l : list Z) : list Z :=
  filter (fun u => mortal netuid s u = true) l.
Definition immunes (netuid : Z) (s : St) (l : list Z) : list Z :=
  filter (fun u => immune netuid s u = true) l.

Lemma mortals_snoc netuid s l x :
  mortals netuid s (l ++ [x]) = mortals netuid s l ++ (if mortal netuid s x then [x] else []).
Proof. unfold mortals. rewrite filter_app, filter_cons, filter_nil. by destruct (mortal netuid s x). Qed.
Lemma immunes_snoc netuid s l x :
  immunes netuid s (l ++ [x]) = immunes netuid s l ++ (if immune netuid s x then [x] else []).
Proof. unfold immunes. rewrite filter_app, filter_cons, filter_nil. by destruct (immune netuid s x). Qed.

Lemma prune_scan netuid s l :
  let st := foldl (prune_step netuid s) prune_init l in
  scan (prune_score netuid s) (mortals netuid s l)
    = (min_score st, earliest_registration st, uid_to_prune st) /\
  scan (prune_score netuid s) (immunes netuid s l)
    = (min_score_in_immunity st, earliest_registration_in_immunity st, uid_to_prune_in_immunity st) /\
  found_non_immune st = negb (bool_decide (mortals netuid s l = [])).
Proof.
  induction l as [|x l IH] using rev_ind; [done|]. cbv zeta in *.
  rewrite foldl_app. cbn [foldl]. rewrite mortals_snoc, immunes_snoc.
  unfold scan in *. rewrite !foldl_app.
  destruct IH as (E1 & E2 & E3). set (st := foldl (prune_step netuid s) prune_init l) in *.
  unfold prune_step, mortal, immune.
  destruct (is_owner_uid netuid x s); cbn [negb andb].
  { cbn [foldl]. by rewrite !app_nil_r. }
  destruct (get_neuron_is_immune netuid x s); cbn [negb foldl].
  - rewrite ?app_nil_r, E2. unfold scan_step at 2, before. cbn [fst snd prune_score].
    destruct (_ || _); cbn; done.
  - rewrite ?app_nil_r, E1. unfold scan_step at 1, before. cbn [fst snd prune_score].
    rewrite bool_decide_false by (by destruct (mortals netuid s l)).
    clearbody st. destruct st. cbn -[Z.ltb Z.eqb prune_score] in *.
    destruct (_ || _); done.
Qed.

(** [u] is pruned rather than [v]. *)
Definition prune_le (netuid : Z) (s : St) (u v : Z) : Prop :=
  match get_neuron_is_immune netuid u s, get_neuron_is_immune netuid v s with
  | false, true => True
  | true, false => False
  | _, _ =>
      before (prune_score netuid s u) (prune_score netuid s v) = true \/
      (prune_score netuid s u = prune_score netuid s v /\ u <= v)
  end.

(** The stored scores and blocks have their width, and no neuron registers in
    the last possible block. *)
Definition prune_typed (netuid : Z) (s : St) : Prop :=
  forall u, get_pruning_score_for_uid netuid u s <= U16_MAX /\
            get_neuron_block_at_registration netuid u s < U64_MAX.

(** Neurons that may be pruned. *)
Definition candidate (netuid : Z) (s : St) (u : Z) : Prop :=
  0 <= u < get_subnetwork_n netuid s /\ is_owner_uid netuid u s = false.

Lemma scan_least netuid s (P : Z -> Prop) `{!forall x, Decision (P x)} l :
  StronglySorted Z.lt l -> prune_typed netuid s ->
  let key := prune_score netuid s in let l' := filter P l in
  (l' = [] /\ scan key l' = (U16_MAX, U64_MAX, 0)) \/
  exists u, scan key l' = (key u, u) /\ u ∈ l' /\
    forall v, v ∈ l' -> before (key u) (key v) = true \/ (key u = key v /\ u <= v).
Proof.
  intros Hsort Hty key l'.
  destruct (scan_spec key l') as [?|(u & E & Hu & Hle & l1 & l2 & El & Hb)];
    [intros u _; apply Hty|by left|right].
  exists u. split; [done|]. split; [done|]. intros v Hv. specialize (Hle v Hv).
  assert (StronglySorted Z.lt l') as Hs by (by apply sorted_filter).
  rewrite El in Hv, Hs. apply elem_of_app in Hv as [Hv|Hv]; [left; by apply Hb|].
  destruct (before (key u) (key v)) eqn:Hbf; [by left|right].
  assert (key u = key v) as Ek.
  { destruct Hle as [Hlt|[H1 H2]]; [rewrite (proj2 (before_spec _ _)) in Hbf by lia; done|].
    destruct (Z.eq_dec (key u).2 (key v).2) as [E2|]; [|rewrite (proj2 (before_spec _ _)) in Hbf by lia; done].
    by apply injective_projections. }
  split; [done|]. apply elem_of_cons in Hv as [->|Hv]; [done|].
  apply StronglySorted_app_1_r in Hs. inversion Hs as [|? ? _ Hall]; subst.
  rewrite Forall_forall in Hall. specialize (Hall v Hv). lia.
Qed.

(** The uid the loop ends with. *)
Definition pruned_uid (netuid : Z) (s : St) : Z :=
  let st := foldl (prune_step netuid s) prune_init (seqZ 0 (get_subnetwork_n netuid s)) in
  if found_non_immune st then uid_to_prune st else uid_to_prune_in_immunity st.

Lemma pruned_least netuid s : prune_typed netuid s ->
  (pruned_uid netuid s = 0 /\ forall u, ~ candidate netuid s u) \/
  (candidate netuid s (pruned_uid netuid s) /\
   forall v, candidate netuid s v -> prune_le netuid s (pruned_uid netuid s) v).
Proof.
  intros Hty. unfold pruned_uid. set (l := seqZ 0 (get_subnetwork_n netuid s)).
  destruct (prune_scan netuid s l) as (E1 & E2 & ->).
  pose proof (sorted_seqZ 0 (get_subnetwork_n netuid s)) as Hsort. fold l in Hsort.
  assert (forall u, candidate netuid s u <-> u ∈ l /\ is_owner_uid netuid u s = false) as Hcand.
  { intros u. unfold candidate, l. rewrite elem_of_seqZ. naive_solver lia. }
  pose proof (scan_least netuid s (fun u => mortal netuid s u = true) l Hsort Hty) as Hm.
  pose proof (scan_least netuid s (fun u => immune netuid s u = true) l Hsort Hty) as Him.
  cbv zeta in Hm, Him. fold (mortals netuid s l) in Hm. fold (immunes netuid s l) in Him.
  assert (forall u, candidate netuid s u -> get_neuron_is_immune netuid u s = false ->
    u ∈ mortals netuid s l) as Hin_m.
  { intros u [Hin Ho]%Hcand Hi. apply list_elem_of_filter. unfold mortal. by rewrite Ho, Hi. }
  assert (forall u, candidate netuid s u -> get_neuron_is_immune netuid u s = true ->
    u ∈ immunes netuid s l) as Hin_i.
  { intros u [Hin Ho]%Hcand Hi. apply list_elem_of_filter. unfold immune. by rewrite Ho, Hi. }
  destruct Hm as [[El E]|(u & E & Hu & Hle)]; rewrite E in E1.
  - rewrite bool_decide_true by done. cbn [negb].
    assert (forall u, candidate netuid s u -> get_neuron_is_immune netuid u s = true) as Hall.
    { intros u Hu. destruct (get_neuron_is_immune netuid u s) eqn:Hi; [done|].
      specialize (Hin_m u Hu Hi). rewrite El in Hin_m. by apply elem_of_nil in Hin_m. }
    destruct Him as [[El' E']|(u & E' & Hu & Hle)]; rewrite E' in E2.
    + left. injection E2 as _ _ E2. split; [done|]. intros u Hu.
      specialize (Hin_i u Hu (Hall u Hu)). rewrite El' in Hin_i. by apply elem_of_nil in Hin_i.
    + right. assert (u = uid_to_prune_in_immunity (foldl (prune_step netuid s) prune_init l)) as <-
        by congruence.
      apply list_elem_of_filter in Hu as [[Ho Hi]%andb_true_iff Hul]. apply negb_true_iff in Ho.
      split; [by apply Hcand|]. intros v Hv. unfold prune_le. rewrite Hi, Hall by done. auto.
  - right. rewrite bool_decide_false by (by intros H0; rewrite H0 in Hu; apply elem_of_nil in Hu).
    cbn [negb].
    assert (u = uid_to_prune (foldl (prune_step netuid s) prune_init l)) as <- by congruence.
    apply list_elem_of_filter in Hu as [[Ho Hi]%andb_true_iff Hul].
    apply negb_true_iff in Ho. apply negb_true_iff in Hi.
    split; [by apply Hcand|]. intros v Hv. unfold prune_le. rewrite Hi.
    destruct (get_neuron_is_immune netuid v s) eqn:Hvi; auto.
Qed.

Lemma prune_run netuid s : 0 < get_subnetwork_n netuid s ->
  0 <= pruned_uid netuid s < get_subnetwork_n netuid s ->
  get_neuron_to_prune netuid s =
  Ok (pruned_uid netuid s, put_vec NetVec.PruningScores netuid
    (<[Z.to_nat (pruned_uid netuid s) := U16_MAX]> (get_vec NetVec.PruningScores netuid s)) s).
Proof.
  intros Hn Hu. unfold get_neuron_to_prune, pruned_uid in *. cbv zeta in *.
  unfold bind at 1, gets at 1. rewrite (proj2 (Z.eqb_neq _ _)) by lia.
  unfold bind at 1, gets at 1.
  destruct (found_non_immune _); unfold set_pruning_score_for_uid;
    unfold bind, gets, ret, modify; fold (get_subnetwork_n netuid s);
    rewrite (proj2 (Z.ltb_lt _ _)) by lia; done.
Qed.

(** C34: When a subnet is full, the neuron to prune is the least of those that do
    not hold the owner's hotkey: non-immune neurons come first, then the lowest
    pruning score, then the earliest registration, then the lowest uid. The
    search never traps, and it marks the chosen neuron with the largest
    pruning score. Only when every neuron is the owner's does it answer 0. *)
Theorem prune_picks_least (netuid : Z) (s : St) :
  0 < get_subnetwork_n netuid s -> prune_typed netuid s ->
  exists u, get_neuron_to_prune netuid s = Ok (u, put_vec NetVec.PruningScores netuid
      (<[Z.to_nat u := U16_MAX]> (get_vec NetVec.PruningScores netuid s)) s) /\
    ((u = 0 /\ forall v, ~ candidate netuid s v) \/
     (candidate netuid s u /\ forall v, candidate netuid s v -> prune_le netuid s u v)).
Proof.
  intros Hn Hty. exists (pruned_uid netuid s).
  pose proof (pruned_least netuid s Hty) as H. split; [|done].
  apply prune_run; [done|]. destruct H as [[-> _]|[[Hc _] _]]; lia.
Qed.

(** ** Registering keeps the slots consistent *)

(** Parameters that decide where a neuron is placed. *)
Definition slot_item (i : NetNum.NetNum) : bool :=
  match i with NetNum.SubnetworkN | NetNum.MaxAllowedUids => true | _ => false end.

(** Two storages that agree on everything about neuron slots. *)
Record same_slots (s s' : St) : Prop := {
  ss_keys : Keys s = Keys s';
  ss_uids : Uids s = Uids s';
  ss_member : IsNetworkMember s = IsNetworkMember s';
  ss_vecs : net_vecs s = net_vecs s';
  ss_bvecs : net_bool_vecs s = net_bool_vecs s';
  ss_owner : SubnetOwnerHotkey s = SubnetOwnerHotkey s';
  ss_block : BlockAtRegistration s = BlockAtRegistration s';
  ss_items : forall i n, slot_item i = true -> get_net i n s = get_net i n s';
}.

#[export] Instance same_slots_equivalence : Equivalence same_slots.
Proof.
  split.
  - by intros s.
  - intros s s' []. split; try done. intros i n Hi. symmetry. auto.
  - intros s s' s'' H1 H2. split; [by destruct H1, H2; etransitivity; eassumption..|].
    intros i n Hi. by rewrite (ss_items _ _ H1), (ss_items _ _ H2).
Qed.

#[export] Instance uids_ok_proper : Proper (same_slots ==> eq ==> iff) uids_ok.
Proof.
  assert (forall s s' n, same_slots s s' -> uids_ok s n -> uids_ok s' n) as Hone.
  { intros s s' n Hs [Hk Hu Hm Hv Hb].
    assert (get_subnetwork_n n s = get_subnetwork_n n s') as En by by apply ss_items.
    destruct Hs as [Ek Eu Em Ev Eb _ _ _].
    split; intros; unfold member, get_vec, get_bvec in *; rewrite <- ?Ek, <- ?Eu, <- ?Em, <- ?Ev, <- ?Eb, <- ?En; auto. }
  intros s s' Hs n ? <-. split; apply Hone; [done|by symmetry].
Qed.

#[export] Instance candidate_proper : Proper (eq ==> same_slots ==> eq ==> iff) candidate.
Proof.
  intros n ? <- s s' Hs u ? <-. unfold candidate, is_owner_uid, get_hotkey_for_net_and_uid, get_subnetwork_n.
  by rewrite (ss_items _ _ Hs NetNum.SubnetworkN), (ss_keys _ _ Hs), (ss_owner _ _ Hs).
Qed.

#[export] Instance prune_typed_proper : Proper (eq ==> same_slots ==> iff) prune_typed.
Proof.
  intros n ? <- s s' Hs. unfold prune_typed, get_pruning_score_for_uid, get_neuron_block_at_registration, get_vec.
  by rewrite (ss_vecs _ _ Hs), (ss_block _ _ Hs).
Qed.

Lemma slots_mutate_net i n f s : slot_item i = false -> same_slots (mutate_net i n f s) s.
Proof.
  intros Hi. split; try done. intros j m Hj. rewrite get_mutate_net, decide_False; [done|].
  intros [-> _]. congruence.
Qed.

Lemma slots_put_net i n v s : slot_item i = false -> same_slots (put_net i n v s) s.
Proof.
  intros Hi. split; try done. intros j m Hj. rewrite get_put_net, decide_False; [done|].
  intros [-> _]. congruence.
Qed.

Lemma slots_create_account c h s : same_slots (create_account_if_non_existent c h s) s.
Proof. split; intros; by st_frame. Qed.

Lemma slots_world w s : same_slots (s <| world := w |>) s.
Proof. by split. Qed.

Lemma slots_used_work w b s : same_slots (s <| UsedWork ::= <[w := b]> |>) s.
Proof. by split. Qed.

Lemma slots_mutate_value i f s : same_slots (mutate_value i f s) s.
Proof. by split. Qed.

Lemma slots_event e s : same_slots (deposit_event e s) s.
Proof. by split. Qed.

Lemma owner_uid_spec netuid u s h : Keys s !! (netuid, u) = Some h ->
  is_owner_uid netuid u s = bool_decide (SubnetOwnerHotkey s !! netuid = Some h).
Proof.
  intros Hk. unfold is_owner_uid, get_hotkey_for_net_and_uid. rewrite Hk. cbn.
  destruct (SubnetOwnerHotkey s !! netuid) as [o|]; [apply bool_decide_ext; naive_solver|].
  by rewrite bool_decide_false.
Qed.

(** Marking the pruned neuron leaves the slots as they are. *)
Lemma mark_ok netuid u v s m :
  uids_ok s m -> uids_ok (put_vec NetVec.PruningScores netuid
    (<[Z.to_nat u := v]> (get_vec NetVec.PruningScores netuid s)) s) m.
Proof.
  intros [Hk Hu Hm Hv Hb]. split; intros; try (st_frame; auto; done).
  rewrite get_put_vec. case_decide as D; [|by apply Hv].
  destruct D as [<- ->]. rewrite length_insert. by apply Hv.
Qed.

(** The slots after a registration: the new hotkey has the returned uid, and
    every other hotkey keeps its own unless it held that uid. *)
Definition registered_at (netuid : Z) (hotkey : AccountId) (uid : Z) (s s' : St) : Prop :=
  Uids s' !! (netuid, hotkey) = Some uid /\ Keys s' !! (netuid, uid) = Some hotkey /\
  (forall n h, (n, h) <> (netuid, hotkey) -> Keys s !! (netuid, uid) <> Some h \/ n <> netuid ->
     Uids s' !! (n, h) = Uids s !! (n, h)).

(** The pallet can place a new neuron: there is a free slot, or a neuron to
    prune. *)
Definition has_room (netuid : Z) (s : St) : Prop :=
  get_subnetwork_n netuid s < get_max_allowed_uids netuid s \/ exists v, candidate netuid s v.

Lemma register_append netuid hotkey s :
  get_subnetwork_n netuid s < get_max_allowed_uids netuid s ->
  register_neuron netuid hotkey s =
  Ok (get_subnetwork_n netuid s, append_neuron netuid hotkey (get_current_block_as_u64 s) s).
Proof.
  intros Hlt. unfold register_neuron, bind, gets, modify, ret.
  by rewrite (proj2 (Z.ltb_lt _ _) Hlt).
Qed.

Lemma register_replace netuid hotkey s :
  get_max_allowed_uids netuid s <= get_subnetwork_n netuid s -> 0 < get_subnetwork_n netuid s ->
  prune_typed netuid s ->
  let u := pruned_uid netuid s in
  register_neuron netuid hotkey s =
  Ok (u, replace_neuron netuid u hotkey (get_current_block_as_u64 s)
           (put_vec NetVec.PruningScores netuid
             (<[Z.to_nat u := U16_MAX]> (get_vec NetVec.PruningScores netuid s)) s)).
Proof.
  intros Hge Hn Hty u. unfold register_neuron. unfold bind at 1 2 3, gets at 1 2 3.
  rewrite (proj2 (Z.ltb_ge _ _) Hge). unfold bind at 1.
  rewrite prune_run; [done|done|].
  destruct (pruned_least netuid s Hty) as [[-> _]|[[Hc _] _]]; lia.
Qed.

(** What the slots of a subnet must satisfy for a registration. *)
Record slots_ready (netuid : Z) (s : St) : Prop := {
  sr_ok : forall m, uids_ok s m;
  sr_n : 0 <= get_subnetwork_n netuid s;
  sr_max : 0 < get_max_allowed_uids netuid s <= U16_MAX;
  sr_typed : prune_typed netuid s;
}.

Lemma register_neuron_spec netuid hotkey s :
  slots_ready netuid s -> Uids s !! (netuid, hotkey) = None ->
  exists uid s', register_neuron netuid hotkey s = Ok (uid, s') /\ (forall m, uids_ok s' m) /\
    (has_room netuid s -> registered_at netuid hotkey uid s s') /\
    (~ has_room netuid s -> Uids s' = Uids s /\ Keys s' = Keys s).
Proof.
  intros [Hok Hn Hmax Hty] Hnew.
  destruct (Z.lt_ge_cases (get_subnetwork_n netuid s) (get_max_allowed_uids netuid s)) as [Hlt|Hge].
  - eexists _, _. split; [by apply register_append|].
    set (b := get_current_block_as_u64 s).
    assert (Keys (append_neuron netuid hotkey b s) = <[(netuid, get_subnetwork_n netuid s) := hotkey]> (Keys s)) as EK by done.
    assert (Uids (append_neuron netuid hotkey b s) = <[(netuid, hotkey) := get_subnetwork_n netuid s]> (Uids s)) as EU by done.
    split; [intros m; apply append_ok; auto; lia|]. split.
    + intros _. unfold registered_at. rewrite EK, EU, !lookup_insert_eq.
      split; [done|]. split; [done|]. intros n h Hne _. by rewrite lookup_insert_ne.
    + intros Hno. exfalso. apply Hno. by left.
  - eexists _, _. split; [apply register_replace; auto; lia|].
    set (u := pruned_uid netuid s). set (b := get_current_block_as_u64 s).
    set (s1 := put_vec _ _ _ _).
    pose proof (pruned_least netuid s Hty) as Hp. fold u in Hp.
    assert (0 <= u < get_subnetwork_n netuid s) as Hu by (destruct Hp as [[-> _]|[[Hc _] _]]; lia).
    assert (forall m, uids_ok s1 m) as Hok1 by (intros m; by apply mark_ok).
    destruct (proj2 (uo_keys _ _ (Hok netuid) u) Hu) as [old Hold].
    assert (hotkey_at netuid u s1 = old) as Eold.
    { unfold hotkey_at. change (Keys s1) with (Keys s). by rewrite Hold. }
    split; [intros m; by apply replace_ok|]. split.
    + intros Hroom.
      assert (candidate netuid s u) as [_ Hc].
      { destruct Hp as [[_ Hno]|[Hc _]]; [|done].
        destruct Hroom as [?|[v Hv]]; [lia|by apply Hno in Hv]. }
      rewrite (owner_uid_spec _ _ _ _ Hold) in Hc. apply bool_decide_eq_false in Hc.
      assert (SubnetOwnerHotkey s1 !! netuid <> Some (hotkey_at netuid u s1)) as Ho
        by (rewrite Eold; done).
      unfold registered_at. rewrite replace_uids, replace_keys, Eold, !lookup_insert_eq by done.
      split; [done|]. split; [done|]. intros n h Hne Hor. rewrite lookup_insert_ne by done.
      change (Uids s1) with (Uids s). rewrite lookup_delete_ne; [done|]. intros [= <- <-].
      destruct Hor as [Hor|Hor]; [by apply Hor|done].
    + intros Hno. rewrite replace_owner; [done|]. rewrite Eold.
      destruct Hp as [[_ Hnc]|[Hc _]]; [|exfalso; apply Hno; right; eauto].
      destruct (decide (SubnetOwnerHotkey s !! netuid = Some old)) as [E|E]; [done|].
      exfalso. apply (Hnc u). split; [done|]. rewrite (owner_uid_spec _ _ _ _ Hold).
      by apply bool_decide_eq_false.
Qed.

(** ** The extrinsics *)

Lemma slots_decrease_alpha n t s : same_slots (decrease_provided_alpha_reserve n t s) s.
Proof.
  unfold decrease_provided_alpha_reserve. destruct (_ =? _); [by apply slots_put_net|].
  etransitivity; by apply slots_put_net.
Qed.

Lemma swap_slots n t l s r s' : swap_tao_for_alpha n t l s = Ok (r, s') -> same_slots s' s.
Proof.
  intros H. unfold swap_tao_for_alpha in H. monad_inv H; [|done].
  repeat (etransitivity; [first [by apply slots_mutate_net | apply slots_mutate_value
    | apply slots_decrease_alpha | apply slots_world]|]). done.
Qed.

Lemma remove_balance_slots c a s r s' :
  remove_balance_from_coldkey_account c a s = Ok (r, s') -> same_slots s' s.
Proof.
  intros H. unfold remove_balance_from_coldkey_account in H.
  monad_inv H; [done|]. apply slots_world.
Qed.

(** A registration leaves every subnet number but [SubnetworkN] alone. *)
Lemma register_net netuid hotkey s u s' i n :
  register_neuron netuid hotkey s = Ok (u, s') -> i <> NetNum.SubnetworkN ->
  get_net i n s' = get_net i n s.
Proof.
  intros H Hi. unfold register_neuron in H. monad_inv H.
  - unfold append_neuron. st_frame. by rewrite get_put_net, decide_False by naive_solver.
  - unfold get_neuron_to_prune, set_pruning_score_for_uid in Hm. 
    assert (forall u b (x : St), get_net i n (replace_neuron netuid u hotkey b x) = get_net i n x) as Hr.
    { intros u b x. destruct (decide (SubnetOwnerHotkey x !! netuid = Some (hotkey_at netuid u x))).
      - by rewrite replace_owner.
      - unfold replace_neuron. rewrite bool_decide_false by done. by st_frame. }
    rewrite Hr. monad_inv Hm; done.
Qed.

(** What every registration extrinsic does once its checks have passed:
    starting from a storage [s1] with the slots of [s], it places the neuron,
    counts it and reports it. *)
Definition placed (netuid : Z) (hotkey : AccountId) (s s' : St) : Prop :=
  exists s1 uid s2,
    same_slots s1 s /\ register_neuron netuid hotkey s1 = Ok (uid, s2) /\ same_slots s' s2 /\
    (forall i, i = NetNum.RegistrationsThisBlock \/ i = NetNum.RegistrationsThisInterval ->
       get_net i netuid s' = sat_add U16_MAX (get_net i netuid s) 1) /\
    last (events s') = Some (Event.NeuronRegistered netuid uid hotkey).

(** The limits on registrations. *)
Definition within_limits (netuid : Z) (s : St) : Prop :=
  get_registrations_this_block netuid s < get_max_registrations_per_block netuid s /\
  get_registrations_this_interval netuid s
    < sat_mul U16_MAX (get_target_registrations_per_interval netuid s) 3.

Lemma placed_spec netuid hotkey s s' :
  placed netuid hotkey s s' -> slots_ready netuid s -> Uids s !! (netuid, hotkey) = None ->
  (forall m, uids_ok s' m) /\
  (has_room netuid s -> exists uid, registered_at netuid hotkey uid s s' /\
     last (events s') = Some (Event.NeuronRegistered netuid uid hotkey)) /\
  (~ has_room netuid s -> Uids s' = Uids s /\ Keys s' = Keys s).
Proof.
  intros (s1 & uid & s2 & H1 & Hr & H2 & _ & Hev) [Hok Hn Hmax Hty] Hnew.
  assert (get_subnetwork_n netuid s1 = get_subnetwork_n netuid s) as En by by apply (ss_items _ _ H1).
  assert (get_max_allowed_uids netuid s1 = get_max_allowed_uids netuid s) as Em by by apply (ss_items _ _ H1).
  destruct (register_neuron_spec netuid hotkey s1) as (uid' & s2' & Hr' & Hok2 & Hroom & Hnoroom).
  { split; [intros m; by rewrite H1|lia|lia|by rewrite H1]. }
  { by rewrite (ss_uids _ _ H1). }
  rewrite Hr in Hr'. injection Hr' as <- <-.
  assert (has_room netuid s1 <-> has_room netuid s) as Hrm.
  { unfold has_room. rewrite En, Em. by setoid_rewrite H1. }
  split; [intros m; rewrite H2; apply Hok2|]. rewrite Hrm in Hroom, Hnoroom. split.
  - intros Hyes. exists uid. split; [|done]. specialize (Hroom Hyes).
    unfold registered_at in *. by rewrite (ss_uids _ _ H2), (ss_keys _ _ H2), <- (ss_uids _ _ H1), <- (ss_keys _ _ H1).
  - intros Hno. by rewrite (ss_uids _ _ H2), (ss_keys _ _ H2), <- (ss_uids _ _ H1), <- (ss_keys _ _ H1); auto.
Qed.

(** Counters are not slot items and are not written before the neuron is placed. *)
Lemma create_account_net c h s i n :
  get_net i n (create_account_if_non_existent c h s) = get_net i n s.
Proof. by st_frame. Qed.

Lemma swap_counter n t l s r s' i m : swap_tao_for_alpha n t l s = Ok (r, s') ->
  i = NetNum.RegistrationsThisBlock \/ i = NetNum.RegistrationsThisInterval ->
  get_net i m s' = get_net i m s.
Proof.
  intros H Hi. unfold swap_tao_for_alpha in H. monad_inv H; [|done].
  destruct Hi as [-> | ->]; repeat (st_read; rewrite ?decrease_alpha_other by done); done.
Qed.

Lemma remove_balance_net c a s r s' i m :
  remove_balance_from_coldkey_account c a s = Ok (r, s') -> get_net i m s' = get_net i m s.
Proof. intros H. unfold remove_balance_from_coldkey_account in H. by monad_inv H. Qed.

Lemma burned_placed origin netuid hotkey s s' :
  do_burned_registration origin netuid hotkey s = Ok (tt, s') ->
  placed netuid hotkey s s' /\ Uids s !! (netuid, hotkey) = None /\ within_limits netuid s.
Proof.
  intros H. unfold do_burned_registration in H. monad_inv H.
  match goal with Hreg : register_neuron _ _ (mutate_net _ _ _ ?x) = Ok (?u, ?y) |- _ =>
    pose proof (swap_slots _ _ _ _ _ _ Hm0) as S1;
    pose proof (remove_balance_slots _ _ _ _ _ Hm) as S0;
    split; [exists (mutate_net NetNum.SubnetAlphaOut netuid (fun total => sat_sub total (amount_paid_out a1)) x), u, y|]
  end.
  - split; [|split; [eassumption|split; [|split]]].
    + etransitivity; [by apply slots_mutate_net|]. etransitivity; [done|].
      etransitivity; [done|]. apply slots_create_account.
    + unfold increase_rao_recycled, set_rao_recycled, inc_counter.
      repeat (etransitivity; [first [apply slots_event | by apply slots_put_net | by apply slots_mutate_net]|]).
      done.
    + intros i Hi. unfold increase_rao_recycled, set_rao_recycled, inc_counter.
      destruct Hi as [-> | ->]; st_read;
        rewrite (register_net _ _ _ _ _ _ _ Hm1) by done; st_read;
        (rewrite (swap_counter _ _ _ _ _ _ _ _ Hm0) by auto);
        rewrite (remove_balance_net _ _ _ _ _ _ _ Hm), create_account_net; done.
    + unfold deposit_event. st_frame. apply last_snoc.
  - apply negb_true_iff, bool_decide_eq_false in Hg4. rewrite <- eq_None_not_Some in Hg4.
    split; [done|]. unfold within_limits. by rewrite <- !Z.ltb_lt.
Qed.

Lemma pow_placed origin netuid block nonce work hotkey coldkey s s' :
  do_registration origin netuid block nonce work hotkey coldkey s = Ok (tt, s') ->
  placed netuid hotkey s s' /\ Uids s !! (netuid, hotkey) = None /\ within_limits netuid s.
Proof.
  intros H. unfold do_registration, vec_to_hash in H. monad_inv H.
  match goal with Hreg : register_neuron _ _ ?x = Ok (?u, ?y) |- _ =>
    rename Hreg into Hr; split; [exists x, u, y|] end.
  - split; [|split; [eassumption|split; [|split]]].
    + etransitivity; [apply slots_create_account|]. apply slots_used_work.
    + unfold inc_counter.
      repeat (etransitivity; [first [apply slots_event | by apply slots_mutate_net]|]). done.
    + intros i Hi. unfold inc_counter.
      destruct Hi as [-> | ->]; st_read;
        rewrite (register_net _ _ _ _ _ _ _ Hr) by done; st_read; by rewrite ?create_account_net.
    + unfold deposit_event. st_frame. apply last_snoc.
  - match goal with Hg : negb (is_hotkey_registered_on_network _ _ _) = true |- _ =>
      apply negb_true_iff, bool_decide_eq_false in Hg; rewrite <- eq_None_not_Some in Hg end.
    split; [done|]. unfold within_limits. by rewrite <- !Z.ltb_lt.
Qed.

(** A successful registration of [hotkey], by burning or by proof of work. *)
Inductive registration (netuid : Z) (hotkey : AccountId) : St -> St -> Prop :=
  | Burned origin s s' :
      do_burned_registration origin netuid hotkey s = Ok (tt, s') ->
      registration netuid hotkey s s'
  | ProofOfWork origin block nonce work coldkey s s' :
      do_registration origin netuid block nonce work hotkey coldkey s = Ok (tt, s') ->
      registration netuid hotkey s s'.

Lemma registration_placed netuid hotkey s s' : registration netuid hotkey s s' ->
  placed netuid hotkey s s' /\ Uids s !! (netuid, hotkey) = None /\ within_limits netuid s.
Proof. intros [? ? ? H|? ? ? ? ? ? ? H]; [by eapply burned_placed|by eapply pow_placed]. Qed.

(** A successful registration, of either kind, keeps the slot maps of all
    subnets consistent. If the subnet has a free slot or a neuron that may be
    pruned, the hotkey ends up with the uid the event reports, and no other
    hotkey loses its slot except the one whose uid was reused. If there is
    neither (the subnet is full and all its neurons are the owner's), the call
    still succeeds but leaves the slots as they were: the hotkey is not
    registered. *)
Theorem registration_keeps_slots (netuid : Z) (hotkey : AccountId) (s s' : St) :
  registration netuid hotkey s s' -> slots_ready netuid s ->
  (forall m, uids_ok s' m) /\
  (has_room netuid s -> exists uid, registered_at netuid hotkey uid s s' /\
     last (events s') = Some (Event.NeuronRegistered netuid uid hotkey)) /\
  (~ has_room netuid s -> Uids s' = Uids s /\ Keys s' = Keys s /\ Uids s' !! (netuid, hotkey) = None).
Proof.
  intros (Hp & Hnew & _)%registration_placed Hready.
  destruct (placed_spec _ _ _ _ Hp Hready Hnew) as (H1 & H2 & H3).
  split; [done|]. split; [done|]. intros Hno. destruct (H3 Hno) as [E ->].
  rewrite E. by split_and!.
Qed.

(** A successful registration respects the subnet's limits: afterwards the
    registrations counted in this block are at most the maximum per block, and
    those counted in this interval at most three times the target. *)
Theorem registration_within_limits (netuid : Z) (hotkey : AccountId) (s s' : St) :
  registration netuid hotkey s s' ->
  get_registrations_this_block netuid s' <= get_max_registrations_per_block netuid s /\
  get_registrations_this_interval netuid s'
    <= 3 * get_target_registrations_per_interval netuid s.
Proof.
  intros ((s1 & uid & s2 & _ & _ & _ & Hc & _) & _ & [H1 H2])%registration_placed.
  unfold get_registrations_this_block, get_registrations_this_interval in *.
  rewrite !Hc by auto. unfold sat_add, sat_mul in *. lia.
Qed.

(** Proof-of-work registration accepts nothing but work: the
    submitted bytes are the seal of the given nonce for the signer's key and a
    block of the last three, and read as a number they times the difficulty do
    not exceed 256 bits. *)
Theorem pow_requires_work (origin : Origin) (netuid block nonce : Z) (work : Bytes)
    (hotkey coldkey : AccountId) (s s' : St) :
  do_registration origin netuid block nonce work hotkey coldkey s = Ok (tt, s') ->
  ensure_signed origin = Ok hotkey /\
  work = create_seal_hash block nonce hotkey s /\ length work = 32%nat /\
  from_little_endian work * get_difficulty netuid s < 2 ^ 256 /\
  get_current_block_as_u64 s - 3 < block <= get_current_block_as_u64 s.
Proof.
  intros H. unfold do_registration, vec_to_hash in H. monad_inv H.
  repeat match goal with
  | Hg : bool_decide _ = true |- _ => apply bool_decide_eq_true in Hg
  | Hg : (_ <=? _) = true |- _ => apply Z.leb_le in Hg
  | Hg : (_ <? _) = true |- _ => apply Z.ltb_lt in Hg
  | Hg : (_ =? _) = true |- _ => apply Z.eqb_eq in Hg
  | Hg : hash_meets_difficulty _ _ = true |- _ =>
      unfold hash_meets_difficulty, overflowing_mul in Hg; apply negb_true_iff, Z.leb_gt in Hg
  end.
  subst. unfold sat_sub in *. split_and!; try done; try lia.
Qed.

(** The faucet credits ten times what it issues: on success the caller's
    balance grows by a deposit of 1000 TAO, while [TotalIssuance] is raised by
    100 TAO only. *)
Theorem faucet_issues_less_than_it_pays (origin : Origin) (block nonce : Z) (work : Bytes) (s s' : St) :
  do_faucet origin block nonce work s = Ok (tt, s') ->
  exists coldkey, ensure_signed origin = Ok coldkey /\
  world s' = deposit (world s) coldkey 1000000000000 /\
  get_total_issuance s' = sat_add U64_MAX (get_total_issuance s) 100000000000.
Proof.
  intros H. unfold do_faucet, vec_to_hash in H. monad_inv H. eexists. split; [done|].
  split; [done|]. unfold get_total_issuance, coinbase. by st_read.
Qed.

(** Work that is not exactly 32 bytes long makes the faucet trap instead of
    returning an error: [vec_to_hash] converts it with a function that is only
    defined on 32 bytes, before any check on its length. *)
Theorem faucet_traps_on_short_work (origin : Origin) (coldkey : AccountId) (block nonce : Z)
    (work : Bytes) (s : St) :
  ensure_signed origin = Ok coldkey ->
  get_current_block_as_u64 s - 3 < block <= get_current_block_as_u64 s ->
  length work <> 32%nat ->
  do_faucet origin block nonce work s = Err Panic.
Proof.
  intros Ho Hb Hw. unfold do_faucet, ext. rewrite Ho. unfold bind, gets, ensure.
  rewrite (proj2 (Z.leb_le _ _)), (proj2 (Z.ltb_lt _ _)) by (unfold sat_sub; lia).
  unfold vec_to_hash. by rewrite (proj2 (Z.eqb_neq _ _)) by lia.
Qed.
End Registration.

#[export] Hint Resolve slots_mutate_net slots_put_net slots_create_account slots_world
  slots_used_work slots_mutate_value slots_event : chain.
