(* ===== verification/Identity.v ===== *)
(** * Identities and accounts (src/pallets/subtensor/src/utils/identity.rs, utils/evm.rs)

    A coldkey and a subnet can carry a public identity of bounded size; a
    neuron can associate an EVM address by a signature of its key. The file
    also has [staking/account.rs], which claims a hotkey for a coldkey. *)

From S2P Require Import Prelude Frame Storage Misc Uids Reserves Registration Symbols.
From stdpp Require Import prelude gmap list fin_maps strings pretty sorting.
From Stdlib Require Import ZArith Lia.
#[local] Open Scope Z_scope.
#[local] Open Scope monad_scope.

(** The secp256k1 operations of [sp_core::ecdsa] and [libsecp256k1]: recovering
    the compressed public key that signed a hash, decoding it, and its
    uncompressed encoding of 65 bytes. *)
Class EvmCrypto := {
  PublicKey : Type;
  recover_prehashed : Bytes -> Bytes -> option Bytes;
  parse_compressed : Bytes -> option PublicKey;
  serialize : PublicKey -> Bytes;
}.

Section Identity.
Context {FS : FrameSystem} {Cfg : SubtensorConfig} {SI : StorageIter} {W : Type}.
Context {Env : SubtensorEnv W}.
Abbreviation St := (Storage W).
Implicit Types (s : St) (netuid : Z) (hotkey coldkey : AccountId).

(** ** Identities *)

(** [usize] additions; lengths are far below its maximum. *)
Abbreviation len b := (Z.of_nat (length b)).
Abbreviation plus := (sat_add U64_MAX).

Definition is_valid_identity (identity : ChainIdentityV2) : bool :=
  let total_length :=
    plus (plus (plus (plus (plus (len (ci_name identity)) (len (ci_url identity))) (len (ci_image identity)))
      (len (ci_discord identity))) (len (ci_description identity))) (len (ci_additional identity)) in
  let max_length := plus (plus (plus (plus (plus (plus 256 256) 256) 1024) 256) 1024) 1024 in
  (total_length <=? max_length)
  && (len (ci_name identity) <=? 256)
  && (len (ci_url identity) <=? 256)
  && (len (ci_github_repo identity) <=? 256)
  && (len (ci_image identity) <=? 1024)
  && (len (ci_discord identity) <=? 256)
  && (len (ci_description identity) <=? 1024)
  && (len (ci_additional identity) <=? 1024).

Definition is_valid_subnet_identity (identity : SubnetIdentityV3) : bool :=
  let total_length :=
    plus (plus (len (si_subnet_name identity)) (len (si_github_repo identity))) (len (si_subnet_contact identity)) in
  let max_length := plus (plus (plus (plus (plus (plus (plus 256 1024) 1024) 1024) 256) 1024) 1024) 1024 in
  (total_length <=? max_length)
  && (len (si_subnet_name identity) <=? 256)
  && (len (si_github_repo identity) <=? 1024)
  && (len (si_subnet_contact identity) <=? 1024)
  && (len (si_subnet_url identity) <=? 1024)
  && (len (si_discord identity) <=? 256)
  && (len (si_description identity) <=? 1024)
  && (len (si_logo_url identity) <=? 1024)
  && (len (si_additional identity) <=? 1024).

Definition do_set_identity (origin : Origin) (name url github_repo image discord description additional : Bytes)
    : Pm W unit :=
  let* coldkey := ext (ensure_signed origin) in
  let* s := gets id in
  let hotkeys := get_list KeyList.OwnedHotkeys coldkey s in
  check (existsb (fun hotkey => is_hotkey_registered_on_any_network hotkey s) hotkeys)
    Error.HotKeyNotRegisteredInNetwork ;;
  let identity := mkChainIdentity name url github_repo image discord description additional in
  check (is_valid_identity identity) Error.InvalidIdentity ;;
  modify (fun s => s <| IdentitiesV2 ::= <[coldkey := identity]> |>) ;;
  modify (deposit_event (Event.ChainIdentitySet coldkey)).

Definition do_set_subnet_identity (origin : Origin) (netuid : Z)
    (subnet_name github_repo subnet_contact subnet_url discord description logo_url additional : Bytes) : Pm W unit :=
  let* coldkey := ext (ensure_signed origin) in
  let* s := gets id in
  check (bool_decide (get_subnet_owner netuid s = coldkey)) Error.NotSubnetOwner ;;
  let identity := mkSubnetIdentity subnet_name github_repo subnet_contact subnet_url discord description
    logo_url additional in
  check (is_valid_subnet_identity identity) Error.InvalidIdentity ;;
  modify (fun s => s <| SubnetIdentitiesV3 ::= <[netuid := identity]> |>) ;;
  modify (deposit_event (Event.SubnetIdentitySet netuid)).

(** src/pallets/subtensor/src/staking/account.rs *)
Definition do_try_associate_hotkey (coldkey hotkey : AccountId) : Pm W unit :=
  modify (create_account_if_non_existent coldkey hotkey) ;;
  ret tt.

(** ** EVM addresses *)
Context {EC : EvmCrypto}.

(** ["\x19Ethereum Signed Message:\n"] *)
Definition MESSAGE_PREFIX : Bytes := 25 :: ascii_bytes "Ethereum Signed Message:" ++ [10].

Definition hash_message_eip191 (message : Bytes) : Bytes :=
  let msg_len := pretty (length message) in
  keccak_256 (MESSAGE_PREFIX ++ ascii_bytes msg_len ++ message).

(** [v] as 0 or 1 *)
Definition normalize_v (signature : Bytes) : Bytes :=
  let v := nth 64 signature 0 in
  if 27 <=? v then <[64%nat := sat_sub v 27]> signature else signature.

(** The address of a public key: the last 20 of the 32 bytes of its hash. *)
Definition evm_address (pubkey : PublicKey) : H160 := drop 12 (keccak_256 (drop 1 (serialize pubkey))).

(** What the EVM key signs: the hotkey and the hash of the block number. *)
Definition association_message (hotkey : AccountId) (block_number : Z) : Bytes :=
  encode_account hotkey ++ keccak_256 (to_le_bytes block_number).

Definition do_associate_evm_key (origin : Origin) (netuid : Z) (evm_key : H160) (block_number : Z)
    (signature : Bytes) : Pm W unit :=
  let* hotkey := ext (ensure_signed origin) in
  let signature := normalize_v signature in
  let* s := gets id in
  let* uid := lift (get_uid_for_net_and_hotkey netuid hotkey s) in
  let* public := lift (ok_or (recover_prehashed signature
    (hash_message_eip191 (association_message hotkey block_number))) (Module Error.InvalidIdentity)) in
  let* secp_pubkey := lift (ok_or (parse_compressed public) (Module Error.UnableToRecoverPublicKey)) in
  let hashed_evm_key := evm_address secp_pubkey in
  check (bool_decide (evm_key = hashed_evm_key)) Error.InvalidRecoveredPublicKey ;;
  let* current_block_number := gets get_current_block_as_u64 in
  modify (fun s => s <| AssociatedEvmAddress ::= <[(netuid, uid) := (evm_key, current_block_number)]> |>) ;;
  modify (deposit_event (Event.EvmKeyAssociated netuid hotkey evm_key current_block_number)).

Definition uid_lookup (netuid : Z) (evm_key : H160) (limit : Z) (s : St) : list (Z * Z) :=
  let ret_val := omap (fun '(uid, (stored_evm_key, block_associated)) =>
      if bool_decide (stored_evm_key = evm_key) then Some (uid, block_associated) else None)
    (take (Z.to_nat limit) (iter_subnet netuid (AssociatedEvmAddress s))) in
  sort_by_key snd ret_val.

(** ** Properties *)

(** The limit on the total length never decides: it follows from the limits on
    the fields. *)
Lemma valid_identity_fields name url github_repo image discord description additional :
  is_valid_identity (mkChainIdentity name url github_repo image discord description additional) = true <->
  len name <= 256 /\ len url <= 256 /\ len github_repo <= 256 /\ len image <= 1024 /\ len discord <= 256 /\
  len description <= 1024 /\ len additional <= 1024.
Proof using.
  unfold is_valid_identity, sat_add. cbn [ci_name ci_url ci_github_repo ci_image ci_discord ci_description ci_additional].
  rewrite !andb_true_iff, !Z.leb_le. lia.
Qed.

Lemma valid_subnet_identity_fields name github contact url discord description logo additional :
  is_valid_subnet_identity (mkSubnetIdentity name github contact url discord description logo additional) = true <->
  len name <= 256 /\ len github <= 1024 /\ len contact <= 1024 /\ len url <= 1024 /\ len discord <= 256 /\
  len description <= 1024 /\ len logo <= 1024 /\ len additional <= 1024.
Proof using.
  unfold is_valid_subnet_identity, sat_add.
  cbn [si_subnet_name si_github_repo si_subnet_contact si_subnet_url si_discord si_description si_logo_url si_additional].
  rewrite !andb_true_iff, !Z.leb_le. lia.
Qed.

(** Every EVM address on record was proved by a signature: an association
    succeeds only for a registered hotkey and only if the key recovered from
    the signature has the claimed address; it writes that record alone. *)
Lemma evm_association_proved (origin : Origin) netuid evm_key block_number signature s s' :
  do_associate_evm_key origin netuid evm_key block_number signature s = Ok (tt, s') ->
  exists hotkey uid public key,
    ensure_signed origin = Ok hotkey /\ Uids s !! (netuid, hotkey) = Some uid /\
    recover_prehashed (normalize_v signature) (hash_message_eip191 (association_message hotkey block_number)) =
      Some public /\
    parse_compressed public = Some key /\ evm_address key = evm_key /\
    s' = deposit_event (Event.EvmKeyAssociated netuid hotkey evm_key (get_current_block_as_u64 s))
      (s <| AssociatedEvmAddress ::= <[(netuid, uid) := (evm_key, get_current_block_as_u64 s)]> |>).
Proof using.
  intros H. unfold do_associate_evm_key, get_uid_for_net_and_hotkey in H. monad_inv H.
  apply bool_decide_eq_true in Hg. eexists _, _, _, _. split_and!; eauto.
Qed.

(** With no more associations on the subnet than [limit], a lookup returns
    exactly the neurons associated with the address, the oldest first. *)
Lemma uid_lookup_complete netuid evm_key limit s :
  Z.of_nat (length (iter_subnet netuid (AssociatedEvmAddress s))) <= limit ->
  (forall uid block, (uid, block) ∈ uid_lookup netuid evm_key limit s <->
    AssociatedEvmAddress s !! (netuid, uid) = Some (evm_key, block)) /\
  StronglySorted (fun a b => a.2 <= b.2) (uid_lookup netuid evm_key limit s).
Proof using.
  intros Hl. unfold uid_lookup. split; [|apply sort_by_key_sorted].
  intros uid block. rewrite sort_by_key_perm, take_ge, list_elem_of_omap by lia. split.
  - intros ([u [k b]] & Hin & E). apply elem_of_iter_subnet in Hin. case_bool_decide; [|done]. by simplify_eq.
  - intros Hk. exists (uid, (evm_key, block)). by rewrite elem_of_iter_subnet, bool_decide_true.
Qed.
End Identity.
