(* ===== verification/RateLimiting.v ===== *)
(** * Rate limits (src/pallets/subtensor/src/utils/rate_limiting.rs) and delegate
    takes (src/pallets/subtensor/src/staking/increase_take.rs, decrease_take.rs)

    Transactions of a kind are limited for each key and subnet by the block of
    the last one. The take of a delegate may be raised only once in a while and
    never above the maximum. *)

From S2P Require Import Prelude Frame Storage Misc.
From stdpp Require Import prelude gmap list fin_maps.
From Stdlib Require Import ZArith Lia.
#[local] Open Scope Z_scope.
#[local] Open Scope monad_scope.

Inductive TransactionType : Type :=
  | SetChildren | SetChildkeyTake | Unknown | RegisterNetwork | SetWeightsVersionKey
  | TxSetSNOwnerHotkey.

#[export] Instance TransactionType_eq_dec : EqDecision TransactionType.
Proof. solve_decision. Defined.

(** [impl From<TransactionType> for u16] and back *)
Definition tx_to_u16 (tx_type : TransactionType) : Z :=
  match tx_type with
  | SetChildren => 0 | SetChildkeyTake => 1 | Unknown => 2 | RegisterNetwork => 3
  | SetWeightsVersionKey => 4 | TxSetSNOwnerHotkey => 5
  end.

Definition tx_from_u16 (value : Z) : TransactionType :=
  if value =? 0 then SetChildren
  else if value =? 1 then SetChildkeyTake
  else if value =? 3 then RegisterNetwork
  else if value =? 4 then SetWeightsVersionKey
  else if value =? 5 then TxSetSNOwnerHotkey
  else Unknown.

Section RateLimiting.
Context {FS : FrameSystem} {Cfg : SubtensorConfig} {SI : StorageIter} {W : Type}.
Context {Env : SubtensorEnv W}.
Abbreviation St := (Storage W).
Implicit Types s : St.

Definition get_rate_limit (tx_type : TransactionType) (s : St) : Z :=
  match tx_type with
  | SetChildren => 150
  | SetChildkeyTake => get_value Value.TxChildkeyTakeRateLimit s
  | RegisterNetwork => get_value Value.NetworkRateLimit s
  | Unknown => 0
  | _ => 0
  end.

Definition DefaultSetSNOwnerHotkeyRateLimit : Z := 50400.

Definition get_rate_limit_on_subnet (tx_type : TransactionType) (netuid : Z) (s : St) : Z :=
  match tx_type with
  | SetWeightsVersionKey =>
      sat_mul U64_MAX (get_net NetNum.Tempo netuid s) (get_value Value.WeightsVersionKeyRateLimit s)
  | TxSetSNOwnerHotkey => DefaultSetSNOwnerHotkeyRateLimit
  | _ => get_rate_limit tx_type s
  end.

Definition check_passes_rate_limit (limit block last_block : Z) : bool :=
  (last_block =? 0) || (limit <=? sat_sub block last_block).

(** [get_network_last_lock_block] and friends of
    src/pallets/subtensor/src/coinbase/root.rs *)
Definition get_network_last_lock_block (s : St) : Z := get_value Value.NetworkLastRegistered s.
Definition set_network_last_lock_block (block : Z) (s : St) : St :=
  put_value Value.NetworkLastRegistered block s.
Definition get_rate_limited_last_block (k : RateLimitKey) (s : St) : Z :=
  default 0 (LastRateLimitedBlock s !! k).
Definition set_rate_limited_last_block (k : RateLimitKey) (block : Z) (s : St) : St :=
  s <| LastRateLimitedBlock ::= <[k := block]> |>.

Definition get_last_transaction_block_on_subnet (hotkey : AccountId) (netuid : Z)
    (tx_type : TransactionType) (s : St) : Z :=
  match tx_type with
  | RegisterNetwork => get_network_last_lock_block s
  | TxSetSNOwnerHotkey => get_rate_limited_last_block (SetSNOwnerHotkey netuid) s
  | _ => default 0 (TransactionKeyLastBlock s !! (hotkey, netuid, tx_to_u16 tx_type))
  end.

Definition get_last_transaction_block (key : AccountId) (tx_type : TransactionType) (s : St) : Z :=
  match tx_type with
  | RegisterNetwork => get_network_last_lock_block s
  | _ => get_last_transaction_block_on_subnet key 0 tx_type s
  end.

Definition set_last_transaction_block_on_subnet (key : AccountId) (netuid : Z)
    (tx_type : TransactionType) (block : Z) (s : St) : St :=
  match tx_type with
  | RegisterNetwork => set_network_last_lock_block block s
  | TxSetSNOwnerHotkey => set_rate_limited_last_block (SetSNOwnerHotkey netuid) block s
  | _ => s <| TransactionKeyLastBlock ::= <[(key, netuid, tx_to_u16 tx_type) := block]> |>
  end.

Definition set_last_transaction_block (key : AccountId) (tx_type : TransactionType) (block : Z)
    (s : St) : St :=
  match tx_type with
  | RegisterNetwork => set_network_last_lock_block block s
  | _ => set_last_transaction_block_on_subnet key 0 tx_type block s
  end.

Definition passes_rate_limit (tx_type : TransactionType) (key : AccountId) (s : St) : bool :=
  let block := get_current_block_as_u64 s in
  let limit := get_rate_limit tx_type s in
  let last_block := get_last_transaction_block key tx_type s in
  check_passes_rate_limit limit block last_block.

Definition passes_rate_limit_on_subnet (tx_type : TransactionType) (hotkey : AccountId)
    (netuid : Z) (s : St) : bool :=
  let block := get_current_block_as_u64 s in
  let limit := get_rate_limit_on_subnet tx_type netuid s in
  let last_block := get_last_transaction_block_on_subnet hotkey netuid tx_type s in
  check_passes_rate_limit limit block last_block.

Definition set_last_tx_block (key : AccountId) (block : Z) (s : St) : St :=
  put_key KeyNum.LastTxBlock key block s.
Definition get_last_tx_block (key : AccountId) (s : St) : Z := get_key KeyNum.LastTxBlock key s.
Definition set_last_tx_block_delegate_take (key : AccountId) (block : Z) (s : St) : St :=
  put_key KeyNum.LastTxBlockDelegateTake key block s.
Definition get_last_tx_block_delegate_take (key : AccountId) (s : St) : Z :=
  get_key KeyNum.LastTxBlockDelegateTake key s.
Definition get_last_tx_block_childkey_take (key : AccountId) (s : St) : Z :=
  get_key KeyNum.LastTxBlockChildKeyTake key s.

Definition exceeds_tx_rate_limit (prev_tx_block current_block : Z) (s : St) : bool :=
  let rate_limit := get_tx_rate_limit s in
  if (rate_limit =? 0) || (prev_tx_block =? 0) then false
  else sat_sub current_block prev_tx_block <=? rate_limit.

Definition exceeds_tx_delegate_take_rate_limit (prev_tx_block current_block : Z) (s : St) : bool :=
  let rate_limit := get_tx_delegate_take_rate_limit s in
  if (rate_limit =? 0) || (prev_tx_block =? 0) then false
  else sat_sub current_block prev_tx_block <=? rate_limit.

(** ** Delegate takes *)

(** [Delegates::try_get(hotkey)] *)
Definition try_get_take (hotkey : AccountId) (s : St) : option Z := key_nums s !! (KeyNum.Delegates, hotkey).

Definition do_increase_take (origin : Origin) (hotkey : AccountId) (take : Z) : Pm W unit :=
  let* coldkey := ext (ensure_signed origin) in
  do_take_checks coldkey hotkey ;;
  let* current := gets (try_get_take hotkey) in
  match current with
  | Some current_take => check (current_take <? take) Error.DelegateTakeTooLow
  | None => ret tt
  end ;;
  let* max_take := gets (get_value Value.MaxDelegateTake) in
  check (take <=? max_take) Error.DelegateTakeTooHigh ;;
  let* block := gets get_current_block_as_u64 in
  let* exceeds := gets (fun s =>
    exceeds_tx_delegate_take_rate_limit (get_last_tx_block_delegate_take hotkey s) block s) in
  check (negb exceeds) Error.DelegateTxRateLimitExceeded ;;
  modify (set_last_tx_block_delegate_take hotkey block) ;;
  modify (put_key KeyNum.Delegates hotkey take) ;;
  modify (deposit_event (Event.TakeIncreased coldkey hotkey take)).

Definition do_decrease_take (origin : Origin) (hotkey : AccountId) (take : Z) : Pm W unit :=
  let* coldkey := ext (ensure_signed origin) in
  do_take_checks coldkey hotkey ;;
  let* current := gets (try_get_take hotkey) in
  match current with
  | Some current_take => check (take <? current_take) Error.DelegateTakeTooLow
  | None => ret tt
  end ;;
  let* min_take := gets (get_value Value.MinDelegateTake) in
  check (min_take <=? take) Error.DelegateTakeTooLow ;;
  modify (put_key KeyNum.Delegates hotkey take) ;;
  let* block := gets get_current_block_as_u64 in
  modify (set_last_tx_block_delegate_take hotkey block) ;;
  modify (deposit_event (Event.TakeDecreased coldkey hotkey take)).

(** ** Correctness *)

Lemma take_checks_ok c h s r : do_take_checks c h s = Ok r -> coldkey_owns_hotkey c h s = true /\ r = (tt, s).
Proof. intros H. unfold do_take_checks in H. destruct r as [[] s']. by monad_inv H. Qed.

Lemma increase_take_ok origin hotkey take s s' :
  do_increase_take origin hotkey take s = Ok (tt, s') ->
  exists coldkey, ensure_signed origin = Ok coldkey /\ coldkey_owns_hotkey coldkey hotkey s = true /\
  (forall current, try_get_take hotkey s = Some current -> current < take) /\
  take <= get_value Value.MaxDelegateTake s /\
  exceeds_tx_delegate_take_rate_limit (get_last_tx_block_delegate_take hotkey s)
    (get_current_block_as_u64 s) s = false /\
  s' = deposit_event (Event.TakeIncreased coldkey hotkey take)
    (put_key KeyNum.Delegates hotkey take
      (set_last_tx_block_delegate_take hotkey (get_current_block_as_u64 s) s)).
Proof.
  intros H. unfold do_increase_take in H. monad_inv H;
    match goal with Hc : do_take_checks _ _ _ = _ |- _ =>
      apply take_checks_ok in Hc as [? Hc]; simplify_eq end;
    match goal with Hg : negb _ = true |- _ => apply negb_true_iff in Hg end;
    match goal with Hg : (take <=? _) = true |- _ => apply Z.leb_le in Hg end;
    try match goal with Hg : (_ <? take) = true |- _ => apply Z.ltb_lt in Hg end;
    eexists; split_and!; try done; naive_solver.
Qed.

(** Raising a take is limited in amount and in rate. A successful
    [increase_take] was signed by the owner, stores a take above the previous
    one and not above the maximum, and any later one for the same hotkey that
    finds the block recorded by it (recorded at a block other than 0, under a
    nonzero limit) happens more than [TxDelegateTakeRateLimit] blocks later. *)
Theorem take_increase_limited (origin origin2 : Origin) (hotkey : AccountId) (take take2 : Z)
    (s s' s2 s2' : St) :
  do_increase_take origin hotkey take s = Ok (tt, s') ->
  do_increase_take origin2 hotkey take2 s2 = Ok (tt, s2') ->
  get_last_tx_block_delegate_take hotkey s2 = get_last_tx_block_delegate_take hotkey s' ->
  get_current_block_as_u64 s <> 0 -> 0 < get_tx_delegate_take_rate_limit s2 ->
  (exists coldkey, ensure_signed origin = Ok coldkey /\ coldkey_owns_hotkey coldkey hotkey s = true) /\
  (forall current, try_get_take hotkey s = Some current -> current < get_hotkey_take hotkey s') /\
  get_hotkey_take hotkey s' = take /\ take <= get_value Value.MaxDelegateTake s /\
  get_current_block_as_u64 s + get_tx_delegate_take_rate_limit s2 < get_current_block_as_u64 s2.
Proof.
  intros (c & Ho & Hown & Hcur & Hmax & _ & ->)%increase_take_ok.
  intros (c2 & _ & _ & _ & _ & Hrate & _)%increase_take_ok Hlast Hb Hl.
  assert (get_hotkey_take hotkey (deposit_event (Event.TakeIncreased c hotkey take)
    (put_key KeyNum.Delegates hotkey take
      (set_last_tx_block_delegate_take hotkey (get_current_block_as_u64 s) s))) = take) as ->.
  { unfold get_hotkey_take. by st_read. }
  split; [eauto|]. split; [done|]. split; [done|]. split; [done|].
  rewrite Hlast in Hrate. unfold get_last_tx_block_delegate_take, set_last_tx_block_delegate_take in Hrate.
  revert Hrate. st_read. unfold exceeds_tx_delegate_take_rate_limit.
  rewrite !(proj2 (Z.eqb_neq _ _)) by lia. cbn [orb]. rewrite Z.leb_gt. unfold sat_sub. lia.
Qed.

(** The encoding of transaction types is inverse to the decoding. *)
Lemma tx_roundtrip t : tx_from_u16 (tx_to_u16 t) = t.
Proof. by destruct t. Qed.

Lemma tx_to_u16_inj t t' : tx_to_u16 t = tx_to_u16 t' -> t = t'.
Proof. intros H. rewrite <- (tx_roundtrip t), H. apply tx_roundtrip. Qed.

(** Whether two keys address the same register of last blocks. *)
Definition same_register (t t' : TransactionType) (k k' : AccountId) (n n' : Z) : bool :=
  bool_decide (t = t') &&
  match t with
  | RegisterNetwork => true
  | TxSetSNOwnerHotkey => n =? n'
  | _ => bool_decide (k = k') && (n =? n')
  end.

(** The last block of a transaction type is a separate register for each
    type, key and subnet: after it is set, it reads back, and the register of
    a different type for any key on any subnet, or of the same type for another
    key or subnet, keeps its value. [RegisterNetwork] has one register
    altogether, [SetSNOwnerHotkey] one for each subnet. *)
Theorem last_transaction_block_registers (t t' : TransactionType) (k k' : AccountId) (n n' b : Z) (s : St) :
  get_last_transaction_block_on_subnet k' n' t' (set_last_transaction_block_on_subnet k n t b s) =
  if same_register t t' k k' n n' then b else get_last_transaction_block_on_subnet k' n' t' s.
Proof.
  destruct t, t'; unfold get_last_transaction_block_on_subnet, set_last_transaction_block_on_subnet,
    get_network_last_lock_block, set_network_last_lock_block, get_rate_limited_last_block,
    set_rate_limited_last_block; st_read; try done;
    unfold same_register; cbn; rewrite lookup_insert; case_decide; repeat case_bool_decide;
    destruct (Z.eqb_spec n n'); naive_solver.
Qed.
End RateLimiting.
