(* ===== verification/Children.v ===== *)
(** * Child keys (src/pallets/subtensor/src/staking/set_children.rs)

    A hotkey may delegate fractions of its stake on a subnet to child hotkeys.
    [do_schedule_children] validates a list of children and parks it;
    [do_set_pending_children] puts the lists whose cool-down has passed into
    effect, updating both directions of the relation: [ChildKeys] of the parent
    and [ParentKeys] of every child. The invariant is that the two maps are
    always converse to each other. *)

From S2P Require Import Prelude Frame Storage Misc RateLimiting.
From stdpp Require Import prelude gmap list fin_maps.
From Stdlib Require Import ZArith Lia.
#[local] Open Scope Z_scope.
#[local] Open Scope monad_scope.

(** What the staking side tells about the stake of a hotkey: its value over all
    subnets. *)
Class StakeView {FS : FrameSystem} (W : Type) := {
  get_total_stake_for_hotkey : AccountId -> Storage W -> Z;
}.

Section Children.
Context {FS : FrameSystem} {Cfg : SubtensorConfig} {SI : StorageIter} {W : Type}.
Context {Env : SubtensorEnv W} {SV : StakeView W}.
Abbreviation St := (Storage W).
Abbreviation Links := (list (Z * AccountId)).
Implicit Types (s : St) (l : Links).

Definition get_children (hotkey : AccountId) (netuid : Z) (s : St) : Links :=
  default [] (ChildKeys s !! (hotkey, netuid)).
Definition get_parents (child : AccountId) (netuid : Z) (s : St) : Links :=
  default [] (ParentKeys s !! (child, netuid)).
Definition get_childkey_take (hotkey : AccountId) (netuid : Z) (s : St) : Z :=
  get_net_key NetKeyNum.ChildkeyTake netuid hotkey s.

(** [children.iter().try_fold(0u64, |acc, (p, _)| acc.checked_add(p))] *)
Fixpoint total_proportion (acc : Z) (children : Links) : option Z :=
  match children with
  | [] => Some acc
  | (proportion, _) :: rest =>
      match checked_add U64_MAX acc proportion with
      | Some acc' => total_proportion acc' rest
      | None => None
      end
  end.

(** The loop over [unique_children]. *)
Fixpoint has_duplicate (seen : list AccountId) (children : Links) : bool :=
  match children with
  | [] => false
  | (_, child_i) :: rest =>
      if bool_decide (child_i ∈ seen) then true else has_duplicate (seen ++ [child_i]) rest
  end.

Definition do_schedule_children (origin : Origin) (hotkey : AccountId) (netuid : Z)
    (children : Links) : Pm W unit :=
  let* coldkey := ext (ensure_signed origin) in
  let* s := gets id in
  check (passes_rate_limit_on_subnet SetChildren hotkey netuid s) Error.TxRateLimitExceeded ;;
  check (negb (is_root netuid)) Error.RegistrationNotPermittedOnRootSubnet ;;
  check (if_subnet_exist netuid s) Error.SubNetworkDoesNotExist ;;
  check (coldkey_owns_hotkey coldkey hotkey s) Error.NonAssociatedColdKey ;;
  check (Z.of_nat (length children) <=? 5) Error.TooManyChildren ;;
  check (forallb (fun p => negb (bool_decide (p.2 = hotkey))) children) Error.InvalidChild ;;
  let* _ := lift (ok_or (total_proportion 0 children) (Module Error.ProportionOverflow)) in
  check (negb (has_duplicate [] children)) Error.DuplicateChild ;;
  check (bool_decide (children = [])
         || (get_value Value.StakeThreshold s <=? get_total_stake_for_hotkey hotkey s)
         || bool_decide (SubnetOwnerHotkey s !! netuid = Some hotkey))
    Error.NotEnoughStakeToSetChildkeys ;;
  let current_block := get_current_block_as_u64 s in
  modify (set_last_transaction_block_on_subnet hotkey netuid SetChildren current_block) ;;
  let cooldown_block :=
    sat_add U64_MAX (get_current_block_as_u64 s) (get_value Value.PendingChildKeyCooldown s) in
  modify (fun s => s <| PendingChildKeys ::= fun m =>
    <[netuid := <[hotkey := (children, cooldown_block)]> (default ∅ (m !! netuid))]> m |>) ;;
  modify (deposit_event (Event.SetChildrenScheduled hotkey netuid cooldown_block children)).

(** Removing [hotkey] from the parents of one child. *)
Definition drop_parent (hotkey : AccountId) (netuid : Z) (s : St) (old : Z * AccountId) : St :=
  s <| ParentKeys := <[(old.2, netuid) :=
    filter (fun p => p.2 <> hotkey) (get_parents old.2 netuid s)]> (ParentKeys s) |>.

(** Adding [hotkey] to the parents of one child. *)
Definition add_parent (hotkey : AccountId) (netuid : Z) (s : St) (new : Z * AccountId) : St :=
  s <| ParentKeys := <[(new.2, netuid) :=
    get_parents new.2 netuid s ++ [(new.1, hotkey)]]> (ParentKeys s) |>.

(** One pending entry taking effect. *)
Definition apply_pending (netuid : Z) (hotkey : AccountId) (children : Links) (s : St) : St :=
  let old_children := get_children hotkey netuid s in
  let s := foldl (drop_parent hotkey netuid) s old_children in
  let s := s <| ChildKeys ::= <[(hotkey, netuid) := children]> |> in
  let s := foldl (add_parent hotkey netuid) s children in
  let s := deposit_event (Event.SetChildren hotkey netuid children) s in
  s <| PendingChildKeys ::= fun m => <[netuid := delete hotkey (default ∅ (m !! netuid))]> m |>.

(** The iteration visits the entries that were there when it started. *)
Definition do_set_pending_children (netuid : Z) (s : St) : St :=
  let current_block := get_current_block_as_u64 s in
  foldl (fun s '(hotkey, (children, cool_down_block)) =>
    if cool_down_block <? current_block then apply_pending netuid hotkey children s else s)
    s (iter_prefix (default ∅ (PendingChildKeys s !! netuid))).

Definition do_set_childkey_take (coldkey hotkey : AccountId) (netuid take : Z) : Pm W unit :=
  let* s := gets id in
  check (coldkey_owns_hotkey coldkey hotkey s) Error.NonAssociatedColdKey ;;
  check (take <=? get_max_childkey_take s) Error.InvalidChildkeyTake ;;
  let current_take := get_childkey_take hotkey netuid s in
  (if current_take <? take then
     check (passes_rate_limit_on_subnet SetChildkeyTake hotkey netuid s)
       Error.TxChildkeyTakeRateLimitExceeded
   else ret tt) ;;
  let current_block := get_current_block_as_u64 s in
  modify (set_last_transaction_block_on_subnet hotkey netuid SetChildkeyTake current_block) ;;
  modify (put_net_key NetKeyNum.ChildkeyTake netuid hotkey take) ;;
  modify (set_last_transaction_block_on_subnet hotkey netuid SetChildkeyTake current_block) ;;
  modify (deposit_event (Event.ChildKeyTakeSet hotkey take)).

(** The extrinsic [set_childkey_take] of src/pallets/subtensor/src/macros/dispatches.rs *)
Definition set_childkey_take (origin : Origin) (hotkey : AccountId) (netuid take : Z) : Pm W unit :=
  let* coldkey := ext (ensure_signed origin) in
  do_set_childkey_take coldkey hotkey netuid take.

(** ** The invariant *)

(** A list of children a hotkey may have. *)
Record children_ok (hotkey : AccountId) (l : Links) : Prop := {
  co_nodup : NoDup l.*2;
  co_self : hotkey ∉ l.*2;
  co_len : (length l <= 5)%nat;
  co_total : exists t, total_proportion 0 l = Some t;
}.

Record links_ok (s : St) (n : Z) : Prop := {
  lo_converse : forall parent child p,
    (p, child) ∈ get_children parent n s <-> (p, parent) ∈ get_parents child n s;
  lo_children : forall parent, children_ok parent (get_children parent n s);
  lo_parents : forall child, NoDup (get_parents child n s).*2;
}.

Definition pending_ok (s : St) (n : Z) : Prop :=
  forall hotkey l b, default ∅ (PendingChildKeys s !! n) !! hotkey = Some (l, b) -> children_ok hotkey l.

(** ** Following the parents through an update *)

Lemma drop_parent_parents h n s x c m :
  get_parents c m (drop_parent h n s x) =
  if decide (x.2 = c /\ n = m) then filter (fun p => p.2 <> h) (get_parents c m s) else get_parents c m s.
Proof.
  unfold drop_parent. unfold get_parents at 1. cbn. case_decide as D.
  - destruct D as [<- <-]. by rewrite lookup_insert_eq.
  - by rewrite lookup_insert_ne by naive_solver.
Qed.

Lemma add_parent_parents h n s x c m :
  get_parents c m (add_parent h n s x) =
  if decide (x.2 = c /\ n = m) then get_parents c m s ++ [(x.1, h)] else get_parents c m s.
Proof.
  unfold add_parent. unfold get_parents at 1. cbn. case_decide as D.
  - destruct D as [<- <-]. by rewrite lookup_insert_eq.
  - by rewrite lookup_insert_ne by naive_solver.
Qed.

Lemma drop_fold h n l : forall s c m,
  get_parents c m (foldl (drop_parent h n) s l) =
  if decide (c ∈ l.*2 /\ n = m) then filter (fun p => p.2 <> h) (get_parents c m s)
  else get_parents c m s.
Proof.
  induction l as [|x l IH]; intros s c m; cbn.
  { rewrite decide_False; [done|]. intros [H _]. by apply elem_of_nil in H. }
  rewrite IH, drop_parent_parents.
  destruct (decide (n = m)) as [->|Hn]; [|by rewrite !decide_False by naive_solver].
  destruct (decide (x.2 = c)) as [<-|Hx].
  - rewrite (decide_True (P:=x.2 = x.2 /\ _)) by done.
    rewrite (decide_True (P:=x.2 ∈ x.2 :: _ /\ _)) by set_solver.
    case_decide; [|done]. rewrite list_filter_filter. apply list_filter_iff. naive_solver.
  - rewrite (decide_False (P:=x.2 = c /\ _)) by naive_solver.
    rewrite (decide_ext (c ∈ x.2 :: l.*2 /\ m = m) (c ∈ l.*2 /\ m = m)); [done|].
    rewrite elem_of_cons. naive_solver.
Qed.

(** The entries [hotkey] gets in the parents of [c]. *)
Definition new_links (h c : AccountId) (l : Links) : Links :=
  (fun x => (x.1, h)) <$> filter (fun x => x.2 = c) l.

Lemma add_fold h n l : forall s c m,
  get_parents c m (foldl (add_parent h n) s l) =
  get_parents c m s ++ (if decide (n = m) then new_links h c l else []).
Proof.
  induction l as [|x l IH]; intros s c m; cbn [foldl].
  { case_decide; unfold new_links; cbn; by rewrite app_nil_r. }
  rewrite IH, add_parent_parents. destruct (decide (n = m)) as [->|Hn].
  - unfold new_links. rewrite filter_cons.
    destruct (decide (x.2 = c)); [rewrite decide_True by done|rewrite decide_False by naive_solver; done].
    cbn [fmap list_fmap]. by rewrite <- app_assoc.
  - by rewrite decide_False by naive_solver.
Qed.

(** Reads the two loops leave alone. *)
Lemma drop_fold_frame {A} (g : St -> A) h n l s :
  (forall f x, g (x <| ParentKeys := f |>) = g x) -> g (foldl (drop_parent h n) s l) = g s.
Proof. intros H. revert s. induction l as [|x l IH]; intros s; cbn [foldl]; [done|]. rewrite IH. apply H. Qed.
Lemma add_fold_frame {A} (g : St -> A) h n l s :
  (forall f x, g (x <| ParentKeys := f |>) = g x) -> g (foldl (add_parent h n) s l) = g s.
Proof. intros H. revert s. induction l as [|x l IH]; intros s; cbn [foldl]; [done|]. rewrite IH. apply H. Qed.

Lemma apply_children n h l s c m :
  get_children c m (apply_pending n h l s) =
  if decide (h = c /\ n = m) then l else get_children c m s.
Proof.
  unfold apply_pending. st_frame. rewrite (add_fold_frame (get_children c m)) by done.
  unfold get_children at 1. st_frame.
  rewrite (drop_fold_frame (fun s => ChildKeys s)) by done. unfold get_children.
  case_decide as D; [destruct D as [<- <-]; by rewrite lookup_insert_eq|].
  by rewrite lookup_insert_ne by naive_solver.
Qed.

Lemma apply_parents n h l s c m :
  get_parents c m (apply_pending n h l s) =
  if decide (n = m)
  then (if decide (c ∈ (get_children h n s).*2) then filter (fun p => p.2 <> h) (get_parents c m s)
        else get_parents c m s) ++ new_links h c l
  else get_parents c m s.
Proof.
  unfold apply_pending. st_frame. rewrite add_fold. st_frame. rewrite drop_fold.
  destruct (decide (n = m)) as [->|Hn].
  - f_equal. apply decide_ext. naive_solver.
  - rewrite decide_False by naive_solver. by rewrite app_nil_r.
Qed.

Lemma elem_of_new_links h c l p q : (p, q) ∈ new_links h c l <-> q = h /\ (p, c) ∈ l.
Proof.
  unfold new_links. rewrite list_elem_of_fmap. setoid_rewrite list_elem_of_filter. split.
  - intros ([p' c'] & [= -> ->] & ? & ?). cbn in *. by subst.
  - intros [-> Hl]. by exists (p, c).
Qed.

Lemma new_links_nodup h c l : NoDup l.*2 -> NoDup (new_links h c l).*2.
Proof.
  intros Hnd. unfold new_links.
  assert (length (filter (fun x => x.2 = c) l) <= 1)%nat as Hlen.
  { induction l as [|x l IH]; [cbn; lia|]. inversion Hnd as [|? ? Hx Hnd']; subst.
    rewrite filter_cons. case_decide as D; [|auto]. cbn [length]. rewrite filter_none; [done|].
    intros y Hy Hc. apply Hx. rewrite D, <- Hc. by apply list_elem_of_fmap_2. }
  destruct (filter _ l) as [|a [|b k]]; cbn in *; [constructor|apply NoDup_singleton|lia].
Qed.

(** Dropping the parent from its old children removes it from every child. *)
Lemma dropped_parents s n h c : links_ok s n ->
  (if decide (c ∈ (get_children h n s).*2) then filter (fun p => p.2 <> h) (get_parents c n s)
   else get_parents c n s) = filter (fun p => p.2 <> h) (get_parents c n s).
Proof.
  intros [Hc _ _]. case_decide as D; [done|]. symmetry. apply filter_all.
  intros [p q] Hpq Hq. cbn in Hq. subst q. apply D. apply Hc in Hpq.
  by apply (list_elem_of_fmap_2 snd) in Hpq.
Qed.

Lemma apply_links_ok n h l s m : links_ok s m -> children_ok h l -> links_ok (apply_pending n h l s) m.
Proof.
  intros Hok Hl. destruct (decide (n = m)) as [->|Hn].
  2: { destruct Hok. split; intros; rewrite ?apply_children, ?apply_parents,
         ?(decide_False (P:=h = _ /\ n = m)), ?(decide_False (P:=n = m)) by naive_solver; auto. }
  pose proof Hok as [Hc Hch Hp].
  split.
  - intros parent child p. rewrite apply_children, apply_parents, (decide_True (P:=m = m)) by done.
    rewrite dropped_parents, elem_of_app, list_elem_of_filter, elem_of_new_links, <- Hc by done. cbn.
    destruct (decide (h = parent)) as [->|Hne].
    + rewrite decide_True by done. naive_solver.
    + rewrite decide_False by naive_solver. naive_solver.
  - intros parent. rewrite apply_children. case_decide as D; [by destruct D as [<- _]|auto].
  - intros child. rewrite apply_parents, (decide_True (P:=m = m)) by done.
    rewrite dropped_parents by done. rewrite fmap_app. apply NoDup_app. split_and!.
    + apply (sublist_NoDup _ (get_parents child m s).*2); [apply Hp|]. apply fmap_sublist, sublist_filter.
    + intros q ([p q'] & -> & Hq)%list_elem_of_fmap ([p' q''] & E & Hq')%list_elem_of_fmap.
      apply list_elem_of_filter in Hq as [Hne _]. apply elem_of_new_links in Hq' as [-> _]. cbn in *. congruence.
    + apply new_links_nodup, Hl.
Qed.

(** ** Scheduling and applying *)

Definition pending_at (n : Z) (h : AccountId) (s : St) : option (Links * Z) :=
  default ∅ (PendingChildKeys s !! n) !! h.

Definition child_inv (s : St) : Prop := forall n, links_ok s n /\ pending_ok s n.

Lemma apply_pending_at n h l s m c :
  pending_at m c (apply_pending n h l s) = if decide (h = c /\ n = m) then None else pending_at m c s.
Proof.
  unfold apply_pending, pending_at. st_frame.
  rewrite (add_fold_frame (fun s => PendingChildKeys s)) by done. st_frame.
  rewrite (drop_fold_frame (fun s => PendingChildKeys s)) by done.
  destruct (decide (n = m)) as [->|Hn].
  - rewrite lookup_insert_eq. cbn. destruct (decide (h = c)) as [->|].
    + by rewrite lookup_delete_eq, decide_True.
    + by rewrite lookup_delete_ne, decide_False by naive_solver.
  - by rewrite lookup_insert_ne, decide_False by naive_solver.
Qed.

Lemma has_duplicate_spec l : forall seen, NoDup seen ->
  has_duplicate seen l = false -> NoDup (seen ++ l.*2).
Proof.
  induction l as [|[p c] l IH]; intros seen Hs H; cbn in *; [by rewrite app_nil_r|].
  case_bool_decide as Hin; [done|]. apply IH in H.
  - by rewrite <- app_assoc in H.
  - apply NoDup_app. split; [done|]. split; [set_solver|]. apply NoDup_singleton.
Qed.

Lemma schedule_ok origin h n l s s' : do_schedule_children origin h n l s = Ok (tt, s') ->
  children_ok h l /\
  (forall m c, pending_at m c s' =
     if decide (h = c /\ n = m)
     then Some (l, sat_add U64_MAX (get_current_block_as_u64 s) (get_value Value.PendingChildKeyCooldown s))
     else pending_at m c s) /\
  ChildKeys s' = ChildKeys s /\ ParentKeys s' = ParentKeys s.
Proof.
  intros H. unfold do_schedule_children in H. monad_inv H. split; [split|split; [|done]].
  - apply negb_true_iff in Hg5. by apply (has_duplicate_spec l []) in Hg5; [|constructor].
  - rewrite forallb_forall in Hg4. intros ([p c] & -> & Hin)%list_elem_of_fmap.
    apply list_elem_of_In, Hg4 in Hin. cbn in Hin. by rewrite bool_decide_true in Hin.
  - apply Z.leb_le in Hg3. lia.
  - eauto.
  - intros m c. unfold pending_at. st_frame. destruct (decide (n = m)) as [->|Hn].
    + rewrite lookup_insert_eq. cbn. destruct (decide (h = c)) as [->|].
      * by rewrite lookup_insert_eq, decide_True.
      * by rewrite lookup_insert_ne, decide_False by naive_solver.
    + by rewrite lookup_insert_ne, decide_False by naive_solver.
Qed.

(** One iteration of the loop of [do_set_pending_children]. *)
Definition pending_step (n now : Z) (s : St) (e : AccountId * (Links * Z)) : St :=
  if e.2.2 <? now then apply_pending n e.1 e.2.1 s else s.

Lemma set_pending_eq n s : do_set_pending_children n s =
  foldl (pending_step n (get_current_block_as_u64 s)) s (iter_prefix (default ∅ (PendingChildKeys s !! n))).
Proof.
  unfold do_set_pending_children. generalize (get_current_block_as_u64 s) as now.
  generalize (iter_prefix (default ∅ (PendingChildKeys s !! n))) as L. intros L now.
  generalize s. induction L as [|[h [l b]] L IH]; intros s0; cbn [foldl]; [done|]. by rewrite IH.
Qed.

Lemma pending_fold_inv n now L : forall s,
  (forall h l b, (h, (l, b)) ∈ L -> children_ok h l) -> child_inv s ->
  child_inv (foldl (pending_step n now) s L).
Proof.
  induction L as [|[h [l b]] L IH]; intros s HL Hs; cbn [foldl]; [done|].
  apply IH; [set_solver|]. unfold pending_step. cbn. destruct (b <? now); [|done].
  intros m. destruct (Hs m) as [H1 H2]. split.
  - apply apply_links_ok; [done|]. apply (HL h l b). set_solver.
  - intros c l' b'. fold (pending_at m c (apply_pending n h l s)). rewrite apply_pending_at.
    case_decide; [done|]. apply H2.
Qed.

Lemma iter_pending_elem n s h l b :
  (h, (l, b)) ∈ iter_prefix (default ∅ (PendingChildKeys s !! n)) <-> pending_at n h s = Some (l, b).
Proof. rewrite iter_prefix_perm. by rewrite elem_of_map_to_list. Qed.

Lemma set_pending_inv n s : child_inv s -> child_inv (do_set_pending_children n s).
Proof.
  intros Hs. rewrite set_pending_eq. apply pending_fold_inv; [|done].
  intros h l b Hin%iter_pending_elem. destruct (Hs n) as [_ Hp]. by apply (Hp h l b).
Qed.

(** Steps of the chain, as far as child keys are concerned. *)
Inductive child_step : St -> St -> Prop :=
  | StepSchedule origin h n l s s' :
      do_schedule_children origin h n l s = Ok (tt, s') -> child_step s s'
  | StepApply n s : child_step s (do_set_pending_children n s)
  | StepTake origin h n take s s' : set_childkey_take origin h n take s = Ok (tt, s') -> child_step s s'
  | StepOther s s' :
      ChildKeys s' = ChildKeys s -> ParentKeys s' = ParentKeys s ->
      PendingChildKeys s' = PendingChildKeys s -> child_step s s'.

Lemma child_inv_ext s s' : ChildKeys s' = ChildKeys s -> ParentKeys s' = ParentKeys s ->
  PendingChildKeys s' = PendingChildKeys s -> child_inv s -> child_inv s'.
Proof.
  intros E1 E2 E3 H n. destruct (H n) as [[Hc Hch Hp] Hpend].
  split; [split; unfold get_children, get_parents in *; intros; rewrite ?E1, ?E2; auto|].
  unfold pending_ok. rewrite E3. apply Hpend.
Qed.

Lemma child_step_inv s s' : child_step s s' -> child_inv s -> child_inv s'.
Proof.
  intros Hstep Hs. destruct Hstep as [o h n l s s' H|n s|o h n t s s' H|s s' E1 E2 E3].
  - apply schedule_ok in H as (Hl & Hp & E1 & E2). intros m. destruct (Hs m) as [[Hc Hch Hpar] Hpend].
    split; [split; unfold get_children, get_parents in *; intros; rewrite ?E1, ?E2; auto|].
    intros c l' b'. fold (pending_at m c s'). rewrite Hp. case_decide as D; [|apply Hpend].
    destruct D as [<- _]. by intros [= <- _].
  - by apply set_pending_inv.
  - unfold set_childkey_take, do_set_childkey_take in H. monad_inv H; by apply (child_inv_ext s).
  - by apply (child_inv_ext s).
Qed.

Lemma no_links_inv s : ChildKeys s = ∅ -> ParentKeys s = ∅ -> PendingChildKeys s = ∅ -> child_inv s.
Proof.
  intros E1 E2 E3 m. split; [split|].
  - intros. unfold get_children, get_parents. rewrite E1, E2, !lookup_empty. cbn. set_solver.
  - intros. unfold get_children. rewrite E1, lookup_empty. cbn.
    split; [constructor|set_solver|cbn; lia|by exists 0].
  - intros. unfold get_parents. rewrite E2, lookup_empty. constructor.
  - intros h l b. by rewrite E3, lookup_empty.
Qed.

Lemma child_steps_inv s s' : rtc child_step s s' -> child_inv s -> child_inv s'.
Proof. induction 1; eauto using child_step_inv. Qed.

(** C25: Child keys and parent keys stay converse. Starting with no links, after
    any sequence of schedulings, epochs that apply pending lists, take changes
    and steps that leave these items alone, on every subnet: a hotkey lists a
    child with a proportion exactly when the child lists it as a parent with
    that proportion; nobody is its own child; no child and no parent is listed
    twice; a hotkey has at most five children and their proportions add up to
    at most [u64::MAX]. *)
Theorem children_parents_converse (s0 s : St) :
  ChildKeys s0 = ∅ -> ParentKeys s0 = ∅ -> PendingChildKeys s0 = ∅ ->
  rtc child_step s0 s -> forall n, links_ok s n.
Proof.
  intros E1 E2 E3 Hsteps n. by apply (child_steps_inv s0 s), no_links_inv.
Qed.

Lemma pending_fold_skip n now L : forall s h, (forall l b, (h, (l, b)) ∈ L -> now <= b) ->
  get_children h n (foldl (pending_step n now) s L) = get_children h n s /\
  pending_at n h (foldl (pending_step n now) s L) = pending_at n h s.
Proof.
  induction L as [|[h' [l' b']] L IH]; intros s h HL; cbn [foldl]; [done|].
  destruct (IH (pending_step n now s (h', (l', b'))) h) as [-> ->]; [set_solver|].
  unfold pending_step. cbn. destruct (Z.ltb_spec b' now); [|done].
  rewrite apply_children, apply_pending_at.
  destruct (decide (h' = h)) as [->|]; [|by rewrite !decide_False by naive_solver].
  specialize (HL l' b' ltac:(set_solver)). lia.
Qed.

Lemma pending_fold_hit n now L : forall s h l b, NoDup L.*1 -> (h, (l, b)) ∈ L -> b < now ->
  get_children h n (foldl (pending_step n now) s L) = l /\
  pending_at n h (foldl (pending_step n now) s L) = None.
Proof.
  induction L as [|[h' [l' b']] L IH]; intros s h l b Hnd Hin Hb; cbn [foldl]; [by apply elem_of_nil in Hin|].
  inversion Hnd as [|? ? Hx Hnd']; subst. apply elem_of_cons in Hin as [[= <- <- <-]|Hin].
  - destruct (pending_fold_skip n now L (pending_step n now s (h, (l, b))) h) as [-> ->].
    { intros l1 b1 H1. exfalso. apply Hx. by apply (list_elem_of_fmap_2 fst) in H1. }
    unfold pending_step. cbn. rewrite (proj2 (Z.ltb_lt _ _)) by done.
    by rewrite apply_children, apply_pending_at, !decide_True.
  - by apply (IH _ h l b).
Qed.

(** The epoch puts exactly the ripe lists into effect: a pending list whose
    cool-down block has passed becomes the children of its hotkey and is no
    longer pending; one whose cool-down has not passed stays pending and the
    children of its hotkey stay as they are, as do those of a hotkey with
    nothing pending. *)
Theorem pending_children_take_effect (n : Z) (h : AccountId) (s : St) :
  let s' := do_set_pending_children n s in
  match pending_at n h s with
  | Some (l, b) =>
      if b <? get_current_block_as_u64 s then get_children h n s' = l /\ pending_at n h s' = None
      else get_children h n s' = get_children h n s /\ pending_at n h s' = Some (l, b)
  | None => get_children h n s' = get_children h n s /\ pending_at n h s' = None
  end.
Proof.
  cbv zeta. rewrite set_pending_eq. set (L := iter_prefix (default ∅ (PendingChildKeys s !! n))).
  assert (NoDup L.*1) as Hnd by (unfold L; rewrite iter_prefix_perm; apply NoDup_fst_map_to_list).
  assert (forall l b, (h, (l, b)) ∈ L <-> pending_at n h s = Some (l, b)) as HL
    by (intros; apply iter_pending_elem).
  destruct (pending_at n h s) as [[l b]|] eqn:E.
  - destruct (Z.ltb_spec b (get_current_block_as_u64 s)).
    + apply (pending_fold_hit _ _ _ _ _ _ b); [done|by apply HL|done].
    + rewrite <- E. apply pending_fold_skip. intros l' b' [= <- <-]%HL. done.
  - rewrite <- E. apply pending_fold_skip. intros l' b' ?%HL. congruence.
Qed.
End Children.
