(* ===== verification/Staking.v ===== *)
(** * Staking (src/pallets/subtensor/src/staking/)

    The stake of a hotkey on a subnet is a share pool between the coldkeys that
    staked to it: [TotalHotkeyAlpha] is the shared value, [Alpha] the shares and
    [TotalHotkeyShares] the denominator. This file has the pool's data layer
    and the stake functions of stake_utils.rs, and the extrinsics of
    add_stake.rs, remove_stake.rs, move_stake.rs and recycle_alpha.rs. *)

From S2P Require Import Prelude Frame Fixed SharePool Storage Misc Reserves Children.
From stdpp Require Import prelude gmap list fin_maps.
From Stdlib Require Import ZArith Lia.
#[local] Open Scope Z_scope.
#[local] Open Scope monad_scope.

Section Staking.
Context {FS : FrameSystem} {Cfg : SubtensorConfig} {SI : StorageIter} {W : Type}.
Context {Env : SubtensorEnv W} {SW : SwapHandler W} {F : SubstrateFixed}.
Abbreviation St := (Storage W).
Implicit Types (s : St) (hotkey coldkey : AccountId) (netuid : Z).

(** ** The data layer: [HotkeyAlphaSharePoolDataOperations] *)

Definition alpha_shares (hotkey : AccountId) (netuid : Z) (s : St) : gmap AccountId Z :=
  default ∅ (Alpha s !! (hotkey, netuid)).

Definition put_alpha_shares (hotkey : AccountId) (netuid : Z) (m : gmap AccountId Z) (s : St) : St :=
  s <| Alpha ::= <[(hotkey, netuid) := m]> |>.

Definition get_alpha_share_pool (hotkey : AccountId) (netuid : Z) :
    SharePoolDataOperations AccountId St := {|
  get_shared_value s := from_num U64F64 (get_net_key NetKeyNum.TotalHotkeyAlpha netuid hotkey s);
  get_share key s := default 0 (alpha_shares hotkey netuid s !! key);
  try_get_share key s := alpha_shares hotkey netuid s !! key;
  get_denominator s := get_net_key NetKeyNum.TotalHotkeyShares netuid hotkey s;
  set_shared_value value s :=
    if negb (value =? 0)
    then put_net_key NetKeyNum.TotalHotkeyAlpha netuid hotkey (to_num U64F64 u64 value) s
    else remove_net_key NetKeyNum.TotalHotkeyAlpha netuid hotkey s;
  set_share key share s :=
    if negb (share =? 0)
    then put_alpha_shares hotkey netuid (<[key := share]> (alpha_shares hotkey netuid s)) s
    else put_alpha_shares hotkey netuid (delete key (alpha_shares hotkey netuid s)) s;
  set_denominator update s :=
    if negb (update =? 0)
    then put_net_key NetKeyNum.TotalHotkeyShares netuid hotkey update s
    else remove_net_key NetKeyNum.TotalHotkeyShares netuid hotkey s;
|}.

(** ** Stake of hotkeys and coldkeys *)

(** [amount as i64] *)
Definition as_i64 (amount : Z) : Z := wrap_i64 amount.

Definition get_stake_for_hotkey_and_coldkey_on_subnet (hotkey coldkey : AccountId) (netuid : Z)
    (s : St) : Z :=
  default 0 (try_get_value (Ops := get_alpha_share_pool hotkey netuid) coldkey s).

Definition has_enough_stake_on_subnet (hotkey coldkey : AccountId) (netuid decrement : Z)
    (s : St) : bool :=
  decrement <=? get_stake_for_hotkey_and_coldkey_on_subnet hotkey coldkey netuid s.

Definition get_stake_for_hotkey_on_subnet (hotkey : AccountId) (netuid : Z) (s : St) : Z :=
  get_net_key NetKeyNum.TotalHotkeyAlpha netuid hotkey s.

Definition increase_stake_for_hotkey_on_subnet (hotkey : AccountId) (netuid amount : Z)
    (s : St) : St :=
  update_value_for_all (Ops := get_alpha_share_pool hotkey netuid) (as_i64 amount) s.
Definition decrease_stake_for_hotkey_on_subnet (hotkey : AccountId) (netuid amount : Z)
    (s : St) : St :=
  update_value_for_all (Ops := get_alpha_share_pool hotkey netuid) (neg_i64 (as_i64 amount)) s.

Definition increase_stake_for_hotkey_and_coldkey_on_subnet (hotkey coldkey : AccountId)
    (netuid amount : Z) (s : St) : Z * St :=
  let s := if 0 <? amount then push_unique KeyList.StakingHotkeys coldkey hotkey s else s in
  let '(actual_alpha, s) :=
    update_value_for_one (Ops := get_alpha_share_pool hotkey netuid) coldkey (as_i64 amount) s in
  (Z.abs (Z.max actual_alpha 0), s).

Definition try_increase_stake_for_hotkey_and_coldkey_on_subnet (hotkey : AccountId)
    (netuid amount : Z) (s : St) : bool :=
  sim_update_value_for_one (Ops := get_alpha_share_pool hotkey netuid) (as_i64 amount) s.

Definition decrease_stake_for_hotkey_and_coldkey_on_subnet (hotkey coldkey : AccountId)
    (netuid amount : Z) (s : St) : Z * St :=
  let '(actual_alpha, s) :=
    match try_get_value (Ops := get_alpha_share_pool hotkey netuid) coldkey s with
    | Some value =>
        if amount <=? value
        then update_value_for_one (Ops := get_alpha_share_pool hotkey netuid) coldkey
               (neg_i64 (as_i64 amount)) s
        else (0, s)
    | None => (0, s)
    end in
  (Z.abs (Z.max (neg_i64 actual_alpha) 0), s).

(** ** Moving stake in and out of a subnet *)

Definition DefaultMinStake : Z := 500000.

(** The part of [unstake_from_subnet] after the stake was decreased. It writes
    nothing before the swap, its only step that can fail. *)
Definition unstake_swap (hotkey coldkey : AccountId) (netuid actual_alpha_decrease price_limit : Z)
    : Pm W Z :=
  let* swap_result := swap_alpha_for_tao netuid actual_alpha_decrease price_limit in
  let refund := sat_sub actual_alpha_decrease
    (sat_add U64_MAX (amount_paid_in swap_result) (fee_paid swap_result)) in
  (if 0 <? refund
   then modify (fun s => (increase_stake_for_hotkey_and_coldkey_on_subnet hotkey coldkey netuid refund s).2)
   else ret tt) ;;
  modify (fun s => s <| LastColdkeyHotkeyStakeBlock ::=
    <[(coldkey, hotkey) := get_current_block_as_u64 s]> |>) ;;
  modify (deposit_event (Event.StakeRemoved coldkey hotkey (amount_paid_out swap_result)
    actual_alpha_decrease netuid (fee_paid swap_result))) ;;
  ret (amount_paid_out swap_result).

Definition unstake_from_subnet (hotkey coldkey : AccountId) (netuid alpha price_limit : Z)
    : Pm W Z :=
  let* actual_alpha_decrease := fun s =>
    Ok (decrease_stake_for_hotkey_and_coldkey_on_subnet hotkey coldkey netuid alpha s) in
  unstake_swap hotkey coldkey netuid actual_alpha_decrease price_limit.

Definition stake_into_subnet (hotkey coldkey : AccountId) (netuid tao price_limit : Z) : Pm W Z :=
  let* swap_result := swap_tao_for_alpha netuid tao price_limit in
  check (0 <? amount_paid_out swap_result) Error.AmountTooLow ;;
  let* possible := gets (try_increase_stake_for_hotkey_and_coldkey_on_subnet hotkey netuid
    (amount_paid_out swap_result)) in
  check possible Error.InsufficientLiquidity ;;
  let* increased := fun s =>
    Ok (increase_stake_for_hotkey_and_coldkey_on_subnet hotkey coldkey netuid
          (amount_paid_out swap_result) s) in
  if (increased =? 0) || (amount_paid_out swap_result =? 0) then ret 0
  else
    modify (push_unique KeyList.StakingHotkeys coldkey hotkey) ;;
    modify (fun s => s <| LastColdkeyHotkeyStakeBlock ::=
      <[(coldkey, hotkey) := get_current_block_as_u64 s]> |>) ;;
    modify (deposit_event (Event.StakeAdded coldkey hotkey tao (amount_paid_out swap_result)
      netuid (fee_paid swap_result))) ;;
    ret (amount_paid_out swap_result).

Definition ensure_subtoken_enabled (subnet : Z) : Pm W unit :=
  let* enabled := gets (get_flag NetFlag.SubtokenEnabled subnet) in
  check enabled Error.SubtokenDisabled.

(** ** Validation of user input *)

Definition sim_swap_at (netuid : Z) (order : OrderType) (amount : Z) (s : St)
    : result DispatchError SwapResult := sim_swap s netuid order amount.

Definition validate_add_stake (coldkey hotkey : AccountId)
    (netuid stake_to_be_added max_amount : Z) (allow_partial : bool) : Pm W unit :=
  let* s := gets id in
  check (if_subnet_exist netuid s) Error.SubnetNotExists ;;
  ensure_subtoken_enabled netuid ;;
  let min_stake := DefaultMinStake in
  let fee := match sim_swap_at netuid Buy min_stake s with
             | Ok res => fee_paid res
             | Err _ => approx_fee_amount s netuid min_stake
             end in
  let min_amount := sat_add U64_MAX min_stake fee in
  check (min_amount <=? stake_to_be_added) Error.AmountTooLow ;;
  (if negb allow_partial then check (stake_to_be_added <=? max_amount) Error.SlippageTooHigh
   else ret tt) ;;
  check (can_remove_balance_from_coldkey_account coldkey stake_to_be_added s)
    Error.NotEnoughBalanceToStake ;;
  check (hotkey_account_exists hotkey s) Error.HotKeyAccountNotExists ;;
  match sim_swap_at netuid Buy stake_to_be_added s with
  | Err _ => throw Error.InsufficientLiquidity
  | Ok expected_alpha =>
      check (0 <? amount_paid_out expected_alpha) Error.InsufficientLiquidity ;;
      check (try_increase_stake_for_hotkey_and_coldkey_on_subnet hotkey netuid
               (amount_paid_out expected_alpha) s) Error.InsufficientLiquidity
  end.

Definition validate_remove_stake (coldkey hotkey : AccountId)
    (netuid alpha_unstaked max_amount : Z) (allow_partial : bool) : Pm W unit :=
  let* s := gets id in
  check (if_subnet_exist netuid s) Error.SubnetNotExists ;;
  match sim_swap_at netuid Sell alpha_unstaked s with
  | Ok res => check (DefaultMinStake <? amount_paid_out res) Error.AmountTooLow
  | Err _ => throw Error.InsufficientLiquidity
  end ;;
  (if negb allow_partial then check (alpha_unstaked <=? max_amount) Error.SlippageTooHigh
   else ret tt) ;;
  check (hotkey_account_exists hotkey s) Error.HotKeyAccountNotExists ;;
  check (has_enough_stake_on_subnet hotkey coldkey netuid alpha_unstaked s)
    Error.NotEnoughStakeToWithdraw.

Definition validate_unstake_all (coldkey hotkey : AccountId) (only_alpha : bool) : Pm W unit :=
  let* s := gets id in
  let subnets := get_all_subnet_netuids s in
  check (hotkey_account_exists hotkey s) Error.HotKeyAccountNotExists ;;
  let unstaking_any := existsb (fun netuid =>
    if only_alpha && is_root netuid then false
    else
      let alpha := get_stake_for_hotkey_and_coldkey_on_subnet hotkey coldkey netuid s in
      is_ok (validate_remove_stake coldkey hotkey netuid alpha alpha false s)) subnets in
  check unstaking_any Error.AmountTooLow.

Definition validate_stake_transition (origin_coldkey destination_coldkey origin_hotkey
    destination_hotkey : AccountId) (origin_netuid destination_netuid alpha_amount max_amount : Z)
    (maybe_allow_partial : option bool) (check_transfer_toggle : bool) : Pm W unit :=
  let* s := gets id in
  (if bool_decide (origin_coldkey = destination_coldkey) && bool_decide (origin_hotkey = destination_hotkey)
   then check (negb (origin_netuid =? destination_netuid)) Error.SameNetuid else ret tt) ;;
  check (if_subnet_exist origin_netuid s) Error.SubnetNotExists ;;
  (if negb (origin_netuid =? destination_netuid)
   then check (if_subnet_exist destination_netuid s) Error.SubnetNotExists else ret tt) ;;
  check (get_flag NetFlag.SubtokenEnabled origin_netuid s) Error.SubtokenDisabled ;;
  check (get_flag NetFlag.SubtokenEnabled destination_netuid s) Error.SubtokenDisabled ;;
  check (hotkey_account_exists origin_hotkey s) Error.HotKeyAccountNotExists ;;
  check (hotkey_account_exists destination_hotkey s) Error.HotKeyAccountNotExists ;;
  let origin_alpha :=
    get_stake_for_hotkey_and_coldkey_on_subnet origin_hotkey origin_coldkey origin_netuid s in
  check (alpha_amount <=? origin_alpha) Error.NotEnoughStakeToWithdraw ;;
  match sim_swap_at origin_netuid Sell alpha_amount s with
  | Err _ => throw Error.InsufficientLiquidity
  | Ok res => check (DefaultMinStake <? amount_paid_out res) Error.AmountTooLow
  end ;;
  match maybe_allow_partial with
  | Some false => check (alpha_amount <=? max_amount) Error.SlippageTooHigh
  | _ => ret tt
  end ;;
  if check_transfer_toggle then
    check (get_flag NetFlag.TransferToggle origin_netuid s) Error.TransferDisallowed ;;
    check (get_flag NetFlag.TransferToggle destination_netuid s) Error.TransferDisallowed
  else ret tt.

(** ** add_stake.rs *)

Definition do_add_stake (origin : Origin) (hotkey : AccountId) (netuid stake_to_be_added : Z)
    : Pm W unit :=
  let* coldkey := ext (ensure_signed origin) in
  ensure_subtoken_enabled netuid ;;
  validate_add_stake coldkey hotkey netuid stake_to_be_added stake_to_be_added false ;;
  let* tao_staked := remove_balance_from_coldkey_account coldkey stake_to_be_added in
  let* _ := stake_into_subnet hotkey coldkey netuid
    (to_num I96F32 u64 (from_num I96F32 tao_staked)) max_price in
  ret tt.

(** The limit on the amount that a price limit implies; the swap of a dynamic
    subnet is simulated with [should_rollback]. *)
Definition get_max_amount_add (netuid limit_price : Z) : Pm W Z :=
  let* s := gets id in
  if is_root netuid || (get_net NetNum.SubnetMechanism netuid s =? 0) then
    if 1000000000 <=? limit_price then ret U64_MAX else throw Error.ZeroMaxStakeAmount
  else
    match swap s netuid Buy U64_MAX limit_price true with
    | Err _ => throw Error.ZeroMaxStakeAmount
    | Ok (r, _) =>
        let result := sat_add U64_MAX (amount_paid_in r) (fee_paid r) in
        if negb (result =? 0) then ret result else throw Error.ZeroMaxStakeAmount
    end.

Definition do_add_stake_limit (origin : Origin) (hotkey : AccountId)
    (netuid stake_to_be_added limit_price : Z) (allow_partial : bool) : Pm W unit :=
  let* coldkey := ext (ensure_signed origin) in
  let* max_amount := get_max_amount_add netuid limit_price in
  let possible_stake := if max_amount <? stake_to_be_added then max_amount else stake_to_be_added in
  validate_add_stake coldkey hotkey netuid stake_to_be_added max_amount allow_partial ;;
  let* owner := gets (get_owning_coldkey_for_hotkey hotkey) in
  (if bool_decide (owner = coldkey) then ret tt else modify (maybe_become_delegate hotkey)) ;;
  let* tao_staked := remove_balance_from_coldkey_account coldkey possible_stake in
  let* _ := stake_into_subnet hotkey coldkey netuid tao_staked limit_price in
  ret tt.

(** ** remove_stake.rs *)

(** [get_total_stake_for_hotkey] of staking/helpers.rs *)
Definition total_stake_for_hotkey (hotkey : AccountId) (s : St) : Z :=
  to_num U96F32 u64 (sum U96F32 (map (fun netuid =>
    let alpha := from_num U96F32 (get_stake_for_hotkey_on_subnet hotkey netuid s) in
    let alpha_price := from_fixed U96F32 U96F32 (current_alpha_price s netuid) in
    saturating_mul U96F32 alpha alpha_price) (get_all_subnet_netuids s))).

#[export] Instance staking_view : StakeView W := {|
  get_total_stake_for_hotkey := total_stake_for_hotkey;
|}.

(** An error of the inner [unstake_from_subnet] is swallowed here, outside of a
    storage layer: the decrease it made before the swap stays. *)
Definition clear_small_nomination_if_required (hotkey coldkey : AccountId) (netuid : Z)
    (s : St) : St :=
  if negb (coldkey_owns_hotkey coldkey hotkey s) then
    let stake := get_stake_for_hotkey_and_coldkey_on_subnet hotkey coldkey netuid s in
    if stake <? get_nominator_min_required_stake s then
      let '(decrease, s1) :=
        decrease_stake_for_hotkey_and_coldkey_on_subnet hotkey coldkey netuid stake s in
      match unstake_swap hotkey coldkey netuid decrease min_price s1 with
      | Ok (cleared_stake, s2) => add_balance_to_coldkey_account coldkey cleared_stake s2
      | Err _ =>
          let alpha := get_stake_for_hotkey_and_coldkey_on_subnet hotkey coldkey netuid s1 in
          (decrease_stake_for_hotkey_and_coldkey_on_subnet hotkey coldkey netuid alpha s1).2
      end
    else s
  else s.

(** [Alpha] as the map of its source, by hotkey, subnet and coldkey. *)
Definition alpha_table (s : St) : gmap (AccountId * Z * AccountId) Z :=
  map_uncurry (M1 := gmap (AccountId * Z)) (M2 := gmap AccountId) (M12 := gmap (AccountId * Z * AccountId)) (Alpha s).

(** [Alpha::iter()] while the visited entries are changed: only the entry that
    is visited is written. *)
Definition clear_small_nominations (s : St) : St :=
  foldl (fun s '((hotkey, netuid, coldkey), _) => clear_small_nomination_if_required hotkey coldkey netuid s)
    s (iter_prefix (alpha_table s)).

(** [PendingChildKeys::remove(netuid, hotkey)] on every subnet *)
Definition drop_pending_children (hotkey : AccountId) (s : St) : St :=
  foldl (fun s netuid => s <| PendingChildKeys ::= fun m =>
      <[netuid := delete hotkey (default ∅ (m !! netuid))]> m |>)
    s (get_all_subnet_netuids s).

Definition forget_pending_if_low (hotkey : AccountId) (s : St) : St :=
  if get_total_stake_for_hotkey hotkey s <? get_stake_threshold s
  then drop_pending_children hotkey s else s.

Definition do_remove_stake (origin : Origin) (hotkey : AccountId) (netuid alpha_unstaked : Z)
    : Pm W unit :=
  let* coldkey := ext (ensure_signed origin) in
  ensure_subtoken_enabled netuid ;;
  validate_remove_stake coldkey hotkey netuid alpha_unstaked alpha_unstaked false ;;
  let* tao_unstaked := unstake_from_subnet hotkey coldkey netuid alpha_unstaked min_price in
  modify (add_balance_to_coldkey_account coldkey tao_unstaked) ;;
  modify (clear_small_nomination_if_required hotkey coldkey netuid) ;;
  modify (forget_pending_if_low hotkey).

(** One subnet of [do_unstake_all]. *)
Definition unstake_all_step (hotkey coldkey : AccountId) (netuid : Z) : Pm W unit :=
  let* enabled := gets (get_flag NetFlag.SubtokenEnabled netuid) in
  if negb enabled then ret tt
  else
    let* s := gets id in
    let alpha_unstaked := get_stake_for_hotkey_and_coldkey_on_subnet hotkey coldkey netuid s in
    if negb (is_ok (validate_remove_stake coldkey hotkey netuid alpha_unstaked alpha_unstaked false s))
    then ret tt
    else if 0 <? alpha_unstaked then
      let* tao_unstaked := unstake_from_subnet hotkey coldkey netuid alpha_unstaked min_price in
      modify (add_balance_to_coldkey_account coldkey tao_unstaked) ;;
      modify (clear_small_nomination_if_required hotkey coldkey netuid)
    else ret tt.

Definition do_unstake_all (origin : Origin) (hotkey : AccountId) : Pm W unit :=
  let* coldkey := ext (ensure_signed origin) in
  let* s := gets id in
  check (hotkey_account_exists hotkey s) Error.HotKeyAccountNotExists ;;
  for_each (get_all_subnet_netuids s) (unstake_all_step hotkey coldkey).

(** One subnet of [do_unstake_all_alpha]; returns the total so far. *)
Definition unstake_all_alpha_step (hotkey coldkey : AccountId) (total netuid : Z) : Pm W Z :=
  let* enabled := gets (get_flag NetFlag.SubtokenEnabled netuid) in
  if negb enabled then ret total
  else if is_root netuid then ret total
  else
    let* s := gets id in
    let alpha_unstaked := get_stake_for_hotkey_and_coldkey_on_subnet hotkey coldkey netuid s in
    if negb (is_ok (validate_remove_stake coldkey hotkey netuid alpha_unstaked alpha_unstaked false s))
    then ret total
    else if 0 <? alpha_unstaked then
      let* tao_unstaked := unstake_from_subnet hotkey coldkey netuid alpha_unstaked min_price in
      modify (clear_small_nomination_if_required hotkey coldkey netuid) ;;
      ret (sat_add U64_MAX total tao_unstaked)
    else ret total.

Fixpoint unstake_all_alpha_loop (hotkey coldkey : AccountId) (total : Z) (netuids : list Z) : Pm W Z :=
  match netuids with
  | [] => ret total
  | netuid :: netuids =>
      let* total := unstake_all_alpha_step hotkey coldkey total netuid in
      unstake_all_alpha_loop hotkey coldkey total netuids
  end.

Definition do_unstake_all_alpha (origin : Origin) (hotkey : AccountId) : Pm W unit :=
  let* coldkey := ext (ensure_signed origin) in
  let* s := gets id in
  check (hotkey_account_exists hotkey s) Error.HotKeyAccountNotExists ;;
  let* total_tao_unstaked := unstake_all_alpha_loop hotkey coldkey 0 (get_all_subnet_netuids s) in
  let* _ := stake_into_subnet hotkey coldkey 0 total_tao_unstaked max_price in
  ret tt.

Definition get_max_amount_remove (netuid limit_price : Z) : Pm W Z :=
  let* s := gets id in
  if is_root netuid || (get_net NetNum.SubnetMechanism netuid s =? 0) then
    if limit_price <=? 1000000000 then ret U64_MAX else throw Error.ZeroMaxStakeAmount
  else
    match swap s netuid Sell U64_MAX limit_price true with
    | Err _ => throw Error.ZeroMaxStakeAmount
    | Ok (r, _) =>
        let result := sat_add U64_MAX (amount_paid_in r) (fee_paid r) in
        if negb (result =? 0) then ret result else throw Error.ZeroMaxStakeAmount
    end.

Definition do_remove_stake_limit (origin : Origin) (hotkey : AccountId)
    (netuid alpha_unstaked limit_price : Z) (allow_partial : bool) : Pm W unit :=
  let* coldkey := ext (ensure_signed origin) in
  let* max_amount := get_max_amount_remove netuid limit_price in
  let possible_alpha := if max_amount <? alpha_unstaked then max_amount else alpha_unstaked in
  validate_remove_stake coldkey hotkey netuid alpha_unstaked max_amount allow_partial ;;
  let* tao_unstaked := unstake_from_subnet hotkey coldkey netuid possible_alpha limit_price in
  modify (add_balance_to_coldkey_account coldkey tao_unstaked) ;;
  modify (clear_small_nomination_if_required hotkey coldkey netuid) ;;
  modify (forget_pending_if_low hotkey).

Definition do_remove_stake_full_limit (origin : Origin) (hotkey : AccountId) (netuid : Z)
    (limit_price : option Z) : Pm W unit :=
  let* coldkey := ext (ensure_signed origin) in
  let* alpha_unstaked := gets (get_stake_for_hotkey_and_coldkey_on_subnet hotkey coldkey netuid) in
  match limit_price with
  | Some limit_price => do_remove_stake_limit origin hotkey netuid alpha_unstaked limit_price false
  | None => do_remove_stake origin hotkey netuid alpha_unstaked
  end.

(** ** recycle_alpha.rs *)

(** The checks the two extrinsics share. *)
Definition alpha_removal_checks (coldkey hotkey : AccountId) (amount netuid : Z) : Pm W unit :=
  let* s := gets id in
  check (if_subnet_exist netuid s) Error.SubNetworkDoesNotExist ;;
  check (negb (is_root netuid)) Error.CannotBurnOrRecycleOnRootSubnet ;;
  ensure_subtoken_enabled netuid ;;
  check (hotkey_account_exists hotkey s) Error.HotKeyAccountNotExists ;;
  check (has_enough_stake_on_subnet hotkey coldkey netuid amount s) Error.NotEnoughStakeToWithdraw ;;
  check (amount <=? get_net NetNum.SubnetAlphaOut netuid s) Error.InsufficientLiquidity.

Definition do_recycle_alpha (origin : Origin) (hotkey : AccountId) (amount netuid : Z) : Pm W unit :=
  let* coldkey := ext (ensure_signed origin) in
  alpha_removal_checks coldkey hotkey amount netuid ;;
  let* actual_alpha_decrease := fun s =>
    Ok (decrease_stake_for_hotkey_and_coldkey_on_subnet hotkey coldkey netuid amount s) in
  modify (mutate_net NetNum.SubnetAlphaOut netuid (fun total => sat_sub total actual_alpha_decrease)) ;;
  modify (deposit_event (Event.AlphaRecycled coldkey hotkey actual_alpha_decrease netuid)).

Definition do_burn_alpha (origin : Origin) (hotkey : AccountId) (amount netuid : Z) : Pm W unit :=
  let* coldkey := ext (ensure_signed origin) in
  alpha_removal_checks coldkey hotkey amount netuid ;;
  let* actual_alpha_decrease := fun s =>
    Ok (decrease_stake_for_hotkey_and_coldkey_on_subnet hotkey coldkey netuid amount s) in
  modify (deposit_event (Event.AlphaBurned coldkey hotkey actual_alpha_decrease netuid)).

(** ** move_stake.rs *)

Definition toggle_transfer (netuid : Z) (toggle : bool) (s : St) : St :=
  deposit_event (Event.TransferToggle netuid toggle) (put_flag NetFlag.TransferToggle netuid toggle s).

(** A subnet without slippage. *)
Definition is_stable (netuid : Z) (s : St) : bool :=
  is_root netuid || (get_net NetNum.SubnetMechanism netuid s =? 0).

(** [x > y] between numbers of different types compares their values. *)
Definition fixed_gt (t u : FixTy) (x y : Z) : bool := y * unit_ t <? x * unit_ u.

(** The main case of [get_max_amount_move]: both subnets are dynamic. *)
Definition max_amount_move_dynamic (origin_netuid destination_netuid limit_price : Z) (s : St)
    : option Z :=
  let subnet_tao_1 := tao_reserve origin_netuid s in
  let subnet_tao_2 := tao_reserve destination_netuid s in
  if (subnet_tao_1 =? 0) || (subnet_tao_2 =? 0) then None
  else
  let subnet_tao_1_float := from_num U64F64 subnet_tao_1 in
  let subnet_tao_2_float := from_num U64F64 subnet_tao_2 in
  let alpha_in_1 := alpha_reserve origin_netuid s in
  let alpha_in_2 := alpha_reserve destination_netuid s in
  if (alpha_in_1 =? 0) || (alpha_in_2 =? 0) then None
  else
  let alpha_in_1_float := from_num U64F64 alpha_in_1 in
  let alpha_in_2_float := from_num U64F64 alpha_in_2 in
  let limit_price_float :=
    default (from_num U64F64 0)
      (checked_div U64F64 (from_num U64F64 limit_price) (from_num U64F64 1000000000)) in
  let current_price := safe_div U96F32 (current_alpha_price s origin_netuid)
    (current_alpha_price s destination_netuid) in
  if fixed_gt U64F64 U96F32 limit_price_float current_price then None
  else if limit_price =? 0 then Some U64_MAX
  else
  let tao_sum := from_fixed U64F64 U64F64 (saturating_add U64F64 subnet_tao_2_float subnet_tao_1_float) in
  let t1_over_sum := safe_div U64F64 subnet_tao_1_float tao_sum in
  let t2_over_sum := safe_div U64F64 subnet_tao_2_float tao_sum in
  let final_result := to_num U64F64 u64
    (saturating_sub U64F64
       (safe_div U64F64 (saturating_mul U64F64 alpha_in_2_float t1_over_sum) limit_price_float)
       (saturating_mul U64F64 alpha_in_1_float t2_over_sum)) in
  if negb (final_result =? 0) then Some final_result else None.

Definition get_max_amount_move (origin_netuid destination_netuid limit_price : Z) : Pm W Z :=
  let tao := from_num U64F64 1000000000 in
  let* s := gets id in
  if is_stable origin_netuid s && is_stable destination_netuid s then
    if to_num U64F64 u64 tao <? limit_price then throw Error.ZeroMaxStakeAmount else ret U64_MAX
  else if is_stable origin_netuid s && (get_net NetNum.SubnetMechanism destination_netuid s =? 1) then
    if limit_price =? 0 then ret U64_MAX
    else
      let destination_subnet_price := to_num U64F64 u64
        (saturating_mul U64F64 (safe_div U64F64 tao (from_num U64F64 limit_price)) tao) in
      get_max_amount_add destination_netuid destination_subnet_price
  else if is_stable destination_netuid s && (get_net NetNum.SubnetMechanism origin_netuid s =? 1) then
    get_max_amount_remove origin_netuid limit_price
  else
    match max_amount_move_dynamic origin_netuid destination_netuid limit_price s with
    | Some amount => ret amount
    | None => throw Error.ZeroMaxStakeAmount
    end.

Definition transition_stake_internal (origin_coldkey destination_coldkey origin_hotkey
    destination_hotkey : AccountId) (origin_netuid destination_netuid alpha_amount : Z)
    (maybe_limit_price : option Z) (maybe_allow_partial : option bool)
    (check_transfer_toggle : bool) : Pm W Z :=
  let* max_amount :=
    match maybe_limit_price with
    | Some limit_price => get_max_amount_move origin_netuid destination_netuid limit_price
    | None => ret alpha_amount
    end in
  validate_stake_transition origin_coldkey destination_coldkey origin_hotkey destination_hotkey
    origin_netuid destination_netuid alpha_amount max_amount maybe_allow_partial
    check_transfer_toggle ;;
  let move_amount := if alpha_amount <? max_amount then alpha_amount else max_amount in
  let* tao_unstaked :=
    unstake_from_subnet origin_hotkey origin_coldkey origin_netuid move_amount min_price in
  (if DefaultMinStake <=? tao_unstaked then
     let* owner := gets (get_owning_coldkey_for_hotkey destination_hotkey) in
     (if bool_decide (owner = destination_coldkey) then ret tt
      else modify (maybe_become_delegate destination_hotkey)) ;;
     let* _ := stake_into_subnet destination_hotkey destination_coldkey destination_netuid
       tao_unstaked max_price in
     ret tt
   else ret tt) ;;
  ret tao_unstaked.

Definition do_move_stake (origin : Origin) (origin_hotkey destination_hotkey : AccountId)
    (origin_netuid destination_netuid alpha_amount : Z) : Pm W unit :=
  let* coldkey := ext (ensure_signed origin) in
  let* tao_moved := transition_stake_internal coldkey coldkey origin_hotkey destination_hotkey
    origin_netuid destination_netuid alpha_amount None None false in
  modify (deposit_event (Event.StakeMoved coldkey origin_hotkey origin_netuid destination_hotkey
    destination_netuid tao_moved)).

Definition do_transfer_stake (origin : Origin) (destination_coldkey hotkey : AccountId)
    (origin_netuid destination_netuid alpha_amount : Z) : Pm W unit :=
  let* coldkey := ext (ensure_signed origin) in
  let* tao_moved := transition_stake_internal coldkey destination_coldkey hotkey hotkey
    origin_netuid destination_netuid alpha_amount None None true in
  modify (deposit_event (Event.StakeTransferred coldkey destination_coldkey hotkey origin_netuid
    destination_netuid tao_moved)).

Definition do_swap_stake (origin : Origin) (hotkey : AccountId)
    (origin_netuid destination_netuid alpha_amount : Z) : Pm W unit :=
  let* coldkey := ext (ensure_signed origin) in
  let* tao_moved := transition_stake_internal coldkey coldkey hotkey hotkey
    origin_netuid destination_netuid alpha_amount None None false in
  modify (deposit_event (Event.StakeSwapped coldkey hotkey origin_netuid destination_netuid tao_moved)).

Definition do_swap_stake_limit (origin : Origin) (hotkey : AccountId)
    (origin_netuid destination_netuid alpha_amount limit_price : Z) (allow_partial : bool) : Pm W unit :=
  let* coldkey := ext (ensure_signed origin) in
  let* tao_moved := transition_stake_internal coldkey coldkey hotkey hotkey
    origin_netuid destination_netuid alpha_amount (Some limit_price) (Some allow_partial) false in
  modify (deposit_event (Event.StakeSwapped coldkey hotkey origin_netuid destination_netuid tao_moved)).

(** ** The data layer is a share pool *)
Context {FL : SubstrateFixedLaws}.

Lemma total_put_net_key n h i m k v s : i <> NetKeyNum.TotalHotkeyAlpha ->
  get_net_key NetKeyNum.TotalHotkeyAlpha n h (put_net_key i m k v s) =
  get_net_key NetKeyNum.TotalHotkeyAlpha n h s.
Proof using. intros. rewrite get_put_net_key. rewrite decide_False by congruence. done. Qed.

Lemma u64_of_fixed v : fixed_range U64F64 v -> to_num U64F64 u64 v = v / ONE.
Proof using FL.
  intros Hv. assert (0 <= v <= max_bits U64F64) by exact Hv. rewrite to_num_spec by (done || lia).
  pose proof (unit_pos U64F64). assert (0 <= v / ONE) by (apply Z.div_pos; lia).
  assert (v / ONE <= U64_MAX).
  { transitivity (max_bits U64F64 / ONE); [apply Z.div_le_mono; lia|vm_compute; congruence]. }
  unfold clamp. change (int_min u64) with 0. change (int_max u64) with U64_MAX. lia.
Qed.

Lemma fixed_of_u64 x : 0 <= x <= U64_MAX -> from_num U64F64 x = x * ONE.
Proof using FL.
  intros. apply from_num_exact; [lia|]. transitivity (U64_MAX * ONE).
  - apply Z.mul_le_mono_nonneg_r; [apply Z.lt_le_incl, unit_pos|lia].
  - vm_compute. congruence.
Qed.

#[export] Instance alpha_pool_laws (hotkey : AccountId) (netuid : Z) :
  SharePoolLaws AccountId St (Ops := get_alpha_share_pool hotkey netuid).
Proof using FL.
  refine {| shares := alpha_shares hotkey netuid |}; try done; cbn.
  - intros k v s _. destruct (v =? 0); cbn; unfold alpha_shares; cbn; by rewrite lookup_insert_eq.
  - intros v s. by destruct (v =? 0).
  - intros v s. by destruct (v =? 0).
  - intros v s Hv. destruct (Z.eqb_spec v 0) as [->|]; cbn.
    + rewrite get_remove_net_key, decide_True by done. by rewrite from_num_0.
    + rewrite get_put_net_key, decide_True by done. rewrite u64_of_fixed by done.
      pose proof (unit_pos U64F64). assert (0 <= v <= max_bits U64F64) by exact Hv.
      apply fixed_of_u64. split; [apply Z.div_pos; lia|].
      transitivity (max_bits U64F64 / ONE); [apply Z.div_le_mono; lia|vm_compute; congruence].
  - intros k v s. by destruct (v =? 0).
  - intros v s. destruct (v =? 0); cbn; rewrite ?get_remove_net_key, ?get_put_net_key;
      by rewrite decide_False by congruence.
  - intros v s _. destruct (Z.eqb_spec v 0) as [->|]; cbn;
      rewrite ?get_remove_net_key, ?get_put_net_key; by rewrite decide_True by done.
  - intros k v s. by destruct (v =? 0).
  - intros v s. destruct (v =? 0); cbn; rewrite ?get_remove_net_key, ?get_put_net_key;
      by rewrite decide_False by congruence.
Defined.

(** What a pool update leaves alone: everything but the pool's own items. *)
Section Frame.
Context {A : Type} (g : St -> A) (hotkey : AccountId) (netuid : Z).
Hypothesis g_put : forall i v s,
  i = NetKeyNum.TotalHotkeyAlpha \/ i = NetKeyNum.TotalHotkeyShares ->
  g (put_net_key i netuid hotkey v s) = g s.
Hypothesis g_remove : forall i s,
  i = NetKeyNum.TotalHotkeyAlpha \/ i = NetKeyNum.TotalHotkeyShares ->
  g (remove_net_key i netuid hotkey s) = g s.
Hypothesis g_alpha : forall m s, g (put_alpha_shares hotkey netuid m s) = g s.

Lemma pool_update_frame coldkey u s :
  g (update_value_for_one (Ops := get_alpha_share_pool hotkey netuid) coldkey u s).2 = g s.
Proof using g_put g_remove g_alpha.
  rewrite update_value_for_one_eq. destruct (update_shares coldkey u s) as [a s1] eqn:E. cbn.
  transitivity (g s1).
  { unfold update_value_for_all. cbn. destruct (negb _); auto. }
  set (P := get_alpha_share_pool hotkey netuid) in *.
  assert (Hset : forall c d, g (set_share (SharePoolDataOperations := P) coldkey c
    (set_denominator (SharePoolDataOperations := P) d s)) = g s).
  { intros c d. cbn. destruct (negb (c =? 0)); rewrite g_alpha; destruct (negb (d =? 0)); auto. }
  unfold update_shares in E. destruct (_ =? 0); [by simplify_eq|].
  destruct (0 <=? _); [by simplify_eq|]. destruct (shrink _ _ _ _) as [[? ?]|]; by simplify_eq.
Qed.

Lemma decrease_frame coldkey amount s :
  g (decrease_stake_for_hotkey_and_coldkey_on_subnet hotkey coldkey netuid amount s).2 = g s.
Proof using g_put g_remove g_alpha.
  unfold decrease_stake_for_hotkey_and_coldkey_on_subnet.
  destruct (try_get_value _ _) as [v|]; [|done]. destruct (amount <=? v); [|done].
  pose proof (pool_update_frame coldkey (neg_i64 (as_i64 amount)) s) as H.
  by destruct (update_value_for_one _ _ s).
Qed.

Lemma increase_frame coldkey amount s :
  (forall l x, g (put_list KeyList.StakingHotkeys coldkey l x) = g x) ->
  g (increase_stake_for_hotkey_and_coldkey_on_subnet hotkey coldkey netuid amount s).2 = g s.
Proof using g_put g_remove g_alpha.
  intros Hl. unfold increase_stake_for_hotkey_and_coldkey_on_subnet.
  set (s0 := if 0 <? amount then _ else s).
  assert (E0 : g s0 = g s) by (unfold s0; destruct (0 <? amount); [by apply push_unique_frame|done]).
  pose proof (pool_update_frame coldkey (as_i64 amount) s0) as H.
  destruct (update_value_for_one _ _ s0). cbn in *. congruence.
Qed.
End Frame.

(** ** Stake is booked exactly *)

(** The pool of a hotkey on a subnet is consistent, its shares and its total
    stay clear of the ends of their types. *)
Record stake_ok (hotkey : AccountId) (netuid : Z) (s : St) : Prop := {
  so_pool : pool_ok (Ops := get_alpha_share_pool hotkey netuid) s;
  so_room : get_net_key NetKeyNum.TotalHotkeyShares netuid hotkey s < max_bits U64F64;
  so_total : 0 <= get_stake_for_hotkey_on_subnet hotkey netuid s < 2 ^ 62;
}.

Lemma stake_shared_value hotkey netuid s :
  0 <= get_stake_for_hotkey_on_subnet hotkey netuid s <= U64_MAX ->
  get_shared_value (SharePoolDataOperations := get_alpha_share_pool hotkey netuid) s =
  get_stake_for_hotkey_on_subnet hotkey netuid s * ONE.
Proof using FL. intros. cbn. by apply fixed_of_u64. Qed.

Lemma total_after_all hotkey netuid u s :
  pool_ok (Ops := get_alpha_share_pool hotkey netuid) s ->
  0 <= get_stake_for_hotkey_on_subnet hotkey netuid
         (update_value_for_all (Ops := get_alpha_share_pool hotkey netuid) u s) <= U64_MAX.
Proof using FL.
  intros Hok. pose proof (value_for_all_range u s Hok) as Hr.
  unfold update_value_for_all, get_stake_for_hotkey_on_subnet. cbn -[from_num] in *.
  set (v := if 0 <=? u then _ else _) in *. destruct (Z.eqb_spec v 0); cbn.
  - rewrite get_remove_net_key, decide_True by done. lia.
  - rewrite get_put_net_key, decide_True by done. rewrite to_num_spec by (done || apply Hr).
    unfold clamp. change (int_min u64) with 0. change (int_max u64) with U64_MAX. lia.
Qed.

Lemma update_total hotkey coldkey netuid u s a s' :
  stake_ok hotkey netuid s -> - 2 ^ 62 < u < 2 ^ 62 ->
  get_net_key NetKeyNum.TotalHotkeyShares netuid hotkey s' < max_bits U64F64 ->
  update_value_for_one (Ops := get_alpha_share_pool hotkey netuid) coldkey u s = (a, s') ->
  get_stake_for_hotkey_on_subnet hotkey netuid s' =
    Z.max 0 (get_stake_for_hotkey_on_subnet hotkey netuid s + a) /\
  pool_ok (Ops := get_alpha_share_pool hotkey netuid) s' /\
  (a = u \/ a = - SharePool.get_value (Ops := get_alpha_share_pool hotkey netuid) coldkey s /\
            alpha_shares hotkey netuid s' !! coldkey = None) /\
  (forall k, k <> coldkey -> alpha_shares hotkey netuid s' !! k = alpha_shares hotkey netuid s !! k).
Proof using FL.
  intros [Hok _ Ht] Hu Hd E. set (P := get_alpha_share_pool hotkey netuid) in *.
  pose proof (unit_pos U64F64).
  assert (Hsv := stake_shared_value hotkey netuid s ltac:(lia)). fold P in Hsv.
  assert (Hok' : pool_ok (Ops := P) s').
  { pose proof (update_one_ok coldkey u s Hok) as Hu'. rewrite E in Hu'. by apply Hu'. }
  destruct (update_one_reported coldkey u a s s' Hok) as (E1 & E2 & E3); try done.
  { rewrite Hsv. apply Z.mod_mul. lia. }
  { rewrite Hsv. nia. }
  assert (Ht' : 0 <= get_stake_for_hotkey_on_subnet hotkey netuid s' <= U64_MAX).
  { rewrite update_value_for_one_eq in E. destruct (update_shares coldkey u s) as [a1 s1] eqn:E0.
    injection E as <- <-. apply total_after_all. eapply update_shares_ok; [exact Hok|exact E0|].
    assert (Ed := denominator_set_shared_value (SharePoolLaws := alpha_pool_laws hotkey netuid)).
    unfold update_value_for_all in Hd. cbn in Ed, Hd |- *. by rewrite Ed in Hd. }
  assert (Hsv' := stake_shared_value hotkey netuid s' Ht'). fold P in Hsv'. rewrite Hsv, Hsv' in E1.
  split; [nia|]. split; [done|]. assert (Hs' := pool_shares s' Hok').
  assert (Hs := pool_shares s Hok). split.
  - destruct E2 as [->|[-> E2]]; [by left|right]. split; [done|]. cbn in E2, Hs'.
    destruct (alpha_shares hotkey netuid s' !! coldkey) as [v|] eqn:Ev; [|done].
    specialize (Hs' _ _ Ev). cbn in E2. lia.
  - intros k Hk. specialize (E3 k Hk). cbn in E3, Hs, Hs'.
    destruct (alpha_shares hotkey netuid s' !! k) as [v'|] eqn:Ev';
      destruct (alpha_shares hotkey netuid s !! k) as [v|] eqn:Ev; cbn in E3; try congruence.
    + specialize (Hs' _ _ Ev'). lia.
    + specialize (Hs _ _ Ev). lia.
Qed.

Lemma i64_amount amount : 0 <= amount < 2 ^ 62 ->
  as_i64 amount = amount /\ neg_i64 amount = - amount.
Proof using. intros. unfold as_i64, neg_i64. by rewrite !wrap_i64_id by lia. Qed.

(** The value of a coldkey's shares is part of the hotkey's stake. *)
Lemma stake_value_bound hotkey coldkey netuid s : stake_ok hotkey netuid s ->
  0 <= SharePool.get_value (Ops := get_alpha_share_pool hotkey netuid) coldkey s
    <= get_stake_for_hotkey_on_subnet hotkey netuid s.
Proof using FL.
  intros [Hok _ Ht]. pose proof (value_bound coldkey s Hok) as Hb.
  destruct (value_part coldkey s Hok) as [Hp _]. pose proof (unit_pos U64F64).
  rewrite (stake_shared_value hotkey netuid s) in Hb by lia. nia.
Qed.

Lemma decrease_update hotkey coldkey netuid amount s a s' :
  stake_ok hotkey netuid s -> 0 <= amount < 2 ^ 62 ->
  amount <= SharePool.get_value (Ops := get_alpha_share_pool hotkey netuid) coldkey s ->
  update_value_for_one (Ops := get_alpha_share_pool hotkey netuid) coldkey (- amount) s = (a, s') ->
  stake_ok hotkey netuid s' /\
  get_stake_for_hotkey_on_subnet hotkey netuid s' =
    get_stake_for_hotkey_on_subnet hotkey netuid s + a /\
  (a = - amount \/
   a = - SharePool.get_value (Ops := get_alpha_share_pool hotkey netuid) coldkey s /\
   alpha_shares hotkey netuid s' !! coldkey = None) /\
  (forall k, k <> coldkey -> alpha_shares hotkey netuid s' !! k = alpha_shares hotkey netuid s !! k).
Proof using FL.
  intros Hs Ha Hv E. pose proof (stake_value_bound hotkey coldkey netuid s Hs) as Hb.
  pose proof (update_one_down coldkey (- amount) s (so_pool _ _ _ Hs) ltac:(lia)) as Hd.
  rewrite E in Hd. cbn in Hd. pose proof (so_room _ _ _ Hs) as Hroom. pose proof (so_total _ _ _ Hs) as Ht.
  assert (Hd' : get_net_key NetKeyNum.TotalHotkeyShares netuid hotkey s' < max_bits U64F64) by lia.
  destruct (update_total hotkey coldkey netuid (- amount) s a s' Hs) as (E1 & Hok & E2 & E3);
    [lia|done|done|].
  assert (Ea : 0 <= - a <= SharePool.get_value (Ops := get_alpha_share_pool hotkey netuid) coldkey s)
    by (destruct E2 as [->|[-> _]]; lia).
  assert (E1' : get_stake_for_hotkey_on_subnet hotkey netuid s' =
    get_stake_for_hotkey_on_subnet hotkey netuid s + a) by lia.
  split; [|done]. split; [done|done|lia].
Qed.

Lemma decrease_spec hotkey coldkey netuid amount s d s' :
  stake_ok hotkey netuid s -> 0 <= amount < 2 ^ 62 ->
  decrease_stake_for_hotkey_and_coldkey_on_subnet hotkey coldkey netuid amount s = (d, s') ->
  stake_ok hotkey netuid s' /\
  get_stake_for_hotkey_on_subnet hotkey netuid s' = get_stake_for_hotkey_on_subnet hotkey netuid s - d /\
  (if amount <=? get_stake_for_hotkey_and_coldkey_on_subnet hotkey coldkey netuid s
   then d = amount \/ d = get_stake_for_hotkey_and_coldkey_on_subnet hotkey coldkey netuid s /\
                      alpha_shares hotkey netuid s' !! coldkey = None
   else d = 0 /\ s' = s) /\
  (forall k, k <> coldkey -> alpha_shares hotkey netuid s' !! k = alpha_shares hotkey netuid s !! k).
Proof using FL.
  intros Hs Ha E. destruct (i64_amount amount Ha) as [Ei En].
  pose proof (stake_value_bound hotkey coldkey netuid s Hs) as Hb.
  pose proof (so_total _ _ _ Hs) as Ht.
  unfold decrease_stake_for_hotkey_and_coldkey_on_subnet in E. rewrite Ei, En in E.
  unfold get_stake_for_hotkey_and_coldkey_on_subnet.
  destruct (try_get_value _ _) as [v|] eqn:Ev; cbn [default from_option id] in *.
  - assert (Evv : v = SharePool.get_value (Ops := get_alpha_share_pool hotkey netuid) coldkey s).
    { unfold try_get_value in Ev. destruct (try_get_share _ _); congruence. }
    destruct (Z.leb_spec amount v) as [Hle|].
    + destruct (update_value_for_one _ _ s) as [a s1] eqn:Eu. injection E as <- <-.
      rewrite Evv in Hle. destruct (decrease_update _ _ _ _ _ _ _ Hs Ha Hle Eu) as (H1 & H2 & H3 & H4).
      assert (Ea : - 2 ^ 62 < a <= 0) by (destruct H3 as [->|[-> _]]; lia).
      assert (Ed : Z.abs (Z.max (neg_i64 a) 0) = - a).
      { unfold neg_i64. rewrite wrap_i64_id by lia. lia. }
      rewrite Ed. split; [done|]. split; [lia|]. split; [|done]. rewrite Evv.
      destruct H3 as [->|[-> H3]]; [left|right]; (split; [|done]) || idtac; lia.
    + injection E as <- <-. split; [done|]. change (Z.abs (Z.max (neg_i64 0) 0)) with 0. split; [lia|done].
  - injection E as <- <-. change (Z.abs (Z.max (neg_i64 0) 0)) with 0. split; [done|]. split; [lia|].
    split; [|done]. destruct (Z.leb_spec amount 0); [left; lia|done].
Qed.

(** Unstaking takes exactly what it reports. Removing [amount] from the
    stake of a coldkey does nothing when the coldkey has less. Otherwise it
    takes [amount], or the coldkey's whole stake when the rest would be too
    small to represent; the hotkey's total goes down by exactly the amount
    reported, no other coldkey's shares change, and the pool stays
    consistent. *)
Theorem unstaking_takes_what_it_reports (hotkey coldkey : AccountId) (netuid amount : Z) (s : St)
    (d : Z) (s' : St) :
  stake_ok hotkey netuid s -> 0 <= amount < 2 ^ 62 ->
  decrease_stake_for_hotkey_and_coldkey_on_subnet hotkey coldkey netuid amount s = (d, s') ->
  stake_ok hotkey netuid s' /\
  get_stake_for_hotkey_on_subnet hotkey netuid s' = get_stake_for_hotkey_on_subnet hotkey netuid s - d /\
  (if amount <=? get_stake_for_hotkey_and_coldkey_on_subnet hotkey coldkey netuid s
   then d = amount \/ d = get_stake_for_hotkey_and_coldkey_on_subnet hotkey coldkey netuid s /\
                      alpha_shares hotkey netuid s' !! coldkey = None
   else d = 0 /\ s' = s) /\
  (forall k, k <> coldkey -> alpha_shares hotkey netuid s' !! k = alpha_shares hotkey netuid s !! k).
Proof using FL. apply decrease_spec. Qed.

Lemma removal_checks_ok coldkey hotkey amount netuid s r :
  alpha_removal_checks coldkey hotkey amount netuid s = Ok r ->
  r = (tt, s) /\ amount <= get_stake_for_hotkey_and_coldkey_on_subnet hotkey coldkey netuid s.
Proof using.
  intros H. unfold alpha_removal_checks, ensure_subtoken_enabled in H. monad_inv H.
  split; [done|]. by apply Z.leb_le.
Qed.

Lemma removal_inv origin hotkey amount netuid (k : AccountId -> Z -> Pm W unit) s s' :
  (let* coldkey := ext (ensure_signed origin) in
   alpha_removal_checks coldkey hotkey amount netuid ;;
   let* d := fun s =>
     Ok (decrease_stake_for_hotkey_and_coldkey_on_subnet hotkey coldkey netuid amount s) in
   k coldkey d) s = Ok (tt, s') ->
  exists coldkey d s1, ensure_signed origin = Ok coldkey /\
  amount <= get_stake_for_hotkey_and_coldkey_on_subnet hotkey coldkey netuid s /\
  decrease_stake_for_hotkey_and_coldkey_on_subnet hotkey coldkey netuid amount s = (d, s1) /\
  k coldkey d s1 = Ok (tt, s').
Proof using.
  intros (coldkey & s0 & H0 & H)%bind_ok. apply ext_ok in H0 as (c & H0 & [= <- <-]).
  apply bind_ok in H as ([] & s1 & H1 & H). apply removal_checks_ok in H1 as [[= <-] Hle].
  apply bind_ok in H as (d & s2 & [= Hd] & H). exists coldkey, d, s2. done.
Qed.

(** Recycling alpha lowers the hotkey's stake and the subnet's outstanding
    alpha by the same amount, the one the event reports; burning it lowers the
    stake only. Either fails unless the caller holds at least the amount asked
    for, and at least that much is taken. *)
Theorem recycle_and_burn_books (origin : Origin) (hotkey : AccountId) (amount netuid : Z) (recycle : bool)
    (s s' : St) :
  stake_ok hotkey netuid s -> 0 <= amount < 2 ^ 62 ->
  (if recycle then do_recycle_alpha origin hotkey amount netuid s
   else do_burn_alpha origin hotkey amount netuid s) = Ok (tt, s') ->
  exists coldkey d, ensure_signed origin = Ok coldkey /\
  amount <= d <= get_stake_for_hotkey_and_coldkey_on_subnet hotkey coldkey netuid s /\
  get_stake_for_hotkey_on_subnet hotkey netuid s' = get_stake_for_hotkey_on_subnet hotkey netuid s - d /\
  get_net NetNum.SubnetAlphaOut netuid s' =
    (if recycle then sat_sub (get_net NetNum.SubnetAlphaOut netuid s) d
     else get_net NetNum.SubnetAlphaOut netuid s) /\
  last (events s') = Some (if recycle then Event.AlphaRecycled coldkey hotkey d netuid
                           else Event.AlphaBurned coldkey hotkey d netuid).
Proof using FL.
  intros Hs Ha H.
  destruct recycle; apply removal_inv in H as (coldkey & d & s1 & Ho & Hle & Hd & H); monad_inv H;
    exists coldkey, d; (split; [done|]);
    destruct (decrease_spec _ _ _ _ _ _ _ Hs Ha Hd) as (_ & Ht & Hc & _);
    rewrite (proj2 (Z.leb_le _ _) Hle) in Hc;
    pose proof (decrease_frame (get_net NetNum.SubnetAlphaOut netuid) hotkey netuid
      (fun _ _ _ _ => eq_refl) (fun _ _ _ => eq_refl) (fun _ _ => eq_refl) coldkey amount s) as Hf;
    rewrite Hd in Hf; cbn in Hf.
  all: split; [destruct Hc as [->|[-> _]]; lia|]; split; [by rewrite <- Ht|];
    split; [|unfold deposit_event; st_frame; apply last_snoc].
  - unfold deposit_event. st_read. by rewrite Hf.
  - unfold deposit_event. st_read. done.
Qed.

(** The pools are read from two items only. *)
Definition same_pools (s s' : St) : Prop := net_key_nums s' = net_key_nums s /\ Alpha s' = Alpha s.

Lemma stake_ok_same hotkey netuid s s' : same_pools s s' -> stake_ok hotkey netuid s -> stake_ok hotkey netuid s'.
Proof using.
  intros [E1 E2] [[H1 H2 H3 H4] H5 H6]. split; [split|..]; cbn in *;
    unfold get_stake_for_hotkey_on_subnet, alpha_shares, get_net_key in *; rewrite ?E1, ?E2; assumption.
Qed.

Lemma pool_ok_same hotkey netuid s s' : same_pools s s' ->
  pool_ok (Ops := get_alpha_share_pool hotkey netuid) s ->
  pool_ok (Ops := get_alpha_share_pool hotkey netuid) s'.
Proof using.
  intros [E1 E2] [H1 H2 H3 H4]. split; cbn in *;
    unfold alpha_shares, get_net_key in *; rewrite ?E1, ?E2; assumption.
Qed.

Lemma same_pools_total hotkey netuid s s' : same_pools s s' ->
  get_stake_for_hotkey_on_subnet hotkey netuid s' = get_stake_for_hotkey_on_subnet hotkey netuid s /\
  alpha_shares hotkey netuid s' = alpha_shares hotkey netuid s.
Proof using.
  intros [E1 E2]. unfold get_stake_for_hotkey_on_subnet, get_net_key, alpha_shares. by rewrite E1, E2.
Qed.

Lemma push_unique_pools i c h s : same_pools s (push_unique i c h s).
Proof using. unfold push_unique. by case_bool_decide. Qed.

Lemma swap_buy_pools n t l s r s' : swap_tao_for_alpha n t l s = Ok (r, s') ->
  same_pools s s' /\
  get_net NetNum.SubnetAlphaOut n s' =
    (if get_net NetNum.SubnetMechanism n s =? 1
     then sat_add U64_MAX (get_net NetNum.SubnetAlphaOut n s) (amount_paid_out r)
     else get_net NetNum.SubnetAlphaOut n s).
Proof using.
  intros H. destruct (Z.eqb_spec (get_net NetNum.SubnetMechanism n s) 1) as [Em|Em].
  - destruct (swap_tao_for_alpha_ok _ _ _ _ _ _ Em H) as (w & _ & ->).
    split; [|by destruct (after_buy_items n t r w s) as (_ & _ & _ & _ & E & _)].
    unfold after_buy, decrease_provided_alpha_reserve. by destruct (_ =? 0).
  - unfold swap_tao_for_alpha in H. apply bind_ok in H as (? & ? & [= -> ->]%gets_ok & H).
    rewrite (proj2 (Z.eqb_neq _ _) Em) in H. by monad_inv H.
Qed.

Lemma increase_spec hotkey coldkey netuid amount s d s' :
  stake_ok hotkey netuid s -> 0 < amount < 2 ^ 62 ->
  increase_stake_for_hotkey_and_coldkey_on_subnet hotkey coldkey netuid amount s = (d, s') ->
  get_net_key NetKeyNum.TotalHotkeyShares netuid hotkey s' < max_bits U64F64 ->
  d = amount /\ pool_ok (Ops := get_alpha_share_pool hotkey netuid) s' /\
  get_stake_for_hotkey_on_subnet hotkey netuid s' =
    get_stake_for_hotkey_on_subnet hotkey netuid s + amount /\
  (forall k, k <> coldkey -> alpha_shares hotkey netuid s' !! k = alpha_shares hotkey netuid s !! k).
Proof using FL.
  intros Hs Ha E Hd. destruct (i64_amount amount ltac:(lia)) as [Ei _].
  unfold increase_stake_for_hotkey_and_coldkey_on_subnet in E.
  rewrite Ei, (proj2 (Z.ltb_lt 0 amount)) in E by lia.
  set (s0 := push_unique KeyList.StakingHotkeys coldkey hotkey s) in *.
  assert (Hp : same_pools s s0) by apply push_unique_pools.
  pose proof (stake_ok_same hotkey netuid _ _ Hp Hs) as Hs0.
  destruct (same_pools_total hotkey netuid _ _ Hp) as [ET EA].
  destruct (update_value_for_one _ _ s0) as [a s1] eqn:Eu. injection E as <- <-.
  pose proof (update_one_up coldkey amount s0 (so_pool _ _ _ Hs0) ltac:(lia)) as Eup. rewrite Eu in Eup.
  cbn in Eup. subst a. pose proof (so_total _ _ _ Hs) as Ht.
  destruct (update_total hotkey coldkey netuid amount s0 amount s1 Hs0) as (E1 & Hok & _ & E3);
    [lia|done|done|]. rewrite ET in E1. rewrite EA in E3. split_and!; [lia|done|lia|done].
Qed.

(** Staking credits exactly what the pool pays out: when TAO is staked into
    a subnet and the call returns [alpha > 0], the hotkey's stake grows by
    [alpha], on a dynamic subnet the outstanding alpha grows by the same
    [alpha], the pool stays consistent, and no other coldkey's shares change. *)
Theorem staking_credits_what_was_bought (hotkey coldkey : AccountId) (netuid tao limit alpha : Z)
    (s s' : St) :
  stake_ok hotkey netuid s -> stake_into_subnet hotkey coldkey netuid tao limit s = Ok (alpha, s') ->
  0 < alpha < 2 ^ 62 -> get_net_key NetKeyNum.TotalHotkeyShares netuid hotkey s' < max_bits U64F64 ->
  pool_ok (Ops := get_alpha_share_pool hotkey netuid) s' /\
  get_stake_for_hotkey_on_subnet hotkey netuid s' =
    get_stake_for_hotkey_on_subnet hotkey netuid s + alpha /\
  get_net NetNum.SubnetAlphaOut netuid s' =
    (if get_net NetNum.SubnetMechanism netuid s =? 1
     then sat_add U64_MAX (get_net NetNum.SubnetAlphaOut netuid s) alpha
     else get_net NetNum.SubnetAlphaOut netuid s) /\
  (forall k, k <> coldkey -> alpha_shares hotkey netuid s' !! k = alpha_shares hotkey netuid s !! k).
Proof using FL.
  intros Hs H Ha Hd. unfold stake_into_subnet in H. apply bind_ok in H as (r & s1 & Hswap & H).
  destruct (swap_buy_pools _ _ _ _ _ _ Hswap) as [Hp1 Hout].
  apply bind_ok in H as ([] & s2 & [Hpos [= ->]]%ensure_ok & H).
  apply bind_ok in H as (b & s3 & [= -> ->]%gets_ok & H).
  apply bind_ok in H as ([] & s4 & [_ [= ->]]%ensure_ok & H).
  apply bind_ok in H as (inc & s5 & [= Hinc] & H). apply Z.ltb_lt in Hpos.
  destruct (_ || _) eqn:E0; [apply ret_ok in H; simplify_eq; lia|].
  set (y := push_unique KeyList.StakingHotkeys coldkey hotkey s5).
  assert (Hp : same_pools s5 s' /\ get_net NetNum.SubnetAlphaOut netuid s' = get_net NetNum.SubnetAlphaOut netuid s5
    /\ alpha = amount_paid_out r).
  { pose proof (push_unique_pools KeyList.StakingHotkeys coldkey hotkey s5) as [E1 E2]. fold y in E1, E2.
    assert (E3 : get_net NetNum.SubnetAlphaOut netuid y = get_net NetNum.SubnetAlphaOut netuid s5)
      by (unfold y; by st_frame).
    monad_inv H. fold y. split; [split|]; done. }
  clear H. destruct Hp as (Hp & Eout & ->). destruct (same_pools_total hotkey netuid _ _ Hp) as [ET' EA'].
  assert (Hd' : get_net_key NetKeyNum.TotalHotkeyShares netuid hotkey s5 < max_bits U64F64).
  { unfold get_net_key in *. destruct Hp as [E1 _]. by rewrite E1 in Hd. }
  pose proof (stake_ok_same hotkey netuid _ _ Hp1 Hs) as Hs1.
  destruct (same_pools_total hotkey netuid _ _ Hp1) as [ET EA].
  destruct (increase_spec _ _ _ _ _ _ _ Hs1 Ha Hinc Hd') as (_ & Hok & E1 & E2).
  split; [by apply (pool_ok_same _ _ _ _ Hp)|]. rewrite ET', EA', <- ET, <- EA. split; [done|].
  split; [|done]. rewrite Eout, <- Hout.
  pose proof (increase_frame (get_net NetNum.SubnetAlphaOut netuid) hotkey netuid
    (fun _ _ _ _ => eq_refl) (fun _ _ _ => eq_refl) (fun _ _ => eq_refl) coldkey (amount_paid_out r) s1
    (fun _ _ => eq_refl)) as Hf.
  by rewrite Hinc in Hf.
Qed.
End Staking.
