(* ===== verification/SwapChain.v ===== *)
(** * The swap pallet inside the runtime

    The two pallets are written against each other's traits. This file closes the
    circle: the subtensor pallet is the [SubnetInfo] and the [BalanceOps] of the
    swap pallet (the implementations of src/pallets/subtensor/src/lib.rs), and the
    swap pallet is the [SwapHandler] of the subtensor pallet. What the engine proves
    about a purchase then holds of the reserves the subtensor pallet books. *)

From S2P Require Import Prelude Frame Fixed SharePool Tick TickMath Storage Misc Reserves Staking SwapPool SwapEngine SwapBooks SwapProofs SwapBounds.
From stdpp Require Import prelude gmap list fin_maps.
From Stdlib Require Import ZArith Lia.
#[local] Open Scope Z_scope.
#[local] Open Scope monad_scope.

(** The storage of the swap pallet as a part of the runtime's state. *)
Class PoolStorage {FS : FrameSystem} (W : Type) := {
  pool : W -> Swap unit;
  set_pool : Swap unit -> W -> W;
}.

(** [pallet_balances::free_balance] *)
Class Balances {FS : FrameSystem} (W : Type) := { free_balance : W -> AccountId -> Z }.

(** [Into<DispatchError>] for the errors of the two pallets. *)
Class PalletErrors {FS : FrameSystem} := {
  subtensor_error : error Storage.Error.Error -> DispatchError;
  swap_error : error SwapPool.Error -> DispatchError;
}.

Section Chain.
Context {FS : FrameSystem} {Cfg : SubtensorConfig} {SI : StorageIter} {W : Type}.
Context {Env : SubtensorEnv W} {F : SubstrateFixed} {SF : SwapFixed} {SC : SwapConfig}.
Context {PS : PoolStorage W} {BL : Balances W} {PE : PalletErrors}.
Abbreviation St := (Storage W).
Implicit Types s : St.

Definition into {A} (r : result (error Storage.Error.Error) A) : result DispatchError A :=
  match r with Ok a => Ok a | Err e => Err (subtensor_error e) end.

(** [SubnetInfo for Pallet<T>] *)
Definition subtensor_subnets : SubnetInfo St := {|
  SwapPool.tao_reserve s netuid := Reserves.tao_reserve netuid s;
  SwapPool.alpha_reserve s netuid := Reserves.alpha_reserve netuid s;
  exists_ s netuid := if_subnet_exist netuid s;
  mechanism s netuid := get_net NetNum.SubnetMechanism netuid s;
  is_owner s account_id netuid := bool_decide (default default_account (SubnetOwner s !! netuid) = account_id);
|}.
#[export] Existing Instance subtensor_subnets.

(** The state the swap pallet runs on: its own storage, with the storage of the
    subtensor pallet as the world. *)
Definition with_world {A B} (p : Swap A) (b : B) : Swap B :=
  mkSwap (FeeRate p) (FeeGlobalTao p) (FeeGlobalAlpha p) (Ticks p) (SwapV3Initialized p) (AlphaSqrtPrice p)
    (CurrentTick p) (CurrentLiquidity p) (EnabledUserLiquidity p) (Positions p) (LastPositionId p)
    (TickIndexBitmapWords p) (SwapPool.events p) b.
Definition enter s : Swap St := with_world (pool (Storage.world s)) s.
Definition leave (p : Swap St) (w : W) : W := set_pool (with_world p tt) w.

(** [SwapHandler for pallet_subtensor_swap]. The interface returns no state next to
    an error: what a swap that overdraws the reserve leaves behind is lost here, as
    it is for every caller that fails with it. *)
Definition swap_pallet : SwapHandler W := {|
  Reserves.swap s netuid order amount price_limit should_rollback :=
    match SwapEngine.swap netuid order amount price_limit should_rollback (enter s) with
    | (Ok r, p) => Ok (r, leave p (Storage.world s))
    | (Err e, _) => Err (swap_error e)
    end;
  Reserves.sim_swap s netuid order amount :=
    match SwapEngine.sim_swap netuid order amount (enter s) with
    | (Ok r, _) => Ok r
    | (Err e, _) => Err (swap_error e)
    end;
  Reserves.approx_fee_amount s netuid amount := SwapEngine.approx_fee_amount netuid amount (enter s);
  Reserves.current_alpha_price s netuid := SwapEngine.current_alpha_price netuid (enter s);
  Reserves.max_price := SwapEngine.max_price;
  Reserves.min_price := SwapEngine.min_price;
  Reserves.adjust_protocol_liquidity s netuid tao_delta alpha_delta :=
    leave (SwapPool.adjust_protocol_liquidity netuid tao_delta alpha_delta (enter s)) (Storage.world s);
|}.
#[export] Existing Instance swap_pallet.

(** [BalanceOps for Pallet<T>] *)
Definition increase_stake_op (coldkey hotkey : AccountId) (netuid alpha : Z) : Pm W unit :=
  let* known := gets (hotkey_account_exists hotkey) in
  ensure known (Module Storage.Error.HotKeyAccountNotExists) ;;
  modify (mutate_net NetNum.SubnetAlphaOut netuid (fun total => sat_add U64_MAX total alpha)) ;;
  modify (fun s => (increase_stake_for_hotkey_and_coldkey_on_subnet hotkey coldkey netuid alpha s).2).

Definition decrease_stake_op (coldkey hotkey : AccountId) (netuid alpha : Z) : Pm W Z :=
  let* known := gets (hotkey_account_exists hotkey) in
  ensure known (Module Storage.Error.HotKeyAccountNotExists) ;;
  modify (mutate_net NetNum.SubnetAlphaOut netuid (fun total => sat_sub total alpha)) ;;
  let* (actual, s) := gets (decrease_stake_for_hotkey_and_coldkey_on_subnet hotkey coldkey netuid alpha) in
  modify (fun _ => s) ;;
  ret actual.

Definition subtensor_balances : BalanceOps St := {|
  tao_balance s account_id := free_balance (Storage.world s) account_id;
  alpha_balance s netuid coldkey hotkey := get_stake_for_hotkey_and_coldkey_on_subnet hotkey coldkey netuid s;
  increase_balance s coldkey tao := add_balance_to_coldkey_account coldkey tao s;
  decrease_balance s coldkey tao := into (remove_balance_from_coldkey_account coldkey tao s);
  increase_stake s coldkey hotkey netuid alpha :=
    match increase_stake_op coldkey hotkey netuid alpha s with Ok (_, s) => Ok s | Err e => Err (subtensor_error e) end;
  decrease_stake s coldkey hotkey netuid alpha := into (decrease_stake_op coldkey hotkey netuid alpha s);
  SwapPool.increase_provided_tao_reserve s netuid tao := Reserves.increase_provided_tao_reserve netuid tao s;
  SwapPool.decrease_provided_tao_reserve s netuid tao := Reserves.decrease_provided_tao_reserve netuid tao s;
  SwapPool.increase_provided_alpha_reserve s netuid alpha := Reserves.increase_provided_alpha_reserve netuid alpha s;
  SwapPool.decrease_provided_alpha_reserve s netuid alpha := Reserves.decrease_provided_alpha_reserve netuid alpha s;
|}.
#[export] Existing Instance subtensor_balances.

(** ** A purchase, booked *)

Context {FL : SubstrateFixedLaws}.

Lemma purchase_runs n tao limit s r w :
  Reserves.swap s n Buy tao limit false = Ok (r, w) -> in_type u64 (current_liquidity n (enter s)) ->
  (v3_initialized n (enter s) = true -> price_typed n (enter s)) -> 0 <= tao <= I64_MAX ->
  buy_ok n tao (enter s) r /\ amount_paid_out r <= Reserves.alpha_reserve n s.
Proof using FL.
  intros H Hl Hp Ht. cbn in H. unfold SwapEngine.swap in H.
  destruct (checked_sqrt _ _ _) as [lim|] eqn:E; [|done].
  apply checked_sqrt_range in E; [|apply safe_div_range; apply from_num_range].
  destruct (do_swap n Buy tao lim false (enter s)) as [[r'|] p] eqn:Hd; [|done]. injection H as -> <-.
  apply do_swap_ran in Hd as (p1 & Hi & Hr). specialize (Hr eq_refl) as [_ Hr].
  split; [eapply buy_inner; [done..|lia|done]|exact Hr].
Qed.

(** C3: What the swap engine does and what the subtensor pallet books agree. With the
    swap pallet as the [SwapHandler] of the subtensor pallet, a purchase on a subnet
    raises its TAO reserve by exactly what went into the pool, at most the amount
    offered, and lowers its alpha reserve by exactly what was paid out, at most what
    was there; the reserves stay well-formed and those of all other subnets are left
    alone. *)
Theorem purchase_meets_reserves n tao limit s r s' :
  reserves_ok n s -> get_net NetNum.SubnetMechanism n s = 1 ->
  in_type u64 (current_liquidity n (enter s)) -> (v3_initialized n (enter s) = true -> price_typed n (enter s)) ->
  0 <= tao <= I64_MAX -> Reserves.tao_reserve n s + tao <= U64_MAX -> Reserves.alpha_reserve n s <= I64_MAX ->
  swap_tao_for_alpha n tao limit s = Ok (r, s') ->
  reserves_ok n s' /\
  Reserves.tao_reserve n s' = Reserves.tao_reserve n s + amount_paid_in r /\ 0 <= amount_paid_in r <= tao /\
  Reserves.alpha_reserve n s' = Reserves.alpha_reserve n s - amount_paid_out r /\
  0 <= amount_paid_out r <= Reserves.alpha_reserve n s /\
  (forall m, m <> n -> Reserves.tao_reserve m s' = Reserves.tao_reserve m s /\ Reserves.alpha_reserve m s' = Reserves.alpha_reserve m s).
Proof using FL.
  intros Hok Hm Hl Hp Ht Hroom Ha H. destruct (swap_tao_for_alpha_ok _ _ _ _ _ _ Hm H) as (w & Hrun & _).
  apply purchase_runs in Hrun as [[B1 _ B2 B3 B4] Hout]; [|done..]. specialize (B2 ltac:(lia)). specialize (B4 ltac:(lia)).
  destruct (buy_moves_reserves n tao limit s r s' Hok Hm H) as (R1 & R2 & R3 & _ & _ & R4); [lia..|].
  split_and!; try done; lia.
Qed.
End Chain.
