(* ===== verification/StakeWeights.v ===== *)
(** * Stake weights (src/pallets/subtensor/src/staking/stake_utils.rs)

    The weight of a hotkey on a subnet counts its own stake, less what it hands
    down to its child keys, plus what it inherits from its parent keys, of both
    the subnet's alpha and the root network's TAO. *)

From S2P Require Import Prelude Frame Fixed SharePool Storage Misc Uids Reserves Children Staking.
From stdpp Require Import prelude gmap list fin_maps.
From Stdlib Require Import ZArith Lia.
#[local] Open Scope Z_scope.

Section StakeWeights.
Context {FS : FrameSystem} {Cfg : SubtensorConfig} {SI : StorageIter} {W : Type}.
Context {Env : SubtensorEnv W} {F : SubstrateFixed}.
Abbreviation St := (Storage W).
Implicit Types (s : St) (hotkey : AccountId) (netuid : Z).

Definition get_tao_weight (s : St) : Z :=
  let stored_weight := get_value Value.TaoWeight s in
  let weight_fixed := from_num U96F32 stored_weight in
  safe_div U96F32 weight_fixed (from_num U96F32 U64_MAX).

Definition set_tao_weight (weight : Z) (s : St) : St := put_value Value.TaoWeight weight s.

(** The proportion of a link, as a number between 0 and 1. *)
Definition normalized_proportion (proportion : Z) : Z :=
  safe_div U96F32 (from_num U96F32 proportion) (from_num U96F32 U64_MAX).

(** The loop over the children: the part of [initial] handed down. *)
Definition to_children (initial : Z) (children : list (Z * AccountId)) : Z :=
  foldl (fun acc '(proportion, _) =>
      saturating_add U96F32 acc
        (saturating_mul U96F32 (from_fixed U96F32 U96F32 initial) (normalized_proportion proportion)))
    (from_num U96F32 0) children.

(** The loop over the parents, whose stake is read on subnet [netuid]. *)
Definition from_parents (netuid : Z) (s : St) (parents : list (Z * AccountId)) : Z :=
  foldl (fun acc '(proportion, parent) =>
      let parent_stake := from_num U96F32 (get_stake_for_hotkey_on_subnet parent netuid s) in
      saturating_add U96F32 acc
        (saturating_mul U96F32 (from_fixed U96F32 U96F32 parent_stake) (normalized_proportion proportion)))
    (from_num U96F32 0) parents.

Definition get_inherited_for_hotkey_on_subnet (hotkey : AccountId) (netuid : Z) (s : St) : Z :=
  let initial_alpha := from_num U96F32 (get_stake_for_hotkey_on_subnet hotkey netuid s) in
  if is_root netuid then to_num U96F32 u64 initial_alpha
  else
    let alpha_to_children := to_children initial_alpha (get_children hotkey netuid s) in
    let alpha_from_parents := from_parents netuid s (get_parents hotkey netuid s) in
    to_num U96F32 u64
      (saturating_add U96F32 (saturating_sub U96F32 initial_alpha alpha_to_children) alpha_from_parents).

Definition get_tao_inherited_for_hotkey_on_subnet (hotkey : AccountId) (netuid : Z) (s : St) : Z :=
  let initial_tao := from_num U96F32 (get_stake_for_hotkey_on_subnet hotkey 0 s) in
  let tao_to_children := to_children initial_tao (get_children hotkey netuid s) in
  let tao_from_parents := from_parents 0 s (get_parents hotkey netuid s) in
  to_num U96F32 u64
    (saturating_add U96F32 (saturating_sub U96F32 initial_tao tao_to_children) tao_from_parents).

(** Total, alpha and TAO stake weight, as [I64F64] numbers. *)
Definition get_stake_weights_for_hotkey_on_subnet (hotkey : AccountId) (netuid : Z) (s : St)
    : Z * Z * Z :=
  let tao_weight := from_fixed I64F64 U96F32 (get_tao_weight s) in
  let alpha_stake := from_num I64F64 (get_inherited_for_hotkey_on_subnet hotkey netuid s) in
  let tao_stake := from_num I64F64 (get_tao_inherited_for_hotkey_on_subnet hotkey netuid s) in
  let total_stake := saturating_add I64F64 alpha_stake (saturating_mul I64F64 tao_stake tao_weight) in
  (total_stake, alpha_stake, tao_stake).

Definition get_stake_weights_for_network (netuid : Z) (s : St) : list Z * list Z * list Z :=
  let tao_weight := from_fixed I64F64 U96F32 (get_tao_weight s) in
  let n := get_subnetwork_n netuid s in
  let of_uid (inherited : AccountId -> Z -> St -> Z) (uid : Z) :=
    match Keys s !! (netuid, uid) with
    | Some hotkey => from_num I64F64 (inherited hotkey netuid s)
    | None => from_num I64F64 0
    end in
  let alpha_stake := map (of_uid get_inherited_for_hotkey_on_subnet) (seqZ 0 n) in
  let tao_stake := map (of_uid get_tao_inherited_for_hotkey_on_subnet) (seqZ 0 n) in
  let total_stake := zip_with (fun alpha_i tao_i =>
    saturating_add I64F64 alpha_i (saturating_mul I64F64 tao_i tao_weight)) alpha_stake tao_stake in
  (total_stake, alpha_stake, tao_stake).

(** [check_weights_min_stake] of lib.rs compares with the integer threshold. *)
Definition check_weights_min_stake (hotkey : AccountId) (netuid : Z) (s : St) : bool :=
  let '(total_stake, _, _) := get_stake_weights_for_hotkey_on_subnet hotkey netuid s in
  get_stake_threshold s * unit_ I64F64 <=? total_stake.

(** ** Conservation *)
Context {FL : SubstrateFixedLaws}.
Abbreviation ONE32 := (unit_ U96F32).

(** A hotkey's stake on the subnet read for the inheritance: a u64. *)
Definition stakes_typed (m : Z) (s : St) : Prop :=
  forall h, 0 <= get_stake_for_hotkey_on_subnet h m s <= U64_MAX.
Definition links_typed (n : Z) (s : St) : Prop :=
  forall h p c, (p, c) ∈ get_children h n s -> 0 <= p <= U64_MAX.

Lemma whole96 x : 0 <= x <= U64_MAX -> from_num U96F32 x = x * ONE32 /\ fixed_range U96F32 (x * ONE32).
Proof using FL.
  intros Hx. assert (x * ONE32 <= max_bits U96F32).
  { transitivity (U64_MAX * ONE32); [|vm_compute; congruence].
    apply Z.mul_le_mono_nonneg_r; [apply Z.lt_le_incl, unit_pos|lia]. }
  pose proof (unit_pos U96F32). split; [apply from_num_exact; lia|apply fixed_range_pos; nia].
Qed.

Lemma proportion_spec p : 0 <= p <= U64_MAX ->
  normalized_proportion p = p * ONE32 / U64_MAX /\ 0 <= normalized_proportion p <= ONE32.
Proof using FL.
  intros Hp. unfold normalized_proportion. destruct (whole96 p Hp) as [-> Hr].
  destruct (whole96 U64_MAX ltac:(lia)) as [-> Hr']. pose proof (unit_pos U96F32).
  assert (E : p * ONE32 * ONE32 / (U64_MAX * ONE32) = p * ONE32 / U64_MAX)
    by (apply Z.div_mul_cancel_r; lia).
  assert (Hb : 0 <= p * ONE32 / U64_MAX <= ONE32).
  { split; [apply Z.div_pos; lia|]. apply Z.div_le_upper_bound; nia. }
  rewrite safe_div_spec; [by rewrite E|done|done|nia|lia|].
  rewrite E. pose proof (unit_max U96F32). lia.
Qed.

(** The part of a whole stake that goes over a link. *)
Lemma link_part t p : 0 <= t <= U64_MAX -> 0 <= p <= U64_MAX ->
  saturating_mul U96F32 (from_fixed U96F32 U96F32 (from_num U96F32 t)) (normalized_proportion p)
  = t * normalized_proportion p.
Proof using FL.
  intros Ht Hp. destruct (whole96 t Ht) as [-> Hr]. destruct (proportion_spec p Hp) as [_ Hn].
  pose proof (unit_pos U96F32). pose proof (unit_max U96F32).
  rewrite from_fixed_spec by done. rewrite Z.div_mul by lia. rewrite saturate_id by done.
  rewrite mul_spec by (try apply fixed_range_pos; done || nia || lia).
  replace (t * ONE32 * normalized_proportion p) with (t * normalized_proportion p * ONE32) by ring.
  rewrite Z.div_mul by lia. apply saturate_id, fixed_range_pos.
  assert (0 <= t * ONE32 <= max_bits U96F32) by exact Hr. nia.
Qed.

Lemma fold_links_spec (step : Z -> Z * AccountId -> Z) (g : Z * AccountId -> Z) l a :
  (forall acc x, x ∈ l -> step acc x = saturating_add U96F32 acc (g x)) ->
  (forall x, x ∈ l -> fixed_range U96F32 (g x)) -> fixed_range U96F32 a ->
  let r := foldl step a l in
  fixed_range U96F32 r /\ r <= a + zsum g l /\ (a + zsum g l <= max_bits U96F32 -> r = a + zsum g l).
Proof using FL.
  revert a. induction l as [|x l IH]; intros a Hstep Hg Ha; cbn [foldl].
  { rewrite zsum_nil. split; [done|]. split; lia. }
  rewrite Hstep by set_solver.
  assert (Hx : fixed_range U96F32 (g x)) by (apply Hg; set_solver).
  assert (Hl : forall y, y ∈ l -> fixed_range U96F32 (g y)) by (intros; apply Hg; set_solver).
  pose proof (add_range U96F32 a (g x) Ha Hx) as Hr.
  destruct (IH (saturating_add U96F32 a (g x))) as (H1 & H2 & H3); [|done..|].
  { intros acc y Hy. apply Hstep. set_solver. }
  rewrite zsum_cons.
  assert (0 <= zsum g l) by (apply zsum_nonneg; intros y Hy; apply (Hl y Hy)).
  assert (Hle : saturating_add U96F32 a (g x) <= a + g x /\
    (a + g x <= max_bits U96F32 -> saturating_add U96F32 a (g x) = a + g x)).
  { rewrite add_spec by done. assert (0 <= a) by apply Ha. assert (0 <= g x) by apply Hx.
    rewrite saturate_pos by lia. lia. }
  destruct Hle as [Hle Heq]. split; [done|]. split; [lia|]. intros Hm. rewrite H3, Heq by lia. lia.
Qed.

Lemma total_proportion_sum l a t : total_proportion a l = Some t -> t = a + zsum fst l.
Proof using.
  revert a. induction l as [|[p c] l IH]; intros a; cbn; [intros [= <-]; rewrite zsum_nil; lia|].
  destruct (Prelude.checked_add U64_MAX a p) as [b|] eqn:E; [|done]. apply checked_add_Some in E as [-> _].
  intros H. rewrite (IH _ H), zsum_cons. cbn. lia.
Qed.

Lemma total_proportion_max l a t : a <= U64_MAX -> total_proportion a l = Some t -> t <= U64_MAX.
Proof using.
  revert a. induction l as [|[p c] l IH]; intros a Ha; cbn; [intros [= <-]; lia|].
  destruct (Prelude.checked_add U64_MAX a p) as [b|] eqn:E; [|done]. apply checked_add_Some in E as [-> E].
  by apply IH.
Qed.

(** The children of a hotkey get at most all of its stake. *)
Lemma children_part h n s : links_ok s n -> links_typed n s ->
  zsum (fun x => normalized_proportion x.1) (get_children h n s) <= ONE32.
Proof using FL.
  intros Hl Ht. destruct (lo_children s n Hl h) as [_ _ _ [t Hp]].
  pose proof (total_proportion_max _ 0 _ ltac:(lia) Hp) as Hmax.
  apply total_proportion_sum in Hp. rewrite Z.add_0_l in Hp. subst t. pose proof (unit_pos U96F32).
  enough (U64_MAX * zsum (fun x => normalized_proportion x.1) (get_children h n s)
          <= ONE32 * zsum fst (get_children h n s)) by nia.
  rewrite <- !zsum_mul. apply zsum_le. intros [p c] Hx. cbn.
  destruct (proportion_spec p (Ht _ _ _ Hx)) as [-> _]. pose proof (Z.mul_div_le (p * ONE32) U64_MAX). lia.
Qed.

(** What a hotkey ends up with, in terms of the links of the subnet. *)
Lemma inherited_bound h n m s : links_ok s n -> links_typed n s -> stakes_typed m s ->
  let T q := get_stake_for_hotkey_on_subnet q m s in
  let initial := from_num U96F32 (T h) in
  to_num U96F32 u64
    (saturating_add U96F32 (saturating_sub U96F32 initial (to_children initial (get_children h n s)))
       (from_parents m s (get_parents h n s))) * ONE32
  <= T h * ONE32 - zsum (fun x => T h * normalized_proportion x.1) (get_children h n s)
     + zsum (fun x => T x.2 * normalized_proportion x.1) (get_parents h n s).
Proof using FL.
  intros Hl Hlt Hst T initial. pose proof (Hst h) as HT. fold (T h) in HT.
  destruct (whole96 (T h) HT) as [Ei Ri]. fold initial in Ei. pose proof (unit_pos U96F32).
  assert (Hpt : forall p q, (p, q) ∈ get_parents h n s -> 0 <= p <= U64_MAX).
  { intros p q Hx. apply (lo_converse s n Hl) in Hx. by apply (Hlt q p h). }
  assert (Hpart : forall p t, 0 <= p <= U64_MAX -> 0 <= t <= U64_MAX ->
    fixed_range U96F32 (t * normalized_proportion p)).
  { intros p t Hp Ht. destruct (proportion_spec p Hp) as [_ Hn]. destruct (whole96 t Ht) as [_ Hr].
    apply fixed_range_pos. assert (t * ONE32 <= max_bits U96F32) by apply Hr. nia. }
  assert (R0 : fixed_range U96F32 0) by (apply fixed_range_pos; pose proof (min_max U96F32); lia).
  assert (Ec : to_children initial (get_children h n s) =
    zsum (fun x => T h * normalized_proportion x.1) (get_children h n s)).
  { unfold to_children. rewrite from_num_0.
    destruct (fold_links_spec (fun acc '(p, _) => saturating_add U96F32 acc
      (saturating_mul U96F32 (from_fixed U96F32 U96F32 initial) (normalized_proportion p)))
      (fun x => T h * normalized_proportion x.1) (get_children h n s) 0) as (_ & _ & He);
      [|intros [p c] Hx; eauto|done|].
    - intros acc [p c] Hx. unfold initial. by rewrite link_part by eauto.
    - rewrite He; [done|]. rewrite zsum_mul. pose proof (children_part h n s Hl Hlt).
      assert (T h * ONE32 <= max_bits U96F32) by apply Ri. nia. }
  destruct (fold_links_spec (fun acc '(p, q) => saturating_add U96F32 acc
      (saturating_mul U96F32 (from_fixed U96F32 U96F32 (from_num U96F32 (T q))) (normalized_proportion p)))
      (fun x => T x.2 * normalized_proportion x.1) (get_parents h n s) 0) as (Rp & Hp & _);
    [|by intros [p q] Hx; apply Hpart; eauto|done|].
  { intros acc [p q] Hx. by rewrite link_part by eauto. }
  unfold from_parents. rewrite from_num_0. set (P := foldl _ 0 _) in *.
  rewrite Ec. set (C := zsum _ (get_children h n s)) in *.
  assert (HC : 0 <= C <= T h * ONE32).
  { subst C. rewrite zsum_mul. pose proof (children_part h n s Hl Hlt).
    assert (0 <= zsum (fun x => normalized_proportion x.1) (get_children h n s)).
    { apply zsum_nonneg. intros [p c] Hx. apply (proportion_spec p). eauto. } nia. }
  rewrite Ei, sub_spec, saturate_id;
    [|apply fixed_range_pos; unfold fixed_range in Ri; lia|done|apply fixed_range_pos; unfold fixed_range in Ri; lia].
  assert (Rd : fixed_range U96F32 (T h * ONE32 - C)) by (apply fixed_range_pos; unfold fixed_range in Ri; lia).
  assert (0 <= P) by apply Rp. assert (0 <= T h * ONE32 - C) by lia.
  rewrite add_spec, to_num_spec by (done || apply saturate_range || (apply saturate_nonneg; lia)).
  rewrite saturate_pos by lia. set (x := Z.min _ _). assert (Hx : 0 <= x <= T h * ONE32 - C + P).
  { subst x. pose proof (min_max U96F32). lia. }
  pose proof (Z.mul_div_le x ONE32). assert (0 <= x / ONE32) by (apply Z.div_pos; lia).
  unfold clamp. change (int_min u64) with 0. change (int_max u64) with U64_MAX. nia.
Qed.

(** Every parent entry of a hotkey of [l] is a child entry of a hotkey of [l],
    and none is counted twice. *)
Lemma links_counted (w : AccountId -> Z -> Z) n l s :
  links_ok s n -> NoDup l ->
  (forall h p q, h ∈ l -> (p, q) ∈ get_parents h n s -> q ∈ l) ->
  (forall h p c, (p, c) ∈ get_children h n s -> 0 <= w h p) ->
  zsum (fun h => zsum (fun x => w x.2 x.1) (get_parents h n s)) l <=
  zsum (fun h => zsum (fun x => w h x.1) (get_children h n s)) l.
Proof using.
  intros Hl Hnd Hin Hw. set (f := fun t : AccountId * Z * AccountId => w t.1.1 t.1.2).
  set (up := fun h : AccountId => (fun x : Z * AccountId => (x.2, x.1, h)) <$> get_parents h n s).
  set (down := fun h : AccountId => (fun x : Z * AccountId => (h, x.1, x.2)) <$> get_children h n s).
  assert (E1 : zsum f (l ≫= up) = zsum (fun h => zsum (fun x => w x.2 x.1) (get_parents h n s)) l).
  { rewrite zsum_bind. apply zsum_ext. intros h _. unfold up. by rewrite zsum_fmap. }
  assert (E2 : zsum f (l ≫= down) = zsum (fun h => zsum (fun x => w h x.1) (get_children h n s)) l).
  { rewrite zsum_bind. apply zsum_ext. intros h _. unfold down. by rewrite zsum_fmap. }
  rewrite <- E1, <- E2. apply zsum_submseteq.
  { intros t (h & Ht & _)%list_elem_of_bind. apply list_elem_of_fmap in Ht as ([p c] & -> & Hx).
    by apply (Hw h p c). }
  apply NoDup_submseteq.
  - apply NoDup_bind.
    + intros h1 h2 t _ _ (x1 & E & _)%list_elem_of_fmap (x2 & E' & _)%list_elem_of_fmap. congruence.
    + intros h _. apply (NoDup_fmap_1 (fun t : AccountId * Z * AccountId => t.1.1)).
      unfold up. rewrite <- list_fmap_compose. exact (lo_parents s n Hl h).
    + done.
  - intros t (h & Ht & Hh)%list_elem_of_bind. apply list_elem_of_fmap in Ht as ([p q] & -> & Hx).
    apply list_elem_of_bind. exists q. split; [|by eapply Hin].
    apply list_elem_of_fmap. exists (p, h). split; [done|]. by apply (lo_converse s n Hl).
Qed.

Lemma inherited_sum n m l s : links_ok s n -> links_typed n s -> stakes_typed m s -> NoDup l ->
  (forall h p q, h ∈ l -> (p, q) ∈ get_parents h n s -> q ∈ l) ->
  zsum (fun h => let initial := from_num U96F32 (get_stake_for_hotkey_on_subnet h m s) in
    to_num U96F32 u64
      (saturating_add U96F32 (saturating_sub U96F32 initial (to_children initial (get_children h n s)))
         (from_parents m s (get_parents h n s)))) l
  <= zsum (fun h => get_stake_for_hotkey_on_subnet h m s) l.
Proof using FL.
  intros Hl Hlt Hst Hnd Hin. set (T q := get_stake_for_hotkey_on_subnet q m s).
  pose proof (unit_pos U96F32).
  pose proof (links_counted (fun h p => T h * normalized_proportion p) n l s Hl Hnd Hin) as Hc.
  assert (Hw : forall h p c, (p, c) ∈ get_children h n s -> 0 <= T h * normalized_proportion p).
  { intros h p c Hx. pose proof (Hst h). destruct (proportion_spec p (Hlt _ _ _ Hx)) as [_ ?].
    unfold T. nia. }
  specialize (Hc Hw). apply (Z.mul_le_mono_pos_r _ _ ONE32); [done|].
  rewrite !(Z.mul_comm _ ONE32), <- !zsum_mul.
  transitivity (zsum (fun h =>
    T h * ONE32 - zsum (fun x => T h * normalized_proportion x.1) (get_children h n s)
    + zsum (fun x => T x.2 * normalized_proportion x.1) (get_parents h n s)) l).
  { apply zsum_le. intros h _. rewrite Z.mul_comm. exact (inherited_bound h n m s Hl Hlt Hst). }
  rewrite zsum_plus.
  assert (E : zsum (fun h => T h * ONE32 - zsum (fun x => T h * normalized_proportion x.1) (get_children h n s)) l
    = zsum (fun h => ONE32 * T h) l
      - zsum (fun h => zsum (fun x => T h * normalized_proportion x.1) (get_children h n s)) l).
  { clear. induction l as [|h l IH]; [done|]. rewrite !zsum_cons, IH. lia. }
  rewrite E. cbv beta in Hc.
  change (zsum (fun x => ONE32 * get_stake_for_hotkey_on_subnet x m s) l)
    with (zsum (fun h => ONE32 * T h) l). lia.
Qed.

(** C29: Child keys move stake weight, they do not create it, as long as the two tables
    of links agree: when parents and children on the subnet are converse relations
    whose proportions add up to at most one ([links_ok], which scheduling and applying
    children keeps), then over any set of hotkeys that contains the parents of its
    members, the alpha counted for them on the subnet after inheritance adds up to at
    most the alpha staked to them, and the same holds for the root TAO. (A hotkey swap
    onto a key with children breaks the condition and counts stake twice, see
    [hotkey_swap_doubles_stake].) *)
Theorem inherited_stake_conserved (netuid : Z) (l : list AccountId) (s : St) :
  links_ok s netuid -> links_typed netuid s -> stakes_typed netuid s -> stakes_typed 0 s -> NoDup l ->
  (forall h p q, h ∈ l -> (p, q) ∈ get_parents h netuid s -> q ∈ l) ->
  zsum (fun h => get_inherited_for_hotkey_on_subnet h netuid s) l
    <= zsum (fun h => get_stake_for_hotkey_on_subnet h netuid s) l /\
  zsum (fun h => get_tao_inherited_for_hotkey_on_subnet h netuid s) l
    <= zsum (fun h => get_stake_for_hotkey_on_subnet h 0 s) l.
Proof using FL.
  intros Hl Hlt Hst Hst0 Hnd Hin. split; [|by apply (inherited_sum netuid 0)].
  unfold get_inherited_for_hotkey_on_subnet. destruct (is_root netuid).
  - apply zsum_le. intros h _. destruct (whole96 _ (Hst h)) as [-> Hr]. pose proof (unit_pos U96F32).
    pose proof (Hst h). rewrite to_num_spec by (done || nia). rewrite Z.div_mul by lia. unfold clamp.
    change (int_min u64) with 0. change (int_max u64) with U64_MAX. lia.
  - by apply (inherited_sum netuid netuid).
Qed.
End StakeWeights.
