(* ===== verification/BlockStep.v ===== *)
(** * The block step (src/pallets/subtensor/src/coinbase/)

    What happens to every subnet at the start of a block: the burn and the
    difficulty of a subnet follow its registrations (block_step.rs), and an
    epoch runs every [tempo + 1] blocks (run_coinbase.rs), which also puts the
    pending child keys into effect. *)

From S2P Require Import Prelude Frame Fixed Storage Misc RateLimiting Children.
From stdpp Require Import prelude gmap list fin_maps.
From Stdlib Require Import ZArith Lia.
#[local] Open Scope Z_scope.

Section BlockStep.
Context {FS : FrameSystem} {Cfg : SubtensorConfig} {SI : StorageIter} {W : Type}.
Context {Env : SubtensorEnv W} {SV : StakeView W} {F : SubstrateFixed}.
Abbreviation St := (Storage W).
Implicit Types (s : St) (netuid : Z).

(** ** Burn and difficulty *)

(** The common body of [upgraded_difficulty] and [upgraded_burn]: [current]
    moves towards [current * (registrations + target) / (2 * target)], with the
    moving-average factor [adjustment_alpha / u64::MAX]. *)
Definition next_value (adjustment_alpha current registrations_this_interval
    target_registrations_per_interval : Z) : Z :=
  let updated := safe_div U110F18
    (saturating_mul U110F18 (from_num U110F18 current)
       (from_num U110F18 (sat_add U16_MAX registrations_this_interval target_registrations_per_interval)))
    (from_num U110F18 (sat_add U16_MAX target_registrations_per_interval target_registrations_per_interval)) in
  let alpha := safe_div U110F18 (from_num U110F18 adjustment_alpha) (from_num U110F18 U64_MAX) in
  saturating_add U110F18
    (saturating_mul U110F18 alpha (from_num U110F18 current))
    (saturating_mul U110F18 (saturating_sub U110F18 (from_num U110F18 1) alpha) updated).

(** The bounds are applied to the fixed-point number. *)
Definition bounded (lo hi next_value : Z) : Z :=
  if from_num U110F18 hi <=? next_value then hi
  else if next_value <=? from_num U110F18 lo then lo
  else to_num U110F18 u64 next_value.

Definition upgraded_difficulty (netuid current_difficulty registrations_this_interval
    target_registrations_per_interval : Z) (s : St) : Z :=
  bounded (get_min_difficulty netuid s) (get_max_difficulty netuid s)
    (next_value (get_adjustment_alpha netuid s) current_difficulty registrations_this_interval
       target_registrations_per_interval).

Definition upgraded_burn (netuid current_burn registrations_this_interval
    target_registrations_per_interval : Z) (s : St) : Z :=
  bounded (get_min_burn_as_u64 netuid s) (get_max_burn_as_u64 netuid s)
    (next_value (get_adjustment_alpha netuid s) current_burn registrations_this_interval
       target_registrations_per_interval).

(** Cases A to F: which of the two follows. *)
Definition adjust_terms (netuid : Z) (s : St) : St :=
  let current_burn := get_burn_as_u64 netuid s in
  let current_difficulty := get_difficulty_as_u64 netuid s in
  let registrations_this_interval := get_registrations_this_interval netuid s in
  let pow_registrations_this_interval := get_pow_registrations_this_interval netuid s in
  let burn_registrations_this_interval := get_burn_registrations_this_interval netuid s in
  let target_registrations_this_interval := get_target_registrations_per_interval netuid s in
  let move_difficulty s := set_difficulty netuid
    (upgraded_difficulty netuid current_difficulty registrations_this_interval
       target_registrations_this_interval s) s in
  let move_burn s := set_burn netuid
    (upgraded_burn netuid current_burn registrations_this_interval
       target_registrations_this_interval s) s in
  if target_registrations_this_interval <? registrations_this_interval then
    if burn_registrations_this_interval <? pow_registrations_this_interval then move_difficulty s
    else if pow_registrations_this_interval <? burn_registrations_this_interval then move_burn s
    else move_difficulty (move_burn s)
  else
    if burn_registrations_this_interval <? pow_registrations_this_interval then move_burn s
    else if pow_registrations_this_interval <? burn_registrations_this_interval then move_difficulty s
    else move_difficulty (move_burn s).

(** The body of the loop over the networks. *)
Definition adjust_network (s : St) (netuid : Z) : St :=
  let last_adjustment_block := get_last_adjustment_block netuid s in
  let adjustment_interval := get_adjustment_interval netuid s in
  let current_block := get_current_block_as_u64 s in
  let s :=
    if adjustment_interval <=? sat_sub current_block last_adjustment_block then
      let s := adjust_terms netuid s in
      let s := set_last_adjustment_block netuid current_block s in
      let s := set_registrations_this_interval netuid 0 s in
      let s := set_pow_registrations_this_interval netuid 0 s in
      set_burn_registrations_this_interval netuid 0 s
    else s in
  set_registrations_this_block netuid 0 s.

Definition adjust_registration_terms_for_networks (s : St) : St :=
  foldl adjust_network s (get_all_subnet_netuids s).

(** ** Epochs *)

Definition blocks_until_next_epoch (netuid tempo block_number : Z) : Z :=
  if tempo =? 0 then U64_MAX
  else
    let netuid_plus_one := sat_add U64_MAX netuid 1 in
    let tempo_plus_one := sat_add U64_MAX tempo 1 in
    let adjusted_block := (block_number + netuid_plus_one) mod 2 ^ 64 in
    let remainder := adjusted_block mod tempo_plus_one in
    sat_sub tempo remainder.

Definition should_run_epoch (netuid current_block : Z) (s : St) : bool :=
  blocks_until_next_epoch netuid (get_tempo netuid s) current_block =? 0.

Definition try_set_pending_children (block_number : Z) (s : St) : St :=
  foldl (fun s netuid =>
      if should_run_epoch netuid block_number s then do_set_pending_children netuid s else s)
    s (get_all_subnet_netuids s).

(** ** Arithmetic of the adjustment *)
Context {FL : SubstrateFixedLaws}.
Abbreviation ONE18 := (unit_ U110F18).

Lemma whole110 x : 0 <= x <= 2 ^ 109 -> from_num U110F18 x = x * ONE18 /\ fixed_range U110F18 (x * ONE18).
Proof using FL.
  intros Hx. assert (x * ONE18 <= max_bits U110F18).
  { transitivity (2 ^ 109 * ONE18); [|vm_compute; congruence].
    apply Z.mul_le_mono_nonneg_r; [apply Z.lt_le_incl, unit_pos|lia]. }
  pose proof (unit_pos U110F18). split; [apply from_num_exact; lia|apply fixed_range_pos; nia].
Qed.

(** A whole number times a number, and a quotient of whole numbers. *)
Lemma mul_whole x a : 0 <= x -> 0 <= a -> a * x <= max_bits U110F18 -> fixed_range U110F18 a ->
  fixed_range U110F18 (x * ONE18) ->
  saturating_mul U110F18 a (x * ONE18) = a * x.
Proof using FL.
  intros Hx Ha Hm Hra Hrx. pose proof (unit_pos U110F18). rewrite mul_spec by (done || nia).
  rewrite Z.mul_assoc, Z.div_mul by lia. apply saturate_id, fixed_range_pos. nia.
Qed.

Lemma div_whole x y : 0 <= x -> 0 < y -> fixed_range U110F18 (x * ONE18) -> fixed_range U110F18 (y * ONE18) ->
  safe_div U110F18 (x * ONE18) (y * ONE18) = x * ONE18 / y.
Proof using FL.
  intros Hx Hy Hrx Hry. pose proof (unit_pos U110F18).
  assert (E : x * ONE18 * ONE18 / (y * ONE18) = x * ONE18 / y) by (apply Z.div_mul_cancel_r; lia).
  rewrite safe_div_spec; [done|done|done|nia|nia|]. rewrite E.
  transitivity (x * ONE18); [|apply Hrx]. apply Z.div_le_upper_bound; nia.
Qed.

(** A weighted mean of a whole number and a number, with nothing lost to
    saturation. *)
Lemma mean_whole w cur u : 0 <= w <= ONE18 -> 0 <= cur <= U64_MAX -> 0 <= u <= U64_MAX * ONE18 * U16_MAX ->
  saturating_add U110F18 (saturating_mul U110F18 w (cur * ONE18))
    (saturating_mul U110F18 (saturating_sub U110F18 ONE18 w) u)
  = w * cur + (ONE18 - w) * u / ONE18.
Proof using FL.
  intros Hw Hc Hu. pose proof (unit_pos U110F18). pose proof (unit_max U110F18).
  assert (Hmax : ONE18 * U64_MAX + U64_MAX * ONE18 * U16_MAX <= max_bits U110F18) by (vm_compute; congruence).
  destruct (whole110 cur) as [_ Rc]; [lia|].
  assert (Rw : fixed_range U110F18 w) by (apply fixed_range_pos; lia).
  assert (Hdu : 0 <= (ONE18 - w) * u / ONE18 <= u).
  { split; [apply Z.div_pos; nia|]. apply Z.div_le_upper_bound; nia. }
  assert (Hwc : 0 <= w * cur <= ONE18 * U64_MAX) by nia.
  rewrite (sub_spec _ ONE18 w), saturate_id by (done || apply fixed_range_pos; lia).
  rewrite mul_whole by (done || lia).
  rewrite (mul_spec _ (ONE18 - w) u) by (lia || apply fixed_range_pos; lia).
  rewrite (saturate_id _ ((ONE18 - w) * u / ONE18)) by (apply fixed_range_pos; lia).
  rewrite add_spec by (apply fixed_range_pos; lia).
  apply saturate_id, fixed_range_pos. lia.
Qed.

(** [next_value] without the saturation, which the widths of its arguments rule
    out: a mean of [cur] and of [u], its proportion to the registrations. *)
Lemma next_value_spec a cur r t :
  0 <= a <= U64_MAX -> 0 <= cur <= U64_MAX -> 0 <= r <= U16_MAX -> 0 < t <= U16_MAX ->
  exists w u, 0 <= w <= ONE18 /\ 0 <= u <= U64_MAX * ONE18 * U16_MAX /\
  next_value a cur r t = w * cur + (ONE18 - w) * u / ONE18 /\
  (t <= r -> cur * ONE18 <= u) /\ (r <= t -> u <= cur * ONE18).
Proof using FL.
  intros Ha Hc Hr Ht. pose proof (unit_pos U110F18) as Hu.
  set (R := sat_add U16_MAX r t). set (T := sat_add U16_MAX t t).
  assert (HR : 0 < R <= U16_MAX) by (unfold R, sat_add; lia).
  assert (HT : 0 < T <= U16_MAX) by (unfold T, sat_add; lia).
  assert (Hcmp : (t <= r -> T <= R) /\ (r <= t -> R <= T)) by (unfold R, T, sat_add; lia).
  exists (a * ONE18 / U64_MAX), (cur * R * ONE18 / T).
  assert (Hw : 0 <= a * ONE18 / U64_MAX <= ONE18).
  { split; [apply Z.div_pos; lia|]. apply Z.div_le_upper_bound; nia. }
  assert (Huu : 0 <= cur * R * ONE18 / T <= U64_MAX * ONE18 * U16_MAX).
  { split; [apply Z.div_pos; nia|].
    transitivity (cur * ONE18 * U16_MAX); [apply Z.div_le_upper_bound|]; nia. }
  split; [exact Hw|]. split; [exact Huu|].
  split; [|split; intros Hrt; [apply Z.div_le_lower_bound|apply Z.div_le_upper_bound]; nia].
  unfold next_value. fold R T. clearbody R T. assert (Hcr : cur * R <= U64_MAX * U16_MAX) by nia.
  destruct (whole110 cur) as [-> Rc]; [lia|]. destruct (whole110 R) as [-> RR]; [lia|].
  destruct (whole110 T) as [-> RT]; [lia|]. destruct (whole110 a) as [-> Ra]; [lia|].
  destruct (whole110 U64_MAX) as [-> RU]; [lia|]. rewrite from_num_1.
  destruct (whole110 (cur * R)) as [_ RcR]; [lia|].
  rewrite mul_exact by (apply RcR || apply Rc || apply RR || lia).
  rewrite !div_whole by (done || lia || nia). by apply mean_whole.
Qed.

(** More registrations than the target never lower the value, fewer never raise
    it. *)
Lemma next_value_direction a cur r t :
  0 <= a <= U64_MAX -> 0 <= cur <= U64_MAX -> 0 <= r <= U16_MAX -> 0 < t <= U16_MAX ->
  fixed_range U110F18 (next_value a cur r t) /\
  (t <= r -> cur * ONE18 <= next_value a cur r t) /\ (r <= t -> next_value a cur r t <= cur * ONE18).
Proof using FL.
  intros Ha Hc Hr Ht. destruct (next_value_spec a cur r t) as (w & u & Hw & Hu & -> & H1 & H2); [done..|].
  pose proof (unit_pos U110F18).
  assert (Hdu : 0 <= (ONE18 - w) * u / ONE18 <= u).
  { split; [apply Z.div_pos; nia|]. apply Z.div_le_upper_bound; nia. }
  assert (Hmax : ONE18 * U64_MAX + U64_MAX * ONE18 * U16_MAX <= max_bits U110F18) by (vm_compute; congruence).
  split; [apply fixed_range_pos; nia|]. split; intros Hrt.
  - specialize (H1 Hrt). enough ((ONE18 - w) * cur <= (ONE18 - w) * u / ONE18) by nia.
    apply Z.div_le_lower_bound; nia.
  - specialize (H2 Hrt). enough ((ONE18 - w) * u / ONE18 <= (ONE18 - w) * cur) by nia.
    apply Z.div_le_upper_bound; nia.
Qed.

Lemma bounded_range lo hi x : 0 <= lo <= hi -> hi <= U64_MAX -> fixed_range U110F18 x ->
  lo <= bounded lo hi x <= hi.
Proof using FL.
  intros Hlo Hhi Hx. unfold bounded. pose proof (unit_pos U110F18).
  destruct (whole110 hi) as [-> _]; [lia|]. destruct (whole110 lo) as [-> _]; [lia|].
  destruct (Z.leb_spec (hi * ONE18) x); [lia|]. destruct (Z.leb_spec x (lo * ONE18)); [lia|].
  rewrite to_num_spec by (done || nia).
  assert (lo <= x / ONE18) by (apply Z.div_le_lower_bound; lia).
  assert (x / ONE18 < hi) by (apply Z.div_lt_upper_bound; lia).
  unfold clamp. change (int_min u64) with 0. change (int_max u64) with U64_MAX. lia.
Qed.

Lemma bounded_direction lo hi cur x : 0 <= lo <= cur -> cur <= hi -> hi <= U64_MAX -> fixed_range U110F18 x ->
  (cur * ONE18 <= x -> cur <= bounded lo hi x) /\ (x <= cur * ONE18 -> bounded lo hi x <= cur).
Proof using FL.
  intros Hlo Hhi HU Hx. unfold bounded. pose proof (unit_pos U110F18).
  destruct (whole110 hi) as [-> _]; [lia|]. destruct (whole110 lo) as [-> _]; [lia|].
  destruct (Z.leb_spec (hi * ONE18) x); [nia|]. destruct (Z.leb_spec x (lo * ONE18)); [nia|].
  rewrite to_num_spec by (done || nia). assert (0 <= x / ONE18) by (apply Z.div_pos; nia).
  unfold clamp. change (int_min u64) with 0. change (int_max u64) with U64_MAX.
  split; intros.
  - assert (cur <= x / ONE18) by (apply Z.div_le_lower_bound; lia). lia.
  - assert (x / ONE18 <= cur) by (apply Z.div_le_upper_bound; lia). lia.
Qed.

(** ** Adjusting a network *)

(** The registration terms of a network: both within their bounds, and the
    counters and parameters of the widths of their items. *)
Record terms_ok (n : Z) (s : St) : Prop := {
  to_burn : 0 <= get_min_burn_as_u64 n s <= get_burn_as_u64 n s;
  to_burn_max : get_burn_as_u64 n s <= get_max_burn_as_u64 n s <= U64_MAX;
  to_difficulty : 0 <= get_min_difficulty n s <= get_difficulty_as_u64 n s;
  to_difficulty_max : get_difficulty_as_u64 n s <= get_max_difficulty n s <= U64_MAX;
  to_alpha : 0 <= get_adjustment_alpha n s <= U64_MAX;
  to_registrations : 0 <= get_registrations_this_interval n s <= U16_MAX;
  to_target : 0 < get_target_registrations_per_interval n s <= U16_MAX;
}.

(** Whether the adjustment interval is over. *)
Definition interval_over (n : Z) (s : St) : bool :=
  get_adjustment_interval n s <=? sat_sub (get_current_block_as_u64 s) (get_last_adjustment_block n s).

(** How a network moves. [lead] compares the proof-of-work registrations with
    those that burned. *)
Record terms_moved (n : Z) (s s' : St) : Prop := {
  tm_many : get_target_registrations_per_interval n s < get_registrations_this_interval n s ->
    get_burn_as_u64 n s <= get_burn_as_u64 n s' /\ get_difficulty_as_u64 n s <= get_difficulty_as_u64 n s' /\
    (get_burn_registrations_this_interval n s < get_pow_registrations_this_interval n s ->
     get_burn_as_u64 n s' = get_burn_as_u64 n s) /\
    (get_pow_registrations_this_interval n s < get_burn_registrations_this_interval n s ->
     get_difficulty_as_u64 n s' = get_difficulty_as_u64 n s);
  tm_few : get_registrations_this_interval n s <= get_target_registrations_per_interval n s ->
    get_burn_as_u64 n s' <= get_burn_as_u64 n s /\ get_difficulty_as_u64 n s' <= get_difficulty_as_u64 n s /\
    (get_burn_registrations_this_interval n s < get_pow_registrations_this_interval n s ->
     get_difficulty_as_u64 n s' = get_difficulty_as_u64 n s) /\
    (get_pow_registrations_this_interval n s < get_burn_registrations_this_interval n s ->
     get_burn_as_u64 n s' = get_burn_as_u64 n s);
}.

(** [s'] has the same items of subnet [n] as [s], and the same block. *)
Definition same_net (n : Z) (s s' : St) : Prop :=
  (forall i, get_net i n s' = get_net i n s) /\ get_current_block_as_u64 s' = get_current_block_as_u64 s.

Lemma same_net_put i n m v s0 s : n <> m -> same_net m s0 s -> same_net m s0 (put_net i n v s).
Proof using.
  intros Hn [H1 H2]. split; [|exact H2]. intros j. rewrite get_put_net, decide_False by naive_solver. apply H1.
Qed.

Lemma same_net_event e m s0 s : same_net m s0 s -> same_net m s0 (deposit_event e s).
Proof using. intros [H1 H2]. by split. Qed.

Lemma same_net_trans n s1 s2 s3 : same_net n s1 s2 -> same_net n s2 s3 -> same_net n s1 s3.
Proof using. intros [A B] [C D]. split; [intros i; by rewrite C|by rewrite D]. Qed.

Lemma adjust_terms_others n m s : n <> m -> same_net m s (adjust_terms n s).
Proof using.
  intros Hn. unfold adjust_terms. cbv zeta.
  repeat case_match; repeat first [apply same_net_event|apply same_net_put; [done|]]; by split.
Qed.

Lemma adjust_others n m s : n <> m -> same_net m s (adjust_network s n).
Proof using.
  intros Hn. unfold adjust_network. cbv zeta. apply same_net_put; [done|].
  case_match; [|by split]. repeat (apply same_net_put; [done|]). by apply adjust_terms_others.
Qed.

Lemma adjust_block n s : get_current_block_as_u64 (adjust_network s n) = get_current_block_as_u64 s.
Proof using. exact (proj2 (adjust_others n (n + 1) s ltac:(lia))). Qed.

(** What one of the two terms moves to. *)
Definition moves (s : St) (n lo hi cur new : Z) : Prop :=
  lo <= new <= hi /\
  (get_target_registrations_per_interval n s < get_registrations_this_interval n s -> cur <= new) /\
  (get_registrations_this_interval n s <= get_target_registrations_per_interval n s -> new <= cur).

Lemma bounded_moves s n lo hi cur : terms_ok n s -> 0 <= lo <= cur -> cur <= hi <= U64_MAX ->
  moves s n lo hi cur (bounded lo hi (next_value (get_adjustment_alpha n s) cur
    (get_registrations_this_interval n s) (get_target_registrations_per_interval n s))).
Proof using FL.
  intros [_ _ _ _ Ha Hr Ht] Hlo Hhi.
  destruct (next_value_direction (get_adjustment_alpha n s) cur (get_registrations_this_interval n s)
    (get_target_registrations_per_interval n s)) as (Hx & H1 & H2); [lia..|].
  set (x := next_value _ _ _ _) in *. clearbody x.
  destruct (bounded_direction lo hi cur x) as [H3 H4]; [lia..|done|].
  split; [apply bounded_range; done || lia|]. split; intros; [apply H3, H1|apply H4, H2]; lia.
Qed.

Lemma upgraded_burn_moves n s : terms_ok n s ->
  moves s n (get_min_burn_as_u64 n s) (get_max_burn_as_u64 n s) (get_burn_as_u64 n s)
    (upgraded_burn n (get_burn_as_u64 n s) (get_registrations_this_interval n s)
       (get_target_registrations_per_interval n s) s).
Proof using FL. intros H. destruct H eqn:E. by apply bounded_moves. Qed.

Lemma upgraded_difficulty_moves n s : terms_ok n s ->
  moves s n (get_min_difficulty n s) (get_max_difficulty n s) (get_difficulty_as_u64 n s)
    (upgraded_difficulty n (get_difficulty_as_u64 n s) (get_registrations_this_interval n s)
       (get_target_registrations_per_interval n s) s).
Proof using FL. intros H. destruct H eqn:E. by apply bounded_moves. Qed.

Ltac terms_read :=
  unfold set_difficulty, set_burn, set_registrations_this_block, set_burn_registrations_this_interval,
    set_pow_registrations_this_interval, set_registrations_this_interval, set_last_adjustment_block,
    get_burn_as_u64, get_min_burn_as_u64, get_max_burn_as_u64, get_difficulty_as_u64, get_min_difficulty,
    get_max_difficulty, get_adjustment_alpha, get_registrations_this_interval,
    get_pow_registrations_this_interval, get_burn_registrations_this_interval,
    get_target_registrations_per_interval, get_adjustment_interval, get_last_adjustment_block,
    get_registrations_this_block in *;
  unfold deposit_event; st_read.

Lemma adjust_terms_moved n s : terms_ok n s ->
  terms_ok n (adjust_terms n s) /\ terms_moved n s (adjust_terms n s).
Proof using FL.
  intros Hok. pose proof (upgraded_burn_moves n s Hok) as HB. pose proof (upgraded_difficulty_moves n s Hok) as HD.
  destruct Hok as [? ? ? ? ? ? ?]. unfold adjust_terms. cbv zeta.
  assert (Ed : forall v c r t, upgraded_difficulty n c r t (set_burn n v s) = upgraded_difficulty n c r t s).
  { intros. unfold upgraded_difficulty. by terms_read. }
  rewrite !Ed. clear Ed. set (B := upgraded_burn _ _ _ _ _) in *. set (D := upgraded_difficulty _ _ _ _ _) in *.
  clearbody B D. destruct HB as (HB1 & HB2 & HB3), HD as (HD1 & HD2 & HD3).
  repeat match goal with |- context [?a <? ?b] => destruct (Z.ltb_spec a b) end;
    split; split; terms_read; lia.
Qed.

(** One network over one block. *)
Definition adjusted (n : Z) (s s' : St) : Prop :=
  get_registrations_this_block n s' = 0 /\
  if interval_over n s
  then terms_moved n s s' /\ get_last_adjustment_block n s' = get_current_block_as_u64 s /\
    get_registrations_this_interval n s' = 0 /\ get_pow_registrations_this_interval n s' = 0 /\
    get_burn_registrations_this_interval n s' = 0
  else forall i, i <> NetNum.RegistrationsThisBlock -> get_net i n s' = get_net i n s.

Lemma adjust_network_spec n s : terms_ok n s ->
  terms_ok n (adjust_network s n) /\ adjusted n s (adjust_network s n).
Proof using FL.
  intros Hok. pose proof (adjust_terms_moved n s Hok) as [H1 H2]. unfold adjust_network, adjusted, interval_over.
  cbv zeta. set (s1 := adjust_terms n s) in *. clearbody s1. destruct (_ <=? _).
  - destruct H1, H2. split; [split; terms_read; (lia || done)|]. split; [by terms_read|].
    split; [split; terms_read; done|]. unfold get_last_adjustment_block. terms_read. done.
  - destruct Hok. split; [split; terms_read; done|]. split; [by terms_read|].
    intros i Hi. unfold set_registrations_this_block. rewrite get_put_net, decide_False by naive_solver. done.
Qed.

Lemma adjust_fold_others m l s : m ∉ l -> same_net m s (foldl adjust_network s l).
Proof using.
  revert s. induction l as [|n l IH]; intros s Hm; cbn [foldl]; [by split|].
  rewrite not_elem_of_cons in Hm. destruct Hm as [Hn Hm].
  exact (same_net_trans m s _ _ (adjust_others n m s ltac:(congruence)) (IH _ Hm)).
Qed.

Lemma netuids_NoDup s : NoDup (get_all_subnet_netuids s).
Proof using.
  unfold get_all_subnet_netuids. rewrite iter_prefix_perm. apply NoDup_fst_map_to_list.
Qed.

Lemma same_net_terms_ok n s s' : same_net n s s' -> terms_ok n s -> terms_ok n s'.
Proof using.
  intros [E _] [? ? ? ? ? ? ?].
  split; unfold get_burn_as_u64, get_min_burn_as_u64, get_max_burn_as_u64, get_difficulty_as_u64, get_min_difficulty,
    get_max_difficulty, get_adjustment_alpha, get_registrations_this_interval,
    get_target_registrations_per_interval in *; rewrite !E; done.
Qed.

Lemma same_net_adjusted n s1 s2 s1' s2' : same_net n s1 s2 -> same_net n s1' s2' ->
  adjusted n s1 s1' -> adjusted n s2 s2'.
Proof using.
  intros [E1 B1] [E2 B2] [Ha Hb]. unfold adjusted, interval_over in *.
  unfold get_registrations_this_block, get_last_adjustment_block, get_adjustment_interval,
    get_pow_registrations_this_interval, get_burn_registrations_this_interval,
    get_registrations_this_interval in *. rewrite !E1, !E2, !B1.
  split; [done|]. destruct (_ <=? _); [|intros i Hi; rewrite E1, E2; auto].
  destruct Hb as [[Hm Hf] Hb]. split; [|done].
  split; unfold get_burn_as_u64, get_difficulty_as_u64, get_target_registrations_per_interval,
    get_pow_registrations_this_interval, get_burn_registrations_this_interval,
    get_registrations_this_interval in *; rewrite !E1, !E2; done.
Qed.

Lemma adjust_spec n s : terms_ok n s ->
  terms_ok n (adjust_registration_terms_for_networks s) /\
  (n ∈ get_all_subnet_netuids s -> adjusted n s (adjust_registration_terms_for_networks s)) /\
  (n ∉ get_all_subnet_netuids s -> same_net n s (adjust_registration_terms_for_networks s)).
Proof using FL.
  intros Hok. unfold adjust_registration_terms_for_networks. pose proof (netuids_NoDup s) as Hnd.
  destruct (decide (n ∈ get_all_subnet_netuids s)) as [Hn|Hn].
  - apply list_elem_of_split in Hn as Hs. destruct Hs as (l1 & l2 & E). rewrite E in Hnd |- *.
    apply NoDup_app in Hnd as (_ & Hd & [Hl2 _]%NoDup_cons).
    rewrite foldl_app. cbn [foldl]. set (s1 := foldl adjust_network s l1).
    assert (H1 : same_net n s s1) by (apply adjust_fold_others; set_solver).
    pose proof (same_net_terms_ok n s s1 H1 Hok) as Hok1. apply adjust_network_spec in Hok1 as [Hok2 Ha].
    pose proof (adjust_fold_others n l2 (adjust_network s1 n) Hl2) as H2.
    split; [by apply (same_net_terms_ok n _ _ H2)|]. split; [|set_solver]. intros _.
    eapply same_net_adjusted; [|exact H2|exact Ha]. destruct H1 as [E1 E2]. split; congruence.
  - pose proof (adjust_fold_others n _ s Hn) as H. split; [by apply (same_net_terms_ok n s)|]. done.
Qed.

(** Burn and difficulty stay within their bounds: on every subnet, running
    the adjustment of any block keeps the burn between the minimum and the
    maximum burn, the difficulty between the minimum and the maximum
    difficulty, and the counters within their widths. *)
Theorem registration_terms_stay_bounded (n : Z) (s : St) :
  terms_ok n s -> terms_ok n (adjust_registration_terms_for_networks s).
Proof using FL. intros H. by apply adjust_spec. Qed.

(** C35: Registration terms follow demand, on a subnet whose target is positive and
    whose burn and difficulty are within their limits ([terms_ok], which the
    adjustment keeps). When the adjustment interval of the subnet is over, burn and
    difficulty do not fall if there were more registrations than the target and do not
    rise otherwise; only the one that the registrations of the majority call for
    moves; the counters are drained and the interval restarts. Before that nothing but
    the counter of the block changes. (With a target of zero the burn falls whatever
    the demand, see [no_target_burn_falls], and a limit set below the current burn
    pulls it down.) *)
Theorem registration_terms_follow_demand (n : Z) (s : St) :
  terms_ok n s -> n ∈ get_all_subnet_netuids s -> adjusted n s (adjust_registration_terms_for_networks s).
Proof using FL. intros H. by apply adjust_spec. Qed.

(** ** Epochs *)

Lemma until_epoch n tempo b : 0 <= n -> 0 < tempo <= U16_MAX -> 0 <= b -> b + n + 1 < 2 ^ 64 ->
  blocks_until_next_epoch n tempo b = tempo - (b + n + 1) mod (tempo + 1).
Proof using.
  intros Hn Ht Hb Hs. unfold blocks_until_next_epoch. rewrite (proj2 (Z.eqb_neq tempo 0)) by lia.
  rewrite !sat_add_le by lia. rewrite (Z.mod_small (b + (n + 1))) by lia.
  replace (b + (n + 1)) with (b + n + 1) by lia. apply sat_sub_le.
  pose proof (Z.mod_pos_bound (b + n + 1) (tempo + 1)). lia.
Qed.

(** Epochs run on time. From any block on, among the next [tempo + 1]
    blocks there is exactly one at which the epoch of a subnet with that tempo
    runs, and [blocks_until_next_epoch] says which. (Blocks far from the end of
    their type, where the adjusted block number does not wrap around.) *)
Theorem epoch_runs_once_per_tempo (n b : Z) (s : St) :
  0 <= n -> 0 < get_tempo n s <= U16_MAX -> 0 <= b -> b + get_tempo n s + n + 1 < 2 ^ 64 ->
  0 <= blocks_until_next_epoch n (get_tempo n s) b <= get_tempo n s /\
  forall k, 0 <= k <= get_tempo n s ->
    should_run_epoch n (b + k) s = true <-> k = blocks_until_next_epoch n (get_tempo n s) b.
Proof using.
  intros Hn Ht Hb Hs. set (t := get_tempo n s) in *. rewrite until_epoch by lia.
  pose proof (Z.mod_pos_bound (b + n + 1) (t + 1)) as Hm. split; [lia|]. intros k Hk.
  unfold should_run_epoch. fold t. rewrite until_epoch, Z.eqb_eq by lia.
  pose proof (Z.div_mod (b + n + 1) (t + 1)) as H1. pose proof (Z.div_mod (b + k + n + 1) (t + 1)) as H2.
  pose proof (Z.mod_pos_bound (b + k + n + 1) (t + 1)) as Hm2.
  set (q1 := (b + n + 1) / (t + 1)) in *. set (q2 := (b + k + n + 1) / (t + 1)) in *.
  assert (Hq : q2 = q1 \/ q2 = q1 + 1) by nia.
  destruct Hq as [-> | ->]; split; intros; nia.
Qed.
End BlockStep.
