(* ===== verification/EpochMath.v ===== *)
(** * Vectors of weights (src/pallets/subtensor/src/epoch/math.rs)

    The functions of math.rs that setting weights needs: scaling a vector so
    that its largest entry becomes [u16::MAX], and comparing the largest entry
    of the normalised vector with a limit. Numbers are [I32F32]. *)

From S2P Require Import Prelude Fixed.
From stdpp Require Import prelude list.
From Stdlib Require Import ZArith Lia.
#[local] Open Scope Z_scope.

Abbreviation ONE32 := (unit_ I32F32).

(** [iter().max()] *)
Definition vec_max (vec : list Z) : option Z :=
  match vec with [] => None | x :: vec => Some (foldl Z.max x vec) end.

Lemma vec_max_Some vec m : vec_max vec = Some m -> m ∈ vec /\ forall x, x ∈ vec -> x <= m.
Proof.
  destruct vec as [|a vec]; [done|]. cbn. intros [= <-].
  revert a. induction vec as [|b vec IH]; intros a; cbn.
  - split; [set_solver|]. intros x. rewrite list_elem_of_singleton. lia.
  - destruct (IH (Z.max a b)) as [Hin Hle]. split.
    + apply elem_of_cons in Hin as [->|Hin]; [|set_solver].
      destruct (Z.max_spec a b) as [[_ ->]|[_ ->]]; set_solver.
    + intros x. rewrite !elem_of_cons.
      assert (Z.max a b <= foldl Z.max (Z.max a b) vec) by (apply Hle; set_solver).
      intros [->|[->|Hx]]; [lia|lia|]. apply Hle. set_solver.
Qed.

Lemma vec_max_scaled vec m : vec_max vec = Some m ->
  vec_max (map (fun x => x * ONE32) vec) = Some (m * ONE32).
Proof.
  destruct vec as [|a vec]; [done|]. cbn [vec_max map]. intros [= <-]. f_equal.
  revert a. induction vec as [|b vec IH]; intros a; cbn; [done|].
  rewrite <- IH. f_equal. pose proof (unit_pos I32F32).
  by apply Z.mul_max_distr_nonneg_r, Z.lt_le_incl.
Qed.

(** The upscaled entry [x] of a vector whose largest entry is [m]. *)
Definition upscaled (m x : Z) : Z :=
  if m =? 0 then 0
  else if 32768 <? m then (x * (U16_MAX * ONE32 / m) + ONE32 / 2) / ONE32
  else (x * U16_MAX * ONE32 / m + ONE32 / 2) / ONE32.

Lemma upscaled_bound m x : 0 <= x <= m -> m <= U16_MAX -> 0 <= upscaled m x <= U16_MAX.
Proof.
  intros Hx Hm. unfold upscaled. pose proof (unit_pos I32F32).
  destruct (Z.eqb_spec m 0); [lia|]. change ONE32 with 4294967296 in *.
  destruct (Z.ltb_spec 32768 m).
  - pose proof (Z.mul_div_le (U16_MAX * 4294967296) m ltac:(lia)).
    assert (0 <= U16_MAX * 4294967296 / m) by (apply Z.div_pos; lia).
    change (4294967296 / 2) with 2147483648. set (q := U16_MAX * 4294967296 / m) in *. clearbody q.
    assert (0 <= x * q <= m * q) by nia. split; [apply Z.div_pos; lia|].
    apply Z.lt_succ_r, Z.div_lt_upper_bound; lia.
  - assert (0 <= x * U16_MAX * 4294967296 / m <= U16_MAX * 4294967296).
    { split; [apply Z.div_pos; nia|]. apply Z.div_le_upper_bound; nia. }
    change (4294967296 / 2) with 2147483648.
    split; [apply Z.div_pos; lia|]. apply Z.lt_succ_r, Z.div_lt_upper_bound; lia.
Qed.

Lemma upscaled_mono m x y : 0 <= x <= y -> 0 <= m <= U16_MAX -> upscaled m x <= upscaled m y.
Proof.
  intros Hx Hm. unfold upscaled. pose proof (unit_pos I32F32). destruct (Z.eqb_spec m 0); [lia|].
  destruct (Z.ltb_spec 32768 m); apply Z.div_le_mono; [lia| |lia|]; apply Z.add_le_mono_r.
  - assert (0 <= U16_MAX * ONE32 / m) by (apply Z.div_pos; lia). nia.
  - apply Z.div_le_mono; nia.
Qed.

Lemma upscaled_max m : 0 < m <= U16_MAX -> upscaled m m = U16_MAX.
Proof.
  intros Hm. pose proof (upscaled_bound m m ltac:(lia) ltac:(lia)). unfold upscaled in *.
  destruct (Z.eqb_spec m 0); [lia|]. change ONE32 with 4294967296 in *.
  enough (U16_MAX <= (if 32768 <? m then (m * (U16_MAX * 4294967296 / m) + 4294967296 / 2) / 4294967296
    else (m * U16_MAX * 4294967296 / m + 4294967296 / 2) / 4294967296)) by lia.
  change (4294967296 / 2) with 2147483648.
  destruct (Z.ltb_spec 32768 m); apply Z.div_le_lower_bound; try lia.
  - pose proof (Z.div_mod (U16_MAX * 4294967296) m ltac:(lia)).
    pose proof (Z.mod_pos_bound (U16_MAX * 4294967296) m ltac:(lia)). lia.
  - replace (m * U16_MAX * 4294967296) with (U16_MAX * 4294967296 * m) by ring.
    rewrite Z.div_mul by lia. lia.
Qed.

Lemma upscaled_zero m : 0 <= m <= U16_MAX -> upscaled m 0 = 0.
Proof.
  intros Hm. unfold upscaled. destruct (Z.eqb_spec m 0); [done|].
  rewrite !Z.mul_0_l, Z.div_0_l by lia. destruct (_ <? _); reflexivity.
Qed.

Section EpochMath.
Context {F : SubstrateFixed}.
Implicit Types (vec : list Z).

Definition vec_max_upscale_to_u16 (vec : list Z) : list Z :=
  let u16_max := from_num I32F32 U16_MAX in
  let threshold := from_num I32F32 32768 in
  match vec_max vec with
  | Some val =>
      if val =? from_num I32F32 0 then
        map (fun e => to_num I32F32 u16 (saturating_mul I32F32 e u16_max)) vec
      else if threshold <? val then
        map (fun e => to_num I32F32 u16
          (round I32F32 (saturating_mul I32F32 e (safe_div I32F32 u16_max val)))) vec
      else
        map (fun e => to_num I32F32 u16
          (round I32F32 (safe_div I32F32 (saturating_mul I32F32 e u16_max) val))) vec
  | None =>
      let sum_ := sum I32F32 vec in
      map (fun e => to_num I32F32 u16 (safe_div I32F32 (saturating_mul I32F32 e u16_max) sum_)) vec
  end.

Definition vec_u16_max_upscale_to_u16 (vec : list Z) : list Z :=
  vec_max_upscale_to_u16 (map (from_num I32F32) vec).

Definition inplace_normalize (x : list Z) : list Z :=
  let x_sum := sum I32F32 x in
  if x_sum =? from_num I32F32 0 then x
  else map (fun value => safe_div I32F32 value x_sum) x.

Definition check_vec_max_limited (vec : list Z) (max_limit : Z) : bool :=
  let max_limit_fixed := safe_div I32F32 (from_num I32F32 max_limit) (from_num I32F32 U16_MAX) in
  let vec_fixed := inplace_normalize (map (from_num I32F32) vec) in
  match vec_max vec_fixed with
  | Some v => v <=? max_limit_fixed
  | None => true
  end.

(** ** Upscaling *)
Context {FL : SubstrateFixedLaws}.

Lemma whole_i32 x : 0 <= x <= 2 ^ 31 - 1 -> from_num I32F32 x = x * ONE32 /\ fixed_range I32F32 (x * ONE32).
Proof using FL.
  intros Hx. assert (x * ONE32 <= max_bits I32F32).
  { transitivity ((2 ^ 31 - 1) * ONE32); [|vm_compute; congruence].
    apply Z.mul_le_mono_nonneg_r; [apply Z.lt_le_incl, unit_pos|lia]. }
  pose proof (unit_pos I32F32). split; [apply from_num_exact; lia|apply fixed_range_pos; nia].
Qed.

(** Rounding the number [y] between 0 and [u16::MAX]. *)
Lemma round_to_u16 y : 0 <= y <= U16_MAX * ONE32 ->
  to_num I32F32 u16 (round I32F32 y) = (y + ONE32 / 2) / ONE32.
Proof using FL.
  intros Hy. change ONE32 with 4294967296 in *. change (4294967296 / 2) with 2147483648.
  assert (Hq : 0 <= (y + 2147483648) / 4294967296 <= U16_MAX).
  { split; [apply Z.div_pos; lia|]. apply Z.lt_succ_r, Z.div_lt_upper_bound; lia. }
  assert (Ry : fixed_range I32F32 y) by (apply fixed_range_pos; change (max_bits I32F32) with (2 ^ 63 - 1); lia).
  rewrite round_spec; [|done|lia|change ONE32 with 4294967296; change (max_bits I32F32) with (2 ^ 63 - 1);
    change (4294967296 / 2) with 2147483648; lia].
  change (unit_ I32F32) with 4294967296. change (4294967296 / 2) with 2147483648.
  rewrite to_num_spec; change (unit_ I32F32) with 4294967296.
  - rewrite Z.div_mul by lia. unfold clamp. change (int_min u16) with 0. change (int_max u16) with U16_MAX. lia.
  - apply fixed_range_pos. change (max_bits I32F32) with (2 ^ 63 - 1). lia.
  - lia.
Qed.

(** The three branches of [vec_max_upscale_to_u16] on one entry. *)
Lemma upscale_entry m x : 0 <= x <= m -> 0 < m <= U16_MAX ->
  to_num I32F32 u16 (round I32F32
    (if 32768 <? m
     then saturating_mul I32F32 (x * ONE32) (safe_div I32F32 (U16_MAX * ONE32) (m * ONE32))
     else safe_div I32F32 (saturating_mul I32F32 (x * ONE32) (U16_MAX * ONE32)) (m * ONE32)))
  = upscaled m x.
Proof using FL.
  intros Hx Hm. pose proof (unit_pos I32F32) as Hu. unfold upscaled.
  rewrite (proj2 (Z.eqb_neq m 0)) by lia.
  destruct (whole_i32 x) as [_ Rx]; [lia|]. destruct (whole_i32 m) as [_ Rm]; [lia|].
  destruct (whole_i32 U16_MAX) as [_ RU]; [lia|].
  assert (Hmax : U16_MAX * ONE32 <= max_bits I32F32) by (vm_compute; congruence).
  destruct (Z.ltb_spec 32768 m).
  - assert (E : U16_MAX * ONE32 * ONE32 / (m * ONE32) = U16_MAX * ONE32 / m) by (apply Z.div_mul_cancel_r; lia).
    assert (Hq : 0 <= U16_MAX * ONE32 / m <= U16_MAX * ONE32).
    { split; [apply Z.div_pos; lia|]. apply Z.div_le_upper_bound; nia. }
    assert (Hxq : 0 <= x * (U16_MAX * ONE32 / m) <= U16_MAX * ONE32).
    { pose proof (Z.mul_div_le (U16_MAX * ONE32) m ltac:(lia)). nia. }
    rewrite safe_div_spec, E by (done || lia || nia).
    rewrite mul_spec by (done || lia || nia || apply fixed_range_pos; lia).
    replace (x * ONE32 * (U16_MAX * ONE32 / m)) with (x * (U16_MAX * ONE32 / m) * ONE32) by ring.
    rewrite Z.div_mul, saturate_id by (lia || apply fixed_range_pos; lia). by apply round_to_u16.
  - assert (Hprod : x * U16_MAX * ONE32 <= max_bits I32F32).
    { transitivity (32768 * U16_MAX * ONE32); [nia|vm_compute; congruence]. }
    assert (E : x * U16_MAX * ONE32 * ONE32 / (m * ONE32) = x * U16_MAX * ONE32 / m) by (apply Z.div_mul_cancel_r; lia).
    assert (Hq : 0 <= x * U16_MAX * ONE32 / m <= U16_MAX * ONE32).
    { split; [apply Z.div_pos; nia|]. apply Z.div_le_upper_bound; nia. }
    rewrite mul_exact by (lia || apply Rx). rewrite safe_div_spec, E by (done || lia || nia || apply fixed_range_pos; nia).
    by apply round_to_u16.
Qed.

Lemma upscale_eq vec m : Forall (fun x => 0 <= x <= U16_MAX) vec -> vec_max vec = Some m ->
  vec_u16_max_upscale_to_u16 vec = map (upscaled m) vec.
Proof using FL.
  intros Hvec Hm. rewrite Forall_forall in Hvec. destruct (vec_max_Some _ _ Hm) as [Hin Hle].
  pose proof (Hvec m Hin) as Hmr. pose proof (unit_pos I32F32).
  assert (E : map (from_num I32F32) vec = map (fun x => x * ONE32) vec).
  { apply map_ext_in. intros x Hx%list_elem_of_In. apply whole_i32. pose proof (Hvec x Hx). lia. }
  unfold vec_u16_max_upscale_to_u16, vec_max_upscale_to_u16. rewrite E, (vec_max_scaled _ _ Hm).
  destruct (whole_i32 U16_MAX) as [-> RU]; [lia|]. destruct (whole_i32 32768) as [-> _]; [lia|].
  rewrite from_num_0.
  assert (Hb : forall x, x ∈ vec -> 0 <= x <= m) by (intros x Hx; pose proof (Hvec x Hx); pose proof (Hle x Hx); lia).
  destruct (Z.eqb_spec (m * ONE32) 0).
  - assert (m = 0) as -> by nia. rewrite map_map. apply map_ext_in. intros x Hx%list_elem_of_In.
    pose proof (Hb x Hx). replace x with 0 by lia. rewrite (upscaled_zero 0), mul_exact by (done || vm_compute; congruence).
    rewrite to_num_spec by (done || apply fixed_range_pos; pose proof (min_max I32F32); lia). reflexivity.
  - replace (32768 * ONE32 <? m * ONE32) with (32768 <? m)
      by (destruct (Z.ltb_spec 32768 m), (Z.ltb_spec (32768 * ONE32) (m * ONE32)); nia || done).
    assert (Hx : forall x, x ∈ vec -> 0 <= x <= m /\ 0 < m <= U16_MAX) by (intros x Hx; pose proof (Hb x Hx); nia).
    destruct (32768 <? m) eqn:Em; rewrite map_map; apply map_ext_in; intros x [Hx1 Hx2]%list_elem_of_In%Hx;
      rewrite <- upscale_entry by done; by rewrite Em.
Qed.

Lemma upscaled_u16s vec m : Forall (fun x => 0 <= x <= U16_MAX) vec -> vec_max vec = Some m ->
  Forall (fun x => 0 <= x <= U16_MAX) (map (upscaled m) vec).
Proof using.
  intros Hvec Em. rewrite Forall_forall in Hvec. destruct (vec_max_Some _ _ Em) as [Hin Hle].
  apply Forall_forall. intros y Hy%list_elem_of_In%in_map_iff. destruct Hy as (x & <- & Hx%list_elem_of_In).
  pose proof (Hvec m Hin). pose proof (Hvec x Hx). pose proof (Hle x Hx). apply upscaled_bound; lia.
Qed.

(** Max-upscaling keeps the shape of a weight vector. Every entry stays a
    [u16]; the largest entry, unless the vector is all zeros, becomes
    [u16::MAX]; entries keep their order; zero stays zero; and the length is
    the same. *)
Theorem upscale_keeps_shape (vec : list Z) :
  Forall (fun x => 0 <= x <= U16_MAX) vec ->
  let up := vec_u16_max_upscale_to_u16 vec in
  length up = length vec /\ Forall (fun x => 0 <= x <= U16_MAX) up /\
  (forall i x y, vec !! i = Some x -> up !! i = Some y ->
     (x = 0 -> y = 0) /\ (vec_max vec = Some x -> 0 < x -> y = U16_MAX) /\
     forall j x' y', vec !! j = Some x' -> up !! j = Some y' -> x <= x' -> y <= y').
Proof using FL.
  intros Hvec up. destruct (vec_max vec) as [m|] eqn:Em; [|by destruct vec].
  subst up. rewrite (upscale_eq vec m Hvec Em). rewrite Forall_forall in Hvec.
  destruct (vec_max_Some _ _ Em) as [Hin Hle]. pose proof (Hvec m Hin) as Hm.
  split; [apply length_map|]. split; [apply upscaled_u16s; [by rewrite Forall_forall|done]|].
  intros i x y Hx. change (map (upscaled m) vec) with (upscaled m <$> vec). rewrite list_lookup_fmap, Hx. intros [= <-].
  split; [intros ->; by apply upscaled_zero|]. split; [intros [= ->] ?; apply upscaled_max; lia|].
  intros j x' y' Hx'. rewrite list_lookup_fmap, Hx'. intros [= <-] Hxx.
  apply upscaled_mono; [|done]. pose proof (Hvec x (list_elem_of_lookup_2 _ _ _ Hx)). lia.
Qed.
End EpochMath.
