(* ===== verification/Weights.v ===== *)
(** * Setting weights (src/pallets/subtensor/src/subnets/weights.rs)

    A neuron sets its weights directly, or, when commit-reveal is enabled on the
    subnet, commits to a hash of them first and reveals them in the epoch that
    is the reveal period later. Time-locked commits (CRV3) are revealed by the
    chain itself at the start of an epoch ([reveal_crv3_commits] of
    coinbase/run_coinbase.rs). *)

From S2P Require Import Prelude Frame Fixed SharePool Storage Misc Uids Reserves Children Staking StakeWeights.
From S2P Require Import BlockStep EpochMath.
From stdpp Require Import prelude gmap list fin_maps sorting.
From Stdlib Require Import ZArith Lia.
#[local] Open Scope Z_scope.
#[local] Open Scope monad_scope.

Record WeightsTlockPayload : Type := mkPayload {
  payload_uids : list Z;
  payload_values : list Z;
  version_key : Z;
}.

(** What comes from outside the repository: BLAKE2 over the encoding of a
    reveal and of a commit, the beacon pulses of the drand pallet, and
    time-lock decryption. *)
Class WeightsEnv {FS : FrameSystem} (W : Type) := {
  hash_of_reveal : AccountId * Z * list Z * list Z * list Z * Z -> H256;
  hash_of_bytes : Bytes -> H256;
  pulse_signature : W -> Z -> option Bytes;
  Ciphertext : Type;
  Signature : Type;
  deserialize_commit : Bytes -> option Ciphertext;
  deserialize_signature : Bytes -> option Signature;
  tld : Ciphertext -> Signature -> option Bytes;
  decode_payload : Bytes -> option WeightsTlockPayload;
}.

(** A payload decodes to [u16] uids and values. *)
Class WeightsEnvLaws {FS : FrameSystem} (W : Type) {WE : WeightsEnv W} := {
  decode_payload_typed bytes p : decode_payload bytes = Some p ->
    Forall (fun x => 0 <= x <= U16_MAX) (payload_values p);
}.

(** A commit: its hash, its block, and the first and last block to reveal it. *)
Abbreviation Commit := (H256 * Z * Z * Z)%type.
Definition commit_hash (c : Commit) : H256 := c.1.1.1.
Definition commit_block (c : Commit) : Z := c.1.1.2.

Section Weights.
Context {FS : FrameSystem} {Cfg : SubtensorConfig} {SI : StorageIter} {W : Type}.
Context {Env : SubtensorEnv W} {F : SubstrateFixed} {WE : WeightsEnv W}.
Abbreviation St := (Storage W).
Implicit Types (s : St) (netuid uid : Z) (uids values : list Z).

(** ** Helper functions *)

Definition check_version_key (netuid version_key : Z) (s : St) : bool :=
  let network_version_key := get_net NetNum.WeightsVersionKey netuid s in
  (network_version_key =? 0) || (network_version_key <=? version_key).

Definition check_rate_limit (netuid neuron_uid current_block : Z) (s : St) : bool :=
  if is_uid_exist_on_network netuid neuron_uid s then
    let last_set_weights := get_last_update_for_uid netuid neuron_uid s in
    if last_set_weights =? 0 then true
    else get_weights_set_rate_limit netuid s <=? sat_sub current_block last_set_weights
  else false.

Definition contains_invalid_uids (netuid : Z) (uids : list Z) (s : St) : bool :=
  existsb (fun uid => negb (is_uid_exist_on_network netuid uid s)) uids.

Definition uids_match_values (uids values : list Z) : bool := (length uids =? length values)%nat.

(** The loop with the vector [parsed] of the items seen. *)
Fixpoint duplicate_loop (parsed items : list Z) : bool :=
  match items with
  | [] => false
  | item :: items => if bool_decide (item ∈ parsed) then true else duplicate_loop (parsed ++ [item]) items
  end.
Definition has_duplicate_uids (items : list Z) : bool := duplicate_loop [] items.

Definition is_self_weight (uid : Z) (uids weights : list Z) : bool :=
  if negb (length weights =? 1)%nat then false
  else match uids with [] => false | first_uid :: _ => uid =? first_uid end.

Definition check_validator_permit (netuid uid : Z) (uids weights : list Z) (s : St) : bool :=
  if is_self_weight uid uids weights then true else get_validator_permit_for_uid netuid uid s.

Definition check_length (netuid uid : Z) (uids weights : list Z) (s : St) : bool :=
  let subnet_n := get_subnetwork_n netuid s in
  let min_allowed_length := get_min_allowed_weights netuid s in
  let min_allowed := if subnet_n <? min_allowed_length then subnet_n else min_allowed_length in
  if negb (is_root netuid) && is_self_weight uid uids weights then true
  else min_allowed <=? Z.of_nat (length weights).

Definition normalize_weights (weights : list Z) : list Z :=
  let sum := zsum id weights in
  if sum =? 0 then weights
  else map (fun x => sat_mul U64_MAX x U16_MAX / sum mod 2 ^ 16) weights.

Definition max_weight_limited (netuid uid : Z) (uids weights : list Z) (s : St) : bool :=
  if is_self_weight uid uids weights then true
  else
    let max_weight_limit := get_max_weight_limit netuid s in
    if max_weight_limit =? U16_MAX then true else check_vec_max_limited weights max_weight_limit.

Definition check_len_uids_within_allowed (netuid : Z) (uids : list Z) (s : St) : bool :=
  Z.of_nat (length uids) <=? get_subnetwork_n netuid s.

Definition set_reveal_period (netuid reveal_period : Z) (s : St) : St :=
  deposit_event (Event.CommitRevealPeriodsSet netuid reveal_period)
    (put_net NetNum.RevealPeriodEpochs netuid reveal_period s).
Definition get_reveal_period (netuid : Z) (s : St) : Z := get_net NetNum.RevealPeriodEpochs netuid s.

Definition get_epoch_index (netuid block_number : Z) (s : St) : Z :=
  let tempo := get_tempo netuid s in
  let tempo_plus_one := sat_add U64_MAX tempo 1 in
  let netuid_plus_one := sat_add U64_MAX netuid 1 in
  let block_with_offset := sat_add U64_MAX block_number netuid_plus_one in
  block_with_offset / tempo_plus_one.

Definition is_reveal_block_range (netuid commit_block : Z) (s : St) : bool :=
  let current_block := get_current_block_as_u64 s in
  let commit_epoch := get_epoch_index netuid commit_block s in
  let current_epoch := get_epoch_index netuid current_block s in
  let reveal_period := get_reveal_period netuid s in
  current_epoch =? sat_add U64_MAX commit_epoch reveal_period.

Definition is_commit_expired (netuid commit_block : Z) (s : St) : bool :=
  let current_block := get_current_block_as_u64 s in
  let current_epoch := get_epoch_index netuid current_block s in
  let commit_epoch := get_epoch_index netuid commit_block s in
  let reveal_period := get_reveal_period netuid s in
  sat_add U64_MAX commit_epoch reveal_period <? current_epoch.

Definition get_reveal_blocks (netuid commit_block : Z) (s : St) : Z * Z :=
  let reveal_period := get_reveal_period netuid s in
  let tempo := get_tempo netuid s in
  let tempo_plus_one := sat_add U64_MAX tempo 1 in
  let netuid_plus_one := sat_add U64_MAX netuid 1 in
  let commit_epoch := get_epoch_index netuid commit_block s in
  let reveal_epoch := sat_add U64_MAX commit_epoch reveal_period in
  let first_reveal_block := sat_sub (sat_mul U64_MAX reveal_epoch tempo_plus_one) netuid_plus_one in
  let last_reveal_block := sat_add U64_MAX first_reveal_block tempo in
  (first_reveal_block, last_reveal_block).

(** ** Setting weights *)

Definition do_set_weights (origin : Origin) (netuid : Z) (uids values : list Z) (version_key : Z)
    : Pm W unit :=
  let* hotkey := ext (ensure_signed origin) in
  let* s := gets id in
  check (negb (is_root netuid)) Error.CanNotSetRootNetworkWeights ;;
  check (uids_match_values uids values) Error.WeightVecNotEqualSize ;;
  check (if_subnet_exist netuid s) Error.SubNetworkDoesNotExist ;;
  check (check_len_uids_within_allowed netuid uids s) Error.UidsLengthExceedUidsInSubNet ;;
  check (is_hotkey_registered_on_network netuid hotkey s) Error.HotKeyNotRegisteredInSubNet ;;
  check (check_weights_min_stake hotkey netuid s) Error.NotEnoughStakeToSetWeights ;;
  check (check_version_key netuid version_key s) Error.IncorrectWeightVersionKey ;;
  let* neuron_uid := lift (get_uid_for_net_and_hotkey netuid hotkey s) in
  let current_block := get_current_block_as_u64 s in
  (if negb (get_commit_reveal_weights_enabled netuid s)
   then check (check_rate_limit netuid neuron_uid current_block s) Error.SettingWeightsTooFast
   else ret tt) ;;
  check (check_validator_permit netuid neuron_uid uids values s) Error.NeuronNoValidatorPermit ;;
  check (negb (has_duplicate_uids uids)) Error.DuplicateUids ;;
  check (negb (contains_invalid_uids netuid uids s)) Error.UidVecContainInvalidOne ;;
  check (check_length netuid neuron_uid uids values s) Error.WeightVecLengthIsLow ;;
  let max_upscaled_weights := vec_u16_max_upscale_to_u16 values in
  check (max_weight_limited netuid neuron_uid uids max_upscaled_weights s) Error.MaxWeightExceeded ;;
  let zipped_weights := zip uids max_upscaled_weights in
  modify (fun s => s <| Weights ::= <[(netuid, neuron_uid) := zipped_weights]> |>) ;;
  modify (fun s => if negb (get_commit_reveal_weights_enabled netuid s)
                   then set_last_update_for_uid netuid neuron_uid current_block s else s) ;;
  modify (deposit_event (Event.WeightsSet netuid neuron_uid)).

Definition set_weights (origin : Origin) (netuid : Z) (dests weights : list Z) (version_key : Z)
    : Pm W unit :=
  let* enabled := gets (get_commit_reveal_weights_enabled netuid) in
  if enabled : bool then throw Error.CommitRevealEnabled
  else do_set_weights origin netuid dests weights version_key.

(** An item of a batch: its error is kept and the batch goes on. Neither
    [do_set_weights] nor [do_commit_weights] writes anything before its last
    step that can fail, so a failed item leaves no trace. *)
Definition attempt (m : Pm W unit) : Pm W (option (error Error.Error)) := fun s =>
  match m s with Ok (_, s') => Ok (None, s') | Err e => Ok (Some e, s) end.

Fixpoint attempt_all (items : list (Pm W unit)) : Pm W (list (option (error Error.Error))) :=
  match items with
  | [] => ret []
  | m :: items =>
      let* r := attempt m in
      let* rs := attempt_all items in
      ret (r :: rs)
  end.

(** The loop that reports the errors of a batch. *)
Definition report_results (results : list (option (error Error.Error))) (s : St) : St :=
  (foldl (fun '(completed_with_errors, s) result =>
     match result with
     | None => (completed_with_errors, s)
     | Some err =>
         let s := if negb completed_with_errors then deposit_event Event.BatchCompletedWithErrors s else s in
         (true, deposit_event (Event.BatchWeightItemFailed err) s)
     end) (false, s) results).2.

Definition do_batch_set_weights (origin : Origin) (netuids : list Z)
    (weights : list (list (Z * Z))) (version_keys : list Z) : Pm W unit :=
  let* hotkey := ext (ensure_signed origin) in
  check ((length netuids =? length weights)%nat && (length netuids =? length version_keys)%nat)
    Error.InputLengthsUnequal ;;
  let* results := attempt_all (map (fun '(netuid, w, version_key) =>
      let* enabled := gets (get_commit_reveal_weights_enabled netuid) in
      if enabled : bool then throw Error.CommitRevealEnabled
      else do_set_weights origin netuid (map fst w) (map snd w) version_key)
    (zip (zip netuids weights) version_keys)) in
  modify (report_results results) ;;
  modify (deposit_event (Event.BatchWeightsCompleted netuids hotkey)).

(** ** Commit and reveal *)

(** The loop that pops expired commits off the front of the queue: the hashes
    of those popped, and the rest of the queue. *)
Fixpoint pop_expired (netuid : Z) (s : St) (commits : list Commit) : list H256 * list Commit :=
  match commits with
  | [] => ([], [])
  | c :: rest =>
      if is_commit_expired netuid (commit_block c) s
      then let '(expired_hashes, rest) := pop_expired netuid s rest in (commit_hash c :: expired_hashes, rest)
      else ([], commits)
  end.

Definition put_commits (netuid : Z) (who : AccountId) (commits : list Commit) (s : St) : St :=
  s <| WeightCommits ::= <[(netuid, who) := commits]> |>.

(** [None] when the queue is empty, as [try_mutate_exists] leaves it. *)
Definition put_commits_or_remove (netuid : Z) (who : AccountId) (commits : list Commit) (s : St) : St :=
  match commits with
  | [] => s <| WeightCommits ::= delete (netuid, who) |>
  | _ => put_commits netuid who commits s
  end.

Definition do_commit_weights (origin : Origin) (netuid : Z) (hash : H256) : Pm W unit :=
  let* who := ext (ensure_signed origin) in
  let* s := gets id in
  check (get_commit_reveal_weights_enabled netuid s) Error.CommitRevealDisabled ;;
  check (is_hotkey_registered_on_network netuid who s) Error.HotKeyNotRegisteredInSubNet ;;
  let commit_block := get_current_block_as_u64 s in
  let* neuron_uid := lift (get_uid_for_net_and_hotkey netuid who s) in
  check (check_rate_limit netuid neuron_uid commit_block s) Error.CommittingWeightsTooFast ;;
  let '(first_reveal_block, last_reveal_block) := get_reveal_blocks netuid commit_block s in
  let commits := default [] (WeightCommits s !! (netuid, who)) in
  let commits := (pop_expired netuid s commits).2 in
  check (length commits <? 10)%nat Error.TooManyUnrevealedCommits ;;
  let commits := commits ++ [(hash, commit_block, first_reveal_block, last_reveal_block)] in
  modify (deposit_event (Event.WeightsCommitted who netuid hash)) ;;
  modify (set_last_update_for_uid netuid neuron_uid commit_block) ;;
  modify (put_commits netuid who commits).

Definition do_batch_commit_weights (origin : Origin) (netuids : list Z) (commit_hashes : list H256)
    : Pm W unit :=
  let* hotkey := ext (ensure_signed origin) in
  check (length netuids =? length commit_hashes)%nat Error.InputLengthsUnequal ;;
  let* results := attempt_all
    (map (fun '(netuid, hash) => do_commit_weights origin netuid hash) (zip netuids commit_hashes)) in
  modify (report_results results) ;;
  modify (deposit_event (Event.BatchWeightsCompleted netuids hotkey)).

(** [iter().position(|(hash, ..)| *hash == provided_hash)] *)
Definition find_commit (provided_hash : H256) (commits : list Commit) : option (nat * Commit) :=
  list_find (fun c => commit_hash c = provided_hash) commits.

Definition do_reveal_weights (origin : Origin) (netuid : Z) (uids values salt : list Z) (version_key : Z)
    : Pm W unit :=
  let* who := ext (ensure_signed origin) in
  let* s := gets id in
  check (get_commit_reveal_weights_enabled netuid s) Error.CommitRevealDisabled ;;
  let* commits := lift (ok_or (WeightCommits s !! (netuid, who)) (Module Error.NoWeightsCommitFound)) in
  let '(expired_hashes, commits) := pop_expired netuid s commits in
  let provided_hash := hash_of_reveal (who, netuid, uids, values, salt, version_key) in
  match commits with
  | [] =>
      if bool_decide (provided_hash ∈ expired_hashes) then throw Error.ExpiredWeightCommit
      else throw Error.NoWeightsCommitFound
  | _ =>
    match find_commit provided_hash commits with
    | Some (position, commit) =>
        check (is_reveal_block_range netuid (commit_block commit) s) Error.RevealTooEarly ;;
        let commits := drop (S position) commits in
        do_set_weights origin netuid uids values version_key ;;
        modify (deposit_event (Event.WeightsRevealed who netuid provided_hash)) ;;
        modify (put_commits_or_remove netuid who commits)
    | None =>
        if bool_decide (provided_hash ∈ expired_hashes) then throw Error.ExpiredWeightCommit
        else throw Error.InvalidRevealCommitHashNotMatch
    end
  end.

(** A reveal of a batch: its uids, values, version key and hash. *)
Abbreviation Reveal := (list Z * list Z * Z * H256)%type.

(** Step 7: every reveal is validated against the queue before any is made. *)
Definition validate_reveal (netuid : Z) (expired_hashes : list H256) (commits : list Commit)
    (reveal : Reveal) : Pm W unit :=
  let '(_, _, _, provided_hash) := reveal in
  match find_commit provided_hash commits with
  | None =>
      if bool_decide (provided_hash ∈ expired_hashes) then throw Error.ExpiredWeightCommit
      else throw Error.InvalidRevealCommitHashNotMatch
  | Some (_, commit) =>
      let* s := gets id in
      check (is_reveal_block_range netuid (commit_block commit) s) Error.RevealTooEarly
  end.

(** Step 8: the queue and the hashes revealed after all reveals. *)
Fixpoint reveal_all (origin : Origin) (netuid : Z) (expired_hashes : list H256) (reveals : list Reveal)
    (commits : list Commit) (revealed_hashes : list H256) : Pm W (list Commit * list H256) :=
  match reveals with
  | [] => ret (commits, revealed_hashes)
  | (uids, values, version_key, provided_hash) :: reveals =>
      match find_commit provided_hash commits with
      | Some (position, _) =>
          let commits := delete position commits in
          do_set_weights origin netuid uids values version_key ;;
          reveal_all origin netuid expired_hashes reveals commits (revealed_hashes ++ [provided_hash])
      | None =>
          if bool_decide (provided_hash ∈ expired_hashes) then throw Error.ExpiredWeightCommit
          else throw Error.InvalidRevealCommitHashNotMatch
      end
  end.

Definition do_batch_reveal_weights (origin : Origin) (netuid : Z)
    (uids_list values_list salts_list : list (list Z)) (version_keys : list Z) : Pm W unit :=
  let num_reveals := length uids_list in
  check ((num_reveals =? length values_list)%nat && (num_reveals =? length salts_list)%nat
         && (num_reveals =? length version_keys)%nat) Error.InputLengthsUnequal ;;
  let* who := ext (ensure_signed origin) in
  let* s := gets id in
  check (get_commit_reveal_weights_enabled netuid s) Error.CommitRevealDisabled ;;
  let* commits := lift (ok_or (WeightCommits s !! (netuid, who)) (Module Error.NoWeightsCommitFound)) in
  let '(expired_hashes, commits) := pop_expired netuid s commits in
  let reveals := map (fun '((uids, values), (salt, version_key)) =>
      (uids, values, version_key, hash_of_reveal (who, netuid, uids, values, salt, version_key)))
    (zip (zip uids_list values_list) (zip salts_list version_keys)) in
  for_each reveals (validate_reveal netuid expired_hashes commits) ;;
  let* r := reveal_all origin netuid expired_hashes reveals commits [] in
  let '(commits, revealed_hashes) := r in
  modify (deposit_event (Event.WeightsBatchRevealed who netuid revealed_hashes)) ;;
  modify (put_commits_or_remove netuid who commits).

(** ** Time-locked commits *)

(** The entries of [CRV3WeightCommits] of a subnet at an epoch. *)
Definition crv3_commits (netuid epoch : Z) (s : St) : list (AccountId * Bytes * Z) :=
  default [] (default ∅ (CRV3WeightCommits s !! netuid) !! epoch).
Definition put_crv3_commits (netuid epoch : Z) (l : list (AccountId * Bytes * Z)) (s : St) : St :=
  s <| CRV3WeightCommits ::= fun m => <[netuid := <[epoch := l]> (default ∅ (m !! netuid))]> m |>.
Definition remove_crv3_commits (netuid epoch : Z) (s : St) : St :=
  s <| CRV3WeightCommits ::= fun m => <[netuid := delete epoch (default ∅ (m !! netuid))]> m |>.

Definition do_commit_crv3_weights (origin : Origin) (netuid : Z) (commit : Bytes) (reveal_round : Z)
    : Pm W unit :=
  let* who := ext (ensure_signed origin) in
  let* s := gets id in
  check (get_commit_reveal_weights_enabled netuid s) Error.CommitRevealDisabled ;;
  check (is_hotkey_registered_on_network netuid who s) Error.HotKeyNotRegisteredInSubNet ;;
  let commit_block := get_current_block_as_u64 s in
  let* neuron_uid := lift (get_uid_for_net_and_hotkey netuid who s) in
  check (check_rate_limit netuid neuron_uid commit_block s) Error.CommittingWeightsTooFast ;;
  let cur_block := get_current_block_as_u64 s in
  let cur_epoch :=
    if should_run_epoch netuid commit_block s
    then sat_add U64_MAX (get_epoch_index netuid cur_block s) 1
    else get_epoch_index netuid cur_block s in
  let commits := crv3_commits netuid cur_epoch s in
  let unrevealed_commits_for_who := length (filter (fun c => c.1.1 = who) commits) in
  check (unrevealed_commits_for_who <? 10)%nat Error.TooManyUnrevealedCommits ;;
  let hash := hash_of_bytes commit in
  modify (deposit_event (Event.CRV3WeightsCommitted who netuid hash)) ;;
  modify (set_last_update_for_uid netuid neuron_uid commit_block) ;;
  modify (put_crv3_commits netuid cur_epoch (commits ++ [(who, commit, reveal_round)])).

(** [strip_prefix(b"0x")], the whole when there is no such prefix. *)
Definition strip_0x (bytes : Bytes) : Bytes :=
  match bytes with 48 :: 120 :: rest => rest | _ => bytes end.

(** The weights behind a time-locked commit: [None] where the loop skips it. *)
Definition open_commit (serialized_compresssed_commit : Bytes) (round_number : Z) (s : St)
    : option WeightsTlockPayload :=
  commit ← deserialize_commit serialized_compresssed_commit;
  signature ← pulse_signature (world s) round_number;
  sig ← deserialize_signature (strip_0x signature);
  decrypted_bytes ← tld commit sig;
  decode_payload decrypted_bytes.

(** One turn of the loop; [signed who] is [RuntimeOrigin::signed(who)]. *)
Definition reveal_crv3_entry (signed : AccountId -> Origin) (netuid : Z) (s : St)
    (entry : AccountId * Bytes * Z) : St :=
  let '(who, commit, round_number) := entry in
  match open_commit commit round_number s with
  | None => s
  | Some payload =>
      match do_set_weights (signed who) netuid (payload_uids payload) (payload_values payload)
              (version_key payload) s with
      | Err _ => s
      | Ok (_, s) => deposit_event (Event.CRV3WeightsRevealed netuid who) s
      end
  end.

Definition reveal_crv3_commits (signed : AccountId -> Origin) (netuid : Z) (s : St) : St :=
  let cur_block := get_current_block_as_u64 s in
  let cur_epoch := get_epoch_index netuid cur_block s in
  let reveal_epoch := sat_sub cur_epoch (sat_sub (get_reveal_period netuid s) 1) in
  let s := foldl (fun s '(epoch, _) =>
      if epoch <? reveal_epoch then remove_crv3_commits netuid epoch s else s)
    s (iter_prefix (default ∅ (CRV3WeightCommits s !! netuid))) in
  if cur_epoch <? 2 then s
  else
    let entries := crv3_commits netuid reveal_epoch s in
    let s := remove_crv3_commits netuid reveal_epoch s in
    foldl (reveal_crv3_entry signed netuid) s entries.

(** ** The reveal window *)

Lemma epoch_index_eq n b s : 0 <= n -> 0 <= b -> 0 <= get_tempo n s <= U16_MAX -> b + n + 1 <= U64_MAX ->
  get_epoch_index n b s = (b + n + 1) / (get_tempo n s + 1).
Proof using.
  intros Hn Hb Ht Hs. unfold get_epoch_index. cbv zeta.
  rewrite (sat_add_le _ n 1), !sat_add_le by lia. f_equal. lia.
Qed.

(** The blocks of an epoch. *)
Lemma epoch_index_range n b s e : 0 <= n -> 0 <= b -> 0 <= get_tempo n s <= U16_MAX -> b + n + 1 <= U64_MAX ->
  (get_epoch_index n b s < e <-> b + n + 1 < e * (get_tempo n s + 1)).
Proof using.
  intros Hn Hb Ht Hs. rewrite epoch_index_eq by done. split; intros H.
  - pose proof (Z.mul_succ_div_gt (b + n + 1) (get_tempo n s + 1)). nia.
  - apply Z.div_lt_upper_bound; lia.
Qed.

(** The reveal window is exact. For a commit made in block [c], the blocks
    [get_reveal_blocks] announces are those in which a reveal is accepted: the
    window starts after the commit, lasts [tempo + 1] blocks, and the commit
    counts as expired exactly when the window is over. (Blocks and reveal
    periods far from the end of their type.) *)
Theorem reveal_window_exact (n c : Z) (s : St) :
  let tempo := get_tempo n s in let now := get_current_block_as_u64 s in
  0 <= n <= U16_MAX -> 0 <= c -> 0 <= tempo <= U16_MAX -> 1 <= get_reveal_period n s ->
  c + n + 1 + (get_reveal_period n s + 1) * (tempo + 1) <= U64_MAX -> 0 <= now -> now + n + 1 <= U64_MAX ->
  let '(first, last) := get_reveal_blocks n c s in
  c < first /\ last = first + tempo /\
  (is_reveal_block_range n c s = true <-> first <= now <= last) /\
  (is_commit_expired n c s = true <-> last < now).
Proof using.
  intros tempo now Hn Hc Ht Hp Hs Hnow Hnow'. unfold get_reveal_blocks, is_reveal_block_range, is_commit_expired.
  fold tempo now. set (p := get_reveal_period n s) in *. set (ce := get_epoch_index n c s).
  assert (Hce : 0 <= ce /\ ce * (tempo + 1) <= c + n + 1 < (ce + 1) * (tempo + 1)).
  { unfold ce. rewrite epoch_index_eq by (fold tempo; lia). fold tempo.
    pose proof (Z.div_pos (c + n + 1) (tempo + 1)). pose proof (Z.mul_div_le (c + n + 1) (tempo + 1)).
    pose proof (Z.mul_succ_div_gt (c + n + 1) (tempo + 1)). lia. }
  clearbody ce. assert (Hre : (ce + p) * (tempo + 1) <= U64_MAX) by nia.
  assert (Hfirst : (ce + 1) * (tempo + 1) <= (ce + p) * (tempo + 1)) by (apply Z.mul_le_mono_nonneg_r; lia).
  rewrite (sat_add_le _ ce p), (sat_add_le _ tempo 1), (sat_add_le _ n 1) by nia.
  unfold sat_mul. rewrite (Z.min_l _ U64_MAX), sat_sub_le, sat_add_le by nia.
  pose proof (epoch_index_range n now s (ce + p)) as H1. pose proof (epoch_index_range n now s (ce + p + 1)) as H2.
  fold tempo in H1, H2. rewrite Z.eqb_eq, Z.ltb_lt.
  set (E := get_epoch_index n now s) in *. clearbody E.
  specialize (H1 ltac:(lia) ltac:(lia) ltac:(lia) ltac:(lia)).
  specialize (H2 ltac:(lia) ltac:(lia) ltac:(lia) ltac:(lia)).
  split; [lia|]. split; [lia|]. rewrite Z.mul_add_distr_r in H2. lia.
Qed.

(** ** What setting weights does *)

Lemma duplicate_loop_false parsed items : NoDup parsed ->
  duplicate_loop parsed items = false <-> NoDup (parsed ++ items).
Proof using.
  revert parsed. induction items as [|i items IH]; intros parsed Hp; cbn; [by rewrite app_nil_r|].
  case_bool_decide as Hi.
  - split; [done|]. intros H%NoDup_app. destruct H as (_ & H & _). exfalso. apply (H i Hi). set_solver.
  - rewrite IH, <- app_assoc by (apply NoDup_app; split_and!; [done|set_solver|repeat constructor; set_solver]).
    done.
Qed.

Lemma has_duplicate_uids_false items : has_duplicate_uids items = false <-> NoDup items.
Proof using. apply (duplicate_loop_false [] items). constructor. Qed.

Lemma contains_invalid_uids_false n uids s :
  contains_invalid_uids n uids s = false <-> forall u, u ∈ uids -> is_Some (Keys s !! (n, u)).
Proof using.
  unfold contains_invalid_uids. rewrite <- not_true_iff_false, existsb_exists. split.
  - intros H u Hu. destruct (decide (is_Some (Keys s !! (n, u)))) as [|Hn]; [done|].
    exfalso. apply H. exists u. split; [by apply list_elem_of_In|].
    unfold is_uid_exist_on_network. by rewrite bool_decide_eq_false_2.
  - intros H (u & Hu%list_elem_of_In & Hn). apply H in Hu.
    unfold is_uid_exist_on_network in Hn. by rewrite bool_decide_eq_true_2 in Hn.
Qed.

(** Everything [do_set_weights] checks, for the hotkey and uid it acts on. *)
Record may_set_weights (n : Z) (hotkey : AccountId) (uid : Z) (uids values : list Z) (version : Z) (s : St)
    : Prop := {
  ms_uid : Uids s !! (n, hotkey) = Some uid;
  ms_not_root : n <> 0;
  ms_length : length uids = length values;
  ms_count : Z.of_nat (length uids) <= get_subnetwork_n n s;
  ms_stake : check_weights_min_stake hotkey n s = true;
  ms_version : check_version_key n version s = true;
  ms_rate : get_commit_reveal_weights_enabled n s = false ->
    check_rate_limit n uid (get_current_block_as_u64 s) s = true;
  ms_permit : uids = [uid] \/ get_validator_permit_for_uid n uid s = true;
  ms_nodup : NoDup uids;
  ms_uids : forall u, u ∈ uids -> is_Some (Keys s !! (n, u));
  ms_limit : max_weight_limited n uid uids (vec_u16_max_upscale_to_u16 values) s = true;
}.

(** What it writes. *)
Definition weights_written (n uid : Z) (uids values : list Z) (s : St) : St :=
  deposit_event (Event.WeightsSet n uid)
    (let s' := s <| Weights ::= <[(n, uid) := zip uids (vec_u16_max_upscale_to_u16 values)]> |> in
     if negb (get_commit_reveal_weights_enabled n s)
     then set_last_update_for_uid n uid (get_current_block_as_u64 s) s' else s').

Lemma self_weight uid uids values : length uids = length values ->
  is_self_weight uid uids values = true -> uids = [uid].
Proof using.
  unfold is_self_weight. destruct (Nat.eqb_spec (length values) 1) as [E|]; [|done].
  rewrite E. destruct uids as [|u [|]]; cbn; [done| |done]. by intros _ ->%Z.eqb_eq.
Qed.

Lemma do_set_weights_ok origin n uids values version s r :
  do_set_weights origin n uids values version s = Ok r ->
  exists hotkey uid, ensure_signed origin = Ok hotkey /\
    may_set_weights n hotkey uid uids values version s /\ r = (tt, weights_written n uid uids values s).
Proof using.
  intros H. unfold do_set_weights in H. monad_inv H; unfold id in *.
  all: repeat match goal with
    | H : negb _ = true |- _ => apply negb_true_iff in H
    | H : negb _ = false |- _ => apply negb_false_iff in H
    | H : has_duplicate_uids _ = false |- _ => apply has_duplicate_uids_false in H
    | H : contains_invalid_uids _ _ _ = false |- _ => rewrite contains_invalid_uids_false in H
    | H : get_uid_for_net_and_hotkey _ _ _ = Ok _ |- _ => apply ok_or_ok in H
    | H : uids_match_values _ _ = true |- _ => apply Nat.eqb_eq in H
    | H : check_len_uids_within_allowed _ _ _ = true |- _ => apply Z.leb_le in H
    | H : is_root _ = false |- _ => apply Z.eqb_neq in H
    | H : check_validator_permit _ _ _ _ _ = true |- _ => unfold check_validator_permit in H
    end.
  all: eexists _, _; split; [done|]; split; [|reflexivity]; split; try done; try (intros; congruence).
  all: destruct (is_self_weight _ _ _) eqn:Es; [left; by eapply self_weight|by right].
Qed.

Lemma last_update_frame n u b s :
  let s' := set_last_update_for_uid n u b s in
  WeightCommits s' = WeightCommits s /\ CRV3WeightCommits s' = CRV3WeightCommits s /\ Weights s' = Weights s /\
  world s' = world s /\ Uids s' = Uids s /\ Keys s' = Keys s /\ net_nums s' = net_nums s /\
  net_flags s' = net_flags s.
Proof using. cbv zeta. unfold set_last_update_for_uid. cbv zeta. by destruct (_ <? _)%nat. Qed.

Lemma weights_written_frame n u uids values s :
  let s' := weights_written n u uids values s in
  WeightCommits s' = WeightCommits s /\ CRV3WeightCommits s' = CRV3WeightCommits s /\
  Weights s' = <[(n, u) := zip uids (vec_u16_max_upscale_to_u16 values)]> (Weights s) /\
  world s' = world s /\ Uids s' = Uids s /\ Keys s' = Keys s /\ net_nums s' = net_nums s /\
  net_flags s' = net_flags s.
Proof using.
  cbv zeta. unfold weights_written. destruct (negb _); [|done].
  exact (last_update_frame n u _ (s <| Weights ::= _ |>)).
Qed.

(** ** The invariant of the commit queues and of the stored weights *)

(** A queue of commits made up to block [b]: at most ten, oldest first. *)
Record queue_ok (b : Z) (q : list Commit) : Prop := {
  qo_length : (length q <= 10)%nat;
  qo_sorted : StronglySorted (fun c d => commit_block c <= commit_block d) q;
  qo_past : Forall (fun c => commit_block c <= b) q;
}.

Lemma queue_ok_sublist b q q' : q' `sublist_of` q -> queue_ok b q -> queue_ok b q'.
Proof using.
  intros Hq [H1 H2 H3]. split.
  - pose proof (sublist_length _ _ Hq). lia.
  - by eapply sorted_sublist.
  - by eapply Forall_sublist.
Qed.

Lemma queue_ok_snoc b q h f l : queue_ok b q -> (length q < 10)%nat -> queue_ok b (q ++ [(h, b, f, l)]).
Proof using.
  intros [H1 H2 H3] Hl. split.
  - rewrite length_app. cbn. lia.
  - clear H1 Hl. induction q as [|c q IH]; [repeat constructor|]. cbn.
    inversion_clear H2 as [|? ? H4 H5]. inversion_clear H3 as [|? ? H6 H7].
    constructor; [by apply IH|]. apply Forall_app. split; [done|]. by repeat constructor.
  - apply Forall_app. split; [done|]. repeat constructor. done.
Qed.

Lemma pop_expired_sublist n s q : (pop_expired n s q).2 `sublist_of` q.
Proof using.
  induction q as [|c q IH]; cbn; [done|]. destruct (is_commit_expired _ _ _); [|done].
  destruct (pop_expired n s q) as [e r]. cbn in *. by constructor.
Qed.

(** Expiry is monotone, so in a sorted queue the expired commits come first. *)
Lemma expired_earlier n c d s : c <= d -> 0 <= get_tempo n s -> is_commit_expired n d s = true -> is_commit_expired n c s = true.
Proof using.
  intros Hcd Ht. unfold is_commit_expired. rewrite !Z.ltb_lt. intros H.
  eapply Z.le_lt_trans; [|exact H]. unfold sat_add at 1 2.
  enough (get_epoch_index n c s <= get_epoch_index n d s) by lia.
  unfold get_epoch_index. cbv zeta. assert (0 < sat_add U64_MAX (get_tempo n s) 1) by (unfold sat_add; lia).
  apply Z.div_le_mono; [done|]. unfold sat_add. lia.
Qed.

Lemma pop_expired_spec n s b q : queue_ok b q -> 0 <= get_tempo n s ->
  (pop_expired n s q).2 = filter (fun c => is_commit_expired n (commit_block c) s = false) q.
Proof using.
  intros [_ Hs _] Ht. induction q as [|c q IH]; [done|]. cbn [pop_expired].
  inversion_clear Hs as [|? ? H1 H2]. rewrite filter_cons.
  destruct (is_commit_expired n (commit_block c) s) eqn:E.
  - rewrite decide_False by done. rewrite <- IH by done. by destruct (pop_expired n s q).
  - rewrite decide_True by done. cbn [snd]. f_equal. symmetry. apply filter_all. rewrite Forall_forall in H2.
    intros d Hd. destruct (is_commit_expired n (commit_block d) s) eqn:Ed; [|done].
    by rewrite (expired_earlier n (commit_block c) (commit_block d) s (H2 d Hd) Ht Ed) in E.
Qed.

(** A stored weight vector: no uid twice, and every weight a [u16]. *)
Definition entry_ok (l : list (Z * Z)) : Prop :=
  NoDup l.*1 /\ Forall (fun w => 0 <= w.2 <= U16_MAX) l.

Definition u16s (l : list Z) : Prop := Forall (fun x => 0 <= x <= U16_MAX) l.

(** The time-locked commits of one hotkey in a list. *)
Definition crv3_of (who : AccountId) (l : list (AccountId * Bytes * Z)) : nat :=
  length (filter (fun c => c.1.1 = who) l).

Record weights_inv (s : St) : Prop := {
  wi_queues : forall n who q, WeightCommits s !! (n, who) = Some q -> queue_ok (get_current_block_as_u64 s) q;
  wi_weights : forall n u l, Weights s !! (n, u) = Some l -> entry_ok l;
  wi_crv3 : forall n e who, (crv3_of who (crv3_commits n e s) <= 10)%nat;
}.

Lemma weights_inv_ext s s' : WeightCommits s' = WeightCommits s -> Weights s' = Weights s ->
  CRV3WeightCommits s' = CRV3WeightCommits s -> get_current_block_as_u64 s <= get_current_block_as_u64 s' ->
  weights_inv s -> weights_inv s'.
Proof using.
  intros E1 E2 E3 Hb [H1 H2 H3]. split.
  - intros n who q. rewrite E1. intros Hq. destruct (H1 n who q Hq) as [A B C]. split; [done..|].
    eapply Forall_impl; [exact C|]. cbn. lia.
  - intros n u l. rewrite E2. apply H2.
  - intros n e who. unfold crv3_commits. rewrite E3. apply H3.
Qed.

(** *** Preservation *)
Context {FL : SubstrateFixedLaws} {WL : WeightsEnvLaws W}.

Lemma entry_ok_zip uids values : NoDup uids -> length uids = length values -> u16s values ->
  entry_ok (zip uids (vec_u16_max_upscale_to_u16 values)).
Proof using FL.
  intros Hn Hl Hv.
  assert (Hup : length (vec_u16_max_upscale_to_u16 values) = length values /\
                u16s (vec_u16_max_upscale_to_u16 values)).
  { destruct (vec_max values) as [m|] eqn:Em; [|by destruct values].
    rewrite (upscale_eq values m Hv Em). split; [apply length_map|]. by apply upscaled_u16s. }
  destruct Hup as [E Hu]. split; [by rewrite fst_zip by lia|].
  apply Forall_forall. intros w Hw. unfold u16s in Hu. rewrite Forall_forall in Hu. apply Hu.
  rewrite <- (snd_zip uids (vec_u16_max_upscale_to_u16 values)) by lia. by apply list_elem_of_fmap_2.
Qed.

Lemma do_set_weights_inv origin n uids values v s s' : u16s values -> weights_inv s ->
  do_set_weights origin n uids values v s = Ok (tt, s') -> weights_inv s'.
Proof using FL.
  intros Hv Hs (hotkey & uid & _ & Hm & [= ->])%do_set_weights_ok.
  destruct (weights_written_frame n uid uids values s) as (E1 & E2 & E3 & E4 & _). destruct Hs as [H1 H2 H3]. split.
  - rewrite E1. unfold get_current_block_as_u64. rewrite E4. exact H1.
  - intros m u l. rewrite E3, lookup_insert. case_decide as D; [|apply H2].
    intros [= <-]. destruct Hm. by apply entry_ok_zip.
  - unfold crv3_commits. rewrite E2. exact H3.
Qed.

(** The queues after a write. *)
Lemma put_commits_inv n who q s : queue_ok (get_current_block_as_u64 s) q -> weights_inv s ->
  weights_inv (put_commits n who q s).
Proof using.
  intros Hq [H1 H2 H3]. split; [|done..]. intros m w q'. cbn. rewrite lookup_insert.
  case_decide as D; [by intros [= <-]|apply H1].
Qed.

Lemma put_commits_or_remove_inv n who q s : queue_ok (get_current_block_as_u64 s) q -> weights_inv s ->
  weights_inv (put_commits_or_remove n who q s).
Proof using.
  intros Hq Hs. destruct q as [|c q]; [|by apply put_commits_inv].
  destruct Hs as [H1 H2 H3]. split; [|done..]. intros m w q'. cbn. rewrite lookup_delete.
  case_decide as D; [done|apply H1].
Qed.

Lemma deposit_event_inv e s : weights_inv s -> weights_inv (deposit_event e s).
Proof using. by apply weights_inv_ext. Qed.

Lemma set_last_update_inv n u b s : weights_inv s -> weights_inv (set_last_update_for_uid n u b s).
Proof using.
  destruct (last_update_frame n u b s) as (E1 & E2 & E3 & E4 & _).
  apply weights_inv_ext; try done. unfold get_current_block_as_u64. by rewrite E4.
Qed.

Lemma put_crv3_inv n e l s : (forall who, (crv3_of who l <= 10)%nat) -> weights_inv s -> weights_inv (put_crv3_commits n e l s).
Proof using.
  intros Hl [H1 H2 H3]. split; [done..|]. intros m d who. unfold crv3_commits, put_crv3_commits. cbn.
  rewrite lookup_insert. case_decide as D; [subst; cbn; rewrite lookup_insert; case_decide; [apply Hl|apply H3]|apply H3].
Qed.

Lemma remove_crv3_inv n e s : weights_inv s -> weights_inv (remove_crv3_commits n e s).
Proof using.
  intros [H1 H2 H3]. split; [done..|]. intros m d who. unfold crv3_commits, remove_crv3_commits. cbn.
  rewrite lookup_insert. case_decide as D; [subst; cbn; rewrite lookup_delete; case_decide; [cbn; lia|apply H3]|apply H3].
Qed.

Lemma queue_of n who s : weights_inv s ->
  queue_ok (get_current_block_as_u64 s) (default [] (WeightCommits s !! (n, who))).
Proof using.
  intros [H _ _]. destruct (WeightCommits s !! (n, who)) as [q|] eqn:E; cbn; [by apply (H n who)|].
  split; [cbn; lia|constructor|constructor].
Qed.

Lemma do_commit_weights_inv origin n h s s' : weights_inv s ->
  do_commit_weights origin n h s = Ok (tt, s') -> weights_inv s'.
Proof using.
  intros Hs H. unfold do_commit_weights in H. monad_inv H. unfold id in *.
  match goal with H : (_ <? 10)%nat = true |- _ => apply Nat.ltb_lt in H end.
  apply put_commits_inv; [|by apply set_last_update_inv, deposit_event_inv].
  match goal with |- queue_ok (get_current_block_as_u64 (set_last_update_for_uid ?n ?u ?b ?s1)) _ =>
    destruct (last_update_frame n u b s1) as (_ & _ & _ & E4 & _) end.
  unfold get_current_block_as_u64 at 1. rewrite E4. cbn [world deposit_event].
  apply queue_ok_snoc; [|done]. eapply queue_ok_sublist; [apply pop_expired_sublist|]. by apply queue_of.
Qed.

Lemma attempt_all_inv (P : St -> Prop) items s rs s' :
  (forall m, m ∈ items -> forall s s', P s -> m s = Ok (tt, s') -> P s') ->
  P s -> attempt_all items s = Ok (rs, s') -> P s'.
Proof using FL WL.
  revert s rs. induction items as [|m items IH]; intros s rs Hm HP H; cbn in H; [monad_inv H; done|].
  apply bind_ok in H as (r & s1 & H1 & H). apply bind_ok in H as (rs1 & s2 & H2 & H). monad_inv H.
  eapply IH; [|  |exact H2]; [intros; eapply Hm; [|done..]; set_solver|].
  unfold attempt in H1. destruct (m s) as [[[] s3]|e] eqn:E; simplify_eq; [|done].
  eapply Hm; [|exact HP|exact E]. set_solver.
Qed.

Lemma report_results_inv rs s : weights_inv s -> weights_inv (report_results rs s).
Proof using.
  unfold report_results. generalize false. revert s. induction rs as [|[e|] rs IH]; intros s b Hs; cbn; [done| |by apply IH].
  apply IH, deposit_event_inv. destruct b; [done|by apply deposit_event_inv].
Qed.

Lemma do_batch_set_weights_inv origin ns ws vs s s' :
  Forall (fun w : list (Z * Z) => u16s w.*2) ws -> weights_inv s ->
  do_batch_set_weights origin ns ws vs s = Ok (tt, s') -> weights_inv s'.
Proof using FL WL.
  intros Hw Hs H. unfold do_batch_set_weights in H.
  apply bind_ok in H as (hotkey & s0 & H0 & H). apply ext_ok in H0 as (a & _ & [= -> ->]).
  apply bind_ok in H as ([] & s0 & [_ [= ->]]%ensure_ok & H). apply bind_ok in H as (rs & s1 & H1 & H).
  monad_inv H. apply deposit_event_inv, report_results_inv.
  refine (attempt_all_inv weights_inv _ s rs s1 _ Hs H1). clear H1 Hs. intros m Hm s2 s3 Hs2 H2.
  apply list_elem_of_In, in_map_iff in Hm as ([[n w] v] & <- & Hin%list_elem_of_In).
  apply bind_ok in H2 as (b & s4 & [= -> ->]%gets_ok & H2). destruct (get_commit_reveal_weights_enabled n s2).
  { by apply fail_ok in H2. }
  eapply do_set_weights_inv; [|exact Hs2|exact H2].
  rewrite Forall_forall in Hw. apply Hw.
  apply elem_of_zip_l, elem_of_zip_r in Hin. exact Hin.
Qed.

Lemma do_batch_commit_weights_inv origin ns hs s s' : weights_inv s ->
  do_batch_commit_weights origin ns hs s = Ok (tt, s') -> weights_inv s'.
Proof using FL WL.
  intros Hs H. unfold do_batch_commit_weights in H.
  apply bind_ok in H as (hotkey & s0 & H0 & H). apply ext_ok in H0 as (a & _ & [= -> ->]).
  apply bind_ok in H as ([] & s0 & [_ [= ->]]%ensure_ok & H). apply bind_ok in H as (rs & s1 & H1 & H).
  monad_inv H. apply deposit_event_inv, report_results_inv.
  refine (attempt_all_inv weights_inv _ s rs s1 _ Hs H1). clear H1 Hs. intros m Hm s2 s3 Hs2 H2.
  apply list_elem_of_In, in_map_iff in Hm as ([n h] & <- & _). by eapply do_commit_weights_inv.
Qed.

(** A successful reveal: the commit it found in the queue, and what it wrote. *)
Lemma do_reveal_ok origin n uids values salt v s s' :
  do_reveal_weights origin n uids values salt v s = Ok (tt, s') ->
  exists who q i c s1, ensure_signed origin = Ok who /\ WeightCommits s !! (n, who) = Some q /\
  get_commit_reveal_weights_enabled n s = true /\
  find_commit (hash_of_reveal (who, n, uids, values, salt, v)) (pop_expired n s q).2 = Some (i, c) /\
  is_reveal_block_range n (commit_block c) s = true /\
  do_set_weights origin n uids values v s = Ok (tt, s1) /\
  s' = put_commits_or_remove n who (drop (S i) (pop_expired n s q).2)
         (deposit_event (Event.WeightsRevealed who n (hash_of_reveal (who, n, uids, values, salt, v))) s1).
Proof using.
  intros H. unfold do_reveal_weights in H.
  apply bind_ok in H as (who & s0 & (a & Ha & [= -> ->])%ext_ok & H).
  apply bind_ok in H as (s1 & s2 & [= -> ->]%gets_ok & H). unfold id in H.
  apply bind_ok in H as ([] & s1 & [He [= ->]]%ensure_ok & H).
  apply bind_ok in H as (q & s1 & (q' & Hq%ok_or_ok & [= -> ->])%lift_ok & H).
  destruct (pop_expired n s q') as [e r] eqn:Ep.
  destruct r as [|c0 r]; [case_bool_decide; by apply fail_ok in H|].
  destruct (find_commit _ _) as [[i c]|] eqn:Ef; [|case_bool_decide; by apply fail_ok in H].
  apply bind_ok in H as ([] & s1 & [Hr [= ->]]%ensure_ok & H).
  apply bind_ok in H as ([] & s1 & Hset & H). apply bind_ok in H as ([] & s3 & [= ->]%modify_ok & H).
  apply modify_ok in H as [= ->].
  exists a, q', i, c, s1. rewrite Ep. by split_and!.
Qed.

Lemma do_set_weights_block origin n uids values v s s' :
  do_set_weights origin n uids values v s = Ok (tt, s') -> get_current_block_as_u64 s' = get_current_block_as_u64 s.
Proof using.
  intros (h & u & _ & _ & [= ->])%do_set_weights_ok.
  destruct (weights_written_frame n u uids values s) as (_ & _ & _ & E & _).
  unfold get_current_block_as_u64. by rewrite E.
Qed.

Lemma do_reveal_weights_inv origin n uids values salt v s s' : u16s values -> weights_inv s ->
  do_reveal_weights origin n uids values salt v s = Ok (tt, s') -> weights_inv s'.
Proof using FL.
  intros Hv Hs (who & q & i & c & s1 & _ & Hq & _ & _ & _ & Hset & ->)%do_reveal_ok.
  apply put_commits_or_remove_inv; [|by eapply deposit_event_inv, do_set_weights_inv].
  change (get_current_block_as_u64 (deposit_event ?e ?x)) with (get_current_block_as_u64 x).
  rewrite (do_set_weights_block _ _ _ _ _ _ _ Hset).
  eapply queue_ok_sublist; [etrans; [apply sublist_drop|apply pop_expired_sublist]|].
  by apply (wi_queues s Hs n who).
Qed.

Lemma reveal_all_inv origin n e rs : Forall (fun r : Reveal => u16s r.1.1.2) rs ->
  forall q hs s r s', queue_ok (get_current_block_as_u64 s) q -> weights_inv s ->
  reveal_all origin n e rs q hs s = Ok (r, s') ->
  weights_inv s' /\ queue_ok (get_current_block_as_u64 s') r.1.
Proof using FL.
  induction 1 as [|[[[uids values] v] h] rs Hr _ IH]; intros q hs s r s' Hq Hs H; cbn [reveal_all] in H.
  { apply ret_ok in H as [= -> ->]. done. }
  destruct (find_commit h q) as [[i c]|] eqn:Ef; [|case_bool_decide; by apply fail_ok in H].
  apply bind_ok in H as ([] & s1 & Hset & H).
  refine (IH _ _ s1 _ _ _ _ H); [|by eapply do_set_weights_inv].
  rewrite (do_set_weights_block _ _ _ _ _ _ _ Hset).
  eapply queue_ok_sublist; [apply sublist_delete|done].
Qed.

(** Validating reads the state only. *)
Lemma validate_reveal_same n e q r s s' : validate_reveal n e q r s = Ok (tt, s') -> s' = s.
Proof using.
  unfold validate_reveal. destruct r as [[[? ?] ?] h]. destruct (find_commit h q) as [[i c]|].
  - intros (x & s1 & [= -> ->]%gets_ok & [_ [= ->]]%ensure_ok)%bind_ok. done.
  - case_bool_decide; by intros ?%fail_ok.
Qed.

Lemma do_batch_reveal_weights_inv origin n us vs salts versions s s' : Forall u16s vs -> weights_inv s ->
  do_batch_reveal_weights origin n us vs salts versions s = Ok (tt, s') -> weights_inv s'.
Proof using FL.
  intros Hv Hs H. unfold do_batch_reveal_weights in H.
  apply bind_ok in H as ([] & s1 & [_ [= ->]]%ensure_ok & H).
  apply bind_ok in H as (who & s1 & (a & _ & [= -> ->])%ext_ok & H).
  apply bind_ok in H as (s1 & s2 & [= -> ->]%gets_ok & H). unfold id in H.
  apply bind_ok in H as ([] & s1 & [_ [= ->]]%ensure_ok & H).
  apply bind_ok in H as (q & s1 & (q' & Hq%ok_or_ok & [= -> ->])%lift_ok & H).
  destruct (pop_expired n s q') as [e r] eqn:Ep. set (rs := map _ _) in H.
  apply bind_ok in H as ([] & s1 & Hval & H).
  assert (s1 = s) as ->.
  { by apply (for_each_inv (fun x => x = s) (validate_reveal n e r) rs
      ltac:(intros ? ? ? _ -> Hx; by apply validate_reveal_same in Hx) s s1). }
  apply bind_ok in H as ([q2 hs] & s1 & Hall & H). apply bind_ok in H as ([] & s2 & [= ->]%modify_ok & H).
  apply modify_ok in H as [= ->].
  destruct (reveal_all_inv origin n e rs) with (q := r) (hs := @nil H256) (s := s) (r := (q2, hs)) (s' := s1)
    as [Hs1 Hq2]; [| |done|done|].
  - apply Forall_forall. intros x Hx%list_elem_of_In%in_map_iff.
    destruct Hx as ([[u w] [salt v]] & <- & Hin%list_elem_of_In). cbn. rewrite Forall_forall in Hv. apply Hv.
    apply elem_of_zip_l, elem_of_zip_r in Hin. exact Hin.
  - replace r with (pop_expired n s q').2 by (by rewrite Ep).
    eapply queue_ok_sublist; [apply pop_expired_sublist|]. by apply (wi_queues s Hs n a).
  - apply put_commits_or_remove_inv; [exact Hq2|by apply deposit_event_inv].
Qed.

Lemma crv3_of_app who l k : crv3_of who (l ++ k) = (crv3_of who l + crv3_of who k)%nat.
Proof using. unfold crv3_of. by rewrite filter_app, length_app. Qed.

Lemma do_commit_crv3_weights_inv origin n commit round s s' : weights_inv s ->
  do_commit_crv3_weights origin n commit round s = Ok (tt, s') -> weights_inv s'.
Proof using.
  intros Hs H. unfold do_commit_crv3_weights in H. monad_inv H. unfold id in *.
  match goal with H : (_ <? 10)%nat = true |- _ => apply Nat.ltb_lt in H; rename H into H10 end.
  set (e := if should_run_epoch _ _ _ then _ else _) in *.
  apply put_crv3_inv; [|by apply set_last_update_inv, deposit_event_inv]. intros who.
  rewrite crv3_of_app. unfold crv3_of at 2. rewrite filter_cons, filter_nil. cbn [fst].
  case_decide as D; [subst|]; cbn [length]; [unfold crv3_of; lia|].
  pose proof (wi_crv3 s Hs n e who). lia.
Qed.

Lemma reveal_crv3_entry_inv signed n e s : weights_inv s -> weights_inv (reveal_crv3_entry signed n s e).
Proof using FL WL.
  intros Hs. unfold reveal_crv3_entry. destruct e as [[who commit] round].
  destruct (open_commit commit round s) as [p|] eqn:Eo; [|done].
  destruct (do_set_weights _ _ _ _ _ s) as [[[] s1]|err] eqn:Es; [|done].
  apply deposit_event_inv. eapply do_set_weights_inv; [|exact Hs|exact Es].
  unfold open_commit in Eo. repeat (apply bind_Some in Eo as (? & ? & Eo)). by eapply decode_payload_typed.
Qed.

Lemma foldl_inv {A} (P : St -> Prop) (f : St -> A -> St) l s :
  (forall s x, P s -> P (f s x)) -> P s -> P (foldl f s l).
Proof using. intros Hf. revert s. induction l as [|x l IH]; intros s Hs; cbn; auto. Qed.

Lemma reveal_crv3_commits_inv signed n s : weights_inv s -> weights_inv (reveal_crv3_commits signed n s).
Proof using FL WL.
  intros Hs. unfold reveal_crv3_commits. cbv zeta. set (s1 := foldl _ s _).
  assert (H1 : weights_inv s1).
  { apply foldl_inv; [|done]. intros s2 [e l] H2. destruct (_ <? _); [by apply remove_crv3_inv|done]. }
  destruct (_ <? 2); [done|]. apply foldl_inv; [intros; by apply reveal_crv3_entry_inv|by apply remove_crv3_inv].
Qed.

(** The operations of this file with arguments of their types, and everything
    that leaves commits and weights alone while time passes. *)
Inductive weights_step : St -> St -> Prop :=
  | StepSetWeights origin n dests weights v s s' : u16s weights ->
      set_weights origin n dests weights v s = Ok (tt, s') -> weights_step s s'
  | StepBatchSetWeights origin ns ws vs s s' : Forall (fun w : list (Z * Z) => u16s w.*2) ws ->
      do_batch_set_weights origin ns ws vs s = Ok (tt, s') -> weights_step s s'
  | StepCommitWeights origin n h s s' :
      do_commit_weights origin n h s = Ok (tt, s') -> weights_step s s'
  | StepBatchCommitWeights origin ns hs s s' :
      do_batch_commit_weights origin ns hs s = Ok (tt, s') -> weights_step s s'
  | StepRevealWeights origin n uids values salt v s s' : u16s values ->
      do_reveal_weights origin n uids values salt v s = Ok (tt, s') -> weights_step s s'
  | StepBatchRevealWeights origin n us vs salts versions s s' : Forall u16s vs ->
      do_batch_reveal_weights origin n us vs salts versions s = Ok (tt, s') -> weights_step s s'
  | StepCommitCrv3 origin n commit round s s' :
      do_commit_crv3_weights origin n commit round s = Ok (tt, s') -> weights_step s s'
  | StepRevealCrv3 signed n s : weights_step s (reveal_crv3_commits signed n s)
  | StepElsewhere s s' : WeightCommits s' = WeightCommits s -> Weights s' = Weights s ->
      CRV3WeightCommits s' = CRV3WeightCommits s ->
      get_current_block_as_u64 s <= get_current_block_as_u64 s' -> weights_step s s'.

Lemma weights_step_inv s s' : weights_step s s' -> weights_inv s -> weights_inv s'.
Proof using FL WL.
  intros Hstep Hs. destruct Hstep as [o n ds ws v s s' Hv H| | | | | | | |].
  - apply bind_ok in H as (b & s1 & [= -> ->]%gets_ok & H).
    destruct (get_commit_reveal_weights_enabled n s); [by apply fail_ok in H|]. by eapply do_set_weights_inv.
  - by eapply do_batch_set_weights_inv.
  - by eapply do_commit_weights_inv.
  - by eapply do_batch_commit_weights_inv.
  - by eapply do_reveal_weights_inv.
  - by eapply do_batch_reveal_weights_inv.
  - by eapply do_commit_crv3_weights_inv.
  - by apply reveal_crv3_commits_inv.
  - by apply (weights_inv_ext s).
Qed.

Lemma weights_steps_inv s s' : rtc weights_step s s' -> weights_inv s -> weights_inv s'.
Proof using FL WL. induction 1; eauto using weights_step_inv. Qed.

Lemma no_weights_inv s : WeightCommits s = ∅ -> Weights s = ∅ -> CRV3WeightCommits s = ∅ -> weights_inv s.
Proof using.
  intros E1 E2 E3. split.
  - intros n who q. by rewrite E1, lookup_empty.
  - intros n u l. by rewrite E2, lookup_empty.
  - intros n e who. unfold crv3_commits. rewrite E3, lookup_empty. cbn [default from_option id]. rewrite lookup_empty. cbn. lia.
Qed.

(** C19: Stored weights are well-formed and commit queues bounded. From a state
    without commits and weights, after any sequence of setting, committing and
    revealing weights (single, in batches, and time-locked), with other steps
    in between: every stored weight vector names no uid twice and its weights
    are [u16]s; every hotkey has at most ten pending commits on a subnet,
    oldest first, none from the future; and at most ten time-locked commits per
    epoch. *)
Theorem stored_weights_well_formed (s0 s : St) :
  WeightCommits s0 = ∅ -> Weights s0 = ∅ -> CRV3WeightCommits s0 = ∅ ->
  rtc weights_step s0 s -> weights_inv s.
Proof using FL WL. intros E1 E2 E3 H. by apply (weights_steps_inv s0), no_weights_inv. Qed.

(** ** Revealing *)

Lemma put_or_remove_lookup n who q s m w :
  default [] (WeightCommits (put_commits_or_remove n who q s) !! (m, w)) =
  if decide (n = m /\ who = w) then q else default [] (WeightCommits s !! (m, w)).
Proof using.
  destruct q as [|c q]; cbn; [rewrite lookup_delete|rewrite lookup_insert];
    repeat case_decide; naive_solver.
Qed.

(** C28: A reveal sets exactly what was committed. If revealing succeeds, the
    caller's queue holds a commit to this hotkey, subnet, uids, values, salt and
    version key whose reveal window is now; it is the first such commit that
    has not expired. The revealed weights are stored for the caller's uid and
    nothing else changes among the weights; that commit, those before it and
    the expired ones leave the queue, later ones and other queues stay. *)
Theorem reveal_sets_committed_weights (origin : Origin) (n : Z) (uids values salt : list Z) (v : Z) (s s' : St) :
  weights_inv s -> 0 <= get_tempo n s ->
  do_reveal_weights origin n uids values salt v s = Ok (tt, s') ->
  exists who uid i c, ensure_signed origin = Ok who /\ Uids s !! (n, who) = Some uid /\
  let queue s := default [] (WeightCommits s !! (n, who)) in
  let live := filter (fun c => is_commit_expired n (commit_block c) s = false) (queue s) in
  let h := hash_of_reveal (who, n, uids, values, salt, v) in
  live !! i = Some c /\ commit_hash c = h /\ is_reveal_block_range n (commit_block c) s = true /\
  (forall j d, (j < i)%nat -> live !! j = Some d -> commit_hash d <> h) /\
  queue s' = drop (S i) live /\
  Weights s' = <[(n, uid) := zip uids (vec_u16_max_upscale_to_u16 values)]> (Weights s) /\
  (forall m w, (m, w) <> (n, who) -> default [] (WeightCommits s' !! (m, w)) = default [] (WeightCommits s !! (m, w))).
Proof using.
  intros Hs Ht (who & q & i & c & s1 & Ho & Hq & _ & Hf & Hr & Hset & ->)%do_reveal_ok.
  apply do_set_weights_ok in Hset as (hk & uid & Ho' & Hm & [= ->]).
  assert (hk = who) as -> by congruence. exists who, uid, i, c.
  destruct (weights_written_frame n uid uids values s) as (E1 & _ & E3 & _).
  rewrite (pop_expired_spec n s (get_current_block_as_u64 s)) in Hf |- * by (done || by apply (wi_queues s Hs n who)).
  apply list_find_Some in Hf as (Hi & Hh & Hmin). cbv beta zeta. rewrite Hq. cbn [default from_option id].
  split_and!; [done|by destruct Hm|done|done|done| | | |].
  - intros j d Hj Hd. by apply (Hmin j d).
  - rewrite put_or_remove_lookup, decide_True by done. done.
  - rewrite <- E3. by destruct (drop _ _).
  - intros m w Hmw. rewrite put_or_remove_lookup, decide_False by (intros [-> ->]; done).
    cbn [WeightCommits deposit_event]. change (WeightCommits (deposit_event ?e ?x)) with (WeightCommits x). by rewrite E1.
Qed.

(** *** Time-locked commits *)

Lemma crv3_remove n e m d s : crv3_commits m d (remove_crv3_commits n e s) =
  if decide (n = m /\ e = d) then [] else crv3_commits m d s.
Proof using.
  unfold crv3_commits, remove_crv3_commits. cbn. rewrite lookup_insert.
  destruct (decide (n = m)) as [->|]; cbn.
  - rewrite lookup_delete. repeat case_decide; naive_solver.
  - case_decide; naive_solver.
Qed.

(** The loop that cleans expired epochs. *)
Lemma clean_commits n r L s : let s' := foldl (fun s (x : Z * list (AccountId * Bytes * Z)) =>
    let '(epoch, _) := x in if epoch <? r then remove_crv3_commits n epoch s else s) s L in
  (forall m d, crv3_commits m d s' =
     if decide (m = n /\ d < r /\ d ∈ L.*1) then [] else crv3_commits m d s) /\
  Weights s' = Weights s /\ world s' = world s /\ Uids s' = Uids s.
Proof using FL WL.
  revert s. induction L as [|[e l] L IH]; intros s; cbn.
  { split; [|done]. intros m d. rewrite decide_False; [done|]. set_solver. }
  specialize (IH (if e <? r then remove_crv3_commits n e s else s)). cbn in IH. destruct IH as (H1 & H2).
  split; [|destruct (e <? r); exact H2].
  intros m d. rewrite H1. destruct (Z.ltb_spec e r); [rewrite crv3_remove|]; repeat case_decide; set_solver by lia.
Qed.

Context (signed : AccountId -> Origin) (signed_ok : forall who hotkey, ensure_signed (signed who) = Ok hotkey -> hotkey = who).

(** Where the weights of [s'] come from that those of [s] do not hold. *)
Definition from_commits (n : Z) (commits : list (AccountId * Bytes * Z)) (s s' : St) : Prop :=
  forall m u l, Weights s' !! (m, u) = Some l ->
  Weights s !! (m, u) = Some l \/
  m = n /\ exists who commit round p, (who, commit, round) ∈ commits /\ open_commit commit round s = Some p /\
    Uids s !! (n, who) = Some u /\ l = zip (payload_uids p) (vec_u16_max_upscale_to_u16 (payload_values p)).

Lemma reveal_entry_from n e s : let s' := reveal_crv3_entry signed n s e in
  from_commits n [e] s s' /\ CRV3WeightCommits s' = CRV3WeightCommits s /\ world s' = world s /\ Uids s' = Uids s.
Proof using FL WL signed_ok.
  cbv zeta. unfold reveal_crv3_entry. destruct e as [[who commit] round].
  destruct (open_commit commit round s) as [p|] eqn:Eo; [|split; [by left|done]].
  destruct (do_set_weights _ _ _ _ _ s) as [[[] s1]|err] eqn:Es; [|split; [by left|done]].
  apply do_set_weights_ok in Es as (hk & uid & Ho & Hm & [= ->]). apply signed_ok in Ho. subst hk.
  destruct (weights_written_frame n uid (payload_uids p) (payload_values p) s) as (E1 & E2 & E3 & E4 & E5 & _).
  split; [|done]. intros m u l. change (Weights (deposit_event ?e ?x)) with (Weights x).
  rewrite E3, lookup_insert. case_decide as D; [|by left].
  injection D as <- <-. intros [= <-]. right. split; [done|]. exists who, commit, round, p.
  destruct Hm. split; [by apply list_elem_of_singleton|done].
Qed.

Lemma reveal_entries_from n l s : let s' := foldl (reveal_crv3_entry signed n) s l in
  from_commits n l s s' /\ CRV3WeightCommits s' = CRV3WeightCommits s /\ world s' = world s /\ Uids s' = Uids s.
Proof using FL WL signed_ok.
  revert s. induction l as [|e l IH]; intros s; cbn; [split; [by left|done]|].
  destruct (reveal_entry_from n e s) as (H1 & E1 & E2 & E3). destruct (IH (reveal_crv3_entry signed n s e)) as (H2 & F1 & F2 & F3).
  split; [|split_and!; congruence]. intros m u x Hx.
  apply H2 in Hx as [Hx|(-> & who & commit & round & p & Hin & Ho & Hu & ->)].
  - apply H1 in Hx as [Hx|(-> & who & commit & round & p & Hin & Ho)]; [by left|].
    right. split; [done|]. exists who, commit, round, p. set_solver.
  - right. split; [done|]. exists who, commit, round, p.
    rewrite E3 in Hu. unfold open_commit in *. rewrite E2 in Ho. set_solver.
Qed.

(** Time-locked commits are opened once, in the right epoch. At the start
    of an epoch from the second on, every commit of the subnet for the reveal
    epoch (the reveal period less one ago) and for earlier ones is taken out,
    later commits and those of other subnets stay; and every weight vector that
    appears was committed by the neuron it is stored for, for the reveal epoch,
    and decrypts with the beacon's pulse. *)
Theorem timelocked_commits_opened_once (n : Z) (s : St) :
  let cur_epoch := get_epoch_index n (get_current_block_as_u64 s) s in
  let reveal_epoch := sat_sub cur_epoch (sat_sub (get_reveal_period n s) 1) in
  let s' := reveal_crv3_commits signed n s in
  2 <= cur_epoch ->
  (forall d, d <= reveal_epoch -> crv3_commits n d s' = []) /\
  (forall d, reveal_epoch < d -> crv3_commits n d s' = crv3_commits n d s) /\
  (forall m d, m <> n -> crv3_commits m d s' = crv3_commits m d s) /\
  from_commits n (crv3_commits n reveal_epoch s) s s'.
Proof using FL WL signed_ok.
  intros cur r s' Hcur. subst s'. unfold reveal_crv3_commits. fold cur r.
  set (L := iter_prefix _). destruct (clean_commits n r L s) as (H1 & H2 & H3 & H4).
  set (s1 := foldl _ s L) in *. rewrite (proj2 (Z.ltb_ge cur 2)) by lia.
  assert (Hr : crv3_commits n r s1 = crv3_commits n r s).
  { rewrite H1, decide_False by lia. done. }
  assert (HL : forall d, d ∉ L.*1 -> crv3_commits n d s = []).
  { intros d Hd. unfold crv3_commits. destruct (_ !! d) as [l|] eqn:E; [|done].
    exfalso. apply Hd. apply list_elem_of_fmap. exists (d, l). split; [done|].
    unfold L. rewrite iter_prefix_perm. by apply elem_of_map_to_list. }
  rewrite Hr. set (s2 := remove_crv3_commits n r s1).
  destruct (reveal_entries_from n (crv3_commits n r s) s2) as (Hf & E & _).
  set (s3 := foldl _ s2 _) in *.
  assert (E' : forall m d, crv3_commits m d s3 = crv3_commits m d s2) by (intros; unfold crv3_commits; by rewrite E).
  split_and!.
  - intros d Hd. rewrite E'. unfold s2. rewrite crv3_remove, H1. repeat case_decide; [done..|].
    apply HL. assert (d <> r) by naive_solver. intros HdL. naive_solver lia.
  - intros d Hd. rewrite E'. unfold s2. rewrite crv3_remove, H1. repeat case_decide; (lia || done).
  - intros m d Hm. rewrite E'. unfold s2. rewrite crv3_remove, H1. repeat case_decide; naive_solver.
  - intros m u l Hl. apply Hf in Hl as [Hl|(-> & who & commit & round & p & Hin & Ho & Hu & ->)].
    + left. rewrite <- H2. exact Hl.
    + right. split; [done|]. exists who, commit, round, p.
      unfold open_commit in *. change (world s2) with (world s1) in Ho. change (Uids s2) with (Uids s1) in Hu.
      rewrite H3 in Ho. rewrite H4 in Hu. done.
Qed.
End Weights.
