(* ===== verification/EpochMatrix.v ===== *)
(** * Vectors and sparse matrices of the epoch (src/pallets/subtensor/src/epoch/math.rs)

    The epoch computes with vectors of [I32F32] numbers, one for each uid, and
    with sparse matrices: for each row the list of its columns and values. A
    function that indexes a vector or asserts equal lengths traps when an index
    is out of range; it is a computation in [option], and [None] stands for the
    trap. *)

From S2P Require Import Prelude Fixed EpochMath.
From stdpp Require Import prelude list.
From Stdlib Require Import ZArith Lia.
#[local] Open Scope Z_scope.

(** Further operations of [substrate_fixed]: the exponential, division that
    saturates, multiplication that may fail, and [from_num], which a release
    build wraps when the number does not fit. The epoch divides only by nonzero
    constants and by one plus an exponential, so that division by zero, where
    [saturating_div] traps, does not occur. *)
Class EpochFixed := {
  exp : FixTy -> Z -> option Z;
  saturating_div : FixTy -> Z -> Z -> Z;
  checked_mul : FixTy -> Z -> Z -> option Z;
  plain_num : FixTy -> Z -> Z;
  plain_fixed : forall dst src : FixTy, Z -> Z;
}.
Class EpochFixedLaws {EF : EpochFixed} := {
  saturating_div_range t x y : fixed_range t x -> fixed_range t y -> fixed_range t (saturating_div t x y);
  checked_mul_spec t x y : fixed_range t x -> fixed_range t y -> 0 <= x -> 0 <= y ->
    checked_mul t x y = if x * y / unit_ t <=? max_bits t then Some (x * y / unit_ t) else None;
  plain_num_range t n : fixed_range t (plain_num t n);
  plain_fixed_range dst src x : fixed_range dst (plain_fixed dst src x);
}.

(** A row of a sparse matrix: columns with their values. *)
Abbreviation Row := (list (Z * Z)).
Abbreviation Sparse := (list Row).

(** [v[j]] *)
Definition at_ {A} (v : list A) (j : Z) : option A := v !! Z.to_nat j.
(** [v[j] = f(v[j])] *)
Definition update_at {A} (v : list A) (j : Z) (f : A -> A) : option (list A) :=
  x ← at_ v j; Some (<[Z.to_nat j := f x]> v).

(** A loop whose body may trap. *)
Fixpoint fold_opt {A B} (f : A -> B -> option A) (a : A) (l : list B) : option A :=
  match l with
  | [] => Some a
  | x :: l => b ← f a x; fold_opt f b l
  end.
(** [filter] with a condition that may trap. *)
Fixpoint filter_opt {A} (f : A -> option bool) (l : list A) : option (list A) :=
  match l with
  | [] => Some []
  | x :: l => b ← f x; r ← filter_opt f l; Some (if b : bool then x :: r else r)
  end.
Definition assert_ (b : bool) : option unit := if b then Some tt else None.
(** [enumerate()] *)
Definition enumerate {A} (l : list A) : list (Z * A) := imap (fun i x => (Z.of_nat i, x)) l.

Section EpochMatrix.
Context {F : SubstrateFixed} {EF : EpochFixed}.
Abbreviation num := (from_num I32F32).
Abbreviation add := (saturating_add I32F32).
Abbreviation sub := (saturating_sub I32F32).
Abbreviation mul := (saturating_mul I32F32).
Abbreviation div := (safe_div I32F32).
Implicit Types (vec : list Z) (m : Sparse).

(** ** Conversions *)

Definition fixed_to_u16 (x : Z) : Z := to_num I32F32 u16 x.
Definition fixed_to_u64 (x : Z) : Z := to_num I32F32 u64 x.
Definition fixed64_to_u64 (x : Z) : Z := to_num I64F64 u64 x.
Definition fixed64_to_fixed32 (x : Z) : Z := from_fixed I32F32 I64F64 x.
Definition fixed32_to_fixed64 (x : Z) : Z := from_fixed I64F64 I32F32 x.
Definition u16_to_fixed (x : Z) : Z := num x.
Definition u16_proportion_to_fixed (x : Z) : Z := div (num x) (num U16_MAX).
Definition fixed_to_fixed_u16_proportion (x : Z) : Z := div x (num U16_MAX).
Definition fixed_proportion_to_u16 (x : Z) : Z := fixed_to_u16 (mul x (num U16_MAX)).
Definition vec_fixed32_to_u64 vec : list Z := map fixed_to_u64 vec.
Definition vec_fixed64_to_fixed32 vec : list Z := map fixed64_to_fixed32 vec.
Definition vec_fixed32_to_fixed64 vec : list Z := map fixed32_to_fixed64 vec.
Definition vec_fixed64_to_u64 vec : list Z := map fixed64_to_u64 vec.
Definition vec_fixed_proportions_to_u16 vec : list Z := map fixed_proportion_to_u16 vec.

(** ** Vectors *)

Definition is_zero vec : bool := sum I32F32 vec =? num 0.

(** [result[idx] = false] for all but the [k] largest entries. *)
Definition clear_smallest (vec : list Z) (k : Z) (result : list bool) : list bool :=
  let n := Z.of_nat (length vec) in
  if n <? k then result
  else
    let idxs := sort_by_key (fun idx => nth idx vec 0) (seq 0 (length vec)) in
    foldl (fun result idx => <[idx := false]> result) result (take (Z.to_nat (sat_sub n k)) idxs).
Definition is_topk (vec : list Z) (k : Z) : list bool := clear_smallest vec k (replicate (length vec) true).
Definition is_topk_nonzero (vec : list Z) (k : Z) : list bool :=
  clear_smallest vec k (map (fun elem => negb (elem =? 0)) vec).

Definition normalize vec : list Z :=
  let x_sum := sum I32F32 vec in
  if negb (x_sum =? num 0) then map (fun xi => div xi x_sum) vec else vec.
Definition inplace_normalize_using_sum vec (x_sum : Z) : list Z :=
  if x_sum =? num 0 then vec else map (fun value => div value x_sum) vec.
Definition inplace_normalize_64 vec : list Z :=
  let x_sum := sum I64F64 vec in
  if x_sum =? from_num I64F64 0 then vec else map (fun value => safe_div I64F64 value x_sum) vec.

Definition vecdiv (x y : list Z) : option (list Z) :=
  assert_ (length x =? length y)%nat ;;
  Some (zip_with (fun x_i y_i => if negb (y_i =? 0) then div x_i y_i else num 0) x y).

Definition inplace_mask_vector (mask : list bool) vec : option (list Z) :=
  match mask with
  | [] => Some vec
  | _ =>
      assert_ (length mask =? length vec)%nat ;;
      Some (zip_with (fun (b : bool) v => if b then num 0 else v) mask vec)
  end.

(** A product that overflows counts as zero. *)
Definition vec_mul (a b : list Z) : list Z := zip_with (fun x y => default 0 (checked_mul I32F32 x y)) a b.

Definition clamp_value (value low high : Z) : Z := Z.max (Z.min value high) low.
Definition safe_exp (value : Z) : Z := default (num 0) (exp I32F32 value).

(** ** Masks *)

Definition mask_rows_sparse (mask : list bool) m : option Sparse :=
  assert_ (length m =? length mask)%nat ;;
  Some (zip_with (fun (b : bool) row => if b then [] else row) mask m).
Definition mask_diag_sparse m : Sparse :=
  map (fun '(i, row) => filter (fun x : Z * Z => i <> x.1) row) (enumerate m).
Definition mask_diag_sparse_except_index m (except_index : Z) : Sparse :=
  map (fun '(i, row) =>
      filter (fun x : Z * Z => i <> x.1 \/ (i = except_index /\ x.1 = except_index)) row)
    (enumerate m).
Definition vec_mask_sparse_matrix m (first_vector second_vector : list Z) (mask_fn : Z -> Z -> bool) : option Sparse :=
  mapM (fun '(i, row) =>
      filter_opt (fun '(j, _) =>
        first ← at_ first_vector i; second ← at_ second_vector j; Some (negb (mask_fn first second))) row)
    (enumerate m).
Definition scalar_vec_mask_sparse_matrix m (scalar : Z) (vector : list Z) (mask_fn : Z -> Z -> bool) : option Sparse :=
  mapM (filter_opt (fun '(j, _) => x ← at_ vector j; Some (negb (mask_fn scalar x)))) m.

(** ** Rows *)

Definition inplace_row_normalize_sparse m : Sparse :=
  map (fun row =>
      let row_sum := sum I32F32 (map snd row) in
      if num 0 <? row_sum then map (fun '(j, value) => (j, div value row_sum)) row else row) m.
Definition row_sum_sparse m : list Z := map (fun row => sum I32F32 (map snd row)) m.
Definition row_hadamard_sparse m vec : Sparse :=
  zip_with (fun row vec_val => map (fun '(j, value) => (j, mul value vec_val)) row) m vec.

(** ** Columns *)

Definition add_at (col : list Z) (entry : Z * Z) : option (list Z) :=
  update_at col entry.1 (fun x => add x entry.2).
Definition zeros (columns : Z) : list Z := replicate (Z.to_nat columns) (num 0).
Definition col_sum_sparse m (columns : Z) : option (list Z) :=
  fold_opt (fold_opt add_at) (zeros columns) m.
(** Divides every value by the entry of its column, unless that is zero. *)
Definition divide_columns (cols : list Z) m : option Sparse :=
  mapM (mapM (fun '(j, value) => c ← at_ cols j; Some (j, if c =? num 0 then value else div value c))) m.
Definition inplace_col_normalize_sparse m (columns : Z) : option Sparse :=
  col_sum ← col_sum_sparse m columns; divide_columns col_sum m.
Definition max_at (col : list Z) (entry : Z * Z) : option (list Z) :=
  update_at col entry.1 (fun x => if x <? entry.2 then entry.2 else x).
Definition inplace_col_max_upscale_sparse m (columns : Z) : option Sparse :=
  col_max ← fold_opt (fold_opt max_at) (zeros columns) m; divide_columns col_max m.

Definition col_clip_entry (col_threshold : list Z) (row : Row) (entry : Z * Z) : option Row :=
  let '(j, value) := entry in
  t ← at_ col_threshold j;
  Some (if t <? value then if 0 <? t then row ++ [(j, t)] else row else row ++ [(j, value)]).
Definition col_clip_sparse m (col_threshold : list Z) : option Sparse :=
  mapM (fold_opt (col_clip_entry col_threshold) []) m.

(** ** Products *)

Definition matmul_sparse m vec (columns : Z) : option (list Z) :=
  fold_opt (fun result '(i, row) =>
      fold_opt (fun result '(j, value) => v ← at_ vec i; add_at result (j, mul v value)) result row)
    (zeros columns) (enumerate m).
Definition matmul_transpose_sparse m vec : option (list Z) :=
  mapM (fold_opt (fun result '(j, value) => v ← at_ vec j; Some (add result (mul v value))) (num 0)) m.
Definition mat_vec_mul_sparse m vec : Sparse :=
  map (omap (fun '(j, value) =>
      match at_ vec j with
      | Some vector_value =>
          let new_value := mul value vector_value in
          if negb (new_value =? num 0) then Some (j, new_value) else None
      | None => None
      end)) m.

(** ** Weighted median *)

(** The loop over the partition: the stake below and above the pivot, and the
    indices on either side. *)
Definition partition_step (stake score : list Z) (pivot : Z) (acc : Z * Z * list Z * list Z) (idx : Z)
    : option (Z * Z * list Z * list Z) :=
  let '(lo_stake, hi_stake, lower, upper) := acc in
  x ← at_ score idx;
  if x =? pivot then Some acc
  else
    s ← at_ stake idx;
    Some (if x <? pivot then (add lo_stake s, hi_stake, lower ++ [idx], upper)
          else (lo_stake, add hi_stake s, lower, upper ++ [idx])).

(** The recursion is on ever smaller partitions; the fuel is the length of the
    first one. *)
Fixpoint weighted_median (fuel : nat) (stake score partition_idx : list Z) (minority partition_lo partition_hi : Z)
    : option Z :=
  match fuel with
  | O => None
  | S fuel =>
      match partition_idx with
      | [] => Some (num 0)
      | [idx] => at_ score idx
      | _ =>
          assert_ (length stake =? length score)%nat ;;
          mid ← partition_idx !! (length partition_idx / 2)%nat;
          pivot ← at_ score mid;
          '(lo_stake, hi_stake, lower, upper) ←
            fold_opt (partition_step stake score pivot) (num 0, num 0, [], []) partition_idx;
          if (add partition_lo lo_stake <=? minority) && (minority <? sub partition_hi hi_stake) then Some pivot
          else if (minority <? add partition_lo lo_stake) && negb (bool_decide (lower = [])) then
            weighted_median fuel stake score lower minority partition_lo (add partition_lo lo_stake)
          else if (sub partition_hi hi_stake <=? minority) && negb (bool_decide (upper = [])) then
            weighted_median fuel stake score upper minority (sub partition_hi hi_stake) partition_hi
          else Some pivot
      end
  end.

(** One row of the scores, for the [k]-th validator with stake. *)
Definition score_row (k : Z) (use_score : list (list Z)) (entry : Z * Z) : option (list (list Z)) :=
  let '(c, val) := entry in
  column ← at_ use_score c;
  column ← update_at column k (fun _ => val);
  update_at use_score c (fun _ => column).

Definition weighted_median_col_sparse (stake : list Z) (score : Sparse) (columns majority : Z) : option (list Z) :=
  let use_stake := inplace_normalize (filter (fun s => num 0 < s) stake) in
  let stake_sum := sum I32F32 use_stake in
  let stake_idx := seqZ 0 (Z.of_nat (length use_stake)) in
  let minority := sub stake_sum majority in
  let use_score := replicate (Z.to_nat columns) (replicate (length use_stake) (num 0)) in
  '(use_score, _) ← fold_opt (fun '(use_score, k) '(r, s) =>
      if s <=? num 0 then Some (use_score, k)
      else
        row ← at_ score r;
        use_score ← fold_opt (score_row k) use_score row;
        Some (use_score, k + 1))
    (use_score, 0) (enumerate stake);
  mapM (fun column =>
      weighted_median (S (length use_stake)) use_stake column stake_idx minority (num 0) stake_sum)
    use_score.

(** ** Interpolation and moving averages *)

(** A row written out, entries out of range ignored. *)
Definition dense_row (columns : Z) (row : Row) : list Z :=
  foldl (fun dense '(j, value) => <[Z.to_nat j := value]> dense) (zeros columns) row.
(** The entries of a dense row that satisfy [keep]. *)
Definition sparse_row (keep : Z -> bool) (dense : list Z) : Row :=
  filter (fun x => keep x.2) (enumerate dense).

Definition interpolate_sparse (mat1 mat2 : Sparse) (columns ratio : Z) : option Sparse :=
  if ratio =? num 0 then Some mat1
  else if ratio =? num 1 then Some mat2
  else
    assert_ (length mat1 =? length mat2)%nat ;;
    Some (zip_with (fun row1 row2 =>
        sparse_row (fun interp => num 0 <? interp)
          (zip_with (fun v1 v2 => add v1 (mul ratio (sub v2 v1))) (dense_row columns row1) (dense_row columns row2)))
      mat1 mat2).

Definition mat_ema_sparse (new old : Sparse) (alpha : Z) : option Sparse :=
  assert_ (length new =? length old)%nat ;;
  let one_minus_alpha := sub (num 1) alpha in
  mapM (fun '(new_row, old_row) =>
      row ← fold_opt (fun row '(j, value) => add_at row (j, mul alpha value)) (zeros (Z.of_nat (length new))) new_row;
      row ← fold_opt (fun row '(j, value) => add_at row (j, mul one_minus_alpha value)) row old_row;
      Some (sparse_row (fun value => num 0 <? value) row))
    (zip new old).

(** One row of [mat_ema_alpha_sparse]: the old bonds decayed, then the purchases
    added; columns beyond the row of alphas are ignored. *)
Definition decay_row (alpha_row : list Z) (old_row : Row) : list Z :=
  foldl (fun decayed '(j, old_val) =>
      match at_ alpha_row j with
      | Some alpha_val => <[Z.to_nat j := mul (sub (num 1) alpha_val) old_val]> decayed
      | None => decayed
      end)
    (replicate (length alpha_row) (num 0)) old_row.
Definition purchase_row (alpha_row decayed : list Z) (new_row : Row) : Row :=
  omap (fun '(j, new_val) =>
      match at_ alpha_row j, at_ decayed j with
      | Some alpha_val, Some decayed_val =>
          let purchase_increment := Z.max (mul alpha_val new_val) (num 0) in
          let result_val := Z.min (add decayed_val purchase_increment) (num 1) in
          if num 0 <? result_val then Some (j, result_val) else None
      | _, _ => None
      end) new_row.
Definition mat_ema_alpha_sparse (new old : Sparse) (alpha : list (list Z)) : option Sparse :=
  assert_ (length new =? length old)%nat ;;
  assert_ (length new =? length alpha)%nat ;;
  Some (map (fun '(new_row, old_row, alpha_row) => purchase_row alpha_row (decay_row alpha_row old_row) new_row)
    (zip (zip new old) alpha)).
End EpochMatrix.
