(* ===== verification/EpochBounds.v ===== *)
(** * Bounds of the epoch's vectors and matrices

    When the functions of EpochMatrix.v do not trap, and how large their results
    can be: sums stay inside [I32F32], normalised vectors sum to at most one,
    and the entries of a matrix stay in their columns and below a bound. *)

From S2P Require Import Prelude Fixed EpochMath EpochMatrix.
From stdpp Require Import prelude list.
From Stdlib Require Import ZArith Lia.
#[local] Open Scope Z_scope.

(** ** Computations that do not trap *)

Lemma mapM_total {A B} (f : A -> option B) (P : B -> Prop) l :
  Forall (fun x => exists y, f x = Some y /\ P y) l ->
  exists k, mapM f l = Some k /\ length k = length l /\ Forall P k.
Proof.
  induction 1 as [|x l (y & Hy & HP) _ (k & Hk & Hl & Hf)]; [by exists []|].
  exists (y :: k). cbn. rewrite Hy. cbn. change (mapM f l) with (mapM f l) in Hk. rewrite Hk. cbn.
  split; [done|]. split; [by rewrite Hl|by constructor].
Qed.

Lemma fold_total {A B} (P : A -> Prop) (f : A -> B -> option A) l :
  (forall a x, x ∈ l -> P a -> exists a', f a x = Some a' /\ P a') ->
  forall a, P a -> exists a', fold_opt f a l = Some a' /\ P a'.
Proof.
  induction l as [|x l IH]; intros Hf a Ha; cbn; [by exists a|].
  destruct (Hf a x (list_elem_of_here _ _) Ha) as (a' & -> & Ha'). cbn.
  apply IH; [|done]. intros b y Hy. apply Hf. by apply list_elem_of_further.
Qed.

Lemma filter_total {A} (f : A -> option bool) l : (forall x, x ∈ l -> is_Some (f x)) ->
  exists k, filter_opt f l = Some k /\ k `sublist_of` l.
Proof.
  induction l as [|x l IH]; intros Hf; cbn; [by exists []|].
  destruct (Hf x (list_elem_of_here _ _)) as [b ->]. cbn.
  destruct IH as (k & -> & Hk); [intros y Hy; apply Hf; by apply list_elem_of_further|]. cbn.
  destruct b; [exists (x :: k)|exists k]; (split; [done|by constructor]).
Qed.

Lemma elem_of_enumerate {A} (l : list A) i x : (i, x) ∈ enumerate l -> at_ l i = Some x /\ 0 <= i < Z.of_nat (length l).
Proof.
  unfold enumerate. intros (j & y & E & Hj)%elem_of_lookup_imap. injection E as -> ->.
  unfold at_. rewrite Nat2Z.id. pose proof (lookup_lt_Some _ _ _ Hj). split; [done|lia].
Qed.

Lemma enumerate_snd {A} (l : list A) : (enumerate l).*2 = l.
Proof. unfold enumerate. rewrite fmap_imap. apply list_eq. intros i. rewrite list_lookup_imap. by destruct (l !! i). Qed.

Lemma at_is_Some {A} (l : list A) i : 0 <= i < Z.of_nat (length l) -> exists x, at_ l i = Some x.
Proof. intros Hi. apply lookup_lt_is_Some_2. lia. Qed.
Lemma at_elem {A} (l : list A) i x : at_ l i = Some x -> x ∈ l.
Proof. apply list_elem_of_lookup_2. Qed.

Lemma update_at_total {A} (l : list A) i f : 0 <= i < Z.of_nat (length l) ->
  exists x, at_ l i = Some x /\ update_at l i f = Some (<[Z.to_nat i := f x]> l).
Proof. intros Hi. destruct (at_is_Some l i Hi) as [x Hx]. exists x. unfold update_at. by rewrite Hx. Qed.

Lemma fold_count {A B} (P : Z -> A -> Prop) (f : A -> B -> option A) l :
  (forall k a x, x ∈ l -> P k a -> exists a', f a x = Some a' /\ P (k + 1) a') ->
  forall k a, P k a -> exists a', fold_opt f a l = Some a' /\ P (k + Z.of_nat (length l)) a'.
Proof.
  induction l as [|x l IH]; intros Hf k a Ha; cbn [fold_opt length].
  { exists a. by rewrite Z.add_0_r. }
  destruct (Hf k a x (list_elem_of_here _ _) Ha) as (a' & -> & Ha'). cbn.
  destruct (IH ltac:(intros; apply Hf; [by apply list_elem_of_further|done]) (k + 1) a' Ha') as (b & -> & Hb).
  exists b. split; [done|]. by replace (k + Z.of_nat (S (length l))) with (k + 1 + Z.of_nat (length l)) by lia.
Qed.

Lemma fold_concat {A B} (f : A -> B -> option A) (m : list (list B)) a :
  fold_opt (fold_opt f) a m = fold_opt f a (concat m).
Proof.
  revert a. induction m as [|row m IH]; intros a; [done|]. cbn [fold_opt concat].
  revert a. induction row as [|x row IHr]; intros a; cbn; [apply IH|].
  destruct (f a x) as [b|]; cbn; [apply IHr|done].
Qed.

Lemma Forall_zip_with_lr {A B C} (P : C -> Prop) (f : A -> B -> C) l k :
  (forall x y, x ∈ l -> y ∈ k -> P (f x y)) -> Forall P (zip_with f l k).
Proof. intros Hf. apply Forall_forall. intros z (x & y & -> & Hx & Hy)%elem_of_zip_with. by apply Hf. Qed.

Lemma at_update {A} (l : list A) i j f x : 0 <= i -> 0 <= j -> at_ l j = Some x ->
  at_ (<[Z.to_nat i := f]> l) j = if decide (i = j) then Some f else Some x.
Proof.
  unfold at_. intros Hi Hj Hx. case_decide as E.
  - subst. apply list_lookup_insert_eq. by eapply lookup_lt_Some.
  - rewrite list_lookup_insert_ne by lia. done.
Qed.

Section EpochBounds.
Context {F : SubstrateFixed} {EF : EpochFixed}.
Abbreviation num := (from_num I32F32).
Abbreviation add := (saturating_add I32F32).
Abbreviation sub := (saturating_sub I32F32).
Abbreviation mul := (saturating_mul I32F32).
Abbreviation div := (safe_div I32F32).
Implicit Types (vec : list Z) (m : Sparse).
Context {FL : SubstrateFixedLaws} {EL : EpochFixedLaws}.
Abbreviation ONE := (unit_ I32F32).
Abbreviation MAX := (max_bits I32F32).

Definition vec_in (b : Z) vec : Prop := Forall (fun x => 0 <= x <= b) vec.
(** An entry in one of [n] columns with a value up to [b]. *)
Definition cell_in (n b : Z) (entry : Z * Z) : Prop := 0 <= entry.1 < n /\ 0 <= entry.2 <= b.
Definition cells_in (n b : Z) m : Prop := Forall (Forall (cell_in n b)) m.
Definition mat_in (n b : Z) m : Prop := Z.of_nat (length m) = n /\ cells_in n b m.
(** No row has more than [n] entries. *)
Definition short (n : Z) m : Prop := Forall (fun row : Row => Z.of_nat (length row) <= n) m.

Lemma range32 x : 0 <= x <= MAX -> fixed_range I32F32 x.
Proof using. apply fixed_range_pos. Qed.
Lemma num0 : num 0 = 0.
Proof using FL. apply from_num_0. Qed.
Lemma one_max : 0 < ONE <= MAX.
Proof using. split; vm_compute; congruence. Qed.

Lemma mul32 x y : 0 <= x <= MAX -> 0 <= y <= ONE -> 0 <= mul x y <= x.
Proof using FL.
  intros Hx Hy. pose proof one_max. assert (Hb : 0 <= x * y / ONE <= x).
  { split; [apply Z.div_pos; nia|apply Z.div_le_upper_bound; nia]. }
  rewrite mul_spec by (try apply range32; lia). rewrite saturate_id by (apply range32; lia). done.
Qed.

Lemma div32 x y : 0 <= x <= y -> y <= MAX -> 0 <= div x y <= ONE /\ y * div x y <= x * ONE.
Proof using FL.
  intros Hx Hy. pose proof one_max. destruct (decide (y = 0)) as [->|].
  { rewrite safe_div_zero. lia. }
  assert (Hq : 0 <= x * ONE / y <= ONE) by (split; [apply Z.div_pos|apply Z.div_le_upper_bound]; nia).
  rewrite safe_div_spec by (try apply range32; lia). split; [done|]. apply Z.mul_div_le. lia.
Qed.

Lemma add32 x y : 0 <= x <= MAX -> 0 <= y <= MAX ->
  x <= add x y <= MAX /\ y <= add x y /\ add x y <= x + y.
Proof using FL. intros Hx Hy. rewrite add_spec, saturate_pos by (try apply range32; lia). lia. Qed.

Lemma vec_in_sum b vec : vec_in b vec -> 0 <= zsum id vec <= b * Z.of_nat (length vec).
Proof using.
  intros H. unfold vec_in in H. rewrite Forall_forall in H. split; [apply zsum_nonneg|apply zsum_bounded]; intros x Hx; by apply H.
Qed.

Lemma vec_in_le b c vec : b <= c -> vec_in b vec -> vec_in c vec.
Proof using. intros Hb H. eapply Forall_impl; [exact H|]. cbn. intros x Hx. lia. Qed.

Lemma vec_in_elem x vec : (forall y, y ∈ vec -> 0 <= y) -> x ∈ vec -> x <= zsum id vec.
Proof using. intros Hv Hx. by apply (zsum_elem id). Qed.

(** A vector divided by a bound of its sum. *)
Lemma divided_sum t s vec : (forall x, x ∈ vec -> 0 <= x) -> zsum id vec <= s -> 0 < s <= max_bits t ->
  (forall x, x ∈ map (fun x => safe_div t x s) vec -> 0 <= x) /\ zsum id (map (fun x => safe_div t x s) vec) <= unit_ t.
Proof using FL.
  intros Hv Hs Hm. pose proof (unit_pos t). pose proof (unit_max t).
  assert (Hx : forall x, x ∈ vec -> 0 <= safe_div t x s /\ s * safe_div t x s <= x * unit_ t).
  { intros x Hx. assert (x <= zsum id vec) by (by apply vec_in_elem). specialize (Hv x Hx).
    assert (Hq : 0 <= x * unit_ t / s <= unit_ t) by (split; [apply Z.div_pos|apply Z.div_le_upper_bound]; nia).
    rewrite safe_div_spec by (try apply fixed_range_pos; lia). split; [lia|]. apply Z.mul_div_le. lia. }
  split.
  { intros y (x & -> & Hi)%list_elem_of_fmap. by apply Hx. }
  change (map ?f vec) with (f <$> vec). rewrite zsum_fmap. unfold id.
  assert (Hle : zsum (fun x => s * safe_div t x s) vec <= zsum (fun x => unit_ t * x) vec).
  { apply zsum_le. intros x Hi. destruct (Hx x Hi). lia. }
  rewrite !zsum_mul in Hle. unfold id in Hs. fold (@id Z) in Hs.
  change (zsum (fun x => x) vec) with (zsum id vec) in *. nia.
Qed.

Lemma zero_sum vec : (forall x, x ∈ vec -> 0 <= x) -> zsum id vec = 0 -> forall x, x ∈ vec -> x = 0.
Proof using. intros Hv Hs x Hx. pose proof (vec_in_elem x vec Hv Hx). specialize (Hv x Hx). lia. Qed.

Lemma sum_nonneg t vec : (forall x, x ∈ vec -> 0 <= x) -> zsum id vec <= max_bits t -> sum t vec = zsum id vec.
Proof using FL. intros Hv Hs. apply sum_spec; [by apply Forall_forall|exact Hs]. Qed.

(** What normalising gives: no negative number, and at most one in all. *)
Definition normal t vec : Prop := (forall x, x ∈ vec -> 0 <= x) /\ zsum id vec <= unit_ t.

Lemma normal_in t vec : normal t vec -> Forall (fun x => 0 <= x <= unit_ t) vec.
Proof using.
  intros [H1 H2]. apply Forall_forall. intros x Hx. pose proof (vec_in_elem x vec H1 Hx). specialize (H1 x Hx). lia.
Qed.

Lemma normalize_spec vec : (forall x, x ∈ vec -> 0 <= x) -> zsum id vec <= MAX ->
  normal I32F32 (inplace_normalize vec) /\ length (inplace_normalize vec) = length vec.
Proof using FL.
  intros Hv Hs. unfold inplace_normalize. rewrite sum_nonneg, num0 by done.
  assert (0 <= zsum id vec) by (by apply zsum_nonneg). pose proof one_max.
  destruct (Z.eqb_spec (zsum id vec) 0); [split; [split; [done|lia]|done]|].
  split; [|apply length_map]. apply divided_sum; [done|lia|lia].
Qed.

Lemma normalize64_spec vec : (forall x, x ∈ vec -> 0 <= x) -> zsum id vec <= max_bits I64F64 ->
  normal I64F64 (inplace_normalize_64 vec) /\ length (inplace_normalize_64 vec) = length vec.
Proof using FL.
  intros Hv Hs. unfold inplace_normalize_64. rewrite sum_nonneg, from_num_0 by done.
  assert (0 <= zsum id vec) by (by apply zsum_nonneg). pose proof (unit_pos I64F64).
  destruct (Z.eqb_spec (zsum id vec) 0); [split; [split; [done|lia]|done]|].
  split; [|apply length_map]. apply divided_sum; [done|lia|lia].
Qed.

(** ** Masks *)

Lemma cells_in_sublist n b (row row' : Row) : row' `sublist_of` row -> Forall (cell_in n b) row -> Forall (cell_in n b) row'.
Proof using. apply Forall_sublist. Qed.

Lemma mask_vector_spec (mask : list bool) vec : length mask = length vec -> (forall x, x ∈ vec -> 0 <= x) ->
  exists vec', inplace_mask_vector mask vec = Some vec' /\ length vec' = length vec /\
    (forall x, x ∈ vec' -> 0 <= x) /\ zsum id vec' <= zsum id vec.
Proof using FL.
  intros Hl Hv.
  assert (H : forall mask vec, length mask = length vec -> (forall x, x ∈ vec -> 0 <= x) ->
    let vec' := zip_with (fun (b : bool) v => if b then num 0 else v) mask vec in
    length vec' = length vec /\ (forall x, x ∈ vec' -> 0 <= x) /\ zsum id vec' <= zsum id vec).
  { clear mask vec Hl Hv. intros mask vec. revert mask. induction vec as [|x vec IH]; intros [|b mask] Hl Hv; try done.
    cbn in Hl. injection Hl as Hl. assert (Hx : 0 <= x) by (apply Hv, list_elem_of_here).
    destruct (IH mask Hl) as (H1 & H2 & H3); [intros y Hy; apply Hv; by apply list_elem_of_further|].
    cbn [zip_with length]. rewrite !zsum_cons, num0 in *. split; [by f_equal|]. split.
    - intros y [->|Hy]%elem_of_cons; [destruct b; lia|by apply H2].
    - unfold id in *. destruct b; lia. }
  unfold inplace_mask_vector. destruct mask as [|b mask].
  - exists vec. split; [done|]. split; [done|]. split; [done|lia].
  - rewrite Hl. unfold assert_. rewrite Nat.eqb_refl. cbn [mbind option_bind]. eexists. split; [reflexivity|]. by apply H.
Qed.

Lemma rows_sublist n b (m m' : Sparse) : Forall2 (fun row' row => row' `sublist_of` row) m' m ->
  mat_in n b m -> short n m -> mat_in n b m' /\ short n m'.
Proof using.
  intros H [Hl Hc] Hs. split; [split|].
  - by rewrite (Forall2_length _ _ _ H).
  - unfold cells_in in *. clear Hl Hs. induction H as [|row' row m' m Hr H IH]; [constructor|].
    inversion_clear Hc. constructor; [by eapply Forall_sublist|by apply IH].
  - unfold short in *. clear Hl Hc. induction H as [|row' row m' m Hr H IH]; [constructor|].
    inversion_clear Hs. constructor; [|by apply IH]. apply sublist_length in Hr. lia.
Qed.

Lemma mask_rows_spec n b (mask : list bool) m : Z.of_nat (length mask) = n -> mat_in n b m -> short n m ->
  exists m', mask_rows_sparse mask m = Some m' /\ mat_in n b m' /\ short n m'.
Proof using.
  intros Hl Hm Hs. pose proof Hm as [Hlm _]. unfold mask_rows_sparse, assert_.
  rewrite (proj2 (Nat.eqb_eq _ _)) by lia. cbn [mbind option_bind].
  eexists. split; [reflexivity|]. apply (rows_sublist _ _ m); [|exact Hm|exact Hs].
  assert (E : length mask = length m) by lia. clear - E. revert mask E.
  induction m as [|row m IH]; intros [|c mask] E; try done. cbn. constructor.
  - destruct c; [apply sublist_nil_l|done].
  - apply IH. by injection E.
Qed.

Lemma enumerate_filter_sublist (keep : Z -> Z * Z -> Prop) `{!forall i x, Decision (keep i x)} m :
  Forall2 (fun row' row => row' `sublist_of` row) (map (fun '(i, row) => filter (keep i) row) (enumerate m)) m.
Proof using.
  unfold enumerate. assert (G : forall (g : nat -> Z), Forall2 (fun row' row => row' `sublist_of` row)
    (map (fun '(i, row) => filter (keep i) row) (imap (fun i x => (g i, x)) m)) m); [|apply G].
  induction m as [|row m IH]; intros g; [constructor|]. cbn. constructor; [apply sublist_filter|].
  apply (IH (fun i => g (S i))).
Qed.

Lemma vec_mask_spec n b m first second f : Z.of_nat (length first) = n -> Z.of_nat (length second) = n ->
  mat_in n b m -> short n m -> exists m', vec_mask_sparse_matrix m first second f = Some m' /\ mat_in n b m' /\ short n m'.
Proof using.
  intros H1 H2 Hm Hs. pose proof Hm as [Hl Hc]. unfold vec_mask_sparse_matrix. unfold cells_in in Hc. rewrite Forall_forall in Hc.
  assert (G : forall (l : list (Z * Row)), (forall i row, (i, row) ∈ l -> 0 <= i < n /\ Forall (cell_in n b) row) ->
    exists m', mapM (fun '(i, row) => filter_opt (fun '(j, _) =>
        first ← at_ first i; second ← at_ second j; Some (negb (f first second))) row) l = Some m' /\
      Forall2 (fun row' row => row' `sublist_of` row) m' l.*2).
  { induction l as [|[i row] l IH]; intros Hrow; [exists []; split; [done|constructor]|].
    destruct (Hrow i row (list_elem_of_here _ _)) as [Hi Hcells].
    destruct IH as (m' & Em & Hm'); [intros i' r' Hr'; apply Hrow; by apply list_elem_of_further|].
    destruct (filter_total (fun '(j, _) => first ← at_ first i; second ← at_ second j; Some (negb (f first second))) row) as (k & Ek & Hk).
    { intros [j v] Hjv. rewrite Forall_forall in Hcells. destruct (Hcells _ Hjv) as [Hj _]. cbn in Hj.
      destruct (at_is_Some first i) as [x ->]; [lia|]. destruct (at_is_Some second j) as [y ->]; [lia|]. by eexists. }
    exists (k :: m'). cbn. rewrite Ek. cbn. rewrite Em. split; [done|by constructor]. }
  destruct (G (enumerate m)) as (m' & Em & Hm').
  { intros i row Hir. apply elem_of_enumerate in Hir as [Ha Hi]. split; [lia|]. apply Hc. by eapply at_elem. }
  exists m'. split; [done|]. apply (rows_sublist _ _ m); [|exact Hm|exact Hs].
  by rewrite enumerate_snd in Hm'.
Qed.

Lemma scalar_mask_spec n b m scalar vector f : Z.of_nat (length vector) = n -> mat_in n b m ->
  exists m', scalar_vec_mask_sparse_matrix m scalar vector f = Some m' /\ mat_in n b m'.
Proof using.
  intros Hv [Hl Hc]. unfold scalar_vec_mask_sparse_matrix.
  destruct (mapM_total (filter_opt (fun '(j, _) => x ← at_ vector j; Some (negb (f scalar x)))) (Forall (cell_in n b)) m)
    as (m' & -> & Hl' & Hc').
  - eapply Forall_impl; [exact Hc|]. intros row Hrow.
    edestruct (filter_total (fun '(j, _) => x ← at_ vector j; Some (negb (f scalar x))) row) as (k & Ek & Hk).
    { intros [j v] Hjv. rewrite Forall_forall in Hrow. destruct (Hrow _ Hjv) as [Hj _]. cbn in Hj.
      destruct (at_is_Some vector j) as [x ->]; [lia|]. by eexists. }
    exists k. split; [exact Ek|]. by eapply Forall_sublist.
  - exists m'. split; [done|]. split; [lia|done].
Qed.

(** ** Columns *)

Lemma cells_concat n b m : cells_in n b m -> Forall (cell_in n b) (concat m).
Proof using. intros H. unfold cells_in in H. induction H; cbn; [constructor|]. by apply Forall_app_2. Qed.

(** A running value of a column that never falls below what it has seen. *)
Definition growing (g : Z -> Z -> Z) : Prop :=
  forall x v, 0 <= x <= MAX -> 0 <= v <= MAX -> x <= g x v <= MAX /\ v <= g x v.
Definition dominates (col : list Z) (entry : Z * Z) : Prop := exists x, at_ col entry.1 = Some x /\ entry.2 <= x.

Lemma grow_columns g n l col : growing g -> Forall (cell_in n MAX) l -> Z.of_nat (length col) = n -> vec_in MAX col ->
  exists col', fold_opt (fun col (entry : Z * Z) => update_at col entry.1 (fun x => g x entry.2)) col l = Some col' /\
    Z.of_nat (length col') = n /\ vec_in MAX col' /\ forall e, dominates col e \/ e ∈ l -> 0 <= e.1 -> dominates col' e.
Proof using.
  intros Hg Hl. revert col. induction Hl as [|[i v] l [Hi Hv] Hl IH]; intros col Hlen Hcol; cbn [fold_opt].
  { exists col. do 3 (split; [done|]). intros e [He|He%elem_of_nil]; done. }
  cbn in Hi, Hv. cbn [fst snd]. destruct (update_at_total col i (fun x => g x v)) as (x & Hx & ->); [lia|]. cbn.
  assert (Hxr : 0 <= x <= MAX) by (unfold vec_in in Hcol; rewrite Forall_forall in Hcol; by eapply Hcol, at_elem).
  destruct (Hg x v Hxr Hv) as [Hgx Hgv].
  destruct (IH (<[Z.to_nat i := g x v]> col)) as (col' & E & Hlen' & Hcol' & Hdom).
  { by rewrite length_insert. }
  { apply Forall_insert; [done|lia]. }
  exists col'. do 3 (split; [done|]). intros [j w] He Hj. cbn in Hj. apply Hdom; [|done].
  rewrite elem_of_cons in He. destruct He as [(y & Hy & Hw)|[E'|He]]; [| |by right].
  - left. cbn in Hy, Hw. unfold dominates. cbn [fst snd]. rewrite (at_update _ _ _ _ y) by (done || lia).
    case_decide as E'; eexists; (split; [done|]); [subst; congruence || (rewrite Hy in Hx; injection Hx as ->; lia)|done].
  - left. injection E' as -> ->. unfold dominates. cbn [fst snd]. rewrite (at_update _ _ _ _ x), decide_True by (done || lia).
    by exists (g x v).
Qed.

Lemma zeros_in n b : 0 <= n -> 0 <= b -> Z.of_nat (length (zeros n)) = n /\ vec_in b (zeros n).
Proof using FL.
  intros Hn Hb. unfold zeros. rewrite length_replicate, num0. split; [lia|]. apply Forall_replicate. lia.
Qed.

Lemma divide_row n cols row : Z.of_nat (length cols) = n -> vec_in MAX cols -> Forall (cell_in n MAX) row ->
  (forall e, e ∈ row -> dominates cols e) ->
  exists row', mapM (fun '(j, value) => c ← at_ cols j; Some (j, if c =? num 0 then value else div value c)) row = Some row' /\
    length row' = length row /\ Forall (cell_in n ONE) row'.
Proof using FL.
  intros Hlen Hcols Hcells Hdom. unfold vec_in in Hcols. rewrite Forall_forall in Hcols. rewrite Forall_forall in Hcells.
  apply mapM_total, Forall_forall. intros [j v] Hjv. destruct (Hcells _ Hjv) as [Hj Hv]. cbn in Hj, Hv.
  destruct (Hdom _ Hjv) as (c & Hc & Hvc). cbn in Hc, Hvc. rewrite Hc. cbn. eexists. split; [reflexivity|].
  pose proof (Hcols c (at_elem _ _ _ Hc)). split; cbn; [done|]. rewrite num0. pose proof one_max.
  destruct (Z.eqb_spec c 0); [lia|]. apply div32; lia.
Qed.

Lemma divide_columns_spec n cols m : Z.of_nat (length cols) = n -> vec_in MAX cols -> mat_in n MAX m ->
  (forall e, e ∈ concat m -> dominates cols e) ->
  exists m', divide_columns cols m = Some m' /\ mat_in n ONE m' /\ (short n m -> short n m').
Proof using FL.
  intros Hlen Hcols [Hl Hm] Hdom. enough (exists m', divide_columns cols m = Some m' /\
    Forall2 (fun row row' => length row' = length row /\ Forall (cell_in n ONE) row') m m') as (m' & E & H2).
  { exists m'. split; [exact E|]. unfold mat_in, cells_in, short. rewrite <- (Forall2_length _ _ _ H2). split; [split; [done|]|].
    - clear - H2. induction H2 as [|row row' m m' [_ H] _ IH]; by constructor.
    - clear - H2. induction H2 as [|row row' m m' [H _] _ IH]; [done|]. inversion_clear 1. constructor; [lia|by apply IH]. }
  clear Hl. unfold cells_in in Hm. unfold divide_columns. induction Hm as [|row m Hrow Hm IH]; [by exists []|].
  destruct IH as (m' & E & H2); [intros e He; apply Hdom; cbn; apply elem_of_app; by right|].
  destruct (divide_row n cols row) as (row' & Er & Hr); [done..|intros e He; apply Hdom; cbn; apply elem_of_app; by left|].
  exists (row' :: m'). cbn. rewrite Er. cbn. rewrite E. split; [done|by constructor].
Qed.

Lemma divided_by g n m : growing g -> mat_in n MAX m ->
  exists m', (cols ← fold_opt (fold_opt (fun col (entry : Z * Z) => update_at col entry.1 (fun x => g x entry.2))) (zeros n) m;
    divide_columns cols m) = Some m' /\ mat_in n ONE m' /\ (short n m -> short n m').
Proof using FL.
  intros Hg Hm. pose proof Hm as [Hl Hc]. pose proof one_max. destruct (zeros_in n MAX) as [Hz Hz']; [lia|lia|].
  rewrite fold_concat. destruct (grow_columns g n (concat m) (zeros n)) as (cols & -> & Hlen & Hcols & Hdom);
    [done|by apply cells_concat|done|done|]. cbn. apply divide_columns_spec; [done..|]. intros e He. apply Hdom; [by right|].
  apply cells_concat in Hc. rewrite Forall_forall in Hc. apply Hc in He as [? _]. lia.
Qed.

Lemma col_normalize_spec n m : mat_in n MAX m ->
  exists m', inplace_col_normalize_sparse m n = Some m' /\ mat_in n ONE m' /\ (short n m -> short n m').
Proof using FL. intros Hm. apply (divided_by add); [|done]. intros x v Hx Hv. pose proof (add32 x v Hx Hv). lia. Qed.

Lemma col_max_upscale_spec n m : mat_in n MAX m ->
  exists m', inplace_col_max_upscale_sparse m n = Some m' /\ mat_in n ONE m' /\ (short n m -> short n m').
Proof using FL.
  intros Hm. apply (divided_by (fun x v => if x <? v then v else x)); [|done].
  intros x v Hx Hv. destruct (Z.ltb_spec x v); lia.
Qed.

(** ** Rows *)

(** Mapping the values of each row, the columns untouched. *)
Lemma map_cells_spec n b c (f : Row -> Z -> Z) m : mat_in n b m -> short n m ->
  (forall row j v, row ∈ m -> (j, v) ∈ row -> 0 <= f row v <= c) ->
  mat_in n c (map (fun row => map (fun '(j, v) => (j, f row v)) row) m) /\
  short n (map (fun row => map (fun '(j, v) => (j, f row v)) row) m).
Proof using.
  intros [Hl Hm] Hs Hf. unfold cells_in, short in *. rewrite Forall_forall in Hm, Hs.
  split; [split|]; [by rewrite length_map| |]; apply Forall_forall; intros r (row & -> & Hrow)%list_elem_of_fmap.
  - apply Forall_forall. intros e ([j v] & -> & Hjv)%list_elem_of_fmap.
    specialize (Hm row Hrow). rewrite Forall_forall in Hm. split; [by apply (Hm _ Hjv)|]. by apply (Hf row j).
  - rewrite length_map. by apply Hs.
Qed.

Lemma cells_sum n b row : Forall (cell_in n b) row -> 0 <= zsum id (map snd row) <= b * Z.of_nat (length row).
Proof using.
  intros H. rewrite <- (length_map snd). apply vec_in_sum. unfold vec_in. apply Forall_forall.
  intros x (e & -> & He)%list_elem_of_fmap.
  rewrite Forall_forall in H. by apply H.
Qed.

Lemma row_sum_le n b row : 0 <= n <= 4096 -> 0 <= b <= U16_MAX * ONE -> Forall (cell_in n b) row ->
  Z.of_nat (length row) <= n -> sum I32F32 (map snd row) = zsum id (map snd row) /\ 0 <= zsum id (map snd row) <= b * n.
Proof using FL.
  intros Hn Hb Hrow Hlen. pose proof (cells_sum _ _ _ Hrow) as Hs.
  assert (b * n <= MAX).
  { transitivity (U16_MAX * ONE * 4096); [|vm_compute; congruence]. apply Z.mul_le_mono_nonneg; lia. }
  assert (zsum id (map snd row) <= b * n) by nia. split; [|lia]. apply sum_nonneg; [|lia].
  intros x (e & -> & He)%list_elem_of_fmap.
  rewrite Forall_forall in Hrow. by apply Hrow.
Qed.

Lemma row_normalize_spec n m : 0 <= n <= 4096 -> mat_in n (U16_MAX * ONE) m -> short n m ->
  mat_in n ONE (inplace_row_normalize_sparse m) /\ short n (inplace_row_normalize_sparse m).
Proof using FL.
  intros Hn Hm Hs. pose proof one_max.
  set (f := fun (row : Row) value => let row_sum := sum I32F32 (map snd row) in if num 0 <? row_sum then div value row_sum else value).
  assert (E : inplace_row_normalize_sparse m = map (fun row => map (fun '(j, v) => (j, f row v)) row) m).
  { apply map_ext. intros row. subst f. cbn. destruct (_ <? _); [done|]. symmetry. rewrite <- (map_id row) at 2.
    apply map_ext. by intros [j v]. }
  rewrite E. apply (map_cells_spec n (U16_MAX * ONE)); [done|done|]. intros row j v Hrow Hjv. subst f. cbn.
  destruct Hm as [_ Hm]. unfold cells_in in Hm. unfold short in Hs. rewrite Forall_forall in Hm, Hs.
  destruct (row_sum_le n (U16_MAX * ONE) row) as [-> Hb]; [done|lia|by apply Hm|by apply Hs|]. rewrite num0.
  assert (Hv : 0 <= v <= zsum id (map snd row)).
  { specialize (Hm row Hrow). rewrite Forall_forall in Hm. split; [by apply (Hm _ Hjv)|].
    apply vec_in_elem; [|by apply (list_elem_of_fmap_2 snd row (j, v))].
    intros x (e & -> & He)%list_elem_of_fmap. by apply Hm. }
  assert (U16_MAX * ONE * n <= MAX).
  { transitivity (U16_MAX * ONE * 4096); [|vm_compute; congruence]. apply Z.mul_le_mono_nonneg_l; lia. }
  destruct (Z.ltb_spec 0 (zsum id (map snd row))); [|lia]. apply div32; lia.
Qed.

Lemma hadamard_spec n m vec : mat_in n MAX m -> Z.of_nat (length vec) = n -> vec_in ONE vec ->
  mat_in n MAX (row_hadamard_sparse m vec).
Proof using FL.
  intros [Hl Hm] Hv Hvec. unfold row_hadamard_sparse. split; [rewrite length_zip_with; lia|].
  unfold cells_in, vec_in in *. rewrite Forall_forall in Hvec. clear Hl Hv. revert vec Hvec.
  induction Hm as [|row m Hrow Hm IH]; intros [|v vec] Hvec; try constructor.
  - apply Forall_forall. intros e ([j w] & -> & Hjw)%list_elem_of_fmap.
    rewrite Forall_forall in Hrow. destruct (Hrow _ Hjw) as [Hj Hw]. cbn in Hj, Hw. split; [done|]. cbn.
    pose proof (mul32 w v Hw (Hvec v (list_elem_of_here _ _))). lia.
  - apply IH. intros x Hx. apply Hvec. by apply list_elem_of_further.
Qed.

Lemma row_sums_spec n m : 0 <= n <= 4096 -> mat_in n ONE m -> short n m ->
  Z.of_nat (length (row_sum_sparse m)) = n /\ vec_in (ONE * n) (row_sum_sparse m).
Proof using FL.
  intros Hn [Hl Hm] Hs. unfold row_sum_sparse. rewrite length_map. split; [done|]. unfold vec_in, cells_in, short in *.
  rewrite Forall_forall in Hm, Hs. apply Forall_forall. intros x (row & -> & Hrow)%list_elem_of_fmap. destruct (row_sum_le n ONE row) as [-> Hb]; [done| |by apply Hm|by apply Hs|done].
  split; [apply Z.lt_le_incl, unit_pos|vm_compute; congruence].
Qed.

Lemma mat_vec_mul_spec n m vec : mat_in n ONE m -> short n m -> vec_in ONE vec ->
  mat_in n ONE (mat_vec_mul_sparse m vec) /\ short n (mat_vec_mul_sparse m vec).
Proof using FL.
  intros [Hl Hm] Hs Hvec. unfold mat_vec_mul_sparse. set (f := fun '(j, value) => _).
  assert (G : forall row, Forall (cell_in n ONE) row -> Forall (cell_in n ONE) (omap f row) /\
    (length (omap f row) <= length row)%nat).
  { intros row Hrow. induction Hrow as [|[j v] row [Hj Hv] Hrow IH]; [split; [constructor|done]|].
    cbn in Hj, Hv. destruct IH as [IH1 IH2]. cbn [omap list_omap]. subst f. cbn.
    destruct (at_ vec j) as [w|] eqn:Ew; [|split; [done|cbn; lia]]. destruct (negb _); [|split; [done|cbn; lia]].
    split; [|cbn; lia]. constructor; [|done]. split; [done|]. cbn. unfold vec_in in Hvec. rewrite Forall_forall in Hvec.
    pose proof one_max. pose proof (Hvec w (at_elem _ _ _ Ew)). pose proof (mul32 v w ltac:(lia) ltac:(done)). lia. }
  unfold cells_in, short in *. rewrite Forall_forall in Hm, Hs. split; [split; [by rewrite length_map|]|];
    apply Forall_forall; intros r (row & -> & Hrow)%list_elem_of_fmap;
    destruct (G row (Hm row Hrow)); [done|]. specialize (Hs row Hrow). cbn in Hs. lia.
Qed.

Lemma vec_mul_spec b x y : 0 <= b <= MAX -> vec_in b x -> vec_in ONE y -> length x = length y ->
  length (vec_mul x y) = length x /\ vec_in b (vec_mul x y).
Proof using FL EL.
  intros Hb Hx Hy Hl. unfold vec_mul. split; [rewrite length_zip_with; lia|]. unfold vec_in in *. revert y Hy Hl.
  induction Hx as [|u x Hu Hx IH]; intros [|v y] Hy Hl; try done. apply Forall_cons in Hy as [Hv Hy]. cbn.
  constructor; [|apply IH; [done|by injection Hl]]. pose proof one_max.
  rewrite checked_mul_spec by (try apply range32; lia).
  assert (0 <= u * v / ONE <= u) by (split; [apply Z.div_pos; nia|apply Z.div_le_upper_bound; nia]).
  destruct (_ <=? _); cbn; lia.
Qed.

(** ** Products *)

Lemma zsum_insert vec i x y : at_ vec i = Some x -> zsum id (<[Z.to_nat i := y]> vec) = zsum id vec - x + y.
Proof using.
  unfold at_. revert vec. induction (Z.to_nat i) as [|k IH]; intros [|z vec] Hx; try done; cbn in Hx |- *.
  - injection Hx as ->. rewrite !zsum_cons. unfold id. lia.
  - rewrite !zsum_cons, IH by done. lia.
Qed.

(** [k] numbers of at most one have been added to the vector. *)
Definition filled (n k : Z) vec : Prop := Z.of_nat (length vec) = n /\ vec_in MAX vec /\ zsum id vec <= ONE * k.

Lemma add_at_filled n k vec j w : filled n k vec -> 0 <= j < n -> 0 <= w <= ONE ->
  exists vec', add_at vec (j, w) = Some vec' /\ filled n (k + 1) vec'.
Proof using FL.
  intros (Hl & Hv & Hs) Hj Hw. pose proof one_max. unfold add_at. cbn [fst snd].
  destruct (update_at_total vec j (fun x => add x w)) as (x & Hx & ->); [lia|]. eexists. split; [reflexivity|].
  assert (Hxr : 0 <= x <= MAX) by (unfold vec_in in Hv; rewrite Forall_forall in Hv; by eapply Hv, at_elem).
  destruct (add32 x w Hxr ltac:(lia)) as (Ha & _ & Hle). split; [by rewrite length_insert|]. split.
  - apply Forall_insert; [done|lia].
  - rewrite (zsum_insert _ _ _ _ Hx). lia.
Qed.

Lemma matmul_spec n m vec : 0 <= n -> mat_in n ONE m -> short n m -> Z.of_nat (length vec) = n -> vec_in ONE vec ->
  exists r, matmul_sparse m vec n = Some r /\ filled n (n * n) r.
Proof using FL.
  intros Hn [Hl Hm] Hs Hlv Hvec. pose proof one_max. unfold cells_in, short, vec_in in *. rewrite Forall_forall in Hm, Hs. rewrite Forall_forall in Hvec.
  assert (Hrow : forall k result i row, (i, row) ∈ enumerate m -> filled n (k * n) result -> exists result',
    fold_opt (fun result '(j, value) => v ← at_ vec i; add_at result (j, mul v value)) result row = Some result' /\
    filled n ((k + 1) * n) result').
  { intros k result i row [Hrow Hi]%elem_of_enumerate Hr. apply at_elem in Hrow.
    destruct (at_is_Some vec i) as [v Hv]; [lia|]. rewrite Hv.
    destruct (fold_count (filled n) (fun result '(j, value) => v ← Some v; add_at result (j, mul v value)) row) with (k := k * n) (a := result)
      as (result' & -> & Hlen & Hin & Hsum); [|done|].
    - intros k' r [j w] Hjw Hr'. cbn. specialize (Hm row Hrow). rewrite Forall_forall in Hm. destruct (Hm _ Hjw) as [Hj Hw].
      cbn in Hj, Hw. apply add_at_filled; [done|done|].
      pose proof (Hvec v (at_elem _ _ _ Hv)). pose proof (mul32 v w ltac:(lia) ltac:(done)). lia.
    - exists result'. split; [done|]. do 2 (split; [done|]). specialize (Hs row Hrow). nia. }
  destruct (fold_count (fun k => filled n (k * n)) (fun result '(i, row) =>
      fold_opt (fun result '(j, value) => v ← at_ vec i; add_at result (j, mul v value)) result row) (enumerate m))
    with (k := 0) (a := zeros n) as (r & Er & Hr).
  - intros k a [i row] Hir Ha. by apply Hrow.
  - destruct (zeros_in n 0) as [Hz Hz0]; [done|lia|]. split; [done|]. split; [by apply (vec_in_le 0); [lia|]|].
    pose proof (vec_in_sum _ _ Hz0). lia.
  - exists r. split; [exact Er|]. rewrite <- Hl at 2. unfold enumerate in Hr. rewrite length_imap in Hr. by rewrite Z.add_0_l in Hr.
Qed.

Lemma matmul_transpose_spec n m vec : 0 <= n <= 4096 -> mat_in n ONE m -> short n m -> Z.of_nat (length vec) = n -> vec_in ONE vec ->
  exists r, matmul_transpose_sparse m vec = Some r /\ Z.of_nat (length r) = n /\ vec_in (ONE * n) r.
Proof using FL.
  intros Hn [Hl Hm] Hs Hlv Hvec. pose proof one_max. unfold cells_in, short, vec_in in *. rewrite Forall_forall in Hm, Hs. rewrite Forall_forall in Hvec.
  unfold matmul_transpose_sparse.
  destruct (mapM_total (fold_opt (fun result '(j, value) => v ← at_ vec j; Some (add result (mul v value))) (num 0))
    (fun x => 0 <= x <= ONE * n) m) as (r & Er & Hlr & Hr); [|exists r; split; [done|]; split; [lia|done]].
  apply Forall_forall. intros row Hrow.
  destruct (fold_count (fun k x => 0 <= x <= MAX /\ x <= ONE * k)
    (fun result '(j, value) => v ← at_ vec j; Some (add result (mul v value))) row) with (k := 0) (a := num 0) as (x & Ex & Hx & Hle).
  - intros k x [j w] Hjw [Hx Hle]. specialize (Hm row Hrow). rewrite Forall_forall in Hm. destruct (Hm _ Hjw) as [Hj Hw]. cbn in Hj, Hw.
    destruct (at_is_Some vec j) as [v Hv]; [lia|]. rewrite Hv. cbn [mbind option_bind]. eexists. split; [reflexivity|].
    pose proof (Hvec v (at_elem _ _ _ Hv)). pose proof (mul32 v w ltac:(lia) ltac:(done)).
    assert (Hvw : 0 <= mul v w <= MAX) by lia. pose proof (add32 x (mul v w) Hx Hvw). lia.
  - rewrite num0. lia.
  - exists x. split; [done|]. specialize (Hs row Hrow). cbn beta in Hs. split; [lia|]. nia.
Qed.

(** ** Clipping, interpolation and moving averages *)

Lemma col_clip_spec n b m cols : mat_in n b m -> short n m -> Z.of_nat (length cols) = n ->
  exists m', col_clip_sparse m cols = Some m' /\ mat_in n b m' /\ short n m'.
Proof using.
  intros [Hl Hm] Hs Hlen. unfold col_clip_sparse, cells_in, short in *. rewrite Forall_forall in Hm, Hs.
  destruct (mapM_total (fold_opt (col_clip_entry cols) []) (fun row => Forall (cell_in n b) row /\ Z.of_nat (length row) <= n) m)
    as (m' & Em & Hl' & Hm').
  - apply Forall_forall. intros row Hrow.
    destruct (fold_count (fun k r => Forall (cell_in n b) r /\ Z.of_nat (length r) <= k) (col_clip_entry cols) row)
      with (k := 0) (a := @nil (Z * Z)) as (r & Er & Hr1 & Hr2).
    + intros k r [j v] Hjv [Hr Hk]. specialize (Hm row Hrow). rewrite Forall_forall in Hm. pose proof (Hm _ Hjv) as [Hj Hv].
      cbn in Hj, Hv. unfold col_clip_entry. destruct (at_is_Some cols j) as [t ->]; [lia|]. cbn. eexists. split; [reflexivity|].
      assert (G : forall w, 0 <= w <= v -> Forall (cell_in n b) (r ++ [(j, w)]) /\ Z.of_nat (length (r ++ [(j, w)])) <= k + 1).
      { intros w Hw. split; [|rewrite length_app; cbn; lia]. apply Forall_app_2; [done|]. constructor; [|constructor]. unfold cell_in. cbn [fst snd]. lia. }
      destruct (Z.ltb_spec t v); [destruct (Z.ltb_spec 0 t)|]; [apply G; lia|split; [done|lia]|apply G; lia].
    + split; [constructor|cbn; lia].
    + exists r. split; [done|]. split; [done|]. specialize (Hs row Hrow). cbn in Hs. lia.
  - exists m'. split; [done|]. rewrite Forall_forall in Hm'. unfold mat_in, cells_in.
    split; [split; [lia|]|]; apply Forall_forall; intros r Hr; by apply Hm'.
Qed.

Lemma sparse_row_spec n dense : Z.of_nat (length dense) <= n -> Forall (fun x => x <= MAX) dense ->
  let row := sparse_row (fun x => num 0 <? x) dense in
  Forall (cell_in n MAX) row /\ Z.of_nat (length row) <= n.
Proof using FL.
  intros Hl Hd row. subst row. unfold sparse_row. split.
  - apply Forall_forall. intros [j v] [Hv Hjv]%list_elem_of_filter. cbn in Hv. rewrite num0 in Hv.
    apply elem_of_enumerate in Hjv as [Ha Hj]. rewrite Forall_forall in Hd. pose proof (Hd v (at_elem _ _ _ Ha)).
    apply Is_true_true_1, Z.ltb_lt in Hv. unfold cell_in. cbn [fst snd]. lia.
  - etransitivity; [apply Nat2Z.inj_le, length_filter|]. unfold enumerate. by rewrite length_imap.
Qed.

Lemma dense_row_spec n b row : 0 <= n -> 0 <= b -> Forall (cell_in n b) row ->
  Z.of_nat (length (dense_row n row)) = n /\ vec_in b (dense_row n row).
Proof using FL.
  intros Hn Hb Hrow. destruct (zeros_in n b) as [Hz Hz']; [done|done|]. unfold dense_row. revert Hz Hz'. generalize (zeros n).
  induction Hrow as [|[j v] row [_ Hv] Hrow IH]; intros d Hd Hd'; [done|]. cbn. cbn in Hv. apply IH; [by rewrite length_insert|].
  by apply Forall_insert.
Qed.

Lemma interpolate_spec n m1 m2 ratio : 0 <= n -> mat_in n ONE m1 -> short n m1 -> mat_in n ONE m2 -> short n m2 ->
  fixed_range I32F32 ratio ->
  exists m', interpolate_sparse m1 m2 n ratio = Some m' /\ mat_in n MAX m' /\ short n m'.
Proof using FL.
  intros Hn [Hl1 Hm1] Hs1 [Hl2 Hm2] Hs2 Hr. pose proof one_max. unfold interpolate_sparse, assert_.
  assert (Hle : forall m, mat_in n ONE m -> mat_in n MAX m).
  { intros m [? Hm]. split; [done|]. unfold cells_in in *. eapply Forall_impl; [exact Hm|]. intros row Hrow.
    eapply Forall_impl; [exact Hrow|]. intros e [? ?]. split; [done|lia]. }
  destruct (_ =? _); [exists m1; split; [done|]; split; [by apply Hle|done]|].
  destruct (_ =? _); [exists m2; split; [done|]; split; [by apply Hle|done]|].
  rewrite (proj2 (Nat.eqb_eq _ _)) by lia. cbn [mbind option_bind]. eexists. split; [reflexivity|].
  set (f := fun row1 row2 : Row => _).
  assert (Hf : forall row1 row2, Forall (cell_in n ONE) row1 -> Forall (cell_in n ONE) row2 ->
    Forall (cell_in n MAX) (f row1 row2) /\ Z.of_nat (length (f row1 row2)) <= n).
  { intros row1 row2 H1 H2. destruct (dense_row_spec n ONE row1) as [Hd1 Hv1]; [done|lia|done|].
    destruct (dense_row_spec n ONE row2) as [Hd2 Hv2]; [done|lia|done|]. apply sparse_row_spec.
    - rewrite length_zip_with. lia.
    - unfold vec_in in *. rewrite Forall_forall in Hv1, Hv2. apply Forall_zip_with_lr. 
      intros v1 v2 Hx1 Hx2. apply add_range; [apply range32; specialize (Hv1 _ Hx1); lia|].
      apply mul_range; [done|]. apply sub_range; apply range32; [specialize (Hv2 _ Hx2)|specialize (Hv1 _ Hx1)]; lia. }
  unfold mat_in, short, cells_in in *. split; [split|]; [rewrite length_zip_with; lia| |];
    apply Forall_zip_with_lr; intros row1 row2 H1 H2; rewrite Forall_forall in Hm1, Hm2; by apply Hf; [apply Hm1|apply Hm2].
Qed.

Lemma mat_ema_spec n new old alpha : mat_in n MAX new -> mat_in n MAX old -> fixed_range I32F32 alpha ->
  exists m', mat_ema_sparse new old alpha = Some m' /\ mat_in n MAX m' /\ short n m'.
Proof using FL.
  intros [Hl1 Hm1] [Hl2 Hm2] Ha. pose proof one_max. unfold mat_ema_sparse, assert_.
  rewrite (proj2 (Nat.eqb_eq _ _)) by lia. cbn [mbind option_bind].
  set (P := fun d : list Z => Z.of_nat (length d) = n /\ Forall (fixed_range I32F32) d).
  assert (Hfold : forall a row d, fixed_range I32F32 a -> Forall (cell_in n MAX) row -> P d ->
    exists d', fold_opt (fun row '(j, value) => add_at row (j, mul a value)) d row = Some d' /\ P d').
  { intros a row d Har Hrow Hd. apply fold_total; [|done]. intros v [j x] Hjx [Hlv Hv]. rewrite Forall_forall in Hrow.
    destruct (Hrow _ Hjx) as [Hj Hx]. cbn in Hj, Hx. unfold add_at. cbn [fst snd].
    destruct (update_at_total v j (fun y => add y (mul a x))) as (y & Hy & ->); [lia|]. eexists. split; [reflexivity|].
    split; [by rewrite length_insert|]. rewrite Forall_forall in Hv. apply Forall_insert; [by apply Forall_forall|].
    apply add_range; [by eapply Hv, at_elem|]. apply mul_range; [done|by apply range32]. }
  destruct (mapM_total (fun '(new_row, old_row) =>
      row ← fold_opt (fun row '(j, value) => add_at row (j, mul alpha value)) (zeros (Z.of_nat (length new))) new_row;
      row ← fold_opt (fun row '(j, value) => add_at row (j, mul (sub (num 1) alpha) value)) row old_row;
      Some (sparse_row (fun value => num 0 <? value) row))
    (fun row => Forall (cell_in n MAX) row /\ Z.of_nat (length row) <= n) (zip new old)) as (m' & Em & Hl' & Hm').
  - unfold cells_in in *. rewrite Forall_forall in Hm1, Hm2. apply Forall_zip_with_lr. intros new_row old_row H1 H2.
    destruct (Hfold alpha new_row (zeros (Z.of_nat (length new)))) as (d & -> & Hd); [done|by apply Hm1| |].
    { destruct (zeros_in n 0) as [Hz Hz']; [lia|lia|]. rewrite Hl1. split; [done|]. eapply Forall_impl; [exact Hz'|].
      intros x Hx. cbn beta in Hx. apply range32. lia. }
    cbn [mbind option_bind].
    destruct (Hfold (sub (num 1) alpha) old_row d) as (d' & -> & Hd'); [|by apply Hm2|done|].
    { apply sub_range; [apply from_num_range|done]. }
    eexists. split; [reflexivity|]. apply sparse_row_spec; [destruct Hd'; lia|]. destruct Hd' as [_ Hd'].
    eapply Forall_impl; [exact Hd'|]. by intros x [_ Hx].
  - exists m'. split; [exact Em|]. rewrite length_zip_with in Hl'. rewrite Forall_forall in Hm'. unfold mat_in, short, cells_in.
    split; [split; [lia|]|]; apply Forall_forall; intros r Hr; by apply Hm'.
Qed.

Lemma mat_ema_alpha_spec n new old alpha : mat_in n MAX new -> short n new -> length new = length old -> length new = length alpha ->
  exists m', mat_ema_alpha_sparse new old alpha = Some m' /\ mat_in n ONE m' /\ short n m'.
Proof using FL.
  intros [Hl Hm] Hs Ho Ha. unfold mat_ema_alpha_sparse, assert_. rewrite !(proj2 (Nat.eqb_eq _ _)) by lia.
  cbn [mbind option_bind]. eexists. split; [reflexivity|].
  assert (G : forall alpha_row d row, Forall (cell_in n MAX) row ->
    Forall (cell_in n ONE) (purchase_row alpha_row d row) /\ (length (purchase_row alpha_row d row) <= length row)%nat).
  { intros alpha_row d row Hrow. induction Hrow as [|[j v] row [Hj Hv] Hrow [IH1 IH2]]; [split; [constructor|done]|].
    unfold purchase_row in *. cbn [omap list_omap].
    destruct (at_ alpha_row j); [|split; [done|cbn in *; lia]]. destruct (at_ d j); [|split; [done|cbn in *; lia]].
    destruct (Z.ltb_spec (num 0) (Z.min (add z0 (Z.max (mul z v) (num 0))) (num 1))) as [Hp|]; [|split; [done|cbn in *; lia]].
    split; [|cbn in *; lia]. constructor; [|done]. rewrite num0, from_num_1 in *. split; cbn in *; [done|lia]. }
  unfold mat_in, short, cells_in in *. rewrite Forall_forall in Hm, Hs.
  split; [split|]; [rewrite length_map, !length_zip_with; lia| |]; apply Forall_forall;
    intros r ([[row o] a] & -> & Hroa)%list_elem_of_fmap; apply elem_of_zip_l, elem_of_zip_l in Hroa;
    destruct (G a (decay_row a o) row (Hm _ Hroa)) as [G1 G2]; [done|]. specialize (Hs _ Hroa). cbn in Hs. lia.
Qed.

(** ** Weighted median *)

Definition in_vec vec (idx : Z) : Prop := 0 <= idx < Z.of_nat (length vec).

Lemma partition_spec stake score pivot l : length stake = length score -> Forall (in_vec score) l ->
  forall lo hi lower upper, exists lo' hi' lower' upper',
    fold_opt (partition_step stake score pivot) (lo, hi, lower, upper) l = Some (lo', hi', lower ++ lower', upper ++ upper') /\
    lower' `sublist_of` filter (fun idx => at_ score idx <> Some pivot) l /\
    upper' `sublist_of` filter (fun idx => at_ score idx <> Some pivot) l.
Proof using.
  intros Hl. induction 1 as [|idx l Hi _ IH]; intros lo hi lower upper.
  { exists lo, hi, [], []. rewrite !app_nil_r. done. }
  cbn [fold_opt partition_step]. destruct (at_is_Some score idx Hi) as [x Hx]. rewrite Hx. cbn [mbind option_bind].
  destruct (Z.eqb_spec x pivot) as [->|Hne].
  { rewrite filter_cons_False by (rewrite Hx; congruence). apply IH. }
  rewrite filter_cons_True by (rewrite Hx; congruence).
  destruct (at_is_Some stake idx) as [w ->]; [unfold in_vec in Hi; lia|]. cbn [mbind option_bind]. destruct (x <? pivot).
  - destruct (IH (add lo w) hi (lower ++ [idx]) upper) as (lo' & hi' & lower' & upper' & -> & Hlo & Hup).
    exists lo', hi', (idx :: lower'), upper'. rewrite <- app_assoc. split; [done|]. split; [by constructor|by constructor].
  - destruct (IH lo (add hi w) lower (upper ++ [idx])) as (lo' & hi' & lower' & upper' & -> & Hlo & Hup).
    exists lo', hi', lower', (idx :: upper'). rewrite <- app_assoc. split; [done|]. split; [by constructor|by constructor].
Qed.

(** The recursion ends: each partition is shorter than the last, for the pivot
    itself is in neither. *)
Lemma weighted_median_total fuel stake score minority :
  length stake = length score -> forall partition_idx lo hi, Forall (in_vec score) partition_idx ->
  (length partition_idx < fuel)%nat -> exists v, weighted_median fuel stake score partition_idx minority lo hi = Some v.
Proof using.
  intros Hl. induction fuel as [|fuel IH]; intros p lo hi Hp Hf; [lia|]. cbn [weighted_median].
  destruct p as [|i [|j p]]; [by eexists| |].
  { inversion_clear Hp. destruct (at_is_Some score i) as [x ->]; [done|]. by eexists. }
  rewrite Hl. unfold assert_. rewrite Nat.eqb_refl. cbn [mbind option_bind]. remember (i :: j :: p) as l eqn:El.
  assert (Hlen : (2 <= length l)%nat) by (subst; cbn; lia).
  destruct (lookup_lt_is_Some_2 l (length l / 2)) as [mid Hmid].
  { apply Nat.Div0.div_lt_upper_bound; lia. }
  rewrite Hmid. cbn [mbind option_bind]. assert (Hin : mid ∈ l) by (by eapply list_elem_of_lookup_2).
  pose proof Hp as Hp'. rewrite Forall_forall in Hp'. destruct (at_is_Some score mid (Hp' _ Hin)) as [pivot Hpivot].
  rewrite Hpivot. cbn [mbind option_bind].
  destruct (partition_spec stake score pivot l Hl Hp (num 0) (num 0) [] []) as (lo' & hi' & lower & upper & -> & Hlo & Hup).
  cbn [mbind option_bind app].
  assert (Hshort : forall part, part `sublist_of` filter (fun idx => at_ score idx <> Some pivot) l ->
    Forall (in_vec score) part /\ (length part < fuel)%nat).
  { intros part Hpart. split; [eapply Forall_sublist; [exact Hpart|]; eapply Forall_sublist; [apply sublist_filter|done]|].
    apply sublist_length in Hpart.
    assert (length (filter (fun idx => at_ score idx <> Some pivot) l) < length l)%nat.
    { apply length_filter_lt with mid; [done|]. by intros Hn. }
    lia. }
  destruct (_ && _); [by eexists|]. destruct (_ && _); [by apply IH; apply Hshort|].
  destruct (_ && _); [by apply IH; apply Hshort|by eexists].
Qed.

Definition shape (n k : Z) (cols : list (list Z)) : Prop :=
  Z.of_nat (length cols) = n /\ Forall (fun col => Z.of_nat (length col) = k) cols.

Lemma score_rows n b K k row cols : 0 <= k < K -> Forall (cell_in n b) row -> shape n K cols ->
  exists cols', fold_opt (score_row k) cols row = Some cols' /\ shape n K cols'.
Proof using.
  intros Hk Hrow Hcols. apply fold_total; [|done]. intros c [j v] Hjv [Hl Hc]. rewrite Forall_forall in Hrow.
  destruct (Hrow _ Hjv) as [Hj _]. cbn in Hj. unfold score_row. destruct (at_is_Some c j) as [col Hcol]; [lia|].
  rewrite Hcol. cbn [mbind option_bind].
  assert (Hlc : Z.of_nat (length col) = K) by (rewrite Forall_forall in Hc; by eapply Hc, at_elem).
  destruct (update_at_total col k (fun _ => v)) as (x & _ & ->); [lia|]. cbn [mbind option_bind].
  destruct (update_at_total c j (fun _ => <[Z.to_nat k := v]> col)) as (y & _ & ->); [lia|].
  eexists. split; [reflexivity|]. split; [by rewrite length_insert|]. apply Forall_insert; [done|by rewrite length_insert].
Qed.

Lemma score_columns n b K score l : mat_in n b score -> (forall r s, (r, s) ∈ l -> 0 <= r < n) ->
  forall k cols, 0 <= k -> k + Z.of_nat (length (filter (fun x : Z * Z => 0 < x.2) l)) = K -> shape n K cols ->
  exists cols' k', fold_opt (fun '(use_score, k) '(r, s) =>
      if s <=? num 0 then Some (use_score, k)
      else
        row ← at_ score r;
        use_score ← fold_opt (score_row k) use_score row;
        Some (use_score, k + 1)) (cols, k) l = Some (cols', k') /\ shape n K cols'.
Proof using FL.
  intros [Hl Hm]. induction l as [|[r s] l IH]; intros Hr k cols Hk HK Hcols; cbn [fold_opt].
  { by exists cols, k. }
  assert (Hr' : forall r s, (r, s) ∈ l -> 0 <= r < n) by (intros ? ? ?; eapply Hr; by apply list_elem_of_further).
  rewrite num0 in *. destruct (Z.leb_spec s 0).
  { rewrite filter_cons_False in HK by (cbn; lia). cbn [mbind option_bind]. by apply IH. }
  rewrite filter_cons_True in HK by (cbn; lia). cbn [length] in HK.
  destruct (at_is_Some score r) as [row Hrow]; [rewrite Hl; eapply Hr, list_elem_of_here|]. rewrite Hrow. cbn [mbind option_bind].
  unfold cells_in in Hm. pose proof Hm as Hm'. rewrite Forall_forall in Hm'.
  destruct (score_rows n b K k row cols) as (cols' & -> & Hcols'); [lia|by eapply Hm', at_elem|done|]. cbn [mbind option_bind].
  apply IH; [done|lia|lia|done].
Qed.

Lemma weighted_median_col_spec n b stake score majority : mat_in n b score -> Z.of_nat (length stake) = n -> 0 <= n ->
  exists r, weighted_median_col_sparse stake score n majority = Some r /\ Z.of_nat (length r) = n.
Proof using FL.
  intros Hm Hs Hn. unfold weighted_median_col_sparse. set (use_stake := inplace_normalize _).
  assert (HK : length use_stake = length (filter (fun x : Z * Z => 0 < x.2) (enumerate stake))).
  { transitivity (length (filter (fun s => num 0 < s) stake)).
    - subst use_stake. unfold inplace_normalize. destruct (_ =? _); [done|apply length_map].
    - rewrite num0. rewrite <- (enumerate_snd stake) at 1. generalize (enumerate stake). clear.
      induction l as [|[i x] l IH]; [done|]. cbn [fmap list_fmap]. rewrite !filter_cons. cbn [fst snd].
      destruct (decide (0 < x)); cbn [length]; by rewrite IH. }
  destruct (score_columns n b (Z.of_nat (length use_stake)) score (enumerate stake) Hm) with (k := 0)
    (cols := replicate (Z.to_nat n) (replicate (length use_stake) (num 0))) as (cols & k & -> & Hl & Hc); [| |lia| |].
  - intros r s Hrs. apply elem_of_enumerate in Hrs as [_ Hr]. lia.
  - done.
  - split; [rewrite length_replicate; lia|]. apply Forall_replicate. by rewrite length_replicate.
  - cbn [mbind option_bind].
    destruct (mapM_total (fun column => weighted_median (S (length use_stake)) use_stake column
      (seqZ 0 (Z.of_nat (length use_stake))) (sub (sum I32F32 use_stake) majority) (num 0) (sum I32F32 use_stake)) (fun _ => True) cols)
      as (r & Er & Hlr & _); [|exists r; split; [exact Er|lia]].
    eapply Forall_impl; [exact Hc|]. intros col Hcol. cbn in Hcol.
    destruct (weighted_median_total (S (length use_stake)) use_stake col (sub (sum I32F32 use_stake) majority)) with
      (partition_idx := seqZ 0 (Z.of_nat (length use_stake))) (lo := num 0) (hi := sum I32F32 use_stake) as (v & Ev); [lia| | |by exists v].
    + apply Forall_forall. intros i Hi%elem_of_seqZ. unfold in_vec. lia.
    + rewrite length_seqZ. lia.
Qed.
End EpochBounds.
