(* ===== verification/Emission.v ===== *)
(** * Block emission and moving prices (src/pallets/subtensor/src/coinbase/block_emission.rs)

    Every block emits TAO and alpha. How much is a function of what was issued
    before: the default emission is halved whenever half of the remaining
    supply has been issued, which the code computes with a fixed-point
    logarithm. The file also has the moving prices of the subnets
    (stake_utils.rs), by which the TAO is shared out. *)

From S2P Require Import Prelude Frame Fixed SharePool Storage Misc Uids Reserves Children Staking StakeWeights.
From stdpp Require Import prelude gmap list fin_maps.
From Stdlib Require Import ZArith Lia.
#[local] Open Scope Z_scope.
#[local] Open Scope monad_scope.

(** Further operations of the [substrate_fixed] package. *)
Class FixedTranscendental := {
  checked_sub : FixTy -> Z -> Z -> option Z;
  log2 : FixTy -> Z -> option Z;
  floor : FixTy -> Z -> Z;
}.

(** Their documented behaviour, of the logarithm on the numbers the emission takes it
    of, those from 1 to 2^32 of type [I96F32]: its integer part is that of the
    logarithm of the integer part. *)
Class FixedTranscendentalLaws {FT : FixedTranscendental} := {
  checked_sub_spec t x y : fixed_range t (x - y) -> checked_sub t x y = Some (x - y);
  log2_spec x : unit_ I96F32 <= x <= unit_ I96F32 * unit_ I96F32 ->
    exists y, log2 I96F32 x = Some y /\ fixed_range I96F32 y /\ y / unit_ I96F32 = Z.log2 (x / unit_ I96F32);
  floor_spec t x : fixed_range t x -> 0 <= x -> floor t x = x / unit_ t * unit_ t;
}.

(** The operations of [U96F32] the coinbase abbreviates by macros. *)
Abbreviation asfloat := (from_num U96F32).
Abbreviation tou64 := (to_num U96F32 u64).

Section Emission.
Context {FS : FrameSystem} {Cfg : SubtensorConfig} {SI : StorageIter} {W : Type}.
Context {Env : SubtensorEnv W} {SW : SwapHandler W} {F : SubstrateFixed} {FT : FixedTranscendental}.
Abbreviation St := (Storage W).
Implicit Types (s : St) (netuid : Z) (hotkey : AccountId).

(** ** Block emission *)

Definition TotalSupply : Z := 21000000000000000.
Definition DefaultBlockEmission : Z := 1000000000.

Definition get_dynamic_tao_emission (netuid tao_emission alpha_block_emission : Z) (s : St) : Z * Z * Z :=
  let tao_in_emission := asfloat tao_emission in
  let float_alpha_block_emission := asfloat alpha_block_emission in
  let alpha_price := current_alpha_price s netuid in
  let alpha_in_emission :=
    default float_alpha_block_emission (checked_div U96F32 (asfloat tao_emission) alpha_price) in
  let alpha_in_emission :=
    if float_alpha_block_emission <=? alpha_in_emission then float_alpha_block_emission
    else alpha_in_emission in
  let '(tao_in_emission, alpha_in_emission) :=
    if (tao_in_emission <? asfloat 1) || (alpha_in_emission <? asfloat 1)
    then (asfloat 0, asfloat 0) else (tao_in_emission, alpha_in_emission) in
  let alpha_out_emission := float_alpha_block_emission in
  (tou64 tao_in_emission, tou64 alpha_in_emission, tou64 alpha_out_emission).

(** The residual: log2 of [1 / (1 - issuance / total supply)]. *)
Definition emission_residual (total_issuance : Z) : option Z :=
  ratio ← checked_div I96F32 total_issuance
    (saturating_mul I96F32 (from_num I96F32 2) (from_num I96F32 10500000000000000));
  rest ← checked_sub I96F32 (from_num I96F32 1) ratio;
  inverse ← checked_div I96F32 (from_num I96F32 1) rest;
  log2 I96F32 inverse.

(** The emission for a residual: the default one halved [floor residual] times. *)
Definition emission_for_residual (residual : Z) : Z :=
  let floored_residual := floor I96F32 residual in
  let floored_residual_int := to_num I96F32 u64 floored_residual in
  let multiplier := Nat.iter (Z.to_nat floored_residual_int)
    (fun multiplier => saturating_mul I96F32 multiplier (from_num I96F32 2)) (from_num I96F32 1) in
  let block_emission_percentage := safe_div I96F32 (from_num I96F32 1) multiplier in
  let block_emission := saturating_mul I96F32 block_emission_percentage
    (from_num I96F32 DefaultBlockEmission) in
  to_num I96F32 u64 block_emission.

(** [None] stands for the error ["Logarithm calculation failed"]. *)
Definition get_block_emission_for_issuance (issuance : Z) (s : St) : option Z * St :=
  let total_issuance := from_num I96F32 issuance in
  if from_num I96F32 TotalSupply <=? total_issuance then (Some 0, s)
  else
    match emission_residual total_issuance with
    | None => (None, s)
    | Some residual =>
        let block_emission_u64 := emission_for_residual residual in
        let s := if negb (get_value Value.BlockEmission s =? block_emission_u64)
                 then put_value Value.BlockEmission block_emission_u64 s else s in
        (Some block_emission_u64, s)
    end.

Definition get_block_emission (s : St) : option Z * St :=
  get_block_emission_for_issuance (get_total_issuance s) s.

(** ** Moving prices *)

Definition get_moving_alpha_price (netuid : Z) (s : St) : Z :=
  let one := asfloat 1 in
  if is_root netuid then one
  else if get_net NetNum.SubnetMechanism netuid s =? 0 then one
  else from_fixed U96F32 I96F32 (default 0 (SubnetMovingPrice s !! netuid)).

(** [SubnetMovingAlpha::get] *)
Definition get_moving_alpha (s : St) : Z :=
  default (from_literal I96F32 3 1000000) (SubnetMovingAlpha s).

Definition update_moving_price (netuid : Z) (s : St) : St :=
  let start_call_block := sat_sub (default 0 (FirstEmissionBlockNumber s !! netuid)) 1 in
  let blocks_since_start_call := asfloat (sat_sub (get_current_block_as_u64 s) start_call_block) in
  let halving_time := get_net NetNum.EMAPriceHalvingBlocks netuid s in
  let current_ma_unsigned := from_fixed U96F32 I96F32 (get_moving_alpha s) in
  let alpha := saturating_mul U96F32 current_ma_unsigned
    (safe_div U96F32 blocks_since_start_call
       (saturating_add U96F32 blocks_since_start_call (asfloat halving_time))) in
  let one_minus_alpha := saturating_sub U96F32 (asfloat 1) alpha in
  let current_price := saturating_mul U96F32 alpha (Z.min (current_alpha_price s netuid) (asfloat 1)) in
  let current_moving := saturating_mul U96F32 one_minus_alpha (get_moving_alpha_price netuid s) in
  let new_moving := from_fixed I96F32 U96F32 (saturating_add U96F32 current_price current_moving) in
  s <| SubnetMovingPrice ::= <[netuid := new_moving]> |>.

(** ** The emission schedule *)
Context {FL : SubstrateFixedLaws} {FTL : FixedTranscendentalLaws}.
Abbreviation ONE := (unit_ I96F32).

(** How often the emission was halved: once when half of the supply is issued,
    again when half of the rest is, and so on. *)
Definition halvings (issuance : Z) : Z := Z.log2 (TotalSupply / (TotalSupply - issuance)).
Definition scheduled_emission (issuance : Z) : Z :=
  if TotalSupply <=? issuance then 0 else DefaultBlockEmission / 2 ^ halvings issuance.

Lemma log2_div_le k a b : 0 <= k -> 0 < b <= a -> k <= Z.log2 (a / b) <-> 2 ^ k * b <= a.
Proof using.
  intros Hk Hb. assert (0 < a / b) by (apply Z.div_str_pos; lia).
  rewrite <- Z.log2_le_pow2 by lia. rewrite Z.mul_comm. split; intros H0.
  - pose proof (Z.mul_div_le a b). nia.
  - apply Z.div_le_lower_bound; lia.
Qed.

(** The remaining share of the supply, in units of 2^-32. *)
Definition rest_bits (issuance : Z) : Z := ONE - issuance * ONE / TotalSupply.

Lemma rest_range i : 0 <= i < TotalSupply -> 1 <= rest_bits i <= ONE.
Proof using.
  intros Hi. unfold rest_bits. pose proof (unit_pos I96F32).
  assert (0 <= i * ONE / TotalSupply) by (apply Z.div_pos; unfold TotalSupply in *; nia).
  assert (i * ONE / TotalSupply < ONE) by (apply Z.div_lt_upper_bound; unfold TotalSupply in *; nia).
  lia.
Qed.

Lemma rest_le_pow i k : 0 <= i < TotalSupply -> 0 <= k <= 32 ->
  2 ^ k * rest_bits i <= ONE <-> 2 ^ k * (TotalSupply - i) <= TotalSupply.
Proof using.
  intros Hi Hk. assert (E : ONE = 2 ^ k * 2 ^ (32 - k)).
  { rewrite <- Z.pow_add_r by lia. replace (k + (32 - k)) with 32 by lia. reflexivity. }
  assert (0 < 2 ^ k) by (apply Z.pow_pos_nonneg; lia).
  assert (0 < 2 ^ (32 - k)) by (apply Z.pow_pos_nonneg; lia).
  unfold rest_bits. rewrite E. set (p := 2 ^ k) in *. set (q := 2 ^ (32 - k)) in *.
  assert (HS : 0 < TotalSupply) by done. clearbody p q. generalize dependent TotalSupply. intros T Hi HS.
  assert (Hd : p * q - q <= i * (p * q) / T <-> T * (p * q - q) <= i * (p * q)).
  { split; intros H1.
    - pose proof (Z.mul_div_le (i * (p * q)) T HS).
      assert (T * (p * q - q) <= T * (i * (p * q) / T)) by (apply Z.mul_le_mono_nonneg_l; lia). lia.
    - apply Z.div_le_lower_bound; lia. }
  transitivity (p * q - q <= i * (p * q) / T); [|rewrite Hd]; split; intros H1; nia.
Qed.

(** The logarithm the code computes, up to the precision of the type. *)
Lemma halvings_bits i : 0 <= i < TotalSupply -> Z.log2 (ONE / rest_bits i) = Z.min (halvings i) 32.
Proof using.
  intros Hi. pose proof (rest_range i Hi) as Hr.
  assert (HS : 0 < TotalSupply - i <= TotalSupply) by (unfold TotalSupply in *; lia).
  pose proof (Z.log2_nonneg (ONE / rest_bits i)). pose proof (Z.log2_nonneg (TotalSupply / (TotalSupply - i))).
  assert (Hle : Z.log2 (ONE / rest_bits i) <= 32).
  { transitivity (Z.log2 ONE); [apply Z.log2_le_mono|reflexivity].
    apply Z.div_le_upper_bound; pose proof (unit_pos I96F32); nia. }
  assert (Hk : forall k, 0 <= k <= 32 -> k <= Z.log2 (ONE / rest_bits i) <-> k <= halvings i).
  { intros k Hk. unfold halvings. rewrite !log2_div_le by lia. by apply rest_le_pow. }
  fold (halvings i) in *. apply Z.le_antisymm.
  - apply Z.min_glb; [|done]. apply Hk; lia.
  - apply Hk; lia.
Qed.

Lemma residual_spec i : 0 <= i < TotalSupply ->
  exists r, emission_residual (from_num I96F32 i) = Some r /\ fixed_range I96F32 r /\
    r / ONE = Z.min (halvings i) 32.
Proof using FL FTL.
  intros Hi. pose proof (rest_range i Hi) as Hr. pose proof (unit_pos I96F32) as Hu.
  assert (Hmax : TotalSupply * ONE <= max_bits I96F32) by (vm_compute; congruence).
  unfold emission_residual. rewrite (from_num_exact _ i) by (lia || nia).
  rewrite !(from_num_exact _ _) by (vm_compute; congruence).
  rewrite mul_exact by (vm_compute; congruence). change (2 * 10500000000000000) with TotalSupply.
  rewrite Z.mul_1_l.
  assert (E1 : i * ONE * ONE / (TotalSupply * ONE) = i * ONE / TotalSupply) by (apply Z.div_mul_cancel_r; unfold TotalSupply; lia).
  assert (R : forall x, 0 <= x <= ONE * ONE -> fixed_range I96F32 x).
  { intros x Hx. apply fixed_range_pos. split; [lia|]. transitivity (ONE * ONE); [lia|vm_compute; congruence]. }
  rewrite div_spec by (try apply fixed_range_pos; unfold TotalSupply in *; nia). rewrite E1.
  fold (rest_bits i) in *. unfold rest_bits in Hr.
  assert (0 <= i * ONE / TotalSupply) by (apply Z.div_pos; unfold TotalSupply in *; nia).
  destruct (Z.leb_spec (i * ONE / TotalSupply) (max_bits I96F32)) as [_|]; [|pose proof (unit_max I96F32); lia].
  cbn [mbind option_bind]. rewrite checked_sub_spec by (apply R; nia). cbn [mbind option_bind].
  fold (rest_bits i) in *. pose proof (rest_range i Hi) as Hr'.
  assert (Hq : ONE <= ONE * ONE / rest_bits i <= ONE * ONE).
  { split; [apply Z.div_le_lower_bound; nia|apply Z.div_le_upper_bound; nia]. }
  rewrite div_spec by (try apply R; nia).
  destruct (Z.leb_spec (ONE * ONE / rest_bits i) (max_bits I96F32)) as [_|]; [|pose proof (R (ONE * ONE) ltac:(nia)) as []; lia].
  cbn [mbind option_bind]. destruct (log2_spec (ONE * ONE / rest_bits i)) as (r & -> & Hrr & E); [lia|].
  exists r. split; [done|]. split; [done|]. rewrite E, Z.div_div by lia.
  rewrite Z.div_mul_cancel_r by lia. by apply halvings_bits.
Qed.

Lemma emission_for_residual_spec r : fixed_range I96F32 r -> 0 <= r / ONE <= 32 ->
  emission_for_residual r = DefaultBlockEmission / 2 ^ (r / ONE).
Proof using FL FTL.
  intros Hr Hk. pose proof (unit_pos I96F32) as Hu.
  assert (0 <= r) by (pose proof (Z.div_mod r ONE); pose proof (Z.mod_pos_bound r ONE); nia).
  unfold emission_for_residual. rewrite floor_spec by done.
  set (k := r / ONE) in *. clearbody k.
  assert (R : forall x, 0 <= x <= ONE * ONE -> fixed_range I96F32 x).
  { intros x Hx. apply fixed_range_pos. split; [lia|]. transitivity (ONE * ONE); [lia|vm_compute; congruence]. }
  assert (H32 : 32 * ONE <= ONE * ONE) by (vm_compute; congruence).
  rewrite (to_num_spec _ _ (k * ONE)) by (try apply R; nia). rewrite Z.div_mul by lia.
  replace (clamp (int_min u64) (int_max u64) k) with k by (unfold clamp, int_min, int_max; lia).
  assert (Ep : forall n, (n <= 32)%nat -> Nat.iter n
    (fun multiplier => saturating_mul I96F32 multiplier (from_num I96F32 2)) (from_num I96F32 1) = 2 ^ Z.of_nat n * ONE).
  { induction n as [|n IH]; intros Hn; [cbn; by rewrite from_num_1, Z.mul_1_l|].
    rewrite Nat.iter_succ, IH by lia.
    assert (2 ^ Z.of_nat (S n) <= 2 ^ 32) by (apply Z.pow_le_mono_r; lia).
    assert (0 < 2 ^ Z.of_nat n) by (apply Z.pow_pos_nonneg; lia).
    rewrite Nat2Z.inj_succ, Z.pow_succ_r in * by lia.
    assert (Hm : forall y, 0 <= y <= 2 ^ 32 -> y * ONE <= max_bits I96F32).
    { intros y Hy. transitivity (2 ^ 32 * ONE); [nia|vm_compute; congruence]. }
    rewrite (from_num_exact _ 2), mul_exact by (try apply Hm; lia). lia. }
  rewrite Ep, Z2Nat.id by lia. rewrite from_num_1.
  assert (Ek : ONE = 2 ^ k * 2 ^ (32 - k)).
  { rewrite <- Z.pow_add_r by lia. replace (k + (32 - k)) with 32 by lia. reflexivity. }
  assert (0 < 2 ^ k) by (apply Z.pow_pos_nonneg; lia).
  assert (0 < 2 ^ (32 - k)) by (apply Z.pow_pos_nonneg; lia).
  assert (Hdiv : ONE * ONE / (2 ^ k * ONE) = 2 ^ (32 - k)).
  { rewrite Z.div_mul_cancel_r by lia. rewrite Ek at 1. rewrite Z.mul_comm. apply Z.div_mul. lia. }
  assert (2 ^ (32 - k) <= ONE) by (change ONE with (2 ^ 32); apply Z.pow_le_mono_r; lia).
  rewrite safe_div_spec, Hdiv; [|apply R; nia|apply R; nia|lia|nia|rewrite Hdiv; pose proof (unit_max I96F32); lia].
  assert (HD : 0 <= DefaultBlockEmission <= ONE) by (vm_compute; split; congruence).
  rewrite from_num_exact; [|lia|transitivity (ONE * ONE); [nia|vm_compute; congruence]].
  rewrite mul_spec by (try apply R; nia). rewrite Z.mul_assoc, Z.div_mul by lia.
  rewrite saturate_id by (apply R; nia). rewrite to_num_spec by (try apply R; nia).
  assert (E : 2 ^ (32 - k) * DefaultBlockEmission / ONE = DefaultBlockEmission / 2 ^ k).
  { rewrite Ek, Z.mul_comm. apply Z.div_mul_cancel_r; lia. }
  rewrite E. assert (0 <= DefaultBlockEmission / 2 ^ k <= DefaultBlockEmission).
  { split; [apply Z.div_pos; lia|apply Z.div_le_upper_bound; nia]. }
  unfold clamp. unfold DefaultBlockEmission in *. cbn [int_min int_max]. lia.
Qed.

(** C36: The block emission follows the halving schedule exactly. Whatever the
    issuance, the fixed-point computation with its logarithm, its truncated
    ratios and its repeated doubling returns the default emission of one TAO
    halved once for each halving of the remaining supply, rounded down, and
    nothing once the supply is exhausted; it never fails; and below the total
    supply the block emission item holds the value afterwards. *)
Theorem block_emission_halves (issuance : Z) (s : St) :
  0 <= issuance <= U64_MAX ->
  let '(emission, s') := get_block_emission_for_issuance issuance s in
  emission = Some (scheduled_emission issuance) /\
  get_value Value.BlockEmission s' =
    if TotalSupply <=? issuance then get_value Value.BlockEmission s else scheduled_emission issuance.
Proof using FL FTL.
  intros Hi. unfold get_block_emission_for_issuance, scheduled_emission. pose proof (unit_pos I96F32).
  assert (Hm : forall x, 0 <= x <= U64_MAX -> from_num I96F32 x = x * ONE).
  { intros x Hx. apply from_num_exact; [lia|]. transitivity (U64_MAX * ONE); [nia|vm_compute; congruence]. }
  rewrite !Hm by (unfold TotalSupply; lia).
  replace (TotalSupply * ONE <=? issuance * ONE) with (TotalSupply <=? issuance)
    by (destruct (Z.leb_spec TotalSupply issuance), (Z.leb_spec (TotalSupply * ONE) (issuance * ONE)); nia || done).
  destruct (Z.leb_spec TotalSupply issuance) as [|Hlt]; [done|].
  rewrite <- (Hm issuance) by lia. destruct (residual_spec issuance) as (r & -> & Hr & E); [lia|].
  assert (0 <= halvings issuance) by apply Z.log2_nonneg.
  rewrite (emission_for_residual_spec r Hr) by lia. rewrite E.
  assert (Eh : DefaultBlockEmission / 2 ^ Z.min (halvings issuance) 32 = DefaultBlockEmission / 2 ^ halvings issuance).
  { destruct (Z.le_gt_cases (halvings issuance) 32); [by rewrite Z.min_l by lia|].
    rewrite Z.min_r by lia. assert (2 ^ 32 <= 2 ^ halvings issuance) by (apply Z.pow_le_mono_r; lia).
    rewrite !Z.div_small; [done|unfold DefaultBlockEmission; lia..]. }
  rewrite Eh. split; [done|].
  destruct (Z.eqb_spec (get_value Value.BlockEmission s) (DefaultBlockEmission / 2 ^ halvings issuance)); [done|].
  cbn [negb]. by st_read.
Qed.

End Emission.
