(* ===== verification/Network.v ===== *)
(** * Subnets and the root network

    src/pallets/subtensor/src/subnets/subnet.rs creates subnets and starts
    them; src/pallets/subtensor/src/coinbase/root.rs registers validators on
    the root network, keeps the senate filled with those of most stake, prices
    the lock of a new subnet and removes subnets. *)

From S2P Require Import Prelude Frame Fixed SharePool Storage Misc Uids Symbols Reserves Registration Identity.
From S2P Require Import RateLimiting Children Staking StakeWeights Emission.
From stdpp Require Import prelude gmap list fin_maps.
From Stdlib Require Import ZArith Lia.
#[local] Open Scope Z_scope.
#[local] Open Scope monad_scope.

(** The senate ([T::SenateMembers], a membership pallet) and the triumvirate
    ([T::TriumvirateInterface], a collective). *)
Class Senate {FS : FrameSystem} (W : Type) := {
  senate_members : W -> list AccountId;
  senate_max_members : Z;
  senate_add_member : W -> AccountId -> result DispatchError W;
  senate_swap_member : W -> AccountId -> AccountId -> result DispatchError W;
  add_vote : W -> AccountId -> H256 -> Z -> bool -> result DispatchError (bool * W);
}.

Section Network.
Context {FS : FrameSystem} {Cfg : SubtensorConfig} {SI : StorageIter} {W : Type}.
Context {Env : SubtensorEnv W} {SW : SwapHandler W} {F : SubstrateFixed} {FT : FixedTranscendental}.
Context {SE : Senate W}.
Abbreviation St := (Storage W).
Implicit Types (s : St) (netuid uid : Z) (hotkey coldkey : AccountId).

(** ** Queries *)

Definition get_num_subnets (s : St) : Z := get_value Value.TotalNetworks s.
Definition get_subnet_mechanism (netuid : Z) (s : St) : Z := get_net NetNum.SubnetMechanism netuid s.
Definition is_valid_subnet_for_emission (netuid : Z) (s : St) : bool :=
  bool_decide (is_Some (FirstEmissionBlockNumber s !! netuid)).
Definition set_network_rate_limit (limit : Z) (s : St) : St :=
  deposit_event (Event.NetworkRateLimitSet limit) (put_value Value.NetworkRateLimit limit s).

(** [NetUid::next] *)
Definition next (netuid : Z) : Z := sat_add U16_MAX netuid 1.

(** [None] when the loop has not come to an end within [fuel] turns. *)
Fixpoint next_netuid_loop (fuel : nat) (netuids : list Z) (next_netuid : Z) : option Z :=
  match fuel with
  | O => None
  | S fuel =>
      if negb (bool_decide (next_netuid ∈ netuids)) then Some next_netuid
      else next_netuid_loop fuel netuids (next next_netuid)
  end.
Definition get_next_netuid (s : St) : option Z :=
  let netuids := get_all_subnet_netuids s in
  next_netuid_loop (S (length netuids)) netuids 1.

Definition get_num_root_validators (s : St) : Z := get_subnetwork_n 0 s.
Definition get_max_root_validators (s : St) : Z := get_max_allowed_uids 0 s.
Definition contains_invalid_root_uids (netuids : list Z) (s : St) : bool :=
  existsb (fun netuid => negb (if_subnet_exist netuid s)) netuids.

Definition get_network_registered_block (netuid : Z) (s : St) : Z := get_net NetNum.NetworkRegisteredAt netuid s.
Definition get_network_immunity_period (s : St) : Z := get_value Value.NetworkImmunityPeriod s.
Definition set_network_immunity_period (net_immunity_period : Z) (s : St) : St :=
  deposit_event (Event.NetworkImmunityPeriodSet net_immunity_period)
    (put_value Value.NetworkImmunityPeriod net_immunity_period s).
Definition get_network_min_lock (s : St) : Z := get_value Value.NetworkMinLockCost s.
Definition set_network_min_lock (net_min_lock : Z) (s : St) : St :=
  deposit_event (Event.NetworkMinLockCostSet net_min_lock) (put_value Value.NetworkMinLockCost net_min_lock s).
Definition get_network_last_lock (s : St) : Z := get_value Value.NetworkLastLockCost s.
Definition set_network_last_lock (net_last_lock : Z) (s : St) : St :=
  put_value Value.NetworkLastLockCost net_last_lock s.
Definition set_lock_reduction_interval (interval : Z) (s : St) : St :=
  deposit_event (Event.NetworkLockCostReductionIntervalSet interval)
    (put_value Value.NetworkLockReductionInterval interval s).

(** ** The price of a subnet *)

(** Reading the block emission may store it. *)
Definition get_lock_reduction_interval (s : St) : Z * St :=
  let interval := from_num I64F64 (get_value Value.NetworkLockReductionInterval s) in
  let '(emission, s) := get_block_emission s in
  let block_emission := from_num I64F64 (default 1000000000 emission) in
  let halving := default (from_num I64F64 0) (checked_div I64F64 block_emission (from_num I64F64 1000000000)) in
  let halved_interval := saturating_mul I64F64 interval halving in
  (to_num I64F64 u64 halved_interval, s).

(** The price as a function of what it depends on; [safe_div] of [u64] is zero
    when the divisor is. *)
Definition lock_cost_at (last_lock min_lock last_lock_block current_block lock_reduction_interval : Z) : Z :=
  let mult := if last_lock_block =? 0 then 1 else 2 in
  let lock_cost := sat_sub (sat_mul U64_MAX last_lock mult)
    (sat_mul U64_MAX (last_lock / lock_reduction_interval) (sat_sub current_block last_lock_block)) in
  if lock_cost <? min_lock then min_lock else lock_cost.

Definition get_network_lock_cost (s : St) : Z * St :=
  let last_lock := get_network_last_lock s in
  let min_lock := get_network_min_lock s in
  let last_lock_block := get_network_last_lock_block s in
  let current_block := get_current_block_as_u64 s in
  let '(lock_reduction_interval, s) := get_lock_reduction_interval s in
  (lock_cost_at last_lock min_lock last_lock_block current_block lock_reduction_interval, s).

(** ** Creating a subnet *)

(** [if !Item::contains_key(netuid) { Item::insert(netuid, Item::get(netuid)) }] *)
Definition make_explicit (netuid : Z) (s : St) (i : NetNum.NetNum) : St :=
  if bool_decide (is_Some (net_nums s !! (i, netuid))) then s else put_net i netuid (get_net i netuid s) s.
Definition explicit_items : list NetNum.NetNum :=
  [NetNum.Tempo; NetNum.Kappa; NetNum.Difficulty; NetNum.MaxAllowedUids; NetNum.ImmunityPeriod;
   NetNum.ActivityCutoff; NetNum.MaxWeightsLimit; NetNum.MinAllowedWeights; NetNum.RegistrationsThisInterval;
   NetNum.POWRegistrationsThisInterval; NetNum.BurnRegistrationsThisInterval].

Definition make_parameters_explicit (netuid : Z) (s : St) : St := foldl (make_explicit netuid) s explicit_items.

Definition init_new_network (netuid tempo : Z) (s : St) : St :=
  let s := put_net NetNum.SubnetworkN netuid 0 s in
  let s := s <| NetworksAdded ::= <[netuid := true]> |> in
  let s := put_net NetNum.Tempo netuid tempo s in
  let s := put_net NetNum.NetworkModality netuid 0 s in
  let s := mutate_value Value.TotalNetworks (fun n => sat_add U16_MAX n 1) s in
  let s := set_network_registration_allowed netuid true s in
  let s := set_max_allowed_uids netuid 256 s in
  let s := set_max_allowed_validators netuid 64 s in
  let s := set_min_allowed_weights netuid 1 s in
  let s := set_max_weight_limit netuid U16_MAX s in
  let s := set_adjustment_interval netuid 360 s in
  let s := set_target_registrations_per_interval netuid 1 s in
  let s := set_adjustment_alpha netuid 17893341751498265066 s in
  let s := set_immunity_period netuid 5000 s in
  let s := set_min_difficulty netuid U64_MAX s in
  let s := set_max_difficulty netuid U64_MAX s in
  make_parameters_explicit netuid s.

(** Steps 14 to 16 of [do_register_network]: the pool and the owner. *)
Definition fund_network (netuid lock : Z) (coldkey hotkey : AccountId) (s : St) : St :=
  let s := s <| TokenSymbol ::= <[netuid := get_symbol_for_subnet netuid]> |> in
  let pool_initial_tao := get_network_min_lock s in
  let actual_tao_lock_amount_less_pool_tao := sat_sub lock pool_initial_tao in
  let s := put_net NetNum.SubnetTAO netuid pool_initial_tao s in
  let s := put_net NetNum.SubnetAlphaIn netuid pool_initial_tao s in
  let s := s <| SubnetOwner ::= <[netuid := coldkey]> |> in
  let s := s <| SubnetOwnerHotkey ::= <[netuid := hotkey]> |> in
  let s := if 0 <? actual_tao_lock_amount_less_pool_tao then burn_tokens actual_tao_lock_amount_less_pool_tao s else s in
  if (0 <? lock) && (0 <? pool_initial_tao) then increase_total_stake pool_initial_tao s else s.

Definition set_identity_of_network (netuid : Z) (identity : option SubnetIdentityV3) : Pm W unit :=
  match identity with
  | Some identity_value =>
      check (is_valid_subnet_identity identity_value) Error.InvalidIdentity ;;
      modify (fun s => s <| SubnetIdentitiesV3 ::= <[netuid := identity_value]> |>) ;;
      modify (deposit_event (Event.SubnetIdentitySet netuid))
  | None => ret tt
  end.

(** The loop that looks for an identifier does not end when all are taken,
    which halts the chain. *)
Definition do_register_network (origin : Origin) (hotkey : AccountId) (mechid : Z)
    (identity : option SubnetIdentityV3) : Pm W unit :=
  let* coldkey := ext (ensure_signed origin) in
  let* s := gets id in
  check (negb (hotkey_account_exists hotkey s) || coldkey_owns_hotkey coldkey hotkey s) Error.NonAssociatedColdKey ;;
  check (mechid =? 1) Error.MechanismDoesNotExist ;;
  let current_block := get_current_block_as_u64 s in
  let last_lock_block := get_network_last_lock_block s in
  check (get_value Value.NetworkRateLimit s <=? sat_sub current_block last_lock_block)
    Error.NetworkTxRateLimitExceeded ;;
  let '(lock_amount, s1) := get_network_lock_cost s in
  modify (fun _ => s1) ;;
  check (can_remove_balance_from_coldkey_account coldkey lock_amount s1) Error.NotEnoughBalanceToStake ;;
  let* netuid_to_register := lift (ok_or (get_next_netuid s1) Panic) in
  let* actual_tao_lock_amount := remove_balance_from_coldkey_account coldkey lock_amount in
  modify (set_network_last_lock actual_tao_lock_amount) ;;
  modify (init_new_network netuid_to_register InitialTempo) ;;
  modify (create_account_if_non_existent coldkey hotkey) ;;
  modify (append_neuron netuid_to_register hotkey current_block) ;;
  modify (put_net NetNum.SubnetMechanism netuid_to_register mechid) ;;
  modify (put_value Value.NetworkLastRegistered current_block) ;;
  modify (put_net NetNum.NetworkRegisteredAt netuid_to_register current_block) ;;
  modify (fund_network netuid_to_register actual_tao_lock_amount coldkey hotkey) ;;
  set_identity_of_network netuid_to_register identity ;;
  modify (deposit_event (Event.NetworkAdded netuid_to_register mechid)).

Definition do_start_call (origin : Origin) (netuid : Z) : Pm W unit :=
  let* s := gets id in
  check (if_subnet_exist netuid s) Error.SubNetworkDoesNotExist ;;
  ext (ensure_subnet_owner origin netuid s) ;;
  check (bool_decide (FirstEmissionBlockNumber s !! netuid = None)) Error.FirstEmissionBlockNumberAlreadySet ;;
  let registration_block_number := get_net NetNum.NetworkRegisteredAt netuid s in
  let current_block_number := get_current_block_as_u64 s in
  check (sat_add U64_MAX registration_block_number DurationOfStartCall <=? current_block_number)
    Error.NeedWaitingMoreBlocksToStarCall ;;
  let next_block_number := sat_add U64_MAX current_block_number 1 in
  modify (fun s => s <| FirstEmissionBlockNumber ::= <[netuid := next_block_number]> |>) ;;
  modify (put_flag NetFlag.SubtokenEnabled netuid true) ;;
  modify (deposit_event (Event.FirstEmissionBlockNumberSet netuid next_block_number)).

Definition do_set_sn_owner_hotkey (origin : Origin) (netuid : Z) (hotkey : AccountId) : Pm W unit :=
  let* s := gets id in
  ext (ensure_subnet_owner_or_root origin netuid s) ;;
  check (if_subnet_exist netuid s) Error.SubnetNotExists ;;
  check (passes_rate_limit_on_subnet TxSetSNOwnerHotkey hotkey netuid s) Error.TxRateLimitExceeded ;;
  let current_block := get_current_block_as_u64 s in
  modify (set_last_transaction_block_on_subnet hotkey netuid TxSetSNOwnerHotkey current_block) ;;
  modify (fun s => s <| SubnetOwnerHotkey ::= <[netuid := hotkey]> |>).

(** ** The root network and the senate *)

Definition is_senate_member (hotkey : AccountId) (s : St) : bool :=
  bool_decide (hotkey ∈ senate_members (world s)).

(** The result of a call of the senate, whose errors become [CouldNotJoinSenate]. *)
Definition senate_call (r : W -> result DispatchError W) : Pm W unit :=
  let* w := gets world in
  match r w with
  | Ok w => modify (fun s => s <| world := w |>)
  | Err _ => throw Error.CouldNotJoinSenate
  end.

(** The variable that should report the replaced member is shadowed inside the
    branches of the source: the answer is always [None]. *)
Definition join_senate_if_eligible (hotkey : AccountId) : Pm W (option AccountId) :=
  let* s := gets id in
  check (bool_decide (is_Some (Uids s !! (0, hotkey)))) Error.HotKeyNotRegisteredInSubNet ;;
  check (negb (is_senate_member hotkey s)) Error.HotKeyAlreadyRegisteredInSubNet ;;
  let current_stake := get_stake_for_hotkey_on_subnet hotkey 0 s in
  let members := senate_members (world s) in
  (if Z.of_nat (length members) =? senate_max_members then
     let sorted_members := sort_by_key (fun a => - get_stake_for_hotkey_on_subnet a 0 s) members in
     match last sorted_members with
     | Some last_ =>
         if get_stake_for_hotkey_on_subnet last_ 0 s <? current_stake
         then senate_call (fun w => senate_swap_member w last_ hotkey)
         else ret tt
     | None => ret tt
     end
   else senate_call (fun w => senate_add_member w hotkey)) ;;
  ret None.

(** The neuron of least stake on the root network, with its stake. *)
Definition lower_stake (s : St) (lowest : Z * Z) (entry : Z * AccountId) : Z * Z :=
  let '(lowest_stake, lowest_uid) := lowest in
  let '(uid_i, hotkey_i) := entry in
  let stake_i := get_stake_for_hotkey_on_subnet hotkey_i 0 s in
  if stake_i <? lowest_stake then (stake_i, uid_i) else (lowest_stake, lowest_uid).
Definition lowest_root_stake (s : St) : Z * Z := foldl (lower_stake s) (U64_MAX, 0) (iter_subnet 0 (Keys s)).

(** The slot of a new root validator: the next one, or that of least stake. *)
Definition take_root_slot (hotkey : AccountId) (current_block_number : Z) : Pm W Z :=
  let* s := gets id in
  let current_num_root_validators := get_num_root_validators s in
  if current_num_root_validators <? get_max_root_validators s then
    modify (append_neuron 0 hotkey current_block_number) ;;
    ret current_num_root_validators
  else
    let '(lowest_stake, lowest_uid) := lowest_root_stake s in
    let* _ := lift (get_hotkey_for_net_and_uid 0 lowest_uid s) in
    check (lowest_stake <? get_stake_for_hotkey_on_subnet hotkey 0 s) Error.StakeTooLowForRoot ;;
    modify (replace_neuron 0 lowest_uid hotkey current_block_number) ;;
    ret lowest_uid.

(** The counters are below their limits, so that incrementing them does not
    overflow. *)
Definition do_root_register (origin : Origin) (hotkey : AccountId) : Pm W unit :=
  let* s := gets id in
  let current_block_number := get_current_block_as_u64 s in
  check (if_subnet_exist 0 s) Error.RootNetworkDoesNotExist ;;
  let* coldkey := ext (ensure_signed origin) in
  check (get_registrations_this_block 0 s <? get_max_registrations_per_block 0 s)
    Error.TooManyRegistrationsThisBlock ;;
  check (get_registrations_this_interval 0 s <? sat_mul U16_MAX (get_target_registrations_per_interval 0 s) 3)
    Error.TooManyRegistrationsThisInterval ;;
  check (negb (bool_decide (is_Some (Uids s !! (0, hotkey))))) Error.HotKeyAlreadyRegisteredInSubNet ;;
  modify (create_account_if_non_existent coldkey hotkey) ;;
  let* subnetwork_uid := take_root_slot hotkey current_block_number in
  let* _ := join_senate_if_eligible hotkey in
  modify (fun s => if negb (hotkey_is_delegate hotkey s) then delegate_hotkey hotkey 11796 s else s) ;;
  modify (mutate_net NetNum.RegistrationsThisInterval 0 (fun val => val + 1)) ;;
  modify (mutate_net NetNum.RegistrationsThisBlock 0 (fun val => val + 1)) ;;
  modify (deposit_event (Event.NeuronRegistered 0 subnetwork_uid hotkey)).

Definition do_adjust_senate (origin : Origin) (hotkey : AccountId) : Pm W unit :=
  let* s := gets id in
  check (if_subnet_exist 0 s) Error.RootNetworkDoesNotExist ;;
  let* coldkey := ext (ensure_signed origin) in
  check (bool_decide (is_Some (Uids s !! (0, hotkey)))) Error.HotKeyNotRegisteredInSubNet ;;
  modify (create_account_if_non_existent coldkey hotkey) ;;
  let* replaced := join_senate_if_eligible hotkey in
  let* s := gets id in
  (if bool_decide (replaced = None) then check (is_senate_member hotkey s) Error.StakeTooLowForRoot else ret tt) ;;
  modify (deposit_event (Event.SenateAdjusted replaced hotkey)).

(** The flag is [true] when the vote is free of charge: the first of the
    member on this proposal. The weight of the call is not modelled. *)
Definition do_vote_root (origin : Origin) (hotkey : AccountId) (proposal : H256) (index : Z) (approve : bool)
    : Pm W bool :=
  let* coldkey := ext (ensure_signed origin) in
  let* s := gets id in
  check (coldkey_owns_hotkey coldkey hotkey s) Error.NonAssociatedColdKey ;;
  check (is_senate_member hotkey s) Error.NotSenateMember ;;
  let* voted := ext (add_vote (world s) hotkey proposal index approve) in
  let '(is_account_voting_first_time, w) := voted in
  modify (fun s => s <| world := w |>) ;;
  ret is_account_voting_first_time.

(** ** Removing a subnet *)

Definition remove_net (netuid : Z) (s : St) (i : NetNum.NetNum) : St := s <| net_nums ::= delete (i, netuid) |>.
Definition remove_vec (netuid : Z) (s : St) (i : NetVec.NetVec) : St := s <| net_vecs ::= delete (i, netuid) |>.
Definition remove_bvec (netuid : Z) (s : St) (i : NetBoolVec.NetBoolVec) : St :=
  s <| net_bool_vecs ::= delete (i, netuid) |>.
(** [clear_prefix(netuid, u32::MAX, None)] *)
Definition clear_prefix {K V} `{Countable K} (netuid : Z) (m : gmap (Z * K) V) : gmap (Z * K) V :=
  filter (fun p => p.1.1 <> netuid) m.

Definition zero_root_weight (netuid : Z) (s : St) (entry : Z * list (Z * Z)) : St :=
  let '(uid_i, weights_i) := entry in
  let modified_weights := map (fun '(subnet_id, weight) => (subnet_id, if subnet_id =? netuid then 0 else weight)) weights_i in
  s <| Weights ::= <[(0, uid_i) := modified_weights]> |>.

Definition removed_vecs : list NetVec.NetVec :=
  [NetVec.Rank; NetVec.Trust; NetVec.Emission; NetVec.Incentive; NetVec.Consensus; NetVec.Dividends;
   NetVec.PruningScores; NetVec.LastUpdate; NetVec.ValidatorTrust].
Definition removed_parameters : list NetNum.NetNum := explicit_items.

Definition remove_network (netuid : Z) (s : St) : St :=
  let owner_coldkey := get_subnet_owner netuid s in
  let reserved_amount := get_subnet_locked_balance netuid s in
  let s := remove_net netuid s NetNum.SubnetworkN in
  let s := remove_net netuid s NetNum.NetworkModality in
  let s := s <| NetworksAdded ::= delete netuid |> in
  let s := mutate_value Value.TotalNetworks (fun n => sat_sub n 1) s in
  let s := remove_net netuid s NetNum.NetworkRegisteredAt in
  let s := s <| Uids ::= clear_prefix netuid |> in
  let keys := iter_subnet netuid (Keys s) in
  let s := s <| Keys ::= clear_prefix netuid |> in
  let s := s <| Bonds ::= clear_prefix netuid |> in
  let s := s <| Weights ::= clear_prefix netuid |> in
  let s := foldl (zero_root_weight netuid) s (iter_subnet 0 (Weights s)) in
  let s := foldl (remove_vec netuid) s removed_vecs in
  let s := foldl (remove_bvec netuid) s [NetBoolVec.Active; NetBoolVec.ValidatorPermit] in
  let s := foldl (fun s '(_, key) => remove_member key netuid s) s keys in
  let s := foldl (remove_net netuid) s removed_parameters in
  let s := add_balance_to_coldkey_account owner_coldkey reserved_amount s in
  let s := set_subnet_locked_balance netuid 0 s in
  let s := s <| SubnetOwner ::= delete netuid |> in
  if bool_decide (is_Some (SubnetIdentitiesV3 s !! netuid))
  then deposit_event (Event.SubnetIdentityRemoved netuid) (s <| SubnetIdentitiesV3 ::= delete netuid |>) else s.

Definition user_remove_network (coldkey : AccountId) (netuid : Z) : Pm W unit :=
  let* s := gets id in
  check (if_subnet_exist netuid s) Error.SubNetworkDoesNotExist ;;
  check (bool_decide (get_subnet_owner netuid s = coldkey)) Error.NotSubnetOwner ;;
  (if bool_decide (is_Some (SubnetIdentitiesV3 s !! netuid)) then
     modify (fun s => s <| SubnetIdentitiesV3 ::= delete netuid |>) ;;
     modify (deposit_event (Event.SubnetIdentityRemoved netuid))
   else ret tt) ;;
  modify (remove_network netuid) ;;
  modify (deposit_event (Event.NetworkRemoved netuid)).

(** ** Identifiers *)

Lemma next_loop_least fuel netuids n r :
  n <= r <= U16_MAX -> r ∉ netuids -> (forall k, n <= k < r -> k ∈ netuids) -> (Z.to_nat (r - n) < fuel)%nat ->
  next_netuid_loop fuel netuids n = Some r.
Proof using.
  revert n. induction fuel as [|fuel IH]; intros n Hn Hr Hall Hf; [lia|]. cbn [next_netuid_loop].
  destruct (decide (n = r)) as [->|Hne]; [by rewrite bool_decide_false|].
  rewrite bool_decide_true by (apply Hall; lia). cbn [negb]. unfold next, sat_add. rewrite Z.min_l by lia.
  apply IH; [lia|done| |lia]. intros k Hk. apply Hall. lia.
Qed.

Lemma next_loop_diverges fuel netuids n :
  n <= U16_MAX -> (forall k, n <= k <= U16_MAX -> k ∈ netuids) -> next_netuid_loop fuel netuids n = None.
Proof using.
  revert n. induction fuel as [|fuel IH]; intros n Hn Hall; [done|]. cbn [next_netuid_loop].
  rewrite bool_decide_true by (apply Hall; lia). cbn [negb]. unfold next, sat_add.
  apply IH; [lia|]. intros k Hk. apply Hall. lia.
Qed.

Lemma least_free (netuids : list Z) n k : n <= n + Z.of_nat k ->
  (forall j, n <= j < n + Z.of_nat k -> j ∈ netuids) \/
  exists r, n <= r < n + Z.of_nat k /\ r ∉ netuids /\ forall j, n <= j < r -> j ∈ netuids.
Proof using.
  intros _. induction k as [|k [IH|(r & H1 & H2 & H3)]].
  - left. lia.
  - destruct (decide (n + Z.of_nat k ∈ netuids)) as [Hi|Hi].
    + left. intros j Hj. destruct (decide (j = n + Z.of_nat k)) as [->|]; [done|]. apply IH. lia.
    + right. exists (n + Z.of_nat k). split_and!; [lia..|done|]. intros j Hj. apply IH. lia.
  - right. exists r. split_and!; [lia..|done|done].
Qed.

(** The identifiers before the first free one are all in the list. *)
Lemma taken_le_length (netuids : list Z) n r : n <= r -> (forall j, n <= j < r -> j ∈ netuids) ->
  (Z.to_nat (r - n) <= length netuids)%nat.
Proof using.
  intros Hn Hall. rewrite <- (length_seqZ n (r - n)). apply submseteq_length, NoDup_submseteq; [apply NoDup_seqZ|].
  intros j Hj%elem_of_seqZ. apply Hall. lia.
Qed.

Lemma elem_of_netuids s n : n ∈ get_all_subnet_netuids s <-> is_Some (NetworksAdded s !! n).
Proof using.
  unfold get_all_subnet_netuids. rewrite list_elem_of_fmap. split.
  - intros ([m b] & -> & Hin). rewrite iter_prefix_perm, elem_of_map_to_list in Hin. by exists b.
  - intros [b Hb]. exists (n, b). by rewrite iter_prefix_perm, elem_of_map_to_list.
Qed.

Lemma next_netuid_free s n : get_next_netuid s = Some n -> NetworksAdded s !! n = None.
Proof using.
  unfold get_next_netuid. generalize (S (length (get_all_subnet_netuids s))) as fuel, 1 as k.
  induction fuel as [|fuel IH]; intros k; cbn [next_netuid_loop]; [done|].
  case_bool_decide as Hk; cbn [negb]; [apply IH|]. intros [= <-]. apply eq_None_not_Some. by rewrite <- elem_of_netuids.
Qed.

(** The search for the identifier of a new subnet ends exactly when one is
    free: it returns the least identifier from 1 on that no subnet has. With
    all 65535 identifiers taken [NetUid::next] saturates and the loop runs for
    ever, with whatever fuel. *)
Theorem next_netuid_terminates s :
  match get_next_netuid s with
  | Some n => 1 <= n <= U16_MAX /\ NetworksAdded s !! n = None /\
      forall k, 1 <= k < n -> is_Some (NetworksAdded s !! k)
  | None => (forall k, 1 <= k <= U16_MAX -> is_Some (NetworksAdded s !! k)) /\
      forall fuel, next_netuid_loop fuel (get_all_subnet_netuids s) 1 = None
  end.
Proof using.
  unfold get_next_netuid. set (l := get_all_subnet_netuids s).
  assert (exists f, Z.of_nat f = 65535) as [f Ef] by (exists (Z.to_nat 65535); lia).
  destruct (least_free l 1 f) as [Hall|(r & Hr & Hnot & Hall)]; [lia|..].
  - rewrite next_loop_diverges by (lia || (intros k Hk; apply Hall; lia)). split.
    + intros k Hk. apply elem_of_netuids, Hall. lia.
    + intros fuel. apply next_loop_diverges; [lia|]. intros k Hk. apply Hall. lia.
  - pose proof (taken_le_length l 1 r ltac:(lia) Hall). rewrite (next_loop_least _ l 1 r) by (done || lia).
    split_and!; [lia..| |].
    + apply eq_None_not_Some. by rewrite <- elem_of_netuids.
    + intros k Hk. apply elem_of_netuids, Hall. lia.
Qed.

(** ** The price of a subnet *)

Lemma lock_cost_mono last min b now now' i : 0 <= last -> 0 <= i -> now <= now' ->
  lock_cost_at last min b now' i <= lock_cost_at last min b now i.
Proof using.
  intros Hl Hi Hn. assert (0 <= last / i) as Hd.
  { destruct (decide (i = 0)) as [->|]; [by rewrite Zdiv_0_r|]. apply Z.div_pos; lia. }
  assert (last / i * sat_sub now b <= last / i * sat_sub now' b)
    by (apply Z.mul_le_mono_nonneg_l; unfold sat_sub; lia).
  unfold lock_cost_at, sat_mul. cbv zeta.
  repeat match goal with |- context [if ?x <? ?y then _ else _] => destruct (Z.ltb_spec x y) end;
    unfold sat_sub in *; lia.
Qed.

(** The price of a subnet, as a function of the lock paid for the last one:
    never below the minimum nor above twice the last lock; it doubles with each
    registration and then falls block by block, and when the reduction interval
    has passed it is back at the last lock, up to one unit for each block of the
    interval. *)
Theorem lock_cost_decays s :
  let last := get_network_last_lock s in
  let min := get_network_min_lock s in
  let b := get_network_last_lock_block s in
  let now := get_current_block_as_u64 s in
  let interval := (get_lock_reduction_interval s).1 in
  let cost := (get_network_lock_cost s).1 in
  0 <= last -> 2 * last <= U64_MAX -> 0 <= interval -> b <= now ->
  min <= cost <= Z.max min (2 * last) /\
  (now = b -> b <> 0 -> cost = Z.max min (2 * last)) /\
  (forall now', now <= now' -> lock_cost_at last min b now' interval <= cost) /\
  (0 < interval -> interval <= now - b -> cost <= Z.max min (last + interval)).
Proof using.
  cbv zeta. unfold get_network_lock_cost. destruct (get_lock_reduction_interval s) as [i s1]. cbn [fst].
  set (last := get_network_last_lock s). set (min := get_network_min_lock s).
  set (b := get_network_last_lock_block s). set (now := get_current_block_as_u64 s).
  intros Hl Hmax Hi Hb. assert (0 <= last / i) as Hd.
  { destruct (decide (i = 0)) as [->|]; [by rewrite Zdiv_0_r|]. apply Z.div_pos; lia. }
  assert (last / i * i <= last /\ (0 < i -> last < last / i * i + i)) as [Hq Hq'].
  { destruct (decide (i = 0)) as [->|]; [lia|]. pose proof (Z.div_mod last i). pose proof (Z.mod_pos_bound last i). lia. }
  assert (0 <= last / i * (now - b)) by (apply Z.mul_nonneg_nonneg; lia).
  split; [|split; [|split]].
  - unfold lock_cost_at. cbv zeta. destruct (Z.ltb_spec (sat_sub (sat_mul U64_MAX last (if b =? 0 then 1 else 2)) (sat_mul U64_MAX (last / i) (sat_sub now b))) min);
      destruct (b =? 0); unfold sat_sub, sat_mul in *; rewrite ?(Z.max_l (now - b)) in * by lia; lia.
  - intros -> Hb0. unfold lock_cost_at. apply Z.eqb_neq in Hb0. rewrite Hb0. unfold sat_sub, sat_mul.
    rewrite Z.sub_diag, Z.max_id, Z.mul_0_r.
    match goal with |- context [if ?x <? ?y then _ else _] => destruct (Z.ltb_spec x y) end; lia.
  - intros now' Hn. apply lock_cost_mono; lia.
  - intros Hi0 Hlate. assert (last / i * i <= last / i * (now - b)) by (apply Z.mul_le_mono_nonneg_l; lia).
    unfold lock_cost_at. cbv zeta. destruct (Z.ltb_spec (sat_sub (sat_mul U64_MAX last (if b =? 0 then 1 else 2)) (sat_mul U64_MAX (last / i) (sat_sub now b))) min);
      destruct (b =? 0); unfold sat_sub, sat_mul in *; rewrite ?(Z.max_l (now - b)) in * by lia; lia.
Qed.
End Network.

#[global] Arguments init_new_network : simpl never.
#[global] Arguments make_parameters_explicit : simpl never.
#[global] Arguments fund_network : simpl never.
#[global] Arguments remove_network : simpl never.
