(* ===== verification/Lifecycle.v ===== *)
(** * The life of a subnet: creation, start, removal

    What [do_register_network], [do_start_call] and [remove_network] of
    [Network] do to the storage: a new subnet gets the least free identifier,
    one neuron, and a pool; a removed subnet leaves its slots empty for the next
    one. [networks_ok] is the invariant that makes identifiers reusable. *)

From S2P Require Import Prelude Frame Fixed SharePool Storage Misc Uids Symbols Reserves Registration Identity.
From S2P Require Import RateLimiting Children Staking StakeWeights Emission Network.
From stdpp Require Import prelude gmap list fin_maps.
From Stdlib Require Import ZArith Lia.
#[local] Open Scope Z_scope.
#[local] Open Scope monad_scope.

Section Lifecycle.
Context {FS : FrameSystem} {Cfg : SubtensorConfig} {SI : StorageIter} {W : Type}.
Context {Env : SubtensorEnv W} {SW : SwapHandler W} {F : SubstrateFixed} {FT : FixedTranscendental}.
Context {SE : Senate W}.
Abbreviation St := (Storage W).
Implicit Types (s : St) (netuid uid : Z) (hotkey coldkey : AccountId).

(** ** The invariant *)

(** Every subnet's slots are consistent, and an identifier that no subnet has
    holds no neuron. *)
Definition networks_ok (s : St) : Prop :=
  forall n, uids_ok s n /\ (NetworksAdded s !! n = None -> get_subnetwork_n n s = 0).

(** Storages that agree on all that [networks_ok] reads. *)
Record same_neurons (s s' : St) : Prop := {
  sn_keys : Keys s = Keys s';
  sn_uids : Uids s = Uids s';
  sn_member : IsNetworkMember s = IsNetworkMember s';
  sn_vecs : net_vecs s = net_vecs s';
  sn_bvecs : net_bool_vecs s = net_bool_vecs s';
  sn_n : forall n, get_subnetwork_n n s = get_subnetwork_n n s';
}.

#[export] Instance same_neurons_equivalence : Equivalence same_neurons.
Proof using.
  split.
  - by intros s.
  - intros s s' []. split; congruence.
  - intros s s' s'' [] []. split; congruence.
Qed.

#[export] Instance uids_ok_neurons : Proper (same_neurons ==> eq ==> iff) uids_ok.
Proof using.
  assert (forall s s' n, same_neurons s s' -> uids_ok s n -> uids_ok s' n) as Hone.
  { intros s s' n [Ek Eu Em Ev Eb En] [Hk Hu Hm Hv Hb].
    split; intros; unfold member, get_vec, get_bvec in *; rewrite <- ?Ek, <- ?Eu, <- ?Em, <- ?Ev, <- ?Eb, <- ?En; auto. }
  intros s s' Hs n ? <-. split; apply Hone; [done|by symmetry].
Qed.

Lemma same_slots_neurons s s' : same_slots s s' -> same_neurons s s'.
Proof using. intros H. split; try apply H. intros n. by apply (ss_items _ _ H). Qed.

Lemma networks_ok_same s s' : same_neurons s s' -> NetworksAdded s' = NetworksAdded s -> networks_ok s -> networks_ok s'.
Proof using.
  intros Hs Hn Hok n. destruct (Hok n) as [H1 H2]. split; [by rewrite <- Hs|]. rewrite Hn, <- (sn_n _ _ Hs). done.
Qed.

Lemma neurons_put_net i n v s : i <> NetNum.SubnetworkN -> same_neurons (put_net i n v s) s.
Proof using. intros Hi. split; try done. intros m. unfold get_subnetwork_n. by rewrite get_put_net, decide_False by naive_solver. Qed.

Lemma neurons_put_value i v s : same_neurons (put_value i v s) s.
Proof using. by split. Qed.

Lemma empty_network s n : uids_ok s n -> get_subnetwork_n n s = 0 ->
  (forall u, Keys s !! (n, u) = None) /\ (forall h, Uids s !! (n, h) = None) /\
  (forall h, default false (member h n s) = false).
Proof using.
  intros [Hk Hu Hm _ _] Hn. assert (forall u, Keys s !! (n, u) = None) as Hnone.
  { intros u. apply eq_None_not_Some. rewrite Hk, Hn. lia. }
  assert (forall h, Uids s !! (n, h) = None) as Hnone'.
  { intros h. destruct (Uids s !! (n, h)) as [u|] eqn:E; [|done]. apply Hu in E. by rewrite Hnone in E. }
  split_and!; [done|done|]. intros h. rewrite Hm, Hnone'. by apply bool_decide_false; intros [].
Qed.

Lemma append_networks_ok n h b s : networks_ok s -> is_Some (NetworksAdded s !! n) -> Uids s !! (n, h) = None ->
  get_subnetwork_n n s < U16_MAX -> networks_ok (append_neuron n h b s).
Proof using.
  intros Hok [e He] Hnew Hlt m. destruct (Hok n) as [Hn _].
  assert (0 <= get_subnetwork_n n s) by (rewrite <- (uo_bvecs _ _ Hn NetBoolVec.Active); lia).
  split; [by apply append_ok; [apply Hok|..]|].
  assert (NetworksAdded (append_neuron n h b s) = NetworksAdded s) as -> by (unfold append_neuron; by st_frame).
  rewrite append_n. case_decide as E; [|by apply Hok]. subst. congruence.
Qed.

Lemma replace_added n uid h b s : NetworksAdded (replace_neuron n uid h b s) = NetworksAdded s.
Proof using. unfold replace_neuron. case_bool_decide; [done|]. by st_frame. Qed.

Lemma replace_networks_ok n uid h b s : networks_ok s -> Uids s !! (n, h) = None -> 0 <= uid < get_subnetwork_n n s ->
  networks_ok (replace_neuron n uid h b s).
Proof using.
  intros Hok Hnew Hu m. split; [apply replace_ok; [apply Hok|done|done|apply Hok]|]. rewrite replace_added.
  destruct (decide (SubnetOwnerHotkey s !! n = Some (hotkey_at n uid s))); [rewrite replace_owner by done|rewrite replace_n by done];
    apply Hok.
Qed.

(** ** Creation *)

Lemma make_explicit_frame {A} (g : St -> A) netuid s :
  (forall i v x, g (put_net i netuid v x) = g x) -> g (make_parameters_explicit netuid s) = g s.
Proof using.
  intros H. unfold make_parameters_explicit. generalize explicit_items as l. intros l. revert s. induction l as [|i l IH]; intros s; [done|]. cbn. rewrite IH. unfold make_explicit.
  by case_bool_decide.
Qed.

Ltac st_frame_hook g ::=
  first [ apply (set_active_frame g); reflexivity
        | apply (set_last_update_frame g); reflexivity
        | apply (push_unique_frame g); reflexivity
        | apply (create_account_frame g); reflexivity
        | apply (make_explicit_frame g); reflexivity ].

(** Making a parameter explicit does not change what is read. *)
Lemma make_explicit_get netuid i m s : get_net i m (make_parameters_explicit netuid s) = get_net i m s.
Proof using.
  unfold make_parameters_explicit. generalize explicit_items as l. intros l. revert s. induction l as [|j l IH]; intros s; [done|]. cbn. rewrite IH. unfold make_explicit.
  case_bool_decide; [done|]. rewrite get_put_net. by case_decide as E; [destruct E as [-> ->]|].
Qed.

Lemma lock_cost_state s :
  (get_network_lock_cost s).2 = s \/ exists v, (get_network_lock_cost s).2 = put_value Value.BlockEmission v s.
Proof using.
  unfold get_network_lock_cost, get_lock_reduction_interval, get_block_emission, get_block_emission_for_issuance.
  destruct (_ <=? _); [by left|]. destruct (emission_residual _); [|by left]. destruct (negb _); [right; by eexists|by left].
Qed.

(** A subnet as [do_register_network] creates it, once the lock is paid. *)
Definition opening (netuid lock : Z) (coldkey hotkey : AccountId) (now : Z) (s : St) : St :=
  put_net NetNum.NetworkRegisteredAt netuid now
    (put_value Value.NetworkLastRegistered now
      (put_net NetNum.SubnetMechanism netuid 1
        (append_neuron netuid hotkey now
          (create_account_if_non_existent coldkey hotkey
            (init_new_network netuid InitialTempo (set_network_last_lock lock s)))))).
Definition opened (netuid lock : Z) (coldkey hotkey : AccountId) (now : Z) (s : St) : St :=
  fund_network netuid lock coldkey hotkey (opening netuid lock coldkey hotkey now s).

(** The lock is withdrawn from the coldkey; nothing but the cached block
    emission and the world changes. *)
Definition lock_paid (coldkey : AccountId) (cost lock : Z) (s s1 : St) : Prop :=
  let s0 := (get_network_lock_cost s).2 in
  (cost = 0 /\ lock = 0 /\ s1 = s0) \/
  exists w, withdraw (world s) coldkey cost = Ok (lock, w) /\ lock <> 0 /\ s1 = s0 <| world := w |>.

Lemma remove_balance_inv coldkey amount s r s' :
  remove_balance_from_coldkey_account coldkey amount s = Ok (r, s') ->
  (amount = 0 /\ r = 0 /\ s' = s) \/
  exists w, withdraw (world s) coldkey amount = Ok (r, w) /\ r <> 0 /\ s' = s <| world := w |>.
Proof using.
  unfold remove_balance_from_coldkey_account. destruct (Z.eqb_spec amount 0) as [->|].
  - intros H. monad_inv H. by left.
  - unfold bind, gets. destruct (withdraw (world s) coldkey amount) as [[credit w]|]; [|done]. cbn.
    destruct (Z.eqb_spec credit 0); [done|]. intros [= <- <-]. right. by exists w.
Qed.

Lemma register_network_inv origin hotkey mechid identity s s' :
  do_register_network origin hotkey mechid identity s = Ok (tt, s') ->
  exists coldkey n lock s1,
    ensure_signed origin = Ok coldkey /\ get_next_netuid s = Some n /\
    lock_paid coldkey (get_network_lock_cost s).1 lock s s1 /\
    (hotkey_account_exists hotkey s = false \/ coldkey_owns_hotkey coldkey hotkey s = true) /\
    exists ids evs, s' = opened n lock coldkey hotkey (get_current_block_as_u64 s) s1
      <| SubnetIdentitiesV3 := ids |> <| events := evs |>.
Proof using.
  intros H. unfold do_register_network in H. monad_inv H. unfold id in *.
  match goal with E : get_network_lock_cost s = (?c, ?x) |- _ => rename E into Ec; rename x into s0 end.
  match goal with H : get_next_netuid _ = Some _ |- _ => rename H into Hn end.
  match goal with H : remove_balance_from_coldkey_account _ _ _ = _ |- _ => rename H into Hpay end.
  match goal with H : set_identity_of_network _ _ _ = _ |- _ => rename H into Hid end.
  assert (get_next_netuid s0 = get_next_netuid s /\ world s0 = world s) as [En Ew].
  { destruct (lock_cost_state s) as [E|[v E]]; rewrite Ec in E; cbn [snd] in E; by subst. }
  apply remove_balance_inv in Hpay. eexists _, _, _, _. split; [done|]. split; [by rewrite <- En|]. split; [|split].
  - unfold lock_paid. rewrite Ec, <- Ew. cbn [fst snd]. exact Hpay.
  - apply orb_true_iff in Hg as [?%negb_true_iff|?]; auto.
  - apply Z.eqb_eq in Hg0; subst mechid.
    match type of Hid with _ _ _ ?y = _ =>
      change y with (opened a1 a a0 hotkey (get_current_block_as_u64 s) s1) in Hid end.
    generalize dependent (opened a1 a a0 hotkey (get_current_block_as_u64 s) s1). intros y Hid.
    unfold set_identity_of_network in Hid. monad_inv Hid; eexists _, _; reflexivity.
Qed.

Lemma init_neurons netuid tempo s : get_subnetwork_n netuid s = 0 -> same_neurons (init_new_network netuid tempo s) s.
Proof using.
  intros Hn. split; try (unfold init_new_network; by st_frame).
  intros m. unfold get_subnetwork_n, init_new_network. cbv zeta. rewrite make_explicit_get.
  unfold set_max_difficulty, set_min_difficulty, set_immunity_period, set_adjustment_alpha, set_adjustment_interval,
    set_target_registrations_per_interval, set_max_weight_limit, set_min_allowed_weights, set_max_allowed_validators,
    set_max_allowed_uids. st_read.
  case_decide as E; [destruct E as [_ <-]|]; done.
Qed.

Lemma init_added netuid tempo s : NetworksAdded (init_new_network netuid tempo s) = <[netuid := true]> (NetworksAdded s).
Proof using. unfold init_new_network. by st_frame. Qed.

Lemma fund_neurons netuid lock coldkey hotkey s : same_neurons (fund_network netuid lock coldkey hotkey s) s.
Proof using.
  unfold fund_network. cbv zeta. destruct (0 <? sat_sub _ _), ((0 <? lock) && _); split; intros; unfold get_subnetwork_n; st_read;
    rewrite ?get_put_net, ?decide_False by naive_solver; done.
Qed.

Lemma fund_added netuid lock coldkey hotkey s : NetworksAdded (fund_network netuid lock coldkey hotkey s) = NetworksAdded s.
Proof using. unfold fund_network. cbv zeta. by destruct (0 <? sat_sub _ _), ((0 <? lock) && _). Qed.

(** The slots of a subnet that was just created: the owner's hotkey at uid 0. *)
Lemma opened_slots netuid lock coldkey hotkey now s : networks_ok s -> NetworksAdded s !! netuid = None ->
  let s' := opened netuid lock coldkey hotkey now s in
  networks_ok s' /\ NetworksAdded s' = <[netuid := true]> (NetworksAdded s) /\
  Keys s' = <[(netuid, 0) := hotkey]> (Keys s) /\ get_subnetwork_n netuid s' = 1.
Proof using.
  intros Hok Hnew. cbv zeta. destruct (Hok netuid) as [Hu0 Hn0]. specialize (Hn0 Hnew).
  unfold opened, opening. set (x := create_account_if_non_existent _ _ _).
  assert (same_neurons x s) as Hx.
  { unfold x. etransitivity; [apply same_slots_neurons, slots_create_account|]. etransitivity; [by apply init_neurons|by split]. }
  assert (NetworksAdded x = <[netuid := true]> (NetworksAdded s)) as Hadd.
  { unfold x. st_frame. by rewrite init_added. }
  clearbody x. set (y := append_neuron netuid hotkey now x).
  assert (get_subnetwork_n netuid x = 0) as Hnx by (by rewrite (sn_n _ _ Hx)).
  assert (forall m, uids_ok y m) as Hy.
  { intros m. apply append_ok; [rewrite Hx; apply Hok| |lia..].
    rewrite (sn_uids _ _ Hx). by apply empty_network. }
  assert (same_neurons (fund_network netuid lock coldkey hotkey (put_net NetNum.NetworkRegisteredAt netuid now
    (put_value Value.NetworkLastRegistered now (put_net NetNum.SubnetMechanism netuid 1 y)))) y) as Hf.
  { etransitivity; [apply fund_neurons|]. etransitivity; [by apply neurons_put_net|].
    etransitivity; [apply neurons_put_value|]. by apply neurons_put_net. }
  split_and!.
  - intros m. split; [rewrite Hf; apply Hy|]. rewrite fund_added, (sn_n _ _ Hf). unfold y. st_frame. rewrite Hadd.
    rewrite append_n. intros [? Hm]%lookup_insert_None. rewrite decide_False by done.
    rewrite (sn_n _ _ Hx). by apply Hok.
  - rewrite fund_added, <- Hadd. unfold y. by st_frame.
  - rewrite (sn_keys _ _ Hf), <- (sn_keys _ _ Hx), <- Hnx. reflexivity.
  - rewrite (sn_n _ _ Hf). unfold y. rewrite append_n, decide_True, Hnx by done. done.
Qed.

(** What the steps before the funding leave alone. *)
Lemma opening_values netuid lock coldkey hotkey now s i :
  i <> Value.NetworkLastRegistered -> i <> Value.TotalNetworks -> i <> Value.NetworkLastLockCost ->
  get_value i (opening netuid lock coldkey hotkey now s) = get_value i s.
Proof using.
  intros H1 H2 H3. unfold opening, init_new_network, set_network_last_lock.
  repeat (st_frame; rewrite ?get_put_value, ?get_mutate_value, ?decide_False by congruence). done.
Qed.

Lemma opening_frame netuid lock coldkey hotkey now s :
  let x := opening netuid lock coldkey hotkey now s in
  SubnetOwner x = SubnetOwner s /\ SubnetOwnerHotkey x = SubnetOwnerHotkey s /\ world x = world s /\
  FirstEmissionBlockNumber x = FirstEmissionBlockNumber s.
Proof using. cbv zeta. unfold opening, init_new_network, set_network_last_lock. split_and!; by st_frame. Qed.

(** The books of a subnet that was just created. *)
Lemma fund_books netuid lock coldkey hotkey s : 0 <= get_total_issuance s ->
  let s' := fund_network netuid lock coldkey hotkey s in let pool := get_network_min_lock s in
  SubnetOwner s' = <[netuid := coldkey]> (SubnetOwner s) /\
  SubnetOwnerHotkey s' = <[netuid := hotkey]> (SubnetOwnerHotkey s) /\
  get_net NetNum.SubnetTAO netuid s' = pool /\ get_net NetNum.SubnetAlphaIn netuid s' = pool /\
  get_total_issuance s' = sat_sub (get_total_issuance s) (sat_sub lock pool) /\
  (0 < lock -> 0 < pool -> get_total_stake s' = sat_add U64_MAX (get_total_stake s) pool) /\
  world s' = world s /\ FirstEmissionBlockNumber s' = FirstEmissionBlockNumber s.
Proof using.
  intros Hti. cbv zeta. unfold fund_network. cbv zeta.
  change (get_network_min_lock (s <| TokenSymbol ::= _ |>)) with (get_network_min_lock s).
  set (pool := get_network_min_lock s). clearbody pool.
  split_and!; try (destruct (0 <? sat_sub _ _), ((0 <? lock) && _); unfold burn_tokens, increase_total_stake; by st_frame).
  1,2: destruct (0 <? sat_sub _ _), ((0 <? lock) && _); unfold burn_tokens, increase_total_stake; by st_read.
  - unfold get_total_issuance in *. destruct (Z.ltb_spec 0 (sat_sub lock pool)), ((0 <? lock) && _);
      unfold burn_tokens, increase_total_stake; st_read; try done; unfold sat_sub in *; lia.
  - intros Hl Hp. rewrite (proj2 (Z.ltb_lt 0 lock)), (proj2 (Z.ltb_lt 0 pool)) by lia. cbn [andb].
    destruct (0 <? sat_sub _ _); unfold burn_tokens, increase_total_stake, get_total_stake in *; by st_read.
Qed.

(** What paying the lock leaves alone. *)
Lemma lock_paid_frame coldkey cost lock s s1 : lock_paid coldkey cost lock s s1 ->
  same_neurons s1 s /\ NetworksAdded s1 = NetworksAdded s /\ get_network_min_lock s1 = get_network_min_lock s /\
  get_total_issuance s1 = get_total_issuance s /\ get_total_stake s1 = get_total_stake s.
Proof using.
  intros Hpaid. destruct (lock_cost_state s) as [E|[v E]]; destruct Hpaid as [(_ & _ & ->)|(w & _ & _ & ->)]; rewrite E; try done.
  all: split_and!; [by split|done|..]; unfold get_network_min_lock, get_total_issuance, get_total_stake; st_frame;
    by rewrite get_put_value.
Qed.

Lemma register_network_slots origin hotkey mechid identity s s' :
  do_register_network origin hotkey mechid identity s = Ok (tt, s') -> networks_ok s ->
  exists n, get_next_netuid s = Some n /\ networks_ok s' /\ NetworksAdded s' = <[n := true]> (NetworksAdded s) /\
    Keys s' = <[(n, 0) := hotkey]> (Keys s) /\ get_subnetwork_n n s' = 1.
Proof using.
  intros H Hok. apply register_network_inv in H as (c & n & lock & s1 & _ & Hn & Hpaid & _ & ids & evs & ->).
  destruct (lock_paid_frame _ _ _ _ _ Hpaid) as (Hs & Ea & _).
  assert (networks_ok s1) as Hok1 by (eapply networks_ok_same; [by symmetry|done|done]).
  destruct (opened_slots n lock c hotkey (get_current_block_as_u64 s) s1 Hok1) as (H1 & H2 & H3 & H4).
  { rewrite Ea. by apply next_netuid_free. }
  generalize dependent (opened n lock c hotkey (get_current_block_as_u64 s) s1). intros y H1 H2 H3 H4.
  exists n. split_and!; [done| |..].
  - by apply (networks_ok_same y); [split| |].
  - cbn. congruence.
  - cbn. by rewrite H3, (sn_keys _ _ Hs).
  - by rewrite <- H4.
Qed.

(** A successful registration opens a subnet at the least free identifier. The
    slots of all subnets stay consistent; the new subnet has one neuron, the
    hotkey at uid 0, and belongs to the caller. Of the lock, which the caller
    pays, the minimum goes to the new pool, matched by as much alpha and counted
    as stake, and the rest leaves the issuance. *)
Theorem register_network_opens origin hotkey mechid identity s s' :
  do_register_network origin hotkey mechid identity s = Ok (tt, s') -> networks_ok s -> 0 <= get_total_issuance s ->
  exists coldkey n lock s1,
    ensure_signed origin = Ok coldkey /\ get_next_netuid s = Some n /\
    lock_paid coldkey (get_network_lock_cost s).1 lock s s1 /\ world s' = world s1 /\
    (hotkey_account_exists hotkey s = false \/ coldkey_owns_hotkey coldkey hotkey s = true) /\
    networks_ok s' /\ NetworksAdded s' = <[n := true]> (NetworksAdded s) /\
    Keys s' = <[(n, 0) := hotkey]> (Keys s) /\ get_subnetwork_n n s' = 1 /\
    SubnetOwner s' !! n = Some coldkey /\ SubnetOwnerHotkey s' !! n = Some hotkey /\
    let pool := get_network_min_lock s in
    get_net NetNum.SubnetTAO n s' = pool /\ get_net NetNum.SubnetAlphaIn n s' = pool /\
    get_total_issuance s' = sat_sub (get_total_issuance s) (sat_sub lock pool) /\
    (0 < lock -> 0 < pool -> get_total_stake s' = sat_add U64_MAX (get_total_stake s) pool).
Proof using.
  intros H Hok Hti. destruct (register_network_slots _ _ _ _ _ _ H Hok) as (n & Hn & H1 & H2 & H3 & H4).
  apply register_network_inv in H as (c & n' & lock & s1 & Ho & Hn' & Hpaid & Hown & ids & evs & ->).
  rewrite Hn in Hn'. injection Hn' as <-.
  destruct (lock_paid_frame _ _ _ _ _ Hpaid) as (_ & _ & Ep & Ei & Et).
  set (x := opening n lock c hotkey (get_current_block_as_u64 s) s1).
  destruct (opening_frame n lock c hotkey (get_current_block_as_u64 s) s1) as (O1 & O2 & O3 & _).
  assert (forall i, i <> Value.NetworkLastRegistered -> i <> Value.TotalNetworks -> i <> Value.NetworkLastLockCost ->
    get_value i x = get_value i s1) as Ov by (intros; by apply opening_values).
  assert (get_total_issuance x = get_total_issuance s1) as Oi by (by apply Ov).
  destruct (fund_books n lock c hotkey x ltac:(lia)) as (B1 & B2 & B3 & B4 & B5 & B6 & B7 & _).
  assert (get_network_min_lock x = get_network_min_lock s1) as Op by (by apply Ov).
  assert (get_total_stake x = get_total_stake s1) as Os by (by apply Ov).
  change (fund_network n lock c hotkey x) with (opened n lock c hotkey (get_current_block_as_u64 s) s1) in *.
  fold x in O1, O2, O3. clearbody x. rewrite Op, Ep in B3, B4, B5, B6. rewrite Oi, Ei in B5. rewrite Os, Et in B6.
  set (y := opened _ _ _ _ _ _) in *. clearbody y. exists c, n, lock, s1. split_and!; try done.
  - cbn. congruence.
  - cbn. by rewrite B1, lookup_insert_eq.
  - cbn. by rewrite B2, lookup_insert_eq.
Qed.

(** ** Removal *)

Lemma foldl_frame {A B} (g : St -> A) (f : St -> B -> St) l s : (forall x b, g (f x b) = g x) -> g (foldl f s l) = g s.
Proof using. intros Hf. revert s. induction l as [|b l IH]; intros s; cbn; [done|]. by rewrite IH. Qed.

Lemma lookup_clear_prefix {K V} `{Countable K} netuid (m : gmap (Z * K) V) n k :
  clear_prefix netuid m !! (n, k) = if decide (n = netuid) then None else m !! (n, k).
Proof using.
  unfold clear_prefix. destruct (m !! (n, k)) as [v|] eqn:E; case_decide as Hn.
  - apply map_lookup_filter_None. right. cbn. naive_solver.
  - by apply map_lookup_filter_Some.
  - apply map_lookup_filter_None. by left.
  - apply map_lookup_filter_None. by left.
Qed.

Lemma get_removed_vecs netuid l i m s : get_vec i m (foldl (remove_vec netuid) s l) =
  if decide (i ∈ l /\ m = netuid) then [] else get_vec i m s.
Proof using.
  revert s. induction l as [|j l IH]; intros s; cbn [foldl]; [by rewrite decide_False by (by intros [?%elem_of_nil _])|].
  rewrite IH. unfold get_vec, remove_vec. cbn [net_vecs over setter]. destruct (decide (i ∈ l /\ m = netuid)) as [[? ->]|Hn].
  { rewrite decide_True; [done|]. split; [by right|done]. }
  destruct (decide (i ∈ j :: l /\ m = netuid)) as [[[->|?]%elem_of_cons ->]|Hn'].
  - by rewrite lookup_delete_eq.
  - naive_solver.
  - rewrite lookup_delete_ne; [done|]. intros [= -> ->]. apply Hn'. split; [by left|done].
Qed.

Lemma get_removed_bvecs netuid l i m s : get_bvec i m (foldl (remove_bvec netuid) s l) =
  if decide (i ∈ l /\ m = netuid) then [] else get_bvec i m s.
Proof using.
  revert s. induction l as [|j l IH]; intros s; cbn [foldl]; [by rewrite decide_False by (by intros [?%elem_of_nil _])|].
  rewrite IH. unfold get_bvec, remove_bvec. cbn [net_bool_vecs over setter]. destruct (decide (i ∈ l /\ m = netuid)) as [[? ->]|Hn].
  { rewrite decide_True; [done|]. split; [by right|done]. }
  destruct (decide (i ∈ j :: l /\ m = netuid)) as [[[->|?]%elem_of_cons ->]|Hn'].
  - by rewrite lookup_delete_eq.
  - naive_solver.
  - rewrite lookup_delete_ne; [done|]. intros [= -> ->]. apply Hn'. split; [by left|done].
Qed.

Lemma get_removed_nets netuid l i m s : i ∉ l -> get_net i m (foldl (remove_net netuid) s l) = get_net i m s.
Proof using.
  intros Hi. revert s. induction l as [|j l IH]; intros s; cbn [foldl]; [done|].
  rewrite IH by (intros ?; apply Hi; by right). unfold get_net, remove_net. cbn [net_nums over setter].
  rewrite lookup_delete_ne; [done|]. intros [= ->]. apply Hi. by left.
Qed.

Lemma member_removed netuid l h m s :
  member h m (foldl (fun s '(_, key) => remove_member key netuid s) s l) =
  if decide (h ∈ (l : list (Z * AccountId)).*2 /\ m = netuid) then None else member h m s.
Proof using.
  revert s. induction l as [|[u k] l IH]; intros s; cbn [foldl]; [by rewrite decide_False by (by intros [?%elem_of_nil _])|].
  rewrite IH, member_remove, fmap_cons. cbn [snd].
  destruct (decide (h ∈ l.*2 /\ m = netuid)) as [[? ->]|Hn]; [by rewrite decide_True by (split; [by right|done])|].
  destruct (decide (k = h /\ netuid = m)) as [[-> ->]|Hn'].
  { rewrite decide_True; [done|]. split; [by left|done]. }
  rewrite decide_False; [done|]. intros [[->|?]%elem_of_cons ->]; naive_solver.
Qed.

Section Remove.
Context (netuid : Z) (s : St).
Abbreviation s' := (remove_network netuid s).

Ltac remove_steps := unfold remove_network; cbv zeta; case_bool_decide; st_frame;
  repeat first [ rewrite (foldl_frame _ (zero_root_weight netuid)) by (by intros ? [])
               | rewrite (foldl_frame _ (remove_vec netuid)) by done
               | rewrite (foldl_frame _ (remove_bvec netuid)) by done
               | rewrite (foldl_frame _ (remove_net netuid)) by done
               | rewrite (foldl_frame _ (fun s '(_, key) => remove_member key netuid s)) by (by intros ? [])
               | progress st_frame ].

Lemma remove_keys : Keys s' = clear_prefix netuid (Keys s).
Proof using. remove_steps; done. Qed.
Lemma remove_uids : Uids s' = clear_prefix netuid (Uids s).
Proof using. remove_steps; done. Qed.
Lemma remove_added : NetworksAdded s' = delete netuid (NetworksAdded s).
Proof using. remove_steps; done. Qed.
Lemma remove_first_emission : FirstEmissionBlockNumber s' = FirstEmissionBlockNumber s.
Proof using. remove_steps; done. Qed.

Lemma remove_vec_spec i m : get_vec i m s' = if decide (i ∈ removed_vecs /\ m = netuid) then [] else get_vec i m s.
Proof using.
  unfold remove_network; cbv zeta; case_bool_decide; st_frame;
    rewrite (foldl_frame _ (remove_net netuid)) by done;
    rewrite (foldl_frame _ (fun s '(_, key) => remove_member key netuid s)) by (by intros ? []);
    rewrite (foldl_frame _ (remove_bvec netuid)), get_removed_vecs by done;
    rewrite (foldl_frame _ (zero_root_weight netuid)) by (by intros ? []); st_frame; done.
Qed.

Lemma remove_bvec_spec i m : get_bvec i m s' = if decide (m = netuid) then [] else get_bvec i m s.
Proof using.
  assert (i ∈ [NetBoolVec.Active; NetBoolVec.ValidatorPermit]) as Hi by (destruct i; set_solver).
  transitivity (if decide (i ∈ [NetBoolVec.Active; NetBoolVec.ValidatorPermit] /\ m = netuid) then [] else get_bvec i m s).
  - unfold remove_network; cbv zeta; case_bool_decide; st_frame;
      rewrite (foldl_frame _ (remove_net netuid)) by done;
      rewrite (foldl_frame _ (fun s '(_, key) => remove_member key netuid s)) by (by intros ? []);
      rewrite get_removed_bvecs, (foldl_frame _ (remove_vec netuid)) by done;
      rewrite (foldl_frame _ (zero_root_weight netuid)) by (by intros ? []); st_frame; done.
  - by repeat case_decide; naive_solver.
Qed.

Lemma remove_n m : get_subnetwork_n m s' = if decide (m = netuid) then 0 else get_subnetwork_n m s.
Proof using.
  unfold get_subnetwork_n, remove_network; cbv zeta. unfold set_subnet_locked_balance.
  case_bool_decide; st_frame; rewrite get_put_net, decide_False by (intros [? _]; discriminate); st_frame;
    rewrite get_removed_nets by (unfold removed_parameters, explicit_items; set_solver);
    rewrite (foldl_frame _ (fun s '(_, key) => remove_member key netuid s)) by (by intros ? []);
    rewrite (foldl_frame _ (remove_bvec netuid)), (foldl_frame _ (remove_vec netuid)) by done;
    rewrite (foldl_frame _ (zero_root_weight netuid)) by (by intros ? []); st_frame;
    unfold get_net, remove_net, mutate_value; cbn [net_nums over setter];
    rewrite !lookup_delete_ne by congruence; (destruct (decide (m = netuid)) as [->|E]; [by rewrite lookup_delete_eq|]);
    by rewrite lookup_delete_ne by congruence.
Qed.

Lemma remove_member_spec h m : member h m s' =
  if decide (h ∈ (iter_subnet netuid (Keys s)).*2 /\ m = netuid) then None else member h m s.
Proof using.
  unfold remove_network; cbv zeta; case_bool_decide; st_frame;
    rewrite (foldl_frame _ (remove_net netuid)) by done;
    rewrite member_removed; st_frame;
    rewrite (foldl_frame _ (remove_bvec netuid)), (foldl_frame _ (remove_vec netuid)) by done;
    rewrite (foldl_frame _ (zero_root_weight netuid)) by (by intros ? []); st_frame; done.
Qed.

Lemma elem_of_neurons h : h ∈ (iter_subnet netuid (Keys s)).*2 <-> exists u, Keys s !! (netuid, u) = Some h.
Proof using.
  rewrite list_elem_of_fmap. split.
  - intros ([u h'] & -> & Hin). exists u. by apply elem_of_iter_subnet.
  - intros [u Hu]. exists (u, h). split; [done|]. by apply elem_of_iter_subnet.
Qed.

(** A removed subnet leaves no neuron behind, and the others as they were. *)
Lemma remove_network_ok : networks_ok s -> networks_ok s'.
Proof using.
  intros Hok m. destruct (Hok m) as [[Hk Hu Hm Hv Hb] Hnew]. split; [split|].
  - intros u. rewrite remove_keys, lookup_clear_prefix, remove_n. case_decide; [|apply Hk].
    split; [by intros []|lia].
  - intros u h. rewrite remove_keys, remove_uids, !lookup_clear_prefix. case_decide; [done|apply Hu].
  - intros h. rewrite remove_member_spec, remove_uids, lookup_clear_prefix. destruct (decide (m = netuid)) as [->|Hne].
    + rewrite bool_decide_false by (by intros []). case_decide as E; [done|]. rewrite Hm. apply bool_decide_false.
      intros [u Hx]. apply E. split; [|done]. apply elem_of_neurons. exists u. by apply Hu.
    + rewrite decide_False by (intros [_ ?]; done). apply Hm.
  - intros i Hi. rewrite remove_vec_spec, remove_n. destruct (decide (m = netuid)) as [->|Hne].
    + rewrite decide_True; [done|]. split; [|done]. unfold removed_vecs. destruct i; try discriminate; set_solver.
    + rewrite decide_False by (intros [_ ?]; done). by apply Hv.
  - intros i. rewrite remove_bvec_spec, remove_n. case_decide; [done|apply Hb].
  - rewrite remove_added, remove_n. case_decide; [done|]. rewrite lookup_delete_ne by done. apply Hnew.
Qed.
End Remove.

Lemma user_remove_inv coldkey netuid s s' : user_remove_network coldkey netuid s = Ok (tt, s') ->
  if_subnet_exist netuid s = true /\ get_subnet_owner netuid s = coldkey /\
  exists x ids evs, x = s <| SubnetIdentitiesV3 := ids |> <| events := evs |> /\
    s' = deposit_event (Event.NetworkRemoved netuid) (remove_network netuid x).
Proof using.
  intros H. unfold user_remove_network in H. apply bind_ok in H as (s0 & s0' & [= -> ->]%gets_ok & H). unfold id in *.
  apply bind_ok in H as ([] & s1 & [Hex [= ->]]%ensure_ok & H).
  apply bind_ok in H as ([] & s1 & [Hown%bool_decide_eq_true [= ->]]%ensure_ok & H).
  split; [done|]. split; [done|]. apply bind_ok in H as ([] & x & Hx & H).
  apply bind_ok in H as ([] & y & [= ->]%modify_ok & [= ->]%modify_ok).
  exists x. case_bool_decide.
  - apply bind_ok in Hx as ([] & s1 & [= ->]%modify_ok & [= ->]%modify_ok).
    by exists (delete netuid (SubnetIdentitiesV3 s)), (events s ++ [Event.SubnetIdentityRemoved netuid]).
  - apply ret_ok in Hx as [= ->]. exists (SubnetIdentitiesV3 s), (events s). split; [|done]. by destruct s.
Qed.

Lemma user_remove_started coldkey netuid s s' : user_remove_network coldkey netuid s = Ok (tt, s') ->
  FirstEmissionBlockNumber s' = FirstEmissionBlockNumber s.
Proof using.
  intros (_ & _ & x & ids & evs & Hx & ->)%user_remove_inv.
  assert (forall e y, FirstEmissionBlockNumber (deposit_event e y) = FirstEmissionBlockNumber y) as -> by done.
  rewrite remove_first_emission, Hx. done.
Qed.

Lemma start_call_refused origin netuid b s : ensure_subnet_owner origin netuid s = Ok tt ->
  NetworksAdded s !! netuid = Some true -> FirstEmissionBlockNumber s !! netuid = Some b ->
  do_start_call origin netuid s = Err (Module Error.FirstEmissionBlockNumberAlreadySet).
Proof using.
  intros Ho Ha Hx. unfold do_start_call, bind, gets, ensure, ext, id, if_subnet_exist. by rewrite Ha, Ho, Hx.
Qed.

Lemma opened_started netuid lock coldkey hotkey now s :
  FirstEmissionBlockNumber (opened netuid lock coldkey hotkey now s) = FirstEmissionBlockNumber s /\
  NetworksAdded (opened netuid lock coldkey hotkey now s) !! netuid = Some true.
Proof using.
  unfold opened. rewrite fund_added. split.
  - destruct (opening_frame netuid lock coldkey hotkey now s) as (_ & _ & _ & <-).
    generalize (opening netuid lock coldkey hotkey now s). intros y. unfold fund_network. cbv zeta.
    by destruct (0 <? sat_sub _ _), ((0 <? lock) && _).
  - unfold opening. st_frame. by rewrite init_added, lookup_insert_eq.
Qed.

Lemma register_started origin hotkey mechid identity s s' netuid :
  do_register_network origin hotkey mechid identity s = Ok (tt, s') -> get_next_netuid s = Some netuid ->
  FirstEmissionBlockNumber s' = FirstEmissionBlockNumber s /\ NetworksAdded s' !! netuid = Some true.
Proof using.
  intros H Hn. apply register_network_inv in H as (c & n & lock & s1 & _ & Hn' & Hpaid & _ & ids & evs & ->).
  rewrite Hn in Hn'. injection Hn' as <-.
  destruct (opened_started netuid lock c hotkey (get_current_block_as_u64 s) s1) as [H1 H2].
  generalize dependent (opened netuid lock c hotkey (get_current_block_as_u64 s) s1). intros y H1 H2. cbn. split; [|done].
  rewrite H1. destruct (lock_cost_state s) as [E|[v E]]; destruct Hpaid as [(_ & _ & ->)|(w & _ & _ & ->)]; by rewrite E.
Qed.

(** Removing a subnet does not forget that it was started. The subnet that gets
    the identifier next receives emission from its first block on, and its owner
    can never start it. *)
Theorem removed_subnet_stays_started owner netuid b s s1 origin hotkey mechid identity s2 origin' :
  user_remove_network owner netuid s = Ok (tt, s1) -> FirstEmissionBlockNumber s !! netuid = Some b ->
  get_next_netuid s1 = Some netuid -> do_register_network origin hotkey mechid identity s1 = Ok (tt, s2) ->
  ensure_subnet_owner origin' netuid s2 = Ok tt ->
  is_valid_subnet_for_emission netuid s2 = true /\
  do_start_call origin' netuid s2 = Err (Module Error.FirstEmissionBlockNumberAlreadySet).
Proof using.
  intros H Hb Hn Hr Ho. destruct (register_started _ _ _ _ _ _ _ Hr Hn) as [Hf Ha].
  rewrite <- (user_remove_started _ _ _ _ H), <- Hf in Hb. split; [|by eapply start_call_refused].
  unfold is_valid_subnet_for_emission. rewrite Hb. by apply bool_decide_true; eexists.
Qed.
End Lifecycle.
