(* ===== verification/Root.v ===== *)
(** * Root registration and the senate (src/pallets/subtensor/src/coinbase/root.rs)

    Proofs about the root network of [Network]: a registration takes a free slot
    or the one of least stake, and the senate takes a new member when it has
    room or the member stakes more than the least of its members. *)

From S2P Require Import Prelude Frame Fixed SharePool Storage Misc Uids Symbols Reserves Registration Identity.
From S2P Require Import RateLimiting Children Staking StakeWeights Emission Network Lifecycle.
From stdpp Require Import prelude gmap list fin_maps sorting.
From Stdlib Require Import ZArith Lia.
#[local] Open Scope Z_scope.
#[local] Open Scope monad_scope.

(** The documented behaviour of a membership pallet. *)
Class SenateLaws {FS : FrameSystem} (W : Type) {SE : Senate W} := {
  add_member_spec : forall (w w' : W) a, senate_add_member w a = Ok w' -> senate_members w' ≡ₚ a :: senate_members w;
  swap_member_spec : forall (w w' : W) a b, senate_swap_member w a b = Ok w' ->
    a :: senate_members w' ≡ₚ b :: senate_members w;
}.

Section Root.
Context {FS : FrameSystem} {Cfg : SubtensorConfig} {SI : StorageIter} {W : Type}.
Context {Env : SubtensorEnv W} {SW : SwapHandler W} {F : SubstrateFixed} {FT : FixedTranscendental}.
Context {SE : Senate W}.
Abbreviation St := (Storage W).
Implicit Types (s : St) (netuid uid : Z) (hotkey coldkey : AccountId).

Abbreviation root_stake h s := (get_stake_for_hotkey_on_subnet h 0 s).

(** ** The senate *)

Lemma last_least {A} (key : A -> Z) l x : last (sort_by_key (fun a => - key a) l) = Some x ->
  x ∈ l /\ forall y, y ∈ l -> key x <= key y.
Proof using.
  intros Hl. pose proof (sort_by_key_perm (fun a => - key a) l) as Hp.
  pose proof (sort_by_key_sorted (fun a => - key a) l) as Hs.
  apply last_Some in Hl as [k Hk]. rewrite Hk in Hp, Hs. split.
  - rewrite <- Hp. apply elem_of_app. right. by apply list_elem_of_singleton.
  - intros y. rewrite <- Hp, elem_of_app, list_elem_of_singleton. intros [Hy| ->]; [|lia].
    pose proof (StronglySorted_app_1_elem_of _ _ _ y x Hs Hy (list_elem_of_here _ _)) as H. cbn in H. lia.
Qed.

Lemma last_sorted_None {A} (key : A -> Z) l : last (sort_by_key key l) = None -> l = [].
Proof using.
  intros Hl%last_None. pose proof (sort_by_key_perm key l) as Hp. rewrite Hl in Hp. by apply Permutation_nil.
Qed.

Lemma senate_call_ok (r : W -> result DispatchError W) s s' : senate_call r s = Ok (tt, s') ->
  exists w, r (world s) = Ok w /\ s' = s <| world := w |>.
Proof using.
  unfold senate_call, bind, gets. destruct (r (world s)) as [w|]; [|done]. intros [= <-]. by exists w.
Qed.

Context {SL : SenateLaws W}.

(** What becomes of the senate when a hotkey asks to join. *)
Inductive senate_change hotkey s s' : Prop :=
  | SenateJoined :
      Z.of_nat (length (senate_members (world s))) <> senate_max_members ->
      senate_members (world s') ≡ₚ hotkey :: senate_members (world s) -> senate_change hotkey s s'
  | SenateReplaced (least : AccountId) :
      Z.of_nat (length (senate_members (world s))) = senate_max_members ->
      least ∈ senate_members (world s) ->
      (forall m, m ∈ senate_members (world s) -> root_stake least s <= root_stake m s) ->
      root_stake least s < root_stake hotkey s ->
      least :: senate_members (world s') ≡ₚ hotkey :: senate_members (world s) -> senate_change hotkey s s'
  | SenateKept :
      Z.of_nat (length (senate_members (world s))) = senate_max_members ->
      (forall m, m ∈ senate_members (world s) -> root_stake hotkey s <= root_stake m s) ->
      s' = s -> senate_change hotkey s s'.

Lemma join_senate_spec hotkey s r s' : join_senate_if_eligible hotkey s = Ok (r, s') ->
  r = None /\ is_senate_member hotkey s = false /\ is_Some (Uids s !! (0, hotkey)) /\
  (exists w, s' = s <| world := w |>) /\ senate_change hotkey s s'.
Proof using SL.
  intros H. unfold join_senate_if_eligible in H.
  apply bind_ok in H as (s0 & s0' & [= -> ->]%gets_ok & H). unfold id in *.
  apply bind_ok in H as ([] & s1 & [Hreg [= ->]]%ensure_ok & H). apply bool_decide_eq_true in Hreg.
  apply bind_ok in H as ([] & s1 & [Hnot%negb_true_iff [= ->]]%ensure_ok & H).
  cbv zeta in H. apply bind_ok in H as ([] & s1 & H & [= -> ->]%ret_ok).
  split; [done|]. split; [done|]. split; [done|].
  destruct (Z.eqb_spec (Z.of_nat (length (senate_members (world s)))) senate_max_members) as [Hfull|Hroom].
  - destruct (last (sort_by_key _ _)) as [l|] eqn:El.
    + apply last_least in El as [Hin Hleast]. destruct (Z.ltb_spec (root_stake l s) (root_stake hotkey s)) as [Hlt|Hge].
      * apply senate_call_ok in H as (w & Hw & ->). split; [by exists w|].
        apply (SenateReplaced _ _ _ l); try done. by apply swap_member_spec.
      * apply ret_ok in H as [= ->]. split; [by exists (world s); destruct s|].
        apply SenateKept; [done| |done]. intros m Hm. specialize (Hleast m Hm). lia.
    + apply last_sorted_None in El. apply ret_ok in H as [= ->]. split; [by exists (world s); destruct s|].
      apply SenateKept; [done| |done]. rewrite El. by intros m ?%elem_of_nil.
  - apply senate_call_ok in H as (w & Hw & ->). split; [by exists w|]. apply SenateJoined; [done|]. by apply add_member_spec.
Qed.

(** Adjusting the senate needs a hotkey registered on root that is not a member
    yet, and ends with the hotkey a member: it took a free seat, or the seat of
    a member of least stake, which was less than its own. The event never names
    the member that was replaced. *)
Theorem adjust_senate_seats origin hotkey s s' : do_adjust_senate origin hotkey s = Ok (tt, s') ->
  is_Some (Uids s !! (0, hotkey)) /\ is_senate_member hotkey s = false /\ is_senate_member hotkey s' = true /\
  senate_change hotkey s s' /\ last (events s') = Some (Event.SenateAdjusted None hotkey).
Proof using SL.
  intros H. unfold do_adjust_senate in H.
  apply bind_ok in H as (s0 & s0' & [= -> ->]%gets_ok & H). unfold id in *.
  apply bind_ok in H as ([] & s1 & [Hex [= ->]]%ensure_ok & H).
  apply bind_ok in H as (c & s1 & (a & _ & [= -> ->])%ext_ok & H).
  apply bind_ok in H as ([] & s1 & [Hreg [= ->]]%ensure_ok & H). apply bool_decide_eq_true in Hreg.
  apply bind_ok in H as ([] & s1 & [= ->]%modify_ok & H).
  apply bind_ok in H as (r & s1 & Hj & H). set (x := create_account_if_non_existent a hotkey s) in *.
  apply join_senate_spec in Hj as (-> & Hnot & _ & [w ->] & Hch).
  apply bind_ok in H as (s2 & s2' & [= -> ->]%gets_ok & H).
  rewrite bool_decide_true in H by done.
  apply bind_ok in H as ([] & s1 & [Hmem [= ->]]%ensure_ok & [= ->]%modify_ok).
  assert (world x = world s /\ (forall h, root_stake h x = root_stake h s)) as [Ew Es] by (unfold x; split; intros; by st_frame).
  split; [done|]. split; [unfold is_senate_member in *; by rewrite <- Ew|]. split; [done|]. split.
  - destruct Hch as [H1 H2|l H1 H2 H3 H4 H5|H1 H2 H3].
    + apply SenateJoined; by rewrite <- Ew.
    + rewrite Ew in *. apply (SenateReplaced _ _ _ l); try done; [intros m Hm; rewrite <- !Es; by apply H3|by rewrite <- !Es].
    + exfalso. rewrite H3 in Hmem. unfold id in Hmem. congruence.
  - cbn. by rewrite last_snoc.
Qed.

(** ** Registration on root *)

Lemma lowest_fold s l st0 u0 :
  let '(st, u) := foldl (lower_stake s) (st0, u0) l in
  st <= st0 /\ (forall v h, (v, h) ∈ l -> st <= root_stake h s) /\
  ((st, u) = (st0, u0) \/ exists h, (u, h) ∈ l /\ root_stake h s = st).
Proof using.
  revert st0 u0. induction l as [|[v h] l IH]; intros st0 u0; cbn [foldl lower_stake].
  { split_and!; [lia|by intros ?? ?%elem_of_nil|by left]. }
  destruct (Z.ltb_spec (root_stake h s) st0) as [Hlt|Hge].
  - specialize (IH (root_stake h s) v). destruct (foldl _ _ l) as [st u]. destruct IH as (H1 & H2 & H3).
    split_and!; [lia| |].
    + intros v' h' [[= -> ->]|Hin]%elem_of_cons; [done|by eapply H2].
    + right. destruct H3 as [[= -> ->]|(h' & Hin & E)]; [by exists h; split; [left|]|by exists h'; split; [right|]].
  - specialize (IH st0 u0). destruct (foldl _ _ l) as [st u]. destruct IH as (H1 & H2 & H3).
    split_and!; [done| |].
    + intros v' h' [[= -> ->]|Hin]%elem_of_cons; [lia|by eapply H2].
    + destruct H3 as [?|(h' & Hin & E)]; [by left|by right; exists h'; split; [right|]].
Qed.

(** The choice is a neuron of least stake, unless no stake is below the maximum. *)
Lemma lowest_root_stake_spec s st u : lowest_root_stake s = (st, u) ->
  (forall v h, Keys s !! (0, v) = Some h -> st <= root_stake h s) /\
  (st < U64_MAX -> exists h, Keys s !! (0, u) = Some h /\ root_stake h s = st).
Proof using.
  unfold lowest_root_stake. intros E. pose proof (lowest_fold s (iter_subnet 0 (Keys s)) U64_MAX 0) as H.
  rewrite E in H. destruct H as (H1 & H2 & H3). split.
  - intros v h Hk. apply (H2 v). by apply elem_of_iter_subnet.
  - intros Hlt. destruct H3 as [[= -> ->]|(h & Hin & Eh)]; [lia|]. exists h. by apply elem_of_iter_subnet in Hin.
Qed.

(** A successful registration on root, up to what does not touch the slots:
    the hotkey, which had none, takes a slot of [x]. *)
Lemma root_register_inv origin hotkey s s' : do_root_register origin hotkey s = Ok (tt, s') ->
  exists x y uid,
    (same_neurons x s /\ NetworksAdded x = NetworksAdded s) /\ (same_neurons s' y /\ NetworksAdded s' = NetworksAdded y) /\
    get_max_root_validators x = get_max_root_validators s /\ (forall h, root_stake h x = root_stake h s) /\
    is_Some (NetworksAdded x !! 0) /\ Uids x !! (0, hotkey) = None /\
    take_root_slot hotkey (get_current_block_as_u64 s) x = Ok (uid, y) /\ is_Some (Uids y !! (0, hotkey)).
Proof using SL.
  intros H. unfold do_root_register in H.
  apply bind_ok in H as (s0 & s0' & [= -> ->]%gets_ok & H). unfold id in *. cbv zeta in H.
  apply bind_ok in H as ([] & s1 & [Hex [= ->]]%ensure_ok & H). unfold if_subnet_exist in Hex.
  apply bind_ok in H as (c & s1 & (a & _ & [= -> ->])%ext_ok & H).
  apply bind_ok in H as ([] & s1 & [_ [= ->]]%ensure_ok & H).
  apply bind_ok in H as ([] & s1 & [_ [= ->]]%ensure_ok & H).
  apply bind_ok in H as ([] & s1 & [Hnew%negb_true_iff%bool_decide_eq_false [= ->]]%ensure_ok & H).
  apply bind_ok in H as ([] & s1 & [= ->]%modify_ok & H).
  apply bind_ok in H as (uid & y & Hplace & H).
  apply bind_ok in H as (r & y' & Hj & H). apply join_senate_spec in Hj as (_ & _ & Hu & [w ->] & _).
  apply bind_ok in H as ([] & z & [= ->]%modify_ok & H).
  apply bind_ok in H as ([] & z & [= ->]%modify_ok & H).
  apply bind_ok in H as ([] & z & [= ->]%modify_ok & [= ->]%modify_ok).
  eexists _, y, uid. split; [split|split; [split|split_and!]]; [..|exact Hplace|exact Hu].
  - apply same_slots_neurons, slots_create_account.
  - by st_frame.
  - etransitivity; [apply same_slots_neurons, slots_event|].
    do 2 (etransitivity; [by apply same_slots_neurons, slots_mutate_net|]). by destruct (negb _).
  - by destruct (negb _).
  - by st_frame.
  - intros h. by st_frame.
  - st_frame. by destruct (NetworksAdded s !! 0); [eexists|].
  - st_frame. by apply eq_None_not_Some.
Qed.

(** The slot it takes. *)
Definition took_root_slot hotkey uid (x y : St) : Prop :=
  Uids y !! (0, hotkey) = Some uid /\ Keys y = <[(0, uid) := hotkey]> (Keys x) /\
  (get_num_root_validators x < get_max_root_validators x -> uid = get_num_root_validators x) /\
  (get_max_root_validators x <= get_num_root_validators x -> exists old, Keys x !! (0, uid) = Some old /\
     root_stake old x < root_stake hotkey x /\
     forall u h, Keys x !! (0, u) = Some h -> root_stake old x <= root_stake h x).

Lemma take_root_slot_spec hotkey b x uid y : take_root_slot hotkey b x = Ok (uid, y) ->
  networks_ok x -> is_Some (NetworksAdded x !! 0) -> Uids x !! (0, hotkey) = None -> is_Some (Uids y !! (0, hotkey)) ->
  get_max_root_validators x <= U16_MAX -> (forall h, root_stake h x <= U64_MAX) ->
  networks_ok y /\ took_root_slot hotkey uid x y.
Proof using.
  intros H Hx Hadd Hfree [u Hu] Hmax Hst. unfold take_root_slot in H.
  apply bind_ok in H as (? & ? & [= -> ->]%gets_ok & H). unfold id in *. cbv zeta in H. destruct (Hx 0) as [Hx0 _].
  destruct (Z.ltb_spec (get_num_root_validators x) (get_max_root_validators x)) as [Hroom|Hfull].
  - apply bind_ok in H as ([] & y' & [= ->]%modify_ok & [= -> ->]%ret_ok). split.
    + apply append_networks_ok; [done..|unfold get_num_root_validators in *; lia].
    + split_and!; [by apply lookup_insert_eq|done..|lia].
  - destruct (lowest_root_stake x) as [st uid'] eqn:El. apply lowest_root_stake_spec in El as [Hleast Hat].
    apply bind_ok in H as (old & ? & (o & _ & [= -> ->])%lift_ok & H).
    apply bind_ok in H as ([] & ? & [Hlt%Z.ltb_lt [= ->]]%ensure_ok & H).
    apply bind_ok in H as ([] & ? & [= ->]%modify_ok & [= -> ->]%ret_ok).
    destruct (decide (SubnetOwnerHotkey x !! 0 = Some (hotkey_at 0 uid' x))) as [Ho|Ho].
    { rewrite replace_owner in Hu by done. congruence. }
    destruct (Hat ltac:(specialize (Hst hotkey); lia)) as (h & Hh & Eh). split.
    + apply replace_networks_ok; [done|done|]. apply (uo_keys _ _ Hx0). by eexists.
    + split_and!; [by rewrite replace_uids, lookup_insert_eq|by rewrite replace_keys|lia|].
      intros _. exists h. rewrite Eh. split_and!; [done..|]. intros u' h' Hk. by eapply Hleast.
Qed.

Lemma root_register_slot origin hotkey s s' :
  do_root_register origin hotkey s = Ok (tt, s') -> networks_ok s -> get_max_root_validators s <= U16_MAX ->
  (forall h, root_stake h s <= U64_MAX) ->
  networks_ok s' /\ exists uid x y, took_root_slot hotkey uid x y /\ same_neurons x s /\ same_neurons s' y /\
    get_max_root_validators x = get_max_root_validators s /\ (forall h, root_stake h x = root_stake h s).
Proof using SL.
  intros H Hok Hmax Hst. apply root_register_inv in H as (x & y & uid & [Hx Hxa] & [Hy Hya] & Em & Es & Ha & Hf & Ht & Hu).
  destruct (take_root_slot_spec _ _ _ _ _ Ht) as [H1 H2]; try done.
  { eapply networks_ok_same; [by symmetry|done|done]. }
  { by rewrite Em. }
  { intros h. by rewrite Es. }
  split; [by eapply (networks_ok_same y)|]. by exists uid, x, y.
Qed.

(** A registration on root gives the hotkey a slot there and leaves the slots of
    all subnets consistent. As long as the root network has room the slot is a
    new one; then it is that of a neuron of least root stake, which is less than
    the stake of the newcomer. *)
Theorem root_register_takes_least origin hotkey s s' :
  do_root_register origin hotkey s = Ok (tt, s') -> networks_ok s -> get_max_root_validators s <= U16_MAX ->
  (forall h, root_stake h s <= U64_MAX) ->
  networks_ok s' /\ exists uid, Uids s' !! (0, hotkey) = Some uid /\ Keys s' = <[(0, uid) := hotkey]> (Keys s) /\
  (get_num_root_validators s < get_max_root_validators s -> uid = get_num_root_validators s) /\
  (get_max_root_validators s <= get_num_root_validators s -> exists old, Keys s !! (0, uid) = Some old /\
     root_stake old s < root_stake hotkey s /\
     forall u h, Keys s !! (0, u) = Some h -> root_stake old s <= root_stake h s).
Proof using SL.
  intros H Hok Hmax Hst. destruct (root_register_slot _ _ _ _ H Hok Hmax Hst) as (H1 & uid & x & y & Hslot & Hx & Hy & Em & Es).
  split; [done|]. exists uid. unfold took_root_slot in Hslot. setoid_rewrite Es in Hslot.
  rewrite Em, <- (sn_uids _ _ Hy), <- (sn_keys _ _ Hy), (sn_keys _ _ Hx) in Hslot.
  assert (get_num_root_validators x = get_num_root_validators s) as En by (apply (sn_n _ _ Hx)). by rewrite En in Hslot.
Qed.
End Root.
