(* ===== verification/KeySwap.v ===== *)
(** * Swapping keys (src/pallets/subtensor/src/swap/)

    swap_hotkey.rs moves everything that is stored under a hotkey to a new
    hotkey, on one subnet or on all of them; swap_coldkey.rs does the same for a
    coldkey. The weights the calls report are not modelled. *)

From S2P Require Import Prelude Frame Fixed SharePool Storage Misc Uids Reserves Registration RateLimiting Children.
From S2P Require Import Staking StakeWeights Emission Network Lifecycle.
From stdpp Require Import prelude gmap list fin_maps.
From Stdlib Require Import ZArith Lia.
#[local] Open Scope Z_scope.
#[local] Open Scope monad_scope.

(** [T::Currency::withdraw] with [Precision::Exact], [Preservation::Expendable]
    and [Fortitude::Force]. *)
Class ForcedWithdraw {FS : FrameSystem} (W : Type) := {
  withdraw_exact : W -> AccountId -> Z -> result DispatchError (Z * W);
}.

Section KeySwap.
Context {FS : FrameSystem} {Cfg : SubtensorConfig} {SI : StorageIter} {W : Type}.
Context {Env : SubtensorEnv W} {SW : SwapHandler W} {F : SubstrateFixed} {SE : Senate W} {FW : ForcedWithdraw W}.
Abbreviation St := (Storage W).
Implicit Types (s : St) (netuid uid : Z) (hotkey coldkey : AccountId).

(** ** Hotkeys *)

(** [Alpha::iter_prefix((hotkey,))]: the shares of the hotkey's stakers, by
    coldkey and subnet. *)
Definition alpha_entries (hotkey : AccountId) (s : St) : list (AccountId * Z * Z) :=
  omap (M := list) (fun '((h, netuid, coldkey), alpha) =>
      if bool_decide (h = hotkey) then Some (coldkey, netuid, alpha) else None) (iter_prefix (alpha_table s)).

(** [if let Ok(v) = Item::try_get(netuid, old) { remove; insert(netuid, new, v) }] *)
Definition move_entry {V} (netuid : Z) (old new : AccountId) (m : gmap (Z * AccountId) V) : gmap (Z * AccountId) V :=
  match m !! (netuid, old) with
  | Some v => <[(netuid, new) := v]> (delete (netuid, old) m)
  | None => m
  end.

(** The number under the old hotkey is added to the one under the new. *)
Definition merge_net_key (i : NetKeyNum.NetKeyNum) (plus : Z -> Z -> Z) (netuid : Z) (old new : AccountId) (s : St) : St :=
  let alpha := get_net_key i netuid old s in
  let s := remove_net_key i netuid old s in
  put_net_key i netuid new (plus (get_net_key i netuid new s) alpha) s.

(** Step 3 of [perform_hotkey_swap_on_one_subnet]: the neuron. *)
Definition swap_neuron (netuid : Z) (old_hotkey new_hotkey : AccountId) (s : St) : St :=
  let is_network_member := default false (member old_hotkey netuid s) in
  let s := remove_member old_hotkey netuid s in
  let s := insert_member new_hotkey netuid is_network_member s in
  if negb is_network_member then s
  else
    let s := match Uids s !! (netuid, old_hotkey) with
             | Some old_uid =>
                 s <| Uids ::= fun m => <[(netuid, new_hotkey) := old_uid]> (delete (netuid, old_hotkey) m) |>
                   <| Keys ::= <[(netuid, old_uid) := new_hotkey]> |>
             | None => s
             end in
    let s := s <| Prometheus ::= move_entry netuid old_hotkey new_hotkey |> in
    let s := s <| Axons ::= move_entry netuid old_hotkey new_hotkey |> in
    let s := s <| WeightCommits ::= move_entry netuid old_hotkey new_hotkey |> in
    let s := match LoadedEmission s !! netuid with
             | Some old_loaded_emission =>
                 s <| LoadedEmission ::= <[netuid := map (fun '(hk, server, validator) =>
                     (if decide (hk = old_hotkey) then new_hotkey else hk, server, validator)) old_loaded_emission]> |>
             | None => s
             end in
    s <| NeuronCertificates ::= move_entry netuid old_hotkey new_hotkey |>.

(** Every entry for the old hotkey becomes one for the new. *)
Definition rename (old new : AccountId) (l : list (Z * AccountId)) : list (Z * AccountId) :=
  map (fun '(proportion, k) => (proportion, if decide (k = old) then new else k)) l.

(** Steps 4 and 5: the hotkey as a parent and as a child. *)
Definition swap_family (netuid : Z) (old_hotkey new_hotkey : AccountId) (s : St) : St :=
  let my_children := get_children old_hotkey netuid s in
  let s := s <| ChildKeys ::= fun m => <[(new_hotkey, netuid) := my_children]> (delete (old_hotkey, netuid) m) |> in
  let s := foldl (fun s '(_, child_key_i) =>
      s <| ParentKeys ::= fun m => <[(child_key_i, netuid) :=
        rename old_hotkey new_hotkey (default [] (m !! (child_key_i, netuid)))]> m |>) s my_children in
  let parents := get_parents old_hotkey netuid s in
  let s := s <| ParentKeys ::= fun m => <[(new_hotkey, netuid) := parents]> (delete (old_hotkey, netuid) m) |> in
  foldl (fun s '(_, parent_key_i) =>
      s <| ChildKeys ::= fun m => <[(parent_key_i, netuid) :=
        rename old_hotkey new_hotkey (default [] (m !! (parent_key_i, netuid)))]> m |>) s parents.

(** The first entry for the old hotkey is removed and one with its proportion
    appended for the new. *)
Definition replace_child (old new : AccountId) (children : list (Z * AccountId)) : list (Z * AccountId) :=
  match list_find (fun p => p.2 = old) children with
  | Some (idx, entry) => delete idx children ++ [(entry.1, new)]
  | None => children
  end.

(** Step 6: pending child keys. *)
Definition swap_pending (netuid : Z) (old_hotkey new_hotkey : AccountId) (s : St) : St :=
  let pending := default ∅ (PendingChildKeys s !! netuid) in
  let s := match pending !! old_hotkey with
           | Some entry =>
               s <| PendingChildKeys ::= <[netuid := <[new_hotkey := entry]> (delete old_hotkey pending)]> |>
           | None => s
           end in
  foldl (fun s '(hotkey, (children, cool_down_block)) =>
      if bool_decide (old_hotkey ∈ children.*2)
      then s <| PendingChildKeys ::= fun m =>
             <[netuid := <[hotkey := (replace_child old_hotkey new_hotkey children, cool_down_block)]>
                           (delete hotkey (default ∅ (m !! netuid)))]> m |>
      else s)
    s (iter_prefix (default ∅ (PendingChildKeys s !! netuid))).

(** Step 9: one staker's share. *)
Definition swap_alpha (netuid : Z) (old_hotkey new_hotkey : AccountId) (s : St) (entry : AccountId * Z * Z) : St :=
  let '(coldkey, netuid_alpha, alpha) := entry in
  if netuid =? netuid_alpha then
    let new_alpha := default 0 (alpha_shares new_hotkey netuid s !! coldkey) in
    let s := put_alpha_shares new_hotkey netuid (delete coldkey (alpha_shares new_hotkey netuid s)) s in
    let s := put_alpha_shares old_hotkey netuid (delete coldkey (alpha_shares old_hotkey netuid s)) s in
    let s := put_alpha_shares new_hotkey netuid
      (<[coldkey := saturating_add U64F64 alpha new_alpha]> (alpha_shares new_hotkey netuid s)) s in
    let staking_hotkeys := get_list KeyList.StakingHotkeys coldkey s in
    if bool_decide (old_hotkey ∈ staking_hotkeys) && negb (bool_decide (new_hotkey ∈ staking_hotkeys))
    then put_list KeyList.StakingHotkeys coldkey (staking_hotkeys ++ [new_hotkey]) s else s
  else s.

Definition perform_hotkey_swap_on_one_subnet (old_hotkey new_hotkey : AccountId) (netuid : Z) (s : St) : St :=
  let plus := sat_add U64_MAX in
  let s := merge_net_key NetKeyNum.TotalHotkeyAlpha plus netuid old_hotkey new_hotkey s in
  let s := merge_net_key NetKeyNum.TotalHotkeyShares (saturating_add U64F64) netuid old_hotkey new_hotkey s in
  let s := swap_neuron netuid old_hotkey new_hotkey s in
  let s := swap_family netuid old_hotkey new_hotkey s in
  let s := swap_pending netuid old_hotkey new_hotkey s in
  let s := if bool_decide (SubnetOwnerHotkey s !! netuid = Some old_hotkey)
           then s <| SubnetOwnerHotkey ::= <[netuid := new_hotkey]> |> else s in
  let s := merge_net_key NetKeyNum.TotalHotkeyAlphaLastEpoch plus netuid old_hotkey new_hotkey s in
  let s := merge_net_key NetKeyNum.AlphaDividendsPerSubnet plus netuid old_hotkey new_hotkey s in
  let s := merge_net_key NetKeyNum.TaoDividendsPerSubnet plus netuid old_hotkey new_hotkey s in
  foldl (swap_alpha netuid old_hotkey new_hotkey) s (alpha_entries old_hotkey s).

(** Step 11 of [perform_hotkey_swap_on_all_subnets]. *)
Definition swap_staking_hotkey (old_hotkey new_hotkey : AccountId) (s : St) (entry : AccountId * Z * Z) : St :=
  let coldkey := entry.1.1 in
  let staking_hotkeys := get_list KeyList.StakingHotkeys coldkey s in
  if bool_decide (old_hotkey ∈ staking_hotkeys) then
    let staking_hotkeys := filter (fun hk => hk <> old_hotkey /\ hk <> new_hotkey) staking_hotkeys in
    put_list KeyList.StakingHotkeys coldkey
      (if bool_decide (new_hotkey ∈ staking_hotkeys) then staking_hotkeys else staking_hotkeys ++ [new_hotkey]) s
  else s.

Definition swap_senate_member (old_hotkey new_hotkey : AccountId) : Pm W unit :=
  let* s := gets id in
  if is_senate_member old_hotkey s then
    let* w := ext (senate_swap_member (world s) old_hotkey new_hotkey) in
    modify (fun s => s <| world := w |>)
  else ret tt.

Definition remove_key (i : KeyNum.KeyNum) (a : AccountId) (s : St) : St := s <| key_nums ::= delete (i, a) |>.

Definition swap_owned (old_hotkey new_hotkey coldkey : AccountId) (s : St) : St :=
  let s := s <| Owner ::= fun m => <[new_hotkey := coldkey]> (delete old_hotkey m) |> in
  let hotkeys := get_list KeyList.OwnedHotkeys coldkey s in
  let hotkeys := if bool_decide (new_hotkey ∈ hotkeys) then hotkeys else hotkeys ++ [new_hotkey] in
  put_list KeyList.OwnedHotkeys coldkey (filter (fun hk => hk <> old_hotkey) hotkeys) s.

Definition perform_hotkey_swap_on_all_subnets (old_hotkey new_hotkey coldkey : AccountId) : Pm W unit :=
  let* old_alpha_values := gets (alpha_entries old_hotkey) in
  modify (swap_owned old_hotkey new_hotkey coldkey) ;;
  modify (fun s => foldl (fun s netuid => perform_hotkey_swap_on_one_subnet old_hotkey new_hotkey netuid s) s
    (get_all_subnet_netuids s)) ;;
  modify (remove_key KeyNum.LastTxBlock old_hotkey) ;;
  modify (remove_key KeyNum.LastTxBlockDelegateTake old_hotkey) ;;
  modify (remove_key KeyNum.LastTxBlockChildKeyTake old_hotkey) ;;
  swap_senate_member old_hotkey new_hotkey ;;
  modify (fun s =>
    if hotkey_is_delegate old_hotkey s then
      let old_delegate_take := get_key KeyNum.Delegates old_hotkey s in
      put_key KeyNum.Delegates new_hotkey old_delegate_take (remove_key KeyNum.Delegates old_hotkey s)
    else s) ;;
  modify (fun s => foldl (swap_staking_hotkey old_hotkey new_hotkey) s old_alpha_values).

Definition swap_hotkey_on_subnet (coldkey old_hotkey new_hotkey : AccountId) (netuid : Z) : Pm W unit :=
  let* s := gets id in
  let block := get_current_block_as_u64 s in
  let last_hotkey_swap_block := get_net_key NetKeyNum.LastHotkeySwapOnNetuid netuid coldkey s in
  check (sat_add U64_MAX last_hotkey_swap_block HotkeySwapOnSubnetInterval <? block)
    Error.HotKeySwapOnSubnetIntervalNotPassed ;;
  check (negb (is_hotkey_registered_on_specific_network new_hotkey netuid s)) Error.HotKeyAlreadyRegisteredInSubNet ;;
  let swap_cost := KeySwapOnSubnetCost in
  check (can_remove_balance_from_coldkey_account coldkey swap_cost s) Error.NotEnoughBalanceToPaySwapHotKey ;;
  let* actual_burn_amount := remove_balance_from_coldkey_account coldkey swap_cost in
  modify (burn_tokens actual_burn_amount) ;;
  modify (fun s => s <| Owner ::= <[new_hotkey := coldkey]> |>) ;;
  modify (push_unique KeyList.OwnedHotkeys coldkey new_hotkey) ;;
  modify (perform_hotkey_swap_on_one_subnet old_hotkey new_hotkey netuid) ;;
  modify (set_last_tx_block coldkey block) ;;
  modify (put_net_key NetKeyNum.LastHotkeySwapOnNetuid netuid coldkey block) ;;
  modify (deposit_event (Event.HotkeySwappedOnSubnet coldkey old_hotkey new_hotkey netuid)).

Definition get_key_swap_cost : Z := KeySwapCost.

(** [Item::insert(new, Item::get(old))] *)
Definition copy_key (i : KeyNum.KeyNum) (old new : AccountId) (s : St) : St := put_key i new (get_key i old s) s.

Definition do_swap_hotkey (origin : Origin) (old_hotkey new_hotkey : AccountId) (netuid : option Z) : Pm W unit :=
  let* coldkey := ext (ensure_signed origin) in
  let* s := gets id in
  check (coldkey_owns_hotkey coldkey old_hotkey s) Error.NonAssociatedColdKey ;;
  check (negb (bool_decide (old_hotkey = new_hotkey))) Error.NewHotKeyIsSameWithOld ;;
  let block := get_current_block_as_u64 s in
  check (negb (exceeds_tx_rate_limit (get_last_tx_block coldkey s) block s)) Error.HotKeySetTxRateLimitExceeded ;;
  check (negb (is_hotkey_registered_on_any_network new_hotkey s)) Error.HotKeyAlreadyRegisteredInSubNet ;;
  modify (copy_key KeyNum.LastTxBlock old_hotkey new_hotkey) ;;
  modify (copy_key KeyNum.LastTxBlockDelegateTake old_hotkey new_hotkey) ;;
  modify (copy_key KeyNum.LastTxBlockChildKeyTake old_hotkey new_hotkey) ;;
  match netuid with
  | Some netuid => swap_hotkey_on_subnet coldkey old_hotkey new_hotkey netuid
  | None =>
      let swap_cost := get_key_swap_cost in
      let* s := gets id in
      check (can_remove_balance_from_coldkey_account coldkey swap_cost s) Error.NotEnoughBalanceToPaySwapHotKey ;;
      let* actual_burn_amount := remove_balance_from_coldkey_account coldkey swap_cost in
      modify (burn_tokens actual_burn_amount) ;;
      perform_hotkey_swap_on_all_subnets old_hotkey new_hotkey coldkey ;;
      modify (set_last_tx_block coldkey block) ;;
      modify (deposit_event (Event.HotkeySwapped coldkey old_hotkey new_hotkey))
  end.

(** ** Coldkeys *)

(** The caller goes on after an error of this function, so that it returns the
    storage with what was written before the error. *)
Definition kill_coldkey_account (coldkey : AccountId) (amount : Z) (s : St) : result (error Error.Error) Z * St :=
  if amount =? 0 then (Ok 0, s)
  else
    match withdraw_exact (world s) coldkey amount with
    | Err _ => (Err (Module Error.BalanceWithdrawalError), s)
    | Ok (credit, w) =>
        let s := s <| world := w |> in
        if credit =? 0 then (Err (Module Error.ZeroBalanceAfterWithdrawn), s) else (Ok credit, s)
    end.

Definition swap_subnet_owner (old_coldkey new_coldkey : AccountId) (s : St) (netuid : Z) : St :=
  if bool_decide (get_subnet_owner netuid s = old_coldkey)
  then s <| SubnetOwner ::= <[netuid := new_coldkey]> |> else s.

(** The share of the old coldkey is added to that of the new one. *)
Definition swap_share (hotkey old_coldkey new_coldkey : AccountId) (s : St) (netuid : Z) : St :=
  let old_alpha := default 0 (alpha_shares hotkey netuid s !! old_coldkey) in
  let new_alpha := default 0 (alpha_shares hotkey netuid s !! new_coldkey) in
  put_alpha_shares hotkey netuid
    (delete old_coldkey (<[new_coldkey := saturating_add U64F64 new_alpha old_alpha]> (alpha_shares hotkey netuid s))) s.

Definition merge_lists (i : KeyList.KeyList) (old_coldkey new_coldkey : AccountId) (s : St) : St :=
  let merged := foldl (fun l hotkey => if bool_decide (hotkey ∈ l) then l else l ++ [hotkey])
    (get_list i new_coldkey s) (get_list i old_coldkey s) in
  put_list i new_coldkey merged (s <| key_lists ::= delete (i, old_coldkey) |>).

Definition perform_swap_coldkey (old_coldkey new_coldkey : AccountId) (s : St) : result (error Error.Error) unit * St :=
  let s := foldl (swap_subnet_owner old_coldkey new_coldkey) s (get_all_subnet_netuids s) in
  let s := foldl (fun s hotkey => foldl (swap_share hotkey old_coldkey new_coldkey) s (get_all_subnet_netuids s))
    s (get_list KeyList.StakingHotkeys old_coldkey s) in
  let s := merge_lists KeyList.StakingHotkeys old_coldkey new_coldkey s in
  let old_owned_hotkeys := get_list KeyList.OwnedHotkeys old_coldkey s in
  let s := foldl (fun s owned_hotkey => s <| Owner ::= <[owned_hotkey := new_coldkey]> |>) s old_owned_hotkeys in
  let s := merge_lists KeyList.OwnedHotkeys old_coldkey new_coldkey s in
  let remaining_balance := get_coldkey_balance old_coldkey s in
  if 0 <? remaining_balance then
    match kill_coldkey_account old_coldkey remaining_balance s with
    | (Ok _, s) => (Ok tt, add_balance_to_coldkey_account new_coldkey remaining_balance s)
    | (Err e, s) => (Err e, s)
    end
  else (Ok tt, s).

Definition do_swap_coldkey (old_coldkey new_coldkey : AccountId) (swap_cost : Z) : Pm W unit :=
  let* s := gets id in
  check (bool_decide (get_list KeyList.StakingHotkeys new_coldkey s = [])) Error.ColdKeyAlreadyAssociated ;;
  check (negb (hotkey_account_exists new_coldkey s)) Error.NewColdKeyIsHotkey ;;
  modify (fun s =>
    match IdentitiesV2 s !! old_coldkey with
    | Some identity => s <| IdentitiesV2 ::= fun m => <[new_coldkey := identity]> (delete old_coldkey m) |>
    | None => s
    end) ;;
  let* s := gets id in
  check (can_remove_balance_from_coldkey_account old_coldkey swap_cost s) Error.NotEnoughBalanceToPaySwapColdKey ;;
  let* actual_burn_amount := remove_balance_from_coldkey_account old_coldkey swap_cost in
  modify (burn_tokens actual_burn_amount) ;;
  modify (fun s => (perform_swap_coldkey old_coldkey new_coldkey s).2) ;;
  modify (fun s => set_last_tx_block new_coldkey (get_current_block_as_u64 s) s) ;;
  modify (fun s => s <| ColdkeySwapScheduled ::= delete old_coldkey |>) ;;
  modify (deposit_event (Event.ColdkeySwapped old_coldkey new_coldkey swap_cost)).
End KeySwap.
