(* ===== verification/SwapSlots.v ===== *)
(** * What key swaps preserve

    A hotkey swap renames the hotkey in the slots of the subnets it covers and
    carries the stake of every staker over to the new hotkey's pool; it does not
    ask who owned the new hotkey before. A coldkey swap moves the stake of one
    coldkey to another and changes nobody else's. *)

From S2P Require Import Prelude Frame Fixed SharePool Storage Misc Uids Reserves Registration RateLimiting Children.
From S2P Require Import Staking StakeWeights Emission Network Lifecycle KeySwap.
From stdpp Require Import prelude gmap list fin_maps.
From Stdlib Require Import ZArith Lia.
#[local] Open Scope Z_scope.
#[local] Open Scope monad_scope.

Section SwapSlots.
Context {FS : FrameSystem} {Cfg : SubtensorConfig} {SI : StorageIter} {W : Type}.
Context {Env : SubtensorEnv W} {SW : SwapHandler W} {F : SubstrateFixed} {SE : Senate W} {FW : ForcedWithdraw W}.
Abbreviation St := (Storage W).
Implicit Types (s : St) (netuid uid : Z) (hotkey coldkey : AccountId).

(** ** What each step leaves alone *)

Section Frames.
Context {A : Type} (g : St -> A).

Lemma swap_family_frame n old new s :
  (forall f x, g (x <| ChildKeys ::= f |>) = g x) -> (forall f x, g (x <| ParentKeys ::= f |>) = g x) ->
  g (swap_family n old new s) = g s.
Proof using.
  intros H1 H2. unfold swap_family. cbv zeta.
  rewrite (foldl_frame g) by (by intros ? []). rewrite H2, (foldl_frame g) by (by intros ? []). apply H1.
Qed.

Lemma swap_pending_frame n old new s :
  (forall f x, g (x <| PendingChildKeys ::= f |>) = g x) -> g (swap_pending n old new s) = g s.
Proof using.
  intros H. unfold swap_pending. cbv zeta. rewrite (foldl_frame g) by (intros x (h & l & b); by case_bool_decide).
  by destruct (_ !! old).
Qed.

Lemma merge_frame i plus n old new s : (forall f x, g (x <| net_key_nums ::= f |>) = g x) ->
  g (merge_net_key i plus n old new s) = g s.
Proof using. intros H. unfold merge_net_key, put_net_key, remove_net_key. cbv zeta. by rewrite !H. Qed.

Lemma swap_alpha_frame n old new s l : (forall f x, g (x <| Alpha ::= f |>) = g x) ->
  (forall i c l x, g (put_list i c l x) = g x) -> g (foldl (swap_alpha n old new) s l) = g s.
Proof using.
  intros H1 H2. apply (foldl_frame g). intros x ((c & m) & a). unfold swap_alpha, put_alpha_shares. cbv zeta.
  destruct (n =? m); [|done]. destruct (_ && _); by rewrite ?H2, !H1.
Qed.

Lemma swap_neuron_frame n old new s : (forall f x, g (x <| IsNetworkMember ::= f |>) = g x) ->
  (forall f x, g (x <| Uids ::= f |>) = g x) -> (forall f x, g (x <| Keys ::= f |>) = g x) ->
  (forall f x, g (x <| Prometheus ::= f |>) = g x) -> (forall f x, g (x <| Axons ::= f |>) = g x) ->
  (forall f x, g (x <| WeightCommits ::= f |>) = g x) -> (forall f x, g (x <| LoadedEmission ::= f |>) = g x) ->
  (forall f x, g (x <| NeuronCertificates ::= f |>) = g x) -> g (swap_neuron n old new s) = g s.
Proof using.
  intros H1 H2 H3 H4 H5 H6 H7 H8. unfold swap_neuron, remove_member, insert_member. cbv zeta.
  destruct (negb _); [by rewrite !H1|]. rewrite H8. destruct (LoadedEmission _ !! _); rewrite ?H7, H6, H5, H4;
    destruct (Uids _ !! _); by rewrite ?H3, ?H2, !H1.
Qed.
End Frames.

(** ** Slots *)

(** The uid that a hotkey swap renames. *)
Definition swapped_uid (n : Z) (old : AccountId) (s : St) : option Z :=
  if default false (member old n s) then Uids s !! (n, old) else None.

Lemma swap_neuron_keys n old new s : Keys (swap_neuron n old new s) =
  match swapped_uid n old s with Some u => <[(n, u) := new]> (Keys s) | None => Keys s end.
Proof using.
  unfold swap_neuron, swapped_uid. cbv zeta. destruct (default false (member old n s)); [|done]. cbn [negb].
  change (Uids (insert_member new n true (remove_member old n s))) with (Uids s).
  destruct (LoadedEmission _ !! _); st_frame; by destruct (Uids s !! (n, old)).
Qed.

Lemma swap_neuron_uids n old new s : Uids (swap_neuron n old new s) =
  match swapped_uid n old s with Some u => <[(n, new) := u]> (delete (n, old) (Uids s)) | None => Uids s end.
Proof using.
  unfold swap_neuron, swapped_uid. cbv zeta. destruct (default false (member old n s)); [|done]. cbn [negb].
  change (Uids (insert_member new n true (remove_member old n s))) with (Uids s).
  destruct (LoadedEmission _ !! _); st_frame; by destruct (Uids s !! (n, old)).
Qed.

Lemma swap_neuron_member n old new s h m : member h m (swap_neuron n old new s) =
  if decide (new = h /\ n = m) then Some (default false (member old n s))
  else if decide (old = h /\ n = m) then None else member h m s.
Proof using.
  unfold swap_neuron. cbv zeta. transitivity (member h m (insert_member new n (default false (member old n s)) (remove_member old n s))).
  - destruct (negb _); [done|]. destruct (LoadedEmission _ !! _); st_frame; destruct (Uids _ !! _); done.
  - by rewrite member_insert, member_remove.
Qed.

Definition before_neuron (old new : AccountId) (n : Z) (s : St) : St :=
  merge_net_key NetKeyNum.TotalHotkeyShares (saturating_add U64F64) n old new
    (merge_net_key NetKeyNum.TotalHotkeyAlpha (sat_add U64_MAX) n old new s).

(** Around the neuron, the swap on a subnet writes other items only. *)
Lemma swap_one_frame {A} (g : St -> A) old new n s :
  (forall f x, g (x <| ChildKeys ::= f |>) = g x) -> (forall f x, g (x <| ParentKeys ::= f |>) = g x) ->
  (forall f x, g (x <| PendingChildKeys ::= f |>) = g x) -> (forall f x, g (x <| net_key_nums ::= f |>) = g x) ->
  (forall f x, g (x <| Alpha ::= f |>) = g x) -> (forall i c l x, g (put_list i c l x) = g x) ->
  (forall f x, g (x <| SubnetOwnerHotkey ::= f |>) = g x) ->
  g (perform_hotkey_swap_on_one_subnet old new n s) = g (swap_neuron n old new (before_neuron old new n s)).
Proof using.
  intros H1 H2 H3 H4 H5 H6 H7. unfold perform_hotkey_swap_on_one_subnet. cbv zeta.
  rewrite (swap_alpha_frame g), !(merge_frame g) by done. fold (before_neuron old new n s).
  case_bool_decide; rewrite ?H7; by rewrite (swap_pending_frame g), (swap_family_frame g) by done.
Qed.

Lemma before_frame {A} (g : St -> A) old new n s : (forall f x, g (x <| net_key_nums ::= f |>) = g x) ->
  g (before_neuron old new n s) = g s.
Proof using. intros H. unfold before_neuron. by rewrite !(merge_frame g). Qed.

Definition rename_key (old new k : AccountId) : AccountId := if decide (k = old) then new else k.

(** On a subnet where only the old hotkey is registered, the swap renames it in
    its slot and keeps every subnet's slots consistent. *)
Lemma swap_one_ok old new n s : old <> new -> networks_ok s -> Uids s !! (n, new) = None ->
  let s' := perform_hotkey_swap_on_one_subnet old new n s in
  networks_ok s' /\ NetworksAdded s' = NetworksAdded s /\
  (forall m u, Keys s' !! (m, u) = (if decide (m = n) then rename_key old new else id) <$> Keys s !! (m, u)) /\
  (forall m h, m <> n -> Uids s' !! (m, h) = Uids s !! (m, h)).
Proof using.
  intros Hne Hok Hnew. cbv zeta. set (s' := perform_hotkey_swap_on_one_subnet old new n s).
  set (x := before_neuron old new n s).
  assert (same_neurons x s /\ NetworksAdded x = NetworksAdded s) as [Hx Hxa].
  { unfold x. split; [split; intros|]; rewrite (before_frame _ old new n s) by done; done. }
  assert (Keys s' = Keys (swap_neuron n old new x)) as EK by (by apply swap_one_frame).
  assert (Uids s' = Uids (swap_neuron n old new x)) as EU by (by apply swap_one_frame).
  assert (forall h m, member h m s' = member h m (swap_neuron n old new x)) as EM
    by (intros h m; by apply (swap_one_frame (member h m))).
  assert (net_vecs s' = net_vecs x /\ net_bool_vecs s' = net_bool_vecs x /\ net_nums s' = net_nums x /\
    NetworksAdded s' = NetworksAdded x) as (EV & EB & EN & EA).
  { unfold s'. rewrite !(swap_one_frame _ old new n s) by done. fold x. by rewrite !(swap_neuron_frame _ n old new x) by done. }
  rewrite swap_neuron_keys in EK. rewrite swap_neuron_uids in EU. setoid_rewrite swap_neuron_member in EM.
  assert (networks_ok x) as Hokx by (eapply networks_ok_same; [by symmetry|done|done]).
  rewrite <- Hxa, <- (sn_keys _ _ Hx). setoid_rewrite <- (sn_uids _ _ Hx). rewrite <- (sn_uids _ _ Hx) in Hnew.
  clearbody s' x. clear Hx Hxa Hok s. destruct (Hokx n) as [[Hk Hu Hm Hv Hb] _].
  assert (swapped_uid n old x = Uids x !! (n, old)) as Es.
  { unfold swapped_uid. rewrite Hm. case_bool_decide as E; [done|]. by apply eq_None_not_Some in E. }
  rewrite Es in EK, EU.
  assert (forall m, get_subnetwork_n m s' = get_subnetwork_n m x) as En by (intros m; unfold get_subnetwork_n, get_net; by rewrite EN).
  assert (forall u, Keys s' !! (n, u) = rename_key old new <$> Keys x !! (n, u)) as HKn.
  { intros u. rewrite EK. destruct (Uids x !! (n, old)) as [u0|] eqn:E.
    - apply Hu in E. destruct (decide (u = u0)) as [->|].
      + rewrite lookup_insert_eq, E. cbn. unfold rename_key. by rewrite decide_True.
      + rewrite lookup_insert_ne by congruence. destruct (Keys x !! (n, u)) as [h|] eqn:Eh; [|done]. cbn. unfold rename_key.
        rewrite decide_False; [done|]. intros ->. apply Hu in E, Eh. congruence.
    - destruct (Keys x !! (n, u)) as [h|] eqn:Eh; [|done]. cbn. unfold rename_key. rewrite decide_False; [done|].
      intros ->. apply Hu in Eh. congruence. }
  assert (forall m, m <> n -> (forall u, Keys s' !! (m, u) = Keys x !! (m, u)) /\ forall h, Uids s' !! (m, h) = Uids x !! (m, h)) as Hother.
  { intros m Hmn. rewrite EK, EU. destruct (Uids x !! (n, old)); [|done].
    split; intros; by rewrite ?lookup_insert_ne, ?lookup_delete_ne by congruence. }
  assert (forall m, uids_ok s' m) as Hall.
  { intros m. destruct (Hokx m) as [[Hk' Hu' Hm' Hv' Hb'] _]. destruct (decide (m = n)) as [->|Hmn].
    - split.
      + intros u. by rewrite HKn, fmap_is_Some, En.
      + intros u h. rewrite HKn, EU. destruct (Uids x !! (n, old)) as [u0|] eqn:E.
        * pose proof E as E'. apply Hu in E'. destruct (decide (h = new)) as [->|Hhn].
          -- rewrite lookup_insert_eq, fmap_Some. split.
             ++ intros (k & Hk1 & E1). unfold rename_key in E1. case_decide; [|subst k; apply Hu in Hk1; congruence].
                subst k. apply Hu in Hk1. congruence.
             ++ intros [= <-]. exists old. split; [done|]. unfold rename_key. by rewrite decide_True.
          -- rewrite lookup_insert_ne by congruence. rewrite fmap_Some, lookup_delete_Some. split.
             ++ intros (k & Hk1 & ->). unfold rename_key in *. case_decide; [done|]. split; [congruence|]. by apply Hu.
             ++ intros [Hd Hk1]. exists h. apply Hu in Hk1. split; [done|]. unfold rename_key. rewrite decide_False; [done|congruence].
        * rewrite fmap_Some, <- Hu. split.
          -- intros (k & Hk1 & ->). unfold rename_key. case_decide; [|done]. subst k. apply Hu in Hk1. congruence.
          -- intros Hk1. exists h. split; [done|]. unfold rename_key. rewrite decide_False; [done|]. intros ->.
             apply Hu in Hk1. congruence.
      + intros h. rewrite EM, Hm, EU. destruct (decide (new = h /\ n = n)) as [[<- _]|Hh].
        * cbn. destruct (Uids x !! (n, old)) as [u0|] eqn:E; [rewrite lookup_insert_eq|rewrite Hnew];
            apply bool_decide_ext; split; intros [? ?]; eauto; done.
        * destruct (decide (old = h /\ n = n)) as [[<- _]|Hh'].
          -- cbn. symmetry. apply bool_decide_false. destruct (Uids x !! (n, old)) as [u0|] eqn:E.
             ++ rewrite lookup_insert_ne, lookup_delete_eq by congruence. by intros [].
             ++ rewrite E. by intros [].
          -- rewrite Hm. destruct (Uids x !! (n, old)) as [u0|]; [|done].
             by rewrite lookup_insert_ne, lookup_delete_ne by naive_solver.
      + intros i Hi. unfold get_vec. rewrite EV, En. by apply Hv'.
      + intros i. unfold get_bvec. rewrite EB, En. apply Hb'.
    - destruct (Hother m Hmn) as [HK HU]. split.
      + intros u. by rewrite HK, En.
      + intros u h. by rewrite HK, HU.
      + intros h. rewrite EM, !decide_False by (intros [_ ?]; congruence). by rewrite HU.
      + intros i Hi. unfold get_vec. rewrite EV, En. by apply Hv'.
      + intros i. unfold get_bvec. rewrite EB, En. apply Hb'. }
  split; [|split; [done|split]].
  - intros m. split; [apply Hall|]. rewrite EA, En. apply Hokx.
  - intros m u. case_decide as Hmn; [subst; apply HKn|]. rewrite (proj1 (Hother m Hmn)). by destruct (Keys x !! (m, u)).
  - intros m h Hmn. by apply Hother.
Qed.

Lemma swap_all_ok old new l s : old <> new -> NoDup l -> networks_ok s -> (forall n, n ∈ l -> Uids s !! (n, new) = None) ->
  let s' := foldl (fun s n => perform_hotkey_swap_on_one_subnet old new n s) s l in
  networks_ok s' /\ forall m u, Keys s' !! (m, u) = (if decide (m ∈ l) then rename_key old new else id) <$> Keys s !! (m, u).
Proof using.
  cbv zeta. intros Hne Hnd. revert s. induction l as [|n l IH]; intros s Hok Hnew.
  { cbn [foldl]. split; [done|]. intros m u. rewrite decide_False by (by intros ?%elem_of_nil). by destruct (Keys s !! (m, u)). }
  apply NoDup_cons in Hnd as [Hnot Hnd].
  destruct (swap_one_ok old new n s Hne Hok ltac:(apply Hnew; by left)) as (H1 & _ & H3 & H4). cbn [foldl].
  destruct (IH Hnd (perform_hotkey_swap_on_one_subnet old new n s) H1) as [I1 I2].
  { intros m Hm. rewrite H4 by (intros ->; done). apply Hnew. by right. }
  split; [done|]. intros m u. rewrite I2, H3. destruct (Keys s !! (m, u)) as [h|]; [cbn|done]. f_equal.
  destruct (decide (m = n)) as [->|Hmn].
  - rewrite (decide_False (P := n ∈ l)), decide_True by (done || by left). done.
  - destruct (decide (m ∈ l)) as [Hm|Hm]; [rewrite decide_True by (by right); done|].
    rewrite decide_False; [done|]. intros [->|?]%elem_of_cons; done.
Qed.

(** ** The extrinsic *)

(** Storages that agree on the slots and on the pools of the stakes. *)
Record same_core (s s' : St) : Prop := {
  sc_neurons : same_neurons s s';
  sc_added : NetworksAdded s = NetworksAdded s';
  sc_alpha : Alpha s = Alpha s';
  sc_total : forall n h, get_net_key NetKeyNum.TotalHotkeyAlpha n h s = get_net_key NetKeyNum.TotalHotkeyAlpha n h s';
  sc_shares : forall n h, get_net_key NetKeyNum.TotalHotkeyShares n h s = get_net_key NetKeyNum.TotalHotkeyShares n h s';
}.

#[export] Instance same_core_equivalence : Equivalence same_core.
Proof using.
  split.
  - intros s. by split.
  - intros s s' []. split; [by symmetry|..]; congruence.
  - intros s s' s'' [] []. split; [by etransitivity|..]; congruence.
Qed.

(** A write that leaves the neurons and the pools alone. *)
Lemma core_write (f : St -> St) s :
  (forall x, Keys (f x) = Keys x /\ Uids (f x) = Uids x /\ IsNetworkMember (f x) = IsNetworkMember x /\
    net_vecs (f x) = net_vecs x /\ net_bool_vecs (f x) = net_bool_vecs x /\ net_nums (f x) = net_nums x /\
    NetworksAdded (f x) = NetworksAdded x /\ Alpha (f x) = Alpha x /\ net_key_nums (f x) = net_key_nums x) ->
  same_core (f s) s.
Proof using.
  intros H. destruct (H s) as (H1 & H2 & H3 & H4 & H5 & H6 & H7 & H8 & H9).
  split; [split; try done|done..| |]; intros; unfold get_subnetwork_n, get_net, get_net_key; by rewrite ?H6, ?H9.
Qed.

Lemma core_fold {B} (f : St -> B -> St) l s : (forall x b, same_core (f x b) x) -> same_core (foldl f s l) s.
Proof using. intros H. revert s. induction l as [|b l IH]; intros s; [done|]. cbn. etransitivity; [apply IH|apply H]. Qed.

Ltac core := apply core_write; intros ?; split_and!; by st_frame.

Lemma core_put_net_key i n h v s : i <> NetKeyNum.TotalHotkeyAlpha -> i <> NetKeyNum.TotalHotkeyShares ->
  same_core (put_net_key i n h v s) s.
Proof using. intros H1 H2. split; try done; intros m k; rewrite get_put_net_key, decide_False; [done|congruence|done|congruence]. Qed.

Lemma swap_one_owner old new n s : Owner (perform_hotkey_swap_on_one_subnet old new n s) = Owner s.
Proof using.
  rewrite (swap_one_frame Owner), (swap_neuron_frame Owner) by done. by apply (before_frame Owner).
Qed.

Lemma swap_staking_frame {A} (g : St -> A) old new l s : (forall i c l x, g (put_list i c l x) = g x) ->
  g (foldl (swap_staking_hotkey old new) s l) = g s.
Proof using. intros H. apply (foldl_frame g). intros x e. unfold swap_staking_hotkey. by case_bool_decide. Qed.

Lemma swap_senate_ok old new s s' : swap_senate_member old new s = Ok (tt, s') -> exists w, s' = s <| world := w |>.
Proof using.
  intros H. unfold swap_senate_member in H. apply bind_ok in H as (? & ? & [= -> ->]%gets_ok & H).
  destruct (is_senate_member _ _).
  - apply bind_ok in H as (w & ? & (w' & _ & [= -> ->])%ext_ok & [= ->]%modify_ok). by exists w'.
  - apply ret_ok in H as [= ->]. exists (world s). by destruct s.
Qed.

Definition swap_scope (net : option Z) (s : St) : list Z :=
  match net with Some n => [n] | None => get_all_subnet_netuids s end.

Lemma swap_hotkey_inv origin old new net s s' : do_swap_hotkey origin old new net s = Ok (tt, s') ->
  exists coldkey x, ensure_signed origin = Ok coldkey /\ coldkey_owns_hotkey coldkey old s = true /\ old <> new /\
    is_hotkey_registered_on_any_network new s = false /\ same_core x s /\
    same_core s' (foldl (fun s n => perform_hotkey_swap_on_one_subnet old new n s) x (swap_scope net s)) /\
    Owner s' !! new = Some coldkey.
Proof using.
  intros H. unfold do_swap_hotkey in H.
  apply bind_ok in H as (c & s1 & (a & Ho & [= -> ->])%ext_ok & H).
  apply bind_ok in H as (s0 & s0' & [= -> ->]%gets_ok & H). unfold id in *. cbv zeta in H.
  apply bind_ok in H as ([] & s1 & [Hown [= ->]]%ensure_ok & H).
  apply bind_ok in H as ([] & s1 & [Hne%negb_true_iff%bool_decide_eq_false [= ->]]%ensure_ok & H).
  apply bind_ok in H as ([] & s1 & [_ [= ->]]%ensure_ok & H).
  apply bind_ok in H as ([] & s1 & [Hreg%negb_true_iff [= ->]]%ensure_ok & H).
  apply bind_ok in H as ([] & s1 & [= ->]%modify_ok & H).
  apply bind_ok in H as ([] & s1 & [= ->]%modify_ok & H).
  apply bind_ok in H as ([] & s1 & [= ->]%modify_ok & H).
  match type of H with _ ?z = _ => set (x0 := z) in * end.
  assert (same_core x0 s) as H0 by (unfold x0; do 3 (etransitivity; [by apply (core_write (copy_key _ old new))|]); done).
  clearbody x0. exists a.
  destruct net as [n|]; cbn [swap_scope foldl].
  - unfold swap_hotkey_on_subnet in H.
    apply bind_ok in H as (? & ? & [= -> ->]%gets_ok & H). cbv zeta in H.
    apply bind_ok in H as ([] & s1 & [_ [= ->]]%ensure_ok & H).
    apply bind_ok in H as ([] & s1 & [_ [= ->]]%ensure_ok & H).
    apply bind_ok in H as ([] & s1 & [_ [= ->]]%ensure_ok & H).
    apply bind_ok in H as (burned & x1 & Hpay & H). apply remove_balance_inv in Hpay.
    assert (same_core x1 x0) as H1 by (destruct Hpay as [(_ & _ & ->)|(w & _ & _ & ->)]; [done|core]).
    apply bind_ok in H as ([] & ? & [= ->]%modify_ok & H).
    apply bind_ok in H as ([] & ? & [= ->]%modify_ok & H).
    apply bind_ok in H as ([] & ? & [= ->]%modify_ok & H).
    set (x := push_unique _ _ _ _) in *.
    assert (same_core x x1) as H2.
    { unfold x. etransitivity; [core|]. transitivity (burn_tokens burned x1); core. }
    assert (Owner x !! new = Some a) as Hx by (unfold x; st_frame; apply lookup_insert_eq).
    clearbody x. exists x. apply bind_ok in H as ([] & ? & [= ->]%modify_ok & H).
    apply bind_ok in H as ([] & ? & [= ->]%modify_ok & H).
    apply bind_ok in H as ([] & ? & [= ->]%modify_ok & [= ->]%modify_ok).
    rewrite <- (swap_one_owner old new n x) in Hx.
    generalize dependent (perform_hotkey_swap_on_one_subnet old new n x). intros y Hy.
    split_and!; try done; [by rewrite H2, H1|]. etransitivity; [core|]. etransitivity; [by apply core_put_net_key|]. core.
  - apply bind_ok in H as (? & ? & [= -> ->]%gets_ok & H).
    apply bind_ok in H as ([] & s1 & [_ [= ->]]%ensure_ok & H).
    apply bind_ok in H as (burned & x1 & Hpay & H). apply remove_balance_inv in Hpay.
    assert (same_core x1 x0) as H1 by (destruct Hpay as [(_ & _ & ->)|(w & _ & _ & ->)]; [done|core]).
    apply bind_ok in H as ([] & ? & [= ->]%modify_ok & H).
    apply bind_ok in H as ([] & s1 & Hall & H).
    apply bind_ok in H as ([] & ? & [= ->]%modify_ok & [= ->]%modify_ok).
    unfold perform_hotkey_swap_on_all_subnets in Hall.
    apply bind_ok in Hall as (entries & ? & [= -> ->]%gets_ok & Hall).
    apply bind_ok in Hall as ([] & ? & [= ->]%modify_ok & Hall).
    set (x := swap_owned _ _ _ _) in *.
    assert (same_core x x1) as H2.
    { unfold x. transitivity (burn_tokens burned x1); [|core]. core. }
    assert (Owner x !! new = Some a) as Hx by (apply lookup_insert_eq).
    clearbody x. exists x. apply bind_ok in Hall as ([] & ? & [= ->]%modify_ok & Hall).
    assert (get_all_subnet_netuids x = get_all_subnet_netuids s) as En
      by (unfold get_all_subnet_netuids; by rewrite (sc_added _ _ H2), (sc_added _ _ H1), (sc_added _ _ H0)).
    rewrite En in Hall.
    rewrite <- (foldl_frame Owner (fun s n => perform_hotkey_swap_on_one_subnet old new n s) (get_all_subnet_netuids s) x
      (fun y n => swap_one_owner old new n y)) in Hx.
    generalize dependent (foldl (fun s n => perform_hotkey_swap_on_one_subnet old new n s) x (get_all_subnet_netuids s)).
    intros y Hall Hy.
    do 3 apply bind_ok in Hall as ([] & ? & [= ->]%modify_ok & Hall).
    apply bind_ok in Hall as ([] & z & Hsen & Hall). apply swap_senate_ok in Hsen as [w ->].
    apply bind_ok in Hall as ([] & ? & [= ->]%modify_ok & [= ->]%modify_ok).
    split_and!; try done; [by rewrite H2, H1| |].
    + etransitivity; [core|]. etransitivity; [core|].
      etransitivity; [apply core_fold; intros y' e; unfold swap_staking_hotkey; case_bool_decide; [core|done]|].
      destruct (hotkey_is_delegate _ _); repeat (etransitivity; [core|]); done.
    + cbn. rewrite (swap_staking_frame Owner) by done. by destruct (hotkey_is_delegate _ _).
Qed.

Lemma unregistered_slot h n s : networks_ok s -> is_hotkey_registered_on_any_network h s = false -> Uids s !! (n, h) = None.
Proof using.
  intros Hok Hreg. destruct (Hok n) as [[_ _ Hm _ _] _]. specialize (Hm h).
  destruct (Uids s !! (n, h)) as [u|] eqn:E; [|done]. exfalso.
  rewrite bool_decide_true in Hm by (by eexists). destruct (member h n s) as [[]|] eqn:Em; try done.
  unfold is_hotkey_registered_on_any_network, memberships in Hreg.
  assert (existsb (fun p : Z * bool => p.2) (iter_prefix (default ∅ (IsNetworkMember s !! h))) = true); [|congruence].
  apply existsb_exists. exists (n, true). split; [|done]. apply list_elem_of_In.
  rewrite iter_prefix_perm. by apply elem_of_map_to_list.
Qed.

Lemma netuids_distinct s : NoDup (get_all_subnet_netuids s).
Proof using. unfold get_all_subnet_netuids. rewrite iter_prefix_perm. apply NoDup_fst_map_to_list. Qed.

Lemma hotkey_swap_slots origin old new (net : option Z) s s' :
  do_swap_hotkey origin old new net s = Ok (tt, s') -> networks_ok s ->
  exists x, networks_ok x /\ same_core x s /\
    same_core s' (foldl (fun s n => perform_hotkey_swap_on_one_subnet old new n s) x (swap_scope net s)) /\
    networks_ok s' /\ forall m u,
      Keys s' !! (m, u) = (if decide (m ∈ swap_scope net s) then rename_key old new else id) <$> Keys x !! (m, u).
Proof using.
  intros H Hok. apply swap_hotkey_inv in H as (c & x & _ & _ & Hne & Hreg & Hx & Hs' & _).
  assert (networks_ok x) as Hokx by (eapply networks_ok_same; [symmetry; apply Hx|apply Hx|done]).
  destruct (swap_all_ok old new (swap_scope net s) x Hne) as [H1 H2]; [|done| |].
  { destruct net; [apply NoDup_singleton|apply netuids_distinct]. }
  { intros n _. rewrite (sn_uids _ _ (sc_neurons _ _ Hx)). by apply unregistered_slot. }
  exists x. split_and!; [done..|eapply networks_ok_same; [symmetry; apply Hs'|apply Hs'|done]|].
  intros m u. by rewrite (sn_keys _ _ (sc_neurons _ _ Hs')), H2.
Qed.

(** A hotkey swap renames the hotkey in the slots of the subnets it covers, one
    or all: there every neuron of the old hotkey is one of the new hotkey with
    the same uid, and no other slot changes. The slots of all subnets stay
    consistent. *)
Theorem hotkey_swap_renames_slots origin old new (net : option Z) s s' :
  do_swap_hotkey origin old new net s = Ok (tt, s') -> networks_ok s ->
  networks_ok s' /\
  forall m u, Keys s' !! (m, u) = (if decide (m ∈ swap_scope net s) then rename_key old new else id) <$> Keys s !! (m, u).
Proof using.
  intros H Hok. destruct (hotkey_swap_slots _ _ _ _ _ _ H Hok) as (x & _ & Hx & _ & H1 & H2).
  split; [done|]. intros m u. by rewrite H2, (sn_keys _ _ (sc_neurons _ _ Hx)).
Qed.

(** The caller ends up as the owner of the new hotkey, whoever owned it before:
    that the hotkey is not registered on a subnet is all that is asked. *)
Theorem hotkey_swap_takes_ownership origin coldkey victim old new (net : option Z) s s' :
  do_swap_hotkey origin old new net s = Ok (tt, s') -> ensure_signed origin = Ok coldkey ->
  coldkey_owns_hotkey victim new s = true -> victim <> coldkey ->
  coldkey_owns_hotkey victim new s' = false /\ coldkey_owns_hotkey coldkey new s' = true.
Proof using.
  intros H Ho _ Hne. apply swap_hotkey_inv in H as (c & x & Ho' & _ & _ & _ & _ & _ & Hown).
  rewrite Ho in Ho'. injection Ho' as <-. unfold coldkey_owns_hotkey, hotkey_account_exists.
  rewrite Hown, bool_decide_true by (by eexists). cbn. split; [by apply bool_decide_false|by apply bool_decide_true].
Qed.

(** ** Stakes *)

Lemma elem_of_alpha_entries h s c n a : (c, n, a) ∈ alpha_entries h s <-> alpha_shares h n s !! c = Some a.
Proof using.
  unfold alpha_entries, alpha_shares. rewrite list_elem_of_omap. unfold alpha_table. split.
  - intros ([[[h' n'] c'] a'] & Hin & E). rewrite iter_prefix_perm, elem_of_map_to_list in Hin.
    case_bool_decide; [|done]. injection E as -> -> ->. subst h'. rewrite lookup_map_uncurry in Hin.
    destruct (Alpha s !! (h, n)); [done|]. by cbn in Hin.
  - intros Ha. exists ((h, n, c), a). rewrite iter_prefix_perm, elem_of_map_to_list, lookup_map_uncurry.
    rewrite bool_decide_true by done. split; [|done]. by destruct (Alpha s !! (h, n)).
Qed.

Lemma alpha_entries_NoDup h s : NoDup (alpha_entries h s).*1.
Proof using.
  unfold alpha_entries. assert (Hn : NoDup (iter_prefix (alpha_table s)).*1) by (rewrite iter_prefix_perm; apply NoDup_fst_map_to_list).
  induction (iter_prefix (alpha_table s)) as [|[[[h' n] c] a] l IH]; [constructor|].
  apply NoDup_cons in Hn as [Hnot Hn]. cbn [omap list_omap]. case_bool_decide as E; [|by apply IH]. subst h'.
  cbn [fmap list_fmap fst]. apply NoDup_cons. split; [|by apply IH].
  intros ([k a'] & E0 & Hin)%list_elem_of_fmap. cbn in E0. subst k.
  apply list_elem_of_omap in Hin as ([[[h' n'] c'] a''] & Hin & E). case_bool_decide; [|done]. simplify_eq.
  apply Hnot, list_elem_of_fmap. by exists ((h, n, c), a').
Qed.

Definition entry_of (l : list (AccountId * Z * Z)) : gmap (AccountId * Z) Z := list_to_map l.

Lemma alpha_entries_lookup h s c n : entry_of (alpha_entries h s) !! (c, n) = alpha_shares h n s !! c.
Proof using.
  apply option_eq. intros a. unfold entry_of. rewrite <- elem_of_list_to_map by apply alpha_entries_NoDup. apply elem_of_alpha_entries.
Qed.

Lemma shares_put h n m s h' n' : alpha_shares h' n' (put_alpha_shares h n m s) =
  if decide (h = h' /\ n = n') then m else alpha_shares h' n' s.
Proof using.
  unfold alpha_shares, put_alpha_shares. cbn. case_decide as E; [destruct E as [-> ->]; by rewrite lookup_insert_eq|].
  by rewrite lookup_insert_ne by naive_solver.
Qed.

(** Moving one staker's share. *)
Lemma swap_alpha_one old new n c a s : old <> new ->
  let s' := swap_alpha n old new s (c, n, a) in
  (forall k, alpha_shares new n s' !! k = if decide (k = c)
     then Some (saturating_add U64F64 a (default 0 (alpha_shares new n s !! c))) else alpha_shares new n s !! k) /\
  (forall k, alpha_shares old n s' !! k = if decide (k = c) then None else alpha_shares old n s !! k) /\
  (forall h m, (h, m) <> (old, n) -> (h, m) <> (new, n) -> alpha_shares h m s' = alpha_shares h m s).
Proof using.
  intros Hne. cbv zeta. unfold swap_alpha. rewrite Z.eqb_refl. cbv zeta.
  match goal with |- context [if ?b then put_list ?i ?k ?l ?x else ?x] => set (y := if b then put_list i k l x else x) end.
  assert (forall h m, alpha_shares h m y = alpha_shares h m (put_alpha_shares new n
    (<[c := saturating_add U64F64 a (default 0 (alpha_shares new n s !! c))]> (alpha_shares new n
       (put_alpha_shares old n (delete c (alpha_shares old n (put_alpha_shares new n (delete c (alpha_shares new n s)) s)))
          (put_alpha_shares new n (delete c (alpha_shares new n s)) s))))
    (put_alpha_shares old n (delete c (alpha_shares old n (put_alpha_shares new n (delete c (alpha_shares new n s)) s)))
       (put_alpha_shares new n (delete c (alpha_shares new n s)) s)))) as Hy.
  { intros h m. unfold y. by destruct (_ && _). }
  clearbody y. split_and!; intros; rewrite Hy, !shares_put.
  - rewrite decide_True, (decide_False (P := old = new /\ _)), decide_True by naive_solver.
    case_decide as E; [subst; by rewrite lookup_insert_eq|]. by rewrite lookup_insert_ne, lookup_delete_ne by done.
  - rewrite (decide_False (P := new = old /\ _)), decide_True, (decide_False (P := new = old /\ _)) by naive_solver.
    case_decide as E; [subst; by rewrite lookup_delete_eq|]. by rewrite lookup_delete_ne by done.
  - rewrite !decide_False by naive_solver. done.
Qed.

(** All of them: the shares of the old hotkey on [n] are added to those of the new. *)
Lemma swap_alpha_all old new n l s : old <> new -> NoDup l.*1 ->
  let s' := foldl (swap_alpha n old new) s l in
  (forall k, alpha_shares new n s' !! k = match entry_of l !! (k, n) with
     | Some a => Some (saturating_add U64F64 a (default 0 (alpha_shares new n s !! k)))
     | None => alpha_shares new n s !! k end) /\
  (forall k, alpha_shares old n s' !! k = match entry_of l !! (k, n) with
     | Some a => None | None => alpha_shares old n s !! k end) /\
  (forall h m, (h, m) <> (old, n) -> (h, m) <> (new, n) -> alpha_shares h m s' = alpha_shares h m s).
Proof using.
  intros Hne. cbv zeta. revert s. induction l as [|[[c m] a] l IH]; intros s Hnd; [done|].
  cbn [fmap list_fmap fst] in Hnd. apply NoDup_cons in Hnd as [Hnot Hnd]. cbn [foldl].
  assert (entry_of l !! (c, m) = None) as Hfresh by (by apply not_elem_of_list_to_map).
  assert (forall k, entry_of ((c, m, a) :: l) !! k = if decide (k = (c, m)) then Some a else entry_of l !! k) as Econs.
  { intros k. unfold entry_of. cbn [list_to_map foldr]. case_decide as E; [subst; by rewrite lookup_insert_eq|].
    by rewrite lookup_insert_ne by done. }
  destruct (IH (swap_alpha n old new s (c, m, a)) Hnd) as (I1 & I2 & I3).
  destruct (decide (m = n)) as [->|Hmn].
  - destruct (swap_alpha_one old new n c a s Hne) as (O1 & O2 & O3).
    split_and!; intros; rewrite ?I1, ?I2, ?I3, ?Econs, ?O1, ?O2, ?O3 by done.
    + destruct (decide (k = c)) as [->|]; [by rewrite Hfresh, decide_True|].
      rewrite (decide_False (P := (k, n) = _)) by congruence. done.
    + destruct (decide (k = c)) as [->|]; [by rewrite Hfresh, decide_True|].
      rewrite (decide_False (P := (k, n) = _)) by congruence. done.
    + done.
  - assert (swap_alpha n old new s (c, m, a) = s) as Es by (unfold swap_alpha; by rewrite (proj2 (Z.eqb_neq n m))).
    rewrite Es in *. split_and!; intros; rewrite ?I1, ?I2, ?I3, ?Econs by done; [| |done].
    all: by rewrite decide_False by congruence.
Qed.

(** The pool of a hotkey's stake on a subnet: shares, total and denominator. *)
Definition stake_pool (h : AccountId) (n : Z) (s : St) : gmap AccountId Z * Z * Z :=
  (alpha_shares h n s, get_net_key NetKeyNum.TotalHotkeyAlpha n h s, get_net_key NetKeyNum.TotalHotkeyShares n h s).

Lemma stake_of_pool h n s h' n' s' c : stake_pool h n s = stake_pool h' n' s' ->
  get_stake_for_hotkey_and_coldkey_on_subnet h c n s = get_stake_for_hotkey_and_coldkey_on_subnet h' c n' s'.
Proof using.
  unfold stake_pool. intros [= E1 E2 E3]. unfold get_stake_for_hotkey_and_coldkey_on_subnet, try_get_value, SharePool.get_value.
  cbn [get_share try_get_share get_shared_value get_denominator get_alpha_share_pool]. by rewrite E1, E2, E3.
Qed.

Lemma stake_of_empty h n s c : alpha_shares h n s = ∅ -> get_stake_for_hotkey_and_coldkey_on_subnet h c n s = 0.
Proof using.
  intros E. unfold get_stake_for_hotkey_and_coldkey_on_subnet, try_get_value.
  cbn [try_get_share get_alpha_share_pool]. by rewrite E, lookup_empty.
Qed.

Lemma pool_core h n s s' : same_core s s' -> stake_pool h n s = stake_pool h n s'.
Proof using. intros []. unfold stake_pool, alpha_shares. congruence. Qed.

Lemma get_merge i j plus n old new s m h : old <> new ->
  get_net_key i m h (merge_net_key j plus n old new s) =
  if decide (i = j /\ m = n /\ h = new) then plus (get_net_key i n new s) (get_net_key i n old s)
  else if decide (i = j /\ m = n /\ h = old) then 0 else get_net_key i m h s.
Proof using.
  intros Hne. unfold merge_net_key. cbv zeta. rewrite get_put_net_key, !get_remove_net_key.
  destruct (decide ((j, n, new) = (i, m, h))) as [E|E].
  - injection E as -> -> ->. rewrite decide_False by congruence. by rewrite decide_True.
  - rewrite (decide_False (P := i = j /\ m = n /\ h = new)) by naive_solver.
    destruct (decide ((j, n, old) = (i, m, h))) as [E'|E'].
    + injection E' as -> -> ->. by rewrite decide_True.
    + by rewrite decide_False by naive_solver.
Qed.

Lemma swap_one_total i old new n s m h : old <> new -> i = NetKeyNum.TotalHotkeyAlpha \/ i = NetKeyNum.TotalHotkeyShares ->
  get_net_key i m h (perform_hotkey_swap_on_one_subnet old new n s) = get_net_key i m h (before_neuron old new n s).
Proof using.
  intros Hne Hi. unfold perform_hotkey_swap_on_one_subnet. cbv zeta.
  rewrite (swap_alpha_frame (get_net_key i m h)) by done. rewrite !get_merge by done.
  rewrite !(decide_False (P := i = NetKeyNum.TaoDividendsPerSubnet /\ _)) by (intros [? _]; destruct Hi; congruence).
  rewrite !(decide_False (P := i = NetKeyNum.AlphaDividendsPerSubnet /\ _)) by (intros [? _]; destruct Hi; congruence).
  rewrite !(decide_False (P := i = NetKeyNum.TotalHotkeyAlphaLastEpoch /\ _)) by (intros [? _]; destruct Hi; congruence).
  fold (before_neuron old new n s). case_bool_decide; st_frame;
    by rewrite (swap_pending_frame (get_net_key i m h)), (swap_family_frame (get_net_key i m h)), (swap_neuron_frame (get_net_key i m h)) by done.
Qed.

(** The shares after the swap on a subnet, as they are merged. *)
Lemma swap_one_shares old new n s : old <> new ->
  let s' := perform_hotkey_swap_on_one_subnet old new n s in
  (forall k, alpha_shares new n s' !! k = match alpha_shares old n s !! k with
     | Some a => Some (saturating_add U64F64 a (default 0 (alpha_shares new n s !! k)))
     | None => alpha_shares new n s !! k end) /\
  alpha_shares old n s' = ∅ /\
  (forall h m, (h, m) <> (old, n) -> (h, m) <> (new, n) -> alpha_shares h m s' = alpha_shares h m s).
Proof using.
  intros Hne. cbv zeta. unfold perform_hotkey_swap_on_one_subnet. cbv zeta. fold (before_neuron old new n s).
  match goal with |- context [foldl (swap_alpha n old new) ?y (alpha_entries old ?y)] => set (x := y) end.
  assert (Alpha x = Alpha s) as Ex.
  { unfold x. rewrite !(merge_frame Alpha) by done. case_bool_decide; st_frame;
      rewrite (swap_pending_frame Alpha), (swap_family_frame Alpha), (swap_neuron_frame Alpha) by done; by apply (before_frame Alpha). }
  assert (forall h m, alpha_shares h m x = alpha_shares h m s) as Exs by (intros; unfold alpha_shares; by rewrite Ex).
  clearbody x. destruct (swap_alpha_all old new n (alpha_entries old x) x Hne (alpha_entries_NoDup old x)) as (H1 & H2 & H3).
  split_and!.
  - intros k. by rewrite H1, alpha_entries_lookup, !Exs.
  - apply map_eq. intros k. rewrite H2, alpha_entries_lookup, lookup_empty. by destruct (alpha_shares old n x !! k).
  - intros h m Hh Hh'. by rewrite H3, Exs.
Qed.

Context {FL : SubstrateFixedLaws}.

(** The stake of the old hotkey on [n] can be carried over as it is: the new
    hotkey has none there, and the numbers are in the range of their types. *)
Record carries (old new : AccountId) (n : Z) (s : St) : Prop := {
  ca_new : stake_pool new n s = (∅, 0, 0);
  ca_shares : forall c v, alpha_shares old n s !! c = Some v -> fixed_range U64F64 v;
  ca_total : 0 <= get_net_key NetKeyNum.TotalHotkeyAlpha n old s <= U64_MAX;
  ca_denominator : fixed_range U64F64 (get_net_key NetKeyNum.TotalHotkeyShares n old s);
}.

Lemma swap_one_pool old new n s : old <> new -> carries old new n s ->
  let s' := perform_hotkey_swap_on_one_subnet old new n s in
  stake_pool new n s' = stake_pool old n s /\ stake_pool old n s' = (∅, 0, 0).
Proof using FL.
  intros Hne [[= E1 E2 E3] Hs Ht Hd]. cbv zeta. assert (fixed_range U64F64 0) as Hz by (split; vm_compute; congruence). destruct (swap_one_shares old new n s Hne) as (H1 & H2 & _).
  unfold stake_pool. rewrite !swap_one_total by auto. unfold before_neuron. rewrite !get_merge by done.
  repeat first [rewrite decide_True by (split_and!; reflexivity) | rewrite decide_False by (intros (? & ? & ?); congruence)].
  split.
  - f_equal; [f_equal|].
    + apply map_eq. intros k. rewrite H1, E1, lookup_empty. cbn. destruct (alpha_shares old n s !! k) as [a|] eqn:E; [|done].
      f_equal. assert (fixed_range U64F64 a) by (by eapply Hs).
      rewrite add_spec, Z.add_0_r by done. by apply saturate_id.
    + rewrite E2. unfold sat_add. lia.
    + rewrite E3, add_spec by done. by apply saturate_id.

  - by rewrite H2.
Qed.

Lemma swap_one_pool_other old new n s h m : old <> new -> m <> n ->
  stake_pool h m (perform_hotkey_swap_on_one_subnet old new n s) = stake_pool h m s.
Proof using.
  intros Hne Hmn. destruct (swap_one_shares old new n s Hne) as (_ & _ & H3). unfold stake_pool.
  rewrite H3, !swap_one_total by (congruence || auto). unfold before_neuron. rewrite !get_merge by done.
  by rewrite !decide_False by (intros (_ & ? & _); congruence).
Qed.

Lemma carries_same old new n s s' : (forall h, stake_pool h n s' = stake_pool h n s) -> carries old new n s -> carries old new n s'.
Proof using.
  intros E [H1 H2 H3 H4]. pose proof (E old) as Eo. unfold stake_pool in Eo. injection Eo as E1 E2 E3.
  split; [by rewrite E|by rewrite E1|by rewrite E2|by rewrite E3].
Qed.

Lemma swap_all_pool old new n l s : old <> new -> NoDup l -> n ∈ l -> carries old new n s ->
  let s' := foldl (fun s n => perform_hotkey_swap_on_one_subnet old new n s) s l in
  stake_pool new n s' = stake_pool old n s /\ stake_pool old n s' = (∅, 0, 0).
Proof using FL.
  intros Hne Hnd Hin Hc. cbv zeta. revert s Hc. induction l as [|m l IH]; intros s Hc; [by apply elem_of_nil in Hin|].
  apply NoDup_cons in Hnd as [Hnot Hnd]. cbn [foldl].
  assert (forall h x k, n ∉ k -> stake_pool h n (foldl (fun s n => perform_hotkey_swap_on_one_subnet old new n s) x k) = stake_pool h n x) as Hskip.
  { intros h x k. revert x. induction k as [|j k IHk]; intros x Hk; [done|]. cbn [foldl].
    rewrite IHk by (intros ?; apply Hk; by right). apply swap_one_pool_other; [done|]. intros ->. apply Hk. by left. }
  destruct (decide (m = n)) as [->|Hmn].
  - rewrite !Hskip by done. by apply swap_one_pool.
  - apply elem_of_cons in Hin as [->|Hin]; [done|].
    destruct (IH Hnd Hin (perform_hotkey_swap_on_one_subnet old new m s)) as [I1 I2].
    + eapply carries_same; [|done]. intros h. by apply swap_one_pool_other.
    + by rewrite I1, I2, swap_one_pool_other.
Qed.

(** C30: A hotkey swap carries the stake over: on every subnet it covers where the
    new hotkey had no stake, each coldkey has with the new hotkey what it had with
    the old one, and nothing is left with the old hotkey. *)
Theorem hotkey_swap_carries_stake origin old new (net : option Z) s s' n :
  do_swap_hotkey origin old new net s = Ok (tt, s') -> n ∈ swap_scope net s -> carries old new n s ->
  get_stake_for_hotkey_on_subnet new n s' = get_stake_for_hotkey_on_subnet old n s /\
  get_stake_for_hotkey_on_subnet old n s' = 0 /\
  forall c, get_stake_for_hotkey_and_coldkey_on_subnet new c n s' = get_stake_for_hotkey_and_coldkey_on_subnet old c n s /\
    get_stake_for_hotkey_and_coldkey_on_subnet old c n s' = 0.
Proof using FL.
  intros H Hn Hc. apply swap_hotkey_inv in H as (c & x & _ & _ & Hne & _ & Hx & Hs' & _).
  assert (carries old new n x) as Hcx by (eapply carries_same; [|done]; intros h; by apply pool_core).
  destruct (swap_all_pool old new n (swap_scope net s) x Hne) as [H1 H2]; [|done|done|].
  { destruct net; [apply NoDup_singleton|apply netuids_distinct]. }
  rewrite <- (pool_core new n _ _ Hs') in H1. rewrite <- (pool_core old n _ _ Hs') in H2.
  rewrite (pool_core old n _ _ Hx) in H1.
  pose proof H1 as H1'. pose proof H2 as H2'. unfold stake_pool in H1', H2'. injection H1' as _ Et _. injection H2' as Ea Et' _.
  split; [done|]. split; [done|]. intros k. split; [by apply stake_of_pool|by apply stake_of_empty].
Qed.

(** ** Coldkeys *)

Lemma swap_share_pool hotkey old new s n h m k :
  alpha_shares h m (swap_share hotkey old new s n) !! k =
  if decide (h = hotkey /\ m = n) then
    if decide (k = old) then None
    else if decide (k = new) then Some (saturating_add U64F64 (default 0 (alpha_shares h m s !! new)) (default 0 (alpha_shares h m s !! old)))
    else alpha_shares h m s !! k
  else alpha_shares h m s !! k.
Proof using.
  unfold swap_share. cbv zeta. rewrite shares_put. destruct (decide (hotkey = h /\ n = m)) as [[-> ->]|E].
  - rewrite decide_True by done. destruct (decide (k = old)) as [->|]; [by rewrite lookup_delete_eq|].
    rewrite lookup_delete_ne by done. case_decide as E; [subst; by rewrite lookup_insert_eq|by rewrite lookup_insert_ne].
  - by rewrite decide_False by naive_solver.
Qed.

Lemma swap_share_total i hotkey old new s n m h : get_net_key i m h (swap_share hotkey old new s n) = get_net_key i m h s.
Proof using. done. Qed.

(** The part of [perform_swap_coldkey] that moves the stakes. *)
Definition swap_shares (old new : AccountId) (hotkeys : list AccountId) (netuids : list Z) (s : St) : St :=
  foldl (fun s hotkey => foldl (swap_share hotkey old new) s netuids) s hotkeys.

Lemma swap_shares_hotkey old new h netuids s g m k : old <> new -> NoDup netuids ->
  alpha_shares g m (foldl (swap_share h old new) s netuids) !! k =
  if decide (g = h /\ m ∈ netuids) then
    if decide (k = old) then None
    else if decide (k = new) then Some (saturating_add U64F64 (default 0 (alpha_shares g m s !! new)) (default 0 (alpha_shares g m s !! old)))
    else alpha_shares g m s !! k
  else alpha_shares g m s !! k.
Proof using.
  intros Hne. revert s. induction netuids as [|n l IH]; intros s Hnd; cbn [foldl].
  { by rewrite decide_False by (by intros [_ ?%elem_of_nil]). }
  apply NoDup_cons in Hnd as [Hnot Hnd]. rewrite IH by done.
  destruct (decide (g = h /\ m ∈ l)) as [[-> Hm]|Hno].
  - assert (m <> n) by (intros ->; done). rewrite (decide_True (P := h = h /\ m ∈ n :: l)) by (split; [done|by right]).
    rewrite !swap_share_pool, !(decide_False (P := h = h /\ m = n)) by naive_solver. done.
  - rewrite swap_share_pool. destruct (decide (g = h /\ m = n)) as [[-> ->]|Hno'].
    + rewrite (decide_True (P := h = h /\ n ∈ n :: l)) by (split; [done|by left]). done.
    + rewrite (decide_False (P := g = h /\ m ∈ n :: l)); [done|]. intros [-> [->|?]%elem_of_cons]; naive_solver.
Qed.

Lemma swap_shares_spec old new hotkeys netuids s g m k : old <> new -> NoDup netuids -> NoDup hotkeys ->
  alpha_shares g m (swap_shares old new hotkeys netuids s) !! k =
  if decide (g ∈ hotkeys /\ m ∈ netuids) then
    if decide (k = old) then None
    else if decide (k = new) then Some (saturating_add U64F64 (default 0 (alpha_shares g m s !! new)) (default 0 (alpha_shares g m s !! old)))
    else alpha_shares g m s !! k
  else alpha_shares g m s !! k.
Proof using.
  intros Hne Hnd. unfold swap_shares. revert s. induction hotkeys as [|h l IH]; intros s Hh; cbn [foldl].
  { by rewrite decide_False by (by intros [?%elem_of_nil _]). }
  apply NoDup_cons in Hh as [Hnot Hh]. rewrite IH by done.
  destruct (decide (g ∈ l /\ m ∈ netuids)) as [[Hg Hm]|Hno].
  - assert (g <> h) by (intros ->; done). rewrite (decide_True (P := g ∈ h :: l /\ _)) by (split; [by right|done]).
    rewrite !swap_shares_hotkey, !(decide_False (P := g = h /\ _)) by naive_solver. done.
  - rewrite swap_shares_hotkey by done. destruct (decide (g = h /\ m ∈ netuids)) as [[-> Hm]|Hno'].
    + by rewrite (decide_True (P := h ∈ h :: l /\ _)) by (split; [by left|done]).
    + rewrite (decide_False (P := g ∈ h :: l /\ _)); [done|]. intros [[->|?]%elem_of_cons ?]; naive_solver.
Qed.

(** What [perform_swap_coldkey] leaves behind, with or without an error at its end. *)
Lemma perform_coldkey_inv old new s : exists w,
  let s1 := foldl (swap_subnet_owner old new) s (get_all_subnet_netuids s) in
  let s2 := swap_shares old new (get_list KeyList.StakingHotkeys old s) (get_all_subnet_netuids s) s1 in
  (perform_swap_coldkey old new s).2 =
  merge_lists KeyList.OwnedHotkeys old new
    (foldl (fun s owned_hotkey => s <| Owner ::= <[owned_hotkey := new]> |>)
      (merge_lists KeyList.StakingHotkeys old new s2) (get_list KeyList.OwnedHotkeys old s)) <| world := w |>.
Proof using.
  cbv zeta. unfold perform_swap_coldkey. cbv zeta.
  set (s1 := foldl (swap_subnet_owner old new) s (get_all_subnet_netuids s)).
  assert (NetworksAdded s1 = NetworksAdded s /\ key_lists s1 = key_lists s) as [E1 E2].
  { unfold s1. split; apply foldl_frame; intros x n; unfold swap_subnet_owner; by case_bool_decide. }
  assert (get_all_subnet_netuids s1 = get_all_subnet_netuids s) as En by (unfold get_all_subnet_netuids; by rewrite E1).
  assert (get_list KeyList.StakingHotkeys old s1 = get_list KeyList.StakingHotkeys old s) as Es by (unfold get_list; by rewrite E2).
  rewrite Es. clearbody s1.
  assert (forall l x, NetworksAdded x = NetworksAdded s1 ->
    foldl (fun s hotkey => foldl (swap_share hotkey old new) s (get_all_subnet_netuids s)) x l =
    swap_shares old new l (get_all_subnet_netuids s) x) as Hfold.
  { unfold swap_shares. induction l as [|h l IH]; intros x Hx; [done|]. cbn [foldl].
    assert (get_all_subnet_netuids x = get_all_subnet_netuids s) as -> by (unfold get_all_subnet_netuids; by rewrite Hx, E1).
    apply IH. rewrite <- Hx. by apply foldl_frame. }
  rewrite Hfold by done. set (s2 := swap_shares _ _ _ _ _).
  assert (key_lists s2 = key_lists s) as E3.
  { rewrite <- E2. unfold s2, swap_shares. apply foldl_frame. intros x h. by apply foldl_frame. }
  clearbody s2. assert (get_list KeyList.OwnedHotkeys old (merge_lists KeyList.StakingHotkeys old new s2) = get_list KeyList.OwnedHotkeys old s) as Eo.
  { unfold merge_lists, get_list, put_list. cbn. by rewrite lookup_insert_ne, lookup_delete_ne, E3. }
  rewrite Eo. set (s5 := merge_lists _ _ _ _). clearbody s5.
  destruct (0 <? get_coldkey_balance old s5); [|exists (world s5); by destruct s5].
  unfold kill_coldkey_account. destruct (_ =? 0); [by eexists|].
  destruct (withdraw_exact _ _ _) as [[credit w]|]; [|exists (world s5); by destruct s5].
  cbv zeta. destruct (credit =? 0); [by exists w|by eexists].
Qed.

Lemma owner_fold new l s h : Owner (foldl (fun s owned_hotkey => s <| Owner ::= <[owned_hotkey := new]> |>) s l) !! h =
  if decide (h ∈ l) then Some new else Owner s !! h.
Proof using.
  revert s. induction l as [|k l IH]; intros s; cbn [foldl]; [by rewrite decide_False by (by intros ?%elem_of_nil)|].
  rewrite IH. destruct (decide (h ∈ l)); [by rewrite decide_True by (by right)|]. cbn.
  destruct (decide (h = k)) as [->|]; [by rewrite lookup_insert_eq, decide_True by (by left)|].
  rewrite lookup_insert_ne by done. rewrite decide_False; [done|]. by intros [->|?]%elem_of_cons.
Qed.

Lemma subnet_owner_fold old new l s n : old <> new ->
  get_subnet_owner n (foldl (swap_subnet_owner old new) s l) =
  if decide (n ∈ l /\ get_subnet_owner n s = old) then new else get_subnet_owner n s.
Proof using.
  intros Hne. revert s. induction l as [|m l IH]; intros s; cbn [foldl]; [by rewrite decide_False by (by intros [?%elem_of_nil _])|].
  rewrite IH. assert (get_subnet_owner n (swap_subnet_owner old new s m) =
    if decide (n = m /\ get_subnet_owner n s = old) then new else get_subnet_owner n s) as ->.
  { unfold swap_subnet_owner. case_bool_decide as E.
    - unfold get_subnet_owner in *. cbn. destruct (decide (n = m)) as [->|]; [by rewrite lookup_insert_eq, decide_True|].
      rewrite lookup_insert_ne, decide_False by naive_solver. done.
    - rewrite decide_False; [done|]. intros [-> ?]. done. }
  destruct (decide (n = m /\ get_subnet_owner n s = old)) as [[-> Ho]|Hno].
  - rewrite (decide_True (P := m ∈ m :: l /\ _)) by (split; [by left|done]). by destruct (decide (m ∈ l /\ new = old)).
  - destruct (decide (n ∈ l /\ get_subnet_owner n s = old)) as [[Hn Ho]|Hno'].
    + by rewrite (decide_True (P := n ∈ m :: l /\ _)) by (split; [by right|done]).
    + rewrite (decide_False (P := n ∈ m :: l /\ _)); [done|]. intros [[->|?]%elem_of_cons ?]; naive_solver.
Qed.

(** What a coldkey swap does to the pools and the owners. *)
Lemma coldkey_swap_state old new swap_cost s s' :
  do_swap_coldkey old new swap_cost s = Ok (tt, s') -> old <> new -> NoDup (get_list KeyList.StakingHotkeys old s) ->
  (forall h n k, alpha_shares h n s' !! k =
     if decide (h ∈ get_list KeyList.StakingHotkeys old s /\ n ∈ get_all_subnet_netuids s) then
       if decide (k = old) then None
       else if decide (k = new) then
         Some (saturating_add U64F64 (default 0 (alpha_shares h n s !! new)) (default 0 (alpha_shares h n s !! old)))
       else alpha_shares h n s !! k
     else alpha_shares h n s !! k) /\
  (forall h n, get_net_key NetKeyNum.TotalHotkeyAlpha n h s' = get_net_key NetKeyNum.TotalHotkeyAlpha n h s /\
     get_net_key NetKeyNum.TotalHotkeyShares n h s' = get_net_key NetKeyNum.TotalHotkeyShares n h s) /\
  (forall h, h ∈ get_list KeyList.OwnedHotkeys old s -> Owner s' !! h = Some new) /\
  (forall n, is_Some (NetworksAdded s !! n) -> get_subnet_owner n s = old -> get_subnet_owner n s' = new).
Proof using.
  intros H Hne Hnd. unfold do_swap_coldkey in H.
  apply bind_ok in H as (? & ? & [= -> ->]%gets_ok & H). unfold id in *.
  apply bind_ok in H as ([] & ? & [_ [= ->]]%ensure_ok & H).
  apply bind_ok in H as ([] & ? & [_ [= ->]]%ensure_ok & H).
  apply bind_ok in H as ([] & x0 & [= ->]%modify_ok & H).
  apply bind_ok in H as (? & ? & [= -> ->]%gets_ok & H).
  apply bind_ok in H as ([] & ? & [_ [= ->]]%ensure_ok & H).
  apply bind_ok in H as (burned & x1 & Hpay & H). apply remove_balance_inv in Hpay.
  apply bind_ok in H as ([] & ? & [= ->]%modify_ok & H).
  set (x := burn_tokens burned x1) in *.
  assert (NetworksAdded x = NetworksAdded s /\ key_lists x = key_lists s /\ Alpha x = Alpha s /\ net_key_nums x = net_key_nums s /\
    SubnetOwner x = SubnetOwner s) as (X1 & X2 & X3 & X4 & X5).
  { unfold x. destruct Hpay as [(_ & _ & ->)|(w & _ & _ & ->)]; destruct (IdentitiesV2 s !! old); done. }
  clearbody x. clear Hpay.
  apply bind_ok in H as ([] & ? & [= ->]%modify_ok & H).
  destruct (perform_coldkey_inv old new x) as [w Hp]. cbv zeta in Hp. rewrite Hp in H. clear Hp.
  assert (get_all_subnet_netuids x = get_all_subnet_netuids s) as En by (unfold get_all_subnet_netuids; by rewrite X1).
  assert (forall i, get_list i old x = get_list i old s) as El by (intros i; unfold get_list; by rewrite X2).
  rewrite En, !El in H.
  set (s1 := foldl (swap_subnet_owner old new) x (get_all_subnet_netuids s)) in *.
  assert (Alpha s1 = Alpha s /\ net_key_nums s1 = net_key_nums s) as [A1 A2].
  { rewrite <- X3, <- X4. unfold s1. split; apply foldl_frame; intros y n; unfold swap_subnet_owner; by case_bool_decide. }
  set (s2 := swap_shares old new _ _ s1) in *.
  apply bind_ok in H as ([] & ? & [= ->]%modify_ok & H).
  apply bind_ok in H as ([] & ? & [= ->]%modify_ok & [= ->]%modify_ok).
  match goal with |- (forall h n k, alpha_shares h n ?z !! k = _) /\ _ => set (y := z) end.
  assert (forall h m, stake_pool h m y = stake_pool h m s2) as Ey.
  { intros h m. unfold y. st_frame.
    change (stake_pool h m (foldl (fun s owned_hotkey => s <| Owner ::= <[owned_hotkey := new]> |>)
      (merge_lists KeyList.StakingHotkeys old new s2) (get_list KeyList.OwnedHotkeys old s)) = stake_pool h m s2).
    by rewrite (foldl_frame (stake_pool h m)). }
  assert (forall h m k, alpha_shares h m y !! k = alpha_shares h m s2 !! k) as Eya.
  { intros h m k. specialize (Ey h m). unfold stake_pool in Ey. by injection Ey as -> _ _. }
  assert (forall h m, get_net_key NetKeyNum.TotalHotkeyAlpha m h y = get_net_key NetKeyNum.TotalHotkeyAlpha m h s /\
    get_net_key NetKeyNum.TotalHotkeyShares m h y = get_net_key NetKeyNum.TotalHotkeyShares m h s) as Et.
  { intros h m. specialize (Ey h m). unfold stake_pool in Ey. injection Ey as _ -> ->.
    assert (net_key_nums s2 = net_key_nums s) as E2.
    { rewrite <- A2. unfold s2, swap_shares. apply foldl_frame. intros z k. by apply foldl_frame. }
    unfold get_net_key. by rewrite E2. }
  assert (forall h m, alpha_shares h m s1 = alpha_shares h m s) as E1 by (intros; unfold alpha_shares; by rewrite A1).
  pose proof (fun g m k => swap_shares_spec old new (get_list KeyList.StakingHotkeys old s) (get_all_subnet_netuids s) s1 g m k
    Hne (netuids_distinct s) Hnd) as Hsp. fold s2 in Hsp.
  split; [intros h m k; by rewrite Eya, Hsp, !E1|]. split; [exact Et|]. split.
  - intros h Hh. unfold y. cbn. by rewrite owner_fold, decide_True.
  - intros n Hn Ho. unfold y. cbn.
    assert (forall z, SubnetOwner (foldl (fun s owned_hotkey => s <| Owner ::= <[owned_hotkey := new]> |>) z
      (get_list KeyList.OwnedHotkeys old s)) = SubnetOwner z) as Hf by (intros z; by apply foldl_frame).
    unfold get_subnet_owner. cbn. rewrite Hf. cbn.
    assert (SubnetOwner s2 = SubnetOwner s1) as -> by (unfold s2, swap_shares; apply foldl_frame; intros z k; by apply foldl_frame).
    fold (get_subnet_owner n s1). unfold s1. rewrite subnet_owner_fold by done. unfold get_subnet_owner in *. rewrite X5.
    by rewrite decide_True by (split; [by apply elem_of_netuids|done]).
Qed.

(** In a consistent pool a coldkey without an entry has no shares, which are worth nothing. *)
Lemma stake_from_shares h c n s : pool_ok (Ops := get_alpha_share_pool h n) s ->
  get_stake_for_hotkey_and_coldkey_on_subnet h c n s =
  get_value_from_shares (Ops := get_alpha_share_pool h n) (default 0 (alpha_shares h n s !! c)) s.
Proof using FL.
  intros Hok. unfold get_stake_for_hotkey_and_coldkey_on_subnet, try_get_value. cbn [try_get_share get_alpha_share_pool].
  destruct (alpha_shares h n s !! c) as [v|] eqn:E; cbn [default from_option id].
  - unfold SharePool.get_value, get_value_from_shares. cbn [get_share get_alpha_share_pool]. by rewrite E.
  - pose proof (pool_denominator (Ops := get_alpha_share_pool h n) s Hok).
    rewrite (value_closed (Ops := get_alpha_share_pool h n)) by (done || lia). cbv zeta.
    rewrite !Z.mul_0_r. by repeat case_match.
Qed.

(** Shares merged in a pool whose totals stay are worth at least what they were apart. *)
Lemma merged_stake h n old new s s' : pool_ok (Ops := get_alpha_share_pool h n) s -> old <> new ->
  alpha_shares h n s' !! new =
    Some (saturating_add U64F64 (default 0 (alpha_shares h n s !! new)) (default 0 (alpha_shares h n s !! old))) ->
  get_net_key NetKeyNum.TotalHotkeyAlpha n h s' = get_net_key NetKeyNum.TotalHotkeyAlpha n h s /\
  get_net_key NetKeyNum.TotalHotkeyShares n h s' = get_net_key NetKeyNum.TotalHotkeyShares n h s ->
  get_stake_for_hotkey_and_coldkey_on_subnet h old n s + get_stake_for_hotkey_and_coldkey_on_subnet h new n s
  <= get_stake_for_hotkey_and_coldkey_on_subnet h new n s'.
Proof using FL.
  intros Hok Hne Hnew [T1 T2].
  pose proof (share_range (Ops := get_alpha_share_pool h n) s old Hok) as R1.
  pose proof (share_range (Ops := get_alpha_share_pool h n) s new Hok) as R2.
  pose proof (shares_le_total (alpha_shares h n s) [old; new] (pool_shares (Ops := get_alpha_share_pool h n) s Hok)) as Htot.
  pose proof (pool_total (Ops := get_alpha_share_pool h n) s Hok) as Hsum. pose proof (pool_denominator (Ops := get_alpha_share_pool h n) s Hok) as Hd.
  change (0 <= get_net_key NetKeyNum.TotalHotkeyShares n h s <= max_bits U64F64) in Hd. cbn in R1, R2, Htot, Hsum.
  assert (default 0 (alpha_shares h n s !! old) + (default 0 (alpha_shares h n s !! new) + 0) <=
    get_net_key NetKeyNum.TotalHotkeyShares n h s) as Hle.
  { rewrite <- Hsum. apply Htot. constructor; [by intros ->%list_elem_of_singleton|]. apply NoDup_singleton. }
  rewrite !stake_from_shares by done. etrans; [apply value_add; [done|lia|lia|cbn; lia]|].
  unfold get_stake_for_hotkey_and_coldkey_on_subnet, try_get_value, SharePool.get_value, get_value_from_shares.
  cbn [get_share try_get_share get_shared_value get_denominator get_alpha_share_pool]. rewrite Hnew, T1, T2.
  cbn [default from_option id]. rewrite add_spec by (apply fixed_range_pos; lia).
  rewrite saturate_id by (apply fixed_range_pos; lia). rewrite (Z.add_comm (default 0 (alpha_shares h n s !! new))). done.
Qed.

(** C31: A coldkey swap moves the stake of the old coldkey to the new one. With every
    hotkey it stakes to, on every subnet, its shares are added to those the new
    coldkey has, and it keeps none: where the old coldkey had shares and the new one
    had none, the new one now has exactly the stake the old one had, and in a
    consistent pool it always has at least what both had. Nobody else's stake changes. The old coldkey's hotkeys and subnets
    belong to the new one. (Its list of hotkeys names each once.) *)
Theorem coldkey_swap_moves_stake old new swap_cost s s' :
  do_swap_coldkey old new swap_cost s = Ok (tt, s') -> old <> new ->
  NoDup (get_list KeyList.StakingHotkeys old s) ->
  (forall h n v, alpha_shares h n s !! old = Some v -> fixed_range U64F64 v) ->
  (forall h n k, k <> old -> k <> new ->
     get_stake_for_hotkey_and_coldkey_on_subnet h k n s' = get_stake_for_hotkey_and_coldkey_on_subnet h k n s) /\
  (forall h n, h ∈ get_list KeyList.StakingHotkeys old s -> is_Some (NetworksAdded s !! n) ->
     alpha_shares h n s' !! new =
       Some (saturating_add U64F64 (default 0 (alpha_shares h n s !! new)) (default 0 (alpha_shares h n s !! old))) /\
     alpha_shares h n s' !! old = None /\
     get_stake_for_hotkey_and_coldkey_on_subnet h old n s' = 0 /\
     (forall a, alpha_shares h n s !! old = Some a -> alpha_shares h n s !! new = None ->
        get_stake_for_hotkey_and_coldkey_on_subnet h new n s' = get_stake_for_hotkey_and_coldkey_on_subnet h old n s) /\
     (pool_ok (Ops := get_alpha_share_pool h n) s ->
        get_stake_for_hotkey_and_coldkey_on_subnet h old n s + get_stake_for_hotkey_and_coldkey_on_subnet h new n s
        <= get_stake_for_hotkey_and_coldkey_on_subnet h new n s')) /\
  (forall h, h ∈ get_list KeyList.OwnedHotkeys old s -> Owner s' !! h = Some new) /\
  (forall n, is_Some (NetworksAdded s !! n) -> get_subnet_owner n s = old -> get_subnet_owner n s' = new).
Proof using FL.
  intros H Hne Hnd Hr. destruct (coldkey_swap_state _ _ _ _ _ H Hne Hnd) as (Hsh & Et & Hown & Hsub).
  assert (forall h c n c', alpha_shares h n s' !! c = alpha_shares h n s !! c' ->
    get_stake_for_hotkey_and_coldkey_on_subnet h c n s' = get_stake_for_hotkey_and_coldkey_on_subnet h c' n s) as Hst.
  { intros h c n c' Hc. destruct (Et h n) as [T1 T2].
    unfold get_stake_for_hotkey_and_coldkey_on_subnet, try_get_value, SharePool.get_value.
    cbn [get_share try_get_share get_shared_value get_denominator get_alpha_share_pool]. by rewrite Hc, T1, T2. }
  assert (fixed_range U64F64 0) as Hz by (split; vm_compute; congruence).
  split_and!; [|intros h n Hh Hn|exact Hown|exact Hsub].
  - intros h n k Hk1 Hk2. apply Hst. rewrite Hsh, (decide_False (P := k = old)), (decide_False (P := k = new)) by done. by case_decide.
  - assert (alpha_shares h n s' !! old = None) as Hold
      by (by rewrite Hsh, decide_True, decide_True by (done || (split; [done|by apply elem_of_netuids]))).
    assert (alpha_shares h n s' !! new =
      Some (saturating_add U64F64 (default 0 (alpha_shares h n s !! new)) (default 0 (alpha_shares h n s !! old)))) as Hnew.
    { rewrite Hsh, decide_True by (split; [done|by apply elem_of_netuids]). by rewrite decide_False, decide_True by done. }
    split; [done|]. split; [done|]. split.
    { unfold get_stake_for_hotkey_and_coldkey_on_subnet, try_get_value. cbn [try_get_share get_alpha_share_pool]. by rewrite Hold. }
    split.
    + intros a Ha Hnone. apply Hst. rewrite Hnew, Ha, Hnone. cbn. assert (fixed_range U64F64 a) by (by eapply Hr).
      rewrite add_spec, Z.add_0_l by done. f_equal. by apply saturate_id.
    + intros Hok. by apply (merged_stake h n old new s s').
Qed.
End SwapSlots.
