(* ===== verification/Networks.v ===== *)
(** * Registrations and removals keep the slots of all subnets

    [networks_ok] over the calls that place neurons and over the removal of a
    subnet by its owner. *)

From S2P Require Import Prelude Frame Fixed SharePool Storage Misc Uids Symbols Reserves Registration Identity.
From S2P Require Import RateLimiting Children Staking StakeWeights Emission Network Lifecycle Root KeySwap SwapSlots.
From stdpp Require Import prelude gmap list fin_maps.
From Stdlib Require Import ZArith Lia.
#[local] Open Scope Z_scope.
#[local] Open Scope monad_scope.

Section Networks.
Context {FS : FrameSystem} {Cfg : SubtensorConfig} {SI : StorageIter} {W : Type}.
Context {Env : SubtensorEnv W} {SW : SwapHandler W} {F : SubstrateFixed} {FT : FixedTranscendental}.
Context {SE : Senate W} {SL : SenateLaws W} {FW : ForcedWithdraw W}.
Abbreviation St := (Storage W).
Implicit Types (s : St) (netuid uid : Z) (hotkey coldkey : AccountId).

(** ** Registrations leave the set of subnets alone *)

Lemma pruned_state netuid s uid s' : get_neuron_to_prune netuid s = Ok (uid, s') ->
  s' = s \/ exists v, s' = put_vec NetVec.PruningScores netuid v s.
Proof using.
  intros H. unfold get_neuron_to_prune, set_pruning_score_for_uid in H. monad_inv H; eauto.
Qed.

(** Placing a neuron appends or replaces one. *)
Lemma register_neuron_cases netuid hotkey s uid s' : register_neuron netuid hotkey s = Ok (uid, s') ->
  s' = append_neuron netuid hotkey (get_current_block_as_u64 s) s \/
  exists b x, (x = s \/ exists v, x = put_vec NetVec.PruningScores netuid v s) /\ s' = replace_neuron netuid uid hotkey b x.
Proof using.
  intros H. unfold register_neuron in H. monad_inv H; [by left|right]. apply pruned_state in Hm. eauto.
Qed.

Lemma register_neuron_n netuid hotkey s uid s' m : register_neuron netuid hotkey s = Ok (uid, s') -> m <> netuid ->
  get_subnetwork_n m s' = get_subnetwork_n m s.
Proof using.
  intros [->|(b & x & Hx & ->)]%register_neuron_cases Hm; [by rewrite append_n, decide_False|].
  transitivity (get_subnetwork_n m x); [|by destruct Hx as [->|[v ->]]].
  destruct (decide (SubnetOwnerHotkey x !! netuid = Some (hotkey_at netuid uid x))); [by rewrite replace_owner|by rewrite replace_n].
Qed.

Lemma register_neuron_added netuid hotkey s uid s' : register_neuron netuid hotkey s = Ok (uid, s') ->
  NetworksAdded s' = NetworksAdded s.
Proof using.
  intros [->|(b & x & Hx & ->)]%register_neuron_cases; [unfold append_neuron; by st_frame|].
  rewrite replace_added. by destruct Hx as [->|[v ->]].
Qed.

Lemma remove_balance_added c a s r s' : remove_balance_from_coldkey_account c a s = Ok (r, s') ->
  NetworksAdded s' = NetworksAdded s.
Proof using. intros [(_ & _ & ->)|(w & _ & _ & ->)]%remove_balance_inv; done. Qed.

Lemma swap_added n t l s r s' : swap_tao_for_alpha n t l s = Ok (r, s') -> NetworksAdded s' = NetworksAdded s.
Proof using. intros H. unfold swap_tao_for_alpha in H. monad_inv H; [|done]. unfold decrease_provided_alpha_reserve. by repeat (case_match; st_frame). Qed.

Lemma registration_added netuid hotkey s s' : registration netuid hotkey s s' ->
  NetworksAdded s' = NetworksAdded s /\ if_subnet_exist netuid s = true.
Proof using.
  intros [o x x' H|o block nonce work c x x' H].
  - unfold do_burned_registration in H. monad_inv H. split; [|done]. unfold increase_rao_recycled, set_rao_recycled, inc_counter. st_frame.
    rewrite (register_neuron_added _ _ _ _ _ Hm1). st_frame. rewrite (swap_added _ _ _ _ _ _ Hm0), (remove_balance_added _ _ _ _ _ Hm).
    by st_frame.
  - unfold do_registration, vec_to_hash in H. monad_inv H. split; [|done]. unfold inc_counter. st_frame.
    match goal with Hr : register_neuron _ _ _ = _ |- _ => rewrite (register_neuron_added _ _ _ _ _ Hr) end. by st_frame.
Qed.

(** A registration is refused on a subnet that admits no neuron. *)
Lemma registration_admits netuid hotkey s s' : registration netuid hotkey s s' -> get_max_allowed_uids netuid s <> 0.
Proof using.
  assert (forall c (x : St), get_max_allowed_uids netuid (create_account_if_non_existent c hotkey x) = get_max_allowed_uids netuid x) as E
    by (intros c x; by st_frame).
  intros [o x x' H|o block nonce work c x x' H].
  - unfold do_burned_registration in H. monad_inv H. rewrite E in *. by apply Z.eqb_neq, negb_true_iff.
  - unfold do_registration, vec_to_hash in H. monad_inv H. rewrite E in *. by apply Z.eqb_neq, negb_true_iff.
Qed.

Lemma registration_ok netuid hotkey s s' : registration netuid hotkey s s' -> networks_ok s ->
  0 < get_max_allowed_uids netuid s <= U16_MAX -> prune_typed netuid s -> networks_ok s'.
Proof using.
  intros H Hok Hmax Hty. destruct (registration_added _ _ _ _ H) as [Ha Hex]. unfold if_subnet_exist in Hex.
  apply registration_placed in H as (Hp & Hnew & _).
  assert (slots_ready netuid s) as Hready.
  { split; [apply Hok| |done..]. destruct (Hok netuid) as [Hn _]. rewrite <- (uo_bvecs _ _ Hn NetBoolVec.Active). lia. }
  destruct (placed_spec _ _ _ _ Hp Hready Hnew) as [H1 _]. intros m. split; [apply H1|]. rewrite Ha. intros Hm.
  assert (m <> netuid) as Hne by (intros ->; by rewrite Hm in Hex).
  destruct Hp as (s1 & uid & s2 & Hs1 & Hr & Hs2 & _).
  assert (get_subnetwork_n m s' = get_subnetwork_n m s2) as -> by (by apply (ss_items _ _ Hs2)).
  rewrite (register_neuron_n _ _ _ _ _ _ Hr) by done.
  assert (get_subnetwork_n m s1 = get_subnetwork_n m s) as -> by (by apply (ss_items _ _ Hs1)). by apply Hok.
Qed.

(** ** Removals *)

Lemma user_remove_ok coldkey netuid s s' : user_remove_network coldkey netuid s = Ok (tt, s') -> networks_ok s -> networks_ok s'.
Proof using.
  intros (_ & _ & x & ids & evs & Hx & ->)%user_remove_inv Hok.
  assert (networks_ok x) as Hok1 by (subst; apply (networks_ok_same s); [by split|done|done]).
  apply remove_network_ok with (netuid := netuid) in Hok1. clear - Hok1. revert Hok1. generalize (remove_network netuid x). intros y Hy.
  by apply (networks_ok_same y).
Qed.

End Networks.
