(* ===== verification/Calls.v ===== *)
(** * The calls of the subtensor pallet (src/pallets/subtensor/src/macros/dispatches.rs)

    Every dispatchable of the pallet under its name, and [subtensor_call], which
    dispatches any of them. Most forward to a function of another file; the rest
    is here: the guards of faucet, the calls for root and for the
    council, and the scheduling of coldkey swaps. *)

From S2P Require Import Prelude Frame Fixed SharePool Storage Misc Uids Symbols Reserves Registration Identity.
From S2P Require Import RateLimiting Children Staking StakeWeights BlockStep EpochMath Weights Emission Serving Network Lifecycle KeySwap.
From stdpp Require Import prelude gmap list fin_maps.
From Stdlib Require Import ZArith Lia.
#[local] Open Scope Z_scope.
#[local] Open Scope monad_scope.

(** The calls, over the runtime calls [C] that the council may have made. *)
Inductive Call {FS : FrameSystem} (C : Type) : Type :=
  | SetWeights (netuid : Z) (dests weights : list Z) (version_key : Z)
  | BatchSetWeights (netuids : list Z) (weights : list (list (Z * Z))) (version_keys : list Z)
  | CommitWeights (netuid : Z) (commit_hash : H256)
  | BatchCommitWeights (netuids : list Z) (commit_hashes : list H256)
  | RevealWeights (netuid : Z) (uids values salt : list Z) (version_key : Z)
  | CommitCrv3Weights (netuid : Z) (commit : Bytes) (reveal_round : Z)
  | BatchRevealWeights (netuid : Z) (uids_list values_list salts_list : list (list Z)) (version_keys : list Z)
  | SetTaoWeights (netuid : Z) (hotkey : AccountId) (dests weights : list Z) (version_key : Z)
  | BecomeDelegate (hotkey : AccountId)
  | DecreaseTake (hotkey : AccountId) (take : Z)
  | IncreaseTake (hotkey : AccountId) (take : Z)
  | AddStake (hotkey : AccountId) (netuid amount_staked : Z)
  | RemoveStake (hotkey : AccountId) (netuid amount_unstaked : Z)
  | ServeAxon (netuid version ip port ip_type protocol placeholder1 placeholder2 : Z)
  | ServeAxonTls (netuid version ip port ip_type protocol placeholder1 placeholder2 : Z) (certificate : Bytes)
  | ServePrometheus (netuid version ip port ip_type : Z)
  | Register (netuid block_number nonce : Z) (work : Bytes) (hotkey coldkey : AccountId)
  | RootRegister (hotkey : AccountId)
  | AdjustSenate (hotkey : AccountId)
  | BurnedRegister (netuid : Z) (hotkey : AccountId)
  | SwapHotkey (hotkey new_hotkey : AccountId) (netuid : option Z)
  | SwapColdkey (old_coldkey new_coldkey : AccountId) (swap_cost : Z)
  | SetChildkeyTake (hotkey : AccountId) (netuid take : Z)
  | SudoSetTxChildkeyTakeRateLimit (tx_rate_limit : Z)
  | SudoSetMinChildkeyTake (take : Z)
  | SudoSetMaxChildkeyTake (take : Z)
  | Sudo (call : C)
  | SudoUncheckedWeight (call : C) (weight : Z * Z)
  | Vote (hotkey : AccountId) (proposal : H256) (index : Z) (approve : bool)
  | RegisterNetwork (hotkey : AccountId)
  | Faucet (block_number nonce : Z) (work : Bytes)
  | DissolveNetwork (coldkey : AccountId) (netuid : Z)
  | SetChildren (hotkey : AccountId) (netuid : Z) (children : list (Z * AccountId))
  | ScheduleSwapColdkey (new_coldkey : AccountId)
  | ScheduleDissolveNetwork (netuid : Z)
  | SetIdentity (name url github_repo image discord description additional : Bytes)
  | SetSubnetIdentity (netuid : Z)
      (subnet_name github_repo subnet_contact subnet_url discord description logo_url additional : Bytes)
  | RegisterNetworkWithIdentity (hotkey : AccountId) (identity : option SubnetIdentityV3)
  | UnstakeAll (hotkey : AccountId)
  | UnstakeAllAlpha (hotkey : AccountId)
  | MoveStake (origin_hotkey destination_hotkey : AccountId) (origin_netuid destination_netuid alpha_amount : Z)
  | TransferStake (destination_coldkey hotkey : AccountId) (origin_netuid destination_netuid alpha_amount : Z)
  | SwapStake (hotkey : AccountId) (origin_netuid destination_netuid alpha_amount : Z)
  | AddStakeLimit (hotkey : AccountId) (netuid amount_staked limit_price : Z) (allow_partial : bool)
  | RemoveStakeLimit (hotkey : AccountId) (netuid amount_unstaked limit_price : Z) (allow_partial : bool)
  | SwapStakeLimit (hotkey : AccountId) (origin_netuid destination_netuid alpha_amount limit_price : Z) (allow_partial : bool)
  | TryAssociateHotkey (hotkey : AccountId)
  | StartCall (netuid : Z)
  | AssociateEvmKey (netuid : Z) (evm_key : H160) (block_number : Z) (signature : Bytes)
  | RecycleAlpha (hotkey : AccountId) (amount netuid : Z)
  | BurnAlpha (hotkey : AccountId) (amount netuid : Z)
  | SetPendingChildkeyCooldown (cooldown : Z)
  | RemoveStakeFullLimit (hotkey : AccountId) (netuid : Z) (limit_price : option Z).
Arguments SetWeights {FS C}. Arguments BatchSetWeights {FS C}. Arguments CommitWeights {FS C}. Arguments BatchCommitWeights {FS C}.
Arguments RevealWeights {FS C}. Arguments CommitCrv3Weights {FS C}. Arguments BatchRevealWeights {FS C}. Arguments SetTaoWeights {FS C}.
Arguments BecomeDelegate {FS C}. Arguments DecreaseTake {FS C}. Arguments IncreaseTake {FS C}. Arguments AddStake {FS C}.
Arguments RemoveStake {FS C}. Arguments ServeAxon {FS C}. Arguments ServeAxonTls {FS C}. Arguments ServePrometheus {FS C}.
Arguments Register {FS C}. Arguments RootRegister {FS C}. Arguments AdjustSenate {FS C}. Arguments BurnedRegister {FS C}.
Arguments SwapHotkey {FS C}. Arguments SwapColdkey {FS C}. Arguments SetChildkeyTake {FS C}.
Arguments SudoSetTxChildkeyTakeRateLimit {FS C}. Arguments SudoSetMinChildkeyTake {FS C}. Arguments SudoSetMaxChildkeyTake {FS C}.
Arguments Sudo {FS C}. Arguments SudoUncheckedWeight {FS C}. Arguments Vote {FS C}. Arguments RegisterNetwork {FS C}.
Arguments Faucet {FS C}. Arguments DissolveNetwork {FS C}. Arguments SetChildren {FS C}. Arguments ScheduleSwapColdkey {FS C}.
Arguments ScheduleDissolveNetwork {FS C}. Arguments SetIdentity {FS C}. Arguments SetSubnetIdentity {FS C}.
Arguments RegisterNetworkWithIdentity {FS C}. Arguments UnstakeAll {FS C}. Arguments UnstakeAllAlpha {FS C}. Arguments MoveStake {FS C}.
Arguments TransferStake {FS C}. Arguments SwapStake {FS C}. Arguments AddStakeLimit {FS C}. Arguments RemoveStakeLimit {FS C}.
Arguments SwapStakeLimit {FS C}. Arguments TryAssociateHotkey {FS C}. Arguments StartCall {FS C}. Arguments AssociateEvmKey {FS C}.
Arguments RecycleAlpha {FS C}. Arguments BurnAlpha {FS C}. Arguments SetPendingChildkeyCooldown {FS C}. Arguments RemoveStakeFullLimit {FS C}.

(** The council, the root origin, and the preimages and the scheduler: [bound] stores
    a call, [schedule_at] has it made at a block, with a priority and an origin. *)
Class CallsEnv {FS : FrameSystem} (C W : Type) := {
  ensure_council : Origin -> result DispatchError unit;
  raw_root : Origin;
  BoundCall : Type;
  bound : W -> Call C -> option (BoundCall * W);
  schedule_at : W -> Z -> Z -> Origin -> BoundCall -> option W;
}.

Section Calls.
Context {FS : FrameSystem} {Cfg : SubtensorConfig} {SI : StorageIter} {C W : Type}.
Context {Env : SubtensorEnv W} {SW : SwapHandler W} {F : SubstrateFixed} {FT : FixedTranscendental}.
Context {SE : Senate W} {FW : ForcedWithdraw W} {WE : WeightsEnv W} {EC : EvmCrypto} {CE : CallsEnv C W}.
Abbreviation St := (Storage W).
Implicit Types (origin : Origin) (s : St) (netuid uid : Z) (hotkey coldkey : AccountId).

(** [dispatch_bypass_filter] of a runtime call *)
Variable bypass : C -> Origin -> St -> result DispatchError St.

Definition batch_set_weights origin (netuids : list Z) (weights : list (list (Z * Z))) (version_keys : list Z) : Pm W unit :=
  do_batch_set_weights origin netuids weights version_keys.

Definition commit_weights origin netuid (commit_hash : H256) : Pm W unit := do_commit_weights origin netuid commit_hash.

Definition batch_commit_weights origin (netuids : list Z) (commit_hashes : list H256) : Pm W unit :=
  do_batch_commit_weights origin netuids commit_hashes.

Definition reveal_weights origin netuid (uids values salt : list Z) (version_key : Z) : Pm W unit :=
  do_reveal_weights origin netuid uids values salt version_key.

Definition commit_crv3_weights origin netuid (commit : Bytes) (reveal_round : Z) : Pm W unit :=
  do_commit_crv3_weights origin netuid commit reveal_round.

Definition batch_reveal_weights origin netuid (uids_list values_list salts_list : list (list Z)) (version_keys : list Z)
    : Pm W unit :=
  do_batch_reveal_weights origin netuid uids_list values_list salts_list version_keys.

(** Deprecated: accepted from anybody, without effect. *)
Definition set_tao_weights (_origin : Origin) (_netuid : Z) (_hotkey : AccountId) (_dests _weights : list Z)
    (_version_key : Z) : Pm W unit := ret tt.
Definition become_delegate (_origin : Origin) (_hotkey : AccountId) : Pm W unit := ret tt.

Definition decrease_take origin hotkey (take : Z) : Pm W unit := do_decrease_take origin hotkey take.
Definition increase_take origin hotkey (take : Z) : Pm W unit := do_increase_take origin hotkey take.

Definition add_stake origin hotkey netuid (amount_staked : Z) : Pm W unit := do_add_stake origin hotkey netuid amount_staked.
Definition remove_stake origin hotkey netuid (amount_unstaked : Z) : Pm W unit :=
  do_remove_stake origin hotkey netuid amount_unstaked.

Definition serve_axon origin netuid (version ip port ip_type protocol placeholder1 placeholder2 : Z) : Pm W unit :=
  do_serve_axon origin netuid version ip port ip_type protocol placeholder1 placeholder2 None.
Definition serve_axon_tls origin netuid (version ip port ip_type protocol placeholder1 placeholder2 : Z) (certificate : Bytes)
    : Pm W unit :=
  do_serve_axon origin netuid version ip port ip_type protocol placeholder1 placeholder2 (Some certificate).
Definition serve_prometheus origin netuid (version ip port ip_type : Z) : Pm W unit :=
  do_serve_prometheus origin netuid version ip port ip_type.

Definition register origin netuid (block_number nonce : Z) (work : Bytes) hotkey coldkey : Pm W unit :=
  do_registration origin netuid block_number nonce work hotkey coldkey.
Definition root_register origin hotkey : Pm W unit := do_root_register origin hotkey.
Definition adjust_senate origin hotkey : Pm W unit := do_adjust_senate origin hotkey.
Definition burned_register origin netuid hotkey : Pm W unit := do_burned_registration origin netuid hotkey.

Definition swap_hotkey origin hotkey (new_hotkey : AccountId) (netuid : option Z) : Pm W unit :=
  do_swap_hotkey origin hotkey new_hotkey netuid.
Definition swap_coldkey origin (old_coldkey new_coldkey : AccountId) (swap_cost : Z) : Pm W unit :=
  let* _ := ext (ensure_root origin) in
  do_swap_coldkey old_coldkey new_coldkey swap_cost.

Definition sudo_set_tx_childkey_take_rate_limit origin (tx_rate_limit : Z) : Pm W unit :=
  let* _ := ext (ensure_root origin) in
  modify (set_tx_childkey_take_rate_limit tx_rate_limit).
Definition sudo_set_min_childkey_take origin (take : Z) : Pm W unit :=
  let* _ := ext (ensure_root origin) in
  modify (set_min_childkey_take take).
Definition sudo_set_max_childkey_take origin (take : Z) : Pm W unit :=
  let* _ := ext (ensure_root origin) in
  modify (set_max_childkey_take take).

(** The error of the call is returned, and takes its event along. *)
Definition sudo origin (call : C) : Pm W unit :=
  let* _ := ext (ensure_council origin) in
  (fun s => match bypass call raw_root s with Ok s => Ok (tt, s) | Err e => Err (External e) end) ;;
  modify (deposit_event (Event.Sudid (Ok tt))).

Definition sudo_unchecked_weight origin (call : C) (weight : Z * Z) : Pm W unit :=
  let* _ := ext (ensure_council origin) in
  (fun s => match bypass call raw_root s with Ok s => Ok (tt, s) | Err e => Err (External e) end) ;;
  modify (deposit_event (Event.Sudid (Ok tt))).

Definition vote origin hotkey (proposal : H256) (index : Z) (approve : bool) : Pm W unit :=
  let* _ := do_vote_root origin hotkey proposal index approve in ret tt.

Definition register_network origin hotkey : Pm W unit := do_register_network origin hotkey 1 None.

Definition faucet origin (block_number nonce : Z) (work : Bytes) : Pm W unit :=
  if feature_pow_faucet then do_faucet origin block_number nonce work else throw Error.FaucetDisabled.

Definition dissolve_network origin coldkey netuid : Pm W unit :=
  let* _ := ext (ensure_root origin) in
  user_remove_network coldkey netuid.

Definition set_children origin hotkey netuid (children : list (Z * AccountId)) : Pm W unit :=
  do_schedule_children origin hotkey netuid children.

(** [ok_or] of what the preimages and the scheduler return *)
Definition or_failed_to_schedule {A} (r : option (A * W)) : Pm W A :=
  fun s => match r with
           | Some (x, w) => Ok (x, s <| world := w |>)
           | None => Err (Module Error.FailedToSchedule)
           end.

Definition schedule_swap_coldkey origin (new_coldkey : AccountId) : Pm W unit :=
  let* who := ext (ensure_signed origin) in
  let* s := gets id in
  let current_block := get_current_block_as_u64 s in
  match ColdkeySwapScheduled s !! who with
  | Some (scheduled_block, _) =>
      let redo_when := sat_add U32_MAX scheduled_block (get_value Value.ColdkeySwapRescheduleDuration s) in
      check (redo_when <=? current_block) Error.SwapAlreadyScheduled
  | None => ret tt
  end ;;
  let swap_cost := get_key_swap_cost in
  check (can_remove_balance_from_coldkey_account who swap_cost s) Error.NotEnoughBalanceToPaySwapColdKey ;;
  let when := sat_add U32_MAX current_block (get_value Value.ColdkeySwapScheduleDuration s) in
  let* bound_call := or_failed_to_schedule (bound (world s) (SwapColdkey who new_coldkey swap_cost)) in
  let* w := gets world in
  let* _ := or_failed_to_schedule ((fun w => (tt, w)) <$> schedule_at w when 63 raw_root bound_call) in
  modify (fun s => s <| ColdkeySwapScheduled ::= <[who := (when, new_coldkey)]> |>) ;;
  modify (deposit_event (Event.ColdkeySwapScheduled who new_coldkey when swap_cost)).

Definition schedule_dissolve_network (_origin : Origin) (_netuid : Z) : Pm W unit := throw Error.CallDisabled.

Definition set_identity origin (name url github_repo image discord description additional : Bytes) : Pm W unit :=
  do_set_identity origin name url github_repo image discord description additional.
Definition set_subnet_identity origin netuid
    (subnet_name github_repo subnet_contact subnet_url discord description logo_url additional : Bytes) : Pm W unit :=
  do_set_subnet_identity origin netuid subnet_name github_repo subnet_contact subnet_url discord description logo_url additional.
Definition register_network_with_identity origin hotkey (identity : option SubnetIdentityV3) : Pm W unit :=
  do_register_network origin hotkey 1 identity.

Definition unstake_all origin hotkey : Pm W unit := do_unstake_all origin hotkey.
Definition unstake_all_alpha origin hotkey : Pm W unit := do_unstake_all_alpha origin hotkey.
Definition move_stake origin (origin_hotkey destination_hotkey : AccountId) (origin_netuid destination_netuid alpha_amount : Z)
    : Pm W unit :=
  do_move_stake origin origin_hotkey destination_hotkey origin_netuid destination_netuid alpha_amount.
Definition transfer_stake origin (destination_coldkey : AccountId) hotkey (origin_netuid destination_netuid alpha_amount : Z)
    : Pm W unit :=
  do_transfer_stake origin destination_coldkey hotkey origin_netuid destination_netuid alpha_amount.
Definition swap_stake origin hotkey (origin_netuid destination_netuid alpha_amount : Z) : Pm W unit :=
  do_swap_stake origin hotkey origin_netuid destination_netuid alpha_amount.
Definition add_stake_limit origin hotkey netuid (amount_staked limit_price : Z) (allow_partial : bool) : Pm W unit :=
  do_add_stake_limit origin hotkey netuid amount_staked limit_price allow_partial.
Definition remove_stake_limit origin hotkey netuid (amount_unstaked limit_price : Z) (allow_partial : bool) : Pm W unit :=
  do_remove_stake_limit origin hotkey netuid amount_unstaked limit_price allow_partial.
Definition swap_stake_limit origin hotkey (origin_netuid destination_netuid alpha_amount limit_price : Z)
    (allow_partial : bool) : Pm W unit :=
  do_swap_stake_limit origin hotkey origin_netuid destination_netuid alpha_amount limit_price allow_partial.

Definition try_associate_hotkey origin hotkey : Pm W unit :=
  let* coldkey := ext (ensure_signed origin) in
  let* _ := attempt (do_try_associate_hotkey coldkey hotkey) in
  ret tt.

Definition start_call origin netuid : Pm W unit := do_start_call origin netuid.
Definition associate_evm_key origin netuid (evm_key : H160) (block_number : Z) (signature : Bytes) : Pm W unit :=
  do_associate_evm_key origin netuid evm_key block_number signature.
Definition recycle_alpha origin hotkey (amount netuid : Z) : Pm W unit := do_recycle_alpha origin hotkey amount netuid.
Definition burn_alpha origin hotkey (amount netuid : Z) : Pm W unit := do_burn_alpha origin hotkey amount netuid.

Definition set_pending_childkey_cooldown origin (cooldown : Z) : Pm W unit :=
  let* _ := ext (ensure_root origin) in
  modify (put_value Value.PendingChildKeyCooldown cooldown).

Definition remove_stake_full_limit origin hotkey netuid (limit_price : option Z) : Pm W unit :=
  do_remove_stake_full_limit origin hotkey netuid limit_price.

(** Dispatch of a call of the pallet *)
Definition subtensor_call (c : Call C) (o : Origin) : Pm W unit :=
  match c with
  | SetWeights n d w v => set_weights o n d w v
  | BatchSetWeights n w v => batch_set_weights o n w v
  | CommitWeights n h => commit_weights o n h
  | BatchCommitWeights n h => batch_commit_weights o n h
  | RevealWeights n u v t k => reveal_weights o n u v t k
  | CommitCrv3Weights n b r => commit_crv3_weights o n b r
  | BatchRevealWeights n u v t k => batch_reveal_weights o n u v t k
  | SetTaoWeights n h d w v => set_tao_weights o n h d w v
  | BecomeDelegate h => become_delegate o h
  | DecreaseTake h t => decrease_take o h t
  | IncreaseTake h t => increase_take o h t
  | AddStake h n a => add_stake o h n a
  | RemoveStake h n a => remove_stake o h n a
  | ServeAxon n v i p t r x y => serve_axon o n v i p t r x y
  | ServeAxonTls n v i p t r x y z => serve_axon_tls o n v i p t r x y z
  | ServePrometheus n v i p t => serve_prometheus o n v i p t
  | Register n b k w h a => register o n b k w h a
  | RootRegister h => root_register o h
  | AdjustSenate h => adjust_senate o h
  | BurnedRegister n h => burned_register o n h
  | SwapHotkey h k n => swap_hotkey o h k n
  | SwapColdkey a b c => swap_coldkey o a b c
  | SetChildkeyTake h n t => set_childkey_take o h n t
  | SudoSetTxChildkeyTakeRateLimit x => sudo_set_tx_childkey_take_rate_limit o x
  | SudoSetMinChildkeyTake x => sudo_set_min_childkey_take o x
  | SudoSetMaxChildkeyTake x => sudo_set_max_childkey_take o x
  | Sudo d => sudo o d
  | SudoUncheckedWeight d w => sudo_unchecked_weight o d w
  | Vote h p i a => vote o h p i a
  | RegisterNetwork h => register_network o h
  | Faucet b n w => faucet o b n w
  | DissolveNetwork a n => dissolve_network o a n
  | SetChildren h n l => set_children o h n l
  | ScheduleSwapColdkey a => schedule_swap_coldkey o a
  | ScheduleDissolveNetwork n => schedule_dissolve_network o n
  | SetIdentity a b c d e f g => set_identity o a b c d e f g
  | SetSubnetIdentity n a b c d e f g h => set_subnet_identity o n a b c d e f g h
  | RegisterNetworkWithIdentity h i => register_network_with_identity o h i
  | UnstakeAll h => unstake_all o h
  | UnstakeAllAlpha h => unstake_all_alpha o h
  | MoveStake h k n m a => move_stake o h k n m a
  | TransferStake c h n m a => transfer_stake o c h n m a
  | SwapStake h n m a => swap_stake o h n m a
  | AddStakeLimit h n a l p => add_stake_limit o h n a l p
  | RemoveStakeLimit h n a l p => remove_stake_limit o h n a l p
  | SwapStakeLimit h n m a l p => swap_stake_limit o h n m a l p
  | TryAssociateHotkey h => try_associate_hotkey o h
  | StartCall n => start_call o n
  | AssociateEvmKey n k b x => associate_evm_key o n k b x
  | RecycleAlpha h a n => recycle_alpha o h a n
  | BurnAlpha h a n => burn_alpha o h a n
  | SetPendingChildkeyCooldown x => set_pending_childkey_cooldown o x
  | RemoveStakeFullLimit h n l => remove_stake_full_limit o h n l
  end.

(** ** Who may make which call *)

Definition may_call (c : Call C) (o : Origin) (s : St) : bool :=
  let signed (p : AccountId -> bool) := match ensure_signed o with Ok who => p who | Err _ => false end in
  let owner_of hotkey := signed (fun who => coldkey_owns_hotkey who hotkey s) in
  let free_or_own hotkey := signed (fun who => negb (hotkey_account_exists hotkey s) || coldkey_owns_hotkey who hotkey s) in
  let subnet_owner netuid := signed (fun who => bool_decide (get_subnet_owner netuid s = who)) in
  let neuron netuid := signed (fun who => is_hotkey_registered_on_network netuid who s) in
  match c with
  | SetTaoWeights _ _ _ _ _ | BecomeDelegate _ => true
  | ScheduleDissolveNetwork _ => false
  | Sudo _ | SudoUncheckedWeight _ _ => is_ok (ensure_council o)
  | SwapColdkey _ _ _ | SudoSetTxChildkeyTakeRateLimit _ | SudoSetMinChildkeyTake _ | SudoSetMaxChildkeyTake _
  | SetPendingChildkeyCooldown _ => is_ok (ensure_root o)
  | DissolveNetwork coldkey netuid => is_ok (ensure_root o) && bool_decide (get_subnet_owner netuid s = coldkey)
  | DecreaseTake h _ | IncreaseTake h _ | SwapHotkey h _ _ | SetChildkeyTake h _ _ | SetChildren h _ _ | Vote h _ _ _ => owner_of h
  | RegisterNetwork h | RegisterNetworkWithIdentity h _ | BurnedRegister _ h => free_or_own h
  | Register _ _ _ _ h coldkey =>
      signed (fun who => bool_decide (who = h) && (negb (hotkey_account_exists h s) || coldkey_owns_hotkey coldkey h s))
  | StartCall netuid | SetSubnetIdentity netuid _ _ _ _ _ _ _ _ => subnet_owner netuid
  | SetWeights netuid _ _ _ | CommitWeights netuid _ | CommitCrv3Weights netuid _ _ | RevealWeights netuid _ _ _ _ => neuron netuid
  | _ => signed (fun _ => true)
  end.

Lemma signed_first {A} o (k : AccountId -> Pm W A) s r : (let* who := ext (ensure_signed o) in k who) s = Ok r ->
  exists who, ensure_signed o = Ok who /\ k who s = Ok r.
Proof. intros H. monad_inv H. eauto. Qed.

Lemma root_first {A B} (x : result DispatchError B) (k : Pm W A) s r : (let* _ := ext x in k) s = Ok r -> exists u, x = Ok u /\ k s = Ok r.
Proof. intros H. monad_inv H. eauto. Qed.

Lemma checked_first {A} (b : bool) (e : error Error.Error) (k : Pm W A) s r : (ensure b e ;; k) s = Ok r -> b = true /\ k s = Ok r.
Proof. intros H. monad_inv H. eauto. Qed.

Lemma read_first {A B} (f : St -> A) (k : A -> Pm W B) s r : (let* x := gets f in k x) s = Ok r -> k (f s) s = Ok r.
Proof. intros H. monad_inv H. done. Qed.

Lemma set_weights_registered o n d w k s r : do_set_weights o n d w k s = Ok r ->
  exists who, ensure_signed o = Ok who /\ is_hotkey_registered_on_network n who s = true.
Proof.
  intros (who & -> & H)%signed_first. exists who. split; [done|]. apply read_first in H. unfold id in H. do 5 (apply checked_first in H as [? H]). done.
Qed.

Lemma reveal_registered o n d w t k s r : do_reveal_weights o n d w t k s = Ok r ->
  exists who, ensure_signed o = Ok who /\ is_hotkey_registered_on_network n who s = true.
Proof.
  intros H. pose proof H as (who & Ho & _)%signed_first. unfold do_reveal_weights in H. monad_inv H.
  all: match goal with H : do_set_weights _ _ _ _ _ _ = _ |- _ => by apply set_weights_registered in H end.
Qed.

Lemma take_checked {A} (who hotkey : AccountId) (k : Pm W A) s r : (do_take_checks who hotkey ;; k) s = Ok r ->
  coldkey_owns_hotkey who hotkey s = true /\ k s = Ok r.
Proof. intros H. unfold do_take_checks in H. monad_inv H. eauto. Qed.

Lemma created_owner (who coldkey hotkey : AccountId) s : coldkey_owns_hotkey coldkey hotkey (create_account_if_non_existent who hotkey s) = true ->
  negb (hotkey_account_exists hotkey s) || coldkey_owns_hotkey coldkey hotkey s = true.
Proof. unfold create_account_if_non_existent. by destruct (hotkey_account_exists hotkey s). Qed.

(** Who may make which call. No call of the pallet succeeds unless its origin may
    make it: parameters, coldkey swaps and the removal of subnets take root (and the
    removal names the owner of the subnet), runtime calls the council, the settings
    of a hotkey its owner, those of a subnet its owner, weights a hotkey registered
    there, a registration a hotkey that is free or the caller's own; all others a
    signature. The two calls anybody may make do nothing, and one is disabled. *)
Theorem calls_need_authority c o s s' : subtensor_call c o s = Ok (tt, s') ->
  may_call c o s = true /\ (is_ok (ensure_signed o) || is_ok (ensure_root o) || is_ok (ensure_council o) = false -> s' = s).
Proof.
  intros H. assert (may_call c o s = true) as Hm.
  { destruct c; cbn in *.
    all: lazymatch type of H with
      | set_weights _ _ _ _ _ _ = _ => unfold set_weights in H; monad_inv H;
          match goal with H : do_set_weights _ _ _ _ _ _ = _ |- _ => apply set_weights_registered in H as (who & -> & H) end
      | reveal_weights _ _ _ _ _ _ _ = _ => apply reveal_registered in H as (who & -> & H)
      | start_call _ _ _ = _ => idtac
      | vote _ _ _ _ _ _ = _ => idtac
      | faucet _ _ _ _ _ = _ => unfold faucet in H; destruct feature_pow_faucet; [|done]; apply signed_first in H as (who & -> & H)
      | _ => try (apply signed_first in H as (who & -> & H))
      end.
    all: try done.
    all: cbn in *.
    all: repeat first [apply read_first in H; cbn [id] in H | apply checked_first in H as [? H] | apply take_checked in H as [? H]].
    all: try done.
    all: try (apply signed_first in H as (who & -> & _); done).
    1: { match goal with Hw : bool_decide (who = _) = true |- _ => rewrite Hw end. unfold vec_to_hash in H. monad_inv H.
      match goal with Hg : coldkey_owns_hotkey _ _ _ = true |- _ => exact (created_owner coldkey coldkey hotkey _ Hg) end. }
    1: by eapply created_owner.
    1-6,10: unfold swap_coldkey, sudo_set_tx_childkey_take_rate_limit, sudo_set_min_childkey_take, sudo_set_max_childkey_take, sudo,
      sudo_unchecked_weight, set_pending_childkey_cooldown in H; apply root_first in H as (u & -> & _); done.
    - unfold vote, do_vote_root in H. apply bind_ok in H as (b & s1 & H & _).
      apply signed_first in H as (who & -> & H). apply read_first in H. cbn [id] in H. by apply checked_first in H as [-> _].
    - unfold dissolve_network, user_remove_network in H. apply root_first in H as (u & -> & H). apply read_first in H. cbn [id] in H.
      apply checked_first in H as [_ H]. by apply checked_first in H as [-> _].
    - apply root_first in H as (u & Hu & _). revert Hu. unfold ensure_subnet_owner. destruct (ensure_signed o); [|done]. case_decide; [|done].
      intros _. by apply bool_decide_eq_true. }
  split; [done|]. intros [[Hs Hr]%orb_false_iff Hc]%orb_false_iff. unfold may_call in Hm. rewrite Hr, Hc in Hm.
  destruct (ensure_signed o); [done|]. destruct c; try done; by inversion H.
Qed.
End Calls.
