(* ===== verification/CallSlots.v ===== *)
(** * Every call keeps the slots

    [keeps] says that a computation of the pallet takes consistent slots to
    consistent slots. It composes over the monad, so that the proof for a call
    follows its definition; the calls that place, rename or remove neurons have
    their own lemmas in other files. *)

From S2P Require Import Prelude Frame Fixed SharePool Storage Misc Uids Symbols Reserves Registration Identity.
From S2P Require Import RateLimiting Children Staking StakeWeights BlockStep EpochMath Weights Emission Serving Network Lifecycle Root KeySwap SwapSlots Networks Calls.
From stdpp Require Import prelude gmap list fin_maps.
From Stdlib Require Import ZArith Lia.
#[local] Open Scope Z_scope.
#[local] Open Scope monad_scope.

Create HintDb slots.

Section Keeps.
Context {FS : FrameSystem} {Cfg : SubtensorConfig} {SI : StorageIter} {W : Type}.
Abbreviation St := (Storage W).
Implicit Types (s : St).

Definition keeps {A} (m : Pm W A) : Prop := forall s a s', m s = Ok (a, s') -> networks_ok s -> networks_ok s'.

Lemma keeps_ret {A} (a : A) : keeps (ret a).
Proof using. intros s b s' H. by monad_inv H. Qed.
Lemma keeps_fail {A} e : keeps (A := A) (fail e).
Proof using. intros s b s' H. by monad_inv H. Qed.
Lemma keeps_gets {A} (f : St -> A) : keeps (gets f).
Proof using. intros s b s' H. by monad_inv H. Qed.
Lemma keeps_ensure b e : keeps (ensure b e).
Proof using. intros s a s' H. by monad_inv H. Qed.
Lemma keeps_lift {A} (r : result (error Error.Error) A) : keeps (lift r).
Proof using. intros s a s' H. monad_inv H; done. Qed.
Lemma keeps_ext {A} (r : result DispatchError A) : keeps (ext r).
Proof using. intros s a s' H. by monad_inv H. Qed.
Lemma keeps_modify (f : St -> St) : (forall s, networks_ok s -> networks_ok (f s)) -> keeps (modify f).
Proof using. intros Hf s a s' H. monad_inv H. by apply Hf. Qed.
Lemma keeps_bind {A B} (m : Pm W A) (k : A -> Pm W B) : keeps m -> (forall a, keeps (k a)) -> keeps (bind m k).
Proof using. intros Hm Hk s b s' H Hs. apply bind_ok in H as (a & s1 & H1 & H2). eapply Hk; [exact H2|]. by eapply Hm. Qed.
Lemma keeps_for_each {A} (l : list A) (body : A -> Pm W unit) : (forall x, keeps (body x)) -> keeps (for_each l body).
Proof using. intros Hb s [] s' H Hs. eapply for_each_inv; [|exact Hs|exact H]. intros x y y' _ Hy Hx. by eapply Hb. Qed.
(** A pure function that returns a value next to the storage. *)
Lemma keeps_pure {A} (f : St -> A * St) : (forall s, networks_ok s -> networks_ok (f s).2) -> keeps (fun s => Ok (f s)).
Proof using. intros Hf s a s' [= E] Hs. pose proof (Hf s Hs) as H. by rewrite E in H. Qed.

Lemma ok_foldl {A} (f : St -> A -> St) l : (forall s x, networks_ok s -> networks_ok (f s x)) ->
  forall s, networks_ok s -> networks_ok (foldl f s l).
Proof using. intros Hf. induction l as [|x l IH]; intros s Hs; [done|]. cbn. auto. Qed.

Lemma ok_put_net i n v s : i <> NetNum.SubnetworkN -> networks_ok s -> networks_ok (put_net i n v s).
Proof using. intros Hi. apply networks_ok_same; [symmetry; by apply neurons_put_net|done]. Qed.
Lemma ok_mutate_net i n f s : i <> NetNum.SubnetworkN -> networks_ok s -> networks_ok (mutate_net i n f s).
Proof using. rewrite mutate_net_put. apply ok_put_net. Qed.

Lemma ok_put_vec i n v s : (per_uid i = true -> length v = length (get_vec i n s)) -> networks_ok s -> networks_ok (put_vec i n v s).
Proof using.
  intros Hl Hok m. destruct (Hok m) as [[H1 H2 H3 H4 H5] H6]. split; [|exact H6]. split; try done.
  intros j Hj. rewrite get_put_vec. case_decide as E; [|by apply H4]. destruct E as [-> ->]. rewrite Hl by done. by apply H4.
Qed.
Lemma ok_put_bvec i n v s : length v = length (get_bvec i n s) -> networks_ok s -> networks_ok (put_bvec i n v s).
Proof using.
  intros Hl Hok m. destruct (Hok m) as [[H1 H2 H3 H4 H5] H6]. split; [|exact H6]. split; try done.
  intros j. rewrite get_put_bvec. case_decide as E; [|by apply H5]. destruct E as [-> ->]. rewrite Hl. by apply H5.
Qed.

Lemma keeps_read {A B} (f : St -> A) (k : A -> Pm W B) : (forall s, networks_ok s -> keeps (k (f s))) -> keeps (bind (gets f) k).
Proof using. intros Hk s b s' H Hs. apply bind_ok in H as (a & s1 & H1 & H2). apply gets_ok in H1. simplify_eq. by eapply Hk. Qed.
Lemma keeps_state {A} (m : Pm W A) : (forall s, networks_ok s -> forall a s', m s = Ok (a, s') -> networks_ok s') -> keeps m.
Proof using. intros H s a s' E Hs. by eapply H. Qed.
Lemma run_keeps {A} (m : Pm W A) s a s' : keeps m -> networks_ok s -> m s = Ok (a, s') -> networks_ok s'.
Proof using. intros Hm Hs H. by eapply Hm. Qed.
Lemma keeps_attempt (m : Pm W unit) : keeps m -> keeps (attempt m).
Proof using. intros Hm s a s' H Hs. unfold attempt in H. destruct (m s) as [[b x]|e] eqn:E; simplify_eq; [|done]. by eapply Hm. Qed.

Lemma ok_put_shares h n x s : networks_ok s -> networks_ok (put_alpha_shares h n x s).
Proof using. intros Hs. unfold put_alpha_shares. repeat case_match; apply (networks_ok_same s); done || by split. Qed.
End Keeps.
#[export] Hint Resolve ok_put_shares : slots.


Ltac head_of e := lazymatch e with ?f _ => head_of f | _ => e end.
Ltac unfold_head e := let h := head_of e in unfold h.

(** [slots] follows a definition down to the writes it makes. *)
Ltac slots_case x :=
  lazymatch type of x with
  | (_ * Storage _)%type => let H := fresh in assert (networks_ok (snd x)) as H; [|destruct x; cbn [snd] in H]
  | result _ (_ * Storage _) =>
      let H := fresh in let E := fresh in
      assert (forall p, x = Ok p -> networks_ok p.2) as H;
      [ intros [? ?] E; cbn [snd]; refine (run_keeps _ _ _ _ _ _ E); clear E
      | destruct x; [specialize (H _ eq_refl)|clear H] ]
  | _ => destruct x eqn:?
  end.
(** Lemmas to apply before unfolding; extended as they are proved. *)
Ltac slots_lemma := fail.
Ltac slots_step :=
  try assumption;
  lazymatch goal with
  | |- forall _, _ => intros ?
  | |- keeps (let x := _ in _) => cbv zeta
  | |- keeps (bind (gets _) _) => apply keeps_read; intros ? ?; cbv beta
  | |- keeps (bind _ _) => apply keeps_bind; [|intros ?]
  | |- keeps (ret _) => apply keeps_ret
  | |- keeps (fail _) => apply keeps_fail
  | |- keeps (gets _) => apply keeps_gets
  | |- keeps (ensure _ _) => apply keeps_ensure
  | |- keeps (lift _) => apply keeps_lift
  | |- keeps (ext _) => apply keeps_ext
  | |- keeps (modify _) => apply keeps_modify; intros ? ?; cbv beta
  | |- keeps (for_each _ _) => apply keeps_for_each; intros ?
  | |- keeps (attempt _) => apply keeps_attempt
  | |- keeps (match ?x with _ => _ end) => slots_case x
  | |- keeps (fun x => Ok _) => apply keeps_pure; intros ? ?; cbv beta
  | |- keeps (fun _ => _) => apply keeps_state; intros ? ? ? ? ?; repeat case_match; simplify_eq
  | |- networks_ok (let x := _ in _) => cbv zeta
  | |- networks_ok (put_net _ _ _ _) => apply ok_put_net; [discriminate|]
  | |- networks_ok (mutate_net _ _ _ _) => apply ok_mutate_net; [discriminate|]
  | |- networks_ok (@setter _ _ _ _ _ ?x) => apply (networks_ok_same x); [by split|done|]
  | |- networks_ok (@over _ _ _ _ _ ?x) => apply (networks_ok_same x); [by split|done|]
  | |- networks_ok (foldl _ _ _) => apply ok_foldl; [intros ? ? ?; cbv beta|]
  | |- networks_ok (match ?x with _ => _ end) => slots_case x
  | |- networks_ok (?p (match ?x with _ => _ end)) => slots_case x; cbn [fst snd]
  | |- networks_ok (?p (let x := _ in _)) => cbv zeta
  | |- networks_ok (?p (_, _)) => cbn [fst snd]
  | |- networks_ok (snd ?e) => first [slots_lemma | solve [auto with slots nocore] | unfold_head e]
  | |- networks_ok ?e => first [slots_lemma | solve [auto with slots nocore] | unfold_head e]
  | |- keeps ?m => first [slots_lemma | solve [auto with slots nocore] | unfold_head m]
  end.
Ltac slots := repeat slots_step.

Section Pool.
Context {FS : FrameSystem} {Cfg : SubtensorConfig} {SI : StorageIter} {W : Type} {F : SubstrateFixed}.
Abbreviation St := (Storage W).
Implicit Types (s : St).
Context (h : AccountId) (n : Z).
#[local] Instance pool : SharePoolDataOperations AccountId St := get_alpha_share_pool h n.
Lemma ok_set_denominator v s : networks_ok s -> networks_ok (set_denominator v s).
Proof using. intros Hs. cbn. slots. Qed.
Lemma ok_set_shared v s : networks_ok s -> networks_ok (set_shared_value v s).
Proof using. intros Hs. cbn. slots. Qed.
Lemma ok_set_share k v s : networks_ok s -> networks_ok (set_share k v s).
Proof using. intros Hs. cbn. slots. Qed.
#[local] Hint Resolve ok_set_denominator ok_set_shared ok_set_share : slots.
Lemma ok_update_one k v s : networks_ok s -> networks_ok (update_value_for_one k v s).2.
Proof using. intros Hs. slots. Qed.
Lemma ok_update_all v s : networks_ok s -> networks_ok (update_value_for_all v s).
Proof using. intros Hs. slots. Qed.
End Pool.
Ltac slots_lemma ::= first [apply ok_update_one | apply ok_update_all].

Section Weights.
Context {FS : FrameSystem} {Cfg : SubtensorConfig} {SI : StorageIter} {W : Type}.
Context {Env : SubtensorEnv W} {F : SubstrateFixed} {FT : FixedTranscendental} {WE : WeightsEnv W}.
Abbreviation St := (Storage W).
Implicit Types (s : St).

Lemma ok_last_update n u b s : networks_ok s -> networks_ok (set_last_update_for_uid n u b s).
Proof using.
  intros Hs. unfold set_last_update_for_uid, get_last_update. case_match; [|done]. apply ok_put_vec; [|done].
  intros _. apply length_insert.
Qed.
Lemma keeps_attempt_all {A} (f : A -> Pm W unit) l : (forall x, keeps (f x)) -> keeps (attempt_all (map f l)).
Proof using. intros Hf. induction l as [|x l IH]; cbn; slots. Qed.
Lemma ok_report_results l s : networks_ok s -> networks_ok (report_results l s).
Proof using.
  unfold report_results. generalize false as b. revert s. induction l as [|r l IH]; intros s b Hs; [done|]. cbn. destruct r; apply IH; slots.
Qed.
#[local] Hint Resolve ok_last_update : slots.
Lemma keeps_do_set_weights o n d w k : keeps (do_set_weights o n d w k).
Proof using. slots. Qed.
#[local] Hint Resolve keeps_do_set_weights : slots.
Lemma keeps_reveal_all o n ex rs cs hs : keeps (reveal_all o n ex rs cs hs).
Proof using. revert cs hs. induction rs as [|[[[u v] k] h] rs IH]; intros cs hs; cbn; slots. Qed.
End Weights.
#[export] Hint Resolve ok_last_update ok_report_results keeps_do_set_weights keeps_reveal_all : slots.
Ltac slots_lemma ::= first [apply ok_update_one | apply ok_update_all | apply keeps_attempt_all].

Section Calls.
Context {FS : FrameSystem} {Cfg : SubtensorConfig} {SI : StorageIter} {C W : Type}.
Context {Env : SubtensorEnv W} {SW : SwapHandler W} {F : SubstrateFixed} {FT : FixedTranscendental}.
Context {SE : Senate W} {SL : SenateLaws W} {FW : ForcedWithdraw W} {WE : WeightsEnv W} {EC : EvmCrypto} {CE : CallsEnv C W}.
Abbreviation St := (Storage W).
Implicit Types (s : St).

Variable bypass : C -> Origin -> St -> result DispatchError St.

(** The runtime calls the council makes keep the slots as well. *)
Definition bypass_keeps : Prop := forall c o s s', bypass c o s = Ok s' -> networks_ok s -> networks_ok s'.

Lemma keeps_unstake_all_alpha_loop h c t l : keeps (W:=W) (unstake_all_alpha_loop h c t l).
Proof using. revert t. induction l as [|x l IH]; intros t; cbn; slots. Qed.
#[local] Hint Resolve keeps_unstake_all_alpha_loop : slots.

Lemma keeps_stake_calls o :
  (forall h n a, keeps (W:=W) (add_stake o h n a)) /\ (forall h n a, keeps (W:=W) (remove_stake o h n a)) /\
  (forall h n a l p, keeps (W:=W) (add_stake_limit o h n a l p)) /\ (forall h n a l p, keeps (W:=W) (remove_stake_limit o h n a l p)) /\
  (forall h n l, keeps (W:=W) (remove_stake_full_limit o h n l)) /\ (forall h, keeps (W:=W) (unstake_all o h)) /\
  (forall h, keeps (W:=W) (unstake_all_alpha o h)) /\ (forall h k n m a, keeps (W:=W) (move_stake o h k n m a)) /\
  (forall c h n m a, keeps (W:=W) (transfer_stake o c h n m a)) /\ (forall h n m a, keeps (W:=W) (swap_stake o h n m a)) /\
  (forall h n m a l p, keeps (W:=W) (swap_stake_limit o h n m a l p)).
Proof using. split_and!; slots. Qed.

(** Calls that place, rename or remove neurons. *)
Definition moves_neurons (c : Call C) : bool :=
  match c with
  | Register _ _ _ _ _ _ | BurnedRegister _ _ | RootRegister _ | RegisterNetwork _ | RegisterNetworkWithIdentity _ _
  | SwapHotkey _ _ _ | DissolveNetwork _ _ => true
  | _ => false
  end.

Lemma other_calls_keep c o : bypass_keeps -> moves_neurons c = false -> keeps (subtensor_call bypass c o).
Proof using.
  intros Hb Hc. destruct (keeps_stake_calls o) as (S1 & S2 & S3 & S4 & S5 & S6 & S7 & S8 & S9 & S10 & S11).
  destruct c; try discriminate Hc; cbn [subtensor_call]; clear Hc; auto; slots.
  all: by eapply Hb.
Qed.

(** The values a registration compares are of their types. *)
Definition call_typed (c : Call C) (s : St) : Prop :=
  match c with
  | Register n _ _ _ _ _ | BurnedRegister n _ => 0 <= get_max_allowed_uids n s <= U16_MAX /\ prune_typed n s
  | RootRegister _ => get_max_root_validators s <= U16_MAX /\ forall h, get_stake_for_hotkey_on_subnet h 0 s <= U64_MAX
  | _ => True
  end.

Lemma register_ok n h s s' : registration n h s s' -> networks_ok s -> 0 <= get_max_allowed_uids n s <= U16_MAX /\ prune_typed n s ->
  networks_ok s'.
Proof using.
  intros H Hok [Hm Hp]. pose proof (registration_admits _ _ _ _ H). eapply registration_ok; [done|done|lia|done].
Qed.

Lemma calls_keep_slots c o s s' : bypass_keeps -> subtensor_call bypass c o s = Ok (tt, s') -> call_typed c s ->
  networks_ok s -> networks_ok s'.
Proof using SL.
  intros Hb H Ht Hok. destruct (moves_neurons c) eqn:Hc; [|by eapply other_calls_keep].
  destruct c; try discriminate Hc; cbn in H, Ht.
  - by eapply register_ok; [eapply ProofOfWork|..].
  - by eapply root_register_slot; [|done|apply Ht..].
  - by eapply register_ok; [eapply Burned|..].
  - by destruct (hotkey_swap_slots _ _ _ _ _ _ H Hok) as (? & _ & _ & _ & ? & _).
  - by destruct (register_network_slots _ _ _ _ _ _ H Hok) as (? & _ & ? & _).
  - unfold dissolve_network in H. apply root_first in H as (_ & _ & H). by eapply user_remove_ok.
  - by destruct (register_network_slots _ _ _ _ _ _ H Hok) as (? & _ & ? & _).
Qed.
End Calls.
