(* ===== verification/Dividends.v ===== *)
(** * Dividends of an epoch (src/pallets/subtensor/src/coinbase/run_coinbase.rs)

    The epoch says what each hotkey earned as a miner and as a validator. A
    validator's dividends are shared with the parents that lend it stake, less
    the childkey take; the result is split between the alpha and the root stake
    of each hotkey, and the pending alpha and TAO are shared out in proportion. *)

From S2P Require Import Prelude Frame Fixed SharePool Storage Misc Uids Reserves Children Staking StakeWeights.
From S2P Require Import Emission.
From stdpp Require Import prelude gmap list fin_maps.
From Stdlib Require Import ZArith Lia.
#[local] Open Scope Z_scope.
#[local] Open Scope monad_scope.

(** The order in which a [BTreeMap] keyed by accounts is traversed, that of the
    accounts. *)
Class BTreeOrder {FS : FrameSystem} := {
  btree_iter : forall {V}, gmap AccountId V -> list (AccountId * V);
  btree_iter_perm : forall {V} (m : gmap AccountId V), btree_iter m ≡ₚ map_to_list m;
}.

Section Dividends.
Context {FS : FrameSystem} {Cfg : SubtensorConfig} {SI : StorageIter} {W : Type}.
Context {Env : SubtensorEnv W} {F : SubstrateFixed} {BO : BTreeOrder}.
Abbreviation St := (Storage W).
Implicit Types (s : St) (netuid : Z) (hotkey : AccountId).

(** ** Dividends of parents and children *)

(** The part of a key's stake that it does not hand down to children. *)
Definition remaining_proportion (childkeys : list (Z * AccountId)) : Z :=
  foldl (fun remaining_proportion '(proportion, _) =>
      saturating_sub U96F32 remaining_proportion
        (safe_div U96F32 (asfloat proportion) (asfloat U64_MAX)))
    (asfloat 1) childkeys.

Definition get_self_contribution (hotkey : AccountId) (netuid : Z) (s : St) : Z :=
  let remaining_proportion := remaining_proportion (get_children hotkey netuid s) in
  let tao_weight := get_tao_weight s in
  let root_stake := asfloat (get_stake_for_hotkey_on_subnet hotkey 0 s) in
  let alpha_stake := asfloat (get_stake_for_hotkey_on_subnet hotkey netuid s) in
  let alpha_contribution := saturating_mul U96F32 alpha_stake remaining_proportion in
  let root_contribution :=
    saturating_mul U96F32 (saturating_mul U96F32 root_stake remaining_proportion) tao_weight in
  tou64 (saturating_add U96F32 alpha_contribution root_contribution).

(** What the parent of a link contributes to the stake of the child. *)
Definition parent_contribution (netuid : Z) (s : St) (proportion : Z) (parent : AccountId) : Z :=
  let parent_proportion := safe_div U96F32 (asfloat proportion) (asfloat U64_MAX) in
  let parent_root := asfloat (get_stake_for_hotkey_on_subnet parent 0 s) in
  let parent_alpha := asfloat (get_stake_for_hotkey_on_subnet parent netuid s) in
  let parent_alpha_contribution := saturating_mul U96F32 parent_alpha parent_proportion in
  let parent_root_contribution :=
    saturating_mul U96F32 (saturating_mul U96F32 parent_root parent_proportion) (get_tao_weight s) in
  saturating_add U96F32 parent_alpha_contribution parent_root_contribution.

(** The first loop over the parents: the total contribution, and each parent's. *)
Definition parent_contributions (netuid : Z) (s : St) (total_contribution : Z)
    (parents : list (Z * AccountId)) : Z * list (AccountId * Z) :=
  foldl (fun '(total_contribution, parent_contributions) '(proportion, parent) =>
      let combined_contribution := parent_contribution netuid s proportion parent in
      (saturating_add U96F32 total_contribution combined_contribution,
       parent_contributions ++ [(parent, combined_contribution)]))
    (total_contribution, []) parents.

(** One round of the second loop: what is left of the emission, the take of the
    child so far, and the tuples so far. [parent_owned] says that the parent
    belongs to the child's own coldkey, which pays no take. *)
Definition pay_parent (validating_emission childkey_take_proportion total_contribution : Z)
    (parent_owned : AccountId -> bool) (acc : Z * Z * list (AccountId * Z)) (entry : AccountId * Z)
    : Z * Z * list (AccountId * Z) :=
  let '(remaining_emission, total_child_emission_take, dividend_tuples) := acc in
  let '(parent, contribution) := entry in
  let emission_factor := default (asfloat 0) (checked_div U96F32 contribution total_contribution) in
  let parent_emission := saturating_mul U96F32 validating_emission emission_factor in
  let remaining_emission := saturating_sub U96F32 remaining_emission parent_emission in
  let child_emission_take :=
    if parent_owned parent then asfloat 0
    else saturating_mul U96F32 childkey_take_proportion (from_fixed U96F32 U96F32 parent_emission) in
  let parent_emission := saturating_sub U96F32 parent_emission child_emission_take in
  let total_child_emission_take := saturating_add U96F32 total_child_emission_take child_emission_take in
  (remaining_emission, total_child_emission_take, dividend_tuples ++ [(parent, tou64 parent_emission)]).

Definition get_parent_child_dividends_distribution (hotkey : AccountId) (netuid dividends : Z) (s : St)
    : list (AccountId * Z) :=
  let validating_emission := asfloat dividends in
  let childkey_take_proportion :=
    safe_div U96F32 (asfloat (get_childkey_take hotkey netuid s)) (asfloat U16_MAX) in
  let childkey_owner := get_owning_coldkey_for_hotkey hotkey s in
  let self_contribution := get_self_contribution hotkey netuid s in
  let total_contribution := saturating_add U96F32 (asfloat 0) (asfloat self_contribution) in
  let '(total_contribution, parent_contributions) :=
    parent_contributions netuid s total_contribution (get_parents hotkey netuid s) in
  let '(remaining_emission, total_child_emission_take, dividend_tuples) :=
    foldl (pay_parent validating_emission childkey_take_proportion total_contribution
             (fun parent => bool_decide (get_owning_coldkey_for_hotkey parent s = childkey_owner)))
      (validating_emission, asfloat 0, []) parent_contributions in
  let child_emission := tou64 (saturating_add U96F32 remaining_emission total_child_emission_take) in
  dividend_tuples ++ [(hotkey, child_emission)].

(** ** Dividends and incentives of an epoch *)

(** [map.entry(k).and_modify(|e| *e = f(e)).or_insert(v)] *)
Definition entry_modify {V} (k : AccountId) (f : V -> V) (v : V) (m : gmap AccountId V) : gmap AccountId V :=
  <[k := match m !! k with Some e => f e | None => v end]> m.

Definition calculate_dividends_and_incentives (netuid : Z) (hotkey_emission : list (AccountId * Z * Z)) (s : St)
    : gmap AccountId Z * gmap AccountId Z :=
  foldl (fun '(incentives, dividends) '(hotkey, incentive, dividend) =>
      let incentives := entry_modify hotkey (fun e => sat_add U64_MAX e incentive) incentive incentives in
      let div_tuples := get_parent_child_dividends_distribution hotkey netuid dividend s in
      let dividends := foldl (fun dividends '(parent, parent_div) =>
          entry_modify parent (fun e => saturating_add U96F32 e (asfloat parent_div)) (asfloat parent_div) dividends)
        dividends div_tuples in
      (incentives, dividends))
    (∅, ∅) hotkey_emission.

(** The part of a hotkey's dividend that goes to its root stake, and the rest. *)
Definition split_dividend (tao_weight alpha_stake_u64 root_stake_u64 dividend : Z) : Z * Z :=
  let alpha_stake := asfloat alpha_stake_u64 in
  let root_stake := asfloat root_stake_u64 in
  let root_alpha := saturating_mul U96F32 root_stake tao_weight in
  let total_alpha := saturating_add U96F32 alpha_stake root_alpha in
  let root_prop := default (asfloat 0) (checked_div U96F32 root_alpha total_alpha) in
  let root_divs := saturating_mul U96F32 dividend root_prop in
  (root_divs, saturating_sub U96F32 dividend root_divs).

(** The two last loops: an amount shared in proportion to the dividends. *)
Definition share_out (pending total : Z) (divs : gmap AccountId Z) : gmap AccountId Z :=
  foldl (fun shares '(hotkey, div) =>
      let share := default (asfloat 0) (checked_div U96F32 div total) in
      let amount := saturating_mul U96F32 (asfloat pending) share in
      entry_modify hotkey (fun _ => amount) amount shares)
    ∅ (btree_iter divs).

Definition calculate_dividend_distribution (pending_alpha pending_tao tao_weight : Z)
    (stake_map : gmap AccountId (Z * Z)) (dividends : gmap AccountId Z) : gmap AccountId Z * gmap AccountId Z :=
  let '(total_root_divs, total_alpha_divs, root_dividends, alpha_dividends) :=
    foldl (fun '(total_root_divs, total_alpha_divs, root_dividends, alpha_dividends) '(hotkey, dividend) =>
        match stake_map !! hotkey with
        | Some (alpha_stake_u64, root_stake_u64) =>
            let '(root_divs, alpha_divs) := split_dividend tao_weight alpha_stake_u64 root_stake_u64 dividend in
            (saturating_add U96F32 total_root_divs root_divs,
             saturating_add U96F32 total_alpha_divs alpha_divs,
             entry_modify hotkey (fun e => saturating_add U96F32 e root_divs) root_divs root_dividends,
             entry_modify hotkey (fun e => saturating_add U96F32 e alpha_divs) alpha_divs alpha_dividends)
        | None => (total_root_divs, total_alpha_divs, root_dividends, alpha_dividends)
        end)
      (asfloat 0, asfloat 0, ∅, ∅) (btree_iter dividends) in
  let tao_dividends := share_out pending_tao total_root_divs root_dividends in
  let prop_alpha_dividends := share_out pending_alpha total_alpha_divs alpha_dividends in
  (prop_alpha_dividends, tao_dividends).

Definition get_stake_map (netuid : Z) (hotkeys : list AccountId) (s : St) : gmap AccountId (Z * Z) :=
  foldl (fun stake_map hotkey =>
      let alpha_stake := get_stake_for_hotkey_on_subnet hotkey netuid s in
      let root_stake := get_stake_for_hotkey_on_subnet hotkey 0 s in
      <[hotkey := (alpha_stake, root_stake)]> stake_map)
    ∅ hotkeys.

Definition calculate_dividend_and_incentive_distribution (netuid pending_tao pending_validator_alpha : Z)
    (hotkey_emission : list (AccountId * Z * Z)) (tao_weight : Z) (s : St)
    : gmap AccountId Z * (gmap AccountId Z * gmap AccountId Z) :=
  let '(incentives, dividends) := calculate_dividends_and_incentives netuid hotkey_emission s in
  let stake_map := get_stake_map netuid (btree_iter dividends).*1 s in
  let '(alpha_dividends, tao_dividends) :=
    calculate_dividend_distribution pending_validator_alpha pending_tao tao_weight stake_map dividends in
  (incentives, (alpha_dividends, tao_dividends)).

(** ** Parents and children *)
Context {FL : SubstrateFixedLaws}.
Abbreviation ONE32 := (unit_ U96F32).

Lemma range96 x : fixed_range U96F32 x <-> 0 <= x <= max_bits U96F32.
Proof using. done. Qed.
Lemma tou64_range x : fixed_range U96F32 x -> 0 <= tou64 x <= U64_MAX.
Proof using FL. intros Hx. rewrite to_num_spec by (done || apply (proj1 (range96 x) Hx)). unfold clamp, int_min, int_max. lia. Qed.
Lemma asfloat_range x : fixed_range U96F32 (asfloat x).
Proof using FL. apply from_num_range. Qed.

(** A product with a share of one at most. *)
Lemma mul_share x q : fixed_range U96F32 x -> 0 <= q <= ONE32 ->
  saturating_mul U96F32 x q = x * q / ONE32 /\ 0 <= x * q / ONE32 <= x.
Proof using FL.
  intros Hx Hq. pose proof (unit_pos U96F32). pose proof (unit_max U96F32).
  pose proof (proj1 (range96 x) Hx) as Hx'.
  assert (Hb : 0 <= x * q / ONE32 <= x).
  { split; [apply Z.div_pos; nia|apply Z.div_le_upper_bound; nia]. }
  rewrite mul_spec by (try apply fixed_range_pos; lia). rewrite saturate_id by (apply fixed_range_pos; lia). done.
Qed.

Lemma tao_weight_range s : 0 <= get_value Value.TaoWeight s <= U64_MAX -> 0 <= get_tao_weight s <= ONE32.
Proof using FL. intros H. by apply (proportion_spec (get_value Value.TaoWeight s)). Qed.

Lemma take_range h n s : 0 <= get_childkey_take h n s <= U16_MAX ->
  0 <= safe_div U96F32 (asfloat (get_childkey_take h n s)) (asfloat U16_MAX) <= ONE32.
Proof using FL.
  intros H. destruct (whole96 (get_childkey_take h n s)) as [-> H1]; [lia|].
  destruct (whole96 U16_MAX) as [-> H2]; [lia|]. pose proof (unit_pos U96F32). pose proof (unit_max U96F32).
  set (x := get_childkey_take h n s) in *. clearbody x.
  assert (E : x * ONE32 * ONE32 / (U16_MAX * ONE32) = x * ONE32 / U16_MAX) by (apply Z.div_mul_cancel_r; lia).
  assert (Hb : 0 <= x * ONE32 / U16_MAX <= ONE32) by (split; [apply Z.div_pos|apply Z.div_le_upper_bound]; nia).
  rewrite safe_div_spec; rewrite ?E; try done; nia.
Qed.

(** The u64 and u16 items the distribution on subnet [n] reads. *)
Record dividends_typed (hotkey : AccountId) (n : Z) (s : St) : Prop := {
  dt_alpha : stakes_typed n s;
  dt_root : stakes_typed 0 s;
  dt_weight : 0 <= get_value Value.TaoWeight s <= U64_MAX;
  dt_take : 0 <= get_childkey_take hotkey n s <= U16_MAX;
  dt_parents : forall p q, (p, q) ∈ get_parents hotkey n s -> 0 <= p <= U64_MAX;
  dt_few : Z.of_nat (length (get_parents hotkey n s)) <= 2 ^ 30;
}.

Lemma contribution_bound n s p q : stakes_typed n s -> stakes_typed 0 s ->
  0 <= get_value Value.TaoWeight s <= U64_MAX -> 0 <= p <= U64_MAX ->
  0 <= parent_contribution n s p q <= 2 * (U64_MAX * ONE32).
Proof using FL.
  intros Ha Hr Hw Hp. unfold parent_contribution. fold (normalized_proportion p).
  destruct (proportion_spec p Hp) as [_ Hq]. pose proof (tao_weight_range s Hw) as Hwr.
  specialize (Ha q). specialize (Hr q). destruct (whole96 _ Ha) as [-> Ra]. destruct (whole96 _ Hr) as [-> Rr].
  pose proof (unit_pos U96F32).
  assert (HU : 2 * (U64_MAX * ONE32) <= max_bits U96F32) by (vm_compute; congruence).
  destruct (mul_share _ _ Ra Hq) as [-> H1]. destruct (mul_share _ _ Rr Hq) as [-> H2].
  set (x := get_stake_for_hotkey_on_subnet q n s * ONE32 * _ / ONE32) in *.
  set (y := get_stake_for_hotkey_on_subnet q 0 s * ONE32 * _ / ONE32) in *.
  assert (Hx : 0 <= x <= U64_MAX * ONE32) by nia. assert (Hy : 0 <= y <= U64_MAX * ONE32) by nia.
  clearbody x y. destruct (mul_share y (get_tao_weight s)) as [-> H3]; [apply range96; lia|done|].
  rewrite add_spec by (apply fixed_range_pos; lia). rewrite saturate_id by (apply fixed_range_pos; lia). lia.
Qed.

Lemma parent_contributions_spec n s ps : forall t acc,
  (forall p q, (p, q) ∈ ps -> 0 <= parent_contribution n s p q <= 2 * (U64_MAX * ONE32)) ->
  0 <= t -> t + 2 * (U64_MAX * ONE32) * Z.of_nat (length ps) <= max_bits U96F32 ->
  foldl (fun '(total, l) '(proportion, parent) =>
      let c := parent_contribution n s proportion parent in (saturating_add U96F32 total c, l ++ [(parent, c)]))
    (t, acc) ps
  = (t + zsum (fun x => parent_contribution n s x.1 x.2) ps,
     acc ++ ((fun x => (x.2, parent_contribution n s x.1 x.2)) <$> ps)).
Proof using FL.
  induction ps as [|[p q] ps IH]; intros t acc Hc Ht Hmax; [cbn; by rewrite Z.add_0_r, app_nil_r|].
  rewrite zsum_cons. cbn [foldl fst snd fmap list_fmap length] in *.
  pose proof (Hc p q ltac:(set_solver)) as Hpq. rewrite add_spec by (apply fixed_range_pos; nia).
  rewrite saturate_id by (apply fixed_range_pos; nia). rewrite IH; [|set_solver|lia|lia].
  rewrite <- app_assoc, Z.add_assoc. done.
Qed.

(** What a parent that contributed [c] of [T] gets of one whole emission. *)
Definition share_of (T c : Z) : Z := default 0 (checked_div U96F32 c T).

Lemma share_of_spec T c : 0 <= c <= T -> T <= max_bits U96F32 ->
  0 <= share_of T c <= ONE32 /\ share_of T c * T <= c * ONE32.
Proof using FL.
  intros Hc HT. unfold share_of. pose proof (unit_pos U96F32). pose proof (unit_max U96F32).
  destruct (decide (T = 0)) as [->|]; [rewrite div_zero; cbn; lia|].
  rewrite div_spec by (try apply fixed_range_pos; lia).
  assert (Hq : 0 <= c * ONE32 / T <= ONE32) by (split; [apply Z.div_pos|apply Z.div_le_upper_bound]; nia).
  destruct (Z.leb_spec (c * ONE32 / T) (max_bits U96F32)); [cbn|lia].
  split; [done|]. pose proof (Z.mul_div_le (c * ONE32) T ltac:(lia)). lia.
Qed.

Lemma shares_of_sum T {A} (c : A -> Z) l : (forall x, x ∈ l -> 0 <= c x) -> zsum c l <= T -> T <= max_bits U96F32 ->
  zsum (fun x => share_of T (c x)) l <= ONE32.
Proof using FL.
  intros Hc Hs HT. assert (Hle : forall x, x ∈ l -> c x <= T).
  { intros x Hx. etrans; [|exact Hs]. by apply zsum_elem. }
  assert (Hm : zsum (fun x => T * share_of T (c x)) l <= zsum (fun x => ONE32 * c x) l).
  { apply zsum_le. intros x Hx. destruct (share_of_spec T (c x)); [|done|lia].
    split; [by apply Hc|by apply Hle]. }
  rewrite !zsum_mul in Hm. pose proof (unit_pos U96F32). pose proof (zsum_nonneg c l Hc).
  destruct (decide (T = 0)) as [E|]; [|nia].
  assert (Hz : zsum (fun x => share_of T (c x)) l <= zsum (fun _ => 0) l).
  { apply zsum_le. intros x Hx. rewrite E. unfold share_of. rewrite div_zero. done. }
  enough (zsum (fun _ : A => 0) l = 0) by lia. clear. induction l as [|x l IH]; [done|]. by rewrite zsum_cons, IH.
Qed.

(** The second loop splits the emission without gain or loss. *)
Lemma pay_parents_spec V ct T owned l : 0 <= V <= U64_MAX -> 0 <= ct <= ONE32 -> T <= max_bits U96F32 ->
  (forall x, x ∈ l -> 0 <= x.2 <= T) -> forall rem take acc, 0 <= take -> rem + take <= V * ONE32 ->
  V * zsum (fun x => share_of T x.2) l <= rem ->
  exists xs rem' take', length xs = length l /\ Forall (Z.le 0) xs /\ 0 <= rem' /\ 0 <= take' /\
    rem' + take' + zsum id xs = rem + take /\
    foldl (pay_parent (V * ONE32) ct T owned) (rem, take, acc) l
    = (rem', take', acc ++ zip l.*1 ((fun x => x / ONE32) <$> xs)).
Proof using FL.
  intros HV Hct HT. pose proof (unit_pos U96F32). pose proof (unit_max U96F32).
  destruct (whole96 V HV) as [_ RV]. pose proof (proj1 (range96 _) RV) as HVm.
  induction l as [|[q c] l IH]; intros Hl rem take acc Ht Hrt Hrem.
  { exists [], rem, take. rewrite zsum_nil in Hrem. cbn. rewrite (zsum_nil id), app_nil_r. repeat split; auto; lia. }
  rewrite zsum_cons in Hrem. cbn [snd] in Hrem.
  destruct (share_of_spec T c) as [Hsh _]; [apply (Hl (q, c)); set_solver|done|].
  assert (0 <= zsum (fun x => share_of T x.2) l).
  { apply zsum_nonneg. intros x Hx. destruct (share_of_spec T x.2); [apply Hl; set_solver|done|lia]. }
  cbn [foldl]. unfold pay_parent at 2. rewrite from_num_0. fold (share_of T c).
  set (sh := share_of T c) in *. clearbody sh.
  destruct (mul_share (V * ONE32) sh RV Hsh) as [Em Hb]. rewrite Em. clear Em.
  assert (Ee : V * ONE32 * sh / ONE32 = V * sh).
  { replace (V * ONE32 * sh) with (V * sh * ONE32) by ring. apply Z.div_mul. lia. }
  rewrite Ee in *. set (pe := V * sh) in *.
  rewrite (sub_spec _ rem pe), saturate_id by (apply fixed_range_pos; nia).
  assert (Etk : exists tk, 0 <= tk <= pe /\
    (if owned q then 0 else saturating_mul U96F32 ct (from_fixed U96F32 U96F32 pe)) = tk).
  { destruct (owned q); [exists 0; lia|]. rewrite from_fixed_spec by (apply fixed_range_pos; lia).
    rewrite Z.div_mul, saturate_id by (lia || apply fixed_range_pos; lia).
    assert (Hk : 0 <= ct * pe / ONE32 <= pe) by (split; [apply Z.div_pos|apply Z.div_le_upper_bound]; nia).
    rewrite mul_spec by (try apply fixed_range_pos; lia). rewrite saturate_id by (apply fixed_range_pos; lia). eauto. }
  destruct Etk as (tk & Htk & ->). rewrite (sub_spec _ pe tk), saturate_id by (apply fixed_range_pos; lia).
  rewrite add_spec, saturate_id by (apply fixed_range_pos; nia).
  destruct (IH ltac:(intros; apply Hl; set_solver) (rem - pe) (take + tk) (acc ++ [(q, tou64 (pe - tk))]))
    as (xs & rem' & take' & E1 & E2 & E3 & E4 & E5 & E6); [lia|lia|nia|].
  exists (pe - tk :: xs), rem', take'. rewrite zsum_cons. cbn [length fst fmap list_fmap zip_with id].
  split; [by f_equal|]. split; [constructor; [lia|done]|]. split; [done|]. split; [done|]. split; [unfold id in *; lia|].
  rewrite E6, <- app_assoc. cbn [app]. repeat f_equal.
  rewrite to_num_spec by (try apply fixed_range_pos; lia).
  assert (0 <= (pe - tk) / ONE32 <= V).
  { split; [apply Z.div_pos; lia|apply Z.div_le_upper_bound; lia]. }
  unfold clamp, int_min, int_max. lia.
Qed.

(** Rounding every part of a sum down loses less than one for each part. *)
Lemma floors_sum u l : 0 < u -> u * zsum (fun x => x / u) l <= zsum id l <= u * zsum (fun x => x / u) l + (u - 1) * Z.of_nat (length l).
Proof using.
  intros Hu. induction l as [|x l IH]; [rewrite !zsum_nil; cbn; lia|]. rewrite !zsum_cons. cbn [length]. unfold id at 1.
  unfold id in *. pose proof (Z.div_mod x u). pose proof (Z.mod_pos_bound x u). lia.
Qed.

Lemma remaining_range l : fixed_range U96F32 (remaining_proportion l).
Proof using FL.
  unfold remaining_proportion. assert (H : fixed_range U96F32 (asfloat 1)) by apply asfloat_range. revert H.
  generalize (asfloat 1). induction l as [|[p q] l IH]; intros a Ha; cbn [foldl]; [done|].
  apply IH. apply sub_range; [done|]. apply safe_div_range; apply asfloat_range.
Qed.

Lemma self_contribution_range h n s : 0 <= get_self_contribution h n s <= U64_MAX.
Proof using FL.
  apply tou64_range. apply add_range; repeat apply mul_range; try apply asfloat_range; try apply remaining_range.
  unfold get_tao_weight. apply safe_div_range; apply asfloat_range.
Qed.

Lemma payout_facts V (hs : list AccountId) (h : AccountId) xs y : 0 <= V <= U64_MAX -> length xs = length hs ->
  Forall (Z.le 0) xs -> 0 <= y -> y + zsum id xs = V * ONE32 ->
  let tuples := zip hs ((fun x => x / ONE32) <$> xs) ++ [(h, tou64 y)] in
  tuples.*1 = hs ++ [h] /\ Forall (Z.le 0) tuples.*2 /\ V - Z.of_nat (length hs) <= zsum snd tuples <= V.
Proof using FL.
  intros HV Hlen Hxs Hy Hsum tuples. subst tuples. pose proof (unit_pos U96F32) as Hu.
  pose proof (proj1 (range96 _) (proj2 (whole96 V HV))) as HVm.
  assert (0 <= zsum id xs) by (apply zsum_nonneg; intros x Hx; by eapply Forall_forall in Hxs).
  assert (Hy' : tou64 y = y / ONE32).
  { rewrite to_num_spec by (try apply fixed_range_pos; lia).
    assert (0 <= y / ONE32 <= V) by (split; [apply Z.div_pos; lia|apply Z.div_le_upper_bound; lia]).
    unfold clamp, int_min, int_max. lia. }
  rewrite Hy', !fmap_app, fst_zip, snd_zip by (rewrite length_fmap; lia). cbn [fmap list_fmap fst snd].
  split; [done|]. split.
  { apply Forall_app. split; [|constructor; [apply Z.div_pos; lia|done]].
    rewrite Forall_fmap. eapply Forall_impl; [exact Hxs|]. intros x Hx. cbn. apply Z.div_pos; lia. }
  rewrite zsum_app, zsum_cons, zsum_nil. cbn [snd].
  assert (E : zsum snd (zip hs ((fun x => x / ONE32) <$> xs)) = zsum (fun x => x / ONE32) xs).
  { pose proof (zsum_fmap id snd (zip hs ((fun x => x / ONE32) <$> xs))) as E.
    rewrite snd_zip, zsum_fmap in E by (rewrite length_fmap; lia). done. }
  rewrite E. pose proof (floors_sum ONE32 (y :: xs) Hu) as Hf. rewrite !zsum_cons in Hf.
  cbn [length] in Hf. rewrite <- Hlen. unfold id in *. nia.
Qed.

(** A validator's dividends are passed on to its parents without gain or
    loss. The tuples are for its parents, in order, and then for itself; none
    is negative; their sum is at most the dividends, and it misses them by at
    most one unit for each parent, which is what rounding every part down to a
    whole number can lose. In particular the childkey take moves dividends
    from the parents to the child but creates none. *)
Theorem parent_dividends_conserved (hotkey : AccountId) (n dividends : Z) (s : St) :
  dividends_typed hotkey n s -> 0 <= dividends <= U64_MAX ->
  let tuples := get_parent_child_dividends_distribution hotkey n dividends s in
  tuples.*1 = (get_parents hotkey n s).*2 ++ [hotkey] /\ Forall (Z.le 0) tuples.*2 /\
  dividends - Z.of_nat (length (get_parents hotkey n s)) <= zsum snd tuples <= dividends.
Proof using FL.
  intros [] HV. set (ps := get_parents hotkey n s) in *. pose proof (unit_pos U96F32).
  assert (Hc : forall p q, (p, q) ∈ ps -> 0 <= parent_contribution n s p q <= 2 * (U64_MAX * ONE32)).
  { intros p q Hp. apply contribution_bound; eauto. }
  unfold get_parent_child_dividends_distribution, parent_contributions. fold ps.
  destruct (whole96 dividends HV) as [-> RV]. rewrite from_num_0. pose proof (proj1 (range96 _) RV) as HVm.
  pose proof (self_contribution_range hotkey n s) as Hself.
  destruct (whole96 (get_self_contribution hotkey n s) Hself) as [-> RS].
  rewrite add_spec, Z.add_0_l, saturate_id by (done || apply fixed_range_pos; pose proof (min_max U96F32); lia).
  assert (Hmax : get_self_contribution hotkey n s * ONE32 + 2 * (U64_MAX * ONE32) * Z.of_nat (length ps) <= max_bits U96F32).
  { transitivity (U64_MAX * ONE32 + 2 * (U64_MAX * ONE32) * 2 ^ 30); [nia|vm_compute; congruence]. }
  rewrite parent_contributions_spec by (done || nia). set (C := fun x => parent_contribution n s x.1 x.2).
  set (T := _ + zsum C ps).
  assert (HC : forall x, x ∈ ps -> 0 <= C x) by (intros [p q] Hx; by apply Hc).
  assert (HsC : 0 <= zsum C ps <= 2 * (U64_MAX * ONE32) * Z.of_nat (length ps)).
  { split; [by apply zsum_nonneg|]. apply zsum_bounded. intros [p q] Hx. by apply Hc. }
  assert (HT : zsum C ps <= T <= max_bits U96F32) by (unfold T; nia).
  edestruct (pay_parents_spec dividends (safe_div U96F32 (asfloat (get_childkey_take hotkey n s)) (asfloat U16_MAX)) T
    (fun parent => bool_decide (get_owning_coldkey_for_hotkey parent s = get_owning_coldkey_for_hotkey hotkey s))
    ((fun x => (x.2, C x)) <$> ps)) as (xs & rem & take & E1 & E2 & E3 & E4 & E5 & ->);
    [done|by apply take_range|lia| |lia|lia| |].
  - intros x (y & -> & Hy)%list_elem_of_fmap. cbn [snd]. pose proof (HC y Hy). pose proof (zsum_elem C y ps HC Hy). lia.
  - rewrite zsum_fmap. cbn [snd]. pose proof (shares_of_sum T C ps HC) as Hs. nia.
  - rewrite length_fmap in E1. replace ((fun x => (x.2, C x)) <$> ps).*1 with ps.*2
      by (rewrite <- list_fmap_compose; done).
    assert (Hr : 0 <= rem + take <= dividends * ONE32).
    { assert (0 <= zsum id xs) by (apply zsum_nonneg; intros x Hx; by eapply Forall_forall in E2). lia. }
    rewrite add_spec, saturate_id by (apply fixed_range_pos; lia). cbn [app].
    pose proof (payout_facts dividends ps.*2 hotkey xs (rem + take)) as P. rewrite length_fmap in P. apply P; try done; lia.
Qed.

End Dividends.
