(* ===== verification/Coinbase.v ===== *)
(** * The coinbase (src/pallets/subtensor/src/coinbase/)

    Every block emits TAO into the pools of the subnets in proportion to their
    moving prices, and alpha into and out of them (run_coinbase.rs). What is
    emitted out of the pools is gathered until the subnet's epoch, which says
    what each hotkey earned; it is then paid to the owner, the miners, the
    validators and their nominators. [block_step] (block_step.rs) composes the
    coinbase with the adjustment of the registration terms before it and the
    pending children after it. *)

From S2P Require Import Prelude Frame Fixed SharePool Storage Misc Uids Reserves Children Staking StakeWeights.
From S2P Require Import BlockStep EpochMath Weights Emission Dividends.
From stdpp Require Import prelude gmap list fin_maps.
From Stdlib Require Import ZArith Lia.
#[local] Open Scope Z_scope.
#[local] Open Scope monad_scope.

(** What the epoch component promises the coinbase: for an amount of alpha, the
    incentive and the dividend each hotkey earned (src/pallets/subtensor/src/epoch/run_epoch.rs). *)
Class YumaEpoch {FS : FrameSystem} (W : Type) := {
  epoch : Z -> Z -> Storage W -> list (AccountId * Z * Z) * Storage W;
}.

(** It writes the consensus of the subnet: the vectors by uid and the bonds. *)
Class YumaEpochLaws {FS : FrameSystem} (W : Type) {YE : YumaEpoch W} := {
  epoch_frame n e (s : Storage W) : exists vecs flags bonds,
    (epoch n e s).2 = s <| net_vecs := vecs |> <| net_bool_vecs := flags |> <| Bonds := bonds |>;
}.

(** The price of a pool is a [U96F32]. *)
Class PriceLaws {FS : FrameSystem} {F : SubstrateFixed} (W : Type) {SW : SwapHandler W} := {
  price_range (s : Storage W) n : fixed_range U96F32 (current_alpha_price s n);
}.

(** A read of the storage that no swap, stake change, weight or epoch disturbs. *)
Class Steady {FS : FrameSystem} {W A : Type} (g : Storage W -> A) := {
  sy_net i n v s : i <> NetNum.SubnetTaoInEmission -> g (put_net i n v s) = g s;
  sy_total_stake v s : g (put_value Value.TotalStake v s) = g s;
  sy_keys f s : g (s <| net_key_nums ::= f |>) = g s;
  sy_alpha f s : g (s <| Alpha ::= f |>) = g s;
  sy_lists f s : g (s <| key_lists ::= f |>) = g s;
  sy_epoch v b l s : g (s <| net_vecs := v |> <| net_bool_vecs := b |> <| Bonds := l |>) = g s;
  sy_weights f s : g (s <| Weights ::= f |>) = g s;
  sy_last_update n u b s : g (set_last_update_for_uid n u b s) = g s;
  sy_commits f s : g (s <| CRV3WeightCommits ::= f |>) = g s;
  sy_event e s : g (deposit_event e s) = g s;
  sy_world w s : g (s <| world := w |>) = g s;
}.

Section Coinbase.
Context {FS : FrameSystem} {Cfg : SubtensorConfig} {SI : StorageIter} {W : Type}.
Context {Env : SubtensorEnv W} {SW : SwapHandler W} {F : SubstrateFixed} {FT : FixedTranscendental}.
Context {WE : WeightsEnv W} {BO : BTreeOrder} {YE : YumaEpoch W}.
(** [RuntimeOrigin::signed] *)
Context (signed : AccountId -> Origin).
Abbreviation St := (Storage W).
Implicit Types (s : St) (netuid : Z) (hotkey : AccountId).

Definition get_float_subnet_owner_cut (s : St) : Z :=
  safe_div U96F32 (asfloat (get_value Value.SubnetOwnerCut s)) (asfloat U16_MAX).

Definition get_hotkey_take_float (hotkey : AccountId) (s : St) : Z :=
  safe_div U96F32 (asfloat (get_hotkey_take hotkey s)) (asfloat U16_MAX).

(** ** Paying out an epoch *)

(** [clear_prefix(netuid, u32::MAX, None)] of a double map. *)
Definition clear_prefix (i : NetKeyNum.NetKeyNum) (netuid : Z) (s : St) : St :=
  s <| net_key_nums ::= filter (fun x : NetKeyNum.NetKeyNum * Z * AccountId * Z => ~ (x.1.1.1 = i /\ x.1.1.2 = netuid)) |>.

Definition pay_owner_cut (netuid owner_cut : Z) (s : St) : St :=
  match SubnetOwner s !! netuid, SubnetOwnerHotkey s !! netuid with
  | Some owner_coldkey, Some owner_hotkey =>
      (increase_stake_for_hotkey_and_coldkey_on_subnet owner_hotkey owner_coldkey netuid owner_cut s).2
  | _, _ => s
  end.

(** A miner's incentive; that of the subnet owner's hotkey is burned. *)
Definition pay_incentive (netuid : Z) (s : St) (entry : AccountId * Z) : St :=
  let '(hotkey, incentive) := entry in
  if bool_decide (SubnetOwnerHotkey s !! netuid = Some hotkey) then s
  else (increase_stake_for_hotkey_and_coldkey_on_subnet hotkey (get_owning_coldkey_for_hotkey hotkey s)
          netuid incentive s).2.

(** [Item::<T>::mutate(netuid, &hotkey, |divs| *divs = divs.saturating_add(..))] *)
Definition record_dividends (i : NetKeyNum.NetKeyNum) (netuid : Z) (hotkey : AccountId) (amount : Z) (s : St) : St :=
  put_net_key i netuid hotkey (sat_add U64_MAX (get_net_key i netuid hotkey s) amount) s.

Definition pay_alpha_dividends (netuid : Z) (s : St) (entry : AccountId * Z) : St :=
  let '(hotkey, alpha_divs) := entry in
  let alpha_take := saturating_mul U96F32 (get_hotkey_take_float hotkey s) alpha_divs in
  let alpha_divs := saturating_sub U96F32 alpha_divs alpha_take in
  let s := (increase_stake_for_hotkey_and_coldkey_on_subnet hotkey (get_owning_coldkey_for_hotkey hotkey s)
              netuid (tou64 alpha_take) s).2 in
  let s := increase_stake_for_hotkey_on_subnet hotkey netuid (tou64 alpha_divs) s in
  let s := record_dividends NetKeyNum.AlphaDividendsPerSubnet netuid hotkey (tou64 alpha_divs) s in
  let total_hotkey_alpha := get_net_key NetKeyNum.TotalHotkeyAlpha netuid hotkey s in
  put_net_key NetKeyNum.TotalHotkeyAlphaLastEpoch netuid hotkey total_hotkey_alpha s.

Definition pay_tao_dividends (netuid : Z) (s : St) (entry : AccountId * Z) : St :=
  let '(hotkey, root_tao) := entry in
  let tao_take := saturating_mul U96F32 (get_hotkey_take_float hotkey s) root_tao in
  let root_tao := saturating_sub U96F32 root_tao tao_take in
  let '(validator_stake, s) :=
    increase_stake_for_hotkey_and_coldkey_on_subnet hotkey (get_owning_coldkey_for_hotkey hotkey s)
      0 (tou64 tao_take) s in
  let s := increase_stake_for_hotkey_on_subnet hotkey 0 (tou64 root_tao) s in
  let s := record_dividends NetKeyNum.TaoDividendsPerSubnet netuid hotkey (tou64 root_tao) s in
  mutate_net NetNum.SubnetTAO 0
    (fun total => sat_add U64_MAX (sat_add U64_MAX total validator_stake) (tou64 root_tao)) s.

Definition distribute_dividends_and_incentives (netuid owner_cut : Z)
    (incentives alpha_dividends tao_dividends : gmap AccountId Z) (s : St) : St :=
  let s := pay_owner_cut netuid owner_cut s in
  let s := foldl (pay_incentive netuid) s (btree_iter incentives) in
  let s := clear_prefix NetKeyNum.AlphaDividendsPerSubnet netuid s in
  let s := foldl (pay_alpha_dividends netuid) s (btree_iter alpha_dividends) in
  let s := clear_prefix NetKeyNum.TaoDividendsPerSubnet netuid s in
  foldl (pay_tao_dividends netuid) s (btree_iter tao_dividends).

(** [iter().sum::<u64>()], which wraps around. *)
Definition sum_u64 (l : list Z) : Z := foldr Z.add 0 l mod 2 ^ 64.

Definition drain_pending_emission (netuid pending_alpha pending_tao pending_swapped owner_cut : Z) (s : St) : St :=
  let tao_weight := get_tao_weight s in
  let '(hotkey_emission, s) := epoch netuid (sat_add U64_MAX pending_alpha pending_swapped) s in
  let incentive_sum := sum_u64 (map (fun '(_, incentive, _) => incentive) hotkey_emission) in
  let pending_validator_alpha :=
    if negb (incentive_sum =? 0)
    then sat_sub (sat_add U64_MAX pending_alpha pending_swapped / 2) pending_swapped
    else pending_alpha in
  let '(incentives, (alpha_dividends, tao_dividends)) :=
    calculate_dividend_and_incentive_distribution netuid pending_tao pending_validator_alpha
      hotkey_emission tao_weight s in
  distribute_dividends_and_incentives netuid owner_cut incentives alpha_dividends tao_dividends s.

(** ** The coinbase *)

(** Step 3 for one subnet: the TAO and the alpha to put into its pool and the
    alpha to emit out of it, with the storage the emission for the subnet's
    issuance leaves behind. *)
Definition subnet_terms (block_emission total_moving_prices netuid : Z) (s : St) : Z * Z * Z * St :=
  let price_i := current_alpha_price s netuid in
  let moving_price_i := get_moving_alpha_price netuid s in
  let tao_in_i := default (asfloat 0)
    (checked_div U96F32 (saturating_mul U96F32 block_emission moving_price_i) total_moving_prices) in
  let '(emission, s) := get_block_emission_for_issuance (get_alpha_issuance netuid s) s in
  let alpha_emission_i := asfloat (default 0 emission) in
  let alpha_in_i := Z.min (default alpha_emission_i (checked_div U96F32 tao_in_i price_i)) alpha_emission_i in
  let alpha_out_i := alpha_emission_i in
  let tao_in_i :=
    if negb (get_network_registration_allowed netuid s) && negb (get_network_pow_registration_allowed netuid s)
    then asfloat 0 else tao_in_i in
  (tao_in_i, alpha_in_i, alpha_out_i, s).

Record Terms : Type := mkTerms { tao_in : gmap Z Z; alpha_in : gmap Z Z; alpha_out : gmap Z Z }.

Definition compute_terms (block_emission total_moving_prices : Z) (netuids : list Z) (s : St) : Terms * St :=
  foldl (fun '(terms, s) netuid_i =>
      let '(tao_in_i, alpha_in_i, alpha_out_i, s) := subnet_terms block_emission total_moving_prices netuid_i s in
      (mkTerms (<[netuid_i := tao_in_i]> (tao_in terms)) (<[netuid_i := alpha_in_i]> (alpha_in terms))
         (<[netuid_i := alpha_out_i]> (alpha_out terms)), s))
    (mkTerms ∅ ∅ ∅, s) netuids.

Definition add_net (i : NetNum.NetNum) (netuid amount : Z) (s : St) : St :=
  mutate_net i netuid (fun total => sat_add U64_MAX total amount) s.
Definition add_value (i : Value.Value) (amount : Z) (s : St) : St :=
  mutate_value i (fun total => sat_add U64_MAX total amount) s.

(** Step 4: the injection into one pool. *)
Definition inject (terms : Terms) (s : St) (netuid_i : Z) : St :=
  let alpha_in_i := tou64 (default (asfloat 0) (alpha_in terms !! netuid_i)) in
  let s := put_net NetNum.SubnetAlphaInEmission netuid_i alpha_in_i s in
  let s := add_net NetNum.SubnetAlphaIn netuid_i alpha_in_i s in
  let alpha_out_i := tou64 (default (asfloat 0) (alpha_out terms !! netuid_i)) in
  let s := put_net NetNum.SubnetAlphaOutEmission netuid_i alpha_out_i s in
  let s := add_net NetNum.SubnetAlphaOut netuid_i alpha_out_i s in
  let tao_in_i := tou64 (default (asfloat 0) (tao_in terms !! netuid_i)) in
  let s := put_net NetNum.SubnetTaoInEmission netuid_i tao_in_i s in
  let s := add_net NetNum.SubnetTAO netuid_i tao_in_i s in
  let s := add_value Value.TotalStake tao_in_i s in
  let s := add_value Value.TotalIssuance tao_in_i s in
  s <| world := adjust_protocol_liquidity s netuid_i tao_in_i alpha_in_i |>.

(** Step 5: the owner's cut of what one subnet emits. *)
Definition cut_owner (cut_percent : Z) (acc : Terms * St) (netuid_i : Z) : Terms * St :=
  let '(terms, s) := acc in
  let alpha_out_i := default (asfloat 0) (alpha_out terms !! netuid_i) in
  let owner_cut_i := saturating_mul U96F32 alpha_out_i cut_percent in
  let terms := mkTerms (tao_in terms) (alpha_in terms)
    (<[netuid_i := saturating_sub U96F32 alpha_out_i owner_cut_i]> (alpha_out terms)) in
  (terms, add_net NetNum.PendingOwnerCut netuid_i (tou64 owner_cut_i) s).

(** Step 6: the root's share of the emission is sold for TAO. *)
Definition split_root (terms : Terms) (s : St) (netuid_i : Z) : St :=
  let alpha_out_i := default (asfloat 0) (alpha_out terms !! netuid_i) in
  let root_tao := asfloat (get_net NetNum.SubnetTAO 0 s) in
  let alpha_issuance := asfloat (get_alpha_issuance netuid_i s) in
  let tao_weight := saturating_mul U96F32 root_tao (get_tao_weight s) in
  let root_proportion := default (asfloat 0)
    (checked_div U96F32 tao_weight (saturating_add U96F32 tao_weight alpha_issuance)) in
  let root_alpha :=
    saturating_mul U96F32 (saturating_mul U96F32 root_proportion alpha_out_i) (from_literal U96F32 5 10) in
  let pending_alpha := saturating_sub U96F32 alpha_out_i root_alpha in
  match swap_alpha_for_tao netuid_i (tou64 root_alpha) min_price s with
  | Ok (ok_result, s) =>
      let root_tao := amount_paid_out ok_result in
      let s := add_net NetNum.PendingAlphaSwapped netuid_i (tou64 root_alpha) s in
      let s := add_net NetNum.PendingEmission netuid_i (tou64 pending_alpha) s in
      add_net NetNum.PendingRootDivs netuid_i root_tao s
  | Err _ => s
  end.

(** Step 8: a subnet whose epoch is due is drained, the others wait. *)
Definition take_net (i : NetNum.NetNum) (netuid : Z) (s : St) : Z * St := (get_net i netuid s, put_net i netuid 0 s).

Definition run_epoch_if_due (current_block : Z) (s : St) (netuid : Z) : St :=
  if should_run_epoch netuid current_block s then
    let s := reveal_crv3_commits signed netuid s in
    let s := put_net NetNum.BlocksSinceLastStep netuid 0 s in
    let s := put_net NetNum.LastMechansimStepBlock netuid current_block s in
    let '(pending_alpha, s) := take_net NetNum.PendingEmission netuid s in
    let '(pending_tao, s) := take_net NetNum.PendingRootDivs netuid s in
    let '(pending_swapped, s) := take_net NetNum.PendingAlphaSwapped netuid s in
    let '(owner_cut, s) := take_net NetNum.PendingOwnerCut netuid s in
    drain_pending_emission netuid pending_alpha pending_tao pending_swapped owner_cut s
  else add_net NetNum.BlocksSinceLastStep netuid 1 s.

Definition run_coinbase (block_emission : Z) (s : St) : St :=
  let current_block := get_current_block_as_u64 s in
  let subnets := filter (fun netuid => netuid <> 0) (get_all_subnet_netuids s) in
  let subnets_to_emit_to := filter (fun netuid => is_Some (FirstEmissionBlockNumber s !! netuid)) subnets in
  let total_moving_prices :=
    foldl (fun total netuid_i => saturating_add U96F32 total (get_moving_alpha_price netuid_i s))
      (asfloat 0) subnets_to_emit_to in
  let '(terms, s) := compute_terms block_emission total_moving_prices subnets_to_emit_to s in
  let s := foldl (inject terms) s subnets_to_emit_to in
  let cut_percent := get_float_subnet_owner_cut s in
  let '(terms, s) := foldl (cut_owner cut_percent) (terms, s) subnets_to_emit_to in
  let s := foldl (split_root terms) s subnets_to_emit_to in
  let s := foldl (fun s netuid_i => update_moving_price netuid_i s) s subnets_to_emit_to in
  foldl (run_epoch_if_due current_block) s subnets.

(** ** The block step (block_step.rs) *)

Definition block_step (s : St) : St :=
  let block_number := get_current_block_as_u64 s in
  let s := adjust_registration_terms_for_networks s in
  let '(emission, s) := get_block_emission s in
  let block_emission := asfloat (default 0 emission) in
  let s := run_coinbase block_emission s in
  try_set_pending_children block_number s.


(** ** What the coinbase leaves alone *)
Section Steady.
Context {YL : YumaEpochLaws W} {A : Type} (g : St -> A) {SY : Steady g}.

Lemma steady_add_net i n a s : i <> NetNum.SubnetTaoInEmission -> g (add_net i n a s) = g s.
Proof using SY. intros Hi. unfold add_net. rewrite mutate_net_put. by apply sy_net. Qed.

Lemma steady_fold {B} (f : St -> B -> St) l s : (forall s x, g (f s x) = g s) -> g (foldl f s l) = g s.
Proof using. intros Hf. revert s. induction l as [|x l IH]; intros s; cbn; [done|]. by rewrite IH. Qed.

Lemma steady_decrease_tao n a s : g (decrease_provided_tao_reserve n a s) = g s.
Proof using SY. unfold decrease_provided_tao_reserve. cbv zeta. destruct (_ =? 0); by rewrite !sy_net. Qed.

Lemma steady_sell n a limit s r s' : swap_alpha_for_tao n a limit s = Ok (r, s') -> g s' = g s.
Proof using SY.
  intros H. destruct (Z.eqb_spec (get_net NetNum.SubnetMechanism n s) 1) as [Em|Em].
  - destruct (swap_alpha_for_tao_ok _ _ _ _ _ _ Em H) as (w & _ & ->). unfold after_sell.
    rewrite mutate_net_put, sy_net, mutate_value_put, sy_total_stake by done.
    rewrite steady_decrease_tao, !mutate_net_put, !sy_net by done. apply sy_world.
  - unfold swap_alpha_for_tao in H. apply bind_ok in H as (? & ? & [= -> ->]%gets_ok & H).
    rewrite (proj2 (Z.eqb_neq _ _) Em) in H. by monad_inv H.
Qed.

Lemma steady_increase h c n a s : g (increase_stake_for_hotkey_and_coldkey_on_subnet h c n a s).2 = g s.
Proof using SY.
  apply increase_frame.
  - intros i v x _. apply sy_keys.
  - intros i x _. apply sy_keys.
  - intros m x. apply sy_alpha.
  - intros l x. apply sy_lists.
Qed.

Lemma steady_increase_all h n a s : g (increase_stake_for_hotkey_on_subnet h n a s) = g s.
Proof using SY.
  unfold increase_stake_for_hotkey_on_subnet, update_value_for_all. cbn. destruct (negb _); apply sy_keys.
Qed.

Lemma steady_distribute n cut i a t s : g (distribute_dividends_and_incentives n cut i a t s) = g s.
Proof using SY.
  unfold distribute_dividends_and_incentives. cbv zeta.
  rewrite steady_fold.
  2: { intros x [h d]. unfold pay_tao_dividends. cbv zeta.
    destruct (increase_stake_for_hotkey_and_coldkey_on_subnet _ _ _ _ _) as [v s1] eqn:E.
    rewrite mutate_net_put, sy_net by done. unfold record_dividends. etrans; [apply sy_keys|].
    rewrite steady_increase_all. change s1 with (v, s1).2. rewrite <- E. apply steady_increase. }
  etrans; [apply sy_keys|]. rewrite steady_fold.
  2: { intros x [h d]. unfold pay_alpha_dividends. cbv zeta. etrans; [apply sy_keys|].
    unfold record_dividends. etrans; [apply sy_keys|]. rewrite steady_increase_all. apply steady_increase. }
  etrans; [apply sy_keys|]. rewrite steady_fold.
  2: { intros x [h d]. unfold pay_incentive. case_bool_decide; [done|]. apply steady_increase. }
  unfold pay_owner_cut. destruct (SubnetOwner s !! n); [|done]. destruct (SubnetOwnerHotkey s !! n); [|done].
  apply steady_increase.
Qed.

Lemma steady_drain n a t sw c s : g (drain_pending_emission n a t sw c s) = g s.
Proof using SY YL.
  unfold drain_pending_emission. cbv zeta.
  destruct (epoch n _ s) as [em s1] eqn:E. destruct (epoch_frame n (sat_add U64_MAX a sw) s) as (v & b & l & E1).
  rewrite E in E1. cbn in E1. subst s1.
  destruct (calculate_dividend_and_incentive_distribution _ _ _ _ _ _) as [i [ad td]].
  by rewrite steady_distribute, sy_epoch.
Qed.

Lemma steady_reveal n s : g (reveal_crv3_commits signed n s) = g s.
Proof using SY.
  assert (Hrm : forall e x, g (remove_crv3_commits n e x) = g x) by (intros; apply sy_commits).
  unfold reveal_crv3_commits. cbv zeta. set (s1 := foldl _ s _).
  assert (E1 : g s1 = g s) by (apply steady_fold; intros x [e l]; by destruct (_ <? _)).
  destruct (_ <? 2); [done|]. rewrite steady_fold; [by rewrite Hrm|].
  intros x [[who commit] round]. unfold reveal_crv3_entry. destruct (open_commit commit round x) as [p|]; [|done].
  destruct (do_set_weights _ _ _ _ _ x) as [[[] s2]|err] eqn:Es; [|done].
  apply do_set_weights_ok in Es as (hk & uid & _ & _ & [= ->]). rewrite sy_event. unfold weights_written.
  rewrite sy_event. cbv zeta. destruct (negb _); rewrite ?sy_last_update; apply sy_weights.
Qed.

Lemma steady_epoch b s n : g (run_epoch_if_due b s n) = g s.
Proof using SY YL.
  unfold run_epoch_if_due, take_net. destruct (should_run_epoch n b s); [|by rewrite steady_add_net].
  by rewrite steady_drain, !sy_net, steady_reveal.
Qed.

Lemma steady_root terms s n : g (split_root terms s n) = g s.
Proof using SY.
  unfold split_root. cbv zeta. destruct (swap_alpha_for_tao _ _ _ s) as [[r s1]|e] eqn:E; [|done].
  rewrite !steady_add_net by done. by eapply steady_sell.
Qed.

Lemma steady_cut c terms s l : g (foldl (cut_owner c) (terms, s) l).2 = g s.
Proof using SY.
  revert terms s. induction l as [|n l IH]; intros terms s; cbn [foldl]; [done|].
  unfold cut_owner at 2. cbv zeta. by rewrite IH, steady_add_net.
Qed.
End Steady.

#[local] Instance total_issuance_steady : Steady (W := W) (get_value Value.TotalIssuance).
Proof using.
  split; try done; [|intros; by apply set_last_update_frame]. intros v s. by rewrite get_put_value.
Qed.
#[local] Instance tao_in_emission_steady n : Steady (W := W) (get_net NetNum.SubnetTaoInEmission n).
Proof using.
  split; try done; [|intros; by apply set_last_update_frame].
  intros i m v s Hi. rewrite get_put_net. by rewrite decide_False by naive_solver.
Qed.
#[local] Instance moving_price_steady : Steady (W := W) (fun s => (SubnetMovingPrice s, SubnetMovingAlpha s)).
Proof using.
  split; try done. intros. by apply (set_last_update_frame (fun s => (SubnetMovingPrice s, SubnetMovingAlpha s))).
Qed.

(** ** Injection of TAO *)
Context {FL : SubstrateFixedLaws}.
Abbreviation ONE32 := (unit_ U96F32).

(** The subnets the coinbase emits to. *)
Definition emitting (s : St) : list Z :=
  filter (fun netuid => is_Some (FirstEmissionBlockNumber s !! netuid))
    (filter (fun netuid => netuid <> 0) (get_all_subnet_netuids s)).

(** Moving prices, and the weight of a new price, are between 0 and 1. *)
Record prices_ok (s : St) : Prop := {
  pr_price : forall n p, SubnetMovingPrice s !! n = Some p -> 0 <= p <= unit_ I96F32;
  pr_alpha : 0 <= get_moving_alpha s <= unit_ I96F32;
}.

(** What subnet [n] gets of an emission of [e] by the definition: its part in
    proportion to its moving price, if it is open for registrations. *)
Definition open_for_registration (n : Z) (s : St) : bool :=
  get_network_registration_allowed n s || get_network_pow_registration_allowed n s.
Definition proportional_tao (e total n : Z) (s : St) : Z :=
  if open_for_registration n s then e * get_moving_alpha_price n s / total else 0.

Lemma price_bounds n s : prices_ok s -> 0 <= get_moving_alpha_price n s <= ONE32.
Proof using FL.
  intros [Hp _]. pose proof (unit_pos U96F32). unfold get_moving_alpha_price. rewrite from_num_1.
  destruct (is_root n); [lia|]. destruct (_ =? 0); [lia|].
  assert (Hd : 0 <= default 0 (SubnetMovingPrice s !! n) <= unit_ I96F32).
  { destruct (SubnetMovingPrice s !! n) as [p|] eqn:E; cbn; [by eapply Hp|pose proof (unit_pos I96F32); lia]. }
  rewrite from_fixed_spec by (apply fixed_range_pos; pose proof (unit_max I96F32); lia).
  change ONE32 with (unit_ I96F32). rewrite Z.div_mul by (pose proof (unit_pos I96F32); lia).
  rewrite saturate_id; [done|]. apply fixed_range_pos. pose proof (unit_max U96F32). change ONE32 with (unit_ I96F32) in *. lia.
Qed.

Lemma price_total s L : prices_ok s -> Z.of_nat (length L) <= 2 ^ 16 ->
  foldl (fun total n => saturating_add U96F32 total (get_moving_alpha_price n s)) (asfloat 0) L
  = zsum (fun n => get_moving_alpha_price n s) L /\
  0 <= zsum (fun n => get_moving_alpha_price n s) L <= ONE32 * 2 ^ 16.
Proof using FL.
  intros Hs HL. pose proof (unit_pos U96F32). rewrite from_num_0.
  set (f := fun n => get_moving_alpha_price n s). assert (Hf : forall n, 0 <= f n <= ONE32) by (intros; by apply price_bounds).
  assert (Hb : 0 <= zsum f L <= ONE32 * Z.of_nat (length L)).
  { split; [apply zsum_nonneg|apply zsum_bounded]; intros; apply Hf. }
  split; [|nia]. assert (Hmax : zsum f L <= max_bits U96F32) by (transitivity (ONE32 * 2 ^ 16); [nia|vm_compute; congruence]).
  assert (G : forall l a, 0 <= a -> a + zsum f l <= max_bits U96F32 ->
    foldl (fun total n => saturating_add U96F32 total (f n)) a l = a + zsum f l).
  { clear HL Hb Hmax. induction l as [|n l IH]; intros a Ha Hm; cbn [foldl]; [rewrite zsum_nil; lia|].
    rewrite zsum_cons in *. pose proof (Hf n). assert (0 <= zsum f l) by (apply zsum_nonneg; intros; apply Hf).
    rewrite add_spec, saturate_id by (apply fixed_range_pos; lia). rewrite IH; lia. }
  rewrite G; lia.
Qed.

(** Computing the terms writes at most the block emission item. *)
Record same_inputs (s s' : St) : Prop := {
  si_issuance : get_value Value.TotalIssuance s' = get_value Value.TotalIssuance s;
  si_nets : net_nums s' = net_nums s;
  si_flags : net_flags s' = net_flags s;
  si_prices : SubnetMovingPrice s' = SubnetMovingPrice s;
  si_alpha : SubnetMovingAlpha s' = SubnetMovingAlpha s;
}.

Lemma same_inputs_trans s1 s2 s3 : same_inputs s1 s2 -> same_inputs s2 s3 -> same_inputs s1 s3.
Proof using. intros [] []. split; congruence. Qed.

Lemma emission_same_inputs i s : same_inputs s (get_block_emission_for_issuance i s).2.
Proof using.
  unfold get_block_emission_for_issuance. cbv zeta. destruct (_ <=? _); [done|].
  destruct (emission_residual _); [|done]. destruct (negb _); [|done].
  split; try done. cbn [snd]. by rewrite get_put_value.
Qed.

Lemma same_inputs_price n s s' : same_inputs s s' -> get_moving_alpha_price n s' = get_moving_alpha_price n s.
Proof using. intros []. unfold get_moving_alpha_price, get_net. by rewrite si_nets0, si_prices0. Qed.
Lemma same_inputs_tao e t n s s' : same_inputs s s' -> proportional_tao e t n s' = proportional_tao e t n s.
Proof using.
  intros H. unfold proportional_tao. rewrite (same_inputs_price n s s' H). destruct H.
  unfold open_for_registration, get_network_registration_allowed, get_network_pow_registration_allowed, get_flag.
  by rewrite si_flags0.
Qed.

Lemma emission_part e p total : 0 <= e <= U64_MAX -> 0 <= p <= ONE32 -> p <= total <= max_bits U96F32 ->
  tou64 (default 0 (checked_div U96F32 (saturating_mul U96F32 (asfloat e) p) total)) = e * p / total.
Proof using FL.
  intros He Hp Ht. pose proof (unit_pos U96F32). destruct (whole96 e He) as [-> Re].
  pose proof (proj1 (range96 _) Re) as He'. destruct (mul_share (e * ONE32) p Re Hp) as [-> Hb].
  assert (E : e * ONE32 * p / ONE32 = e * p).
  { replace (e * ONE32 * p) with (e * p * ONE32) by ring. apply Z.div_mul. lia. }
  rewrite E in *. destruct (decide (total = 0)) as [->|].
  { rewrite div_zero, Z.div_0_r. cbn [default]. rewrite to_num_spec by (done || apply fixed_range_pos; lia). reflexivity. }
  assert (Hq : 0 <= e * p * ONE32 / total <= e * ONE32) by (split; [apply Z.div_pos|apply Z.div_le_upper_bound]; nia).
  rewrite div_spec by (try apply fixed_range_pos; lia). destruct (Z.leb_spec (e * p * ONE32 / total) (max_bits U96F32)); [|lia].
  cbn. rewrite to_num_spec by (try apply fixed_range_pos; lia).
  rewrite Z.div_div by lia. rewrite Z.div_mul_cancel_r by lia.
  assert (0 <= e * p / total <= e) by (split; [apply Z.div_pos|apply Z.div_le_upper_bound]; nia).
  unfold clamp, int_min, int_max. lia.
Qed.

Lemma subnet_terms_spec e total n s : prices_ok s -> 0 <= e <= U64_MAX ->
  get_moving_alpha_price n s <= total <= max_bits U96F32 ->
  let '(t, _, _, s') := subnet_terms (asfloat e) total n s in
  tou64 t = proportional_tao e total n s /\ same_inputs s s'.
Proof using FL.
  intros Hs He Ht. unfold subnet_terms. cbv zeta. pose proof (emission_same_inputs (get_alpha_issuance n s) s) as Hsame.
  destruct (get_block_emission_for_issuance _ s) as [em s1]. cbn [snd] in Hsame. split; [|done].
  rewrite <- (same_inputs_tao e total n s s1) by done. unfold proportional_tao, open_for_registration.
  pose proof (price_bounds n s Hs) as Hp. rewrite (same_inputs_price n s s1 Hsame), <- negb_orb, from_num_0.
  destruct (_ || _); cbn [negb].
  - apply emission_part; lia.
  - rewrite to_num_spec by (done || apply fixed_range_pos; pose proof (min_max U96F32); lia). reflexivity.
Qed.

Definition tao_of (terms : Terms) (n : Z) : Z := tou64 (default (asfloat 0) (tao_in terms !! n)).

Lemma compute_terms_spec e total s L : prices_ok s -> 0 <= e <= U64_MAX -> total <= max_bits U96F32 ->
  (forall n, n ∈ L -> get_moving_alpha_price n s <= total) ->
  let '(terms, s') := compute_terms (asfloat e) total L s in
  same_inputs s s' /\ forall n, n ∈ L -> tao_of terms n = proportional_tao e total n s.
Proof using FL.
  intros Hs He Ht HL. unfold compute_terms.
  enough (G : forall terms s1, same_inputs s s1 ->
    let '(terms', s') := foldl (fun '(terms, s) netuid_i =>
      let '(tao_in_i, alpha_in_i, alpha_out_i, s) := subnet_terms (asfloat e) total netuid_i s in
      (mkTerms (<[netuid_i := tao_in_i]> (tao_in terms)) (<[netuid_i := alpha_in_i]> (alpha_in terms))
         (<[netuid_i := alpha_out_i]> (alpha_out terms)), s)) (terms, s1) L in
    same_inputs s s' /\ forall n, tao_of terms' n = proportional_tao e total n s \/ (n ∉ L /\ tao_of terms' n = tao_of terms n)).
  { specialize (G (mkTerms ∅ ∅ ∅) s ltac:(done)). destruct (foldl _ _ L) as [terms s']. destruct G as [H1 H2].
    split; [done|]. intros n Hn. destruct (H2 n) as [|[]]; done. }
  induction L as [|m L IH]; intros terms s1 Hs1; cbn [foldl]; [split; [done|]; right; split; [set_solver|done]|].
  assert (Hp1 : prices_ok s1).
  { destruct Hs1, Hs. split; [by rewrite si_prices0|]. unfold get_moving_alpha. by rewrite si_alpha0. }
  pose proof (subnet_terms_spec e total m s1 Hp1 He) as Hst. rewrite (same_inputs_price m s s1 Hs1) in Hst.
  specialize (Hst ltac:(split; [apply HL; set_solver|done])).
  destruct (subnet_terms (asfloat e) total m s1) as [[[ti ai] ao] s2]. destruct Hst as [E1 E2].
  rewrite (same_inputs_tao e total m s s1 Hs1) in E1.
  specialize (IH ltac:(set_solver) (mkTerms (<[m := ti]> (tao_in terms)) (<[m := ai]> (alpha_in terms)) (<[m := ao]> (alpha_out terms))) s2
    ltac:(by eapply same_inputs_trans)).
  destruct (foldl _ _ L) as [terms' s']. destruct IH as [H1 H2]. split; [done|]. intros n.
  destruct (H2 n) as [|[Hn E]]; [by left|]. unfold tao_of at 2 in E. cbn [tao_in] in E.
  destruct (decide (n = m)) as [->|Hne].
  - left. by rewrite E, lookup_insert_eq.
  - right. rewrite lookup_insert_ne in E by done. split; [set_solver|done].
Qed.

Lemma inject_reads terms s n :
  let s' := inject terms s n in
  get_value Value.TotalIssuance s' = sat_add U64_MAX (get_value Value.TotalIssuance s) (tao_of terms n) /\
  (forall m, get_net NetNum.SubnetTaoInEmission m s' =
     if decide (m = n) then tao_of terms n else get_net NetNum.SubnetTaoInEmission m s) /\
  SubnetMovingPrice s' = SubnetMovingPrice s /\ SubnetMovingAlpha s' = SubnetMovingAlpha s.
Proof using.
  unfold inject, add_net, add_value. cbv zeta. fold (tao_of terms n). split; [|split; [|done]].
  - by st_read.
  - intros m. st_read. destruct (decide (m = n)) as [->|Hm]; by st_read.
Qed.

Lemma inject_fold terms L : NoDup L -> (forall n, n ∈ L -> 0 <= tao_of terms n) -> forall s,
  0 <= get_value Value.TotalIssuance s -> get_value Value.TotalIssuance s + zsum (tao_of terms) L <= U64_MAX ->
  let s' := foldl (inject terms) s L in
  get_value Value.TotalIssuance s' = get_value Value.TotalIssuance s + zsum (tao_of terms) L /\
  (forall m, get_net NetNum.SubnetTaoInEmission m s' =
     if decide (m ∈ L) then tao_of terms m else get_net NetNum.SubnetTaoInEmission m s) /\
  SubnetMovingPrice s' = SubnetMovingPrice s /\ SubnetMovingAlpha s' = SubnetMovingAlpha s.
Proof using FL.
  induction 1 as [|n L Hn HL IH]; intros Ht s H0 Hmax; cbn [foldl].
  { rewrite zsum_nil. split; [lia|]. split; [|done]. intros m. by rewrite decide_False by set_solver. }
  rewrite zsum_cons in *. destruct (inject_reads terms s n) as (E1 & E2 & E3 & E4).
  assert (0 <= tao_of terms n) by (apply Ht; set_solver).
  assert (0 <= zsum (tao_of terms) L) by (apply zsum_nonneg; intros; apply Ht; set_solver).
  rewrite sat_add_le in E1 by lia.
  destruct (IH ltac:(set_solver) (inject terms s n)) as (F1 & F2 & F3 & F4); [lia|lia|].
  split; [lia|]. split; [|split; congruence]. intros m. rewrite F2, E2.
  destruct (decide (m ∈ L)), (decide (m = n)), (decide (m ∈ n :: L)); subst; set_solver.
Qed.

Context {YL : YumaEpochLaws W} {PL : PriceLaws W}.

(** A mean of two numbers that are at most one is at most one. *)
Lemma mean_of_shares a p m : 0 <= a <= ONE32 -> 0 <= p <= ONE32 -> 0 <= m <= ONE32 ->
  0 <= saturating_add U96F32 (saturating_mul U96F32 a p)
         (saturating_mul U96F32 (saturating_sub U96F32 ONE32 a) m) <= ONE32.
Proof using FL.
  intros Ha Hp Hm. pose proof (unit_pos U96F32). pose proof (unit_max U96F32).
  rewrite sub_spec, saturate_id by (apply fixed_range_pos; lia).
  destruct (mul_share a p) as [-> H1]; [apply fixed_range_pos; lia|done|].
  destruct (mul_share (ONE32 - a) m) as [-> H2]; [apply fixed_range_pos; lia|done|].
  rewrite add_spec, saturate_id by (apply fixed_range_pos; lia). lia.
Qed.

Lemma part_of_sum x y : fixed_range U96F32 x -> fixed_range U96F32 y ->
  0 <= safe_div U96F32 x (saturating_add U96F32 x y) <= ONE32.
Proof using FL.
  intros Hx Hy. pose proof (unit_pos U96F32). pose proof (unit_max U96F32).
  pose proof (proj1 (range96 _) Hx). pose proof (proj1 (range96 _) Hy).
  rewrite add_spec, saturate_pos by (done || lia). set (z := Z.min _ _).
  assert (Hz : x <= z <= max_bits U96F32) by lia. clearbody z.
  destruct (decide (z = 0)) as [->|]; [rewrite safe_div_zero; lia|].
  assert (0 <= x * ONE32 / z <= ONE32) by (split; [apply Z.div_pos|apply Z.div_le_upper_bound]; nia).
  rewrite safe_div_spec; try (apply fixed_range_pos); lia.
Qed.

(** Moving prices stay between 0 and 1. *)
Lemma update_moving_price_ok n s : prices_ok s -> prices_ok (update_moving_price n s).
Proof using FL PL.
  intros Hs. pose proof Hs as [Hp Ha]. pose proof (unit_pos U96F32). pose proof (unit_max U96F32).
  assert (EU : unit_ I96F32 = ONE32) by done. pose proof (unit_max I96F32).
  split; [|exact Ha]. intros m p. unfold update_moving_price. cbv zeta. cbn [SubnetMovingPrice setter over].
  rewrite lookup_insert. case_decide as Em; [|by apply Hp]. intros [= <-].
  rewrite (from_fixed_spec _ _ (get_moving_alpha s)) by (apply fixed_range_pos; lia).
  rewrite EU, Z.div_mul, saturate_id by (lia || apply fixed_range_pos; lia).
  pose proof (part_of_sum _ _ (asfloat_range (sat_sub (get_current_block_as_u64 s) (sat_sub (default 0 (FirstEmissionBlockNumber s !! n)) 1)))
    (asfloat_range (get_net NetNum.EMAPriceHalvingBlocks n s))) as Hf.
  set (fr := safe_div U96F32 _ _) in *. clearbody fr.
  destruct (mul_share (get_moving_alpha s) fr) as [-> Hal]; [apply fixed_range_pos; lia|done|].
  set (al := _ / ONE32) in *. clearbody al. rewrite from_num_1.
  pose proof (price_bounds n s Hs) as Hm. set (mp := get_moving_alpha_price n s) in *. clearbody mp.
  pose proof (proj1 (range96 _) (price_range s n)) as Hpr.
  set (r := saturating_add U96F32 _ _).
  assert (Hr : 0 <= r <= ONE32) by (apply mean_of_shares; lia). clearbody r.
  rewrite from_fixed_spec by (apply fixed_range_pos; lia). rewrite EU, Z.div_mul by lia.
  rewrite saturate_id by (apply fixed_range_pos; lia). done.
Qed.

Lemma emitting_NoDup s : NoDup (emitting s).
Proof. apply NoDup_filter, NoDup_filter, netuids_NoDup. Qed.

Lemma proportional_sum e L s : prices_ok s -> 0 <= e ->
  (forall n, n ∈ L -> 0 <= proportional_tao e (zsum (fun n => get_moving_alpha_price n s) L) n s) /\
  zsum (fun n => proportional_tao e (zsum (fun n => get_moving_alpha_price n s) L) n s) L <= e.
Proof using FL.
  intros Hs He. assert (Hf : forall n, n ∈ L -> 0 <= get_moving_alpha_price n s) by (intros; by apply price_bounds).
  set (f := fun n => get_moving_alpha_price n s) in *. set (T := zsum f L).
  assert (HT : 0 <= T) by (apply zsum_nonneg; exact Hf).
  assert (Hn : forall n, n ∈ L -> 0 <= proportional_tao e T n s <= e * f n / T).
  { intros n Hx. specialize (Hf n Hx). unfold proportional_tao. fold (f n) in *.
    assert (0 <= e * f n / T) by (destruct (decide (T = 0)) as [->|]; [by rewrite Z.div_0_r|apply Z.div_pos; unfold f in *; nia]).
    destruct (open_for_registration n s); unfold f in *; lia. }
  split; [intros; by apply Hn|]. destruct (decide (T = 0)) as [E|].
  { etrans; [apply (zsum_bounded _ 0)|lia]. intros m Hx. etrans; [by apply Hn|]. rewrite E. by rewrite Z.div_0_r. }
  assert (Hm : zsum (fun n => T * proportional_tao e T n s) L <= zsum (fun n => e * f n) L).
  { apply zsum_le. intros m Hx. pose proof (Hn m Hx). pose proof (Z.mul_div_le (e * f m) T ltac:(lia)). nia. }
  rewrite !zsum_mul in Hm. fold T in Hm. nia.
Qed.

(** C18: The coinbase gives the emission of a block to the subnets in
    proportion to their moving prices, and no more. Every subnet that receives
    emissions gets its exact share, rounded down, if it is open for
    registrations, and nothing otherwise; the shares together are at most the
    emission; the total issuance grows by exactly their sum, whatever the rest
    of the block does, owner cuts, sales of the root's dividends, epochs and
    payouts included; and the moving prices stay between 0 and 1. *)
Theorem coinbase_injects_emission (e : Z) (s : St) :
  prices_ok s -> 0 <= e <= U64_MAX -> Z.of_nat (length (emitting s)) <= 2 ^ 16 ->
  0 <= get_total_issuance s -> get_total_issuance s + e <= U64_MAX ->
  let s' := run_coinbase (asfloat e) s in
  let total := zsum (fun n => get_moving_alpha_price n s) (emitting s) in
  let injected n := get_net NetNum.SubnetTaoInEmission n s' in
  (forall n, n ∈ emitting s -> injected n = proportional_tao e total n s) /\
  zsum injected (emitting s) <= e /\
  get_total_issuance s' = get_total_issuance s + zsum injected (emitting s) /\
  prices_ok s'.
Proof using FL YL PL.
  intros Hs He HL H0 Hmax. unfold run_coinbase. cbv zeta. fold (emitting s).
  destruct (price_total s (emitting s) Hs HL) as [-> Ht]. set (total := zsum _ (emitting s)) in *.
  assert (Htm : total <= max_bits U96F32) by (transitivity (ONE32 * 2 ^ 16); [lia|vm_compute; congruence]).
  assert (Hle : forall n, n ∈ emitting s -> get_moving_alpha_price n s <= total).
  { intros n Hn. apply (zsum_elem (fun n => get_moving_alpha_price n s)); [|done]. intros. by apply price_bounds. }
  pose proof (compute_terms_spec e total s (emitting s) Hs He Htm Hle) as Hc.
  destruct (compute_terms (asfloat e) total (emitting s) s) as [terms s1]. destruct Hc as [Hsame Htao].
  destruct (proportional_sum e (emitting s) s Hs) as [Hpos Hsum]; [lia|]. fold total in Hpos, Hsum.
  assert (Ez : zsum (tao_of terms) (emitting s) = zsum (fun n => proportional_tao e total n s) (emitting s)) by (by apply zsum_ext).
  unfold get_total_issuance in *. pose proof (si_issuance _ _ Hsame) as E1.
  destruct (inject_fold terms (emitting s) (emitting_NoDup s)) with (s := s1) as (I1 & I2 & I3 & I4).
  { intros n Hn. rewrite Htao by done. by apply Hpos. }
  { lia. } { lia. }
  set (s2 := foldl (inject terms) s1 (emitting s)) in *.
  pose proof (fun B (g : St -> B) (SY : Steady g) => steady_cut g (get_float_subnet_owner_cut s2) terms s2 (emitting s)) as Hcut.
  destruct (foldl (cut_owner _) (terms, s2) (emitting s)) as [terms' s3]. cbn [snd] in Hcut.
  set (s4 := foldl (split_root terms') s3 (emitting s)).
  assert (H4 : forall B (g : St -> B), Steady g -> g s4 = g s2).
  { intros B g SY. unfold s4. rewrite (steady_fold g); [by apply Hcut|]. intros. by apply steady_root. }
  set (s5 := foldl (fun s n => update_moving_price n s) s4 (emitting s)).
  set (s6 := foldl (run_epoch_if_due _) s5 _).
  assert (H6 : forall B (g : St -> B), Steady g -> g s6 = g s5).
  { intros B g SY. apply steady_fold. intros. by apply steady_epoch. }
  assert (T6 : get_value Value.TotalIssuance s6 = get_value Value.TotalIssuance s2).
  { rewrite (H6 _ _ _). unfold s5. rewrite (steady_fold (get_value Value.TotalIssuance)) by done. by rewrite (H4 _ _ _). }
  assert (N6 : forall n, get_net NetNum.SubnetTaoInEmission n s6 = get_net NetNum.SubnetTaoInEmission n s2).
  { intros n. rewrite (H6 _ _ _). unfold s5. rewrite (steady_fold (get_net NetNum.SubnetTaoInEmission n)) by done. by rewrite (H4 _ _ _). }
  assert (P4 : prices_ok s4).
  { pose proof (H4 _ _ moving_price_steady) as [= E5 E6]. rewrite I3 in E5. rewrite I4 in E6. destruct Hsame, Hs.
    split; [rewrite E5, si_prices0; done|]. unfold get_moving_alpha in *. by rewrite E6, si_alpha0. }
  assert (P5 : prices_ok s5) by (apply foldl_inv; [|done]; intros; by apply update_moving_price_ok).
  assert (Hinj : forall n, n ∈ emitting s -> get_net NetNum.SubnetTaoInEmission n s6 = proportional_tao e total n s).
  { intros n Hn. rewrite N6, I2, decide_True by done. by apply Htao. }
  assert (Ei : zsum (fun n => get_net NetNum.SubnetTaoInEmission n s6) (emitting s) = zsum (tao_of terms) (emitting s)).
  { rewrite Ez. by apply zsum_ext. }
  split; [done|]. split; [lia|]. split; [rewrite T6, I1; lia|].
  pose proof (H6 _ _ moving_price_steady) as [= E5 E6]. destruct P5.
  split; [by rewrite E5|]. unfold get_moving_alpha in *. by rewrite E6.
Qed.
End Coinbase.
