(* ===== verification/Hooks.v ===== *)
(** * The block hook (src/pallets/subtensor/src/macros/hooks.rs)

    [on_initialize] forgets the records of old hotkey swaps, one residue class of
    subnets per block, and then makes the block step. *)

From S2P Require Import Prelude Frame Fixed SharePool Storage Misc Uids Reserves RateLimiting Children Staking StakeWeights.
From S2P Require Import BlockStep EpochMath Weights Emission Dividends Coinbase.
From stdpp Require Import prelude gmap list fin_maps.
From Stdlib Require Import ZArith Lia.
#[local] Open Scope Z_scope.

Section Hooks.
Context {FS : FrameSystem} {Cfg : SubtensorConfig} {SI : StorageIter} {W : Type}.
Context {Env : SubtensorEnv W} {SW : SwapHandler W} {F : SubstrateFixed} {FT : FixedTranscendental}.
Context {WE : WeightsEnv W} {BO : BTreeOrder} {YE : YumaEpoch W}.
Abbreviation St := (Storage W).
Implicit Types (s : St) (netuid : Z).

(** A record of a swap on [netuid] that is out of date. *)
Definition outdated_swap (netuid block_number : Z) (x : NetKeyNum.NetKeyNum * Z * AccountId * Z) : Prop :=
  x.1.1.1 = NetKeyNum.LastHotkeySwapOnNetuid /\ x.1.1.2 = netuid /\
  sat_add U64_MAX x.2 HotkeySwapOnSubnetInterval < block_number.
#[local] Instance outdated_swap_dec netuid block_number x : Decision (outdated_swap netuid block_number x).
Proof. unfold outdated_swap. apply _. Defined.

(** The loop over one subnet removes only the entry it visits. *)
Definition forget_swaps (netuid block_number : Z) (s : St) : St :=
  s <| net_key_nums ::= filter (fun x => ~ outdated_swap netuid block_number x) |>.

(** Nothing is done when the interval is zero ([checked_rem] is [None]). *)
Definition clean_up_hotkey_swap_records (block_number : Z) (s : St) : St :=
  let hotkey_swap_on_subnet_interval := HotkeySwapOnSubnetInterval in
  if hotkey_swap_on_subnet_interval =? 0 then s
  else
    let slot := block_number mod hotkey_swap_on_subnet_interval in
    foldl (fun s netuid => forget_swaps netuid block_number s) s
      (filter (fun netuid => netuid mod hotkey_swap_on_subnet_interval = slot) (get_all_subnet_netuids s)).

(** ** What is forgotten *)

Lemma get_forget_swaps i n k a b s : get_net_key i k a (forget_swaps n b s) =
  if decide (outdated_swap n b (i, k, a, get_net_key i k a s)) then 0 else get_net_key i k a s.
Proof using.
  unfold get_net_key, forget_swaps. cbn. rewrite map_lookup_filter. destruct (net_key_nums s !! (i, k, a)) as [v|]; cbn.
  - repeat case_decide || case_guard; cbn; tauto || done.
  - by case_decide.
Qed.

Lemma get_clean_up i k a b s : let v := get_net_key i k a s in let v' := get_net_key i k a (clean_up_hotkey_swap_records b s) in
  v' = v \/ (v' = 0 /\ exists n, outdated_swap n b (i, k, a, v)).
Proof using.
  cbv zeta. unfold clean_up_hotkey_swap_records. destruct (_ =? 0); [by left|].
  generalize (filter (fun n => n mod HotkeySwapOnSubnetInterval = b mod HotkeySwapOnSubnetInterval) (get_all_subnet_netuids s)). intros l.
  assert (forall x, (get_net_key i k a x = get_net_key i k a s \/
    (get_net_key i k a x = 0 /\ exists n, outdated_swap n b (i, k, a, get_net_key i k a s))) ->
    get_net_key i k a (foldl (fun s n => forget_swaps n b s) x l) = get_net_key i k a s \/
    (get_net_key i k a (foldl (fun s n => forget_swaps n b s) x l) = 0 /\ exists n, outdated_swap n b (i, k, a, get_net_key i k a s))) as H.
  { induction l as [|n l IH]; intros x Hx; [done|]. cbn [foldl]. apply IH. rewrite get_forget_swaps. case_decide as Hd; [|done].
    destruct Hx as [E|[E Hx]]; right; (split; [done|]); [|done]. rewrite E in Hd. eauto. }
  apply H. by left.
Qed.

(** Cleaning up never shortens the wait between two hotkey swaps of a coldkey on a
    subnet: at the block of the hook and at any later one the rate limit of
    [swap_hotkey_on_subnet] decides as it would have with all records kept. *)
Theorem clean_up_keeps_swap_limit netuid coldkey block_number later s :
  let swap_allowed s := sat_add U64_MAX (get_net_key NetKeyNum.LastHotkeySwapOnNetuid netuid coldkey s) HotkeySwapOnSubnetInterval <? later in
  0 <= get_net_key NetKeyNum.LastHotkeySwapOnNetuid netuid coldkey s -> block_number <= later ->
  swap_allowed (clean_up_hotkey_swap_records block_number s) = swap_allowed s.
Proof using.
  cbv zeta. intros H0 Hl. destruct (get_clean_up NetKeyNum.LastHotkeySwapOnNetuid netuid coldkey block_number s) as [->|[-> (n & _ & _ & Ho)]]; [done|].
  cbn in Ho. unfold sat_add in *. rewrite (proj2 (Z.ltb_lt _ _)), (proj2 (Z.ltb_lt _ _)); lia.
Qed.

Definition on_initialize (signed : AccountId -> Origin) (block_number : Z) (s : St) : St :=
  block_step signed (clean_up_hotkey_swap_records block_number s).
End Hooks.
