(* ===== verification/Epoch.v ===== *)
(** * The Yuma epoch (src/pallets/subtensor/src/epoch/run_epoch.rs)

    At the end of a tempo the epoch turns the weights the validators of a subnet
    set, with their stake, into consensus, incentives for the miners and
    dividends for the validators, moves the bonds, and says how much of the
    emission each hotkey earned. The sparse version is the one the chain runs;
    the dense version of the source is for its tests only. A trap (an index out
    of range, a failed assertion) is [None]. *)

From S2P Require Import Prelude Frame Fixed SharePool Storage Misc Uids Reserves Children Staking StakeWeights.
From S2P Require Import EpochMath EpochMatrix Emission Dividends Coinbase.
From stdpp Require Import prelude gmap list fin_maps.
From Stdlib Require Import ZArith Lia.
#[local] Open Scope Z_scope.

Section Epoch.
Context {FS : FrameSystem} {Cfg : SubtensorConfig} {SI : StorageIter} {W : Type}.
Context {Env : SubtensorEnv W} {F : SubstrateFixed} {EF : EpochFixed}.
Abbreviation St := (Storage W).
Implicit Types (s : St) (netuid : Z).
Abbreviation num := (from_num I32F32).
Abbreviation add := (saturating_add I32F32).
Abbreviation sub := (saturating_sub I32F32).
Abbreviation mul := (saturating_mul I32F32).
Abbreviation div := (safe_div I32F32).

(** ** Parameters *)

Definition get_float_rho (netuid : Z) (s : St) : Z := num (get_rho netuid s).
Definition get_float_kappa (netuid : Z) (s : St) : Z := div (num (get_kappa netuid s)) (num U16_MAX).
Definition get_float_bonds_penalty (netuid : Z) (s : St) : Z := div (num (get_bonds_penalty netuid s)) (num U16_MAX).
Definition get_alpha_values_32 (netuid : Z) (s : St) : Z * Z :=
  let '(alpha_low, alpha_high) := get_alpha_values netuid s in
  (div (num alpha_low) (num U16_MAX), div (num alpha_high) (num U16_MAX)).
Definition get_alpha_sigmoid_steepness (netuid : Z) (s : St) : Z :=
  num (get_net NetNum.AlphaSigmoidSteepness netuid s).

(** ** Reading the matrices *)

Definition get_block_at_registration (netuid : Z) (s : St) : list Z :=
  map (fun neuron_uid =>
      if bool_decide (is_Some (Keys s !! (netuid, neuron_uid)))
      then get_neuron_block_at_registration netuid neuron_uid s else 0)
    (seqZ 0 (get_subnetwork_n netuid s)).

(** One stored row pushed onto the row of its uid. *)
Definition push_row (n : Z) (f : Row -> Row) (m : Sparse) (entry : Z * list (Z * Z)) : Sparse :=
  let '(uid_i, row) := entry in
  if uid_i <? n then alter (fun r => r ++ f row) (Z.to_nat uid_i) m else m.
Definition get_weights_sparse (netuid : Z) (s : St) : Sparse :=
  let n := get_subnetwork_n netuid s in
  foldl (push_row n (fun row => map (fun '(uid_j, weight_ij) => (uid_j, num weight_ij)) (filter (fun x => x.1 < n) row)))
    (replicate (Z.to_nat n) []) (iter_subnet netuid (Weights s)).
Definition get_bonds_sparse (netuid : Z) (s : St) : Sparse :=
  let n := get_subnetwork_n netuid s in
  foldl (push_row n (map (fun '(uid_j, bonds_ij) => (uid_j, u16_to_fixed bonds_ij))))
    (replicate (Z.to_nat n) []) (iter_subnet netuid (Bonds s)).
Definition get_bonds_sparse_fixed_proportion (netuid : Z) (s : St) : Sparse :=
  map (map (fun '(j, bond) => (j, fixed_to_fixed_u16_proportion bond))) (get_bonds_sparse netuid s).

(** ** Moving averages of the bonds *)

Definition compute_ema_bonds_normal_sparse (bonds_delta bonds : Sparse) (netuid : Z) (s : St) : option Sparse :=
  let bonds_moving_average :=
    safe_div I64F64 (from_num I64F64 (get_bonds_moving_average netuid s)) (from_num I64F64 1000000) in
  let alpha := sub (num 1) (from_fixed I32F32 I64F64 bonds_moving_average) in
  mat_ema_sparse bonds_delta bonds alpha.

Definition compute_disabled_liquid_alpha (netuid : Z) (s : St) : Z :=
  let bonds_moving_average :=
    saturating_div I64F64 (plain_num I64F64 (get_bonds_moving_average netuid s)) (plain_num I64F64 1000000) in
  sub (plain_num I32F32 1) (plain_fixed I32F32 I64F64 bonds_moving_average).

Definition alpha_sigmoid (consensus weight bond alpha_low alpha_high alpha_sigmoid_steepness : Z) : Z :=
  let zero := plain_num I32F32 0 in
  let one := plain_num I32F32 1 in
  let diff_buy := clamp_value (sub weight consensus) zero one in
  let diff_sell := clamp_value (sub bond weight) zero one in
  let combined_diff := if bond <=? weight then diff_buy else diff_sell in
  let sigmoid :=
    saturating_div I32F32 one (add one (safe_exp
      (mul (saturating_div I32F32 alpha_sigmoid_steepness (plain_num I32F32 (-100)))
        (sub combined_diff (from_literal I32F32 5 10))))) in
  let alpha := add alpha_low (mul sigmoid (sub alpha_high alpha_low)) in
  clamp_value alpha alpha_low alpha_high.

(** Advances a row, which is sorted by column, to column [j]. *)
Fixpoint seek (j : Z) (row : Row) : Z * Row :=
  match row with
  | (i, val) :: row' => if i <? j then seek j row' else (if i =? j then val else 0, row)
  | [] => (0, [])
  end.
(** The alphas of one validator for the columns from [j] on. *)
Fixpoint liquid_row (alpha_low alpha_high steepness j : Z) (w_row b_row : Row) (consensus : list Z) : list Z :=
  match consensus with
  | [] => []
  | consensus_val :: consensus =>
      let '(weight, w_row) := seek j w_row in
      let '(bond, b_row) := seek j b_row in
      alpha_sigmoid consensus_val weight bond alpha_low alpha_high steepness
        :: liquid_row alpha_low alpha_high steepness (j + 1) w_row b_row consensus
  end.
Definition compute_liquid_alpha_values_sparse (netuid : Z) (weights bonds : Sparse) (consensus : list Z) (s : St)
    : option (list (list Z)) :=
  assert_ (length weights =? length bonds)%nat ;;
  let alpha_sigmoid_steepness := get_alpha_sigmoid_steepness netuid s in
  let '(alpha_low, alpha_high) := get_alpha_values_32 netuid s in
  Some (zip_with (fun w_row b_row => liquid_row alpha_low alpha_high alpha_sigmoid_steepness 0 w_row b_row consensus)
          weights bonds).

Definition compute_bonds_sparse (netuid : Z) (weights bonds : Sparse) (consensus : list Z) (s : St) : option Sparse :=
  if get_liquid_alpha_enabled netuid s && negb (bool_decide (consensus = []))
     && existsb (fun c => negb (c =? num 0)) consensus
  then
    alphas ← compute_liquid_alpha_values_sparse netuid weights bonds consensus s;
    mat_ema_alpha_sparse weights bonds alphas
  else mat_ema_sparse weights bonds (compute_disabled_liquid_alpha netuid s).

(** ** The epoch *)

(** Stake: normalised, without what is below the threshold. *)
Definition epoch_stake (netuid : Z) (s : St) : list Z :=
  let '(total_stake, _, _) := get_stake_weights_for_network netuid s in
  let min_stake := get_stake_threshold s in
  let filtered_stake := map (fun x => if fixed64_to_u64 x <? min_stake then 0 else x) total_stake in
  vec_fixed64_to_fixed32 (inplace_normalize_64 filtered_stake).

Definition epoch_inactive (netuid : Z) (s : St) : list bool :=
  map (fun updated => sat_add U64_MAX updated (get_activity_cutoff netuid s) <? get_current_block_as_u64 s)
    (get_last_update netuid s).

Definition epoch_active_stake (netuid : Z) (stake : list Z) (s : St) : option (list Z) :=
  active_stake ← inplace_mask_vector (epoch_inactive netuid s) stake;
  active_stake ← inplace_mask_vector (map negb (get_validator_permit netuid s)) active_stake;
  Some (inplace_normalize active_stake).

(** The weights that count, normalised. *)
Definition epoch_weights (netuid : Z) (s : St) : option Sparse :=
  weights ← mask_rows_sparse (map negb (get_validator_permit netuid s)) (get_weights_sparse netuid s);
  let weights :=
    match get_owner_uid netuid s with
    | Some owner_uid => mask_diag_sparse_except_index weights owner_uid
    | None => mask_diag_sparse weights
    end in
  weights ← vec_mask_sparse_matrix weights (get_last_update netuid s) (get_block_at_registration netuid s) Z.leb;
  Some (inplace_row_normalize_sparse weights).

(** Bonds of neurons registered since the last tempo are dropped. *)
Definition epoch_old_bonds (netuid : Z) (bonds : Sparse) (s : St) : option Sparse :=
  let last_tempo := sat_sub (get_current_block_as_u64 s) (get_tempo netuid s) in
  scalar_vec_mask_sparse_matrix bonds last_tempo (get_block_at_registration netuid s) Z.leb.

(** The dividends, normalised, and the bonds to store. *)
Definition dividends_yuma3 (netuid : Z) (weights_for_bonds : Sparse) (consensus incentive active_stake : list Z) (s : St)
    : option (list Z * Sparse) :=
  let n := get_subnetwork_n netuid s in
  bonds ← epoch_old_bonds netuid (get_bonds_sparse_fixed_proportion netuid s) s;
  ema_bonds ← compute_bonds_sparse netuid weights_for_bonds bonds consensus s;
  ema_bonds_norm ← inplace_col_normalize_sparse ema_bonds n;
  let total_bonds_per_validator := row_sum_sparse (mat_vec_mul_sparse ema_bonds_norm incentive) in
  let dividends := inplace_normalize (vec_mul total_bonds_per_validator active_stake) in
  Some (dividends, ema_bonds).

Definition dividends_yuma2 (netuid : Z) (weights_for_bonds : Sparse) (incentive active_stake : list Z) (s : St)
    : option (list Z * Sparse) :=
  let n := get_subnetwork_n netuid s in
  bonds ← epoch_old_bonds netuid (get_bonds_sparse netuid s) s;
  bonds ← inplace_col_normalize_sparse bonds n;
  bonds_delta ← inplace_col_normalize_sparse (row_hadamard_sparse weights_for_bonds active_stake) n;
  ema_bonds ← compute_ema_bonds_normal_sparse bonds_delta bonds netuid s;
  ema_bonds ← inplace_col_normalize_sparse ema_bonds n;
  dividends ← matmul_transpose_sparse ema_bonds incentive;
  let dividends := inplace_normalize dividends in
  ema_bonds ← inplace_col_max_upscale_sparse ema_bonds n;
  Some (dividends, ema_bonds).

(** What an epoch computes. *)
Record Outcome : Type := mkOutcome {
  oc_stake : list Z;
  oc_active_stake : list Z;
  oc_ranks : list Z;
  oc_trust : list Z;
  oc_consensus : list Z;
  oc_validator_trust : list Z;
  oc_incentive : list Z;
  oc_dividends : list Z;
  oc_bonds : Sparse;
}.

Definition epoch_outcome (netuid : Z) (s : St) : option Outcome :=
  let n := get_subnetwork_n netuid s in
  let stake := epoch_stake netuid s in
  active_stake ← epoch_active_stake netuid stake s;
  weights ← epoch_weights netuid s;
  preranks ← matmul_sparse weights active_stake n;
  consensus ← weighted_median_col_sparse active_stake weights n (get_float_kappa netuid s);
  clipped_weights ← col_clip_sparse weights consensus;
  let validator_trust := row_sum_sparse clipped_weights in
  ranks ← matmul_sparse clipped_weights active_stake n;
  trust ← vecdiv ranks preranks;
  let ranks := inplace_normalize ranks in
  let incentive := ranks in
  weights_for_bonds ← interpolate_sparse weights clipped_weights n (get_float_bonds_penalty netuid s);
  '(dividends, ema_bonds) ←
    (if get_yuma3_enabled netuid s then dividends_yuma3 netuid weights_for_bonds consensus incentive active_stake s
     else dividends_yuma2 netuid weights_for_bonds incentive active_stake s);
  Some (mkOutcome stake active_stake ranks trust consensus validator_trust incentive dividends ema_bonds).

(** The parts of the emission, for the miners, the validators and both. *)
Definition normalized_emission (o : Outcome) : list Z * list Z * list Z :=
  let combined_emission := zip_with add (oc_incentive o) (oc_dividends o) in
  let emission_sum := sum I32F32 combined_emission in
  let normalized_server_emission := inplace_normalize_using_sum (oc_incentive o) emission_sum in
  let normalized_validator_emission := inplace_normalize_using_sum (oc_dividends o) emission_sum in
  let normalized_combined_emission := inplace_normalize combined_emission in
  if emission_sum =? 0 then
    if is_zero (oc_active_stake o) then (normalized_server_emission, oc_stake o, oc_stake o)
    else (normalized_server_emission, oc_active_stake o, oc_active_stake o)
  else (normalized_server_emission, normalized_validator_emission, normalized_combined_emission).

Definition scale_emission (rao_emission : Z) (parts : list Z) : list Z :=
  let float_rao_emission := from_num I96F32 rao_emission in
  map (fun x => to_num I96F32 u64 (saturating_mul I96F32 (from_fixed I96F32 I32F32 x) float_rao_emission)) parts.

(** The bonds of a uid that keeps or loses its permit. *)
Definition store_bonds (netuid : Z) (s : St) (entry : Z * (bool * bool * Row)) : St :=
  let '(i, (new_permit, validator_permit, ema_bond)) := entry in
  if (new_permit : bool) then
    s <| Bonds ::= <[(netuid, i) := map (fun '(j, value) => (j, fixed_proportion_to_u16 value)) ema_bond]> |>
  else if (validator_permit : bool) then s <| Bonds ::= <[(netuid, i) := []]> |>
  else s.

Definition store_outcome (netuid : Z) (o : Outcome) (combined_emission normalized_combined_emission : list Z)
    (active new_validator_permits validator_permits : list bool) (s : St) : St :=
  let to_u16s := map fixed_proportion_to_u16 in
  let s := put_vec NetVec.StakeWeight netuid (to_u16s (oc_stake o)) s in
  let s := put_bvec NetBoolVec.Active netuid active s in
  let s := put_vec NetVec.Emission netuid combined_emission s in
  let s := put_vec NetVec.Rank netuid (to_u16s (oc_ranks o)) s in
  let s := put_vec NetVec.Trust netuid (to_u16s (oc_trust o)) s in
  let s := put_vec NetVec.Consensus netuid (to_u16s (oc_consensus o)) s in
  let s := put_vec NetVec.Incentive netuid (to_u16s (oc_incentive o)) s in
  let s := put_vec NetVec.Dividends netuid (to_u16s (oc_dividends o)) s in
  let s := put_vec NetVec.PruningScores netuid (vec_max_upscale_to_u16 normalized_combined_emission) s in
  let s := put_vec NetVec.ValidatorTrust netuid (to_u16s (oc_validator_trust o)) s in
  let s := put_bvec NetBoolVec.ValidatorPermit netuid new_validator_permits s in
  foldl (store_bonds netuid) s
    (enumerate (zip (zip new_validator_permits validator_permits) (oc_bonds o))).

Definition epoch (netuid rao_emission : Z) (s : St) : option (list (AccountId * Z * Z) * St) :=
  o ← epoch_outcome netuid s;
  let '(server, validator, combined) := normalized_emission o in
  let server_emission := scale_emission rao_emission server in
  let validator_emission := scale_emission rao_emission validator in
  let combined_emission := scale_emission rao_emission combined in
  let new_validator_permits := is_topk_nonzero (oc_stake o) (get_max_allowed_validators netuid s) in
  let s' := store_outcome netuid o combined_emission combined (map negb (epoch_inactive netuid s))
              new_validator_permits (get_validator_permit netuid s) s in
  tuples ← mapM (fun '(uid_i, hotkey) =>
      server_i ← at_ server_emission uid_i;
      validator_i ← at_ validator_emission uid_i;
      Some (hotkey, server_i, validator_i))
    (iter_subnet netuid (Keys s));
  Some (tuples, s').

(** ** Alpha values and bond resets *)
#[local] Open Scope monad_scope.

Definition do_set_alpha_values (origin : Origin) (netuid alpha_low alpha_high : Z) : Pm W unit :=
  let* _ := ext (ensure_signed origin) in
  let* s := gets id in
  let* _ := ext (ensure_subnet_owner_or_root origin netuid s) in
  check (get_liquid_alpha_enabled netuid s) Error.LiquidAlphaDisabled ;;
  let min_alpha_low := U16_MAX / 40 in
  let min_alpha_high := min_alpha_low in
  check (min_alpha_high <=? alpha_high) Error.AlphaHighTooLow ;;
  check ((min_alpha_low <=? alpha_low) && (alpha_low <=? alpha_high)) Error.AlphaLowOutOfRange ;;
  modify (fun s => s <| AlphaValues ::= <[netuid := (alpha_low, alpha_high)]> |>).

Definition do_reset_bonds (netuid : Z) (account_id : AccountId) (s : St) : St :=
  if negb (get_bonds_reset netuid s) then s
  else
    match get_uid_for_net_and_hotkey netuid account_id s with
    | Ok uid =>
        foldl (fun s '(i, bonds_vec) =>
            s <| Bonds ::= <[(netuid, i) := filter (fun x : Z * Z => x.1 <> uid) bonds_vec]> |>)
          s (iter_subnet netuid (Bonds s))
    | Err _ => s
    end.
End Epoch.
