(* ===== verification/EpochPays.v ===== *)
(** * What an epoch pays

    On a well-formed subnet the epoch does not trap, whatever its weights,
    bonds, stakes and parameters are, and it hands out no more than the emission
    it was given. The lemmas follow the stages of [Epoch.epoch]: the matrices
    read from storage, the stake, the weights, the outcome, the division of the
    emission. *)

From S2P Require Import Prelude Frame Fixed SharePool Storage Misc Uids Reserves Children Staking StakeWeights.
From S2P Require Import EpochMath EpochMatrix EpochBounds Emission Dividends Coinbase Epoch.
From stdpp Require Import prelude gmap list fin_maps.
From Stdlib Require Import ZArith Lia.
#[local] Open Scope Z_scope.

Section EpochPays.
Context {FS : FrameSystem} {Cfg : SubtensorConfig} {SI : StorageIter} {W : Type}.
Context {Env : SubtensorEnv W} {F : SubstrateFixed} {EF : EpochFixed}.
Context {FL : SubstrateFixedLaws} {EL : EpochFixedLaws}.
Abbreviation St := (Storage W).
Implicit Types (s : St) (netuid : Z).
Abbreviation num := (from_num I32F32).
Abbreviation mul := (saturating_mul I32F32).
Abbreviation div := (safe_div I32F32).
Abbreviation ONE := (unit_ I32F32).
Abbreviation MAX := (max_bits I32F32).

(** A stored row of weights names each uid at most once; the values of weights
    and bonds are [u16]s. *)
Definition weights_row_ok (row : list (Z * Z)) : Prop :=
  NoDup row.*1 /\ Forall (fun x => 0 <= x.1 /\ 0 <= x.2 <= U16_MAX) row.

(** A subnet whose epoch can run: its neurons and stored matrices are well
    formed, and its stake fits the fixed-point type. *)
Record epoch_ready (netuid : Z) (s : St) : Prop := {
  er_uids : uids_ok s netuid;
  er_n : get_subnetwork_n netuid s <= 4096;
  er_weights : forall uid row, Weights s !! (netuid, uid) = Some row -> 0 <= uid /\ weights_row_ok row;
  er_bonds : forall uid row, Bonds s !! (netuid, uid) = Some row ->
    0 <= uid /\ Forall (cell_in (get_subnetwork_n netuid s) U16_MAX) row;
  er_stake : forall total alpha tao, get_stake_weights_for_network netuid s = (total, alpha, tao) ->
    (forall x, x ∈ total -> 0 <= x) /\ zsum id total <= max_bits I64F64;
}.

(** ** Reading the matrices *)

Lemma push_rows (Q : Row -> Prop) n f l : Q [] -> NoDup l.*1 -> (forall uid row, (uid, row) ∈ l -> 0 <= uid /\ Q (f row)) ->
  forall m, Z.of_nat (length m) = n -> Forall Q m -> (forall uid r, uid ∈ l.*1 -> at_ m uid = Some r -> r = []) ->
  let m' := foldl (push_row n f) m l in Z.of_nat (length m') = n /\ Forall Q m'.
Proof using.
  intros HQ. induction l as [|[uid row] l IH]; intros Hnd Hl m Hlen Hm Hempty; [done|]. cbn [foldl push_row].
  apply NoDup_cons in Hnd as [Hnot Hnd]. destruct (Hl uid row (list_elem_of_here _ _)) as [Hu Hf].
  assert (Hl' : forall u r, (u, r) ∈ l -> 0 <= u /\ Q (f r)) by (intros u r Hur; apply Hl; by apply list_elem_of_further).
  destruct (Z.ltb_spec uid n).
  2: { apply IH; [done..|]. intros u r Hur. apply Hempty. cbn. by apply list_elem_of_further. }
  destruct (at_is_Some m uid) as [old Hold]; [lia|]. pose proof (Hempty uid old (list_elem_of_here _ _) Hold) as ->.
  apply IH; [done|done|by rewrite length_alter| |].
  - apply Forall_alter; [done|]. unfold at_ in Hold. intros x Hx _. rewrite Hold in Hx. by injection Hx as <-.
  - intros u r Hur Hr. apply (Hempty u r); [cbn; by apply list_elem_of_further|]. unfold at_ in *.
    rewrite list_lookup_alter_ne in Hr; [done|]. apply list_elem_of_fmap in Hur as ([u' r'] & E & Hin). cbn in E. subst u'.
    destruct (Hl' u r' Hin) as [? _]. intros E. assert (uid = u) by lia. subst. apply Hnot, list_elem_of_fmap. by exists (u, r').
Qed.

Lemma read_rows (Q : Row -> Prop) n f l : Q [] -> NoDup l.*1 -> (forall uid row, (uid, row) ∈ l -> 0 <= uid /\ Q (f row)) -> 0 <= n ->
  let m := foldl (push_row n f) (replicate (Z.to_nat n) []) l in Z.of_nat (length m) = n /\ Forall Q m.
Proof using.
  intros HQ Hnd Hl Hn. apply (push_rows Q); [done..| | |].
  - rewrite length_replicate. lia.
  - by apply Forall_replicate.
  - intros uid r _ Hr. by apply at_elem, elem_of_replicate in Hr as [-> _].
Qed.

Lemma uids_nonneg netuid s : uids_ok s netuid -> 0 <= get_subnetwork_n netuid s.
Proof using. intros H. pose proof (uo_bvecs _ _ H NetBoolVec.Active). lia. Qed.

(** Distinct columns below [n]. *)
Lemma distinct_columns n (row : Row) : 0 <= n -> NoDup row.*1 -> Forall (fun x => 0 <= x.1 < n) row -> Z.of_nat (length row) <= n.
Proof using.
  intros Hn Hnd Hr. rewrite <- (length_fmap fst). rewrite <- (Z2Nat.id n) at 1 by done. rewrite <- (length_seqZ 0 n).
  apply Nat2Z.inj_le, submseteq_length, NoDup_submseteq; [done|].
  intros j ([j' v] & -> & Hjv)%list_elem_of_fmap. rewrite Forall_forall in Hr. apply elem_of_seqZ. pose proof (Hr _ Hjv). cbn in *. lia.
Qed.

Lemma u16_num x : 0 <= x <= U16_MAX -> num x = x * ONE /\ 0 <= num x <= U16_MAX * ONE.
Proof using FL.
  intros Hx. destruct (whole_i32 x) as [-> _]; [lia|]. pose proof (unit_pos I32F32). split; [done|nia].
Qed.

Lemma get_weights_spec netuid s : epoch_ready netuid s -> let n := get_subnetwork_n netuid s in
  mat_in n (U16_MAX * ONE) (get_weights_sparse netuid s) /\ short n (get_weights_sparse netuid s).
Proof using FL.
  intros H n. subst n. pose proof (uids_nonneg _ _ (er_uids _ _ H)) as Hn. unfold get_weights_sparse. set (n := get_subnetwork_n netuid s) in *.
  set (f := fun row => map (fun '(uid_j, weight_ij) => (uid_j, num weight_ij)) (filter (fun x : Z * Z => x.1 < n) row)).
  destruct (read_rows (fun row => Forall (cell_in n (U16_MAX * ONE)) row /\ Z.of_nat (length row) <= n) n f
    (iter_subnet netuid (Weights s))) as [Hl Hm]; [split; [constructor|done]|apply NoDup_iter_subnet| |done|].
  - intros uid row [Hu [Hnd Hr]]%elem_of_iter_subnet%(er_weights _ _ H). split; [done|]. subst f. cbn. rewrite Forall_forall in Hr. split.
    + apply Forall_forall. intros e ([j v] & -> & [Hj Hjv]%list_elem_of_filter)%list_elem_of_fmap. destruct (Hr _ Hjv) as [? Hv]. cbn in *.
      destruct (u16_num v Hv). unfold cell_in. cbn. lia.
    + rewrite length_map. apply distinct_columns; [done| |].
      * eapply sublist_NoDup; [exact Hnd|]. by apply fmap_sublist, sublist_filter.
      * apply Forall_forall. intros [j v] [Hj Hjv]%list_elem_of_filter. destruct (Hr _ Hjv). cbn in *. lia.
  - unfold mat_in, cells_in, short. rewrite Forall_forall in Hm. split; [split; [done|]|]; apply Forall_forall; intros r Hr; by apply Hm.
Qed.

Lemma get_bonds_spec netuid s : epoch_ready netuid s ->
  mat_in (get_subnetwork_n netuid s) (U16_MAX * ONE) (get_bonds_sparse netuid s).
Proof using FL.
  intros H. pose proof (uids_nonneg _ _ (er_uids _ _ H)) as Hn. unfold get_bonds_sparse. set (n := get_subnetwork_n netuid s) in *.
  set (f := map (fun '(uid_j, bonds_ij) => (uid_j, u16_to_fixed bonds_ij))).
  apply (read_rows (Forall (cell_in n (U16_MAX * ONE))) n f); [constructor|apply NoDup_iter_subnet| |done].
  intros uid row [Hu Hr]%elem_of_iter_subnet%(er_bonds _ _ H). split; [done|]. subst f.
  apply Forall_forall. intros e ([j v] & -> & Hjv)%list_elem_of_fmap. rewrite Forall_forall in Hr. destruct (Hr _ Hjv) as [Hj Hv].
  cbn in Hj, Hv. split; [done|]. cbn. by apply u16_num.
Qed.

Lemma get_bonds_proportion_spec netuid s : epoch_ready netuid s ->
  mat_in (get_subnetwork_n netuid s) MAX (get_bonds_sparse_fixed_proportion netuid s).
Proof using FL.
  intros H. destruct (get_bonds_spec netuid s H) as [Hl Hm]. unfold get_bonds_sparse_fixed_proportion. split; [by rewrite length_map|].
  unfold cells_in in *. rewrite Forall_forall in Hm. apply Forall_forall. intros r (row & -> & Hrow)%list_elem_of_fmap.
  specialize (Hm row Hrow). rewrite Forall_forall in Hm. apply Forall_forall. intros e ([j v] & -> & Hjv)%list_elem_of_fmap.
  destruct (Hm _ Hjv) as [Hj Hv]. split; [done|]. cbn [fst snd] in *. unfold fixed_to_fixed_u16_proportion. pose proof one_max.
  destruct (u16_num U16_MAX) as [-> _]; [lia|].
  assert (U16_MAX * ONE <= MAX) by (vm_compute; congruence). pose proof (div32 v (U16_MAX * ONE)). lia.
Qed.

(** ** Stake *)

(** Truncating a number to fewer fractional bits. *)
Lemma truncated_sum vec : normal I64F64 vec -> normal I32F32 (vec_fixed64_to_fixed32 vec).
Proof using FL.
  intros Hn. pose proof (normal_in _ _ Hn) as Hin. destruct Hn as [H0 H1]. rewrite Forall_forall in Hin.
  unfold vec_fixed64_to_fixed32.
  assert (Hx : forall x, x ∈ vec -> 0 <= fixed64_to_fixed32 x /\ ONE * fixed64_to_fixed32 x <= x).
  { intros x Hx. specialize (Hin x Hx). unfold fixed64_to_fixed32. cbn beta in Hin.
    assert (Hr : fixed_range I64F64 x) by (apply fixed_range_pos; pose proof (unit_max I64F64); lia).
    rewrite from_fixed_spec by done. replace (x * ONE / unit_ I64F64) with (x / ONE).
    2: { change (unit_ I64F64) with (ONE * ONE). pose proof (unit_pos I32F32). by rewrite Z.div_mul_cancel_r by lia. }
    change (unit_ I64F64) with (ONE * ONE) in Hin. pose proof one_max. destruct Hin as [Hin0 Hin1].
    assert (Hq : 0 <= x / ONE <= ONE) by (split; [apply Z.div_pos; lia|apply Z.div_le_upper_bound; lia]).
    rewrite saturate_id by (apply range32; lia). split; [lia|]. apply Z.mul_div_le. lia. }
  split.
  - intros y (x & -> & Hi)%list_elem_of_fmap. by apply Hx.
  - change (map ?f vec) with (f <$> vec). rewrite zsum_fmap. unfold id.
    assert (Hle : zsum (fun x => ONE * fixed64_to_fixed32 x) vec <= zsum id vec) by (apply zsum_le; intros x Hi; by apply Hx).
    rewrite zsum_mul in Hle. change (unit_ I64F64) with (ONE * ONE) in H1. pose proof (unit_pos I32F32). apply (Z.mul_le_mono_pos_l _ _ ONE); [done|]. etransitivity; [exact Hle|exact H1].
Qed.

(** A vector by uid that is normalised. *)
Definition shares (n : Z) (vec : list Z) : Prop := normal I32F32 vec /\ Z.of_nat (length vec) = n.

Lemma shares_in n vec : shares n vec -> vec_in ONE vec.
Proof using. intros [H _]. by apply normal_in. Qed.

Lemma normalize_shares n vec : Z.of_nat (length vec) = n -> (forall x, x ∈ vec -> 0 <= x) -> zsum id vec <= MAX ->
  shares n (inplace_normalize vec).
Proof using FL. intros Hl H0 H1. destruct (normalize_spec vec H0 H1) as [Hn Hlen]. split; [done|]. by rewrite Hlen. Qed.

Lemma epoch_stake_spec netuid s : epoch_ready netuid s -> shares (get_subnetwork_n netuid s) (epoch_stake netuid s).
Proof using FL.
  intros H. pose proof (uids_nonneg _ _ (er_uids _ _ H)) as Hn. unfold epoch_stake.
  destruct (get_stake_weights_for_network netuid s) as [[total alpha] tao] eqn:E.
  destruct (er_stake _ _ H total alpha tao E) as [H0 H1].
  assert (Hl : Z.of_nat (length total) = get_subnetwork_n netuid s).
  { unfold get_stake_weights_for_network in E. injection E as <- _ _. rewrite length_zip_with, !length_map, length_seqZ. lia. }
  set (f := fun x => if fixed64_to_u64 x <? get_stake_threshold s then 0 else x).
  assert (Hf : forall x, x ∈ total -> 0 <= f x <= x) by (intros x Hx; specialize (H0 x Hx); subst f; cbn; destruct (_ <? _); lia).
  destruct (normalize64_spec (map f total)) as [Hnorm Hlen].
  - intros y (x & -> & Hx)%list_elem_of_fmap. by apply Hf.
  - change (map f total) with (f <$> total). rewrite zsum_fmap. etransitivity; [|exact H1]. apply zsum_le. intros x Hx. by apply Hf.
  - split; [by apply truncated_sum|]. unfold vec_fixed64_to_fixed32. by rewrite length_map, Hlen, length_map.
Qed.

Lemma inactive_length netuid s : epoch_ready netuid s -> Z.of_nat (length (epoch_inactive netuid s)) = get_subnetwork_n netuid s.
Proof using. intros H. unfold epoch_inactive. rewrite length_map. by apply (uo_vecs _ _ (er_uids _ _ H) NetVec.LastUpdate). Qed.
Lemma permit_length netuid s : epoch_ready netuid s -> Z.of_nat (length (get_validator_permit netuid s)) = get_subnetwork_n netuid s.
Proof using. intros H. by apply (uo_bvecs _ _ (er_uids _ _ H) NetBoolVec.ValidatorPermit). Qed.
Lemma registration_length netuid s : epoch_ready netuid s ->
  Z.of_nat (length (get_block_at_registration netuid s)) = get_subnetwork_n netuid s.
Proof using.
  intros H. pose proof (uids_nonneg _ _ (er_uids _ _ H)). unfold get_block_at_registration. rewrite length_map, length_seqZ. lia.
Qed.

Lemma epoch_active_stake_spec netuid s stake : epoch_ready netuid s -> shares (get_subnetwork_n netuid s) stake ->
  exists active, epoch_active_stake netuid stake s = Some active /\ shares (get_subnetwork_n netuid s) active.
Proof using FL.
  intros H [[H0 H1] Hl]. pose proof (inactive_length _ _ H). pose proof (permit_length _ _ H). unfold epoch_active_stake.
  destruct (mask_vector_spec (epoch_inactive netuid s) stake) as (v & -> & Hlv & Hv0 & Hv1); [lia|done|]. cbn [mbind option_bind].
  destruct (mask_vector_spec (map negb (get_validator_permit netuid s)) v) as (w & -> & Hlw & Hw0 & Hw1); [rewrite length_map; lia|done|].
  cbn [mbind option_bind]. eexists. split; [reflexivity|]. pose proof one_max. apply normalize_shares; [lia|done|lia].
Qed.

(** ** Weights *)

Lemma epoch_weights_spec netuid s : epoch_ready netuid s -> let n := get_subnetwork_n netuid s in
  exists weights, epoch_weights netuid s = Some weights /\ mat_in n ONE weights /\ short n weights.
Proof using FL.
  intros H n. pose proof (uids_nonneg _ _ (er_uids _ _ H)) as Hn. pose proof (er_n _ _ H) as Hn'. fold n in Hn, Hn'.
  destruct (get_weights_spec netuid s H) as [Hm Hs]. fold n in Hm, Hs. unfold epoch_weights.
  destruct (mask_rows_spec n (U16_MAX * ONE) (map negb (get_validator_permit netuid s)) (get_weights_sparse netuid s))
    as (m1 & -> & Hm1 & Hs1); [rewrite length_map; by apply permit_length|done|done|]. cbn [mbind option_bind].
  set (m2 := match get_owner_uid netuid s with Some _ => _ | None => _ end).
  assert (H2 : mat_in n (U16_MAX * ONE) m2 /\ short n m2).
  { apply (rows_sublist n (U16_MAX * ONE) m1); [|done|done]. subst m2. destruct (get_owner_uid netuid s) as [o|].
    - unfold mask_diag_sparse_except_index. apply (enumerate_filter_sublist (fun i x => i <> x.1 \/ (i = o /\ x.1 = o))).
    - unfold mask_diag_sparse. apply (enumerate_filter_sublist (fun i x => i <> x.1)). }
  destruct H2 as [Hm2 Hs2].
  destruct (vec_mask_spec n (U16_MAX * ONE) m2 (get_last_update netuid s) (get_block_at_registration netuid s) Z.leb)
    as (m3 & -> & Hm3 & Hs3); [by apply (uo_vecs _ _ (er_uids _ _ H) NetVec.LastUpdate)|by apply registration_length|done|done|].
  cbn [mbind option_bind]. eexists. split; [reflexivity|]. by apply row_normalize_spec.
Qed.

(** ** Bonds and dividends *)

Lemma cells_weaken n b c m : b <= c -> mat_in n b m -> mat_in n c m.
Proof using.
  intros Hb [Hl Hm]. split; [done|]. unfold cells_in in *. eapply Forall_impl; [exact Hm|]. intros row Hrow.
  eapply Forall_impl; [exact Hrow|]. intros e [? ?]. split; [done|lia].
Qed.

Lemma old_bonds_spec netuid s b m : epoch_ready netuid s -> mat_in (get_subnetwork_n netuid s) b m ->
  exists m', epoch_old_bonds netuid m s = Some m' /\ mat_in (get_subnetwork_n netuid s) b m'.
Proof using. intros H Hm. unfold epoch_old_bonds. apply scalar_mask_spec; [by apply registration_length|done]. Qed.

Lemma compute_bonds_spec netuid s n weights bonds consensus : mat_in n MAX weights -> short n weights -> mat_in n MAX bonds ->
  exists ema, compute_bonds_sparse netuid weights bonds consensus s = Some ema /\ mat_in n MAX ema /\ short n ema.
Proof using FL EL.
  intros Hw Hsw Hb. unfold compute_bonds_sparse. destruct (_ && _).
  - unfold compute_liquid_alpha_values_sparse, assert_. destruct Hw as [Hlw Hw]. destruct Hb as [Hlb Hb].
    rewrite (proj2 (Nat.eqb_eq _ _)) by lia. cbn [mbind option_bind]. destruct (get_alpha_values_32 netuid s) as [lo hi].
    cbn [mbind option_bind].
    edestruct (mat_ema_alpha_spec n weights bonds) as (ema & -> & Hema & Hs); [by split|done|lia| |].
    2: { exists ema. split; [done|]. pose proof one_max. split; [by apply (cells_weaken n ONE); [lia|]|done]. }
    rewrite length_zip_with. lia.
  - apply mat_ema_spec; [done|done|]. unfold compute_disabled_liquid_alpha. apply sub_range; [apply plain_num_range|apply plain_fixed_range].
Qed.

Lemma interpolated_sum n r : 0 <= n <= 4096 -> filled n (n * n) r -> zsum id r <= MAX.
Proof using.
  intros Hn (_ & _ & Hs). etransitivity; [exact Hs|]. transitivity (ONE * (4096 * 4096)); [|vm_compute; congruence].
  apply Z.mul_le_mono_nonneg_l; [apply Z.lt_le_incl, unit_pos|nia].
Qed.

(** Entries of at most [n] each sum to a number that fits. *)
Lemma vec_in_fits n vec : 0 <= n <= 4096 -> Z.of_nat (length vec) = n -> vec_in (ONE * n) vec ->
  (forall x, x ∈ vec -> 0 <= x) /\ zsum id vec <= MAX.
Proof using.
  intros Hn Hl Hv. split; [intros x Hx; unfold vec_in in Hv; rewrite Forall_forall in Hv; by apply Hv|].
  pose proof (vec_in_sum _ _ Hv) as [_ Hs]. etransitivity; [exact Hs|].
  transitivity (ONE * (4096 * 4096)); [|vm_compute; congruence]. rewrite <- Z.mul_assoc.
  apply Z.mul_le_mono_nonneg_l; [apply Z.lt_le_incl, unit_pos|nia].
Qed.

Lemma dividends_yuma3_spec netuid s weights consensus incentive active : epoch_ready netuid s -> let n := get_subnetwork_n netuid s in
  mat_in n MAX weights -> short n weights -> shares n incentive -> shares n active ->
  exists dividends bonds, dividends_yuma3 netuid weights consensus incentive active s = Some (dividends, bonds) /\ shares n dividends.
Proof using FL EL.
  intros H n Hw Hsw Hi Ha. pose proof (uids_nonneg _ _ (er_uids _ _ H)) as Hn. pose proof (er_n _ _ H) as Hn'. fold n in Hn, Hn'.
  unfold dividends_yuma3.
  destruct (old_bonds_spec netuid s MAX _ H (get_bonds_proportion_spec netuid s H)) as (b1 & -> & Hb1). cbn [mbind option_bind]. fold n in Hb1 |- *.
  destruct (compute_bonds_spec netuid s n weights b1 consensus) as (ema & -> & Hema & Hs); [done..|]. cbn [mbind option_bind].
  destruct (col_normalize_spec n ema Hema) as (norm & -> & Hnorm & Hsn). specialize (Hsn Hs). cbn [mbind option_bind].
  do 2 eexists. split; [reflexivity|]. destruct (mat_vec_mul_spec n norm incentive) as [Hp Hps]; [done|done|by eapply shares_in|].
  destruct (row_sums_spec n (mat_vec_mul_sparse norm incentive)) as [Hlr Hr]; [lia|done|done|].
  assert (Hnm : 0 <= ONE * n <= MAX).
  { pose proof (unit_pos I32F32). split; [nia|]. transitivity (ONE * 4096); [nia|vm_compute; congruence]. }
  destruct (vec_mul_spec (ONE * n) (row_sum_sparse (mat_vec_mul_sparse norm incentive)) active) as [Hlv Hv];
    [done|done|by eapply shares_in|destruct Ha; lia|].
  destruct (vec_in_fits n (vec_mul (row_sum_sparse (mat_vec_mul_sparse norm incentive)) active)) as [? ?]; [lia|lia|done|].
  apply normalize_shares; [lia|done|done].
Qed.

Lemma dividends_yuma2_spec netuid s weights incentive active : epoch_ready netuid s -> let n := get_subnetwork_n netuid s in
  mat_in n MAX weights -> shares n incentive -> shares n active ->
  exists dividends bonds, dividends_yuma2 netuid weights incentive active s = Some (dividends, bonds) /\ shares n dividends.
Proof using FL.
  intros H n Hw Hi Ha. pose proof (uids_nonneg _ _ (er_uids _ _ H)) as Hn. pose proof (er_n _ _ H) as Hn'. fold n in Hn, Hn'.
  pose proof one_max. unfold dividends_yuma2.
  destruct (old_bonds_spec netuid s _ _ H (get_bonds_spec netuid s H)) as (b1 & -> & Hb1). cbn [mbind option_bind]. fold n in Hb1 |- *.
  apply (cells_weaken n _ MAX) in Hb1; [|vm_compute; congruence].
  destruct (col_normalize_spec n b1 Hb1) as (b2 & -> & Hb2 & _). cbn [mbind option_bind].
  destruct (col_normalize_spec n (row_hadamard_sparse weights active)) as (d & -> & Hd & _);
    [apply hadamard_spec; [done|apply Ha|by eapply shares_in]|]. cbn [mbind option_bind].
  unfold compute_ema_bonds_normal_sparse.
  edestruct (mat_ema_spec n d b2) as (ema & -> & Hema & Hs); [by apply (cells_weaken n ONE); [lia|]|by apply (cells_weaken n ONE); [lia|]| |].
  { apply sub_range; [apply from_num_range|]. apply from_fixed_range, safe_div_range; apply from_num_range. }
  cbn [mbind option_bind]. destruct (col_normalize_spec n ema Hema) as (norm & -> & Hnorm & Hsn). specialize (Hsn Hs). cbn [mbind option_bind].
  destruct (matmul_transpose_spec n norm incentive) as (r & -> & Hlr & Hr); [lia|done|done|apply Hi|by eapply shares_in|]. cbn [mbind option_bind].
  destruct (col_max_upscale_spec n norm) as (up & -> & _); [by apply (cells_weaken n ONE); [lia|]|]. cbn [mbind option_bind].
  do 2 eexists. split; [reflexivity|]. destruct (vec_in_fits n r) as [? ?]; [lia|done|done|]. by apply normalize_shares.
Qed.

(** ** The outcome *)

Record outcome_ok (n : Z) (o : Outcome) : Prop := {
  oo_stake : shares n (oc_stake o);
  oo_active_stake : shares n (oc_active_stake o);
  oo_incentive : shares n (oc_incentive o);
  oo_dividends : shares n (oc_dividends o);
}.

Lemma epoch_outcome_spec netuid s : epoch_ready netuid s ->
  exists o, epoch_outcome netuid s = Some o /\ outcome_ok (get_subnetwork_n netuid s) o.
Proof using FL EL.
  intros H. pose proof (uids_nonneg _ _ (er_uids _ _ H)) as Hn. pose proof (er_n _ _ H) as Hn'. unfold epoch_outcome.
  pose proof (epoch_stake_spec netuid s H) as Hst. destruct (epoch_active_stake_spec netuid s _ H Hst) as (active & -> & Ha).
  cbn [mbind option_bind]. destruct (epoch_weights_spec netuid s H) as (weights & -> & Hw & Hsw). cbn [mbind option_bind].
  set (n := get_subnetwork_n netuid s) in *. pose proof (shares_in _ _ Ha) as Hain. pose proof Ha as [_ Hla].
  destruct (matmul_spec n weights active) as (preranks & -> & Hpre); [done..|]. cbn [mbind option_bind].
  destruct (weighted_median_col_spec n ONE active weights (get_float_kappa netuid s)) as (consensus & -> & Hlc); [done..|]. cbn [mbind option_bind].
  destruct (col_clip_spec n ONE weights consensus) as (clipped & -> & Hc & Hsc); [done..|]. cbn [mbind option_bind].
  destruct (matmul_spec n clipped active) as (ranks & -> & Hr); [done..|]. cbn [mbind option_bind].
  unfold vecdiv, assert_. rewrite (proj2 (Nat.eqb_eq _ _)) by (destruct Hr, Hpre; lia). cbn [mbind option_bind].
  destruct (interpolate_spec n weights clipped (get_float_bonds_penalty netuid s)) as (wfb & -> & Hwfb & Hswfb);
    [done..| |]. { apply safe_div_range; apply from_num_range. }
  cbn [mbind option_bind]. assert (Hi : shares n (inplace_normalize ranks)).
  { pose proof (interpolated_sum n ranks ltac:(lia) Hr). destruct Hr as (? & Hv & _). apply normalize_shares; [done| |done].
    intros x Hx. unfold vec_in in Hv. rewrite Forall_forall in Hv. by apply Hv. }
  destruct (get_yuma3_enabled netuid s).
  - destruct (dividends_yuma3_spec netuid s wfb consensus (inplace_normalize ranks) active) as (d & b & -> & Hd); [done..|].
    cbn [mbind option_bind]. eexists. split; [reflexivity|]. by split.
  - destruct (dividends_yuma2_spec netuid s wfb (inplace_normalize ranks) active) as (d & b & -> & Hd); [done..|].
    cbn [mbind option_bind]. eexists. split; [reflexivity|]. by split.
Qed.

(** ** Dividing the emission *)

(** Two vectors by uid that share one whole. *)
Record parts (n : Z) (p q : list Z) : Prop := {
  pa_p : Z.of_nat (length p) = n;
  pa_q : Z.of_nat (length q) = n;
  pa_p0 : forall x, x ∈ p -> 0 <= x;
  pa_q0 : forall x, x ∈ q -> 0 <= x;
  pa_sum : zsum id p + zsum id q <= ONE;
}.

Lemma nonneg_sum vec : (forall x, x ∈ vec -> 0 <= x) -> 0 <= zsum id vec.
Proof using. intros H. by apply zsum_nonneg. Qed.

Lemma combined_sum n x y : shares n x -> shares n y ->
  zsum id (zip_with (saturating_add I32F32) x y) = zsum id x + zsum id y /\
  (forall z, z ∈ zip_with (saturating_add I32F32) x y -> 0 <= z).
Proof using FL.
  intros Hx Hy. assert (Hl : length x = length y) by (destruct Hx, Hy; lia).
  apply shares_in in Hx, Hy. unfold vec_in in *. revert y Hl Hy.
  induction Hx as [|u x Hu Hx IH]; intros [|v y] Hl Hy; try done.
  { split; [done|]. by intros z Hz%elem_of_nil. }
  apply Forall_cons in Hy as [Hv Hy]. injection Hl as Hl. destruct (IH y Hl Hy) as [IH1 IH2]. cbn [zip_with].
  assert (Ha : saturating_add I32F32 u v = u + v).
  { assert (ONE + ONE <= MAX) by (vm_compute; congruence). rewrite add_spec by (apply range32; lia). apply saturate_id, range32. lia. }
  rewrite !zsum_cons, IH1, Ha. unfold id. split; [lia|]. intros z [->|Hz]%elem_of_cons; [lia|by apply IH2].
Qed.

Lemma normalized_parts n o : outcome_ok n o -> forall server validator combined,
  normalized_emission o = (server, validator, combined) -> parts n server validator.
Proof using FL.
  intros Ho server validator combined E. destruct Ho as [Hst Ha Hi Hd]. unfold normalized_emission in E.
  pose proof (combined_sum _ _ _ Hi Hd) as [Hsum Hnn]. set (comb := zip_with _ _ _) in *.
  pose proof Hi as [[Hi0 Hi1] Hli]. pose proof Hd as [[Hd0 Hd1] Hld].
  pose proof (nonneg_sum _ Hi0). pose proof (nonneg_sum _ Hd0). 
  assert (HM : ONE + ONE <= MAX) by (vm_compute; congruence).
  rewrite (sum_nonneg I32F32 comb) in E by (done || lia). unfold inplace_normalize_using_sum in E. rewrite num0 in E.
  destruct (Z.eqb_spec (zsum id comb) 0) as [E0|E0].
  - assert (Hzero : zsum id (oc_incentive o) = 0) by lia.
    assert (G : forall v, shares n v -> parts n (oc_incentive o) v).
    { intros v [[Hv0 Hv1] Hlv]. split; [done..|lia]. }
    destruct (is_zero _); injection E as <- <- <-; by apply G.
  - injection E as <- <- <-. set (S := zsum id comb) in *. assert (HS : 0 < S <= MAX) by lia.
    assert (Hq : forall v x, (forall y, y ∈ v -> 0 <= y) -> zsum id v <= S -> x ∈ v -> 0 <= div x S /\ S * div x S <= x * ONE).
    { intros v x Hv Hs Hx. pose proof (vec_in_elem x v Hv Hx). specialize (Hv x Hx).
      pose proof (div32 x S ltac:(lia) ltac:(lia)). lia. }
    assert (Hs : forall v, (forall y, y ∈ v -> 0 <= y) -> zsum id v <= S -> S * zsum id (map (fun x => div x S) v) <= ONE * zsum id v).
    { intros v Hv Hs. change (map ?f v) with (f <$> v). rewrite zsum_fmap, <- !zsum_mul. unfold id. apply zsum_le. intros x Hx.
      destruct (Hq v x Hv Hs Hx). lia. }
    split; [by rewrite length_map|by rewrite length_map| | |].
    + intros y (x & -> & Hx)%list_elem_of_fmap. by apply (Hq (oc_incentive o)); [|lia|].
    + intros y (x & -> & Hx)%list_elem_of_fmap. by apply (Hq (oc_dividends o)); [|lia|].
    + pose proof (Hs (oc_incentive o) Hi0 ltac:(lia)). pose proof (Hs (oc_dividends o) Hd0 ltac:(lia)).
      apply (Z.mul_le_mono_pos_l _ _ S); [lia|]. rewrite Z.mul_add_distr_l, (Z.mul_comm S ONE). etransitivity; [apply Z.add_le_mono; eassumption|].
      rewrite <- Z.mul_add_distr_l, <- Hsum. done.
Qed.

(** One part of the emission, in rao. *)
Lemma scale_part e x : 0 <= e <= U64_MAX -> 0 <= x <= ONE ->
  to_num I96F32 u64 (saturating_mul I96F32 (from_fixed I96F32 I32F32 x) (from_num I96F32 e)) = x * e / ONE.
Proof using FL.
  intros He Hx. pose proof (unit_pos I32F32) as Hu.
  assert (HU : U64_MAX * ONE <= max_bits I96F32) by (vm_compute; congruence).
  assert (HO : ONE <= max_bits I96F32) by (vm_compute; congruence).
  assert (HeO : e * ONE <= max_bits I96F32) by nia. assert (Hxe : x * e <= e * ONE) by nia.
  rewrite from_fixed_spec by (apply range32; pose proof one_max; lia). change (unit_ I96F32) with ONE.
  rewrite Z.div_mul by lia. rewrite saturate_id by (apply fixed_range_pos; lia).
  rewrite from_num_exact by (change (unit_ I96F32) with ONE; lia). change (unit_ I96F32) with ONE.
  rewrite mul_spec by (try apply fixed_range_pos; nia). change (unit_ I96F32) with ONE. rewrite Z.mul_assoc, Z.div_mul by lia.
  rewrite saturate_id by (apply fixed_range_pos; nia). rewrite to_num_spec by (try apply fixed_range_pos; nia).
  change (unit_ I96F32) with ONE. unfold clamp. change (int_min u64) with 0. change (int_max u64) with U64_MAX.
  assert (0 <= x * e / ONE <= e) by (split; [apply Z.div_pos; nia|apply Z.div_le_upper_bound; lia]). lia.
Qed.

Lemma scale_spec e vec : 0 <= e <= U64_MAX -> (forall x, x ∈ vec -> 0 <= x) -> zsum id vec <= ONE ->
  (forall x, x ∈ scale_emission e vec -> 0 <= x) /\ ONE * zsum id (scale_emission e vec) <= e * zsum id vec.
Proof using FL.
  intros He H0 H1. pose proof (unit_pos I32F32).
  assert (Hx : forall x, x ∈ vec -> 0 <= x <= ONE) by (intros x Hx; pose proof (vec_in_elem x vec H0 Hx); specialize (H0 x Hx); lia).
  unfold scale_emission. split.
  - intros y (x & -> & Hi)%list_elem_of_fmap. specialize (Hx x Hi). rewrite scale_part by done. apply Z.div_pos; nia.
  - change (map ?f vec) with (f <$> vec). rewrite zsum_fmap, <- !zsum_mul. unfold id. apply zsum_le. intros x Hi. specialize (Hx x Hi).
    rewrite scale_part by done. pose proof (Z.mul_div_le (x * e) ONE ltac:(lia)). lia.
Qed.

(** ** The list of payments *)

Lemma zsum_at vec : zsum (fun i => default 0 (at_ vec i)) (seqZ 0 (Z.of_nat (length vec))) = zsum id vec.
Proof using.
  unfold seqZ. rewrite Nat2Z.id. change (@fmap list _ nat Z) with (@fmap list list_fmap nat Z). rewrite zsum_fmap.
  transitivity (zsum (fun i => default 0 (vec !! i)) (seq 0 (length vec))).
  { apply zsum_ext. intros i _. unfold at_. by rewrite Z.add_0_r, Nat2Z.id. }
  induction vec as [|x vec IH]; [done|]. cbn [length seq]. rewrite !zsum_cons. cbn. unfold id at 1. f_equal.
  rewrite <- fmap_S_seq, zsum_fmap. exact IH.
Qed.

Definition pay (t : AccountId * Z * Z) : Z := t.1.2 + t.2.

Lemma payments netuid s server validator : uids_ok s netuid ->
  Z.of_nat (length server) = get_subnetwork_n netuid s -> Z.of_nat (length validator) = get_subnetwork_n netuid s ->
  (forall x, x ∈ server -> 0 <= x) -> (forall x, x ∈ validator -> 0 <= x) ->
  exists l, mapM (fun '(uid_i, hotkey) =>
      server_i ← at_ server uid_i; validator_i ← at_ validator uid_i; Some (hotkey, server_i, validator_i))
      (iter_subnet netuid (Keys s)) = Some l /\
    l.*1.*1 = (iter_subnet netuid (Keys s)).*2 /\
    (forall h i d, (h, i, d) ∈ l -> 0 <= i /\ 0 <= d) /\ zsum pay l <= zsum id server + zsum id validator.
Proof using.
  intros Hok Hls Hlv Hs Hv.
  assert (Huid : forall uid h, (uid, h) ∈ iter_subnet netuid (Keys s) -> 0 <= uid < get_subnetwork_n netuid s).
  { intros uid h Hin%elem_of_iter_subnet. apply (uo_keys _ _ Hok). by eexists. }
  set (amount := fun uid => default 0 (at_ server uid) + default 0 (at_ validator uid)).
  assert (G : exists l, mapM (fun '(uid_i, hotkey) =>
      server_i ← at_ server uid_i; validator_i ← at_ validator uid_i; Some (hotkey, server_i, validator_i))
      (iter_subnet netuid (Keys s)) = Some l /\ l.*1.*1 = (iter_subnet netuid (Keys s)).*2 /\
      (forall h i d, (h, i, d) ∈ l -> 0 <= i /\ 0 <= d) /\ zsum pay l = zsum amount (iter_subnet netuid (Keys s)).*1).
  { induction (iter_subnet netuid (Keys s)) as [|[uid h] k IH]; [exists []; split_and!; try done; by intros ? ? ? ?%elem_of_nil|].
    destruct IH as (l & E & Hh & Hpos & Hsum); [intros u h' Hin; eapply Huid; by apply list_elem_of_further|].
    pose proof (Huid uid h (list_elem_of_here _ _)). destruct (at_is_Some server uid) as [x Hx]; [lia|].
    destruct (at_is_Some validator uid) as [y Hy]; [lia|]. exists ((h, x, y) :: l). cbn. rewrite Hx, Hy. cbn. rewrite E. cbn.
    split; [done|]. split; [by f_equal|]. split.
    - intros h' i d [E'|Hin]%elem_of_cons; [|by eapply Hpos]. simplify_eq. split; [by apply Hs, (at_elem _ uid)|by apply Hv, (at_elem _ uid)].
    - change (pay (h, x, y) + zsum pay l = amount uid + zsum amount k.*1). rewrite Hsum. f_equal. unfold amount, pay. by rewrite Hx, Hy. }
  destruct G as (l & E & Hh & Hpos & Hsum). exists l. do 3 (split; [done|]). rewrite Hsum.
  assert (Hn : seqZ 0 (get_subnetwork_n netuid s) = seqZ 0 (Z.of_nat (length server)) /\
    seqZ 0 (get_subnetwork_n netuid s) = seqZ 0 (Z.of_nat (length validator))) by (split; f_equal; lia).
  rewrite <- (zsum_at server), <- (zsum_at validator). rewrite <- (proj1 Hn), <- (proj2 Hn), <- zsum_plus.
  apply zsum_submseteq.
  - intros i Hi%elem_of_seqZ. destruct (at_is_Some server i) as [x Hx]; [lia|]. destruct (at_is_Some validator i) as [y Hy]; [lia|].
    rewrite Hx, Hy. cbn. specialize (Hs x (at_elem _ _ _ Hx)). specialize (Hv y (at_elem _ _ _ Hy)). lia.
  - apply NoDup_submseteq; [apply NoDup_iter_subnet|]. intros i ([uid h] & -> & Hin)%list_elem_of_fmap.
    apply elem_of_seqZ. pose proof (Huid uid h Hin). cbn. lia.
Qed.

(** C15: An epoch pays out no more than it is given. On a subnet that is well
    formed, whatever its weights, bonds, stakes and parameters, the epoch runs
    to its end without a trap; it lists exactly the hotkeys registered on the
    subnet; no incentive or dividend is negative; and together they are at most
    the emission of the epoch. *)
Theorem epoch_pays_at_most_emission netuid (rao_emission : Z) s :
  epoch_ready netuid s -> 0 <= rao_emission <= U64_MAX ->
  exists l s', epoch netuid rao_emission s = Some (l, s') /\
    (forall h, h ∈ l.*1.*1 <-> is_Some (Uids s !! (netuid, h))) /\
    (forall h incentive dividend, (h, incentive, dividend) ∈ l -> 0 <= incentive /\ 0 <= dividend) /\
    zsum (fun '(_, incentive, dividend) => incentive + dividend) l <= rao_emission.
Proof using FL EL.
  intros H He. unfold epoch. destruct (epoch_outcome_spec netuid s H) as (o & -> & Ho). cbn [mbind option_bind].
  destruct (normalized_emission o) as [[server validator] combined] eqn:E.
  pose proof (normalized_parts _ o Ho _ _ _ E) as [Hlp Hlq Hp Hq Hsum]. pose proof (nonneg_sum _ Hp). pose proof (nonneg_sum _ Hq).
  destruct (scale_spec rao_emission server He Hp ltac:(lia)) as [Hp' Hps].
  destruct (scale_spec rao_emission validator He Hq ltac:(lia)) as [Hq' Hqs].
  destruct (payments netuid s (scale_emission rao_emission server) (scale_emission rao_emission validator) (er_uids _ _ H))
    as (l & El & Hh & Hpos & Hpay); [unfold scale_emission; by rewrite length_map|unfold scale_emission; by rewrite length_map|done|done|].
  cbv zeta. rewrite El. cbn [mbind option_bind]. do 2 eexists. split; [reflexivity|]. split; [|split; [done|]].
  - intros h. rewrite Hh. split.
    + intros ([uid h'] & -> & Hin%elem_of_iter_subnet)%list_elem_of_fmap. exists uid. by apply (uo_uids _ _ (er_uids _ _ H)).
    + intros [uid Hu%(uo_uids _ _ (er_uids _ _ H))]. apply list_elem_of_fmap. exists (uid, h). split; [done|]. by apply elem_of_iter_subnet.
  - transitivity (zsum pay l); [apply Z.eq_le_incl, zsum_ext; by intros [[h i] d] _|]. pose proof (unit_pos I32F32).
    etransitivity; [exact Hpay|]. apply (Z.mul_le_mono_pos_l _ _ ONE); [done|]. nia.
Qed.

(** ** What the epoch writes *)

(** The vectors by uid and the bonds are all that changes. *)
Definition consensus_only (s s' : St) : Prop := exists vecs flags bonds,
  s' = s <| net_vecs := vecs |> <| net_bool_vecs := flags |> <| Bonds := bonds |>.

Lemma only_refl s : consensus_only s s.
Proof using. exists (net_vecs s), (net_bool_vecs s), (Bonds s). by destruct s. Qed.
Lemma only_vec s t i n v : consensus_only s t -> consensus_only s (put_vec i n v t).
Proof using. intros (x & y & z & ->). by exists (<[(i, n) := v]> x), y, z. Qed.
Lemma only_bvec s t i n v : consensus_only s t -> consensus_only s (put_bvec i n v t).
Proof using. intros (x & y & z & ->). by exists x, (<[(i, n) := v]> y), z. Qed.
Lemma only_bonds s t f : consensus_only s t -> consensus_only s (t <| Bonds ::= f |>).
Proof using. intros (x & y & z & ->). by exists x, y, (f z). Qed.
#[local] Hint Resolve only_refl only_vec only_bvec only_bonds : chain.

Lemma store_outcome_frame netuid o c nc a np vp s : consensus_only s (store_outcome netuid o c nc a np vp s).
Proof using.
  unfold store_outcome. generalize (enumerate (zip (zip np vp) (oc_bonds o))). intros l. cbv zeta.
  assert (G : forall t, consensus_only s t -> consensus_only s (foldl (store_bonds netuid) t l)).
  { induction l as [|[i [[n v] b]] l IH]; intros t Ht; [done|]. apply IH. unfold store_bonds.
    destruct n; [|destruct v]; eauto with chain. }
  apply G. auto 20 with chain.
Qed.

#[export] Instance yuma_epoch : YumaEpoch W := {|
  Coinbase.epoch n e s := default ([], s) (epoch n e s);
|}.

#[export] Instance yuma_epoch_laws : YumaEpochLaws W.
Proof using.
  split. intros n e s. cbn. destruct (epoch n e s) as [[l s']|] eqn:E; cbn.
  - unfold epoch in E. destruct (epoch_outcome n s) as [o|]; [|done]. cbn [mbind option_bind] in E.
    destruct (normalized_emission o) as [[server validator] combined].
    destruct (mapM _ _) as [tuples|]; [|done]. cbn in E. injection E as _ <-. apply store_outcome_frame.
  - apply only_refl.
Qed.
End EpochPays.
