(* ===== verification/EpochSlots.v ===== *)
(** * An epoch keeps the slots of the subnets

    Whatever the weights and the stake, the vectors an epoch stores have an entry
    for every neuron: the lengths are followed through the matrix operations of
    [EpochMatrix], each of which either traps or keeps them. *)

From S2P Require Import Prelude Frame Fixed SharePool Storage Misc Uids Symbols Reserves Registration Identity.
From S2P Require Import RateLimiting Children Staking StakeWeights BlockStep EpochMath Weights EpochMatrix EpochBounds Emission Network Lifecycle.
From S2P Require Import KeySwap Calls CallSlots Dividends Coinbase Epoch EpochPays.
From stdpp Require Import prelude gmap list fin_maps.
From Stdlib Require Import ZArith Lia.
#[local] Open Scope Z_scope.

Section Lengths.
Context {F : SubstrateFixed} {EF : EpochFixed}.
Implicit Types (vec : list Z) (m : Sparse).

Lemma length_update_at {A} (l l' : list A) i f : update_at l i f = Some l' -> length l' = length l.
Proof using. unfold update_at. destruct (at_ l i); [|done]. intros [= <-]. apply length_insert. Qed.

(** A fold that keeps a property of its accumulator whenever it does not trap. *)
Lemma fold_opt_keeps {A B} (P : A -> Prop) (f : A -> B -> option A) l :
  (forall a x b, f a x = Some b -> P a -> P b) -> forall a b, fold_opt f a l = Some b -> P a -> P b.
Proof using.
  intros Hf. induction l as [|x l IH]; intros a b H Ha; cbn in H; [by simplify_eq|].
  destruct (f a x) as [c|] eqn:E; [|done]. eapply IH; [exact H|]. by eapply Hf.
Qed.

Lemma length_enumerate {A} (l : list A) : length (enumerate l) = length l.
Proof using. apply length_imap. Qed.
Lemma length_zeros n : length (zeros n) = Z.to_nat n.
Proof using. apply length_replicate. Qed.

Lemma length_normalize vec : length (inplace_normalize vec) = length vec.
Proof using. unfold inplace_normalize. destruct (_ =? _); [done|]. apply length_map. Qed.
Lemma length_normalize_64 vec : length (inplace_normalize_64 vec) = length vec.
Proof using. unfold inplace_normalize_64. destruct (_ =? _); [done|]. apply length_map. Qed.
Lemma length_upscale vec : length (vec_max_upscale_to_u16 vec) = length vec.
Proof using. unfold vec_max_upscale_to_u16. repeat case_match; apply length_map. Qed.
Lemma length_topk vec k : length (is_topk_nonzero vec k) = length vec.
Proof using.
  unfold is_topk_nonzero, clear_smallest. destruct (_ <? k); [apply length_map|].
  generalize (take (Z.to_nat (sat_sub (Z.of_nat (length vec)) k)) (sort_by_key (fun i => nth i vec 0) (seq 0 (length vec)))). intros l.
  transitivity (length (map (fun elem => negb (elem =? 0)) vec)); [|apply length_map].
  generalize (map (fun elem => negb (elem =? 0)) vec). induction l as [|i l IH]; intros r; [done|]. cbn. by rewrite IH, length_insert.
Qed.

Lemma length_mask mask vec vec' : inplace_mask_vector mask vec = Some vec' -> length vec' = length vec.
Proof using.
  unfold inplace_mask_vector, assert_. destruct mask as [|b mask]; [by intros [= <-]|].
  destruct (Nat.eqb_spec (length (b :: mask)) (length vec)) as [E|]; [|done]. intros [= H].
  apply (f_equal length) in H. change (length (zip_with (fun (b : bool) v => if b then from_num I32F32 0 else v) (b :: mask) vec) = length vec') in H.
  rewrite length_zip_with in H. lia.
Qed.
Lemma length_vecdiv x y z : vecdiv x y = Some z -> length z = length x.
Proof using.
  unfold vecdiv, assert_. destruct (Nat.eqb_spec (length x) (length y)) as [E|]; [|done]. cbn [mbind option_bind]. intros [= <-].
  rewrite length_zip_with. lia.
Qed.
Lemma length_mask_rows mask m m' : mask_rows_sparse mask m = Some m' -> length m' = length m.
Proof using.
  unfold mask_rows_sparse, assert_. destruct (Nat.eqb_spec (length m) (length mask)) as [E|]; [|done]. intros [= <-].
  rewrite length_zip_with. lia.
Qed.
Lemma length_vec_mask m f s g m' : vec_mask_sparse_matrix m f s g = Some m' -> length m' = length m.
Proof using. intros H. apply length_mapM in H. by rewrite <- H, length_enumerate. Qed.
Lemma length_scalar_mask m c v g m' : scalar_vec_mask_sparse_matrix m c v g = Some m' -> length m' = length m.
Proof using. intros H. by apply length_mapM in H. Qed.
Lemma length_col_normalize m n m' : inplace_col_normalize_sparse m n = Some m' -> length m' = length m.
Proof using. unfold inplace_col_normalize_sparse. destruct (col_sum_sparse m n); [|done]. intros H. by apply length_mapM in H. Qed.
Lemma length_col_clip m t m' : col_clip_sparse m t = Some m' -> length m' = length m.
Proof using. intros H. by apply length_mapM in H. Qed.
Lemma length_transpose m v r : matmul_transpose_sparse m v = Some r -> length r = length m.
Proof using. intros H. by apply length_mapM in H. Qed.

Lemma length_matmul m v n r : matmul_sparse m v n = Some r -> length r = Z.to_nat n.
Proof using.
  unfold matmul_sparse. intros H. eapply (fold_opt_keeps (fun a => length a = Z.to_nat n)) in H; [done| |apply length_zeros].
  intros a [i row] b Hr. apply (fold_opt_keeps (fun c => length c = Z.to_nat n)) with (2 := Hr). intros c [j x] d Hd <-.
  destruct (at_ v i); [|done]. by apply length_update_at in Hd.
Qed.

Lemma length_median stake score n k r : weighted_median_col_sparse stake score n k = Some r -> length r = Z.to_nat n.
Proof using.
  unfold weighted_median_col_sparse. destruct (fold_opt _ _ _) as [[u i]|] eqn:E; [|done]. cbn [mbind option_bind]. intros H.
  apply length_mapM in H. rewrite <- H. clear H.
  apply (fold_opt_keeps (fun p : list (list Z) * Z => length p.1 = Z.to_nat n)) in E; [done| |apply length_replicate].
  intros [a j] [x s] [b j'] Hb. cbn. destruct (s <=? from_num I32F32 0); [by simplify_eq|]. destruct (at_ score x) as [row|]; [|done]. cbn in Hb.
  destruct (fold_opt (score_row j) a row) as [c|] eqn:Ec; [|done]. injection Hb as <- _.
  apply (fold_opt_keeps (fun p : list (list Z) => length p = Z.to_nat n)) with (2 := Ec).
  intros p [q y] p' Hp. unfold score_row in Hp. destruct (at_ p q); [|done]. cbn in Hp. destruct (update_at _ j _); [|done]. cbn in Hp.
  by apply length_update_at in Hp as ->.
Qed.

Lemma length_interpolate m1 m2 n r m' : interpolate_sparse m1 m2 n r = Some m' -> length m2 = length m1 -> length m' = length m1.
Proof using.
  unfold interpolate_sparse, assert_. destruct (r =? _); [by intros [= <-]|]. destruct (r =? _); [by intros [= <-]|].
  destruct (_ =? _)%nat; [|done]. intros [= <-] H. rewrite length_zip_with. lia.
Qed.
Lemma length_ema new old a m' : mat_ema_sparse new old a = Some m' -> length m' = length new.
Proof using.
  unfold mat_ema_sparse, assert_. destruct (Nat.eqb_spec (length new) (length old)) as [E|]; [|done]. cbn. intros H.
  apply length_mapM in H. rewrite <- H, length_zip_with. lia.
Qed.
Lemma length_ema_alpha new old a m' : mat_ema_alpha_sparse new old a = Some m' -> length m' = length new.
Proof using.
  unfold mat_ema_alpha_sparse, assert_. destruct (Nat.eqb_spec (length new) (length old)) as [E|]; [|done]. cbn.
  destruct (Nat.eqb_spec (length new) (length a)) as [E'|]; [|done]. intros [= <-]. rewrite length_map, !length_zip_with. lia.
Qed.
End Lengths.

Section Epoch.
Context {FS : FrameSystem} {Cfg : SubtensorConfig} {SI : StorageIter} {W : Type}.
Context {Env : SubtensorEnv W} {F : SubstrateFixed} {EF : EpochFixed}.
Abbreviation St := (Storage W).
Implicit Types (s : St) (netuid : Z).

Lemma length_rows n f l m : length (foldl (push_row n f) m l) = length m.
Proof using.
  revert m. induction l as [|[u r] l IH]; intros m; [done|]. cbn. rewrite IH. destruct (u <? n); [apply length_alter|done].
Qed.
Lemma length_weights netuid s m : epoch_weights netuid s = Some m -> length m = Z.to_nat (get_subnetwork_n netuid s).
Proof using.
  unfold epoch_weights. destruct (mask_rows_sparse _ _) as [w|] eqn:E; [|done]. cbn [mbind option_bind].
  destruct (vec_mask_sparse_matrix _ _ _ _) as [w'|] eqn:E'; [|done]. intros [= <-].
  apply length_mask_rows in E. apply length_vec_mask in E'. unfold get_weights_sparse in E. rewrite length_rows, length_replicate in E.
  unfold inplace_row_normalize_sparse. rewrite length_map, E', <- E. destruct (get_owner_uid netuid s);
    unfold mask_diag_sparse_except_index, mask_diag_sparse; by rewrite length_map, length_enumerate.
Qed.
Lemma length_stake netuid s : length (epoch_stake netuid s) = Z.to_nat (get_subnetwork_n netuid s).
Proof using.
  unfold epoch_stake, get_stake_weights_for_network, vec_fixed64_to_fixed32.
  rewrite length_map, length_normalize_64, length_map, length_zip_with, !length_map, length_seqZ. lia.
Qed.
Lemma length_active_stake netuid stake s v : epoch_active_stake netuid stake s = Some v -> length v = length stake.
Proof using.
  unfold epoch_active_stake. destruct (inplace_mask_vector _ stake) as [x|] eqn:E; [|done]. cbn [mbind option_bind].
  destruct (inplace_mask_vector _ x) as [y|] eqn:E'; [|done]. intros [= <-]. apply length_mask in E, E'. by rewrite length_normalize, E', E.
Qed.

Lemma length_yuma3 netuid w c i a s d b : dividends_yuma3 netuid w c i a s = Some (d, b) -> length w = length a -> length d = length a.
Proof using.
  unfold dividends_yuma3. destruct (epoch_old_bonds _ _ _) as [o|]; [|done]. cbn [mbind option_bind].
  destruct (compute_bonds_sparse _ _ _ _ _) as [e|] eqn:E; [|done]. cbn [mbind option_bind].
  destruct (inplace_col_normalize_sparse e _) as [e'|] eqn:E'; [|done]. intros [= <- _] Hw.
  apply length_col_normalize in E'. assert (length e = length w) as He.
  { unfold compute_bonds_sparse in E. destruct (_ && _); [|by eapply length_ema].
    destruct (compute_liquid_alpha_values_sparse _ _ _ _ _); [|done]. by apply length_ema_alpha in E. }
  rewrite length_normalize. unfold vec_mul, row_sum_sparse, mat_vec_mul_sparse. rewrite length_zip_with, !length_map. lia.
Qed.
Lemma length_yuma2 netuid w i a s d b : dividends_yuma2 netuid w i a s = Some (d, b) -> length w = length a -> length d = length a.
Proof using.
  unfold dividends_yuma2. destruct (epoch_old_bonds _ _ _) as [o|]; [|done]. cbn [mbind option_bind].
  destruct (inplace_col_normalize_sparse o _) as [o'|]; [|done]. cbn [mbind option_bind].
  destruct (inplace_col_normalize_sparse _ _) as [e|] eqn:E; [|done]. cbn [mbind option_bind].
  destruct (compute_ema_bonds_normal_sparse _ _ _ _) as [f|] eqn:Ef; [|done]. cbn [mbind option_bind].
  destruct (inplace_col_normalize_sparse f _) as [g|] eqn:Eg; [|done]. cbn [mbind option_bind].
  destruct (matmul_transpose_sparse _ _) as [r|] eqn:Er; [|done]. cbn [mbind option_bind].
  destruct (inplace_col_max_upscale_sparse _ _) as [u|]; [|done]. intros [= <- _] Hw.
  apply length_col_normalize in E, Eg. apply length_ema in Ef. apply length_transpose in Er. rewrite length_normalize, Er, Eg, Ef, E.
  unfold row_hadamard_sparse. rewrite length_zip_with. lia.
Qed.

(** Every vector of the outcome has an entry for each neuron. *)
Lemma outcome_lengths netuid s o : epoch_outcome netuid s = Some o ->
  Forall (fun v => length v = Z.to_nat (get_subnetwork_n netuid s))
    [oc_stake o; oc_active_stake o; oc_ranks o; oc_trust o; oc_consensus o; oc_validator_trust o; oc_incentive o; oc_dividends o].
Proof using.
  unfold epoch_outcome. cbv zeta.
  destruct (epoch_active_stake _ _ _) as [a|] eqn:Ea; [|done]. cbn [mbind option_bind].
  destruct (epoch_weights _ _) as [w|] eqn:Ew; [|done]. cbn [mbind option_bind].
  destruct (matmul_sparse w _ _) as [p|] eqn:Ep; [|done]. cbn [mbind option_bind].
  destruct (weighted_median_col_sparse _ _ _ _) as [c|] eqn:Ec; [|done]. cbn [mbind option_bind].
  destruct (col_clip_sparse _ _) as [k|] eqn:Ek; [|done]. cbn [mbind option_bind].
  destruct (matmul_sparse k _ _) as [r|] eqn:Er; [|done]. cbn [mbind option_bind].
  destruct (vecdiv _ _) as [t|] eqn:Et; [|done]. cbn [mbind option_bind].
  destruct (interpolate_sparse _ _ _ _) as [b|] eqn:Eb; [|done]. cbn [mbind option_bind].
  destruct (if get_yuma3_enabled netuid s then _ else _) as [[d e]|] eqn:Ed; [|done]. intros [= <-].
  cbn [oc_stake oc_active_stake oc_ranks oc_trust oc_consensus oc_validator_trust oc_incentive oc_dividends].
  apply length_active_stake in Ea. rewrite length_stake in Ea. apply length_weights in Ew. apply length_median in Ec. apply length_col_clip in Ek.
  apply length_matmul in Er. apply length_vecdiv in Et. apply length_interpolate in Eb; [|done].
  assert (length d = length a) as Hd.
  { destruct (get_yuma3_enabled netuid s); [eapply length_yuma3|eapply length_yuma2]; try exact Ed; lia. }
  unfold row_sum_sparse. rewrite !Forall_cons. split_and!; rewrite ?length_stake, ?length_normalize, ?length_map; first [lia | constructor].
Qed.

Lemma ok_store_outcome netuid o c nc a np vp s : let n := Z.to_nat (get_subnetwork_n netuid s) in
  Forall (fun v => length v = n) [c; nc; oc_ranks o; oc_trust o; oc_consensus o; oc_validator_trust o; oc_incentive o; oc_dividends o] ->
  length a = n -> length np = n -> networks_ok s -> networks_ok (store_outcome netuid o c nc a np vp s).
Proof using.
  cbv zeta. rewrite !Forall_cons. intros (H1 & H2 & H3 & H4 & H5 & H6 & H7 & H8 & _) Ha Hp Hok. unfold store_outcome. cbv zeta.
  apply ok_foldl.
  { intros x [i [[p v] b]] Hx. unfold store_bonds. destruct p; [|destruct v; [|done]]; apply (networks_ok_same x); done || by split. }
  assert (forall i, per_uid i = true -> length (get_vec i netuid s) = Z.to_nat (get_subnetwork_n netuid s)) as Hv.
  { intros i Hi. pose proof (uo_vecs _ _ (proj1 (Hok netuid)) i Hi). lia. }
  assert (forall i, length (get_bvec i netuid s) = Z.to_nat (get_subnetwork_n netuid s)) as Hb.
  { intros i. pose proof (uo_bvecs _ _ (proj1 (Hok netuid)) i). lia. }
  repeat first [apply ok_put_vec; [intros Hi|] | apply ok_put_bvec]; rewrite ?length_map, ?length_upscale; try done.
  all: st_read; rewrite ?H1, ?H2, ?H3, ?H4, ?H5, ?H6, ?H7, ?H8, ?Ha, ?Hp; rewrite ?Hv, ?Hb; done.
Qed.

(** An epoch keeps the slots, of its subnet and of the others. *)
Lemma ok_epoch netuid e s : networks_ok s -> networks_ok (Coinbase.epoch netuid e s).2.
Proof using.
  intros Hok. cbn. destruct (epoch netuid e s) as [[l s']|] eqn:E; cbn; [|done].
  unfold epoch in E. destruct (epoch_outcome netuid s) as [o|] eqn:Eo; [|done]. cbn [mbind option_bind] in E.
  apply outcome_lengths in Eo. rewrite !Forall_cons in Eo. destruct Eo as (L1 & L2 & L3 & L4 & L5 & L6 & L7 & L8 & _).
  destruct (normalized_emission o) as [[server validator] combined] eqn:En.
  destruct (mapM _ _) as [tuples|]; [|done]. cbn in E. injection E as _ <-.
  assert (length combined = Z.to_nat (get_subnetwork_n netuid s)) as Hc.
  { unfold normalized_emission in En. repeat case_match; simplify_eq; try done. rewrite length_normalize, length_zip_with. lia. }
  apply ok_store_outcome; [|unfold epoch_inactive; rewrite !length_map|by rewrite length_topk|done].
  - rewrite !Forall_cons. unfold scale_emission. rewrite length_map. by split_and!.
  - pose proof (uo_vecs _ _ (proj1 (Hok netuid)) NetVec.LastUpdate eq_refl). unfold get_last_update. lia.
Qed.
End Epoch.
