(* ===== verification/AdminUtils.v ===== *)
(** * The admin-utils pallet (src/pallets/admin-utils/src/lib.rs)

    The authorised setters over the parameters of the chain and of its subnets.
    Every call of the pallet is a definition; [AdminCall] lists them, so that
    what holds of all calls is one theorem. *)

From S2P Require Import Prelude Frame Fixed SharePool Storage Misc Uids Reserves Registration RateLimiting Children.
From S2P Require Import Staking StakeWeights EpochMath Weights EpochMatrix Emission Network Epoch.
From stdpp Require Import prelude gmap list fin_maps.
From Stdlib Require Import ZArith Lia.
#[local] Open Scope Z_scope.
#[local] Open Scope monad_scope.

Module PrecompileEnum.
Inductive PrecompileEnum := BalanceTransfer | Staking | Subnet | Metagraph | Neuron | UidLookup | Alpha.
#[global] Instance PrecompileEnum_eq_dec : EqDecision PrecompileEnum.
Proof. solve_decision. Defined.
End PrecompileEnum.

Module AdminError.
Inductive Error :=
  | SubnetDoesNotExist | MaxValidatorsLargerThanMaxUIds | MaxAllowedUIdsLessThanCurrentUIds
  | BondsMovingAverageMaxReached | NegativeSigmoidSteepness
  (** an error of the subtensor pallet *)
  | Subtensor (e : Error.Error).
End AdminError.

Inductive AdminEvent : Type :=
  | PrecompileUpdated (precompile_id : PrecompileEnum.PrecompileEnum) (enabled : bool)
  | Yuma3EnableToggled (netuid : Z) (enabled : bool)
  | BondsResetToggled (netuid : Z) (enabled : bool).

(** The consensus pallets behind [AuraInterface] and [GrandpaInterface]. *)
Class Consensus {FS : FrameSystem} (W : Type) := {
  AuthorityId : Type;
  AuthorityList : Type;
  change_authorities : W -> list AuthorityId -> W;
  schedule_change : W -> AuthorityList -> Z -> option Z -> result DispatchError W;
}.

(** The storage of the pallet, of the EVM chain id and of the subtensor pallet. *)
Record AdminState {FS : FrameSystem} {W : Type} := mkAdminState {
  subtensor : Storage W;
  PrecompileEnable : PrecompileEnum.PrecompileEnum -> bool;
  ChainId : Z;
  admin_events : list AdminEvent;
}.
Arguments AdminState {FS} W.
#[export] Instance AdminState_eta {FS : FrameSystem} W : Eta (AdminState W) :=
  fun x => mkAdminState FS W (subtensor x) (PrecompileEnable x) (ChainId x) (admin_events x).

(** [DefaultPrecompileEnabled] *)
Definition DefaultPrecompileEnabled : bool := true.

Section AdminUtils.
Context {FS : FrameSystem} {Cfg : SubtensorConfig} {SI : StorageIter} {W : Type}.
Context {Env : SubtensorEnv W} {SW : SwapHandler W} {F : SubstrateFixed} {FT : FixedTranscendental} {EF : EpochFixed}.
Context {SE : Senate W} {CP : Consensus W}.
Abbreviation St := (Storage W).
Abbreviation Am A := (M (AdminState W) (error AdminError.Error) A).
Implicit Types (netuid : Z) (hotkey : AccountId).

(** ** Access to the subtensor pallet *)

(** A call of the subtensor pallet, with its errors. *)
Definition call_subtensor {A} (m : Pm W A) : Am A := fun s =>
  match m (subtensor s) with
  | Ok (a, x) => Ok (a, s <| subtensor := x |>)
  | Err (Module e) => Err (Module (AdminError.Subtensor e))
  | Err (External d) => Err (External d)
  | Err Panic => Err Panic
  end.
Definition set_subtensor (f : St -> St) : Am unit := modify (fun s => s <| subtensor ::= f |>).
Definition deposit_admin_event (e : AdminEvent) : Am unit := modify (fun s => s <| admin_events := admin_events s ++ [e] |>).

Definition root_only (origin : Origin) : Am unit := ext (ensure_root origin).
Definition owner_or_root (origin : Origin) netuid : Am unit :=
  let* s := gets subtensor in ext (ensure_subnet_owner_or_root origin netuid s).
Definition subnet_exists netuid : Am unit :=
  let* s := gets subtensor in ensure (if_subnet_exist netuid s) (Module AdminError.SubnetDoesNotExist).

(** ** Parameters of the chain *)

Definition swap_authorities (origin : Origin) (new_authorities : list AuthorityId) : Am unit :=
  root_only origin ;;
  set_subtensor (fun s => s <| world := change_authorities (world s) new_authorities |>).
Definition schedule_grandpa_change (origin : Origin) (next_authorities : AuthorityList) (in_blocks : Z)
    (forced : option Z) : Am unit :=
  root_only origin ;;
  let* s := gets subtensor in
  let* w := ext (schedule_change (world s) next_authorities in_blocks forced) in
  set_subtensor (fun s => s <| world := w |>).
Definition sudo_set_default_take (origin : Origin) (default_take : Z) : Am unit :=
  root_only origin ;; set_subtensor (set_max_delegate_take default_take).
Definition sudo_set_tx_rate_limit (origin : Origin) (tx_rate_limit : Z) : Am unit :=
  root_only origin ;; set_subtensor (set_tx_rate_limit tx_rate_limit).
Definition sudo_set_subnet_owner_cut (origin : Origin) (subnet_owner_cut : Z) : Am unit :=
  root_only origin ;; set_subtensor (set_subnet_owner_cut subnet_owner_cut).
Definition sudo_set_network_rate_limit (origin : Origin) (rate_limit : Z) : Am unit :=
  root_only origin ;; set_subtensor (set_network_rate_limit rate_limit).
Definition sudo_set_total_issuance (origin : Origin) (total_issuance : Z) : Am unit :=
  root_only origin ;; set_subtensor (set_total_issuance total_issuance).
Definition sudo_set_network_immunity_period (origin : Origin) (immunity_period : Z) : Am unit :=
  root_only origin ;; set_subtensor (set_network_immunity_period immunity_period).
Definition sudo_set_network_min_lock_cost (origin : Origin) (lock_cost : Z) : Am unit :=
  root_only origin ;; set_subtensor (set_network_min_lock lock_cost).
Definition sudo_set_subnet_limit (origin : Origin) (max_subnets : Z) : Am unit := root_only origin ;; ret tt.
Definition sudo_set_lock_reduction_interval (origin : Origin) (interval : Z) : Am unit :=
  root_only origin ;; set_subtensor (set_lock_reduction_interval interval).
Definition sudo_set_stake_threshold (origin : Origin) (min_stake : Z) : Am unit :=
  root_only origin ;; set_subtensor (set_stake_threshold min_stake).
Definition sudo_set_nominator_min_required_stake (origin : Origin) (min_stake : Z) : Am unit :=
  root_only origin ;;
  let* prev_min_stake := gets (fun s => get_nominator_min_required_stake (subtensor s)) in
  set_subtensor (set_nominator_min_required_stake min_stake) ;;
  if prev_min_stake <? min_stake then set_subtensor clear_small_nominations else ret tt.
Definition sudo_set_tx_delegate_take_rate_limit (origin : Origin) (tx_rate_limit : Z) : Am unit :=
  root_only origin ;; set_subtensor (set_tx_delegate_take_rate_limit tx_rate_limit).
Definition sudo_set_min_delegate_take (origin : Origin) (take : Z) : Am unit :=
  root_only origin ;; set_subtensor (set_min_delegate_take take).
Definition sudo_set_network_max_stake (origin : Origin) (netuid max_stake : Z) : Am unit := root_only origin ;; ret tt.
Definition sudo_set_coldkey_swap_schedule_duration (origin : Origin) (duration : Z) : Am unit :=
  root_only origin ;; set_subtensor (set_coldkey_swap_schedule_duration duration).
Definition sudo_set_dissolve_network_schedule_duration (origin : Origin) (duration : Z) : Am unit :=
  root_only origin ;; set_subtensor (set_dissolve_network_schedule_duration duration).
Definition sudo_set_evm_chain_id (origin : Origin) (chain_id : Z) : Am unit :=
  root_only origin ;; modify (fun s => s <| ChainId := chain_id |>).
Definition sudo_toggle_evm_precompile (origin : Origin) (precompile_id : PrecompileEnum.PrecompileEnum)
    (enabled : bool) : Am unit :=
  root_only origin ;;
  let* s := gets id in
  if negb (Bool.eqb (PrecompileEnable s precompile_id) enabled) then
    modify (fun s => s <| PrecompileEnable ::= fun m k => if decide (k = precompile_id) then enabled else m k |>) ;;
    deposit_admin_event (PrecompileUpdated precompile_id enabled)
  else ret tt.
Definition sudo_set_subnet_moving_alpha (origin : Origin) (alpha : Z) : Am unit :=
  root_only origin ;; set_subtensor (fun s => s <| SubnetMovingAlpha := Some alpha |>).

(** ** Parameters of a subnet that only root sets *)

Definition sudo_set_min_difficulty (origin : Origin) netuid (min_difficulty : Z) : Am unit :=
  root_only origin ;; subnet_exists netuid ;; set_subtensor (set_min_difficulty netuid min_difficulty).
Definition sudo_set_weights_set_rate_limit (origin : Origin) netuid (weights_set_rate_limit : Z) : Am unit :=
  root_only origin ;; subnet_exists netuid ;; set_subtensor (set_weights_set_rate_limit netuid weights_set_rate_limit).
Definition sudo_set_adjustment_interval (origin : Origin) netuid (adjustment_interval : Z) : Am unit :=
  root_only origin ;; subnet_exists netuid ;; set_subtensor (set_adjustment_interval netuid adjustment_interval).
Definition sudo_set_max_allowed_uids (origin : Origin) netuid (max_allowed_uids : Z) : Am unit :=
  root_only origin ;; subnet_exists netuid ;;
  let* s := gets subtensor in
  ensure (get_subnetwork_n netuid s <? max_allowed_uids) (Module AdminError.MaxAllowedUIdsLessThanCurrentUIds) ;;
  set_subtensor (set_max_allowed_uids netuid max_allowed_uids).
Definition sudo_set_target_registrations_per_interval (origin : Origin) netuid (target_registrations_per_interval : Z)
    : Am unit :=
  root_only origin ;; subnet_exists netuid ;;
  set_subtensor (set_target_registrations_per_interval netuid target_registrations_per_interval).
Definition sudo_set_min_burn (origin : Origin) netuid (min_burn : Z) : Am unit :=
  root_only origin ;; subnet_exists netuid ;; set_subtensor (set_min_burn netuid min_burn).
Definition sudo_set_max_burn (origin : Origin) netuid (max_burn : Z) : Am unit :=
  root_only origin ;; subnet_exists netuid ;; set_subtensor (set_max_burn netuid max_burn).
Definition sudo_set_difficulty (origin : Origin) netuid (difficulty : Z) : Am unit :=
  root_only origin ;; subnet_exists netuid ;; set_subtensor (set_difficulty netuid difficulty).
Definition sudo_set_max_allowed_validators (origin : Origin) netuid (max_allowed_validators : Z) : Am unit :=
  root_only origin ;; subnet_exists netuid ;;
  let* s := gets subtensor in
  ensure (max_allowed_validators <=? get_max_allowed_uids netuid s) (Module AdminError.MaxValidatorsLargerThanMaxUIds) ;;
  set_subtensor (set_max_allowed_validators netuid max_allowed_validators).
Definition sudo_set_max_registrations_per_block (origin : Origin) netuid (max_registrations_per_block : Z) : Am unit :=
  root_only origin ;; subnet_exists netuid ;;
  set_subtensor (set_max_registrations_per_block netuid max_registrations_per_block).
Definition sudo_set_tempo (origin : Origin) netuid (tempo : Z) : Am unit :=
  root_only origin ;; subnet_exists netuid ;; set_subtensor (set_tempo netuid tempo).
Definition sudo_set_rao_recycled (origin : Origin) netuid (rao_recycled : Z) : Am unit :=
  root_only origin ;; subnet_exists netuid ;; set_subtensor (set_rao_recycled netuid rao_recycled).
Definition sudo_set_ema_price_halving_period (origin : Origin) netuid (ema_halving : Z) : Am unit :=
  root_only origin ;; set_subtensor (put_net NetNum.EMAPriceHalvingBlocks netuid ema_halving).
Definition sudo_set_subtoken_enabled (origin : Origin) netuid (subtoken_enabled : bool) : Am unit :=
  root_only origin ;; set_subtensor (put_flag NetFlag.SubtokenEnabled netuid subtoken_enabled).

(** ** Parameters of a subnet that its owner sets too *)

Definition sudo_set_serving_rate_limit (origin : Origin) netuid (serving_rate_limit : Z) : Am unit :=
  owner_or_root origin netuid ;; set_subtensor (set_serving_rate_limit netuid serving_rate_limit).
Definition sudo_set_max_difficulty (origin : Origin) netuid (max_difficulty : Z) : Am unit :=
  owner_or_root origin netuid ;; subnet_exists netuid ;; set_subtensor (set_max_difficulty netuid max_difficulty).
Definition sudo_set_weights_version_key (origin : Origin) netuid (weights_version_key : Z) : Am unit :=
  owner_or_root origin netuid ;; subnet_exists netuid ;;
  (match ensure_signed origin with
   | Ok who =>
       let* s := gets subtensor in
       ensure (passes_rate_limit_on_subnet SetWeightsVersionKey who netuid s)
         (Module (AdminError.Subtensor Error.TxRateLimitExceeded)) ;;
       let current_block := get_current_block_as_u64 s in
       set_subtensor (set_last_transaction_block_on_subnet who netuid SetWeightsVersionKey current_block)
   | Err _ => ret tt
   end) ;;
  set_subtensor (set_weights_version_key netuid weights_version_key).
Definition sudo_set_adjustment_alpha (origin : Origin) netuid (adjustment_alpha : Z) : Am unit :=
  owner_or_root origin netuid ;; subnet_exists netuid ;; set_subtensor (set_adjustment_alpha netuid adjustment_alpha).
Definition sudo_set_max_weight_limit (origin : Origin) netuid (max_weight_limit : Z) : Am unit :=
  owner_or_root origin netuid ;; subnet_exists netuid ;; set_subtensor (set_max_weight_limit netuid max_weight_limit).
Definition sudo_set_immunity_period (origin : Origin) netuid (immunity_period : Z) : Am unit :=
  owner_or_root origin netuid ;; subnet_exists netuid ;; set_subtensor (set_immunity_period netuid immunity_period).
Definition sudo_set_min_allowed_weights (origin : Origin) netuid (min_allowed_weights : Z) : Am unit :=
  owner_or_root origin netuid ;; subnet_exists netuid ;;
  set_subtensor (set_min_allowed_weights netuid min_allowed_weights).
Definition sudo_set_kappa (origin : Origin) netuid (kappa : Z) : Am unit :=
  owner_or_root origin netuid ;; subnet_exists netuid ;; set_subtensor (set_kappa netuid kappa).
Definition sudo_set_rho (origin : Origin) netuid (rho : Z) : Am unit :=
  owner_or_root origin netuid ;; subnet_exists netuid ;; set_subtensor (set_rho netuid rho).
Definition sudo_set_activity_cutoff (origin : Origin) netuid (activity_cutoff : Z) : Am unit :=
  owner_or_root origin netuid ;; subnet_exists netuid ;;
  let* s := gets subtensor in
  ensure (get_value Value.MinActivityCutoff s <=? activity_cutoff)
    (Module (AdminError.Subtensor Error.ActivityCutoffTooLow)) ;;
  set_subtensor (set_activity_cutoff netuid activity_cutoff).
Definition sudo_set_network_registration_allowed (origin : Origin) netuid (registration_allowed : bool) : Am unit :=
  owner_or_root origin netuid ;; set_subtensor (set_network_registration_allowed netuid registration_allowed).
Definition sudo_set_network_pow_registration_allowed (origin : Origin) netuid (registration_allowed : bool) : Am unit :=
  owner_or_root origin netuid ;; set_subtensor (set_network_pow_registration_allowed netuid registration_allowed).
Definition sudo_set_bonds_moving_average (origin : Origin) netuid (bonds_moving_average : Z) : Am unit :=
  owner_or_root origin netuid ;;
  let* s := gets subtensor in
  (if is_ok (ensure_subnet_owner origin netuid s)
   then ensure (bonds_moving_average <=? 975000) (Module AdminError.BondsMovingAverageMaxReached) else ret tt) ;;
  subnet_exists netuid ;;
  set_subtensor (set_bonds_moving_average netuid bonds_moving_average).
Definition sudo_set_bonds_penalty (origin : Origin) netuid (bonds_penalty : Z) : Am unit :=
  owner_or_root origin netuid ;; subnet_exists netuid ;; set_subtensor (set_bonds_penalty netuid bonds_penalty).
Definition sudo_set_commit_reveal_weights_enabled (origin : Origin) netuid (enabled : bool) : Am unit :=
  owner_or_root origin netuid ;; subnet_exists netuid ;;
  set_subtensor (set_commit_reveal_weights_enabled netuid enabled).
Definition sudo_set_liquid_alpha_enabled (origin : Origin) netuid (enabled : bool) : Am unit :=
  owner_or_root origin netuid ;; set_subtensor (set_liquid_alpha_enabled netuid enabled).
Definition sudo_set_alpha_values (origin : Origin) netuid (alpha_low alpha_high : Z) : Am unit :=
  owner_or_root origin netuid ;; call_subtensor (do_set_alpha_values origin netuid alpha_low alpha_high).
Definition sudo_set_commit_reveal_weights_interval (origin : Origin) netuid (interval : Z) : Am unit :=
  owner_or_root origin netuid ;; subnet_exists netuid ;; set_subtensor (set_reveal_period netuid interval).
Definition sudo_set_toggle_transfer (origin : Origin) netuid (toggle : bool) : Am unit :=
  owner_or_root origin netuid ;; set_subtensor (toggle_transfer netuid toggle).
Definition sudo_set_subnet_owner_hotkey (origin : Origin) netuid hotkey : Am unit :=
  (let* s := gets subtensor in ext (ensure_subnet_owner origin netuid s)) ;;
  set_subtensor (set_subnet_owner_hotkey netuid hotkey).
Definition sudo_set_alpha_sigmoid_steepness (origin : Origin) netuid (steepness : Z) : Am unit :=
  owner_or_root origin netuid ;; subnet_exists netuid ;;
  let is_root := is_ok (ensure_root origin) in
  ensure (is_root || (0 <=? steepness)) (Module AdminError.NegativeSigmoidSteepness) ;;
  set_subtensor (set_alpha_sigmoid_steepness netuid steepness).
Definition sudo_set_yuma3_enabled (origin : Origin) netuid (enabled : bool) : Am unit :=
  owner_or_root origin netuid ;; set_subtensor (set_yuma3_enabled netuid enabled) ;;
  deposit_admin_event (Yuma3EnableToggled netuid enabled).
Definition sudo_set_bonds_reset_enabled (origin : Origin) netuid (enabled : bool) : Am unit :=
  owner_or_root origin netuid ;; set_subtensor (set_bonds_reset netuid enabled) ;;
  deposit_admin_event (BondsResetToggled netuid enabled).
Definition sudo_set_sn_owner_hotkey (origin : Origin) netuid hotkey : Am unit :=
  call_subtensor (do_set_sn_owner_hotkey origin netuid hotkey).

(** ** All calls *)

(** The pallet's [Call]: a variant per call. *)
Inductive AdminCall : Type :=
  | Call_swap_authorities (new_authorities : list AuthorityId)
  | Call_schedule_grandpa_change (next_authorities : AuthorityList) (in_blocks : Z) (forced : option Z)
  | Call_sudo_set_default_take (default_take : Z)
  | Call_sudo_set_tx_rate_limit (tx_rate_limit : Z)
  | Call_sudo_set_subnet_owner_cut (subnet_owner_cut : Z)
  | Call_sudo_set_network_rate_limit (rate_limit : Z)
  | Call_sudo_set_total_issuance (total_issuance : Z)
  | Call_sudo_set_network_immunity_period (immunity_period : Z)
  | Call_sudo_set_network_min_lock_cost (lock_cost : Z)
  | Call_sudo_set_subnet_limit (max_subnets : Z)
  | Call_sudo_set_lock_reduction_interval (interval : Z)
  | Call_sudo_set_stake_threshold (min_stake : Z)
  | Call_sudo_set_nominator_min_required_stake (min_stake : Z)
  | Call_sudo_set_tx_delegate_take_rate_limit (tx_rate_limit : Z)
  | Call_sudo_set_min_delegate_take (take : Z)
  | Call_sudo_set_network_max_stake (netuid : Z) (max_stake : Z)
  | Call_sudo_set_coldkey_swap_schedule_duration (duration : Z)
  | Call_sudo_set_dissolve_network_schedule_duration (duration : Z)
  | Call_sudo_set_evm_chain_id (chain_id : Z)
  | Call_sudo_toggle_evm_precompile (precompile_id : PrecompileEnum.PrecompileEnum) (enabled : bool)
  | Call_sudo_set_subnet_moving_alpha (alpha : Z)
  | Call_sudo_set_min_difficulty (netuid : Z) (min_difficulty : Z)
  | Call_sudo_set_weights_set_rate_limit (netuid : Z) (weights_set_rate_limit : Z)
  | Call_sudo_set_adjustment_interval (netuid : Z) (adjustment_interval : Z)
  | Call_sudo_set_max_allowed_uids (netuid : Z) (max_allowed_uids : Z)
  | Call_sudo_set_target_registrations_per_interval (netuid : Z) (target_registrations_per_interval : Z)
  | Call_sudo_set_min_burn (netuid : Z) (min_burn : Z)
  | Call_sudo_set_max_burn (netuid : Z) (max_burn : Z)
  | Call_sudo_set_difficulty (netuid : Z) (difficulty : Z)
  | Call_sudo_set_max_allowed_validators (netuid : Z) (max_allowed_validators : Z)
  | Call_sudo_set_max_registrations_per_block (netuid : Z) (max_registrations_per_block : Z)
  | Call_sudo_set_tempo (netuid : Z) (tempo : Z)
  | Call_sudo_set_rao_recycled (netuid : Z) (rao_recycled : Z)
  | Call_sudo_set_ema_price_halving_period (netuid : Z) (ema_halving : Z)
  | Call_sudo_set_subtoken_enabled (netuid : Z) (subtoken_enabled : bool)
  | Call_sudo_set_serving_rate_limit (netuid : Z) (serving_rate_limit : Z)
  | Call_sudo_set_max_difficulty (netuid : Z) (max_difficulty : Z)
  | Call_sudo_set_weights_version_key (netuid : Z) (weights_version_key : Z)
  | Call_sudo_set_adjustment_alpha (netuid : Z) (adjustment_alpha : Z)
  | Call_sudo_set_max_weight_limit (netuid : Z) (max_weight_limit : Z)
  | Call_sudo_set_immunity_period (netuid : Z) (immunity_period : Z)
  | Call_sudo_set_min_allowed_weights (netuid : Z) (min_allowed_weights : Z)
  | Call_sudo_set_kappa (netuid : Z) (kappa : Z)
  | Call_sudo_set_rho (netuid : Z) (rho : Z)
  | Call_sudo_set_activity_cutoff (netuid : Z) (activity_cutoff : Z)
  | Call_sudo_set_network_registration_allowed (netuid : Z) (registration_allowed : bool)
  | Call_sudo_set_network_pow_registration_allowed (netuid : Z) (registration_allowed : bool)
  | Call_sudo_set_bonds_moving_average (netuid : Z) (bonds_moving_average : Z)
  | Call_sudo_set_bonds_penalty (netuid : Z) (bonds_penalty : Z)
  | Call_sudo_set_commit_reveal_weights_enabled (netuid : Z) (enabled : bool)
  | Call_sudo_set_liquid_alpha_enabled (netuid : Z) (enabled : bool)
  | Call_sudo_set_alpha_values (netuid : Z) (alpha_low : Z) (alpha_high : Z)
  | Call_sudo_set_commit_reveal_weights_interval (netuid : Z) (interval : Z)
  | Call_sudo_set_toggle_transfer (netuid : Z) (toggle : bool)
  | Call_sudo_set_subnet_owner_hotkey (netuid : Z) (hotkey : AccountId)
  | Call_sudo_set_alpha_sigmoid_steepness (netuid : Z) (steepness : Z)
  | Call_sudo_set_yuma3_enabled (netuid : Z) (enabled : bool)
  | Call_sudo_set_bonds_reset_enabled (netuid : Z) (enabled : bool)
  | Call_sudo_set_sn_owner_hotkey (netuid : Z) (hotkey : AccountId).

Definition admin_call (origin : Origin) (c : AdminCall) : Am unit :=
  match c with
  | Call_swap_authorities new_authorities => swap_authorities origin new_authorities
  | Call_schedule_grandpa_change next_authorities in_blocks forced => schedule_grandpa_change origin next_authorities in_blocks forced
  | Call_sudo_set_default_take default_take => sudo_set_default_take origin default_take
  | Call_sudo_set_tx_rate_limit tx_rate_limit => sudo_set_tx_rate_limit origin tx_rate_limit
  | Call_sudo_set_subnet_owner_cut subnet_owner_cut => sudo_set_subnet_owner_cut origin subnet_owner_cut
  | Call_sudo_set_network_rate_limit rate_limit => sudo_set_network_rate_limit origin rate_limit
  | Call_sudo_set_total_issuance total_issuance => sudo_set_total_issuance origin total_issuance
  | Call_sudo_set_network_immunity_period immunity_period => sudo_set_network_immunity_period origin immunity_period
  | Call_sudo_set_network_min_lock_cost lock_cost => sudo_set_network_min_lock_cost origin lock_cost
  | Call_sudo_set_subnet_limit max_subnets => sudo_set_subnet_limit origin max_subnets
  | Call_sudo_set_lock_reduction_interval interval => sudo_set_lock_reduction_interval origin interval
  | Call_sudo_set_stake_threshold min_stake => sudo_set_stake_threshold origin min_stake
  | Call_sudo_set_nominator_min_required_stake min_stake => sudo_set_nominator_min_required_stake origin min_stake
  | Call_sudo_set_tx_delegate_take_rate_limit tx_rate_limit => sudo_set_tx_delegate_take_rate_limit origin tx_rate_limit
  | Call_sudo_set_min_delegate_take take => sudo_set_min_delegate_take origin take
  | Call_sudo_set_network_max_stake netuid max_stake => sudo_set_network_max_stake origin netuid max_stake
  | Call_sudo_set_coldkey_swap_schedule_duration duration => sudo_set_coldkey_swap_schedule_duration origin duration
  | Call_sudo_set_dissolve_network_schedule_duration duration => sudo_set_dissolve_network_schedule_duration origin duration
  | Call_sudo_set_evm_chain_id chain_id => sudo_set_evm_chain_id origin chain_id
  | Call_sudo_toggle_evm_precompile precompile_id enabled => sudo_toggle_evm_precompile origin precompile_id enabled
  | Call_sudo_set_subnet_moving_alpha alpha => sudo_set_subnet_moving_alpha origin alpha
  | Call_sudo_set_min_difficulty netuid min_difficulty => sudo_set_min_difficulty origin netuid min_difficulty
  | Call_sudo_set_weights_set_rate_limit netuid weights_set_rate_limit => sudo_set_weights_set_rate_limit origin netuid weights_set_rate_limit
  | Call_sudo_set_adjustment_interval netuid adjustment_interval => sudo_set_adjustment_interval origin netuid adjustment_interval
  | Call_sudo_set_max_allowed_uids netuid max_allowed_uids => sudo_set_max_allowed_uids origin netuid max_allowed_uids
  | Call_sudo_set_target_registrations_per_interval netuid target_registrations_per_interval => sudo_set_target_registrations_per_interval origin netuid target_registrations_per_interval
  | Call_sudo_set_min_burn netuid min_burn => sudo_set_min_burn origin netuid min_burn
  | Call_sudo_set_max_burn netuid max_burn => sudo_set_max_burn origin netuid max_burn
  | Call_sudo_set_difficulty netuid difficulty => sudo_set_difficulty origin netuid difficulty
  | Call_sudo_set_max_allowed_validators netuid max_allowed_validators => sudo_set_max_allowed_validators origin netuid max_allowed_validators
  | Call_sudo_set_max_registrations_per_block netuid max_registrations_per_block => sudo_set_max_registrations_per_block origin netuid max_registrations_per_block
  | Call_sudo_set_tempo netuid tempo => sudo_set_tempo origin netuid tempo
  | Call_sudo_set_rao_recycled netuid rao_recycled => sudo_set_rao_recycled origin netuid rao_recycled
  | Call_sudo_set_ema_price_halving_period netuid ema_halving => sudo_set_ema_price_halving_period origin netuid ema_halving
  | Call_sudo_set_subtoken_enabled netuid subtoken_enabled => sudo_set_subtoken_enabled origin netuid subtoken_enabled
  | Call_sudo_set_serving_rate_limit netuid serving_rate_limit => sudo_set_serving_rate_limit origin netuid serving_rate_limit
  | Call_sudo_set_max_difficulty netuid max_difficulty => sudo_set_max_difficulty origin netuid max_difficulty
  | Call_sudo_set_weights_version_key netuid weights_version_key => sudo_set_weights_version_key origin netuid weights_version_key
  | Call_sudo_set_adjustment_alpha netuid adjustment_alpha => sudo_set_adjustment_alpha origin netuid adjustment_alpha
  | Call_sudo_set_max_weight_limit netuid max_weight_limit => sudo_set_max_weight_limit origin netuid max_weight_limit
  | Call_sudo_set_immunity_period netuid immunity_period => sudo_set_immunity_period origin netuid immunity_period
  | Call_sudo_set_min_allowed_weights netuid min_allowed_weights => sudo_set_min_allowed_weights origin netuid min_allowed_weights
  | Call_sudo_set_kappa netuid kappa => sudo_set_kappa origin netuid kappa
  | Call_sudo_set_rho netuid rho => sudo_set_rho origin netuid rho
  | Call_sudo_set_activity_cutoff netuid activity_cutoff => sudo_set_activity_cutoff origin netuid activity_cutoff
  | Call_sudo_set_network_registration_allowed netuid registration_allowed => sudo_set_network_registration_allowed origin netuid registration_allowed
  | Call_sudo_set_network_pow_registration_allowed netuid registration_allowed => sudo_set_network_pow_registration_allowed origin netuid registration_allowed
  | Call_sudo_set_bonds_moving_average netuid bonds_moving_average => sudo_set_bonds_moving_average origin netuid bonds_moving_average
  | Call_sudo_set_bonds_penalty netuid bonds_penalty => sudo_set_bonds_penalty origin netuid bonds_penalty
  | Call_sudo_set_commit_reveal_weights_enabled netuid enabled => sudo_set_commit_reveal_weights_enabled origin netuid enabled
  | Call_sudo_set_liquid_alpha_enabled netuid enabled => sudo_set_liquid_alpha_enabled origin netuid enabled
  | Call_sudo_set_alpha_values netuid alpha_low alpha_high => sudo_set_alpha_values origin netuid alpha_low alpha_high
  | Call_sudo_set_commit_reveal_weights_interval netuid interval => sudo_set_commit_reveal_weights_interval origin netuid interval
  | Call_sudo_set_toggle_transfer netuid toggle => sudo_set_toggle_transfer origin netuid toggle
  | Call_sudo_set_subnet_owner_hotkey netuid hotkey => sudo_set_subnet_owner_hotkey origin netuid hotkey
  | Call_sudo_set_alpha_sigmoid_steepness netuid steepness => sudo_set_alpha_sigmoid_steepness origin netuid steepness
  | Call_sudo_set_yuma3_enabled netuid enabled => sudo_set_yuma3_enabled origin netuid enabled
  | Call_sudo_set_bonds_reset_enabled netuid enabled => sudo_set_bonds_reset_enabled origin netuid enabled
  | Call_sudo_set_sn_owner_hotkey netuid hotkey => sudo_set_sn_owner_hotkey origin netuid hotkey
  end.

(** The subnet a call is about, when it is about one. *)
Definition call_subnet (c : AdminCall) : option Z :=
  match c with
  | Call_sudo_set_network_max_stake netuid _ => Some netuid
  | Call_sudo_set_min_difficulty netuid _ => Some netuid
  | Call_sudo_set_weights_set_rate_limit netuid _ => Some netuid
  | Call_sudo_set_adjustment_interval netuid _ => Some netuid
  | Call_sudo_set_max_allowed_uids netuid _ => Some netuid
  | Call_sudo_set_target_registrations_per_interval netuid _ => Some netuid
  | Call_sudo_set_min_burn netuid _ => Some netuid
  | Call_sudo_set_max_burn netuid _ => Some netuid
  | Call_sudo_set_difficulty netuid _ => Some netuid
  | Call_sudo_set_max_allowed_validators netuid _ => Some netuid
  | Call_sudo_set_max_registrations_per_block netuid _ => Some netuid
  | Call_sudo_set_tempo netuid _ => Some netuid
  | Call_sudo_set_rao_recycled netuid _ => Some netuid
  | Call_sudo_set_ema_price_halving_period netuid _ => Some netuid
  | Call_sudo_set_subtoken_enabled netuid _ => Some netuid
  | Call_sudo_set_serving_rate_limit netuid _ => Some netuid
  | Call_sudo_set_max_difficulty netuid _ => Some netuid
  | Call_sudo_set_weights_version_key netuid _ => Some netuid
  | Call_sudo_set_adjustment_alpha netuid _ => Some netuid
  | Call_sudo_set_max_weight_limit netuid _ => Some netuid
  | Call_sudo_set_immunity_period netuid _ => Some netuid
  | Call_sudo_set_min_allowed_weights netuid _ => Some netuid
  | Call_sudo_set_kappa netuid _ => Some netuid
  | Call_sudo_set_rho netuid _ => Some netuid
  | Call_sudo_set_activity_cutoff netuid _ => Some netuid
  | Call_sudo_set_network_registration_allowed netuid _ => Some netuid
  | Call_sudo_set_network_pow_registration_allowed netuid _ => Some netuid
  | Call_sudo_set_bonds_moving_average netuid _ => Some netuid
  | Call_sudo_set_bonds_penalty netuid _ => Some netuid
  | Call_sudo_set_commit_reveal_weights_enabled netuid _ => Some netuid
  | Call_sudo_set_liquid_alpha_enabled netuid _ => Some netuid
  | Call_sudo_set_alpha_values netuid _ _ => Some netuid
  | Call_sudo_set_commit_reveal_weights_interval netuid _ => Some netuid
  | Call_sudo_set_toggle_transfer netuid _ => Some netuid
  | Call_sudo_set_subnet_owner_hotkey netuid _ => Some netuid
  | Call_sudo_set_alpha_sigmoid_steepness netuid _ => Some netuid
  | Call_sudo_set_yuma3_enabled netuid _ => Some netuid
  | Call_sudo_set_bonds_reset_enabled netuid _ => Some netuid
  | Call_sudo_set_sn_owner_hotkey netuid _ => Some netuid
  | _ => None
  end.

(** The subnet whose owner may make a call. *)
Definition owner_scope (c : AdminCall) : option Z :=
  match c with
  | Call_sudo_set_serving_rate_limit netuid _ => Some netuid
  | Call_sudo_set_max_difficulty netuid _ => Some netuid
  | Call_sudo_set_weights_version_key netuid _ => Some netuid
  | Call_sudo_set_adjustment_alpha netuid _ => Some netuid
  | Call_sudo_set_max_weight_limit netuid _ => Some netuid
  | Call_sudo_set_immunity_period netuid _ => Some netuid
  | Call_sudo_set_min_allowed_weights netuid _ => Some netuid
  | Call_sudo_set_kappa netuid _ => Some netuid
  | Call_sudo_set_rho netuid _ => Some netuid
  | Call_sudo_set_activity_cutoff netuid _ => Some netuid
  | Call_sudo_set_network_registration_allowed netuid _ => Some netuid
  | Call_sudo_set_network_pow_registration_allowed netuid _ => Some netuid
  | Call_sudo_set_bonds_moving_average netuid _ => Some netuid
  | Call_sudo_set_bonds_penalty netuid _ => Some netuid
  | Call_sudo_set_commit_reveal_weights_enabled netuid _ => Some netuid
  | Call_sudo_set_liquid_alpha_enabled netuid _ => Some netuid
  | Call_sudo_set_alpha_values netuid _ _ => Some netuid
  | Call_sudo_set_commit_reveal_weights_interval netuid _ => Some netuid
  | Call_sudo_set_toggle_transfer netuid _ => Some netuid
  | Call_sudo_set_subnet_owner_hotkey netuid _ => Some netuid
  | Call_sudo_set_alpha_sigmoid_steepness netuid _ => Some netuid
  | Call_sudo_set_yuma3_enabled netuid _ => Some netuid
  | Call_sudo_set_bonds_reset_enabled netuid _ => Some netuid
  | Call_sudo_set_sn_owner_hotkey netuid _ => Some netuid
  | _ => None
  end.

(** ** Who may call *)

Definition authorised (origin : Origin) (scope : option Z) (x : St) : Prop :=
  ensure_root origin = Ok tt \/
  exists netuid, scope = Some netuid /\ ensure_signed origin = Ok (get_subnet_owner netuid x).

Lemma root_only_ok o s a s' : root_only o s = Ok (a, s') -> ensure_root o = Ok tt /\ s' = s.
Proof. unfold root_only. intros H. monad_inv H. by repeat match goal with u : unit |- _ => destruct u end. Qed.

Lemma subnet_owner_ok o netuid (x : St) :
  ensure_subnet_owner o netuid x = Ok tt -> ensure_signed o = Ok (get_subnet_owner netuid x).
Proof. unfold ensure_subnet_owner. destruct (ensure_signed o); [|done]. destruct (decide _); congruence. Qed.

Lemma owner_or_root_authorised o netuid (x : St) :
  ensure_subnet_owner_or_root o netuid x = Ok tt -> authorised o (Some netuid) x.
Proof.
  unfold ensure_subnet_owner_or_root, ensure_signed_or_root, authorised.
  destruct (ensure_root o) as [[]|]; [by left|]. destruct (ensure_signed o); [|done].
  destruct (decide _); [|done]. right. exists netuid. split; [done|]. congruence.
Qed.

Lemma owner_or_root_ok o netuid s a s' :
  owner_or_root o netuid s = Ok (a, s') -> authorised o (Some netuid) (subtensor s) /\ s' = s.
Proof.
  unfold owner_or_root. intros H. monad_inv H. repeat match goal with u : unit |- _ => destruct u end. split; [|done]. by apply owner_or_root_authorised.
Qed.

(** C26: No call of the pallet succeeds without authority: the origin is root,
    or the call is one a subnet owner may make and the signer owns the very
    subnet the call names. *)
Theorem admin_authority origin c s s' :
  admin_call origin c s = Ok (tt, s') -> authorised origin (owner_scope c) (subtensor s).
Proof.
  assert (forall {B} (k : unit -> Am B) a, bind (root_only origin) k s = Ok (a, s') ->
    authorised origin (owner_scope c) (subtensor s)) as Hroot.
  { intros B k a H. apply bind_ok in H as ([] & s1 & H & _). left. by apply root_only_ok in H as [H _]. }
  assert (forall {B} (k : unit -> Am B) n a, owner_scope c = Some n -> bind (owner_or_root origin n) k s = Ok (a, s') ->
    authorised origin (owner_scope c) (subtensor s)) as Hown.
  { intros B k n a -> H. apply bind_ok in H as ([] & s1 & H & _). apply owner_or_root_ok in H as [H _]. exact H. }
  destruct c; intros H; first [by eapply Hroot | by eapply Hown; [reflexivity|exact H] | idtac].
  - unfold admin_call, sudo_set_subnet_owner_hotkey in H. monad_inv H. right. exists netuid.
    split; [done|]. repeat match goal with u : unit |- _ => destruct u end. by apply subnet_owner_ok.
  - unfold admin_call, sudo_set_sn_owner_hotkey, call_subtensor, do_set_sn_owner_hotkey in H.
    destruct (bind _ _ _) as [[[] x]|[]] eqn:E in H; try done.
    apply bind_ok in E as (? & ? & E0 & E). apply gets_ok in E0. simplify_eq.
    apply bind_ok in E as ([] & ? & E0 & E). apply ext_ok in E0 as ([] & E0 & _).
    by apply owner_or_root_authorised.
Qed.
(** ** What a call about one subnet touches *)

(** [x'] is [x] but for parameters, the owner hotkey, the liquid alpha bounds
    and the rate limits of [n], and for the events. *)
Definition confined (n : Z) (x x' : St) : Prop :=
  exists nums flags hots alphas keyed limited evs,
    x' = x <| net_nums := nums |> <| net_flags := flags |> <| SubnetOwnerHotkey := hots |> <| AlphaValues := alphas |>
           <| TransactionKeyLastBlock := keyed |> <| LastRateLimitedBlock := limited |> <| events := evs |> /\
    (forall i m, m <> n -> nums !! (i, m) = net_nums x !! (i, m)) /\
    (forall i m, m <> n -> flags !! (i, m) = net_flags x !! (i, m)) /\
    (forall m, m <> n -> hots !! m = SubnetOwnerHotkey x !! m) /\
    (forall m, m <> n -> alphas !! m = AlphaValues x !! m) /\
    (forall a m t, m <> n -> keyed !! (a, m, t) = TransactionKeyLastBlock x !! (a, m, t)) /\
    (forall k, k <> SetSNOwnerHotkey n -> limited !! k = LastRateLimitedBlock x !! k).

Definition confined_state (n : Z) (s s' : AdminState W) : Prop :=
  confined n (subtensor s) (subtensor s') /\ PrecompileEnable s' = PrecompileEnable s /\ ChainId s' = ChainId s.

Definition stays_in {A} (n : Z) (m : Am A) : Prop := forall s a s', m s = Ok (a, s') -> confined_state n s s'.

Lemma confined_refl n x : confined n x x.
Proof.
  exists (net_nums x), (net_flags x), (SubnetOwnerHotkey x), (AlphaValues x), (TransactionKeyLastBlock x),
    (LastRateLimitedBlock x), (events x). by destruct x.
Qed.

Lemma confined_trans n x y z : confined n x y -> confined n y z -> confined n x z.
Proof.
  intros (? & ? & ? & ? & ? & ? & ? & -> & H1 & H2 & H3 & H4 & H5 & H6)
    (nums & flags & hots & alphas & keyed & limited & evs & -> & G1 & G2 & G3 & G4 & G5 & G6).
  exists nums, flags, hots, alphas, keyed, limited, evs. split; [by destruct x|].
  split_and!; intros; [rewrite G1, <- H1|rewrite G2, <- H2|rewrite G3, <- H3|rewrite G4, <- H4|rewrite G5, <- H5
    |rewrite G6, <- H6]; done.
Qed.

Ltac confined_field :=
  lazymatch goal with |- confined _ ?x ?y =>
    exists (net_nums y), (net_flags y), (SubnetOwnerHotkey y), (AlphaValues y), (TransactionKeyLastBlock y),
      (LastRateLimitedBlock y), (events y); split; [by destruct x|];
    destruct x; cbn; split_and!; intros; rewrite ?lookup_insert_ne by congruence; done
  end.

Lemma confined_put_net n i v x : confined n x (put_net i n v x).
Proof. confined_field. Qed.
Lemma confined_put_flag n i v x : confined n x (put_flag i n v x).
Proof. confined_field. Qed.
Lemma confined_event n e x : confined n x (deposit_event e x).
Proof. confined_field. Qed.
Lemma confined_hotkey n v x : confined n x (x <| SubnetOwnerHotkey ::= <[n := v]> |>).
Proof. confined_field. Qed.
Lemma confined_alpha n v x : confined n x (x <| AlphaValues ::= <[n := v]> |>).
Proof. confined_field. Qed.
Lemma confined_rate_limit n a b tx x :
  tx <> RegisterNetwork -> confined n x (set_last_transaction_block_on_subnet a n tx b x).
Proof. destruct tx; intros H; try done; unfold set_last_transaction_block_on_subnet; cbn; confined_field. Qed.

Lemma stays_bind {A B} n (m : Am A) (k : A -> Am B) :
  stays_in n m -> (forall a, stays_in n (k a)) -> stays_in n (bind m k).
Proof.
  intros Hm Hk s b s' H. apply bind_ok in H as (a & s1 & H1 & H2).
  destruct (Hm _ _ _ H1) as (C1 & P1 & I1), (Hk _ _ _ _ H2) as (C2 & P2 & I2).
  split; [exact (confined_trans _ _ _ _ C1 C2)|]. split; congruence.
Qed.
Lemma stays_id {A} n (m : Am A) : (forall s a s', m s = Ok (a, s') -> s' = s) -> stays_in n m.
Proof. intros Hm s a s' H. rewrite (Hm _ _ _ H). split; [apply confined_refl|done]. Qed.
Lemma stays_set n f : (forall x, confined n x (f x)) -> stays_in n (set_subtensor f).
Proof. intros Hf s a s' H. unfold set_subtensor in H. monad_inv H. by split. Qed.
Lemma stays_event n e : stays_in n (deposit_admin_event e).
Proof. intros s a s' H. unfold deposit_admin_event in H. monad_inv H. split; [apply confined_refl|done]. Qed.
Lemma stays_subtensor {A} n (m : Pm W A) :
  (forall x a x', m x = Ok (a, x') -> confined n x x') -> stays_in n (call_subtensor m).
Proof.
  intros Hm s a s' H. unfold call_subtensor in H. destruct (m (subtensor s)) as [[? x]|[]] eqn:E; simplify_eq.
  split; [by eapply Hm|done].
Qed.

Lemma alpha_values_confined o n lo hi x a x' :
  do_set_alpha_values o n lo hi x = Ok (a, x') -> confined n x x'.
Proof. unfold do_set_alpha_values. intros H. monad_inv H. apply confined_alpha. Qed.
Lemma sn_owner_hotkey_confined o n hotkey x a x' :
  do_set_sn_owner_hotkey o n hotkey x = Ok (a, x') -> confined n x x'.
Proof.
  unfold do_set_sn_owner_hotkey. intros H. monad_inv H.
  eapply confined_trans; [|apply confined_hotkey].
  by apply (confined_rate_limit n hotkey (get_current_block_as_u64 x) TxSetSNOwnerHotkey).
Qed.

Ltac head_of t := lazymatch t with ?f _ => head_of f | _ => t end.
Ltac confined_setter :=
  intros ?; first [by apply confined_rate_limit |
    try lazymatch goal with |- confined _ _ ?t => let h := head_of t in unfold h end;
    repeat (eapply confined_trans; [|apply confined_event]);
    first [apply confined_put_net | apply confined_put_flag | apply confined_hotkey]].
Ltac stays_step :=
  lazymatch goal with
  | |- stays_in _ (bind _ _) => apply stays_bind; [|intros ?]
  | |- stays_in _ (set_subtensor _) => apply stays_set; confined_setter
  | |- stays_in _ (deposit_admin_event _) => apply stays_event
  | |- stays_in _ (call_subtensor _) =>
      apply stays_subtensor; intros ???; first [apply alpha_values_confined | apply sn_owner_hotkey_confined]
  | |- stays_in _ (if ?b then _ else _) => destruct b
  | |- stays_in _ (match ?b with Ok _ => _ | Err _ => _ end) => destruct b
  | |- _ => apply stays_id; intros ??? H; unfold root_only, owner_or_root, subnet_exists in H; monad_inv H; done
  end.

(** C27: A call about one subnet, whoever makes it, changes nothing of any
    other subnet: the parameters, switches, owner hotkey, liquid alpha bounds
    and rate limits of the others, every parameter of the chain, every
    balance, stake and neuron, the precompiles and the chain id are as they
    were. *)
Theorem admin_call_confined origin c n s s' :
  call_subnet c = Some n -> admin_call origin c s = Ok (tt, s') -> confined_state n s s'.
Proof.
  intros Hc. revert s s'. cut (stays_in n (admin_call origin c)); [intros Hs s s'; apply Hs|].
  destruct c; simplify_eq/=;
    lazymatch goal with |- stays_in _ ?m => let h := head_of m in unfold h end; repeat stays_step.
Qed.
End AdminUtils.
