(* ===== verification/ChainSlots.v ===== *)
(** * The slots of all subnets, over any run of the chain

    A run is made of calls of the pallet by any origin, calls of the admin-utils
    pallet, block hooks, and what other pallets do, which writes none of the
    items of the slots. [networks_ok] is an invariant of it, by rule induction:
    the calls are those of [CallSlots], the epochs of the block step those of
    [EpochSlots]. *)

From S2P Require Import Prelude Frame Fixed SharePool Storage Misc Uids Symbols Reserves Registration Identity.
From S2P Require Import RateLimiting Children Staking StakeWeights BlockStep EpochMath Weights EpochMatrix EpochBounds Emission Serving Network Lifecycle Root.
From S2P Require Import KeySwap SwapSlots Networks Calls CallSlots Dividends Coinbase Hooks Epoch EpochPays EpochSlots AdminUtils.
From stdpp Require Import prelude gmap list fin_maps.
From Stdlib Require Import ZArith Lia.
#[local] Open Scope Z_scope.
#[local] Open Scope monad_scope.

(** ** The block step *)
Section Blocks.
Context {FS : FrameSystem} {Cfg : SubtensorConfig} {SI : StorageIter} {W : Type}.
Context {Env : SubtensorEnv W} {SW : SwapHandler W} {F : SubstrateFixed} {FT : FixedTranscendental} {EF : EpochFixed}.
Context {WE : WeightsEnv W} {BO : BTreeOrder}.
Context (signed : AccountId -> Origin).
Abbreviation St := (Storage W).
Implicit Types (s : St).

#[local] Hint Resolve ok_epoch : slots.

Lemma ok_block_emission i s : networks_ok s -> networks_ok (get_block_emission_for_issuance i s).2.
Proof using. intros Hs. slots. Qed.
Lemma ok_drain n a t w c s : networks_ok s -> networks_ok (drain_pending_emission n a t w c s).
Proof using. intros Hs. slots. Qed.
Lemma ok_run_epoch b n s : networks_ok s -> networks_ok (run_epoch_if_due signed b s n).
Proof using.
  intros Hs. unfold run_epoch_if_due, take_net. destruct (should_run_epoch n b s); [|slots]. apply ok_drain.
  repeat (apply ok_put_net; [done|]). slots.
Qed.

Lemma ok_compute_terms e p l s : networks_ok s -> networks_ok (compute_terms e p l s).2.
Proof using.
  unfold compute_terms. generalize (mkTerms ∅ ∅ ∅) as t. revert s. induction l as [|n l IH]; intros s t Hs; [done|]. cbn [foldl].
  pose proof (ok_block_emission (get_alpha_issuance n s) s Hs) as H. unfold subnet_terms.
  destruct (get_block_emission_for_issuance (get_alpha_issuance n s) s). by apply IH.
Qed.
Lemma ok_cut_owner p l t s : networks_ok s -> networks_ok (foldl (cut_owner p) (t, s) l).2.
Proof using. revert t s. induction l as [|n l IH]; intros t s Hs; [done|]. cbn. apply IH. slots. Qed.

Lemma ok_coinbase e s : networks_ok s -> networks_ok (run_coinbase signed e s).
Proof using.
  intros Hs. unfold run_coinbase. cbv zeta.
  match goal with |- context [compute_terms ?e ?p ?l s] => pose proof (ok_compute_terms e p l s Hs) as H; destruct (compute_terms e p l s) as [t x] end.
  cbn [snd] in H. clear Hs. match goal with |- context [foldl (inject t) x ?l] => set (y := foldl (inject t) x l) end.
  assert (networks_ok y) as Hy by (apply ok_foldl; [intros; slots|done]). clearbody y.
  match goal with |- context [foldl (cut_owner ?p) (t, y) ?l] =>
    pose proof (ok_cut_owner p l t y Hy) as H2; destruct (foldl (cut_owner p) (t, y) l) as [t' z] end.
  cbn [snd] in H2. apply ok_foldl; [intros; by apply ok_run_epoch|]. slots.
Qed.

(** A block step keeps the slots: no part of it places, renames or removes a
    neuron, and its epochs store vectors of the right length. *)
Lemma block_step_slots s : networks_ok s -> networks_ok (block_step signed s).
Proof using.
  intros Hs. unfold block_step. cbv zeta. unfold get_block_emission.
  set (x := adjust_registration_terms_for_networks s). assert (networks_ok x) as Hx by slots. clearbody x.
  pose proof (ok_block_emission (get_total_issuance x) x Hx) as H. destruct (get_block_emission_for_issuance _ x) as [e y]. cbn [snd] in H.
  set (z := run_coinbase _ _ _). assert (networks_ok z) as Hz by by apply ok_coinbase. clearbody z. slots.
Qed.
Lemma block_hook_slots b s : networks_ok s -> networks_ok (on_initialize signed b s).
Proof using. intros Hs. unfold on_initialize. apply block_step_slots. slots. Qed.
End Blocks.

(** ** The calls of admin-utils *)
Section Admin.
Context {FS : FrameSystem} {Cfg : SubtensorConfig} {SI : StorageIter} {W : Type}.
Context {Env : SubtensorEnv W} {SW : SwapHandler W} {F : SubstrateFixed} {FT : FixedTranscendental} {EF : EpochFixed}.
Context {SE : Senate W} {CP : Consensus W}.
Abbreviation St := (Storage W).

Definition admin_keeps {A} (m : M (AdminState W) (error AdminError.Error) A) : Prop := forall s a s', m s = Ok (a, s') -> networks_ok (subtensor s) -> networks_ok (subtensor s').

Lemma admin_bind {A B} (m : M (AdminState W) (error AdminError.Error) A) (k : A -> M (AdminState W) (error AdminError.Error) B) :
  admin_keeps m -> (forall a, admin_keeps (k a)) -> admin_keeps (bind m k).
Proof using. intros Hm Hk s b s' H Hs. apply bind_ok in H as (a & s1 & H1 & H2). eapply Hk; [exact H2|]. by eapply Hm. Qed.
Lemma admin_set (f : St -> St) : (forall s, networks_ok s -> networks_ok (f s)) -> admin_keeps (set_subtensor f).
Proof using. intros Hf s a s' H Hs. unfold set_subtensor in H. monad_inv H. by apply Hf. Qed.
Lemma admin_subtensor {A} (m : Pm W A) : keeps m -> admin_keeps (call_subtensor m).
Proof using.
  intros Hm s a s' H. unfold call_subtensor in H. destruct (m (subtensor s)) as [[? x]|[]] eqn:E; simplify_eq. by eapply Hm.
Qed.
Lemma admin_same {A} (m : M (AdminState W) (error AdminError.Error) A) :
  (forall s a s', m s = Ok (a, s') -> subtensor s' = subtensor s) -> admin_keeps m.
Proof using. intros Hm s a s' H. by rewrite (Hm _ _ _ H). Qed.

Ltac admin_step :=
  lazymatch goal with
  | |- admin_keeps (bind _ _) => apply admin_bind; [|intros ?]
  | |- admin_keeps (set_subtensor _) => apply admin_set; intros ? ?; slots
  | |- admin_keeps (call_subtensor _) => apply admin_subtensor; slots
  | |- admin_keeps (match ?b with _ => _ end) => destruct b
  | |- admin_keeps _ => apply admin_same; intros ??? H;
      unfold root_only, owner_or_root, subnet_exists, deposit_admin_event in H; monad_inv H; done
  end.
Lemma admin_calls_keep_slots o c : admin_keeps (admin_call o c).
Proof using.
  destruct c; cbn [admin_call]; lazymatch goal with |- admin_keeps ?m => unfold_head m end; repeat admin_step.
Qed.
End Admin.

(** ** Runs *)
Section Runs.
Context {FS : FrameSystem} {Cfg : SubtensorConfig} {SI : StorageIter} {C W : Type}.
Context {Env : SubtensorEnv W} {SW : SwapHandler W} {F : SubstrateFixed} {FT : FixedTranscendental} {EF : EpochFixed}.
Context {SE : Senate W} {SL : SenateLaws W} {FW : ForcedWithdraw W} {WE : WeightsEnv W} {EC : EvmCrypto} {CE : CallsEnv C W}.
Context {BO : BTreeOrder} {CP : Consensus W}.
Context (signed : AccountId -> Origin).
Variable bypass : C -> Origin -> Storage W -> result DispatchError (Storage W).
Abbreviation St := (Storage W).
Implicit Types (s : St).

(** A call that fails leaves the storage as it was. What the other pallets do is
    any change that leaves the items of the slots and the set of subnets alone:
    balances, proposals, the block number, the pools and their reserves. *)
Inductive chain_step : St -> St -> Prop :=
  | StepCall c o s s' : subtensor_call bypass c o s = Ok (tt, s') -> call_typed c s -> chain_step s s'
  | StepAdmin c o a a' : admin_call o c a = Ok (tt, a') -> chain_step (subtensor a) (subtensor a')
  | StepBlock block_number s : chain_step s (on_initialize signed block_number s)
  | StepElsewhere s s' : same_neurons s s' -> NetworksAdded s' = NetworksAdded s -> chain_step s s'.

(** C4: In any run of the chain that starts with consistent slots, for instance with
    none, the slots of every subnet stay consistent: uids are those below the
    number of neurons, each has one hotkey and each hotkey at most one uid, the
    vectors have an entry for every uid, and an identifier without a subnet has
    no neuron. A run is any sequence of calls of the subtensor pallet (all of
    them: registrations, weights, swaps, stakes, removals) and of admin-utils, by
    any origin, of block hooks with their reveals and epochs, and of steps of
    other pallets, which do not write these items. The values a registration
    compares are taken to be of their types, and the runtime calls the council
    makes to keep the slots as the calls here do. *)
Theorem slots_always_consistent s0 s : bypass_keeps bypass -> rtc chain_step s0 s -> networks_ok s0 -> networks_ok s.
Proof using SL.
  intros Hb. induction 1 as [s|s s1 s' Hstep _ IH]; [done|]. intros Hok. apply IH.
  destruct Hstep as [c o s s1 H Ht|c o a a1 H|b s|s s1 H Ha].
  - by eapply calls_keep_slots.
  - by eapply admin_calls_keep_slots.
  - by apply block_hook_slots.
  - by eapply networks_ok_same.
Qed.
End Runs.
