(* ===== verification/SubtensorExamples.v ===== *)
(** * The subtensor pallet on a concrete runtime

    The constants of the mainnet runtime (src/runtime/src/lib.rs), a small
    world for the external interfaces, and the theorems of the pallet applied
    to concrete storages. *)

From S2P Require Import Prelude Frame Fixed TestRuntime Storage Misc Uids Reserves Registration.
From S2P Require Import RateLimiting Children.
From stdpp Require Import prelude gmap list fin_maps.
From Stdlib Require Import ZArith Lia.
#[local] Open Scope Z_scope.
#[local] Open Scope monad_scope.

#[export] Instance mainnet_config : SubtensorConfig (FS:=TestFrame) := {|
  InitialActivityCutoff := 5000;
  InitialAdjustmentAlpha := 0;
  InitialAdjustmentInterval := 100;
  InitialAlphaSigmoidSteepness := 1000;
  InitialBondsMovingAverage := 900000;
  InitialBondsPenalty := U16_MAX;
  InitialBondsResetOn := false;
  InitialBurn := 100000000;
  InitialColdkeySwapRescheduleDuration := 24 * 60 * 60 / 12;
  InitialColdkeySwapScheduleDuration := 5 * 24 * 60 * 60 / 12;
  InitialDefaultDelegateTake := 11796;
  InitialDifficulty := 10000000;
  InitialDissolveNetworkScheduleDuration := 5 * 24 * 60 * 60 / 12;
  InitialEmaPriceHalvingPeriod := 201600;
  InitialImmunityPeriod := 4096;
  InitialIssuance := 0;
  InitialKappa := 32767;
  InitialMaxAllowedUids := 4096;
  InitialMaxAllowedValidators := 128;
  InitialMaxBurn := 100000000000;
  InitialMaxChildKeyTake := 11796;
  InitialMaxDifficulty := U64_MAX / 4;
  InitialMaxRegistrationsPerBlock := 1;
  InitialMaxWeightsLimit := 1000;
  InitialMinAllowedWeights := 1024;
  InitialMinBurn := 500000;
  InitialMinChildKeyTake := 0;
  InitialMinDelegateTake := 0;
  InitialMinDifficulty := 10000000;
  InitialNetworkImmunityPeriod := 7 * 7200;
  InitialNetworkLockReductionInterval := 14 * 7200;
  InitialNetworkMinLockCost := 1000000000000;
  InitialNetworkRateLimit := 7200;
  InitialRAORecycledForRegistration := 0;
  InitialRho := 10;
  InitialScalingLawPower := 50;
  InitialSenateRequiredStakePercentage := 1;
  InitialServingRateLimit := 50;
  InitialSubnetOwnerCut := 11796;
  InitialTaoWeight := 971718665099567868;
  InitialTargetRegistrationsPerInterval := 2;
  InitialTempo := 360;
  InitialTxChildKeyTakeRateLimit := 216000;
  InitialTxDelegateTakeRateLimit := 216000;
  InitialTxRateLimit := 1000;
  InitialValidatorPruneLen := 1;
  InitialWeightsVersionKey := 0;
  feature_pow_faucet := false;
  feature_fast_blocks := false;
  DurationOfStartCall := 50400;
  KeySwapCost := 100000000;
  KeySwapOnSubnetCost := 1000000;
  HotkeySwapOnSubnetInterval := 36000;
  default_account := 0%nat;
|}.

(** Hashes keep the first 32 bytes, so that work is easy to find. *)
Definition test_hash (b : Bytes) : Bytes := take 32 (b ++ replicate 32 0).

Definition test_withdraw (w : TestWorld) (a : nat) (n : Z) : result bool (Z * TestWorld) :=
  if n <=? Z.of_N (tw_balance w a)
  then Ok (n, mkTestWorld (<[a := (tw_balance w a - Z.to_N n)%N]> (tw_balances w)) (tw_now w))
  else Err true.

#[export] Instance test_env : SubtensorEnv (FS:=TestFrame) TestWorld := {|
  system_block_number := tw_now;
  system_block_hash _ _ := replicate 32 0;
  keccak_256 := test_hash;
  sha2_256 := test_hash;
  encode_account a := replicate 32 (Z.of_nat a mod 256);
  reducible_balance w a := Z.of_N (tw_balance w a);
  can_withdraw w a n := n <=? Z.of_N (tw_balance w a);
  withdraw := test_withdraw;
  deposit w a n := mkTestWorld (<[a := (tw_balance w a + Z.to_N n)%N]> (tw_balances w)) (tw_now w);
|}.

(** A pool that trades one to one. *)
#[export] Instance test_swap : SwapHandler (FS:=TestFrame) TestWorld := {|
  swap s _ order amount _ _ :=
    match order with
    | Buy => Ok (mkSwapResult amount amount 0 amount (- amount), world s)
    | Sell => Ok (mkSwapResult amount amount 0 (- amount) amount, world s)
    end;
  sim_swap _ _ order amount :=
    Ok (match order with
        | Buy => mkSwapResult amount amount 0 amount (- amount)
        | Sell => mkSwapResult amount amount 0 (- amount) amount
        end);
  approx_fee_amount _ _ _ := 0;
  current_alpha_price _ _ := unit_ U96F32;
  max_price := U64_MAX;
  min_price := 0;
  adjust_protocol_liquidity s _ _ _ := world s;
|}.

#[export] Instance test_stake : StakeView (FS:=TestFrame) TestWorld := {|
  get_total_stake_for_hotkey _ _ := 1000;
|}.

Definition empty_storage (w : TestWorld) : Storage TestWorld :=
  mkStorage TestFrame TestWorld ∅ ∅ ∅ ∅ ∅ ∅ ∅ ∅ ∅ ∅ ∅ ∅ ∅ ∅ ∅ ∅ ∅ ∅ ∅ ∅ ∅ ∅ ∅ ∅ ∅ ∅ ∅ ∅ ∅ ∅ ∅
    None ∅ ∅ ∅ ∅ ∅ ∅ ∅ ∅ ∅ w [].

(** ** Swaps *)

Definition pool_storage : Storage TestWorld :=
  put_net NetNum.SubnetMechanism 1 1 (put_net NetNum.SubnetTAO 1 100
    (put_net NetNum.SubnetAlphaIn 1 100 (put_net NetNum.SubnetAlphaInProvided 1 30
    (put_net NetNum.SubnetTaoProvided 1 20 (empty_storage (mkTestWorld ∅ 5)))))).

Lemma pool_storage_ok : reserves_ok 1 pool_storage.
Proof. split; vm_compute; discriminate. Qed.

Definition bought : Storage TestWorld := exec (swap_tao_for_alpha 1 50 U64_MAX) pool_storage.

Lemma buy_moves_reserves_witness :
  tao_reserve 1 bought = 170 /\ alpha_reserve 1 bought = 80.
Proof.
  destruct (buy_moves_reserves 1 50 U64_MAX pool_storage (mkSwapResult 50 50 0 50 (-50)) bought)
    as (_ & E1 & E2 & _); [apply pool_storage_ok|vm_compute; first [reflexivity|split; congruence|congruence]..|].
  split; [rewrite E1|rewrite E2]; vm_compute; reflexivity.
Defined.

Definition sold : Storage TestWorld := exec (swap_alpha_for_tao 1 50 0) pool_storage.

Lemma sell_moves_reserves_witness :
  tao_reserve 1 sold = 70 /\ alpha_reserve 1 sold = 180.
Proof.
  destruct (sell_moves_reserves 1 50 0 pool_storage (mkSwapResult 50 50 0 (-50) 50) sold)
    as (_ & E1 & E2 & _); [apply pool_storage_ok|vm_compute; first [reflexivity|split; congruence|congruence]..|].
  split; [rewrite E1|rewrite E2]; vm_compute; reflexivity.
Defined.

(** ** Registration

    Subnet 1 with [max] slots; the owner's hotkey is 10, and coldkey 5 has
    1 TAO. *)
Definition subnet_storage (max : Z) : Storage TestWorld :=
  put_net NetNum.MaxAllowedUids 1 max
    (put_flag NetFlag.NetworkRegistrationAllowed 1 true
      (put_flag NetFlag.NetworkPowRegistrationAllowed 1 true
        (empty_storage (mkTestWorld (<[5%nat := 1000000000%N]> ∅) 5000)
          <| NetworksAdded := <[1 := true]> ∅ |> <| SubnetOwnerHotkey := <[1 := 10%nat]> ∅ |>))).

Definition full_storage : Storage TestWorld :=
  append_neuron 1 11%nat 20 (append_neuron 1 10%nat 10 (subnet_storage 2)).
Definition owner_only_storage : Storage TestWorld := append_neuron 1 10%nat 10 (subnet_storage 1).

Lemma empty_uids_ok (s : Storage TestWorld) m :
  Keys s = ∅ -> Uids s = ∅ -> IsNetworkMember s = ∅ -> net_vecs s = ∅ -> net_bool_vecs s = ∅ ->
  get_subnetwork_n m s = 0 -> uids_ok s m.
Proof.
  intros E1 E2 E3 E4 E5 E6.
  split; intros; unfold member, get_vec, get_bvec; rewrite ?E1, ?E2, ?E3, ?E4, ?E5, ?E6, ?lookup_empty;
    try done; split; [by intros []|lia].
Qed.

Lemma subnet_n max m : get_subnetwork_n m (subnet_storage max) = 0.
Proof. unfold subnet_storage, get_subnetwork_n. by st_read. Qed.

Lemma subnet_uids_ok max m : uids_ok (subnet_storage max) m.
Proof. apply empty_uids_ok; try reflexivity. apply subnet_n. Qed.

Lemma full_ready : slots_ready 1 full_storage.
Proof.
  split; [|vm_compute; congruence|vm_compute; split; congruence|].
  - intros m. apply append_ok; [apply append_ok|..]; try (vm_compute; congruence); try reflexivity.
    apply subnet_uids_ok.
  - intros u. split.
    + unfold get_pruning_score_for_uid.
      replace (get_vec NetVec.PruningScores 1 full_storage) with [0; 0] by reflexivity.
      destruct (Z.to_nat u) as [|[|k]]; vm_compute; congruence.
    + unfold get_neuron_block_at_registration.
      assert (map_Forall (fun _ b => b < U64_MAX) (BlockAtRegistration full_storage)) as Hall
        by (refine (bool_decide_unpack _ _); vm_compute; exact I).
      destruct (BlockAtRegistration full_storage !! (1, u)) eqn:E; cbn; [by apply Hall in E|lia].
Qed.

Lemma prune_picks_least_witness : exists u, candidate 1 full_storage u /\
  get_neuron_to_prune 1 full_storage = Ok (u, put_vec NetVec.PruningScores 1
    (<[Z.to_nat u := U16_MAX]> (get_vec NetVec.PruningScores 1 full_storage)) full_storage).
Proof.
  destruct (prune_picks_least 1 full_storage) as (u & E & [[_ Hno]|[Hc _]]);
    [reflexivity|apply full_ready|..].
  - exfalso. apply (Hno 1). split; [vm_compute; split; congruence|reflexivity].
  - exists u. split; [exact Hc|exact E].
Defined.

Definition burned_full : Storage TestWorld := exec (do_burned_registration (signed 5) 1 12%nat) full_storage.

Lemma burned_full_ok : registration (FS:=TestFrame) 1 12%nat full_storage burned_full.
Proof. apply (Burned _ _ (signed 5)). vm_compute. reflexivity. Qed.

Lemma registration_keeps_slots_witness :
  uids_ok burned_full 1 /\ exists uid, registered_at (FS:=TestFrame) 1 12%nat uid full_storage burned_full.
Proof.
  destruct (registration_keeps_slots (FS:=TestFrame) 1 12%nat full_storage burned_full burned_full_ok full_ready)
    as (H & Hroom & _).
  split; [exact (H 1)|]. destruct Hroom as (uid & Hr & _); [|by exists uid].
  right. exists 1. split; [vm_compute; split; congruence|reflexivity].
Defined.

Lemma registration_within_limits_witness :
  get_registrations_this_block 1 burned_full <= 1.
Proof. exact (proj1 (registration_within_limits (FS:=TestFrame) 1 12%nat full_storage burned_full burned_full_ok)). Defined.

Definition lost_storage : Storage TestWorld :=
  exec (do_burned_registration (signed 5) 1 12%nat) owner_only_storage.

(** A registration can be paid for and lost. On a subnet with one slot that
    the owner's hotkey holds, a burned registration succeeds, takes the
    registration cost from the caller and reports [NeuronRegistered], but the
    hotkey is not registered: [get_neuron_to_prune] falls back on uid 0 and
    [replace_neuron] refuses to replace the owner without an error. *)
Theorem registration_paid_and_lost :
  exists s', do_burned_registration (signed 5) 1 12%nat owner_only_storage = Ok (tt, s') /\
  get_coldkey_balance 5%nat owner_only_storage = 1000000000 /\
  get_coldkey_balance 5%nat s' = 900000000 /\
  last (events s') = Some (Event.NeuronRegistered 1 0 12%nat) /\
  is_hotkey_registered_on_network 1 12%nat s' = false /\
  Keys s' = Keys owner_only_storage.
Proof. exists lost_storage. split_and!; vm_compute; reflexivity. Qed.

(** Work for block 4999 and nonce 7, and the registration it buys. *)
Definition work7 : Bytes := create_seal_hash 4999 7 12%nat full_storage.
Definition worked : Storage TestWorld :=
  exec (do_registration (signed 12) 1 4999 7 work7 12%nat 5%nat) full_storage.

Lemma pow_requires_work_witness : from_little_endian work7 * 10000000 < 2 ^ 256.
Proof.
  destruct (pow_requires_work (signed 12) 1 4999 7 work7 12%nat 5%nat full_storage worked)
    as (_ & _ & _ & H & _); [vm_compute; reflexivity|]. exact H.
Defined.

Definition faucet_work : Bytes := create_seal_hash 4999 7 5%nat full_storage.
Definition fauceted : Storage TestWorld := exec (do_faucet (signed 5) 4999 7 faucet_work) full_storage.

Lemma faucet_issues_less_than_it_pays_witness :
  get_total_issuance fauceted = 100000000000 /\ get_coldkey_balance 5%nat fauceted = 1001000000000.
Proof.
  destruct (faucet_issues_less_than_it_pays (signed 5) 4999 7 faucet_work full_storage fauceted)
    as (c & Hc & E1 & E2); [vm_compute; reflexivity|].
  split; [rewrite E2; vm_compute; reflexivity|]. unfold get_coldkey_balance. rewrite E1.
  injection Hc as <-. vm_compute. reflexivity.
Defined.

Lemma faucet_traps_on_short_work_witness :
  do_faucet (signed 5) 4999 7 [1; 2; 3] full_storage = Err Panic.
Proof.
  apply (faucet_traps_on_short_work (signed 5) 5%nat); [reflexivity|vm_compute; split; congruence|discriminate].
Defined.

(** ** Takes and child keys *)

(** Block [b] of a chain where coldkey 5 owns hotkey 10. *)
Definition owned_storage (b : Z) : Storage TestWorld :=
  empty_storage (mkTestWorld ∅ b) <| Owner := <[10%nat := 5%nat]> ∅ |>
    <| NetworksAdded := <[1 := true]> ∅ |>.

Definition take1 : Storage TestWorld := exec (do_increase_take (signed 5) 10%nat 100) (owned_storage 10).
Definition take1_later : Storage TestWorld := take1 <| world := mkTestWorld ∅ 300000 |>.
Definition take2 : Storage TestWorld := exec (do_increase_take (signed 5) 10%nat 200) take1_later.

Lemma take_increase_limited_witness : 10 + 216000 < 300000.
Proof.
  destruct (take_increase_limited (signed 5) (signed 5) 10%nat 100 200 (owned_storage 10) take1
    take1_later take2) as (_ & _ & _ & _ & H);
    [vm_compute; first [reflexivity|congruence]..|]. exact H.
Defined.

Definition scheduled : Storage TestWorld :=
  exec (do_schedule_children (signed 5) 10%nat 1 [(100, 11%nat); (7, 12%nat)]) (owned_storage 10).
Definition scheduled_later : Storage TestWorld := scheduled <| world := mkTestWorld ∅ 11 |>.
Definition linked : Storage TestWorld := do_set_pending_children 1 scheduled_later.

Lemma linked_reachable : rtc child_step (owned_storage 10) linked.
Proof.
  apply (rtc_l _ _ scheduled).
  { apply (StepSchedule (signed 5) 10%nat 1 [(100, 11%nat); (7, 12%nat)]). vm_compute. reflexivity. }
  apply (rtc_l _ _ scheduled_later); [by apply StepOther|].
  apply rtc_once. exact (StepApply 1 scheduled_later).
Qed.

Lemma children_parents_converse_witness :
  get_children (FS:=TestFrame) 10%nat 1 linked = [(100, 11%nat); (7, 12%nat)] /\
  (7, 10%nat) ∈ get_parents (FS:=TestFrame) 12%nat 1 linked.
Proof.
  split; [vm_compute; reflexivity|].
  pose proof (children_parents_converse (owned_storage 10) linked eq_refl eq_refl eq_refl
    linked_reachable 1) as [H _ _].
  apply H.
  replace (get_children (FS:=TestFrame) 10%nat 1 linked) with [(100, 11%nat); (7, 12%nat)]
    by (vm_compute; reflexivity).
  apply list_elem_of_further, list_elem_of_here.
Defined.
