(* ===== verification/StakingExamples.v ===== *)
(** * Staking on a concrete runtime

    Witnesses for the theorems on fixed-point numbers, share pools and staking,
    and a partial stake swap that loses stake. *)

From S2P Require Import Prelude Frame Fixed SharePool TestRuntime Storage Misc Uids Reserves.
From S2P Require Import Children Staking StakeWeights SubtensorExamples.
From stdpp Require Import prelude gmap list fin_maps.
From Stdlib Require Import ZArith Lia.
#[local] Open Scope Z_scope.
#[local] Open Scope monad_scope.

Lemma checked_pow_exact_witness : checked_pow U110F18 (from_num U110F18 3) 40 = Some (3 ^ 40 * 2 ^ 18).
Proof. apply (checked_pow_exact U110F18 3 40); vm_compute; first [split; congruence|congruence]. Defined.

(** ** A staked subnet *)

(** Coldkeys 5 and 6 stake on hotkey 10 of the dynamic subnet 1: 3 and 1
    million alpha. *)
Definition staked : Storage TestWorld :=
  empty_storage (mkTestWorld {[ 5%nat := 1000%N; 6%nat := 1000%N ]} 7)
    <| NetworksAdded := {[ 1 := true; 2 := true ]} |>
    <| Owner := {[ 10%nat := 5%nat ]} |>
    <| net_flags := {[ (NetFlag.SubtokenEnabled, 1) := true; (NetFlag.SubtokenEnabled, 2) := true ]} |>
    <| net_nums := list_to_map
         [((NetNum.SubnetMechanism, 1), 1); ((NetNum.SubnetMechanism, 2), 1);
          ((NetNum.SubnetTAO, 1), 1000000000); ((NetNum.SubnetTAO, 2), 1000000000);
          ((NetNum.SubnetAlphaIn, 1), 1000000000); ((NetNum.SubnetAlphaIn, 2), 1000000000);
          ((NetNum.SubnetAlphaOut, 1), 4000000)] |>
    <| net_key_nums := list_to_map
         [((NetKeyNum.TotalHotkeyAlpha, 1, 10%nat), 4000000);
          ((NetKeyNum.TotalHotkeyShares, 1, 10%nat), 4000000 * 2 ^ 64)] |>
    <| Alpha := {[ (10%nat, 1) := list_to_map [(5%nat, 3000000 * 2 ^ 64); (6%nat, 1000000 * 2 ^ 64)] ]} |>.

Lemma staked_pool : pool_ok (Ops := get_alpha_share_pool (FS:=TestFrame) 10%nat 1) staked.
Proof.
  split.
  - intros k v. cbn. unfold alpha_shares. change (Alpha staked !! (10%nat, 1)) with
      (Some (list_to_map [(5%nat, 3000000 * 2 ^ 64); (6%nat, 1000000 * 2 ^ 64)] : gmap nat Z)). cbn [default from_option id].
    intros Hv%elem_of_list_to_map_2. rewrite !elem_of_cons in Hv.
    destruct Hv as [[= -> ->]|[[= -> ->]|[]%elem_of_nil]]; lia.
  - vm_compute. reflexivity.
  - vm_compute. split; congruence.
  - vm_compute. split; congruence.
Qed.

Lemma staked_ok : stake_ok (FS:=TestFrame) 10%nat 1 staked.
Proof. split; [apply staked_pool|vm_compute; reflexivity|vm_compute; split; congruence]. Qed.

Definition pool10 := get_alpha_share_pool (FS:=TestFrame) (W:=TestWorld) 10%nat 1.

Lemma share_pool_stays_consistent_witness :
  pool_ok (Ops := pool10) (update_value_for_one (Ops := pool10) 6%nat (-1500000) staked).2.
Proof. apply (share_pool_stays_consistent 6%nat (-1500000) staked staked_pool). vm_compute. reflexivity. Defined.

Lemma share_pool_solvent_witness :
  zsum (fun k => SharePool.get_value (Ops := pool10) k staked) [5%nat; 6%nat; 7%nat] * 2 ^ 64 <= 4000000 * 2 ^ 64.
Proof.
  exact (share_pool_solvent (Ops := pool10) [5%nat; 6%nat; 7%nat] staked staked_pool
    ltac:(repeat constructor; set_solver)).
Defined.

Definition taken := update_value_for_one (Ops := pool10) 6%nat (-400000) staked.

Lemma share_pool_update_reported_witness : get_shared_value (SharePoolDataOperations := pool10) taken.2 = 3600000 * 2 ^ 64.
Proof.
  destruct (share_pool_update_reported (Ops := pool10) 6%nat (-400000) taken.1 staked taken.2 staked_pool) as [E _];
    [vm_compute; first [reflexivity|split; congruence]..|].
  rewrite E. vm_compute. reflexivity.
Defined.

Definition unstaked :=
  decrease_stake_for_hotkey_and_coldkey_on_subnet (FS:=TestFrame) 10%nat 6%nat 1 400000 staked.

Lemma unstaking_takes_what_it_reports_witness :
  get_stake_for_hotkey_on_subnet (FS:=TestFrame) 10%nat 1 unstaked.2 = 4000000 - unstaked.1.
Proof.
  destruct (unstaking_takes_what_it_reports (FS:=TestFrame) 10%nat 6%nat 1 400000 staked unstaked.1 unstaked.2
    staked_ok) as (_ & E & _); [lia|apply surjective_pairing|exact E].
Defined.

Definition recycled : Storage TestWorld := exec (do_recycle_alpha (signed 6) 10%nat 400000 1) staked.

Lemma recycle_and_burn_books_witness : exists d, 400000 <= d <= 1000000 /\
  get_net NetNum.SubnetAlphaOut 1 recycled = 4000000 - d.
Proof.
  destruct (recycle_and_burn_books (FS:=TestFrame) (signed 6) 10%nat 400000 1 true staked recycled staked_ok)
    as (c & d & Hc & Hd & _ & E & _); [lia|vm_compute; reflexivity|].
  injection Hc as <-. assert (Hb : 400000 <= d <= 1000000) by exact Hd.
  exists d. split; [exact Hb|]. rewrite E. change (get_net NetNum.SubnetAlphaOut 1 staked) with 4000000.
  unfold sat_sub. lia.
Defined.

Definition staked_more : Storage TestWorld :=
  exec (stake_into_subnet (FS:=TestFrame) 10%nat 6%nat 1 700000 U64_MAX) staked.

Lemma staking_credits_what_was_bought_witness :
  get_stake_for_hotkey_on_subnet (FS:=TestFrame) 10%nat 1 staked_more = 4700000.
Proof.
  destruct (staking_credits_what_was_bought (FS:=TestFrame) 10%nat 6%nat 1 700000 U64_MAX 700000 staked staked_more
    staked_ok) as (_ & E & _); [vm_compute; reflexivity|lia|vm_compute; reflexivity|].
  rewrite E. reflexivity.
Defined.

(** ** Inherited stake *)

(** Coldkey 5 hands half of hotkey 10's weight to hotkey 11 and a quarter to
    hotkey 12. *)
Definition halves_scheduled : Storage TestWorld :=
  exec (do_schedule_children (signed 5) 10%nat 1 [(2 ^ 63, 11%nat); (2 ^ 62, 12%nat)]) (owned_storage 10).
Definition halves : Storage TestWorld :=
  do_set_pending_children 1 (halves_scheduled <| world := mkTestWorld ∅ 11 |>).
Definition halves_staked : Storage TestWorld :=
  halves <| net_key_nums := list_to_map
    [((NetKeyNum.TotalHotkeyAlpha, 1, 10%nat), 4000000); ((NetKeyNum.TotalHotkeyAlpha, 0, 10%nat), 800)] |>.

Lemma halves_inv : child_inv halves_staked.
Proof.
  apply (child_steps_inv (owned_storage 10)); [|by apply no_links_inv].
  apply (rtc_l _ _ halves_scheduled).
  { apply (StepSchedule (signed 5) 10%nat 1 [(2 ^ 63, 11%nat); (2 ^ 62, 12%nat)]). vm_compute. reflexivity. }
  apply (rtc_l _ _ (halves_scheduled <| world := mkTestWorld ∅ 11 |>)); [by apply StepOther|].
  apply (rtc_l _ _ halves); [exact (StepApply 1 _)|]. apply rtc_once.
  unfold halves_staked. generalize halves. intros s. by apply StepOther.
Qed.

Lemma halves_typed m : stakes_typed (FS:=TestFrame) m halves_staked.
Proof.
  intros h. unfold get_stake_for_hotkey_on_subnet, get_net_key, halves_staked. generalize halves. intros s. cbn.
  rewrite !lookup_insert, lookup_empty. repeat case_decide; cbn; lia.
Qed.

Lemma halves_children h : get_children (FS:=TestFrame) h 1 halves_staked =
  if decide (h = 10%nat) then [(2 ^ 63, 11%nat); (2 ^ 62, 12%nat)] else [].
Proof.
  unfold get_children. replace (ChildKeys halves_staked) with
    ({[ (10%nat, 1) := [(2 ^ 63, 11%nat); (2 ^ 62, 12%nat)] ]} : gmap (nat * Z) (list (Z * nat)))
    by (vm_compute; reflexivity).
  destruct (decide (h = 10%nat)) as [->|Hn]; [by rewrite lookup_singleton_eq|].
  by rewrite lookup_singleton_ne by congruence.
Qed.

Lemma inherited_stake_conserved_witness :
  zsum (fun h => get_inherited_for_hotkey_on_subnet (FS:=TestFrame) h 1 halves_staked) [10%nat; 11%nat; 12%nat] <= 4000000.
Proof.
  destruct (inherited_stake_conserved (FS:=TestFrame) 1 [10%nat; 11%nat; 12%nat] halves_staked)
    as [H _]; [apply halves_inv| |apply halves_typed|apply halves_typed|repeat constructor; set_solver| |exact H].
  - intros h p c. rewrite halves_children. case_decide; [|set_solver].
    rewrite !elem_of_cons, elem_of_nil. intros [[= -> ->]|[[= -> ->]|[]]]; lia.
  - intros h p q _ Hx%(lo_converse _ _ (proj1 (halves_inv 1))). rewrite halves_children in Hx.
    destruct (decide (q = 10%nat)) as [->|]; set_solver.
Defined.

Example halves_inherited :
  (fun h => get_inherited_for_hotkey_on_subnet (FS:=TestFrame) h 1 halves_staked) <$> [10%nat; 11%nat; 12%nat]
  = [1000000; 2000000; 1000000].
Proof. vm_compute. reflexivity. Qed.

(** ** A partial stake swap that loses stake *)

Definition swapped : Storage TestWorld :=
  exec (do_swap_stake_limit (FS:=TestFrame) (signed 5) 10%nat 1 2 1000000 999999000 true) staked.

(** A partial stake swap can lose stake. Coldkey 5 swaps 1,000,000 alpha
    from subnet 1 to subnet 2 with a price limit that only 500 alpha fit. The
    call succeeds: the 500 alpha leave the stake on subnet 1 and are sold for
    TAO, but as the TAO is below the minimum stake nothing is staked on subnet
    2, and the TAO is not credited to the coldkey either. *)
Theorem partial_swap_loses_stake :
  is_ok (do_swap_stake_limit (FS:=TestFrame) (signed 5) 10%nat 1 2 1000000 999999000 true staked) = true /\
  get_stake_for_hotkey_on_subnet (FS:=TestFrame) 10%nat 1 swapped = 4000000 - 500 /\
  get_stake_for_hotkey_on_subnet (FS:=TestFrame) 10%nat 2 swapped = 0 /\
  get_coldkey_balance 5%nat swapped = get_coldkey_balance 5%nat staked /\
  last (events swapped) = Some (Event.StakeSwapped (FS:=TestFrame) 5%nat 10%nat 1 2 500).
Proof.
  split; [vm_compute; reflexivity|]. split; [vm_compute; reflexivity|]. split; [vm_compute; reflexivity|].
  split; vm_compute; reflexivity.
Qed.
