(* ===== verification/BlockExamples.v ===== *)
(** * Blocks and weights on a concrete runtime

    Witnesses for the theorems on the block step and on setting weights. *)

From S2P Require Import Prelude Frame Fixed SharePool TestRuntime Storage Misc Uids Reserves.
From S2P Require Import Children Staking StakeWeights BlockStep EpochMath Weights SubtensorExamples.
From stdpp Require Import prelude gmap list fin_maps sorting.
From Stdlib Require Import ZArith Lia.
#[local] Open Scope Z_scope.
#[local] Open Scope monad_scope.

(** Closed comparisons. *)
Ltac compute_done := vm_compute; first [reflexivity | split; congruence | congruence | done].

(** ** The block step *)

(** Block 200 of a chain whose subnet 1 had five registrations, all burned, in
    an interval with a target of two. *)
Definition busy : Storage TestWorld :=
  empty_storage (mkTestWorld ∅ 200)
    <| NetworksAdded := {[ 1 := true; 2 := true ]} |>
    <| net_nums := list_to_map
         [((NetNum.AdjustmentInterval, 1), 100); ((NetNum.RegistrationsThisInterval, 1), 5);
          ((NetNum.BurnRegistrationsThisInterval, 1), 5); ((NetNum.Tempo, 1), 9)] |>.

Definition after_adjustment : Storage TestWorld := adjust_registration_terms_for_networks busy.

Lemma busy_terms : terms_ok (FS:=TestFrame) 1 busy.
Proof. split; compute_done. Qed.

Lemma registration_terms_stay_bounded_witness : terms_ok (FS:=TestFrame) 1 after_adjustment.
Proof. exact (registration_terms_stay_bounded 1 busy busy_terms). Defined.

Lemma registration_terms_follow_demand_witness : 100000000 <= get_burn_as_u64 (FS:=TestFrame) 1 after_adjustment /\
  get_difficulty_as_u64 (FS:=TestFrame) 1 after_adjustment = 10000000 /\
  get_registrations_this_interval (FS:=TestFrame) 1 after_adjustment = 0.
Proof.
  assert (Hin : 1 ∈ get_all_subnet_netuids (FS:=TestFrame) busy)
    by (apply list_elem_of_In; vm_compute; tauto).
  destruct (registration_terms_follow_demand 1 busy busy_terms Hin) as [_ H].
  assert (E : interval_over (FS:=TestFrame) 1 busy = true) by compute_done. rewrite E in H.
  destruct H as ([Hm _] & _ & Hr & _). destruct Hm as (H1 & _ & _ & H2); [compute_done|].
  split; [exact H1|]. split; [|exact Hr]. etrans; [apply H2; compute_done|compute_done].
Defined.

(** Burn goes up by three quarters: 5 registrations for a target of 2. *)
Example busy_burn : get_burn_as_u64 (FS:=TestFrame) 1 after_adjustment = 175000000.
Proof. compute_done. Qed.

Lemma epoch_runs_once_per_tempo_witness :
  should_run_epoch (FS:=TestFrame) 1 207 busy = true /\ should_run_epoch (FS:=TestFrame) 1 205 busy = false.
Proof.
  destruct (epoch_runs_once_per_tempo 1 200 busy) as [_ H]; [compute_done..|].
  split; [apply (H 7); compute_done|].
  apply not_true_iff_false. intros Hx. apply (H 5) in Hx; [|compute_done]. vm_compute in Hx. discriminate Hx.
Defined.

(** ** Weights *)

Lemma upscale_keeps_shape_witness : vec_u16_max_upscale_to_u16 [0; 20000; 40000] !! 2%nat = Some U16_MAX.
Proof.
  destruct (upscale_keeps_shape [0; 20000; 40000]) as (Hlen & _ & H); [repeat constructor; lia|].
  destruct (vec_u16_max_upscale_to_u16 [0; 20000; 40000] !! 2%nat) as [y|] eqn:Ey.
  - destruct (H 2%nat 40000 y eq_refl Ey) as (_ & E & _). by rewrite E by compute_done.
  - apply lookup_ge_None in Ey. cbn [length] in Hlen. lia.
Defined.

(** Hashes: the values of a reveal with its salt. Nothing is time-locked except
    the commit [[1]], which opens with any pulse to one weight for uid 1. *)
#[export] Instance test_weights_env : WeightsEnv (FS:=TestFrame) TestWorld := {|
  hash_of_reveal '(_, _, uids, values, salt, _) := uids ++ values ++ salt;
  hash_of_bytes b := b;
  pulse_signature _ _ := Some [48; 120; 7];
  Ciphertext := unit;
  Signature := unit;
  deserialize_commit b := match b with [1] => Some tt | _ => None end;
  deserialize_signature b := match b with [7] => Some tt | _ => None end;
  tld _ _ := Some [1];
  decode_payload b := Some (mkPayload [1] [5] 0);
|}.

#[export] Instance test_weights_laws : WeightsEnvLaws (FS:=TestFrame) TestWorld.
Proof. split. intros b p [= <-]. repeat constructor; cbn; lia. Qed.

(** Block [b] of a chain with neurons 10 and 11 on subnet 1, the first with a
    validator permit, an epoch of ten blocks and commit-reveal one epoch apart. *)
Definition neurons (b : Z) : Storage TestWorld :=
  empty_storage (mkTestWorld ∅ b)
    <| NetworksAdded := {[ 1 := true ]} |>
    <| Keys := list_to_map [((1, 0), 10%nat); ((1, 1), 11%nat)] |>
    <| Uids := list_to_map [((1, 10%nat), 0); ((1, 11%nat), 1)] |>
    <| net_flags := {[ (NetFlag.CommitRevealWeightsEnabled, 1) := true ]} |>
    <| net_bool_vecs := {[ (NetBoolVec.ValidatorPermit, 1) := [true; false] ]} |>
    <| net_vecs := {[ (NetVec.LastUpdate, 1) := [0; 0] ]} |>
    <| net_nums := list_to_map
         [((NetNum.Tempo, 1), 9); ((NetNum.RevealPeriodEpochs, 1), 1); ((NetNum.SubnetworkN, 1), 2);
          ((NetNum.MaxWeightsLimit, 1), U16_MAX); ((NetNum.MinAllowedWeights, 1), 1)] |>.

Definition committed : Storage TestWorld :=
  exec (do_commit_weights (FS:=TestFrame) (signed 10) 1 [0; 1; 300; 600; 77]) (neurons 25).
Definition committed_later : Storage TestWorld := committed <| world := mkTestWorld ∅ 30 |>.
Definition revealed : Storage TestWorld :=
  exec (do_reveal_weights (FS:=TestFrame) (signed 10) 1 [0; 1] [300; 600] [77] 0) committed_later.

Lemma committed_reachable : rtc weights_step (neurons 25) revealed.
Proof.
  apply (rtc_l _ _ committed).
  { apply (StepCommitWeights (signed 10) 1 [0; 1; 300; 600; 77]). compute_done. }
  apply (rtc_l _ _ committed_later).
  { unfold committed_later. assert (E : get_current_block_as_u64 committed <= 30) by compute_done.
    revert E. generalize committed. intros s E. by apply StepElsewhere. }
  apply rtc_once. apply (StepRevealWeights (signed 10) 1 [0; 1] [300; 600] [77] 0); [repeat constructor; lia|].
  compute_done.
Qed.

Lemma stored_weights_well_formed_witness : entry_ok [(0, 32768); (1, 65535)].
Proof.
  apply (wi_weights revealed (stored_weights_well_formed (neurons 25) revealed eq_refl eq_refl eq_refl
    committed_reachable) 1 0). compute_done.
Defined.

Lemma reveal_window_exact_witness : get_reveal_blocks (FS:=TestFrame) 1 25 committed_later = (28, 37) /\
  is_reveal_block_range (FS:=TestFrame) 1 25 committed_later = true.
Proof.
  pose proof (reveal_window_exact 1 25 committed_later) as H. cbv zeta in H.
  assert (E : get_reveal_blocks (FS:=TestFrame) 1 25 committed_later = (28, 37)) by compute_done.
  rewrite E in H. split; [exact E|].
  destruct H as (_ & _ & [_ H] & _); [compute_done..|]. apply H. compute_done.
Defined.

Lemma committed_inv : weights_inv committed_later.
Proof.
  apply (weights_steps_inv (neurons 25)); [|by apply no_weights_inv].
  apply (rtc_l _ _ committed).
  { apply (StepCommitWeights (signed 10) 1 [0; 1; 300; 600; 77]). compute_done. }
  apply rtc_once. unfold committed_later. assert (E : get_current_block_as_u64 committed <= 30) by compute_done.
  revert E. generalize committed. intros s E. by apply StepElsewhere.
Qed.

Lemma reveal_sets_committed_weights_witness : Weights revealed !! (1, 0) = Some [(0, 32768); (1, 65535)].
Proof.
  destruct (reveal_sets_committed_weights (signed 10) 1 [0; 1] [300; 600] [77] 0 committed_later revealed)
    as (who & uid & i & c & Ho & Hu & H); [exact committed_inv|compute_done|compute_done|].
  injection Ho as <-. assert (uid = 0) as -> by (vm_compute in Hu; congruence).
  destruct H as (_ & _ & _ & _ & _ & E & _). rewrite E, lookup_insert_eq. compute_done.
Defined.

Lemma signed_self who h : ensure_signed (FrameSystem := TestFrame) (signed who) = Ok h -> h = who.
Proof. intros H. apply test_signed in H as [H _]. unfold signed in H. congruence. Qed.

(** Neuron 10 commits in epoch 2, whose end is block 27. *)
Definition timelocked : Storage TestWorld :=
  exec (do_commit_crv3_weights (FS:=TestFrame) (signed 10) 1 [1] 5) (neurons 25) <| world := mkTestWorld ∅ 27 |>.

Lemma timelocked_commits_opened_once_witness :
  crv3_commits 1 2 timelocked = [(10%nat, [1], 5)] /\
  crv3_commits 1 2 (reveal_crv3_commits signed 1 timelocked) = [].
Proof.
  split; [compute_done|].
  pose proof (timelocked_commits_opened_once signed signed_self 1 timelocked) as H. cbv zeta in H.
  destruct H as [H _]; [compute_done|]. apply H. compute_done.
Defined.

Example timelocked_weights : Weights (reveal_crv3_commits signed 1 timelocked) !! (1, 0) = Some [(1, 65535)].
Proof. compute_done. Qed.
