(* ===== verification/CoinbaseExamples.v ===== *)
(** * The coinbase on a concrete runtime

    Instances for the interfaces of the coinbase, an epoch that rewards one
    miner and one validator, and witnesses for the theorems on emission and
    dividends. *)

From S2P Require Import Prelude Frame Fixed SharePool TestRuntime Storage Misc Uids Reserves.
From S2P Require Import Children Staking StakeWeights BlockStep EpochMath Weights.
From S2P Require Import Emission Dividends Coinbase SubtensorExamples BlockExamples.
From stdpp Require Import prelude gmap list fin_maps sorting.
From Stdlib Require Import ZArith Lia.
#[local] Open Scope Z_scope.
#[local] Open Scope monad_scope.

(** ** Instances *)

(** The logarithm with its integer part only. *)
#[export] Instance bits_transcendental : FixedTranscendental := {|
  Emission.checked_sub t x y :=
    if (min_bits t <=? x - y) && (x - y <=? max_bits t) then Some (x - y) else None;
  Emission.log2 t x := if x <=? 0 then None else Some (saturate t (Z.log2 (x / unit_ t) * unit_ t));
  Emission.floor t x := saturate t (x / unit_ t * unit_ t);
|}.

Lemma frac_small t : frac_bits t <= 64 /\ 2 ^ frac_bits t * 128 <= 2 ^ 71.
Proof. destruct t; cbn; lia. Qed.

#[export] Instance bits_transcendental_laws : FixedTranscendentalLaws.
Proof.
  split; cbn.
  - intros t x y [H1 H2]. by rewrite (proj2 (Z.leb_le _ _) H1), (proj2 (Z.leb_le _ _) H2).
  - intros x [Hx Hmax]. pose proof (unit_pos I96F32). destruct (Z.leb_spec x 0); [lia|].
    set (k := Z.log2 (x / unit_ I96F32)). assert (Hq : 1 <= x / unit_ I96F32) by (apply Z.div_le_lower_bound; lia).
    assert (Hk : 0 <= k /\ 2 ^ k <= x / unit_ I96F32) by (split; [apply Z.log2_nonneg|apply Z.log2_spec; lia]).
    assert (k < 2 ^ k) by (apply Z.pow_gt_lin_r; lia).
    assert (k * unit_ I96F32 <= x) by (pose proof (Z.mul_div_le x (unit_ I96F32)); nia).
    assert (unit_ I96F32 * unit_ I96F32 <= max_bits I96F32) by (vm_compute; congruence).
    assert (Hf : fixed_range I96F32 (k * unit_ I96F32)) by (apply fixed_range_pos; nia).
    exists (k * unit_ I96F32). rewrite saturate_id, Z.div_mul by (done || lia). done.
  - intros t x Hr Hx. apply saturate_id, fixed_range_pos. pose proof (unit_pos t). destruct Hr.
    pose proof (Z.mul_div_le x (unit_ t)). assert (0 <= x / unit_ t) by (apply Z.div_pos; lia). nia.
Qed.

(** Accounts are numbers, a [BTreeMap] is traversed in their order. *)
Definition key_le {V} (x y : nat * V) : Prop := (x.1 <= y.1)%nat.
#[export] Instance key_le_dec {V} (x y : nat * V) : Decision (key_le x y).
Proof. unfold key_le. apply _. Defined.
#[export] Instance test_btree : BTreeOrder (FS:=TestFrame).
Proof.
  refine {| btree_iter V m := merge_sort key_le (map_to_list (K:=nat) m) |}.
  intros V m. apply merge_sort_Permutation.
Defined.

(** Half of the emission goes to the miner 11, half to the validator 10. *)
#[export] Instance test_epoch : YumaEpoch (FS:=TestFrame) TestWorld := {|
  epoch _ e s := ([(10%nat, 0, e / 2); (11%nat, e / 2, 0)], s);
|}.
#[export] Instance test_epoch_laws : YumaEpochLaws (FS:=TestFrame) TestWorld.
Proof. split. intros n e s. exists (net_vecs s), (net_bool_vecs s), (Bonds s). by destruct s. Qed.
#[export] Instance test_price_laws : PriceLaws (FS:=TestFrame) TestWorld.
Proof. split. intros s n. cbn. split; vm_compute; congruence. Qed.

(** ** Emission *)

(** At three quarters of the supply a quarter of a TAO is emitted. *)
Lemma block_emission_halves_witness :
  (get_block_emission_for_issuance (FS:=TestFrame) 15750000000000000 (empty_storage (mkTestWorld ∅ 1))).1 = Some 250000000.
Proof.
  pose proof (block_emission_halves 15750000000000000 (empty_storage (mkTestWorld ∅ 1)) ltac:(lia)) as H.
  destruct (get_block_emission_for_issuance _ _) as [e s']. destruct H as [-> _]. vm_compute. reflexivity.
Defined.

(** ** Dividends *)

(** Hotkey 11 has the parents 10, of the same owner, and 12. *)
Definition family : Storage TestWorld :=
  empty_storage (mkTestWorld ∅ 100)
    <| ParentKeys := {[ (11%nat, 1) := [(U64_MAX, 10%nat); (9223372036854775807, 12%nat)] ]} |>
    <| net_key_nums := list_to_map
         [((NetKeyNum.TotalHotkeyAlpha, 1, 10%nat), 500); ((NetKeyNum.TotalHotkeyAlpha, 1, 11%nat), 300);
          ((NetKeyNum.TotalHotkeyAlpha, 1, 12%nat), 400); ((NetKeyNum.ChildkeyTake, 1, 11%nat), 11796)] |>
    <| Owner := list_to_map [(10%nat, 1%nat); (11%nat, 1%nat); (12%nat, 2%nat)] |>.

Lemma family_stakes n : stakes_typed (FS:=TestFrame) n family.
Proof.
  intros h. unfold get_stake_for_hotkey_on_subnet, get_net_key, family. cbn [net_key_nums setter].
  match goal with |- context [list_to_map ?l !! ?k] => destruct (list_to_map l !! k : option Z) as [v|] eqn:E end;
    cbn [default from_option id]; [|lia].
  apply (elem_of_list_to_map_2 (M:=gmap _)) in E. repeat (apply elem_of_cons in E as [E|E]; [simplify_eq; lia|]).
  by apply not_elem_of_nil in E.
Qed.

Lemma family_typed : dividends_typed (FS:=TestFrame) 11%nat 1 family.
Proof.
  split; [apply family_stakes|apply family_stakes|compute_done|compute_done| |compute_done].
  intros p q Hp. change (get_parents (FS:=TestFrame) 11%nat 1 family) with [(U64_MAX, 10%nat); (9223372036854775807, 12%nat)] in Hp.
  repeat (apply elem_of_cons in Hp as [Hp|Hp]; [simplify_eq; lia|]). by apply not_elem_of_nil in Hp.
Qed.

Lemma parent_dividends_conserved_witness :
  998 <= zsum snd (get_parent_child_dividends_distribution (FS:=TestFrame) 11%nat 1 1000 family) <= 1000.
Proof. apply (parent_dividends_conserved (FS:=TestFrame) 11%nat 1 1000 family family_typed). lia. Defined.

Example family_dividends : get_parent_child_dividends_distribution (FS:=TestFrame) 11%nat 1 1000 family
  = [(10%nat, 500); (12%nat, 164); (11%nat, 335)].
Proof. vm_compute. reflexivity. Qed.

(** ** The coinbase *)

(** Subnets 1 and 2 receive emissions, with moving prices 1/4 and 3/4; the
    first is closed for registrations, the epoch of the second is due. *)
Definition emitting_chain : Storage TestWorld :=
  empty_storage (mkTestWorld ∅ 16)
    <| NetworksAdded := {[ 0 := true; 1 := true; 2 := true ]} |>
    <| FirstEmissionBlockNumber := {[ 1 := 5; 2 := 5 ]} |>
    <| SubnetMovingPrice := {[ 1 := 1073741824; 2 := 3221225472 ]} |>
    <| net_flags := {[ (NetFlag.NetworkRegistrationAllowed, 2) := true ]} |>
    <| net_nums := list_to_map
         [((NetNum.SubnetMechanism, 1), 1); ((NetNum.SubnetMechanism, 2), 1); ((NetNum.Tempo, 2), 9);
          ((NetNum.SubnetTAO, 0), 1000000000); ((NetNum.Tempo, 1), 100)] |>.

Definition after_coinbase : Storage TestWorld :=
  run_coinbase (FS:=TestFrame) TestRuntime.signed (from_num U96F32 DefaultBlockEmission) emitting_chain.

Lemma emitting_prices : prices_ok (FS:=TestFrame) emitting_chain.
Proof.
  split; [|compute_done]. intros n p. unfold emitting_chain. cbn [SubnetMovingPrice setter].
  intros [[<- <-]|[_ [<- <-]%lookup_singleton_Some]]%lookup_insert_Some; split; vm_compute; congruence.
Qed.

(** Subnet 2 gets three quarters of a TAO, subnet 1 nothing. *)
Lemma coinbase_injects_emission_witness :
  get_net (FS:=TestFrame) NetNum.SubnetTaoInEmission 2 after_coinbase = 750000000 /\
  get_net (FS:=TestFrame) NetNum.SubnetTaoInEmission 1 after_coinbase = 0 /\
  get_total_issuance (FS:=TestFrame) after_coinbase = get_total_issuance (FS:=TestFrame) emitting_chain + 750000000.
Proof.
  destruct (coinbase_injects_emission (FS:=TestFrame) TestRuntime.signed DefaultBlockEmission emitting_chain emitting_prices) as (H1 & _ & H2 & _);
    [compute_done..|]. fold after_coinbase in H1, H2.
  assert (E : emitting (FS:=TestFrame) emitting_chain = [2; 1]) by compute_done. rewrite E in H1, H2.
  rewrite !zsum_cons, zsum_nil in H2.
  pose proof (H1 1 (list_elem_of_further _ _ _ (list_elem_of_here _ _))) as F1. pose proof (H1 2 (list_elem_of_here _ _)) as F2. clear H1.
  match type of F1 with _ = ?a => assert (A1 : a = 0) by compute_done; rewrite A1 in F1 end.
  match type of F2 with _ = ?a => assert (A2 : a = 750000000) by compute_done; rewrite A2 in F2 end.
  rewrite F1, F2 in H2. split; [exact F2|]. split; [exact F1|exact H2].
Defined.

(** The epoch of subnet 2 pays half of the emission to the miner 11 and the
    rest, less what was sold for the root, to the validator 10; what was pending
    is drained. Subnet 1 waits. *)
Example epoch_paid :
  get_stake_for_hotkey_on_subnet (FS:=TestFrame) 11%nat 2 after_coinbase = 410002288 /\
  get_stake_for_hotkey_on_subnet (FS:=TestFrame) 10%nat 2 after_coinbase = 398021395 /\
  get_net (FS:=TestFrame) NetNum.PendingEmission 2 after_coinbase = 0 /\
  get_net (FS:=TestFrame) NetNum.PendingEmission 1 after_coinbase = 803425118.
Proof. vm_compute. done. Qed.
