(* ===== verification/EpochExamples.v ===== *)
(** * The epoch on a concrete runtime *)

From S2P Require Import Prelude Frame Fixed SharePool TestRuntime Storage Misc Uids Reserves.
From S2P Require Import Children Staking StakeWeights BlockStep EpochMath EpochMatrix EpochBounds Weights.
From S2P Require Import Emission Dividends Coinbase Epoch EpochPays SubtensorExamples.
From stdpp Require Import prelude gmap list fin_maps.
From Stdlib Require Import ZArith Lia.
#[local] Open Scope Z_scope.

(** ** Instances *)

(** Exact arithmetic, saturated; the exponential by its first terms. *)
#[export] Instance bits_epoch_fixed : EpochFixed := {|
  EpochMatrix.exp t x := Some (saturate t (unit_ t + x + x * x / (2 * unit_ t)));
  saturating_div t x y := saturate t (if y =? 0 then 0 else Z.quot (x * unit_ t) y);
  EpochMatrix.checked_mul t x y :=
    let p := x * y / unit_ t in if (min_bits t <=? p) && (p <=? max_bits t) then Some p else None;
  plain_num t n := saturate t (n * unit_ t);
  plain_fixed dst src x := saturate dst (x * unit_ dst / unit_ src);
|}.

#[export] Instance bits_epoch_fixed_laws : EpochFixedLaws.
Proof.
  split; cbn; intros t.
  - intros x y _ _. apply saturate_range.
  - intros x y _ _ Hx Hy. pose proof (unit_pos t). pose proof (min_max t).
    assert (0 <= x * y / unit_ t) by (apply Z.div_pos; nia).
    by rewrite (proj2 (Z.leb_le (min_bits t) _)) by lia.
  - intros n. apply saturate_range.
  - intros src x. apply saturate_range.
Qed.

(** ** An epoch *)

(** Validators 10 and 11, with stakes 1000 and 500, give weights to each other
    and to the miner 12. *)
Definition yuma_neurons : Storage TestWorld :=
  append_neuron 1 12%nat 30 (append_neuron 1 11%nat 20 (append_neuron 1 10%nat 10
    (empty_storage (mkTestWorld ∅ 100)
       <| NetworksAdded := {[ 1 := true ]} |>
       <| net_nums := list_to_map [((NetNum.Tempo, 1), 9); ((NetNum.MaxAllowedValidators, 1), 2)] |>))).

Definition yuma_chain : Storage TestWorld :=
  put_vec NetVec.LastUpdate 1 [95; 96; 90] (put_bvec NetBoolVec.ValidatorPermit 1 [true; true; false] yuma_neurons)
    <| Weights := list_to_map [((1, 0), [(1, 10000); (2, 65535)]); ((1, 1), [(0, 30000); (2, 65535)])] |>
    <| Bonds := list_to_map [((1, 0), [(2, 65535)]); ((1, 1), [(0, 65535); (2, 20000)])] |>
    <| net_key_nums := list_to_map
         [((NetKeyNum.TotalHotkeyAlpha, 1, 10%nat), 1000); ((NetKeyNum.TotalHotkeyAlpha, 1, 11%nat), 500)] |>.

Lemma yuma_uids : uids_ok yuma_chain 1.
Proof.
  assert (H : uids_ok yuma_neurons 1).
  { do 3 (apply append_ok; [|reflexivity|reflexivity|vm_compute; congruence]). by apply empty_uids_ok. }
  destruct H as [Hk Hu Hm Hv Hb].
  replace (get_subnetwork_n 1 yuma_neurons) with 3 in Hk by (vm_compute; reflexivity).
  assert (Keys yuma_chain = Keys yuma_neurons /\ Uids yuma_chain = Uids yuma_neurons /\
    IsNetworkMember yuma_chain = IsNetworkMember yuma_neurons) as (EK & EU & EM).
  { unfold yuma_chain. generalize yuma_neurons. done. }
  split; unfold member; replace (get_subnetwork_n 1 yuma_chain) with 3 by (vm_compute; reflexivity).
  - rewrite EK. exact Hk.
  - rewrite EK, EU. exact Hu.
  - rewrite EM, EU. exact Hm.
  - intros [] E; (discriminate E || vm_compute; reflexivity).
  - intros []; vm_compute; reflexivity.
Qed.

(** A property of every row of a matrix is decided by looking at each. *)
Lemma rows_ok (P : Z -> list (Z * Z) -> Prop) (m : gmap (Z * Z) (list (Z * Z))) :
  Forall (fun x => P x.1.2 x.2) (map_to_list m) -> forall uid row, m !! (1, uid) = Some row -> P uid row.
Proof. intros H uid row Hr. rewrite Forall_forall in H. apply (H ((1, uid), row)). by apply elem_of_map_to_list. Qed.

Lemma yuma_ready : epoch_ready 1 yuma_chain.
Proof.
  split; [apply yuma_uids|vm_compute; congruence| | |].
  - apply rows_ok. refine (bool_decide_unpack _ _). vm_compute. exact I.
  - apply rows_ok. refine (bool_decide_unpack _ _). vm_compute. exact I.
  - intros total alpha tao E.
    assert (Forall (fun x => 0 <= x) total /\ zsum id total <= max_bits I64F64) as [H1 H2].
    { replace total with (get_stake_weights_for_network 1 yuma_chain).1.1 by (by rewrite E).
      refine (bool_decide_unpack _ _). vm_compute. exact I. }
    split; [|done]. by apply Forall_forall.
Qed.

Lemma epoch_pays_at_most_emission_witness : exists l s', epoch 1 1000000 yuma_chain = Some (l, s') /\
  (forall h, h ∈ l.*1.*1 <-> is_Some (Uids yuma_chain !! (1, h))) /\
  (forall h incentive dividend, (h, incentive, dividend) ∈ l -> 0 <= incentive /\ 0 <= dividend) /\
  zsum (fun '(_, incentive, dividend) => incentive + dividend) l <= 1000000.
Proof. apply (epoch_pays_at_most_emission 1 1000000 yuma_chain yuma_ready). vm_compute. split; congruence. Defined.

(** The payments: the miner gets about 39%, the validators their dividends by
    stake; two rao are lost to rounding. *)
Definition yuma_payments : list (AccountId * Z * Z) :=
  match epoch 1 1000000 yuma_chain with Some (l, _) => l | None => [] end.

Example yuma_pays : zsum (fun '(_, i, d) => i + d) yuma_payments = 999998.
Proof. vm_compute. reflexivity. Qed.
