(* ===== verification/NetworkExamples.v ===== *)
(** * Subnets, the senate and key swaps on a concrete runtime

    A world with a senate, and witnesses for the theorems on the life of
    subnets, root registration, key swaps and serving. *)

From S2P Require Import Prelude Frame Fixed SharePool TestRuntime Storage Misc Uids Serving Symbols Reserves Registration.
From S2P Require Import Identity RateLimiting Children Staking StakeWeights Emission.
From S2P Require Import Network Lifecycle Root KeySwap SwapSlots Networks SubtensorExamples StakingExamples CoinbaseExamples.
From stdpp Require Import prelude gmap list fin_maps.
From Stdlib Require Import ZArith Lia.
#[local] Open Scope Z_scope.
#[local] Open Scope monad_scope.

(** ** A world with a senate of two seats *)

Record SenateWorld := mkSenateWorld { sw_base : TestWorld; sw_members : list nat }.

#[export] Instance senate_env : SubtensorEnv (FS:=TestFrame) SenateWorld := {|
  system_block_number w := system_block_number (sw_base w);
  system_block_hash w := system_block_hash (sw_base w);
  keccak_256 := test_hash;
  sha2_256 := test_hash;
  encode_account := encode_account (W:=TestWorld);
  reducible_balance w := reducible_balance (sw_base w);
  can_withdraw w := can_withdraw (sw_base w);
  withdraw w a n :=
    match withdraw (sw_base w) a n with Ok (m, b) => Ok (m, mkSenateWorld b (sw_members w)) | Err e => Err e end;
  deposit w a n := mkSenateWorld (deposit (sw_base w) a n) (sw_members w);
|}.

#[export] Instance senate_swap : SwapHandler (FS:=TestFrame) SenateWorld := {|
  swap s _ order amount _ _ :=
    match order with
    | Buy => Ok (mkSwapResult amount amount 0 amount (- amount), world s)
    | Sell => Ok (mkSwapResult amount amount 0 (- amount) amount, world s)
    end;
  sim_swap _ _ order amount := Ok (mkSwapResult amount amount 0 amount (- amount));
  approx_fee_amount _ _ _ := 0;
  current_alpha_price _ _ := unit_ U96F32;
  max_price := U64_MAX;
  min_price := 0;
  adjust_protocol_liquidity s _ _ _ := world s;
|}.

#[export] Instance test_senate : Senate (FS:=TestFrame) SenateWorld := {|
  senate_members := sw_members;
  senate_max_members := 2;
  senate_add_member w a :=
    if bool_decide (a ∈ sw_members w) then Err false else Ok (mkSenateWorld (sw_base w) (a :: sw_members w));
  senate_swap_member w a b :=
    match list_find (eq a) (sw_members w) with
    | Some (i, _) => Ok (mkSenateWorld (sw_base w) (<[i := b]> (sw_members w)))
    | None => Err false
    end;
  add_vote w _ _ _ _ := Ok (true, w);
|}.

#[export] Instance test_senate_laws : SenateLaws (FS:=TestFrame) SenateWorld.
Proof.
  split; cbn.
  - intros w w' a. case_bool_decide; [done|]. by intros [= <-].
  - intros w w' a b. destruct (list_find (eq a) (sw_members w)) as [[i x]|] eqn:E; [|done]. intros [= <-]. cbn [sw_members].
    apply list_find_Some in E as (Hi & <- & _).
    rewrite insert_take_drop by (by eapply lookup_lt_Some). rewrite <- (take_drop_middle _ _ _ Hi) at 3.
    rewrite <- !Permutation_middle. apply Permutation_swap.
Qed.

#[export] Instance test_forced_withdraw : ForcedWithdraw (FS:=TestFrame) SenateWorld := {|
  withdraw_exact w a n :=
    match withdraw (sw_base w) a n with Ok (m, b) => Ok (m, mkSenateWorld b (sw_members w)) | Err e => Err e end;
|}.

(** A storage of the pallet over this world with nothing in it. *)
Definition empty_chain (w : SenateWorld) : Storage SenateWorld :=
  mkStorage TestFrame SenateWorld ∅ ∅ ∅ ∅ ∅ ∅ ∅ ∅ ∅ ∅ ∅ ∅ ∅ ∅ ∅ ∅ ∅ ∅ ∅ ∅ ∅ ∅ ∅ ∅ ∅ ∅ ∅ ∅ ∅ ∅ ∅
    None ∅ ∅ ∅ ∅ ∅ ∅ ∅ ∅ ∅ w [].

Lemma no_neurons_ok (s : Storage SenateWorld) : Keys s = ∅ -> Uids s = ∅ -> IsNetworkMember s = ∅ -> net_vecs s = ∅ ->
  net_bool_vecs s = ∅ -> (forall n, get_subnetwork_n (FS:=TestFrame) n s = 0) -> networks_ok (FS:=TestFrame) s.
Proof.
  intros Ek Eu Em Ev Eb En n. split; [|done].
  split; unfold member, get_vec, get_bvec; rewrite ?En, ?Ek, ?Eu, ?Em, ?Ev, ?Eb; cbn.
  - intros u. split; [by intros []|lia].
  - done.
  - done.
  - intros i Hi. destruct i; done.
  - by intros [].
Qed.

Lemma empty_chain_ok w : networks_ok (FS:=TestFrame) (empty_chain w).
Proof. by apply no_neurons_ok. Qed.

(** ** The life of a subnet *)

(** Block 10000 of a chain without subnets; coldkey 5 can pay for some. *)
Definition start : Storage SenateWorld :=
  empty_chain (mkSenateWorld (mkTestWorld {[ 5%nat := 9000000000000%N ]} 10000) []).

Definition one_subnet : Storage SenateWorld := exec (do_register_network (signed 5) 10%nat 1 None) start.

Lemma one_subnet_run : do_register_network (signed 5) 10%nat 1 None start = Ok (tt, one_subnet).
Proof. vm_compute. reflexivity. Qed.

Lemma register_network_opens_witness :
  get_net NetNum.SubnetTAO 1 one_subnet = 1000000000000 /\ Keys one_subnet !! (1, 0) = Some 10%nat.
Proof.
  destruct (register_network_opens _ _ _ _ _ _ one_subnet_run (empty_chain_ok _) ltac:(vm_compute; congruence))
    as (c & n & lock & s1 & _ & Hn & _ & _ & _ & _ & _ & Hk & _ & _ & _ & Ht & _).
  assert (n = 1) as -> by (vm_compute in Hn; congruence). split; [by rewrite Ht|].
  rewrite Hk. by rewrite lookup_insert_eq.
Defined.

Lemma one_subnet_ok : networks_ok (FS:=TestFrame) one_subnet.
Proof. by destruct (register_network_slots _ _ _ _ _ _ one_subnet_run (empty_chain_ok _)) as (? & _ & H & _). Qed.

(** A day later the price, which had doubled, has come down. *)
Lemma lock_cost_decays_witness :
  (get_network_lock_cost (FS:=TestFrame) one_subnet).1 = 2000000000000 /\
  lock_cost_at 1000000000000 1000000000000 10000 17200 100800 <= 2000000000000.
Proof.
  destruct (lock_cost_decays (FS:=TestFrame) one_subnet) as (_ & H1 & H2 & _); [vm_compute; congruence..|]. split.
  - rewrite H1 by (vm_compute; congruence). vm_compute. reflexivity.
  - refine (Z.le_trans _ _ _ (H2 17200 _) _); vm_compute; congruence.
Defined.

(** Bounds on all entries of a concrete storage, by computation. *)
Lemma typed_check netuid (s : Storage SenateWorld) :
  forallb (fun v => v <=? U16_MAX) (get_vec NetVec.PruningScores netuid s) = true ->
  bool_decide (map_Forall (fun _ b => b < U64_MAX) (BlockAtRegistration s)) = true -> prune_typed (FS:=TestFrame) netuid s.
Proof.
  intros H1 H2%bool_decide_eq_true u. split.
  - unfold get_pruning_score_for_uid. destruct (_ !! Z.to_nat u) as [v|] eqn:E; cbn; [|done].
    rewrite forallb_forall in H1. apply Z.leb_le, H1, list_elem_of_In. by eapply list_elem_of_lookup_2.
  - unfold get_neuron_block_at_registration. destruct (_ !! (netuid, u)) as [b|] eqn:E; cbn; [by eapply (H2 _ _ E)|done].
Qed.

Lemma stake_check netuid (s : Storage SenateWorld) :
  bool_decide (map_Forall (fun _ v => v <= U64_MAX) (net_key_nums s)) = true ->
  forall h : nat, get_stake_for_hotkey_on_subnet (FS:=TestFrame) h netuid s <= U64_MAX.
Proof.
  intros H%bool_decide_eq_true h. unfold get_stake_for_hotkey_on_subnet, get_net_key.
  destruct (_ !! _) as [v|] eqn:E; cbn; [by eapply (H _ _ E)|done].
Qed.

(** A second neuron, by burning. *)
Definition two_neurons : Storage SenateWorld := exec (do_burned_registration (signed 5) 1 11%nat) one_subnet.

(** ** An identifier used twice *)

(** Block 70000: subnet 1 is started, removed and registered again by coldkey 6. *)
Definition started : Storage SenateWorld :=
  exec (do_start_call (signed 5) 1)
    (one_subnet <| world := mkSenateWorld (mkTestWorld {[ 6%nat := 9000000000000%N ]} 70000) [] |>).
Definition removed : Storage SenateWorld := exec (user_remove_network 5%nat 1) started.
Definition reused : Storage SenateWorld := exec (do_register_network (signed 6) 12%nat 1 None) removed.

Lemma removed_subnet_stays_started_witness :
  is_valid_subnet_for_emission (FS:=TestFrame) 1 reused = true /\
  do_start_call (signed 6) 1 reused = Err (Module Error.FirstEmissionBlockNumberAlreadySet).
Proof.
  apply (removed_subnet_stays_started (FS:=TestFrame) 5%nat 1 70001 started removed (signed 6) 12%nat 1 None);
    vm_compute; reflexivity.
Defined.

(** ** The root network *)

(** A root network of two seats and a senate of two; hotkeys 10 to 12 have
    stake on root. *)
Definition root_chain : Storage SenateWorld :=
  empty_chain (mkSenateWorld (mkTestWorld ∅ 10) [])
    <| NetworksAdded := {[ 0 := true ]} |>
    <| net_nums := list_to_map [((NetNum.MaxAllowedUids, 0), 2); ((NetNum.MaxRegistrationsPerBlock, 0), 9);
         ((NetNum.TargetRegistrationsPerInterval, 0), 9)] |>
    <| net_key_nums := list_to_map [((NetKeyNum.TotalHotkeyAlpha, 0, 10%nat), 100);
         ((NetKeyNum.TotalHotkeyAlpha, 0, 11%nat), 50); ((NetKeyNum.TotalHotkeyAlpha, 0, 12%nat), 70)] |>.

Lemma root_chain_ok : networks_ok (FS:=TestFrame) root_chain.
Proof.
  apply no_neurons_ok; try done. intros n. unfold get_subnetwork_n, get_net. cbn [net_nums root_chain over setter].
  rewrite (proj1 (not_elem_of_list_to_map _ _)); [done|]. cbn. set_solver.
Qed.

Definition root_one : Storage SenateWorld := exec (do_root_register (signed 5) 10%nat) root_chain.
Definition root_two : Storage SenateWorld := exec (do_root_register (signed 5) 11%nat) root_one.

Lemma root_two_ok : networks_ok (FS:=TestFrame) root_two.
Proof.
  destruct (root_register_slot (FS:=TestFrame) (signed 5) 10%nat root_chain root_one) as [H1 _];
    [vm_compute; reflexivity|apply root_chain_ok|vm_compute; congruence|apply stake_check; vm_compute; reflexivity|].
  destruct (root_register_slot (FS:=TestFrame) (signed 5) 11%nat root_one root_two) as [H2 _];
    [vm_compute; reflexivity|done|vm_compute; congruence|apply stake_check; vm_compute; reflexivity|done].
Qed.

(** Root is full: hotkey 12, with a stake of 70, takes the slot of hotkey 11. *)
Definition root_three : Storage SenateWorld := exec (do_root_register (signed 5) 12%nat) root_two.

Lemma root_register_takes_least_witness : exists uid, Uids root_three !! (0, 12%nat) = Some uid /\
  exists old, Keys root_two !! (0, uid) = Some old /\ get_stake_for_hotkey_on_subnet (FS:=TestFrame) old 0 root_two < 70.
Proof.
  destruct (root_register_takes_least (FS:=TestFrame) (signed 5) 12%nat root_two root_three)
    as (_ & uid & Hu & _ & _ & H);
    [vm_compute; reflexivity|apply root_two_ok|vm_compute; congruence|apply stake_check; vm_compute; reflexivity|].
  exists uid. split; [done|]. destruct H as (old & Ho & Hlt & _); [vm_compute; congruence|]. exists old. split; [exact Ho|].
  assert (get_stake_for_hotkey_on_subnet (FS:=TestFrame) 12%nat 0 root_two = 70) as E by (vm_compute; reflexivity).
  rewrite E in Hlt. exact Hlt.
Defined.

(** Hotkey 10, with a stake of 100, claims the seat of account 20, which has none. *)
Definition senate_chain : Storage SenateWorld :=
  root_two <| world := mkSenateWorld (mkTestWorld ∅ 10) [11%nat; 20%nat] |>.
Definition adjusted : Storage SenateWorld := exec (do_adjust_senate (signed 5) 10%nat) senate_chain.

Lemma adjust_senate_seats_witness : is_senate_member (FS:=TestFrame) 10%nat adjusted = true /\
  senate_members (world adjusted) = [11%nat; 10%nat] /\ last (events adjusted) = Some (Event.SenateAdjusted None 10%nat).
Proof.
  destruct (adjust_senate_seats (FS:=TestFrame) (signed 5) 10%nat senate_chain adjusted) as (_ & _ & H1 & _ & H2);
    [vm_compute; reflexivity|]. split; [done|]. split; [vm_compute; reflexivity|done].
Defined.

(** ** Key swaps *)

(** Coldkeys 5 and 6 stake with hotkey 10 on the new subnet; hotkey 20, which
    has no neuron, belongs to coldkey 6. *)
Definition swap_chain : Storage SenateWorld :=
  one_subnet
    <| Owner ::= <[20%nat := 6%nat]> |>
    <| net_key_nums := list_to_map [((NetKeyNum.TotalHotkeyAlpha, 1, 10%nat), 4000000);
         ((NetKeyNum.TotalHotkeyShares, 1, 10%nat), 4000000 * 2 ^ 64)] |>
    <| Alpha := {[ (10%nat, 1) := list_to_map [(5%nat, 3000000 * 2 ^ 64); (6%nat, 1000000 * 2 ^ 64)] ]} |>
    <| key_lists ::= <[(KeyList.StakingHotkeys, 5%nat) := [10%nat]]> |>.

Definition hotkey_swapped : Storage SenateWorld := exec (do_swap_hotkey (signed 5) 10%nat 20%nat None) swap_chain.

Lemma hotkey_swap_run : do_swap_hotkey (signed 5) 10%nat 20%nat None swap_chain = Ok (tt, hotkey_swapped).
Proof. vm_compute. reflexivity. Qed.

Lemma swap_chain_ok : networks_ok (FS:=TestFrame) swap_chain.
Proof.
  unfold swap_chain. generalize one_subnet, one_subnet_ok. intros x Hx.
  by apply (networks_ok_same (FS:=TestFrame) x); [split| |].
Qed.

Lemma hotkey_swap_renames_slots_witness : Keys hotkey_swapped !! (1, 0) = Some 20%nat.
Proof.
  destruct (hotkey_swap_renames_slots (FS:=TestFrame) (signed 5) 10%nat 20%nat None swap_chain hotkey_swapped
    hotkey_swap_run swap_chain_ok) as [_ H]. rewrite H. vm_compute. reflexivity.
Defined.

(** Coldkey 6 loses hotkey 20 to the swap. *)
Lemma hotkey_swap_takes_ownership_witness :
  coldkey_owns_hotkey (FS:=TestFrame) 6%nat 20%nat hotkey_swapped = false /\
  coldkey_owns_hotkey (FS:=TestFrame) 5%nat 20%nat hotkey_swapped = true.
Proof.
  apply (hotkey_swap_takes_ownership (FS:=TestFrame) (signed 5) 5%nat 6%nat 10%nat 20%nat None swap_chain hotkey_swapped
    hotkey_swap_run); [reflexivity|vm_compute; reflexivity|congruence].
Defined.

(** Hotkey 20 has passed its stake on to 40 when 10 becomes 20. The swap gives 20 the
    children of 10, none, and leaves 20 a parent of 40: the four million alpha count
    for both. *)
Definition parent_taken : Storage SenateWorld :=
  swap_chain
    <| ChildKeys := {[ (20%nat, 1) := [(U64_MAX, 40%nat)] ]} |> <| ParentKeys := {[ (40%nat, 1) := [(U64_MAX, 20%nat)] ]} |>.
Example hotkey_swap_doubles_stake :
  let s := exec (do_swap_hotkey (signed 5) 10%nat 20%nat None) parent_taken in
  get_inherited_for_hotkey_on_subnet (FS:=TestFrame) 20%nat 1 s + get_inherited_for_hotkey_on_subnet (FS:=TestFrame) 40%nat 1 s = 8000000 /\
  get_stake_for_hotkey_on_subnet (FS:=TestFrame) 20%nat 1 s + get_stake_for_hotkey_on_subnet (FS:=TestFrame) 40%nat 1 s = 4000000.
Proof. split; vm_compute; reflexivity. Qed.

Lemma two_shares : forall c v,
  (list_to_map [(5%nat, 3000000 * 2 ^ 64); (6%nat, 1000000 * 2 ^ 64)] : gmap nat Z) !! c = Some v -> fixed_range U64F64 v.
Proof.
  intros c v Hv%elem_of_list_to_map_2. rewrite !elem_of_cons in Hv.
  destruct Hv as [[= -> ->]|[[= -> ->]|[]%elem_of_nil]]; split; vm_compute; congruence.
Qed.

Lemma swap_chain_carries : carries (FS:=TestFrame) 10%nat 20%nat 1 swap_chain.
Proof.
  split; [vm_compute; reflexivity|exact two_shares|split; vm_compute; congruence..].
Qed.

Lemma hotkey_swap_carries_stake_witness :
  get_stake_for_hotkey_and_coldkey_on_subnet (FS:=TestFrame) 20%nat 5%nat 1 hotkey_swapped = 3000000.
Proof.
  destruct (hotkey_swap_carries_stake (FS:=TestFrame) (signed 5) 10%nat 20%nat None swap_chain hotkey_swapped 1
    hotkey_swap_run) as (_ & _ & H).
  - apply list_elem_of_In. vm_compute. tauto.
  - apply swap_chain_carries.
  - destruct (H 5%nat) as [-> _]. vm_compute. reflexivity.
Defined.

(** Coldkey 5 becomes coldkey 7. *)
Definition coldkey_swapped : Storage SenateWorld := exec (do_swap_coldkey 5%nat 7%nat 100000000) swap_chain.

Lemma two_shares_range h n v : alpha_shares (FS:=TestFrame) h n swap_chain !! 5%nat = Some v -> fixed_range U64F64 v.
Proof.
  unfold alpha_shares. cbn [Alpha swap_chain over setter].
  destruct (decide ((h, n) = (10%nat, 1))) as [->|Hne]; [rewrite lookup_singleton_eq; apply two_shares|].
  rewrite lookup_singleton_ne by done. done.
Qed.

Lemma swap_chain_pool : pool_ok (Ops := get_alpha_share_pool (FS:=TestFrame) 10%nat 1) swap_chain.
Proof.
  split; [|vm_compute; reflexivity|vm_compute; split; congruence..].
  intros k v. cbn. unfold alpha_shares. change (Alpha swap_chain !! (10%nat, 1)) with
      (Some (list_to_map [(5%nat, 3000000 * 2 ^ 64); (6%nat, 1000000 * 2 ^ 64)] : gmap nat Z)). cbn [default from_option id].
  intros Hv%elem_of_list_to_map_2. rewrite !elem_of_cons in Hv.
  destruct Hv as [[= -> ->]|[[= -> ->]|[]%elem_of_nil]]; lia.
Qed.

(** Coldkey 5 becomes coldkey 6, which has a stake of its own. *)
Definition coldkey_merged : Storage SenateWorld := exec (do_swap_coldkey 5%nat 6%nat 100000000) swap_chain.

Lemma coldkey_swap_moves_stake_witness :
  get_stake_for_hotkey_and_coldkey_on_subnet (FS:=TestFrame) 10%nat 7%nat 1 coldkey_swapped = 3000000 /\
  get_stake_for_hotkey_and_coldkey_on_subnet (FS:=TestFrame) 10%nat 6%nat 1 coldkey_swapped = 1000000 /\
  get_subnet_owner (FS:=TestFrame) 1 coldkey_swapped = 7%nat /\
  4000000 <= get_stake_for_hotkey_and_coldkey_on_subnet (FS:=TestFrame) 10%nat 6%nat 1 coldkey_merged.
Proof.
  assert (NoDup (get_list (FS:=TestFrame) KeyList.StakingHotkeys 5%nat swap_chain)) as Hnd by (vm_compute; repeat constructor; set_solver).
  assert (10%nat ∈ get_list (FS:=TestFrame) KeyList.StakingHotkeys 5%nat swap_chain) as Hin by (apply list_elem_of_In; vm_compute; tauto).
  destruct (coldkey_swap_moves_stake (FS:=TestFrame) 5%nat 7%nat 100000000 swap_chain coldkey_swapped)
    as (H1 & H2 & _ & H4); [vm_compute; reflexivity|congruence|exact Hnd|exact two_shares_range|].
  destruct (coldkey_swap_moves_stake (FS:=TestFrame) 5%nat 6%nat 100000000 swap_chain coldkey_merged)
    as (_ & H3 & _); [vm_compute; reflexivity|congruence|exact Hnd|exact two_shares_range|].
  split; [|split; [|split]].
  - destruct (H2 10%nat 1 Hin) as (_ & _ & _ & E & _); [vm_compute; eauto|].
    rewrite (E (3000000 * 2 ^ 64)) by (vm_compute; reflexivity). vm_compute. reflexivity.
  - rewrite H1 by congruence. vm_compute. reflexivity.
  - apply H4; [vm_compute; eauto|vm_compute; reflexivity].
  - destruct (H3 10%nat 1 Hin) as (_ & _ & _ & _ & E); [vm_compute; eauto|].
    etrans; [|exact (E swap_chain_pool)]. vm_compute. congruence.
Defined.

(** ** Serving *)

Lemma serve_axon_exact_witness :
  do_serve_axon (signed 10) 1 1 16909060 8080 4 0 0 0 None one_subnet =
  Ok (tt, announced (FS:=TestFrame) 10%nat 1 (mkAxonInfo 10000 1 16909060 8080 4 0 0 0) None one_subnet).
Proof.
  rewrite (serve_axon_exact (FS:=TestFrame) (signed 10) 10%nat) by (reflexivity || (split; vm_compute; congruence)).
  vm_compute. reflexivity.
Defined.
