(* ===== verification/AdminExamples.v ===== *)
(** * The admin-utils pallet on a concrete runtime *)

From S2P Require Import Prelude Frame Fixed SharePool TestRuntime Storage Misc Uids Registration RateLimiting Staking.
From S2P Require Import StakeWeights EpochMath EpochMatrix Weights Emission Network Epoch AdminUtils.
From S2P Require Import SubtensorExamples CoinbaseExamples EpochExamples NetworkExamples.
From stdpp Require Import prelude gmap list fin_maps.
From Stdlib Require Import ZArith Lia.
#[local] Open Scope Z_scope.

#[export] Instance test_consensus : Consensus (FS:=TestFrame) SenateWorld := {|
  AuthorityId := nat;
  AuthorityList := list nat;
  change_authorities w _ := w;
  schedule_change w _ _ _ := Ok w;
|}.

(** Subnet 1 belongs to coldkey 5. *)
Definition admin_state : AdminState (FS:=TestFrame) SenateWorld :=
  mkAdminState TestFrame SenateWorld one_subnet (fun _ => DefaultPrecompileEnabled) 42 [].

Definition kappa_call : AdminCall (FS:=TestFrame) (W:=SenateWorld) := Call_sudo_set_kappa 1 40000.

Definition kappa_set : AdminState (FS:=TestFrame) SenateWorld := exec (admin_call (signed 5) kappa_call) admin_state.

Lemma kappa_run : admin_call (signed 5) kappa_call admin_state = Ok (tt, kappa_set).
Proof. vm_compute. reflexivity. Qed.

(** Somebody else is refused. *)
Example kappa_by_stranger : admin_call (signed 6) kappa_call admin_state = Err (External false).
Proof. vm_compute. reflexivity. Qed.

(** So is the owner where root is asked for. *)
Example tempo_by_owner :
  admin_call (signed 5) (Call_sudo_set_tempo 1 99) admin_state = Err (External (FS:=TestFrame) false).
Proof. vm_compute. reflexivity. Qed.

(** The owner may not raise the moving average of the bonds as far as root. *)
Example bonds_by_owner :
  admin_call (signed 5) (Call_sudo_set_bonds_moving_average 1 975001) admin_state =
    Err (Module (FS:=TestFrame) AdminError.BondsMovingAverageMaxReached) /\
  is_ok (admin_call root (Call_sudo_set_bonds_moving_average 1 975001) admin_state) = true.
Proof. split; vm_compute; reflexivity. Qed.

Lemma admin_authority_witness : authorised (signed 5) (Some 1) one_subnet.
Proof. exact (admin_authority _ _ _ _ kappa_run). Defined.

Lemma admin_call_confined_witness :
  get_net NetNum.Kappa 1 (subtensor kappa_set) = 40000 /\ confined_state 1 admin_state kappa_set.
Proof. split; [vm_compute; reflexivity|exact (admin_call_confined (signed 5) kappa_call 1 _ _ eq_refl kappa_run)]. Defined.
