(* ===== verification/SlotExamples.v ===== *)
(** * A run of the chain on a concrete runtime

    Instances for the interfaces of the calls, and a run that registers a subnet
    and a neuron, has the council set a tempo, and steps through a block whose
    epoch is due. *)

From S2P Require Import Prelude Frame Fixed SharePool TestRuntime Storage Misc Uids Symbols Reserves Registration Identity.
From S2P Require Import RateLimiting Children Staking StakeWeights BlockStep EpochMath EpochMatrix Weights Emission Serving Network Lifecycle Root.
From S2P Require Import KeySwap SwapSlots Networks Calls CallSlots Coinbase Hooks Epoch EpochPays EpochSlots AdminUtils ChainSlots.
From S2P Require Import SubtensorExamples CoinbaseExamples EpochExamples NetworkExamples AdminExamples.
From stdpp Require Import prelude gmap list fin_maps.
From Stdlib Require Import ZArith Lia.
#[local] Open Scope Z_scope.

(** Nothing is time-locked. *)
#[export] Instance senate_weights_env : WeightsEnv (FS:=TestFrame) SenateWorld := {|
  hash_of_reveal '(_, _, uids, values, salt, _) := uids ++ values ++ salt;
  hash_of_bytes b := b;
  pulse_signature _ _ := None;
  Ciphertext := unit;
  Signature := unit;
  deserialize_commit _ := None;
  deserialize_signature _ := None;
  tld _ _ := None;
  decode_payload _ := None;
|}.
#[export] Instance no_evm_keys : EvmCrypto := {|
  PublicKey := unit;
  recover_prehashed _ _ := None;
  parse_compressed _ := None;
  serialize _ := [];
|}.

Abbreviation CouncilCall := (AdminCall (FS:=TestFrame) (W:=SenateWorld)).

(** The council signs with 1000, which no account does, and makes calls of
    admin-utils. *)
#[export] Instance council_env : CallsEnv (FS:=TestFrame) CouncilCall SenateWorld := {|
  ensure_council o := if bool_decide (o = Some 1000%nat) then Ok tt else Err false;
  raw_root := None;
  BoundCall := Call (FS:=TestFrame) CouncilCall;
  bound w c := Some (c, w);
  schedule_at w _ _ _ _ := Some w;
|}.

Definition council_bypass (c : CouncilCall) (o : option nat) (s : Storage SenateWorld)
    : result bool (Storage SenateWorld) :=
  match admin_call (FS:=TestFrame) o c (mkAdminState TestFrame SenateWorld s (fun _ => DefaultPrecompileEnabled) 42 []) with
  | Ok (_, a) => Ok (subtensor a)
  | Err _ => Err false
  end.

Lemma council_keeps : bypass_keeps (FS:=TestFrame) council_bypass.
Proof.
  intros c o s s' H Hok. unfold council_bypass in H. destruct (admin_call _ _ _) as [[u a]|] eqn:E; [|done]. injection H as <-.
  exact (admin_calls_keep_slots (FS:=TestFrame) o c _ _ _ E Hok).
Qed.

Abbreviation dispatch c o := (subtensor_call (FS:=TestFrame) council_bypass c o).

(** An epoch every seven blocks, one of them now. *)
Definition tempo_set : Storage SenateWorld := exec (dispatch (Sudo (FS:=TestFrame) (Call_sudo_set_tempo 1 6)) (Some 1000%nat)) two_neurons.
Definition epoch_done : Storage SenateWorld := on_initialize (FS:=TestFrame) signed 10000 tempo_set.

Lemma slots_always_consistent_witness :
  networks_ok (FS:=TestFrame) epoch_done /\ get_subnetwork_n (FS:=TestFrame) 1 epoch_done = 2 /\
  get_net (FS:=TestFrame) NetNum.LastMechansimStepBlock 1 epoch_done = 10000.
Proof.
  split; [|split; vm_compute; reflexivity].
  apply (slots_always_consistent (FS:=TestFrame) signed council_bypass start); [apply council_keeps| |apply empty_chain_ok].
  eapply rtc_l; [apply (StepCall (FS:=TestFrame) signed council_bypass (RegisterNetwork (FS:=TestFrame) 10%nat) (signed 5)); [exact one_subnet_run|exact I]|].
  eapply rtc_l; [apply (StepCall (FS:=TestFrame) signed council_bypass (BurnedRegister (FS:=TestFrame) 1 11%nat) (signed 5) one_subnet two_neurons)|].
  - vm_compute. reflexivity.
  - split; [vm_compute; split; congruence|apply typed_check; vm_compute; reflexivity].
  - eapply rtc_l; [apply (StepCall (FS:=TestFrame) signed council_bypass (Sudo (FS:=TestFrame) (Call_sudo_set_tempo 1 6)) (Some 1000%nat) two_neurons tempo_set)|].
    + vm_compute. reflexivity.
    + exact I.
    + apply rtc_once, StepBlock.
Defined.
