(* ===== verification/SwapExamples.v ===== *)
(** * The swap pallet on a concrete runtime

    A world with balances, stakes and two provided reserves, on which the calls and
    swaps run. The theorems on swaps and positions are applied to its states. *)

From S2P Require Import Prelude Frame Fixed SharePool Tick TickMath Reserves SwapPool SwapEngine SwapBooks SwapProofs SwapBounds TestRuntime.
From stdpp Require Import prelude gmap list fin_maps.
From Stdlib Require Import ZArith Lia.
#[local] Open Scope Z_scope.

Record PoolWorld := mkWorld {
  pw_tao : gmap nat Z;
  pw_alpha : gmap (nat * nat) Z;
  pw_tao_provided : Z;
  pw_alpha_provided : Z;
}.
#[export] Instance PoolWorld_eta : Eta PoolWorld := fun w =>
  mkWorld (pw_tao w) (pw_alpha w) (pw_tao_provided w) (pw_alpha_provided w).
Definition tao_of (w : PoolWorld) (a : nat) : Z := default 0 (pw_tao w !! a).
Definition alpha_of (w : PoolWorld) (c h : nat) : Z := default 0 (pw_alpha w !! (c, h)).

(** Subnets 0 to 9, owned by account 7, with 1000 TAO and 4000 alpha each. *)
#[export] Instance PoolSubnets : SubnetInfo (FS:=TestFrame) PoolWorld := {|
  tao_reserve w n := 1000000000000 + pw_tao_provided w;
  alpha_reserve w n := 4000000000000 + pw_alpha_provided w;
  exists_ w n := (0 <=? n) && (n <=? 9);
  mechanism w n := 1;
  is_owner w a n := (a =? 7)%nat;
|}.

Definition put_tao (a : nat) (v : Z) (w : PoolWorld) : PoolWorld := w <| pw_tao ::= <[a := v]> |>.
Definition put_alpha (c h : nat) (v : Z) (w : PoolWorld) : PoolWorld := w <| pw_alpha ::= <[(c, h) := v]> |>.

#[export] Instance PoolBalances : BalanceOps (FS:=TestFrame) PoolWorld := {|
  tao_balance := tao_of;
  alpha_balance w n c h := alpha_of w c h;
  increase_balance w a v := put_tao a (tao_of w a + v) w;
  decrease_balance w a v := if v <=? tao_of w a then Ok (v, put_tao a (tao_of w a - v) w) else Err true;
  increase_stake w c h n v := Ok (put_alpha c h (alpha_of w c h + v) w);
  decrease_stake w c h n v := if v <=? alpha_of w c h then Ok (v, put_alpha c h (alpha_of w c h - v) w) else Err true;
  increase_provided_tao_reserve w n v := w <| pw_tao_provided ::= Z.add v |>;
  decrease_provided_tao_reserve w n v := w <| pw_tao_provided ::= fun x => x - v |>;
  increase_provided_alpha_reserve w n v := w <| pw_alpha_provided ::= Z.add v |>;
  decrease_provided_alpha_reserve w n v := w <| pw_alpha_provided ::= fun x => x - v |>;
|}.

#[export] Instance BitsSwap : SwapFixed := {|
  saturating_div t x y := saturate t (Z.quot (x * unit_ t) y);
  saturating_round t x := (x + unit_ t / 2) / unit_ t * unit_ t;
  sqrt128 := Z.sqrt;
|}.
#[export] Instance BitsSwapLaws : SwapFixedLaws.
Proof.
  split. intros n [H1 H2]. cbn in H1, H2. cbn. split; [apply Z.sqrt_nonneg|].
  unfold int_max. enough (Z.sqrt n < 2 ^ 64) by lia. apply Z.sqrt_lt_square; lia.
Qed.

(** The parameters of the runtime. *)
#[export] Instance PoolConfig : SwapConfig (FS:=TestFrame) := {|
  ProtocolId := 1001%nat;
  MaxFeeRate := 10000;
  MaxPositions := 100;
  MinimumLiquidity := 1000;
  MinimumReserve := 1000000;
|}.

Abbreviation Demo := (Swap (FS:=TestFrame) PoolWorld).

Definition account1 : AccountId (FrameSystem:=TestFrame) := 1%nat.
Definition account2 : AccountId (FrameSystem:=TestFrame) := 2%nat.

(** Account 1 has balances, account 2 has none. *)
Definition pool0 : Demo :=
  mkSwap ∅ ∅ ∅ ∅ ∅ ∅ ∅ ∅ ∅ ∅ 0 ∅ []
    (mkWorld {[ 1%nat := 1000000000000 ]} {[ (1, 1)%nat := 1000000000000 ]} 0 0).

(** The owner enables liquidity; a first purchase opens the pool; account 1 adds a
    position around the price; a sale crosses its lower tick. *)
Definition pool1 : Demo := exec (swap_call (ToggleUserLiquidity (signed 7) 1 true)) pool0.
Definition pool2 : Demo := (do_swap 1 Buy 1000000000 (2 ^ 64) false pool1).2.
Definition pool3 : Demo := exec (swap_call (AddLiquidity (signed 1) 1%nat 1 (-14000) (-13000) 5000000000)) pool2.
Definition pool4 : Demo := (do_swap 1 Sell 50000000000 (2 ^ 60) false pool3).2.

(** The price leaves the range of the position, and its liquidity the pool. *)
Example demo_run :
  map (fun s : Demo => (current_tick 1 s, current_liquidity 1 s)) [pool2; pool3; pool4] =
    [(-13844, 2000000000000); (-13844, 2005000000000); (-14092, 2000000000000)].
Proof. vm_compute. reflexivity. Qed.

(** What meets at one tick is at most all there is. *)
Definition all_liquidity (s : Demo) : Z := over_positions (fun p => 2 * Position.liquidity p) (Positions s).
Definition small (s : Demo) : bool :=
  forallb (fun x => 0 <=? Position.liquidity x.2) (map_to_list (Positions s)) &&
  (all_liquidity s <=? U64_MAX) && (LastPositionId s <? U128_MAX).

Lemma gross_total (P : gmap (Z * AccountId (FrameSystem:=TestFrame) * Z) Position) n t :
  (forall k p, P !! k = Some p -> 0 <= Position.liquidity p) ->
  gross_at P n t <= over_positions (fun p => 2 * Position.liquidity p) P.
Proof.
  unfold gross_at. induction P as [|k p P Hk IH] using map_ind; intros Hp.
  - unfold over_positions. by rewrite !fmap_empty.
  - rewrite !over_insert_new by done.
    assert (0 <= Position.liquidity p) by (apply (Hp k); by rewrite lookup_insert_eq).
    assert (gross_leg n t p <= 2 * Position.liquidity p) by (unfold gross_leg, leg; repeat case_match; lia).
    enough (over_positions (gross_leg n t) P <= over_positions (fun p => 2 * Position.liquidity p) P) by lia.
    apply IH. intros j q Hj. apply (Hp j). rewrite lookup_insert_ne; [done|congruence].
Qed.
Lemma small_fits (s : Demo) : small s = true -> fits s.
Proof.
  intros [[H1 H2%Z.leb_le]%andb_true_iff H3%Z.ltb_lt]%andb_true_iff. split; [|done].
  intros n t. etransitivity; [|exact H2]. apply gross_total. intros k p Hk.
  rewrite forallb_forall in H1. apply Z.leb_le, (H1 (k, p)). by apply list_elem_of_In, elem_of_map_to_list.
Qed.

Lemma ran (m : Pool PoolWorld unit) (s : Demo) : is_ok (m s) = true -> m s = Ok (tt, exec m s).
Proof. unfold exec. by destruct (m s) as [[[] s']|]. Qed.

Definition state_of {A} (r : result (error Error) (A * Demo)) : Demo := match r with Ok (_, s) => s | Err _ => pool0 end.
Lemma run_ok {E A} (r : result E (A * Demo)) : is_ok r = true -> exists a s, r = Ok (a, s).
Proof. destruct r as [[a s]|]; [|done]. by exists a, s. Qed.

Lemma reachable1 : swap_reachable pool1.
Proof.
  apply (reach_step pool0); [by apply reach_genesis| |apply small_fits; vm_compute; reflexivity].
  apply (step_call (ToggleUserLiquidity (signed 7) 1 true)); [done|]. apply ran. vm_compute. reflexivity.
Qed.
Lemma reachable2 : swap_reachable pool2.
Proof.
  apply (reach_step pool1); [apply reachable1|apply step_swap|apply small_fits; vm_compute; reflexivity].
Qed.
Lemma reachable3 : swap_reachable pool3.
Proof.
  apply (reach_step pool2); [apply reachable2| |apply small_fits; vm_compute; reflexivity].
  apply (step_call (AddLiquidity (signed 1) 1%nat 1 (-14000) (-13000) 5000000000)).
  - vm_compute. split; congruence.
  - apply ran. vm_compute. reflexivity.
Qed.
Lemma reachable4 : swap_reachable pool4.
Proof.
  apply (reach_step pool3); [apply reachable3|apply step_swap|apply small_fits; vm_compute; reflexivity].
Qed.

(* The states are evaluated by [vm_compute] only. *)
#[local] Opaque pool1 pool2 pool3 pool4.

Lemma tick_books_balance_witness :
  swap_reachable pool4 /\
  let gross := gross_at (Positions pool4) 1 (-14000) in
  let net := net_at (Positions pool4) 1 (-14000) in
  (active (TickIndexBitmapWords pool4) 1 (-14000) = true <-> is_Some (Ticks pool4 !! (1, -14000))) /\
  match Ticks pool4 !! (1, -14000) with
  | Some x => liquidity_gross x = gross /\ liquidity_net x = net
  | None => gross = 0
  end.
Proof. split; [exact reachable4|]. apply (tick_books_balance pool4 1 (-14000)). exact reachable4. Defined.

(** ** Positions *)

Lemma pool2_price : price_typed 1 pool2.
Proof. vm_compute. split; congruence. Qed.
Lemma pool3_price : price_typed 1 pool3.
Proof. vm_compute. split; congruence. Qed.

(** Account 2 owns nothing. *)
Lemma reversed_range_is_free_witness :
  tao_balance (world pool2) account2 = 0 /\
  exists id s', do_add_liquidity 1 account2 account2 5 (-5) 1000000 pool2 = Ok ((id, 0, 0), s') /\
    exists p, position_at 1 account2 id s' = Some p /\ Position.liquidity p = 1000000 /\ Position.tick_low p = 5 /\ Position.tick_high p = -5.
Proof.
  split; [reflexivity|].
  apply (reversed_range_is_free 1 account2 account2 5 (-5) 1000000 pool2); try exact pool2_price;
    try (vm_compute; split; congruence); vm_compute; congruence.
Defined.

(** What a test finds of every entry of a map holds of every entry. *)
Lemma map_test `{Countable K} {V} (f : V -> bool) (m : gmap K V) : forallb (fun x => f x.2) (map_to_list m) = true ->
  forall k v, m !! k = Some v -> f v = true.
Proof.
  intros Ht k v Hk. rewrite forallb_forall in Ht. apply (Ht (k, v)). by apply list_elem_of_In, elem_of_map_to_list.
Qed.
Lemma default_test `{Countable K} {V} (f : V -> bool) (d : V) (m : gmap K V) : forallb (fun x => f x.2) (map_to_list m) = true ->
  f d = true -> forall k, f (default d (m !! k)) = true.
Proof. intros Ht Hd k. destruct (m !! k) as [v|] eqn:E; [by apply (map_test f m Ht k)|done]. Qed.

Lemma pool2_gross t x : Ticks pool2 !! (1, t) = Some x -> 0 <= liquidity_gross x.
Proof.
  intros Hx. apply Z.leb_le. apply (map_test (fun x => 0 <=? liquidity_gross x) (Ticks pool2)) in Hx; [done|]. vm_compute. reflexivity.
Qed.

(** The ticks of the protocol's own position go. *)
Lemma free_position_erases_ticks_witness :
  is_Some (Ticks pool2 !! (1, TickIndex.MIN)) /\ is_Some (Ticks pool2 !! (1, TickIndex.MAX)) /\
  exists id s1 r s2, do_add_liquidity 1 account2 account2 TickIndex.MAX TickIndex.MIN U64_MAX pool2 = Ok ((id, 0, 0), s1) /\
    do_remove_liquidity 1 account2 id s1 = Ok (r, s2) /\
    Ticks s2 !! (1, TickIndex.MAX) = None /\ Ticks s2 !! (1, TickIndex.MIN) = None /\
    forall k, k <> (1, account2, id) -> Positions s2 !! k = Positions pool2 !! k.
Proof.
  split; [vm_compute; by eexists|]. split; [vm_compute; by eexists|].
  apply (free_position_erases_ticks 1 account2 account2 TickIndex.MAX TickIndex.MIN pool2); try exact pool2_price; try exact (pool2_gross);
    try (vm_compute; split; congruence); vm_compute; congruence.
Defined.

Definition in_fixed (t : FixTy) (x : Z) : bool := (min_bits t <=? x) && (x <=? max_bits t).
Lemma in_fixed_range t x : in_fixed t x = true -> fixed_range t x.
Proof. intros [H1%Z.leb_le H2%Z.leb_le]%andb_true_iff. done. Qed.
Definition tick_typed (x : Tick) : bool := in_fixed I64F64 (fees_out_tao x) && in_fixed I64F64 (fees_out_alpha x).

Lemma pool2_fees : fees_typed pool2.
Proof.
  split.
  - intros n. apply in_fixed_range, (default_test (in_fixed U64F64) 0); vm_compute; reflexivity.
  - intros n. apply in_fixed_range, (default_test (in_fixed U64F64) 0); vm_compute; reflexivity.
  - intros n t. assert (tick_typed (tick_at n t pool2) = true) as [H1 H2]%andb_true_iff
      by (apply (default_test tick_typed default_tick); vm_compute; reflexivity).
    split; by apply in_fixed_range.
Qed.

(** What account 1 pays for its position it gets back. *)
Definition bought : result (error Error) (Z * Z * Z * Demo) := do_add_liquidity 1 account1 account1 (-14000) (-13000) 5000000000 pool2.
Definition pool_bought : Demo := state_of bought.

Lemma withdrawal_returns_deposit_witness :
  exists id tao alpha s1 s2, bought = Ok ((id, tao, alpha), s1) /\
    do_remove_liquidity 1 account1 id s1 = Ok (Update.mk tao alpha 0 0 true, s2) /\
    Positions s2 = Positions pool2 /\ current_liquidity 1 s2 = current_liquidity 1 pool2.
Proof.
  destruct (run_ok bought) as ([[id tao] alpha] & s1 & E); [vm_compute; reflexivity|].
  assert (s1 = pool_bought) as E1 by (unfold pool_bought; by rewrite E).
  exists id, tao, alpha, s1.
  edestruct (withdrawal_returns_deposit 1 account1 account1 (-14000) (-13000) 5000000000 pool2 id tao alpha s1) as (s2 & H).
  - exact reachable2.
  - exact pool2_fees.
  - vm_compute. split; congruence.
  - vm_compute. congruence.
  - vm_compute. congruence.
  - exact E.
  - rewrite E1. apply small_fits. vm_compute. reflexivity.
  - exists s2. split; [exact E|exact H].
Defined.

(** Taking all but 500 of 5000000000 out deletes the position; the 500 stay in the
    current liquidity for good. *)
Definition trimmed : result (error Error) (UpdateLiquidityResult * Demo) :=
  do_modify_position 1 account1 account1 2 (-4999999500) pool3.
Definition pool_position : Position := default (Position.mk 0 0 0 0 0 0 0) (position_at 1 account1 2 pool3).

Lemma modify_forfeits_remainder_witness :
  exists r s', trimmed = Ok (r, s') /\ position_at 1 account1 2 s' = None /\ Update.removed r = true /\
    to_token_amounts (pool_position <| Position.liquidity := 4999999500 |>) (current_price_sqrt 1 pool3) =
      Ok (Update.tao r, Update.alpha r) /\
    current_liquidity 1 pool3 - 4999999500 <= current_liquidity 1 s'.
Proof.
  destruct (run_ok trimmed) as (r & s' & E); [vm_compute; reflexivity|].
  exists r, s'. split; [exact E|].
  apply (modify_forfeits_remainder 1 account1 account1 2 (-4999999500) pool3 pool_position r s').
  - exact E.
  - vm_compute. reflexivity.
  - vm_compute. reflexivity.
  - exact pool3_price.
  - vm_compute. congruence.
  - reflexivity.
  - vm_compute. reflexivity.
  - reflexivity.
Defined.

(** ** A purchase *)

Lemma swap_ok {E A} (x : result E A * Demo) : is_ok x.1 = true -> exists r s, x = (Ok r, s).
Proof. destruct x as [[r|] s]; [|done]. by exists r, s. Qed.

Lemma buy_takes_no_more_witness :
  exists r s', do_swap 1 Buy 1000000000 (2 ^ 64) false pool3 = (Ok r, s') /\
    0 <= amount_paid_in r <= 1000000000 /\ tao_reserve_delta r = amount_paid_in r.
Proof.
  destruct (swap_ok (do_swap 1 Buy 1000000000 (2 ^ 64) false pool3)) as (r & s' & E); [vm_compute; reflexivity|].
  exists r, s'. split; [exact E|].
  destruct (buy_takes_no_more 1 1000000000 (2 ^ 64) false pool3 r s') as (H1 & _ & H2).
  - vm_compute. split; congruence.
  - intros _. exact pool3_price.
  - vm_compute. split; congruence.
  - vm_compute. split; congruence.
  - exact E.
  - split; [exact H1|apply H2; vm_compute; congruence].
Defined.

(** ** Defects of the calls, on the run *)

(** [modify_position] leaves the provided reserves alone, and [remove_liquidity]
    takes what it pays out of them: a position that grew takes out more than was
    ever put in. *)
Example modify_forgets_reserves :
  let s := exec (swap_call (ModifyPosition (signed 1) account1 1 2 5000000000)) pool3 in
  let s := exec (swap_call (RemoveLiquidity (signed 1) account1 1 2)) s in
  (is_ok (swap_call (ModifyPosition (signed 1) account1 1 2 5000000000) pool3), Z.of_nat (size (Positions s)),
   pw_tao_provided (world s) <? 0, pw_alpha_provided (world s) <? 0) = (true, 1, true, true).
Proof. vm_compute. reflexivity. Qed.

(** [adjust_protocol_liquidity] raises the liquidity of the protocol's position; its
    ticks and the current liquidity still say the old one. *)
Example protocol_adjustment_unbooked :
  let s := adjust_protocol_liquidity 1 1000000000 4000000000 pool2 in
  (map (fun x => Position.liquidity x.2) (account_positions 1 protocol_account_id s) = [2002000000410]) /\
  Ticks s = Ticks pool2 /\ current_liquidity 1 s = 2000000000000.
Proof. vm_compute. repeat split; reflexivity. Qed.
