(* ===== verification/ChainExamples.v ===== *)
(** * A purchase through both pallets

    A world that holds the storage of the swap pallet next to the balances, and a
    purchase that runs from the subtensor pallet through the engine and back. *)

From S2P Require Import Prelude Frame Fixed SharePool TestRuntime Storage Misc Reserves Staking Tick TickMath.
From S2P Require Import SwapPool SwapEngine SwapBooks SwapProofs SwapBounds SwapChain SubtensorExamples SwapExamples.
From stdpp Require Import prelude gmap list fin_maps.
From Stdlib Require Import ZArith Lia.
#[local] Open Scope Z_scope.

Record ChainWorld := mkChain { cw_bank : TestWorld; cw_pool : Swap (FS:=TestFrame) unit }.

#[export] Instance chain_env : SubtensorEnv (FS:=TestFrame) ChainWorld := {|
  system_block_number w := system_block_number (cw_bank w);
  system_block_hash w := system_block_hash (cw_bank w);
  keccak_256 := test_hash;
  sha2_256 := test_hash;
  encode_account := encode_account (W:=TestWorld);
  reducible_balance w := reducible_balance (cw_bank w);
  can_withdraw w := can_withdraw (cw_bank w);
  withdraw w a n :=
    match withdraw (cw_bank w) a n with Ok (m, b) => Ok (m, mkChain b (cw_pool w)) | Err e => Err e end;
  deposit w a n := mkChain (deposit (cw_bank w) a n) (cw_pool w);
|}.
#[export] Instance chain_pool : PoolStorage (FS:=TestFrame) ChainWorld := {|
  pool := cw_pool;
  set_pool p w := mkChain (cw_bank w) p;
|}.
#[export] Instance chain_balances : Balances (FS:=TestFrame) ChainWorld := {|
  free_balance w a := Z.of_N (tw_balance (cw_bank w) a);
|}.
#[export] Instance chain_errors : PalletErrors (FS:=TestFrame) := {|
  subtensor_error _ := true;
  swap_error _ := true;
|}.

Definition empty_pool : Swap (FS:=TestFrame) unit := mkSwap ∅ ∅ ∅ ∅ ∅ ∅ ∅ ∅ ∅ ∅ 0 ∅ [] tt.
Definition chain_storage : Storage ChainWorld :=
  put_net NetNum.SubnetMechanism 1 1 (put_net NetNum.SubnetTAO 1 1000000000000
    (put_net NetNum.SubnetAlphaIn 1 4000000000000
      (mkStorage TestFrame ChainWorld ∅ ∅ ∅ ∅ ∅ ∅ ∅ ∅ ∅ ∅ ∅ ∅ ∅ ∅ ∅ ∅ ∅ ∅ ∅ ∅ ∅ ∅ ∅ ∅ ∅ ∅ ∅ ∅ ∅ ∅ ∅
        None ∅ ∅ ∅ ∅ ∅ ∅ ∅ ∅ ∅ (mkChain (mkTestWorld ∅ 5) empty_pool) []))).

Lemma chain_storage_ok : reserves_ok 1 chain_storage.
Proof. split; vm_compute; discriminate. Qed.

(** The limit is a price of one TAO. *)
Definition purchase : result (error Storage.Error.Error) (SwapResult * Storage ChainWorld) :=
  swap_tao_for_alpha 1 1000000000 1000000000 chain_storage.
Definition purchased : SwapResult := mkSwapResult 997009232 3984064778 2990768 997009232 (-3984064778).
Definition chain_after : Storage ChainWorld := exec (swap_tao_for_alpha 1 1000000000 1000000000) chain_storage.

Lemma purchase_meets_reserves_witness :
  Reserves.tao_reserve 1 chain_after = 1000997009232 /\ Reserves.alpha_reserve 1 chain_after = 3996015935222.
Proof.
  destruct (purchase_meets_reserves 1 1000000000 1000000000 chain_storage purchased chain_after)
    as (_ & E1 & _ & E2 & _); [apply chain_storage_ok|vm_compute; first [reflexivity|split; congruence|congruence]..|].
  split; [rewrite E1|rewrite E2]; vm_compute; reflexivity.
Defined.
